(* ===== verification/_CoqProject ===== *)
-Q . S2P
Prelude.v
Addr.v
PhysMem.v
FrameAlloc.v
PageTable.v
UserMem.v
MemorySet.v
AddressSpace.v
Fork.v
ElfLoad.v
BlockDev.v
BlockCache.v
Inode.v
Fd.v
FatItem.v
Fat.v
FatDir.v
FatFile.v
VirtQueue.v
VirtioBlk.v
VirtioServe.v
VirtioNet.v
VirtioInput.v
VirtioConsole.v
VirtioGpu.v
VirtioBlock.v
Mount.v
Kernel.v
SysProc.v
SysFs.v
Syscall.v
Machine.v
Trampoline.v
RiscvAddr.v
RiscvPaging.v
RiscvRegs.v
ProcTree.v
Sched.v
FsTyped.v
FileCalls.v
Conc.v
Mutex.v
FairLocks.v
RwLock.v
Once.v
Barrier.v
AsyncTask.v
TaskWord.v
AsyncTaskSafe.v
