(* ===== verification/Prelude.v ===== *)
(** * MoOS (naive-os): a verified model of the kernel

    MoOS is a kernel in Rust for one RISC-V hart with Sv39 paging
    ([src/os/kernel]).  It loads a first program, runs user programs as
    asynchronous tasks, gives them address spaces, processes, files in memory,
    pipes and a terminal through system calls, and reads files from a FAT32
    disk behind a virtio block device.  The crates it is built from are kept
    with it under [src/os/kernel/dependencies].  This library translates the
    kernel, its assembly and these crates into Rocq and proves what makes
    their parts correct.  Paths in pointers such as [[mm/address.rs:60-64]] are
    relative to [src/os/kernel/src]; those that start with [fat32/],
    [virtio-drivers/], [spin/], [async-task/] or [riscv/] are relative to the
    [src] of that crate, those with [bit_field/] to
    [src/os/kernel/vendor/bit_field/src].

    ** How the code is modelled

    Sequential code is a function on its state that gives a result and a new
    state or a fault: [M S A], with [let*].  A fault is a panic, a lock taken
    twice, a shutdown, or [Fuel].  [&mut self] methods return the new value,
    [Option], [Result] and [unwrap] are as in Rust.  The kernel is built in
    release mode: [usize] arithmetic wraps and is written [+u], [-u], [*u].
    Shared objects ([Arc], [Arc<Mutex<_>>]) are keys of stores, so that aliasing
    is as in the code.  A type class stands for a trait, a second one with its
    laws for what the code relies on: [INode], [BlockDevice], [BlockIO],
    [BlkDriver], [VirtioDevice], [MutexImpl], [Mapper].  An [async] handler is a
    function that returns either a result or what is left to do; the task is
    polled again with that.

    The crates for synchronisation are concurrent: their operations are programs
    of atomic steps, and the theorems hold for every interleaving of any number
    of threads ([Conc]).  A virtio device shares memory with its driver and
    moves whenever the driver polls; the laws of its class say what it has done
    after a bounded number of moves.

    ** The parts

    Memory.
    - [Addr]: address types, conversions, ranges ([mm/address.rs]).
    - [PhysMem]: RAM as pages of bytes, seen as bytes, words and entries.
    - [FrameAlloc]: the frame allocator ([mm/frame_allocator.rs]); state
      [StackFrameAllocator], global state [mm] (allocator and RAM).
    - [PageTable]: entries and the three-level table, its frames
      ([mm/page_table.rs]); [UserMem]: the routines that reach user memory.
    - [MemorySet]: areas, address spaces, copying, loading
      ([mm/memory_set.rs]); [AddressSpace], [Fork], [ElfLoad]: their proofs.

    Files.
    - [BlockDev]: byte ranges over blocks ([fs/util.rs], [fs/dev/mod.rs]);
      [BlockCache]: the write-back cache ([fs/dev/block_cache.rs]).
    - [Inode]: the trait and its four implementations ([fs/vfs.rs],
      [fs/file.rs]); [Fd]: open files, descriptors, dentry cache
      ([task/mod.rs], [fs/file.rs]).
    - [FatItem], [Fat], [FatDir], [FatFile]: the crate [fat32]; [Mount]: how its
      files get into the dentry cache ([syscall/fs.rs]).

    Devices ([virtio-drivers]).
    - [VirtQueue]: registers, DMA pages, the queue with its descriptor table and
      rings ([header.rs], [hal.rs], [queue.rs]).
    - [VirtioBlk]: the block driver ([blk.rs]); [VirtioServe]: the exchange the
      other drivers share; [VirtioNet], [VirtioInput], [VirtioConsole],
      [VirtioGpu]: those drivers.
    - [VirtioBlock]: the kernel's device for the FAT32 crate, and the DMA pages
      it takes from the frame allocator ([fs/block_dev/virtio_block.rs]).

    Processes and the running system.
    - [Kernel]: the state [kernel] with processes, threads and queue
      ([task/mod.rs], [task/context.rs], [trap/context.rs], [timer.rs]).
    - [SysProc], [SysFs], [Syscall]: every system call and the dispatcher
      ([syscall/*.rs], [task/proc.rs], [signal/sig.rs]).
    - [Machine]: traps, the user loop, the main loop and boot as a step
      relation ([trap/mod.rs], [main.rs], [mm/mod.rs]).
    - [Trampoline]: the assembly on a small RV64 hart ([trap/trampoline.S],
      [task/switch.S], [entry.asm]).
    - [RiscvAddr], [RiscvPaging], [RiscvRegs]: addresses, page tables and
      registers of the crate [riscv], and the kernel's use of the registers.
    - [ProcTree], [Sched]: the process tree and the scheduler;
      [FsTyped]: the file store; [FileCalls]: the file calls put together.

    Synchronisation.
    - [Conc]: threads, interleavings and a program logic for them.
    - [Mutex], [FairLocks], [RwLock], [Once], [Barrier]: the crate [spin].
    - [AsyncTask], [TaskWord], [AsyncTaskSafe]: the crate [async-task].

    ** What is proved

    - The system: every configuration the booted kernel reaches, whatever user
      programs do, has a well-formed process tree and scheduler
      ([system_invariant]) and no dangling descriptor or directory entry
      ([files_typed]); an exit never panics; queued threads run in turn.  At
      boot the registers select the kernel's table and the trampoline
      ([boot_registers]); the trampoline runs a user program as a call that
      keeps the kernel's registers ([trampoline_round_trip]).
    - Address spaces: page tables refine finite maps and do not disturb each
      other; the copy made by [sys_clone] is exact, independent and leaves no
      frame behind when dropped; a loaded program is in memory byte for byte;
      reads and writes of user memory touch exactly the range they are for.
      The page tables of the crate [riscv] refine finite maps too.
    - Frames: the allocator refines a set of live frames, and never hands out
      a frame twice.
    - Files: [sys_write], [sys_read] and [sys_openat] from user memory to file
      contents and back; regular files and the terminal.
    - Devices: byte access over any block device; the cache is transparent and
      evicts the least recently used buffer; the FAT32 chains, allocation,
      reading, writing over a chain, short and long names; a virtqueue refines
      a pool of descriptors; the adapter, block driver and queue together are an array of sectors
      ([Nuclear_on_virtio]); frames, characters, events and pixels go through
      the other drivers unchanged.
    - Locks and tasks: threads under the mutexes and the reader-writer lock
      behave as if their critical sections ran one after the other; [Once]
      initialises once; a barrier lets nobody through early; the memory of a
      task is never misused, whatever its handles are used for.
    - Where the code does not do what it means to, a theorem says what it does
      instead: [translated_byte_buffer_unmapped], [StackFrameAllocator_dealloc_cases],
      [FatFile_write_sectors], [FdManager_dup3_cases], [sys_openat_opens],
      [long_name_cut], [terminal_write_utf8], [RegFileINode_read_write],
      [downgrade_to_upgradeable_corrupts], [task_leaves_behind],
      [pop_pending_event_races], [update_flags_unmapped], [sys_write_file],
      [guest_top_index_panics].

    ** Bounds

    Loops of the code that are not structural run on a bound and give [Fuel]
    beyond it.  Those over user buffers and segments take their bound from the
    length, and are proved never to run out ([translated_byte_buffer_covers],
    [copy_out_writes], [from_elf_loads], [Device_read_at_reads]).  Those
    without a bound in the code take it as an argument, and the theorems say
    how much is enough: strings in user memory ([translate_str_reads]), chains
    and searches in the allocation table ([FAT_iterate_visits],
    [FAT_allocates], [FatFile_read_reads], [FatFile_write_sectors]), polling a device (the bound of its
    class).  The theorems about the running system hold for any bounds.
    Process ids wrap after [2^64] of them, so [system_invariant] speaks of runs
    of fewer than [2^64 - 2] steps; the counters of the locks and of a task bound
    the number of threads, far above what memory could hold ([2^60] and more, and
    [2^50] users of a task).  A spin mutex polls at most 100000000 times, as the
    code does, and then panics.

    ** Not modelled

    - Memory orderings: atomic operations take effect one after the other.
    - Instruction fetches, and user programs: user code may change its registers
      and the pages its page table maps as writable user pages ([user_allowed],
      [user_ran]), nothing else.  The clock and the traps are inputs.
    - Interrupt enables and the timer's next trigger, which the kernel leaves
      off; registers of machine mode and of the hypervisor, which it does not
      use.
    - The kernel heap: vectors and strings do not run out of memory.
    - The ELF parser, a registry crate: a parameter, [elf_new].
    - [list], [lookup] and [lookup_follow] of inodes, which need a
      [FileSystem] no type implements; [fs/dirty.rs] and [task/cpu.rs], which
      nothing uses; code behind a [return] ([sys_getdents64],
      [sys_unlinkat]); prints that [PRINT_SYSCALL] turns off; [Debug] printing.
    - User programs, tools and the vendored registry crates other than
      [bit_field]. *)

From stdpp Require Export base option list list_numbers gmap strings relations.
From Stdlib Require Export ZArith Lia.

#[global] Open Scope Z_scope.

(** ** Outcomes

    A panic shuts the machine down ([lang_items.rs]): a panic, a spin lock
    taken twice on the one running hart, and a shutdown all end the run.  [Fuel] is returned only by a loop that ran out of the bound it
    was given; theorems about such loops show a bound that is enough. *)
Inductive fault : Type :=
| Unwrap        (** [Option::unwrap] on [None], [Result::unwrap] on [Err] *)
| Assert        (** [assert!], [assert_eq!] *)
| OutOfBounds   (** slice or vector index out of range, length mismatch *)
| Explicit      (** [panic!] *)
| DivZero       (** division by zero *)
| Deadlock      (** a held spin lock is taken again by the only runner *)
| Shutdown      (** SBI shutdown *)
| Fuel.

#[global] Instance fault_eq_dec : EqDecision fault.
Proof. solve_decision. Defined.

Inductive outcome (A : Type) : Type :=
| Ok (a : A)
| Fault (f : fault).
Arguments Ok {A} a.
Arguments Fault {A} f.

(** Stateful code: a step function on the state [S]. *)
Definition M (S A : Type) : Type := S → outcome (A * S).

Definition obind {A B} (m : outcome A) (k : A → outcome B) : outcome B :=
  match m with
  | Ok a => k a
  | Fault f => Fault f
  end.

Definition ret {S A} (a : A) : M S A := λ s, Ok (a, s).
Definition bind {S A B} (m : M S A) (k : A → M S B) : M S B :=
  λ s, match m s with
       | Ok (a, s') => k a s'
       | Fault f => Fault f
       end.
Definition lift {S A} (m : outcome A) : M S A :=
  λ s, match m with
       | Ok a => Ok (a, s)
       | Fault f => Fault f
       end.
Definition get {S} : M S S := λ s, Ok (s, s).
Definition put {S} (s : S) : M S unit := λ _, Ok (tt, s).
Definition modify {S} (f : S → S) : M S unit := λ s, Ok (tt, f s).
Definition throw {S A} (f : fault) : M S A := λ _, Fault f.

Declare Scope kernel_scope.
Delimit Scope kernel_scope with kernel.
#[global] Open Scope kernel_scope.

Notation "'let!' x := e 'in' k" := (obind e (λ x, k))
  (at level 10, x name, e at level 100, k at level 200) : kernel_scope.
Notation "'let!' ' p := e 'in' k" := (obind e (λ x, match x with p => k end))
  (at level 10, p strict pattern, e at level 100, k at level 200) : kernel_scope.
Notation "'let*' x := e 'in' k" := (bind e (λ x, k))
  (at level 10, x name, e at level 100, k at level 200) : kernel_scope.
Notation "'let*' ' p := e 'in' k" := (bind e (λ x, match x with p => k end))
  (at level 10, p strict pattern, e at level 100, k at level 200) : kernel_scope.
Notation "e ;; k" := (bind e (λ _, k))
  (at level 100, k at level 200, right associativity) : kernel_scope.

(** [Option::unwrap]. *)
Definition unwrap {A} (o : option A) : outcome A :=
  match o with Some a => Ok a | None => Fault Unwrap end.

(** [assert!]. *)
Definition assert_ (b : bool) : outcome unit := if b then Ok tt else Fault Assert.

(** Rust's [Result]. *)
Inductive Result (T E : Type) : Type :=
| ok (t : T)
| err (e : E).
Arguments ok {T E} t.
Arguments err {T E} e.

Definition is_ok {T E} (r : Result T E) : bool :=
  match r with ok _ => true | err _ => false end.

Definition unwrap_r {T E} (r : Result T E) : outcome T :=
  match r with ok t => Ok t | err _ => Fault Unwrap end.

(** A component of a larger state. *)
Record lens (S T : Type) : Type := Lens {
  view : S → T;
  update : T → S → S;
}.
Arguments Lens {S T} view update.
Arguments view {S T} l s.
Arguments update {S T} l t s.

Definition zoom {S T A} (l : lens S T) (m : M T A) : M S A :=
  λ s, match m (view l s) with
       | Ok (a, t) => Ok (a, update l t s)
       | Fault f => Fault f
       end.

(** Loops over a list, [for x in l]. *)
Fixpoint for_each {S A} (l : list A) (body : A → M S unit) : M S unit :=
  match l with
  | [] => ret tt
  | x :: l' => body x ;; for_each l' body
  end.

(** Loops over a list that update local variables. *)
Fixpoint fold_m {S A B} (f : B → A → M S B) (l : list A) (b : B) : M S B :=
  match l with
  | [] => ret b
  | x :: l' => let* b' := f b x in fold_m f l' b'
  end.

(** ** Machine integers

    The kernel is built with [cargo build --release] ([kernel/Makefile]), so
    integer arithmetic wraps. *)
Definition wrap64 (x : Z) : Z := x mod 2 ^ 64.
Definition wrap32 (x : Z) : Z := x mod 2 ^ 32.
Definition wrap16 (x : Z) : Z := x mod 2 ^ 16.
Definition wrap8 (x : Z) : Z := x mod 2 ^ 8.
Definition uadd (a b : Z) : Z := wrap64 (a + b).
Definition usub (a b : Z) : Z := wrap64 (a - b).
Definition umul (a b : Z) : Z := wrap64 (a * b).
(** [x as isize] of a [usize] and [x as usize] of an [isize]. *)
Definition to_isize (x : Z) : Z := if x <? 2 ^ 63 then x else x - 2 ^ 64.
Definition of_isize (x : Z) : Z := wrap64 x.
Definition usize_MAX : Z := 2 ^ 64 - 1.

Infix "+u" := uadd (at level 50, left associativity) : kernel_scope.
Infix "-u" := usub (at level 50, left associativity) : kernel_scope.
Infix "*u" := umul (at level 40, left associativity) : kernel_scope.

Definition is_usize (x : Z) : Prop := 0 ≤ x < 2 ^ 64.

(** ** Slices and vectors

    [len] is a [usize]; indices are [usize]s, hence never negative. *)
Definition len {A} (l : list A) : Z := Z.of_nat (length l).

(** [l[i]]. *)
Definition idx {A} (l : list A) (i : Z) : outcome A :=
  match l !! Z.to_nat i with Some x => Ok x | None => Fault OutOfBounds end.

(** [l[i] = x]. *)
Definition set_idx {A} (l : list A) (i : Z) (x : A) : outcome (list A) :=
  if i <? len l then Ok (<[Z.to_nat i := x]> l) else Fault OutOfBounds.

(** [&l[a..b]]. *)
Definition slice {A} (l : list A) (a b : Z) : outcome (list A) :=
  if (a <=? b) && (b <=? len l)
  then Ok (take (Z.to_nat (b - a)) (drop (Z.to_nat a) l))
  else Fault OutOfBounds.

(** The list [l] with [l'] written over it from position [n] on. *)
Definition splice {A} (l : list A) (n : nat) (l' : list A) : list A :=
  take n l ++ l' ++ drop (n + length l') l.

(** [l[a..b].copy_from_slice(src)]. *)
Definition copy_into {A} (l : list A) (a b : Z) (src : list A) : outcome (list A) :=
  if (a <=? b) && (b <=? len l)
  then if len src =? b - a then Ok (splice l (Z.to_nat a) src) else Fault OutOfBounds
  else Fault OutOfBounds.

(** [Vec::pop]: the last element and the rest. *)
Fixpoint vec_pop {A} (l : list A) : option (A * list A) :=
  match l with
  | [] => None
  | x :: l' => match vec_pop l' with
               | None => Some (x, [])
               | Some (y, l'') => Some (y, x :: l'')
               end
  end.

(** ** Running stateful code *)
Section run.
Context {S : Type}.

Lemma bind_Ok {A B} (m : M S A) (k : A → M S B) s b s' :
  bind m k s = Ok (b, s') ↔ ∃ a s1, m s = Ok (a, s1) ∧ k a s1 = Ok (b, s').
Proof.
  unfold bind. split.
  - destruct (m s) as [[a s1]|f]; [eauto | discriminate].
  - intros (a & s1 & -> & H). exact H.
Qed.

Lemma bind_lift_Ok {A B} (v : A) (f : A → M S B) s : bind (lift (Ok v)) f s = f v s.
Proof. done. Qed.
Lemma bind_run {A B} (m : M S A) (k : A → M S B) s a s1 :
  m s = Ok (a, s1) → bind m k s = k a s1.
Proof. unfold bind. by intros ->. Qed.

Lemma bind_fault {A B} (m : M S A) (k : A → M S B) s f :
  m s = Fault f → bind m k s = Fault f.
Proof. unfold bind. by intros ->. Qed.

Lemma obind_Ok {A B} (m : outcome A) (k : A → outcome B) b :
  obind m k = Ok b ↔ ∃ a, m = Ok a ∧ k a = Ok b.
Proof.
  split.
  - destruct m as [a|f]; [eauto | discriminate].
  - intros (a & -> & H). exact H.
Qed.

Lemma lift_Ok {A} (m : outcome A) (s : S) a s' :
  lift m s = Ok (a, s') ↔ m = Ok a ∧ s' = s.
Proof. unfold lift. destruct m; naive_solver. Qed.

(** The loop rule: an invariant indexed by the part already done. *)
Lemma for_each_inv {A} (I : list A → S → Prop) (l : list A) (body : A → M S unit) s :
  (∀ pre x post s1, l = pre ++ x :: post → I pre s1 →
     ∃ s2, body x s1 = Ok (tt, s2) ∧ I (pre ++ [x]) s2) →
  I [] s →
  ∃ s', for_each l body s = Ok (tt, s') ∧ I l s'.
Proof.
  assert (Hgen : ∀ todo pre s1, l = pre ++ todo → I pre s1 →
    (∀ pre x post s1, l = pre ++ x :: post → I pre s1 →
       ∃ s2, body x s1 = Ok (tt, s2) ∧ I (pre ++ [x]) s2) →
    ∃ s', for_each todo body s1 = Ok (tt, s') ∧ I l s').
  { induction todo as [|x todo IH]; intros pre s1 Hl HI Hb.
    - rewrite app_nil_r in Hl. subst. by exists s1.
    - destruct (Hb pre x todo s1 Hl HI) as (s2 & Hx & HI2).
      simpl. rewrite (bind_run _ _ _ _ _ Hx).
      apply (IH (pre ++ [x])); [| done | done].
      by rewrite <- app_assoc. }
  intros Hb HI. by apply (Hgen l [] s).
Qed.

(** The same with local variables. *)
Lemma fold_m_inv {A B} (I : list A → B → S → Prop) (l : list A) (f : B → A → M S B) b s :
  (∀ pre x post b1 s1, l = pre ++ x :: post → I pre b1 s1 →
     ∃ b2 s2, f b1 x s1 = Ok (b2, s2) ∧ I (pre ++ [x]) b2 s2) →
  I [] b s →
  ∃ b' s', fold_m f l b s = Ok (b', s') ∧ I l b' s'.
Proof.
  intros Hf.
  assert (Hgen : ∀ todo pre b1 s1, l = pre ++ todo → I pre b1 s1 →
    ∃ b' s', fold_m f todo b1 s1 = Ok (b', s') ∧ I l b' s').
  { induction todo as [|x todo IH]; intros pre b1 s1 Hl HI.
    - rewrite app_nil_r in Hl. subst. by exists b1, s1.
    - destruct (Hf pre x todo b1 s1 Hl HI) as (b2 & s2 & Hx & HI2).
      simpl. rewrite (bind_run _ _ _ _ _ Hx).
      apply (IH (pre ++ [x])); [|done]. by rewrite <- app_assoc. }
  intros HI. by apply (Hgen l []).
Qed.

Lemma fold_m_app {A B} (f : B → A → M S B) (l1 l2 : list A) b s :
  fold_m f (l1 ++ l2) b s = (let* b' := fold_m f l1 b in fold_m f l2 b') s.
Proof.
  revert b s. induction l1 as [|x l1 IH]; intros b s; [done|]. simpl. unfold bind at 1 2 3.
  destruct (f b x s) as [[b1 s1]|]; [|done]. apply IH.
Qed.

Lemma for_each_app {A} (l1 l2 : list A) (body : A → M S unit) s :
  for_each (l1 ++ l2) body s = (for_each l1 body ;; for_each l2 body) s.
Proof.
  revert s. induction l1 as [|x l1 IH]; intros s; [done|].
  simpl. unfold bind at 1 2 3. destruct (body x s) as [[[] s1]|f]; [|done].
  rewrite IH. done.
Qed.
End run.

(** Rule induction over runs of a step relation. *)
Lemma rtc_invariant {A} (R : relation A) (P : A → Prop) :
  (∀ x y, R x y → P x → P y) → ∀ x y, rtc R x y → P x → P y.
Proof. intros Hstep x y Hxy. induction Hxy; eauto. Qed.

Lemma unwrap_Ok {A} (o : option A) a : unwrap o = Ok a ↔ o = Some a.
Proof. destruct o; naive_solver. Qed.

Lemma assert_Ok b u : assert_ b = Ok u ↔ b = true.
Proof. destruct b, u; naive_solver. Qed.

Lemma idx_Ok {A} (l : list A) i x : idx l i = Ok x ↔ l !! Z.to_nat i = Some x.
Proof. unfold idx. destruct (l !! Z.to_nat i); naive_solver. Qed.

(** Opens every successful run among the hypotheses. *)
Ltac minv :=
  repeat match goal with
  | H : bind _ _ _ = Ok (_, _) |- _ =>
      let a := fresh "a" in let s := fresh "s" in let Ha := fresh "Hrun" in
      apply bind_Ok in H as (a & s & Ha & H)
  | H : obind _ _ = Ok _ |- _ =>
      let a := fresh "a" in let Ha := fresh "Hrun" in
      apply obind_Ok in H as (a & Ha & H)
  | H : lift _ _ = Ok (_, _) |- _ =>
      let H2 := fresh "Hst" in apply lift_Ok in H as [H H2]; subst
  | H : unwrap _ = Ok _ |- _ => apply unwrap_Ok in H
  | H : assert_ _ = Ok _ |- _ => apply assert_Ok in H
  | H : idx _ _ = Ok _ |- _ => apply idx_Ok in H
  | H : ret _ _ = Ok (_, _) |- _ => unfold ret in H; simplify_eq
  | H : get _ = Ok (_, _) |- _ => unfold get in H; simplify_eq
  | H : put _ _ = Ok (_, _) |- _ => unfold put in H; simplify_eq
  | H : modify _ _ = Ok (_, _) |- _ => unfold modify in H; simplify_eq
  | H : throw _ _ = Ok _ |- _ => discriminate H
  | H : Fault _ = Ok _ |- _ => discriminate H
  end.

(** ** Arithmetic *)
Create HintDb moos.

Lemma land_mask x n : 0 ≤ n → Z.land x (2 ^ n - 1) = x mod 2 ^ n.
Proof. intros. rewrite <- Z.land_ones by done. by rewrite Z.ones_equiv, Z.sub_1_r. Qed.

Lemma lor_low_high a b n :
  0 ≤ n → 0 ≤ b < 2 ^ n → Z.lor (a * 2 ^ n) b = a * 2 ^ n + b.
Proof.
  intros Hn Hb. symmetry. apply Z.add_nocarry_lor.
  apply Z.bits_inj'. intros i Hi. rewrite Z.land_spec, Z.bits_0.
  destruct (Z.lt_ge_cases i n).
  - by rewrite Z.mul_pow2_bits_low.
  - apply andb_false_intro2. apply Z.testbit_false; [lia|].
    rewrite Z.div_small; [done|]. split; [lia|].
    apply Z.lt_le_trans with (2 ^ n); [lia|]. apply Z.pow_le_mono_r; lia.
Qed.

Lemma wrap64_small x : 0 ≤ x < 2 ^ 64 → wrap64 x = x.
Proof. apply Z.mod_small. Qed.

Lemma wrap64_range x : is_usize (wrap64 x).
Proof. apply Z.mod_pos_bound. done. Qed.

Lemma uadd_small a b : 0 ≤ a + b < 2 ^ 64 → a +u b = a + b.
Proof. apply wrap64_small. Qed.
Lemma usub_small a b : 0 ≤ a - b < 2 ^ 64 → a -u b = a - b.
Proof. apply wrap64_small. Qed.
Lemma umul_small a b : 0 ≤ a * b < 2 ^ 64 → a *u b = a * b.
Proof. apply wrap64_small. Qed.

(** ** Lists *)
Section lists.
Context {A : Type}.
Implicit Types l : list A.

Lemma length_splice l n l' :
  (n + length l' ≤ length l)%nat → length (splice l n l') = length l.
Proof.
  intros. unfold splice. rewrite !length_app, length_take, length_drop. lia.
Qed.

Lemma lookup_splice_in l n l' i :
  (n ≤ i < n + length l')%nat → (n ≤ length l)%nat →
  splice l n l' !! i = l' !! (i - n)%nat.
Proof.
  intros Hi Hn. unfold splice.
  rewrite lookup_app_r; rewrite length_take; [|lia].
  rewrite lookup_app_l; [|lia]. f_equal. lia.
Qed.

Lemma lookup_splice_out l n l' i :
  (n ≤ length l)%nat → (i < n ∨ n + length l' ≤ i)%nat →
  splice l n l' !! i = l !! i.
Proof.
  intros Hn [Hi|Hi]; unfold splice.
  - rewrite lookup_app_l; [|rewrite length_take; lia]. by rewrite lookup_take_lt.
  - rewrite lookup_app_r; rewrite length_take; [|lia].
    rewrite lookup_app_r; [|lia]. rewrite lookup_drop. f_equal. lia.
Qed.

Lemma vec_pop_snoc l x : vec_pop (l ++ [x]) = Some (x, l).
Proof. induction l as [|y l IH]; [done|]. simpl. by rewrite IH. Qed.

Lemma vec_pop_Some l x l' : vec_pop l = Some (x, l') ↔ l = l' ++ [x].
Proof.
  split; [|intros ->; apply vec_pop_snoc].
  destruct l as [|y l _] using rev_ind; [done|].
  rewrite vec_pop_snoc. by intros [= -> ->].
Qed.

Lemma vec_pop_None l : vec_pop l = None ↔ l = [].
Proof.
  destruct l as [|y l _] using rev_ind; [done|].
  rewrite vec_pop_snoc. split; [done|]. by destruct l.
Qed.

Lemma len_nonneg l : 0 ≤ len l.
Proof. unfold len. lia. Qed.

Lemma slice_Ok l a b l' :
  slice l a b = Ok l' ↔
  a ≤ b ≤ len l ∧ l' = take (Z.to_nat (b - a)) (drop (Z.to_nat a) l).
Proof.
  unfold slice. destruct (andb (a <=? b) (b <=? len l)) eqn:E.
  - apply andb_true_iff in E as [?%Z.leb_le ?%Z.leb_le]. naive_solver lia.
  - apply andb_false_iff in E as [?%Z.leb_gt|?%Z.leb_gt]; split; naive_solver lia.
Qed.

(** The elements of [l] from [a] to [b]. *)
Definition subl (l : list A) (a b : Z) : list A := take (Z.to_nat (b - a)) (drop (Z.to_nat a) l).

Lemma len_subl l a b : 0 ≤ a ≤ b → b ≤ len l → len (subl l a b) = b - a.
Proof. unfold len, subl. intros. rewrite length_take, length_drop. lia. Qed.

Lemma subl_app l a b c : 0 ≤ a ≤ b → b ≤ c → subl l a b ++ subl l b c = subl l a c.
Proof.
  intros. unfold subl. replace (Z.to_nat b) with (Z.to_nat a + Z.to_nat (b - a))%nat by lia.
  rewrite <- drop_drop, take_take_drop. f_equal. lia.
Qed.

Lemma subl_nil l a b : b ≤ a → subl l a b = [].
Proof. intros. unfold subl. by replace (Z.to_nat (b - a)) with O by lia. Qed.

Lemma subl_subl l a b c d :
  0 ≤ a → 0 ≤ c → d ≤ b - a → subl (subl l a b) c d = subl l (a + c) (a + d).
Proof.
  intros. unfold subl. rewrite skipn_firstn_comm, drop_drop, take_take.
  replace (Z.to_nat a + Z.to_nat c)%nat with (Z.to_nat (a + c)) by lia. f_equal. lia.
Qed.

Lemma splice_adj l n l1 l2 :
  (n + length l1 + length l2 ≤ length l)%nat →
  splice (splice l n l1) (n + length l1) l2 = splice l n (l1 ++ l2).
Proof.
  intros Hl. apply list_eq. intros i.
  pose proof (length_splice l n l1 ltac:(lia)) as Hs.
  destruct (decide (n + length l1 ≤ i < n + length l1 + length l2)%nat).
  - rewrite lookup_splice_in by lia.
    rewrite (lookup_splice_in l) by (rewrite ?length_app; lia).
    rewrite lookup_app_r by lia. f_equal. lia.
  - rewrite lookup_splice_out by lia. destruct (decide (n ≤ i < n + length l1)%nat).
    + rewrite lookup_splice_in by lia. rewrite (lookup_splice_in l n (l1 ++ l2)) by (rewrite ?length_app; lia).
      by rewrite lookup_app_l by lia.
    + rewrite !lookup_splice_out; rewrite ?length_app; done || lia.
Qed.

Lemma splice_nil l n : (n ≤ length l)%nat → splice l n [] = l.
Proof. intros. unfold splice. simpl. rewrite Nat.add_0_r. apply take_drop. Qed.

Lemma splice_whole l l' : length l = length l' → splice l 0 l' = l'.
Proof. intros E. unfold splice. rewrite take_0, drop_ge by lia. apply app_nil_r. Qed.

Lemma subl_splice_in l n l' a b :
  (n + length l' ≤ length l)%nat → Z.of_nat n ≤ a → b ≤ Z.of_nat (n + length l') →
  subl (splice l n l') a b = subl l' (a - Z.of_nat n) (b - Z.of_nat n).
Proof.
  intros Hl Ha Hb. apply list_eq. intros i. unfold subl.
  destruct (decide (i < Z.to_nat (b - a))%nat).
  - rewrite !lookup_take_lt, !lookup_drop by lia. rewrite lookup_splice_in by lia. f_equal. lia.
  - rewrite !lookup_take_ge by lia. done.
Qed.

Lemma lookup_subl l a b i :
  0 ≤ a → subl l a b !! i = if decide (Z.of_nat i < b - a) then l !! (Z.to_nat a + i)%nat else None.
Proof.
  intros. unfold subl. destruct (decide _).
  - by rewrite lookup_take_lt, lookup_drop by lia.
  - by rewrite lookup_take_ge by lia.
Qed.

Lemma lookup_splice l n l' i :
  (n + length l' ≤ length l)%nat →
  splice l n l' !! i = if decide (n ≤ i < n + length l')%nat then l' !! (i - n)%nat else l !! i.
Proof.
  intros. destruct (decide _); [by rewrite lookup_splice_in by lia|by rewrite lookup_splice_out by lia].
Qed.

Lemma splice_subl l a b : 0 ≤ a ≤ b → b ≤ len l → splice l (Z.to_nat a) (subl l a b) = l.
Proof.
  intros Ha Hb. pose proof (len_subl l a b Ha Hb) as Hl. unfold len in *. apply list_eq. intros i.
  rewrite lookup_splice, lookup_subl by lia. destruct (decide _); [|done].
  rewrite decide_True by lia. f_equal. lia.
Qed.

(** Writing a part of a block back with its block. *)
Lemma splice_block l a b n l' :
  0 ≤ a ≤ b → b ≤ len l → Z.of_nat (n + length l') ≤ b - a →
  splice l (Z.to_nat a) (splice (subl l a b) n l') = splice l (Z.to_nat a + n) l'.
Proof.
  intros Ha Hb Hn. pose proof (len_subl l a b Ha Hb) as Hl. unfold len in *.
  assert (Hs : length (splice (subl l a b) n l') = length (subl l a b)) by (apply length_splice; lia).
  apply list_eq. intros i. rewrite !lookup_splice, lookup_subl by lia.
  repeat case_decide; try lia; try done; f_equal; lia.
Qed.

Lemma take_splice_head l l0 n l' :
  (length l0 ≤ length l)%nat → (n + length l' ≤ length l0)%nat →
  take (length l0) (splice (splice l 0 l0) n l') = splice l0 n l'.
Proof.
  intros Hl Hn. assert (Hs : length (splice l 0 l0) = length l) by (apply length_splice; lia).
  apply list_eq. intros i. destruct (decide (i < length l0)%nat).
  - rewrite lookup_take_lt, !lookup_splice by lia. repeat case_decide; try lia; try done. f_equal. lia.
  - rewrite lookup_take_ge by lia. rewrite lookup_splice by lia. case_decide; [lia|].
    by rewrite lookup_ge_None_2 by lia.
Qed.

Lemma copy_into_Ok l a b src l' :
  copy_into l a b src = Ok l' ↔
  a ≤ b ≤ len l ∧ len src = b - a ∧ l' = splice l (Z.to_nat a) src.
Proof.
  unfold copy_into. destruct (andb (a <=? b) (b <=? len l)) eqn:E.
  - apply andb_true_iff in E as [?%Z.leb_le ?%Z.leb_le].
    destruct (Z.eqb_spec (len src) (b - a)); naive_solver lia.
  - apply andb_false_iff in E as [?%Z.leb_gt|?%Z.leb_gt]; split; naive_solver lia.
Qed.
End lists.

#[export] Hint Resolve wrap64_range len_nonneg : moos.
