(* ===== verification/Addr.v ===== *)
(** * Addresses and page numbers ([config.rs], [mm/address.rs])

    The four address types are [usize] newtypes in the source and plain
    [usize] values here; the conversions between them are one definition
    each.  [SimpleRange] and its iterator are generic in the stepped type. *)

From S2P Require Import Prelude.

(** ** [config.rs] *)
(** [config.rs:1-1] USER_STACK_SIZE *)
Definition USER_STACK_SIZE : Z := 4096 * 2.
(** [config.rs:2-2] KERNEL_STACK_SIZE *)
Definition KERNEL_STACK_SIZE : Z := 4096 * 2.
(** [config.rs:3-3] KERNEL_HEAP_SIZE *)
Definition KERNEL_HEAP_SIZE : Z := 0x4000000.
(** [config.rs:4-4] MEMORY_END *)
Definition MEMORY_END : Z := 0x88000000.
(** [config.rs:5-5] PAGE_SIZE *)
Definition PAGE_SIZE : Z := 0x1000.
(** [config.rs:6-6] PAGE_SIZE_BITS *)
Definition PAGE_SIZE_BITS : Z := 0xc.
(** [config.rs:10-10] TRAMPOLINE *)
Definition TRAMPOLINE : Z := usize_MAX -u PAGE_SIZE +u 1.
(** [config.rs:11-11] TRAPFRAME *)
Definition TRAPFRAME : Z := TRAMPOLINE -u PAGE_SIZE.

(** (bottom, top) of a kernel stack. *)
(** [config.rs:12-17] kernel_stack_position *)
Definition kernel_stack_position (app_id : Z) : Z * Z :=
  let top := TRAMPOLINE -u app_id *u (KERNEL_STACK_SIZE +u PAGE_SIZE) in
  let bottom := top -u KERNEL_STACK_SIZE in
  (bottom, top).

(** [boards/qemu.rs] *)
(** [boards/qemu.rs:3-3] CLOCK_FREQ *)
Definition CLOCK_FREQ : Z := 12500000.
(** [boards/qemu.rs:5-7] MMIO *)
Definition MMIO : list (Z * Z) := [(0x10001000, 0x1000)].

(** ** [mm/address.rs] *)
(** [mm/address.rs:8-8] PA_WIDTH_SV39 *)
Definition PA_WIDTH_SV39 : Z := 56.
(** [mm/address.rs:9-9] VA_WIDTH_SV39 *)
Definition VA_WIDTH_SV39 : Z := 39.
(** [mm/address.rs:10-10] PPN_WIDTH_SV39 *)
Definition PPN_WIDTH_SV39 : Z := PA_WIDTH_SV39 - PAGE_SIZE_BITS.
(** [mm/address.rs:11-11] VPN_WIDTH_SV39 *)
Definition VPN_WIDTH_SV39 : Z := VA_WIDTH_SV39 - PAGE_SIZE_BITS.

(** [From<usize>]. *)
(** [mm/address.rs:60-64] From<usize> for PhysAddr *)
Definition PhysAddr_from (v : Z) : Z := Z.land v (Z.shiftl 1 PA_WIDTH_SV39 - 1).
(** [mm/address.rs:65-69] From<usize> for PhysPageNum *)
Definition PhysPageNum_from (v : Z) : Z := Z.land v (Z.shiftl 1 PPN_WIDTH_SV39 - 1).
(** [mm/address.rs:70-74] From<usize> for VirtAddr *)
Definition VirtAddr_from (v : Z) : Z := Z.land v (Z.shiftl 1 VA_WIDTH_SV39 - 1).
(** [mm/address.rs:75-79] From<usize> for VirtPageNum *)
Definition VirtPageNum_from (v : Z) : Z := Z.land v (Z.shiftl 1 VPN_WIDTH_SV39 - 1).

(** [From<VirtAddr> for usize]: sign extension; the other three types give
    their field. *)
(** [mm/address.rs:90-98] From<VirtAddr> for usize *)
Definition usize_from_VirtAddr (v : Z) : Z :=
  if v >=? Z.shiftl 1 (VA_WIDTH_SV39 - 1)
  then Z.lor v (Z.lxor usize_MAX (Z.shiftl 1 VA_WIDTH_SV39 - 1))
  else v.

(** [mm/address.rs:106-108] VirtAddr::floor *)
Definition VirtAddr_floor (va : Z) : Z := va / PAGE_SIZE.
(** [mm/address.rs:109-111] VirtAddr::ceil *)
Definition VirtAddr_ceil (va : Z) : Z := (va -u 1 +u PAGE_SIZE) / PAGE_SIZE.
(** [mm/address.rs:112-114] VirtAddr::ceil_align *)
Definition VirtAddr_ceil_align (va : Z) : Z :=
  (va -u 1 +u PAGE_SIZE) / PAGE_SIZE *u PAGE_SIZE.
(** [mm/address.rs:115-117] VirtAddr::page_offset *)
Definition VirtAddr_page_offset (va : Z) : Z := Z.land va (PAGE_SIZE - 1).
(** [mm/address.rs:118-120] VirtAddr::aligned *)
Definition VirtAddr_aligned (va : Z) : bool := VirtAddr_page_offset va =? 0.

(** [From<VirtAddr> for VirtPageNum] asserts alignment. *)
(** [mm/address.rs:122-127] From<VirtAddr> for VirtPageNum *)
Definition VirtPageNum_from_VirtAddr (va : Z) : outcome Z :=
  let! _ := assert_ (VirtAddr_page_offset va =? 0) in
  Ok (VirtAddr_floor va).
(** [mm/address.rs:128-132] From<VirtPageNum> for VirtAddr *)
Definition VirtAddr_from_VirtPageNum (vpn : Z) : Z := wrap64 (Z.shiftl vpn PAGE_SIZE_BITS).

(** [mm/address.rs:134-136] PhysAddr::floor *)
Definition PhysAddr_floor (pa : Z) : Z := pa / PAGE_SIZE.
(** [mm/address.rs:137-139] PhysAddr::ceil *)
Definition PhysAddr_ceil (pa : Z) : Z := (pa -u 1 +u PAGE_SIZE) / PAGE_SIZE.
(** [mm/address.rs:140-142] PhysAddr::page_offset *)
Definition PhysAddr_page_offset (pa : Z) : Z := Z.land pa (PAGE_SIZE - 1).
(** [mm/address.rs:143-145] PhysAddr::aligned *)
Definition PhysAddr_aligned (pa : Z) : bool := PhysAddr_page_offset pa =? 0.
(** [get_mut]: the pointer, unless it is null. *)
(** [mm/address.rs:146-148] PhysAddr::get_mut *)
Definition PhysAddr_get_mut (pa : Z) : outcome Z :=
  if pa =? 0 then Fault Unwrap else Ok pa.
(** [mm/address.rs:150-155] From<PhysAddr> for PhysPageNum *)
Definition PhysPageNum_from_PhysAddr (pa : Z) : outcome Z :=
  let! _ := assert_ (PhysAddr_page_offset pa =? 0) in
  Ok (PhysAddr_floor pa).
(** [mm/address.rs:156-160] From<PhysPageNum> for PhysAddr *)
Definition PhysAddr_from_PhysPageNum (ppn : Z) : Z := wrap64 (Z.shiftl ppn PAGE_SIZE_BITS).

(** The loop of [indexes], from the last digit to the first. *)
(** [mm/address.rs:166-169] VirtPageNum::indexes *)
Fixpoint VirtPageNum_indexes_loop (n : nat) (vpn : Z) (idx : list Z) : list Z :=
  match n with
  | O => idx
  | S i => VirtPageNum_indexes_loop i (Z.shiftr vpn 9) (<[i := Z.land vpn 511]> idx)
  end.
(** [mm/address.rs:162-172] VirtPageNum::indexes *)
Definition VirtPageNum_indexes (vpn : Z) : list Z :=
  VirtPageNum_indexes_loop 3 vpn [0; 0; 0].

(** [PhysPageNum::get_mut]. *)
(** [mm/address.rs:183-186] PhysPageNum::get_mut *)
Definition PhysPageNum_get_mut (ppn : Z) : outcome Z :=
  PhysAddr_get_mut (PhysAddr_from_PhysPageNum ppn).

(** [trait StepByOne] and its implementations for the page number types. *)
(** [mm/address.rs:189-191] StepByOne *)
Class StepByOne (T : Type) := step : T → T.
(** [mm/address.rs:192-202] StepByOne::step *)
#[export] Instance PageNum_step : StepByOne Z := λ n, n +u 1.

Section SimpleRange.
Context {T : Type} `{EqDecision T} `{StepByOne T} (le : T → T → bool).
(** [mm/address.rs:206-212] SimpleRange *)

Record SimpleRange : Type := mkRange { range_l : T; range_r : T }.
(** [mm/address.rs:217-220] SimpleRange::new *)

Definition SimpleRange_new (start end_ : T) : outcome SimpleRange :=
  let! _ := assert_ (le start end_) in
  Ok (mkRange start end_).
(** [mm/address.rs:221-223] SimpleRange::get_start *)
Definition SimpleRange_get_start (r : SimpleRange) : T := range_l r.
(** [mm/address.rs:224-226] SimpleRange::get_end *)
Definition SimpleRange_get_end (r : SimpleRange) : T := range_r r.
(** [mm/address.rs:239-245] SimpleRangeIterator *)

Record SimpleRangeIterator : Type := mkIter { it_current : T; it_end : T }.
(** [mm/address.rs:228-253] SimpleRange::into_iter *)
Definition SimpleRange_into_iter (r : SimpleRange) : SimpleRangeIterator :=
  mkIter (range_l r) (range_r r).
(** [mm/address.rs:254-268] SimpleRangeIterator::next *)
Definition SimpleRangeIterator_next (it : SimpleRangeIterator) :
    option T * SimpleRangeIterator :=
  if decide (it_current it = it_end it) then (None, it)
  else (Some (it_current it), mkIter (step (it_current it)) (it_end it)).

(** The items of the iterator; [None] when [n] calls do not exhaust it. *)
Fixpoint SimpleRangeIterator_collect (n : nat) (it : SimpleRangeIterator) :
    option (list T) :=
  match n with
  | O => None
  | S n => match SimpleRangeIterator_next it with
           | (None, _) => Some []
           | (Some t, it') => cons t <$> SimpleRangeIterator_collect n it'
           end
  end.
End SimpleRange.
Arguments SimpleRange T : clear implicits.
Arguments SimpleRangeIterator T : clear implicits.

(** [VPNRange = SimpleRange<VirtPageNum>]. *)
Abbreviation VPNRange := (SimpleRange Z).
(** [mm/address.rs:271-271] VPNRange *)
Definition VPNRange_new : Z → Z → outcome VPNRange := SimpleRange_new Z.leb.
(** The page numbers a [for vpn in range] loop visits. *)
Definition VPNRange_vpns (r : VPNRange) : list Z :=
  default [] (SimpleRangeIterator_collect
                (S (Z.to_nat (range_r r - range_l r))) (SimpleRange_into_iter r)).

(** ** Facts *)
Lemma PAGE_SIZE_pow : PAGE_SIZE = 2 ^ 12.
Proof. done. Qed.

Lemma TRAMPOLINE_eq : TRAMPOLINE = 2 ^ 64 - 4096.
Proof. done. Qed.

Lemma TRAPFRAME_eq : TRAPFRAME = 2 ^ 64 - 8192.
Proof. done. Qed.

Lemma PhysPageNum_from_mod v : PhysPageNum_from v = v mod 2 ^ 44.
Proof. apply (land_mask v 44). lia. Qed.
Lemma VirtAddr_from_mod v : VirtAddr_from v = v mod 2 ^ 39.
Proof. apply (land_mask v 39). lia. Qed.
Lemma PhysAddr_from_mod v : PhysAddr_from v = v mod 2 ^ 56.
Proof. apply (land_mask v 56). lia. Qed.
Lemma VirtAddr_page_offset_mod v : VirtAddr_page_offset v = v mod 4096.
Proof. apply (land_mask v 12). lia. Qed.
Lemma PhysAddr_page_offset_mod v : PhysAddr_page_offset v = v mod 4096.
Proof. apply (land_mask v 12). lia. Qed.

Lemma PhysPageNum_from_small v : 0 ≤ v < 2 ^ 44 → PhysPageNum_from v = v.
Proof. rewrite PhysPageNum_from_mod. apply Z.mod_small. Qed.

Lemma VirtPageNum_indexes_eq vpn :
  VirtPageNum_indexes vpn =
  [(vpn / 2 ^ 18) mod 512; (vpn / 2 ^ 9) mod 512; vpn mod 512].
Proof.
  unfold VirtPageNum_indexes. simpl.
  rewrite !(land_mask _ 9) by lia. rewrite Z.shiftr_shiftr by lia.
  rewrite !Z.shiftr_div_pow2 by lia. done.
Qed.

Lemma usize_from_VirtAddr_eq va :
  0 ≤ va < 2 ^ 39 →
  usize_from_VirtAddr va = if va <? 2 ^ 38 then va else va + (2 ^ 64 - 2 ^ 39).
Proof.
  intros Hva. unfold usize_from_VirtAddr.
  change (Z.shiftl 1 (VA_WIDTH_SV39 - 1)) with (2 ^ 38).
  change (Z.lxor usize_MAX (Z.shiftl 1 VA_WIDTH_SV39 - 1)) with ((2 ^ 25 - 1) * 2 ^ 39).
  destruct (Z.ltb_spec va (2 ^ 38)).
  - destruct (Z.geb_spec va (2 ^ 38)); [lia|done].
  - destruct (Z.geb_spec va (2 ^ 38)); [|lia].
    rewrite Z.lor_comm, lor_low_high by lia. lia.
Qed.

Lemma SimpleRange_collect_seqZ (n : nat) l :
  0 ≤ l → l + Z.of_nat n < 2 ^ 64 →
  SimpleRangeIterator_collect (S n) (mkIter l (l + Z.of_nat n)) = Some (seqZ l (Z.of_nat n)).
Proof.
  revert l. induction n as [|n IH]; intros l Hl Hr.
  - simpl. unfold SimpleRangeIterator_next. simpl. rewrite decide_True by lia. done.
  - remember (S n) as m eqn:Em. simpl. unfold SimpleRangeIterator_next. simpl.
    rewrite decide_False by lia.
    unfold step, PageNum_step. rewrite uadd_small by lia. subst m.
    replace (l + Z.of_nat (S n)) with ((l + 1) + Z.of_nat n) by lia.
    rewrite IH by lia. rewrite (seqZ_cons l (Z.of_nat (S n))) by lia. simpl.
    do 2 f_equal. f_equal; lia.
Qed.

Lemma VPNRange_vpns_eq l r :
  0 ≤ l ≤ r → r < 2 ^ 64 → VPNRange_vpns (mkRange l r) = seqZ l (r - l).
Proof.
  intros. unfold VPNRange_vpns, SimpleRange_into_iter. cbn [range_l range_r].
  pose proof (SimpleRange_collect_seqZ (Z.to_nat (r - l)) l) as H1.
  rewrite Z2Nat.id in H1 by lia.
  replace (l + (r - l)) with r in H1 by lia. rewrite H1 by lia. done.
Qed.

Lemma VPNRange_new_Ok l r x :
  VPNRange_new l r = Ok x ↔ l ≤ r ∧ x = mkRange l r.
Proof.
  unfold VPNRange_new, SimpleRange_new. destruct (Z.leb_spec l r); simpl; naive_solver lia.
Qed.

(** ** Properties *)

(** The three page-table indexes of a 27-bit page number are 9-bit
    digits, most significant first, and they determine the page number. *)
Theorem VirtPageNum_indexes_roundtrip vpn :
  0 ≤ vpn < 2 ^ 27 →
  ∃ i0 i1 i2, VirtPageNum_indexes vpn = [i0; i1; i2] ∧
    0 ≤ i0 < 512 ∧ 0 ≤ i1 < 512 ∧ 0 ≤ i2 < 512 ∧
    vpn = i0 * 2 ^ 18 + i1 * 2 ^ 9 + i2.
Proof.
  intros H. eexists _, _, _. split; [apply VirtPageNum_indexes_eq|].
  change (2 ^ 18) with (512 * 512). change (2 ^ 9) with 512.
  rewrite <- Z.div_div by lia.
  pose proof (Z.div_mod vpn 512). pose proof (Z.div_mod (vpn / 512) 512).
  pose proof (Z.mod_pos_bound vpn 512). pose proof (Z.mod_pos_bound (vpn / 512) 512).
  rewrite (Z.mod_small (vpn / 512 / 512)); [lia|].
  split; [apply Z.div_pos; [apply Z.div_pos; lia|lia]|].
  apply Z.div_lt_upper_bound; [lia|]. apply Z.div_lt_upper_bound; lia.
Qed.

Lemma VirtPageNum_indexes_roundtrip_witness :
  ∃ i0 i1 i2, VirtPageNum_indexes 0x7fffffe = [i0; i1; i2] ∧
    0 ≤ i0 < 512 ∧ 0 ≤ i1 < 512 ∧ 0 ≤ i2 < 512 ∧
    0x7fffffe = i0 * 2 ^ 18 + i1 * 2 ^ 9 + i2.
Proof. apply (VirtPageNum_indexes_roundtrip 0x7fffffe). lia. Defined.

(** Masking to 39 bits and sign-extending back gives the [usize] it
    started from exactly for canonical Sv39 addresses. *)
Theorem usize_VirtAddr_roundtrip x :
  is_usize x →
  usize_from_VirtAddr (VirtAddr_from x) = x ↔ (x < 2 ^ 38 ∨ 2 ^ 64 - 2 ^ 38 ≤ x).
Proof.
  unfold is_usize. intros Hx. rewrite VirtAddr_from_mod.
  pose proof (Z.mod_pos_bound x (2 ^ 39)) as Hm.
  rewrite usize_from_VirtAddr_eq by lia.
  pose proof (Z.div_mod x (2 ^ 39)) as Hd.
  assert (Hq : 0 ≤ x / 2 ^ 39 < 2 ^ 25).
  { split; [apply Z.div_pos; lia|]. apply Z.div_lt_upper_bound; lia. }
  change (2 ^ 39) with 549755813888 in *. change (2 ^ 38) with 274877906944 in *.
  change (2 ^ 64) with 18446744073709551616 in *. change (2 ^ 25) with 33554432 in *.
  destruct (Z.ltb_spec (x mod 549755813888) 274877906944); lia.
Qed.

Lemma usize_VirtAddr_roundtrip_witness :
  usize_from_VirtAddr (VirtAddr_from TRAPFRAME) = TRAPFRAME ↔
  (TRAPFRAME < 2 ^ 38 ∨ 2 ^ 64 - 2 ^ 38 ≤ TRAPFRAME).
Proof. apply (usize_VirtAddr_roundtrip TRAPFRAME). by unfold is_usize. Defined.

(** [ceil] is the least page number whose start is not below the
    address, and [floor] the greatest whose start is not above it, also at
    address 0, where [self.0 - 1] wraps. *)
Theorem VirtAddr_ceil_floor_bounds va n :
  0 ≤ va ≤ 2 ^ 64 - 4096 →
  (VirtAddr_ceil va ≤ n ↔ va ≤ n * PAGE_SIZE) ∧
  (n ≤ VirtAddr_floor va ↔ n * PAGE_SIZE ≤ va).
Proof.
  intros H. unfold VirtAddr_ceil, VirtAddr_floor, uadd, usub, PAGE_SIZE.
  assert (E : wrap64 (wrap64 (va - 1) + 4096) = va + 4095).
  { unfold wrap64. rewrite Z.add_mod_idemp_l by lia. rewrite Z.mod_small; lia. }
  rewrite E. split.
  - pose proof (Z.div_mod (va + 4095) 4096). pose proof (Z.mod_pos_bound (va + 4095) 4096). lia.
  - pose proof (Z.div_mod va 4096). pose proof (Z.mod_pos_bound va 4096). lia.
Qed.

Lemma VirtAddr_ceil_floor_bounds_witness :
  (VirtAddr_ceil 0 ≤ 0 ↔ 0 ≤ 0 * PAGE_SIZE) ∧ (0 ≤ VirtAddr_floor 0 ↔ 0 * PAGE_SIZE ≤ 0).
Proof. apply (VirtAddr_ceil_floor_bounds 0 0). lia. Defined.

(** [for vpn in VPNRange::new(l, r)] ends after [r - l] items and visits
    exactly the page numbers [l], [l+1], ..., [r-1] in order. *)
Theorem VPNRange_iteration l r :
  0 ≤ l ≤ r → r < 2 ^ 64 →
  ∃ range, VPNRange_new l r = Ok range ∧
    SimpleRangeIterator_collect (S (Z.to_nat (r - l))) (SimpleRange_into_iter range)
      = Some (seqZ l (r - l)).
Proof.
  intros Hl Hr. exists (mkRange l r). split; [by apply VPNRange_new_Ok; split; [lia|]|].
  pose proof (SimpleRange_collect_seqZ (Z.to_nat (r - l)) l) as H1.
  rewrite Z2Nat.id in H1 by lia. unfold SimpleRange_into_iter. cbn [range_l range_r].
  replace (l + (r - l)) with r in H1 by lia. apply H1; lia.
Qed.

Lemma VPNRange_iteration_witness :
  ∃ range, VPNRange_new 5 9 = Ok range ∧
    SimpleRangeIterator_collect 5 (SimpleRange_into_iter range) = Some [5; 6; 7; 8].
Proof. apply (VPNRange_iteration 5 9); lia. Defined.
