(* ===== verification/PhysMem.v ===== *)
(** * Physical memory as the kernel accesses it

    [PhysPageNum::get_bytes_array], [get_pte_array] and [PhysAddr::get_mut]
    ([mm/address.rs]) turn page numbers and physical addresses into views of
    the identity-mapped RAM.  Memory is a map from page number to the 4096
    bytes of the page; the byte view and the page-table-entry view read and
    write the same bytes. *)

From S2P Require Import Prelude Addr.

Abbreviation pmem := (gmap Z (list Z)).

Definition is_byte (b : Z) : Prop := 0 ≤ b < 256.
Definition page_len : nat := Z.to_nat PAGE_SIZE.
Definition zero_page : list Z := replicate page_len 0.

(** [get_bytes_array]: the 4096 bytes of page [ppn]. *)
(** [mm/address.rs:179-182] PhysPageNum::get_bytes_array *)
Definition get_bytes_array (m : pmem) (ppn : Z) : list Z := default zero_page (m !! ppn).
Definition set_bytes_array (m : pmem) (ppn : Z) (bs : list Z) : pmem := <[ppn := bs]> m.

(** [get_pte_array]: entry [i] of the 512 8-byte little-endian entries. *)
(** [mm/address.rs:175-178] PhysPageNum::get_pte_array *)
Definition get_pte (m : pmem) (ppn i : Z) : Z :=
  little_endian_to_Z 8 (take 8 (drop (Z.to_nat (8 * i)) (get_bytes_array m ppn))).
Definition set_pte (m : pmem) (ppn i v : Z) : pmem :=
  <[ppn := splice (get_bytes_array m ppn) (Z.to_nat (8 * i)) (Z_to_little_endian 8 8 v)]> m.

(** Accesses through a raw physical address. *)
Definition load_byte (m : pmem) (pa : Z) : Z :=
  get_bytes_array m (pa / PAGE_SIZE) !!! Z.to_nat (pa mod PAGE_SIZE).
Definition store_byte (m : pmem) (pa b : Z) : pmem :=
  <[pa / PAGE_SIZE := <[Z.to_nat (pa mod PAGE_SIZE) := b]>
                        (get_bytes_array m (pa / PAGE_SIZE))]> m.
Definition load_bytes (m : pmem) (pa : Z) (n : nat) : list Z :=
  (λ i, load_byte m (pa + Z.of_nat i)) <$> seq 0 n.
Fixpoint store_bytes (m : pmem) (pa : Z) (bs : list Z) : pmem :=
  match bs with
  | [] => m
  | b :: bs' => store_bytes (store_byte m pa b) (pa + 1) bs'
  end.
(** A [usize] at a physical address. *)
Definition load_usize (m : pmem) (pa : Z) : Z := little_endian_to_Z 8 (load_bytes m pa 8).
Definition store_usize (m : pmem) (pa v : Z) : pmem :=
  store_bytes m pa (Z_to_little_endian 8 8 v).

(** Every stored page has its 4096 bytes. *)
Definition pmem_wf (m : pmem) : Prop :=
  ∀ ppn bs, m !! ppn = Some bs → length bs = page_len ∧ Forall is_byte bs.

(** ** Facts *)
Lemma page_len_eq : Z.of_nat page_len = 4096.
Proof. done. Qed.
Lemma page_len_nat : page_len = Z.to_nat 4096.
Proof. done. Qed.
#[global] Opaque page_len.
#[global] Arguments get_pte : simpl never.
#[global] Arguments set_pte : simpl never.
#[global] Arguments get_bytes_array : simpl never.

Lemma length_get_bytes_array m ppn : pmem_wf m → length (get_bytes_array m ppn) = page_len.
Proof.
  intros Hwf. unfold get_bytes_array. destruct (m !! ppn) as [bs|] eqn:E; simpl.
  - by apply Hwf in E as [? _].
  - apply length_replicate.
Qed.

Lemma bytes_get_bytes_array m ppn : pmem_wf m → Forall is_byte (get_bytes_array m ppn).
Proof.
  intros Hwf. unfold get_bytes_array. destruct (m !! ppn) as [bs|] eqn:E; simpl.
  - by apply Hwf in E as [_ ?].
  - apply Forall_replicate. unfold is_byte. lia.
Qed.

Lemma get_bytes_array_insert_eq m ppn bs : get_bytes_array (<[ppn := bs]> m) ppn = bs.
Proof. unfold get_bytes_array. by rewrite lookup_insert_eq. Qed.
Lemma get_bytes_array_insert_ne m ppn ppn' bs :
  ppn ≠ ppn' → get_bytes_array (<[ppn := bs]> m) ppn' = get_bytes_array m ppn'.
Proof. intros. unfold get_bytes_array. by rewrite lookup_insert_ne. Qed.

Lemma pmem_wf_empty : pmem_wf ∅.
Proof. intros p bs H. rewrite lookup_empty in H. discriminate H. Qed.

Lemma pmem_wf_insert m ppn bs :
  pmem_wf m → length bs = page_len → Forall is_byte bs → pmem_wf (<[ppn := bs]> m).
Proof.
  intros Hwf Hlen Hb q bs' [[-> ->]|[_ H]]%lookup_insert_Some; [done|by apply Hwf in H].
Qed.

Lemma le_bytes_range n v : 0 ≤ n → Forall is_byte (Z_to_little_endian n 8 v).
Proof. intros. apply (Z_to_little_endian_bound n 8 v); lia. Qed.

Lemma length_le_bytes v : length (Z_to_little_endian 8 8 v) = 8%nat.
Proof. pose proof (length_Z_to_little_endian 8 8 v). lia. Qed.

Lemma pmem_wf_set_pte m ppn i v :
  pmem_wf m → 0 ≤ i < 512 → pmem_wf (set_pte m ppn i v).
Proof.
  intros Hwf Hi. pose proof (length_get_bytes_array m ppn Hwf).
  pose proof (bytes_get_bytes_array m ppn Hwf).
  apply pmem_wf_insert; [done| |].
  - rewrite length_splice; [done|]. rewrite length_le_bytes, H, page_len_nat. lia.
  - unfold splice. rewrite !Forall_app. split_and!;
      [by apply Forall_take|by apply le_bytes_range|by apply Forall_drop].
Qed.

Lemma get_set_pte_eq m ppn i v :
  pmem_wf m → 0 ≤ i < 512 → 0 ≤ v < 2 ^ 64 → get_pte (set_pte m ppn i v) ppn i = v.
Proof.
  intros Hwf Hi Hv. unfold get_pte, set_pte. rewrite get_bytes_array_insert_eq.
  pose proof (length_get_bytes_array m ppn Hwf) as Hlen.
  unfold splice. rewrite drop_app_length'.
  2: { rewrite length_take, Hlen, page_len_nat. lia. }
  rewrite take_app_length'; [|by rewrite length_le_bytes].
  rewrite little_endian_to_Z_to_little_endian by lia. apply Z.mod_small. lia.
Qed.

Lemma get_set_pte_ne_page m ppn i v ppn' i' :
  ppn ≠ ppn' → get_pte (set_pte m ppn i v) ppn' i' = get_pte m ppn' i'.
Proof. intros. unfold get_pte, set_pte. by rewrite get_bytes_array_insert_ne. Qed.

Lemma get_set_pte_ne_index m ppn i v i' :
  pmem_wf m → 0 ≤ i < 512 → 0 ≤ i' < 512 → i ≠ i' →
  get_pte (set_pte m ppn i v) ppn i' = get_pte m ppn i'.
Proof.
  intros Hwf Hi Hi' Hne. unfold get_pte, set_pte. rewrite get_bytes_array_insert_eq.
  pose proof (length_get_bytes_array m ppn Hwf) as Hlen. f_equal.
  apply list_eq. intros k. destruct (decide (k < 8)%nat).
  2: { rewrite !lookup_take_ge by lia. done. }
  rewrite !lookup_take_lt by lia. rewrite !lookup_drop.
  apply lookup_splice_out; rewrite ?Hlen, ?length_le_bytes, ?page_len_nat; lia.
Qed.

Lemma get_bytes_array_set_pte_ne m ppn i v ppn' :
  ppn ≠ ppn' → get_bytes_array (set_pte m ppn i v) ppn' = get_bytes_array m ppn'.
Proof. apply get_bytes_array_insert_ne. Qed.

Lemma get_pte_range m ppn i : pmem_wf m → 0 ≤ i < 512 → is_usize (get_pte m ppn i).
Proof.
  intros Hwf Hi. unfold get_pte, is_usize.
  pose proof (length_get_bytes_array m ppn Hwf) as Hlen.
  pose proof (bytes_get_bytes_array m ppn Hwf) as Hb.
  assert (Hn : length (take 8 (drop (Z.to_nat (8 * i)) (get_bytes_array m ppn))) = 8%nat).
  { rewrite length_take, length_drop, Hlen, page_len_nat. lia. }
  pose proof (little_endian_to_Z_bound 8 (take 8 (drop (Z.to_nat (8 * i)) (get_bytes_array m ppn)))) as H.
  rewrite Hn in H. apply H; [lia|]. by apply Forall_take, Forall_drop.
Qed.

Lemma get_pte_zero m ppn i :
  get_bytes_array m ppn = zero_page → get_pte m ppn i = 0.
Proof.
  intros E. unfold get_pte. rewrite E. unfold zero_page.
  rewrite drop_replicate, take_replicate.
  generalize (8 `min` (page_len - Z.to_nat (8 * i)))%nat. intros n.
  induction n as [|n IH]; [done|]. simpl. by rewrite IH.
Qed.
