(* ===== verification/FrameAlloc.v ===== *)
(** * The physical frame allocator ([mm/frame_allocator.rs])

    [StackFrameAllocator] hands out frames from [[current, end)] and from the
    stack of recycled frames.  The abstract state is the set of live frames;
    [sfa_inv] relates the two.  [mm] is the state the memory code shares: the
    global [FRAME_ALLOCATOR] and RAM.  A [FrameTracker] is its frame number;
    dropping one is [frame_dealloc]. *)

From S2P Require Import Prelude Addr PhysMem.

(** [trait FrameAllocator]. *)
(** [mm/frame_allocator.rs:40-44] FrameAllocator *)
Class FrameAllocator (A : Type) := {
  fa_new : A;
  fa_alloc : A → option Z * A;
  fa_dealloc : Z → A → outcome A;
}.

(** [mm/frame_allocator.rs:47-51] StackFrameAllocator *)
Record StackFrameAllocator : Type := mkSFA {
  current : Z;
  end_ : Z;
  recycled : list Z;
}.

(** [mm/frame_allocator.rs:60-66] StackFrameAllocator::new *)
Definition StackFrameAllocator_new : StackFrameAllocator := mkSFA 0 0 [].

(** [mm/frame_allocator.rs:53-58] StackFrameAllocator::init *)
Definition StackFrameAllocator_init (l r : Z) (a : StackFrameAllocator) :
    StackFrameAllocator := mkSFA l r (recycled a).

(** [mm/frame_allocator.rs:67-77] StackFrameAllocator::alloc *)
Definition StackFrameAllocator_alloc (a : StackFrameAllocator) :
    option Z * StackFrameAllocator :=
  match vec_pop (recycled a) with
  | Some (ppn, rest) => (Some (PhysPageNum_from ppn), mkSFA (current a) (end_ a) rest)
  | None =>
      if current a =? end_ a then (None, a)
      else let a' := mkSFA (current a +u 1) (end_ a) (recycled a) in
           (Some (PhysPageNum_from (current a' -u 1)), a')
  end.

(** [mm/frame_allocator.rs:78-86] StackFrameAllocator::dealloc *)
Definition StackFrameAllocator_dealloc (ppn : Z) (a : StackFrameAllocator) :
    outcome StackFrameAllocator :=
  if (ppn >=? current a) || existsb (λ v, v =? ppn) (recycled a)
  then Fault Explicit
  else Ok (mkSFA (current a) (end_ a) (recycled a ++ [ppn])).

(** [mm/frame_allocator.rs:59-87] FrameAllocator for StackFrameAllocator *)
#[export] Instance StackFrameAllocator_FrameAllocator : FrameAllocator StackFrameAllocator := {
  fa_new := StackFrameAllocator_new;
  fa_alloc := StackFrameAllocator_alloc;
  fa_dealloc := StackFrameAllocator_dealloc;
}.

(** [FRAME_ALLOCATOR] and the RAM its frames live in. *)
(** [mm/frame_allocator.rs:89-95] FRAME_ALLOCATOR *)
Record mm : Type := mkMM {
  frame_allocator : StackFrameAllocator;
  ram : pmem;
}.

(** [FrameTracker::new]: page cleaning, byte by byte. *)
(** [mm/frame_allocator.rs:12-26] FrameTracker::new *)
Definition FrameTracker_new (ppn : Z) : M mm Z :=
  λ s, Ok (ppn, mkMM (frame_allocator s)
                     (set_bytes_array (ram s) ppn ((λ _, 0) <$> get_bytes_array (ram s) ppn))).

(** [init_frame_allocator], with the linker symbol [ekernel] as argument. *)
(** [mm/frame_allocator.rs:97-106] init_frame_allocator *)
Definition init_frame_allocator (ekernel : Z) : M mm unit :=
  modify (λ s, mkMM (StackFrameAllocator_init (PhysAddr_ceil (PhysAddr_from ekernel))
                       (PhysAddr_floor (PhysAddr_from MEMORY_END)) (frame_allocator s))
                    (ram s)).

(** [mm/frame_allocator.rs:108-114] frame_alloc *)
Definition frame_alloc : M mm (option Z) :=
  λ s, match StackFrameAllocator_alloc (frame_allocator s) with
       | (Some ppn, a) => (let* frame := FrameTracker_new ppn in ret (Some frame)) (mkMM a (ram s))
       | (None, a) => Ok (None, mkMM a (ram s))
       end.

(** [mm/frame_allocator.rs:116-119] frame_dealloc *)
Definition frame_dealloc (ppn : Z) : M mm unit :=
  λ s, match StackFrameAllocator_dealloc ppn (frame_allocator s) with
       | Ok a => Ok (tt, mkMM a (ram s))
       | Fault f => Fault f
       end.

(** [Drop for FrameTracker], and the drop of a [Vec<FrameTracker>]. *)
(** [mm/frame_allocator.rs:34-38] FrameTracker::drop *)
Definition FrameTracker_drop (frame : Z) : M mm unit := frame_dealloc frame.
Definition drop_frames (frames : list Z) : M mm unit := for_each frames FrameTracker_drop.

(** [frame_alloc().unwrap()], the only way the kernel calls it. *)
Definition frame_alloc_unwrap : M mm Z :=
  let* o := frame_alloc in lift (unwrap o).

(** [frame_allocator_test]. *)
Fixpoint alloc_n (n : nat) (v : list Z) : M mm (list Z) :=
  match n with
  | O => ret v
  | S n => let* frame := frame_alloc_unwrap in alloc_n n (v ++ [frame])
  end.
(** [mm/frame_allocator.rs:121-138] frame_allocator_test *)
Definition frame_allocator_test : M mm unit :=
  let* v := alloc_n 5 [] in
  drop_frames v ;;
  let* v := alloc_n 5 [] in
  drop_frames v.

#[global] Arguments frame_alloc_unwrap : simpl never.

(** ** Abstract state: the set of live frames of the managed range [[l, r)] *)
Definition sfa_inv (l r : Z) (a : StackFrameAllocator) (live : gset Z) : Prop :=
  0 ≤ l ∧ l ≤ current a ≤ r ∧ r ≤ 2 ^ 44 ∧ end_ a = r ∧
  NoDup (recycled a) ∧
  (∀ p, p ∈ recycled a → l ≤ p < current a) ∧
  (∀ p, p ∈ live ↔ (l ≤ p < current a ∧ p ∉ recycled a)).

(** The frames still available. *)
Definition sfa_free (a : StackFrameAllocator) : Z :=
  end_ a - current a + len (recycled a).

Lemma sfa_inv_init l r a :
  0 ≤ l ≤ r → r ≤ 2 ^ 44 → recycled a = [] →
  sfa_inv l r (StackFrameAllocator_init l r a) ∅.
Proof.
  intros Hl Hr E. unfold sfa_inv, StackFrameAllocator_init. simpl. rewrite E.
  split_and!; try lia; try done.
  - constructor.
  - intros p. by rewrite elem_of_nil.
  - intros p. rewrite elem_of_empty. lia.
Qed.

Lemma sfa_alloc_spec l r a live :
  sfa_inv l r a live →
  match StackFrameAllocator_alloc a with
  | (Some p, a') => l ≤ p < r ∧ p ∉ live ∧ sfa_inv l r a' ({[p]} ∪ live) ∧
                    sfa_free a' = sfa_free a - 1
  | (None, a') => a' = a ∧ (∀ p, l ≤ p < r → p ∈ live) ∧ sfa_free a = 0
  end.
Proof.
  intros (Hl & Hc & Hr & He & Hnd & Hrec & Hlive). unfold StackFrameAllocator_alloc.
  destruct (vec_pop (recycled a)) as [[p rest]|] eqn:E.
  - apply vec_pop_Some in E. rewrite E in Hnd, Hrec, Hlive.
    assert (Hp : l ≤ p < current a) by (apply Hrec; set_solver).
    apply NoDup_app in Hnd as (Hnd & Hnin & _).
    rewrite PhysPageNum_from_small by lia. split_and!.
    + lia.
    + lia.
    + rewrite Hlive. set_solver.
    + unfold sfa_inv. simpl. split_and!; try lia; try done.
      * intros q Hq. apply Hrec. set_solver.
      * intros q. rewrite elem_of_union, elem_of_singleton, Hlive.
        rewrite elem_of_app, list_elem_of_singleton.
        split; [intros [->|?]|]; [split; [done|]|naive_solver|].
        -- intros Hq. apply (Hnin p Hq). set_solver.
        -- destruct (decide (q = p)); naive_solver.
    + unfold sfa_free. simpl. rewrite E. unfold len. rewrite length_app. simpl. lia.
  - apply vec_pop_None in E. rewrite E in Hrec, Hlive.
    destruct (Z.eqb_spec (current a) (end_ a)) as [Ece|Ece].
    + split_and!; [done| |unfold sfa_free; rewrite E; unfold len; simpl; lia].
      intros p Hp. apply Hlive. split; [lia|]. apply not_elem_of_nil.
    + simpl. rewrite uadd_small, usub_small by lia.
      rewrite PhysPageNum_from_small by lia.
      replace (current a + 1 - 1) with (current a) by lia. split_and!; try lia.
      * rewrite Hlive. lia.
      * unfold sfa_inv. simpl. rewrite E. split_and!; try lia; try done.
        -- constructor.
        -- intros q. by rewrite elem_of_nil.
        -- intros q. rewrite elem_of_union, elem_of_singleton, Hlive.
           split.
           ++ intros [->|[? ?]]; (split; [lia|apply not_elem_of_nil]).
           ++ intros [? ?]. destruct (decide (q = current a)); [by left|].
              right. split; [lia|done].
      * unfold sfa_free. simpl. lia.
Qed.

Lemma existsb_elem (l : list Z) p : existsb (λ v, v =? p) l = bool_decide (p ∈ l).
Proof.
  apply Bool.eq_iff_eq_true. rewrite existsb_exists, bool_decide_eq_true.
  split; [intros (x & Hx & ->%Z.eqb_eq)|intros H; exists p]; rewrite ?Z.eqb_eq;
    by rewrite ?list_elem_of_In in *.
Qed.

Lemma sfa_dealloc_spec l r a live p :
  sfa_inv l r a live → p ∈ live →
  ∃ a', StackFrameAllocator_dealloc p a = Ok a' ∧ sfa_inv l r a' (live ∖ {[p]}) ∧
        sfa_free a' = sfa_free a + 1.
Proof.
  intros (Hl & Hc & Hr & He & Hnd & Hrec & Hlive) Hp.
  apply Hlive in Hp as [Hp Hnp]. unfold StackFrameAllocator_dealloc.
  rewrite existsb_elem, bool_decide_eq_false_2 by done.
  destruct (Z.geb_spec p (current a)); [lia|]. simpl. eexists. split; [done|]. split.
  - unfold sfa_inv. simpl. split_and!; try lia; try done.
    + apply NoDup_app. split_and!; [done| |apply NoDup_singleton].
      intros x Hx ->%list_elem_of_singleton. done.
    + intros q. rewrite elem_of_app, list_elem_of_singleton. naive_solver.
    + intros q. rewrite elem_of_difference, elem_of_singleton, Hlive.
      rewrite elem_of_app, list_elem_of_singleton. naive_solver.
  - unfold sfa_free. simpl. unfold len. rewrite length_app. simpl. lia.
Qed.

(** The same on the shared state: frame allocation as its clients use it. *)
Definition mm_inv (l r : Z) (s : mm) (live : gset Z) : Prop :=
  sfa_inv l r (frame_allocator s) live ∧ pmem_wf (ram s).

Definition mm_free (s : mm) : Z := sfa_free (frame_allocator s).

(** The frames that are not live are free. *)
Lemma mm_free_live l r s live : mm_inv l r s live → mm_free s = r - l - Z.of_nat (size live).
Proof.
  intros [(Hl & Hc & Hr & He & Hnd & Hrec & Hlive) _]. unfold mm_free, sfa_free, len.
  set (a := frame_allocator s) in *.
  assert (E : live = list_to_set (seqZ l (current a - l)) ∖ list_to_set (recycled a)).
  { apply set_eq. intros p. rewrite Hlive, elem_of_difference, !elem_of_list_to_set, elem_of_seqZ.
    split; intros [? ?]; (split; [lia|done]). }
  rewrite E, size_difference, !size_list_to_set; [|done|apply NoDup_seqZ|].
  - rewrite length_seqZ.
    assert (length (recycled a) ≤ Z.to_nat (current a - l))%nat; [|lia].
    rewrite <- (length_seqZ l), <- (size_list_to_set (C := gset Z) (recycled a)) by done.
    rewrite <- (size_list_to_set (C := gset Z) (seqZ l _)) by apply NoDup_seqZ.
    apply subseteq_size. intros p. rewrite !elem_of_list_to_set, elem_of_seqZ. intros ?%Hrec. lia.
  - intros p. rewrite !elem_of_list_to_set, elem_of_seqZ. intros ?%Hrec. lia.
Qed.

Lemma FrameTracker_zero m ppn :
  pmem_wf m → (λ _ : Z, 0) <$> get_bytes_array m ppn = zero_page.
Proof.
  intros Hwf. unfold zero_page. rewrite <- (length_get_bytes_array m ppn Hwf).
  generalize (get_bytes_array m ppn). intros bs. induction bs; [done|]. simpl. by f_equal.
Qed.

Lemma zero_page_wf : length zero_page = page_len ∧ Forall is_byte zero_page.
Proof.
  unfold zero_page. split; [apply length_replicate|].
  apply Forall_replicate. unfold is_byte. lia.
Qed.

Lemma frame_alloc_unwrap_spec l r s live :
  mm_inv l r s live → 0 < mm_free s →
  ∃ p s', frame_alloc_unwrap s = Ok (p, s') ∧
    l ≤ p < r ∧ p ∉ live ∧ mm_inv l r s' ({[p]} ∪ live) ∧
    ram s' = <[p := zero_page]> (ram s) ∧ mm_free s' = mm_free s - 1.
Proof.
  intros [Hinv Hwf] Hfree. unfold frame_alloc_unwrap, bind, frame_alloc.
  pose proof (sfa_alloc_spec _ _ _ _ Hinv) as Hs.
  destruct (StackFrameAllocator_alloc (frame_allocator s)) as [[p|] a'].
  - destruct Hs as (Hp & Hnp & Hinv' & Hf'). simpl.
    rewrite FrameTracker_zero by done. eexists _, _. split; [done|].
    pose proof zero_page_wf as [Hz1 Hz2].
    split_and!; try lia; try done. split; [done|]. by apply pmem_wf_insert.
  - destruct Hs as (-> & _ & Hf'). unfold mm_free in Hfree. lia.
Qed.

Lemma frame_dealloc_spec l r s live p :
  mm_inv l r s live → p ∈ live →
  ∃ s', frame_dealloc p s = Ok (tt, s') ∧ mm_inv l r s' (live ∖ {[p]}) ∧
        ram s' = ram s ∧ mm_free s' = mm_free s + 1.
Proof.
  intros [Hinv Hwf] Hp. unfold frame_dealloc.
  destruct (sfa_dealloc_spec _ _ _ _ _ Hinv Hp) as (a' & -> & Hinv' & Hf).
  eexists. split; [done|]. split_and!; try done.
Qed.

Lemma drop_frames_spec l r s live fs :
  mm_inv l r s live → NoDup fs → list_to_set fs ⊆ live →
  ∃ s', drop_frames fs s = Ok (tt, s') ∧ mm_inv l r s' (live ∖ list_to_set fs) ∧
        ram s' = ram s ∧ mm_free s' = mm_free s + len fs.
Proof.
  intros Hinv Hnd Hsub.
  apply (for_each_inv (λ pre s', mm_inv l r s' (live ∖ list_to_set pre) ∧
           ram s' = ram s ∧ mm_free s' = mm_free s + len pre) fs).
  - intros pre p post s1 -> (Hinv1 & Hram & Hf).
    apply NoDup_app in Hnd as (_ & Hdis & _).
    destruct (frame_dealloc_spec l r s1 (live ∖ list_to_set pre) p Hinv1)
      as (s2 & Hrun & Hinv2 & Hram2 & Hf2).
    { assert (p ∉ pre) by (intros Hp; apply (Hdis p Hp); set_solver). set_solver. }
    exists s2. split; [done|]. split_and!.
    + replace (live ∖ list_to_set (pre ++ [p])) with (live ∖ list_to_set pre ∖ {[p]})
        by set_solver. done.
    + congruence.
    + rewrite Hf2, Hf. unfold len. rewrite length_app. simpl. lia.
  - split_and!; [|done|unfold len; simpl; lia].
    replace (live ∖ list_to_set []) with live by set_solver. done.
Qed.

(** ** Clients of the allocator

    A client state is the allocator with the list of the frames handed out
    and not yet returned; trackers are moved, never copied, so a frame is
    returned only by dropping one of them. *)
Inductive client_step :
  StackFrameAllocator * list Z → StackFrameAllocator * list Z → Prop :=
| client_alloc a a' held p :
    fa_alloc a = (Some p, a') → client_step (a, held) (a', p :: held)
| client_oom a a' held :
    fa_alloc a = (None, a') → client_step (a, held) (a', held)
| client_drop a a' held1 p held2 :
    fa_dealloc p a = Ok a' → client_step (a, held1 ++ p :: held2) (a', held1 ++ held2).

Lemma client_step_inv l r a held a' held' :
  client_step (a, held) (a', held') →
  NoDup held ∧ sfa_inv l r a (list_to_set held) →
  NoDup held' ∧ sfa_inv l r a' (list_to_set held').
Proof.
  intros Hstep [Hnd Hinv]. inversion Hstep as [? ? ? p E|? ? ? E|? ? h1 p h2 E]; subst; simpl in E.
  - pose proof (sfa_alloc_spec _ _ _ _ Hinv) as Hs. rewrite E in Hs.
    destruct Hs as (_ & Hn & Hinv' & _). split; [|done].
    apply NoDup_cons. split; [set_solver|done].
  - pose proof (sfa_alloc_spec _ _ _ _ Hinv) as Hs. rewrite E in Hs.
    destruct Hs as (-> & _). done.
  - assert (Hperm : h1 ++ p :: h2 ≡ₚ p :: (h1 ++ h2)) by (symmetry; apply Permutation_middle).
    rewrite Hperm in Hnd. apply NoDup_cons in Hnd as [Hnp Hnd]. split; [done|].
    destruct (sfa_dealloc_spec l r a _ p Hinv) as (a2 & E2 & Hinv' & _); [set_solver|].
    rewrite E in E2. injection E2 as <-.
    replace (list_to_set (h1 ++ h2) : gset Z)
      with (list_to_set (h1 ++ p :: h2) ∖ {[p]} : gset Z); [done|].
    set_solver.
Qed.

(** The allocator refines the set-of-live-frames specification: an
    allocation returns a frame of the managed range that is not live and
    makes it live; it fails, leaving the state as it was, exactly when every
    frame of the range is live. *)
Theorem StackFrameAllocator_alloc_refines l r a live :
  sfa_inv l r a live →
  match StackFrameAllocator_alloc a with
  | (Some p, a') => l ≤ p < r ∧ p ∉ live ∧ sfa_inv l r a' ({[p]} ∪ live)
  | (None, a') => a' = a ∧ ∀ p, l ≤ p < r → p ∈ live
  end.
Proof.
  intros Hinv. pose proof (sfa_alloc_spec _ _ _ _ Hinv) as Hs.
  destruct (StackFrameAllocator_alloc a) as [[p|] a']; naive_solver.
Qed.

Lemma StackFrameAllocator_alloc_refines_witness :
  match StackFrameAllocator_alloc (mkSFA 0x80500 0x88000 []) with
  | (Some p, a') => 0x80500 ≤ p < 0x88000 ∧ p ∉ (∅ : gset Z) ∧
                    sfa_inv 0x80500 0x88000 a' ({[p]} ∪ ∅)
  | (None, a') => a' = mkSFA 0x80500 0x88000 [] ∧ ∀ p, 0x80500 ≤ p < 0x88000 → p ∈ (∅ : gset Z)
  end.
Proof.
  apply (StackFrameAllocator_alloc_refines 0x80500 0x88000 (mkSFA 0x80500 0x88000 []) ∅).
  by apply (sfa_inv_init 0x80500 0x88000 StackFrameAllocator_new).
Defined.

(** What [dealloc]'s validity check does with every frame number: a live
    frame is recycled; a frame of the managed range that is not live makes it
    panic; a frame below the range (which was never allocated) is accepted. *)
Theorem StackFrameAllocator_dealloc_cases l r a live p :
  sfa_inv l r a live →
  (p ∈ live → ∃ a', StackFrameAllocator_dealloc p a = Ok a' ∧
                    sfa_inv l r a' (live ∖ {[p]})) ∧
  (l ≤ p → p ∉ live → StackFrameAllocator_dealloc p a = Fault Explicit) ∧
  (0 ≤ p < l → ∃ a', StackFrameAllocator_dealloc p a = Ok a' ∧ p ∈ recycled a').
Proof.
  intros Hinv. split_and!.
  - intros Hp. destruct (sfa_dealloc_spec _ _ _ _ _ Hinv Hp) as (a' & ? & ? & _). eauto.
  - intros Hl Hp. destruct Hinv as (? & ? & ? & ? & ? & Hrec & Hlive).
    rewrite Hlive in Hp. unfold StackFrameAllocator_dealloc. rewrite existsb_elem.
    destruct (Z.geb_spec p (current a)); [done|]. simpl.
    rewrite bool_decide_eq_true_2; [done|]. destruct (decide (p ∈ recycled a)); [done|].
    exfalso. apply Hp. split; [lia|done].
  - intros Hp. destruct Hinv as (? & ? & ? & ? & ? & Hrec & Hlive).
    unfold StackFrameAllocator_dealloc. rewrite existsb_elem.
    destruct (Z.geb_spec p (current a)); [lia|]. simpl.
    rewrite bool_decide_eq_false_2 by (intros ?%Hrec; lia).
    eexists. split; [done|]. simpl. set_solver.
Qed.

Lemma StackFrameAllocator_dealloc_cases_witness :
  (3 ∈ ({[3]} : gset Z) → ∃ a', StackFrameAllocator_dealloc 3 (mkSFA 4 9 []) = Ok a' ∧
                    sfa_inv 3 9 a' ({[3]} ∖ {[3]})) ∧
  (3 ≤ 3 → 3 ∉ ({[3]} : gset Z) → StackFrameAllocator_dealloc 3 (mkSFA 4 9 []) = Fault Explicit) ∧
  (0 ≤ 3 < 3 → ∃ a', StackFrameAllocator_dealloc 3 (mkSFA 4 9 []) = Ok a' ∧ 3 ∈ recycled a').
Proof.
  apply (StackFrameAllocator_dealloc_cases 3 9 (mkSFA 4 9 []) {[3]} 3).
  unfold sfa_inv. simpl. split_and!; try lia; try done.
  - constructor.
  - intros p ?%not_elem_of_nil. done.
  - intros p. rewrite elem_of_singleton. split.
    + intros ->. split; [lia|apply not_elem_of_nil].
    + lia.
Defined.

(** C31. Whatever clients do, from a freshly initialised allocator on: the
    frames held are pairwise distinct and inside the managed range, and
    dropping any of them never panics. *)
Theorem frame_allocator_exclusive l r a held :
  0 ≤ l ≤ r → r ≤ 2 ^ 44 →
  rtc client_step (StackFrameAllocator_init l r fa_new, []) (a, held) →
  NoDup held ∧ Forall (λ p, l ≤ p < r) held ∧
  ∀ p, p ∈ held → ∃ a', fa_dealloc p a = Ok a'.
Proof.
  intros Hl Hr Hsteps.
  assert (Hinv : NoDup held ∧ sfa_inv l r a (list_to_set held)).
  { apply (rtc_invariant client_step (λ st, NoDup st.2 ∧ sfa_inv l r st.1 (list_to_set st.2)))
      in Hsteps; [done| |].
    - intros [a1 h1] [a2 h2] Hstep. by apply client_step_inv.
    - split; [constructor|]. by apply sfa_inv_init. }
  destruct Hinv as [Hnd Hinv]. split_and!; [done| |].
  - apply Forall_forall. intros p Hp.
    destruct Hinv as (_ & ? & _ & _ & _ & _ & Hlive).
    assert (p ∈ (list_to_set held : gset Z)) as [? _]%Hlive by set_solver. lia.
  - intros p Hp. destruct (sfa_dealloc_spec l r a _ p Hinv) as (a' & ? & _); [set_solver|]. eauto.
Qed.

Lemma frame_allocator_exclusive_witness :
  NoDup [0x80500] ∧ Forall (λ p, 0x80500 ≤ p < 0x88000) [0x80500] ∧
  ∀ p, p ∈ [0x80500] → ∃ a', fa_dealloc p (mkSFA 0x80501 0x88000 []) = Ok a'.
Proof.
  apply (frame_allocator_exclusive 0x80500 0x88000 (mkSFA 0x80501 0x88000 []) [0x80500]);
    [lia|lia|].
  apply rtc_once. by apply client_alloc.
Defined.

Lemma alloc_n_spec l r n : ∀ s live v,
  mm_inv l r s live → Z.of_nat n ≤ mm_free s → NoDup v → list_to_set v ⊆ live →
  ∃ fs s', alloc_n n v s = Ok (v ++ fs, s') ∧ length fs = n ∧ NoDup (v ++ fs) ∧
    (∀ p, p ∈ fs → p ∉ live) ∧ mm_inv l r s' (live ∪ list_to_set fs) ∧
    mm_free s' = mm_free s - Z.of_nat n.
Proof.
  induction n as [|n IH]; intros s live v Hinv Hfree Hnd Hsub.
  - exists [], s. simpl. rewrite app_nil_r. split_and!; try done; try lia.
    + intros p ?%not_elem_of_nil. done.
    + replace (live ∪ ∅) with live by set_solver. done.
  - destruct (frame_alloc_unwrap_spec l r s live) as (p & s1 & Hrun & _ & Hp & Hinv1 & _ & Hf);
      [done|lia|].
    destruct (IH s1 ({[p]} ∪ live) (v ++ [p])) as (fs & s2 & Hrun2 & Hlen & Hnd2 & Hfr & Hinv2 & Hf2);
      [done|lia| |set_solver|].
    { apply NoDup_app. split_and!; [done| |apply NoDup_singleton]. set_solver. }
    exists (p :: fs), s2. simpl. rewrite (bind_run _ _ _ _ _ Hrun), Hrun2, <- app_assoc.
    split_and!; try done; try lia.
    + by rewrite <- app_assoc in Hnd2.
    + set_solver.
    + replace (live ∪ ({[p]} ∪ list_to_set fs)) with ({[p]} ∪ live ∪ list_to_set fs) by set_solver.
      done.
Qed.

(** [frame_allocator_test] passes whenever five frames are free, and it
    leaves the same frames live as before. *)
Theorem frame_allocator_test_passes l r s live :
  mm_inv l r s live → 5 ≤ mm_free s →
  ∃ s', frame_allocator_test s = Ok (tt, s') ∧ mm_inv l r s' live ∧ mm_free s' = mm_free s.
Proof.
  intros Hinv Hfree. unfold frame_allocator_test.
  assert (Hround : ∀ s, mm_inv l r s live → 5 ≤ mm_free s →
    ∃ fs s1 s2, alloc_n 5 [] s = Ok (fs, s1) ∧ drop_frames fs s1 = Ok (tt, s2) ∧
      mm_inv l r s2 live ∧ mm_free s2 = mm_free s).
  { clear. intros s Hinv Hfree.
    destruct (alloc_n_spec l r 5 s live []) as (fs & s1 & Hrun & Hlen & Hnd & Hnew & Hinv1 & Hf1);
      [done|lia|constructor|set_solver|].
    destruct (drop_frames_spec l r s1 (live ∪ list_to_set fs) fs Hinv1)
      as (s2 & Hrun2 & Hinv2 & _ & Hf2); [done|set_solver|].
    exists fs, s1, s2. split_and!; try done.
    - replace live with ((live ∪ list_to_set fs) ∖ list_to_set fs) at 1; [done|]. set_solver.
    - rewrite Hf2, Hf1. unfold len. lia. }
  destruct (Hround s) as (fs & s1 & s2 & E1 & E2 & Hinv2 & Hf2); [done|lia|].
  destruct (Hround s2) as (fs' & s3 & s4 & E3 & E4 & Hinv4 & Hf4); [done|lia|].
  exists s4. rewrite (bind_run _ _ _ _ _ E1), (bind_run _ _ _ _ _ E2), (bind_run _ _ _ _ _ E3).
  split_and!; [done|done|lia].
Qed.

Lemma frame_allocator_test_passes_witness :
  ∃ s', frame_allocator_test (mkMM (mkSFA 0x80500 0x88000 []) ∅) = Ok (tt, s') ∧
        mm_inv 0x80500 0x88000 s' ∅ ∧ mm_free s' = 0x7b00.
Proof.
  apply (frame_allocator_test_passes 0x80500 0x88000 (mkMM (mkSFA 0x80500 0x88000 []) ∅) ∅).
  - split; [by apply (sfa_inv_init 0x80500 0x88000 StackFrameAllocator_new)|].
    apply pmem_wf_empty.
  - unfold mm_free, sfa_free, len. simpl. lia.
Defined.
