(* ===== verification/PageTable.v ===== *)
(** * Page-table entries and the Sv39 page table ([mm/page_table.rs], part 1)

    A [&mut PageTableEntry] is the place of the entry: the page number of its
    table and its index.  Methods that take [&mut self] return the new
    [PageTable].  The abstract state of a page table is the partial map
    [pt_lookup] from page numbers to valid leaf entries; [pt_wf] is the shape
    that makes the tables of one page table a tree. *)

From S2P Require Import Prelude Addr PhysMem FrameAlloc.

(** ** [PTEFlags] *)
(** [mm/page_table.rs:12-12] PTEFlags::V *)
Definition PTEFlags_V : Z := Z.shiftl 1 0.
(** [mm/page_table.rs:13-13] PTEFlags::R *)
Definition PTEFlags_R : Z := Z.shiftl 1 1.
(** [mm/page_table.rs:14-14] PTEFlags::W *)
Definition PTEFlags_W : Z := Z.shiftl 1 2.
(** [mm/page_table.rs:15-15] PTEFlags::X *)
Definition PTEFlags_X : Z := Z.shiftl 1 3.
(** [mm/page_table.rs:16-16] PTEFlags::U *)
Definition PTEFlags_U : Z := Z.shiftl 1 4.
(** [mm/page_table.rs:17-17] PTEFlags::G *)
Definition PTEFlags_G : Z := Z.shiftl 1 5.
(** [mm/page_table.rs:18-18] PTEFlags::A *)
Definition PTEFlags_A : Z := Z.shiftl 1 6.
(** [mm/page_table.rs:19-19] PTEFlags::D *)
Definition PTEFlags_D : Z := Z.shiftl 1 7.
(** [mm/page_table.rs:9-21] PTEFlags. [from_bits]: the bits, if all of them
    are flags; the eight flags are the eight bits of the byte. *)
Definition PTEFlags_from_bits (bits : Z) : option Z :=
  let all := Z.lor (Z.lor (Z.lor PTEFlags_V PTEFlags_R) (Z.lor PTEFlags_W PTEFlags_X))
                   (Z.lor (Z.lor PTEFlags_U PTEFlags_G) (Z.lor PTEFlags_A PTEFlags_D)) in
  if Z.ldiff bits all =? 0 then Some bits else None.

(** ** [PageTableEntry]: its [bits] *)
(** [mm/page_table.rs:31-35] PageTableEntry::new *)
Definition PageTableEntry_new (ppn flags : Z) : Z := Z.lor (wrap64 (Z.shiftl ppn 10)) flags.
(** [mm/page_table.rs:36-38] PageTableEntry::empty *)
Definition PageTableEntry_empty : Z := 0.
(** [mm/page_table.rs:39-41] PageTableEntry::ppn *)
Definition PageTableEntry_ppn (bits : Z) : Z :=
  PhysPageNum_from (Z.land (Z.shiftr bits 10) (Z.shiftl 1 44 - 1)).
(** [mm/page_table.rs:42-44] PageTableEntry::flags. The [unwrap] cannot fail
    ([PTEFlags_from_bits_u8]). *)
Definition PageTableEntry_flags (bits : Z) : Z := default 0 (PTEFlags_from_bits (wrap8 bits)).
(** [mm/page_table.rs:45-47] PageTableEntry::is_valid *)
Definition PageTableEntry_is_valid (bits : Z) : bool :=
  negb (Z.land (PageTableEntry_flags bits) PTEFlags_V =? 0).
(** [mm/page_table.rs:48-50] PageTableEntry::readable *)
Definition PageTableEntry_readable (bits : Z) : bool :=
  negb (Z.land (PageTableEntry_flags bits) PTEFlags_R =? 0).
(** [mm/page_table.rs:51-53] PageTableEntry::writable *)
Definition PageTableEntry_writable (bits : Z) : bool :=
  negb (Z.land (PageTableEntry_flags bits) PTEFlags_W =? 0).
(** [mm/page_table.rs:54-56] PageTableEntry::executable *)
Definition PageTableEntry_executable (bits : Z) : bool :=
  negb (Z.land (PageTableEntry_flags bits) PTEFlags_X =? 0).

(** ** [PageTable] *)
(** [mm/page_table.rs:59-63] PageTable *)
Record PageTable : Type := mkPT {
  root_ppn : Z;
  frames : list Z;
}.

(** [mm/page_table.rs:67-73] PageTable::new *)
Definition PageTable_new : M mm PageTable :=
  let* frame := frame_alloc_unwrap in
  ret (mkPT frame [frame]).

(** [mm/page_table.rs:74-80] PageTable::from_token *)
Definition PageTable_from_token (satp : Z) : PageTable :=
  mkPT (PhysPageNum_from (Z.land satp (Z.shiftl 1 44 - 1))) [].

Definition write_pte (ppn idx v : Z) : M mm unit :=
  modify (λ s, mkMM (frame_allocator s) (set_pte (ram s) ppn idx v)).
Definition read_pte (ppn idx : Z) : M mm Z :=
  λ s, Ok (get_pte (ram s) ppn idx, s).

(** [mm/page_table.rs:91-96] PageTable::find_pte_create. The part of the loop
    body after [if i == 2]: the next table, created if need be. *)
Definition find_pte_create_next (ppn idx : Z) (fs : list Z) : M mm (Z * list Z) :=
  let* pte := read_pte ppn idx in
  let* fs' :=
    if negb (PageTableEntry_is_valid pte) then
      let* frame := frame_alloc_unwrap in
      write_pte ppn idx (PageTableEntry_new frame PTEFlags_V) ;;
      ret (fs ++ [frame])
    else ret fs in
  let* pte := read_pte ppn idx in
  ret (PageTableEntry_ppn pte, fs').

(** [mm/page_table.rs:85-97] PageTable::find_pte_create. The loop over the
    remaining [(i, idx)]. *)
Fixpoint find_pte_create_loop (i : Z) (idxs : list Z) (ppn : Z) (fs : list Z) :
    M mm (option (Z * Z) * list Z) :=
  match idxs with
  | [] => ret (None, fs)
  | idx :: idxs' =>
      if i =? 2 then ret (Some (ppn, idx), fs)
      else
        let* '(ppn, fs) := find_pte_create_next ppn idx fs in
        find_pte_create_loop (i + 1) idxs' ppn fs
  end.

(** [mm/page_table.rs:81-99] PageTable::find_pte_create *)
Definition PageTable_find_pte_create (pt : PageTable) (vpn : Z) :
    M mm (option (Z * Z) * PageTable) :=
  let* '(result, fs) :=
    find_pte_create_loop 0 (VirtPageNum_indexes vpn) (root_ppn pt) (frames pt) in
  ret (result, mkPT (root_ppn pt) fs).

(** [mm/page_table.rs:104-114] PageTable::find_pte. The loop over the
    remaining [(i, idx)]. *)
Fixpoint find_pte_loop (m : pmem) (i : Z) (idxs : list Z) (ppn : Z) : option (Z * Z) :=
  match idxs with
  | [] => None
  | idx :: idxs' =>
      if i =? 2 then Some (ppn, idx)
      else
        let pte := get_pte m ppn idx in
        if negb (PageTableEntry_is_valid pte) then None
        else find_pte_loop m (i + 1) idxs' (PageTableEntry_ppn pte)
  end.

(** [mm/page_table.rs:100-116] PageTable::find_pte *)
Definition PageTable_find_pte (m : pmem) (pt : PageTable) (vpn : Z) : option (Z * Z) :=
  find_pte_loop m 0 (VirtPageNum_indexes vpn) (root_ppn pt).

(** [mm/page_table.rs:117-122] PageTable::map *)
Definition PageTable_map (pt : PageTable) (vpn ppn flags : Z) : M mm PageTable :=
  let* '(o, pt) := PageTable_find_pte_create pt vpn in
  let* '(p, i) := lift (unwrap o) in
  let* pte := read_pte p i in
  lift (assert_ (negb (PageTableEntry_is_valid pte))) ;;
  write_pte p i (PageTableEntry_new ppn (Z.lor flags PTEFlags_V)) ;;
  ret pt.

(** [mm/page_table.rs:123-126] PageTable::is_mapped *)
Definition PageTable_is_mapped (pt : PageTable) (vpn : Z) : M mm (bool * PageTable) :=
  let* '(o, pt) := PageTable_find_pte_create pt vpn in
  let* '(p, i) := lift (unwrap o) in
  let* pte := read_pte p i in
  ret (PageTableEntry_is_valid pte, pt).

(** [mm/page_table.rs:127-132] PageTable::unmap *)
Definition PageTable_unmap (pt : PageTable) (vpn : Z) : M mm unit :=
  let* s := get in
  let* '(p, i) := lift (unwrap (PageTable_find_pte (ram s) pt vpn)) in
  let* pte := read_pte p i in
  lift (assert_ (PageTableEntry_is_valid pte)) ;;
  write_pte p i PageTableEntry_empty.

(** [mm/page_table.rs:133-135] PageTable::translate *)
Definition PageTable_translate (m : pmem) (pt : PageTable) (vpn : Z) : option Z :=
  (λ '(p, i), get_pte m p i) <$> PageTable_find_pte m pt vpn.

(** [mm/page_table.rs:136-145] PageTable::translate_va *)
Definition PageTable_translate_va (m : pmem) (pt : PageTable) (va : Z) : option Z :=
  (λ '(p, i),
     let aligned_pa := PhysAddr_from_PhysPageNum (PageTableEntry_ppn (get_pte m p i)) in
     let offset := VirtAddr_page_offset va in
     PhysAddr_from (aligned_pa +u offset)) <$> PageTable_find_pte m pt (VirtAddr_floor va).

(** [mm/page_table.rs:146-148] PageTable::token *)
Definition PageTable_token (pt : PageTable) : Z := Z.lor (wrap64 (Z.shiftl 8 60)) (root_ppn pt).

#[global] Arguments write_pte : simpl never.
#[global] Arguments PTEFlags_from_bits : simpl never.
#[global] Arguments PageTable_new : simpl never.
#[global] Arguments PageTable_find_pte_create : simpl never.
#[global] Arguments PageTable_find_pte : simpl never.
#[global] Arguments PageTable_map : simpl never.
#[global] Arguments PageTable_is_mapped : simpl never.
#[global] Arguments PageTable_unmap : simpl never.
#[global] Arguments PageTable_translate : simpl never.
#[global] Arguments PageTable_translate_va : simpl never.
#[global] Arguments PageTableEntry_is_valid : simpl never.
#[global] Arguments PageTableEntry_ppn : simpl never.
#[global] Arguments PageTableEntry_new : simpl never.

(** ** Facts on entries *)
Lemma PTEFlags_from_bits_u8 b : 0 ≤ b < 256 → PTEFlags_from_bits b = Some b.
Proof.
  intros Hb. unfold PTEFlags_from_bits.
  match goal with |- context [Z.ldiff b ?x] => change x with (Z.ones 8) end.
  rewrite Z.ldiff_ones_r by lia. rewrite Z.shiftr_div_pow2, Z.div_small by lia. done.
Qed.

Lemma PageTableEntry_flags_eq b : PageTableEntry_flags b = b mod 256.
Proof.
  unfold PageTableEntry_flags. rewrite PTEFlags_from_bits_u8; [done|].
  apply Z.mod_pos_bound. lia.
Qed.

Lemma PageTableEntry_is_valid_odd b : PageTableEntry_is_valid b = Z.odd b.
Proof.
  unfold PageTableEntry_is_valid. rewrite PageTableEntry_flags_eq.
  change PTEFlags_V with (2 ^ 1 - 1). rewrite land_mask by lia.
  rewrite Z.mod_mod_divide by (exists 128; lia).
  change (2 ^ 1) with 2. rewrite Zmod_odd. by destruct (Z.odd b).
Qed.

Lemma PageTableEntry_ppn_eq b : PageTableEntry_ppn b = (b / 2 ^ 10) mod 2 ^ 44.
Proof.
  unfold PageTableEntry_ppn. rewrite PhysPageNum_from_mod.
  change (Z.shiftl 1 44 - 1) with (2 ^ 44 - 1).
  rewrite land_mask by lia. rewrite Z.shiftr_div_pow2 by lia. apply Z.mod_mod. lia.
Qed.

Lemma PageTableEntry_ppn_range b : 0 ≤ PageTableEntry_ppn b < 2 ^ 44.
Proof. rewrite PageTableEntry_ppn_eq. apply Z.mod_pos_bound. lia. Qed.

Lemma PageTableEntry_new_eq ppn flags :
  0 ≤ ppn < 2 ^ 44 → 0 ≤ flags < 256 →
  PageTableEntry_new ppn flags = ppn * 2 ^ 10 + flags.
Proof.
  intros. unfold PageTableEntry_new. rewrite Z.shiftl_mul_pow2, wrap64_small by lia.
  apply lor_low_high; lia.
Qed.

Lemma PageTableEntry_ppn_new ppn flags :
  0 ≤ ppn < 2 ^ 44 → 0 ≤ flags < 256 →
  PageTableEntry_ppn (PageTableEntry_new ppn flags) = ppn.
Proof.
  intros. rewrite PageTableEntry_ppn_eq, PageTableEntry_new_eq by done.
  rewrite Z.div_add_l, (Z.div_small flags) by lia. rewrite Z.mod_small; lia.
Qed.

Lemma PageTableEntry_flags_new ppn flags :
  0 ≤ ppn < 2 ^ 44 → 0 ≤ flags < 256 →
  PageTableEntry_flags (PageTableEntry_new ppn flags) = flags.
Proof.
  intros. rewrite PageTableEntry_flags_eq, PageTableEntry_new_eq by done.
  change (2 ^ 10) with (4 * 256). rewrite Z.mul_assoc, Z.add_comm, Z.mod_add by lia.
  apply Z.mod_small. lia.
Qed.

Lemma PageTableEntry_new_range ppn flags :
  0 ≤ ppn < 2 ^ 44 → 0 ≤ flags < 256 → is_usize (PageTableEntry_new ppn flags).
Proof. intros. rewrite PageTableEntry_new_eq by done. unfold is_usize. lia. Qed.

Lemma lor_V_range flags : 0 ≤ flags < 256 → 0 ≤ Z.lor flags PTEFlags_V < 256.
Proof.
  intros H. split; [apply Z.lor_nonneg; split; [lia|done]|].
  assert (Hs : Z.shiftr (Z.lor flags PTEFlags_V) 8 = 0).
  { rewrite Z.shiftr_lor, Z.shiftr_div_pow2, Z.div_small by lia. done. }
  assert (0 ≤ Z.lor flags PTEFlags_V) by (apply Z.lor_nonneg; split; [lia|done]).
  rewrite Z.shiftr_div_pow2 in Hs by lia.
  apply Z.div_small_iff in Hs; lia.
Qed.

Lemma lor_V_odd flags : Z.odd (Z.lor flags PTEFlags_V) = true.
Proof. rewrite <- !Z.bit0_odd, Z.lor_spec. apply orb_true_r. Qed.

Lemma PageTableEntry_new_valid ppn flags :
  0 ≤ ppn < 2 ^ 44 → 0 ≤ flags < 256 →
  PageTableEntry_is_valid (PageTableEntry_new ppn flags) = Z.odd flags.
Proof.
  intros. rewrite PageTableEntry_is_valid_odd, PageTableEntry_new_eq by done.
  rewrite Z.odd_add. change (2 ^ 10) with (2 * 2 ^ 9).
  rewrite Z.mul_assoc, (Z.mul_comm ppn 2), <- Z.mul_assoc, Z.odd_mul. done.
Qed.

(** ** The abstract page table

    [pt_lookup] is what the hardware sees: the leaf entry of a page number,
    if the walk reaches one and it is valid. *)
Definition pt_lookup (m : pmem) (root vpn : Z) : option Z :=
  match PageTable_translate m (mkPT root []) vpn with
  | Some pte => if PageTableEntry_is_valid pte then Some pte else None
  | None => None
  end.

#[global] Arguments pt_lookup : simpl never.

(** The table a valid entry points to. *)
Definition child (m : pmem) (p i : Z) : option Z :=
  let pte := get_pte m p i in
  if PageTableEntry_is_valid pte then Some (PageTableEntry_ppn pte) else None.

Definition is_idx (i : Z) : Prop := 0 ≤ i < 512.
Definition is_vpn (vpn : Z) : Prop := 0 ≤ vpn < 2 ^ 27.

(** The tables of a page table form a tree: a root, second-level tables [l1]
    and leaf tables [l0], all distinct, each pointed to from one place. *)
Record pt_tree (m : pmem) (root : Z) (l1 l0 : list Z) : Prop := {
  tree_nodup : NoDup (root :: l1 ++ l0);
  tree_l1 i p : is_idx i → child m root i = Some p → p ∈ l1;
  tree_l1_inj i j p :
    is_idx i → is_idx j → child m root i = Some p → child m root j = Some p → i = j;
  tree_l0 q i p : q ∈ l1 → is_idx i → child m q i = Some p → p ∈ l0;
  tree_l0_inj q q' i j p :
    q ∈ l1 → q' ∈ l1 → is_idx i → is_idx j →
    child m q i = Some p → child m q' j = Some p → q = q' ∧ i = j;
}.

Definition pt_wf (m : pmem) (pt : PageTable) : Prop :=
  ∃ l1 l0, frames pt ≡ₚ root_ppn pt :: l1 ++ l0 ∧ pt_tree m (root_ppn pt) l1 l0.

(** *** The walk *)
Definition vpn_i0 (vpn : Z) : Z := (vpn / 2 ^ 18) mod 512.
Definition vpn_i1 (vpn : Z) : Z := (vpn / 2 ^ 9) mod 512.
Definition vpn_i2 (vpn : Z) : Z := vpn mod 512.

Lemma vpn_idx vpn : is_idx (vpn_i0 vpn) ∧ is_idx (vpn_i1 vpn) ∧ is_idx (vpn_i2 vpn).
Proof.
  unfold is_idx, vpn_i0, vpn_i1, vpn_i2.
  split_and!; apply Z.mod_pos_bound; lia.
Qed.

Lemma vpn_idx_inj v v' :
  is_vpn v → is_vpn v' →
  vpn_i0 v = vpn_i0 v' → vpn_i1 v = vpn_i1 v' → vpn_i2 v = vpn_i2 v' → v = v'.
Proof.
  unfold is_vpn, vpn_i0, vpn_i1, vpn_i2.
  change (2 ^ 18) with 262144. change (2 ^ 27) with 134217728. change (2 ^ 9) with 512.
  intros. Z.to_euclidean_division_equations. lia.
Qed.

Definition walk (m : pmem) (root vpn : Z) : option (Z * Z) :=
  p1 ← child m root (vpn_i0 vpn);
  p0 ← child m p1 (vpn_i1 vpn);
  Some (p0, vpn_i2 vpn).

Lemma find_pte_walk m pt vpn : PageTable_find_pte m pt vpn = walk m (root_ppn pt) vpn.
Proof.
  unfold PageTable_find_pte, walk, child. rewrite VirtPageNum_indexes_eq. simpl.
  fold (vpn_i0 vpn) (vpn_i1 vpn) (vpn_i2 vpn).
  destruct (PageTableEntry_is_valid (get_pte m (root_ppn pt) (vpn_i0 vpn))); [|done]. simpl.
  by destruct (PageTableEntry_is_valid (get_pte m _ (vpn_i1 vpn))).
Qed.

(** The leaf entry at a place, when valid. *)
Definition leaf (m : pmem) (loc : Z * Z) : option Z :=
  let pte := get_pte m loc.1 loc.2 in
  if PageTableEntry_is_valid pte then Some pte else None.

Lemma pt_lookup_walk m root vpn : pt_lookup m root vpn = walk m root vpn ≫= leaf m.
Proof.
  unfold pt_lookup, PageTable_translate. rewrite find_pte_walk. simpl.
  by destruct (walk m root vpn) as [[p i]|].
Qed.

Lemma walk_Some m root vpn p i :
  walk m root vpn = Some (p, i) ↔
  i = vpn_i2 vpn ∧ ∃ p1, child m root (vpn_i0 vpn) = Some p1 ∧ child m p1 (vpn_i1 vpn) = Some p.
Proof.
  unfold walk. split.
  - destruct (child m root (vpn_i0 vpn)) as [p1|] eqn:E1; simpl; [|done].
    destruct (child m p1 (vpn_i1 vpn)) as [p0|] eqn:E0; simpl; [|done].
    intros [= <- <-]. eauto.
  - intros (-> & p1 & -> & E). simpl. by rewrite E.
Qed.

Section tree.
Context {m : pmem} {root : Z} {l1 l0 : list Z} (Htree : pt_tree m root l1 l0).

Lemma tree_disjoint p : p ∈ l0 → p ≠ root ∧ p ∉ l1.
Proof.
  intros Hp. pose proof (tree_nodup _ _ _ _ Htree) as [Hr Hnd]%NoDup_cons.
  apply NoDup_app in Hnd as (_ & Hd & _). split; [set_solver|].
  intros H. by apply (Hd p H).
Qed.

Lemma walk_place vpn p i :
  walk m root vpn = Some (p, i) → p ∈ l0 ∧ is_idx i.
Proof.
  intros (-> & p1 & E1 & E0)%walk_Some. pose proof (vpn_idx vpn) as (H0 & H1 & H2).
  apply (tree_l1 _ _ _ _ Htree) in E1; [|done].
  apply (tree_l0 _ _ _ _ Htree) in E0; done.
Qed.

(** Different page numbers have different leaf places. *)
Lemma walk_inj vpn vpn' loc :
  is_vpn vpn → is_vpn vpn' →
  walk m root vpn = Some loc → walk m root vpn' = Some loc → vpn = vpn'.
Proof.
  destruct loc as [p i]. intros Hv Hv' (-> & p1 & E1 & E0)%walk_Some (E2 & p1' & E1' & E0')%walk_Some.
  pose proof (vpn_idx vpn) as (H0 & H1 & H2). pose proof (vpn_idx vpn') as (H0' & H1' & H2').
  pose proof (tree_l1 _ _ _ _ Htree _ _ H0 E1). pose proof (tree_l1 _ _ _ _ Htree _ _ H0' E1').
  destruct (tree_l0_inj _ _ _ _ Htree p1 p1' (vpn_i1 vpn) (vpn_i1 vpn') p) as [<- ?]; try done.
  apply vpn_idx_inj; try done.
  apply (tree_l1_inj _ _ _ _ Htree _ _ p1); done.
Qed.
End tree.

(** *** Writing one leaf entry *)
Lemma child_set_pte_ne m p i v q j : p ≠ q → child (set_pte m p i v) q j = child m q j.
Proof. intros. unfold child. by rewrite get_set_pte_ne_page. Qed.

Section leaf_write.
Context {m : pmem} {root : Z} {l1 l0 : list Z} (Htree : pt_tree m root l1 l0) (Hwf : pmem_wf m).
Context (p i v : Z) (Hp : p ∈ l0) (Hi : is_idx i).

Lemma leaf_write_child q j : q = root ∨ q ∈ l1 → child (set_pte m p i v) q j = child m q j.
Proof.
  pose proof (tree_disjoint Htree p Hp) as [? ?].
  intros Hq. apply child_set_pte_ne. destruct Hq as [->|Hq]; [done|congruence].
Qed.

Lemma leaf_write_tree : pt_tree (set_pte m p i v) root l1 l0.
Proof.
  destruct Htree as [Hnd H1 H2 H3 H4]. split; [done| | | |]; intros *;
    rewrite ?leaf_write_child by auto; eauto.
  - intros Hq. rewrite leaf_write_child by auto. eauto.
  - intros Hq Hq'. rewrite !leaf_write_child by auto. eauto.
Qed.

Lemma leaf_write_walk vpn : walk (set_pte m p i v) root vpn = walk m root vpn.
Proof.
  unfold walk. rewrite leaf_write_child by auto.
  destruct (child m root (vpn_i0 vpn)) as [p1|] eqn:E; [|done]. simpl.
  rewrite leaf_write_child; [done|]. right. eapply (tree_l1 _ _ _ _ Htree); [|exact E].
  apply vpn_idx.
Qed.

Lemma leaf_write_lookup vpn vpn' :
  is_vpn vpn → is_vpn vpn' → walk m root vpn = Some (p, i) → is_usize v →
  pt_lookup (set_pte m p i v) root vpn' =
    if decide (vpn' = vpn) then (if PageTableEntry_is_valid v then Some v else None)
    else pt_lookup m root vpn'.
Proof.
  intros Hv Hv' Hw Hu. rewrite !pt_lookup_walk, leaf_write_walk.
  destruct (decide (vpn' = vpn)) as [->|Hne].
  - rewrite Hw. simpl. unfold leaf. simpl. by rewrite get_set_pte_eq.
  - destruct (walk m root vpn') as [[p' i']|] eqn:Hw'; [|done]. simpl. unfold leaf. simpl.
    destruct (decide (p' = p)) as [->|]; [|by rewrite get_set_pte_ne_page].
    pose proof (walk_place Htree _ _ _ Hw') as [_ Hi'].
    rewrite get_set_pte_ne_index; try done. intros <-. by apply Hne, (walk_inj Htree vpn' vpn (p, i)).
Qed.
End leaf_write.

(** *** Hanging a new, zeroed table [f] into the free entry [(q, j)] *)
Definition hang (m : pmem) (f q j : Z) : pmem :=
  set_pte (<[f := zero_page]> m) q j (PageTableEntry_new f PTEFlags_V).

Lemma zeroed_wf m f : pmem_wf m → pmem_wf (<[f := zero_page]> m).
Proof. intros. pose proof zero_page_wf as [? ?]. by apply pmem_wf_insert. Qed.

Lemma get_pte_insert_ne m f bs q j : f ≠ q → get_pte (<[f := bs]> m) q j = get_pte m q j.
Proof. intros. unfold get_pte. by rewrite get_bytes_array_insert_ne. Qed.

Section hang.
Context (m : pmem) (f q j : Z) (Hwf : pmem_wf m) (Hj : is_idx j) (Hf : 0 ≤ f < 2 ^ 44).
Context (Hfq : f ≠ q).

Lemma hang_wf : pmem_wf (hang m f q j).
Proof. by apply pmem_wf_set_pte; [apply zeroed_wf|]. Qed.

Lemma hang_pte_eq : get_pte (hang m f q j) q j = PageTableEntry_new f PTEFlags_V.
Proof.
  apply get_set_pte_eq; [by apply zeroed_wf|done|]. by apply PageTableEntry_new_range.
Qed.

Lemma hang_child_eq : child (hang m f q j) q j = Some f.
Proof.
  unfold child. rewrite hang_pte_eq, PageTableEntry_new_valid, PageTableEntry_ppn_new by done.
  done.
Qed.

Lemma hang_pte_ne q' j' :
  q' ≠ f → is_idx j' → (q', j') ≠ (q, j) → get_pte (hang m f q j) q' j' = get_pte m q' j'.
Proof.
  intros Hq' Hj' Hne. unfold hang.
  destruct (decide (q' = q)) as [->|].
  - rewrite get_set_pte_ne_index; [|by apply zeroed_wf|done|done|congruence].
    clear Hfq. by apply get_pte_insert_ne.
  - rewrite get_set_pte_ne_page by done. by apply get_pte_insert_ne.
Qed.

Lemma hang_pte_new k : get_pte (hang m f q j) f k = 0.
Proof.
  unfold hang. rewrite get_set_pte_ne_page by done.
  apply get_pte_zero. apply get_bytes_array_insert_eq.
Qed.

Lemma hang_child_new k : child (hang m f q j) f k = None.
Proof. unfold child. by rewrite hang_pte_new. Qed.

Lemma hang_child_ne q' j' :
  q' ≠ f → is_idx j' → (q', j') ≠ (q, j) → child (hang m f q j) q' j' = child m q' j'.
Proof. intros. unfold child. by rewrite hang_pte_ne. Qed.

Lemma hang_child_old q' j' p :
  q' ≠ f → is_idx j' → child m q j = None → child m q' j' = Some p →
  child (hang m f q j) q' j' = Some p.
Proof.
  intros Hq' Hj' Hn E. rewrite hang_child_ne; [done|done|done|]. intros [= -> ->]. congruence.
Qed.

Lemma hang_child_inv q' j' p :
  q' ≠ f → is_idx j' → child (hang m f q j) q' j' = Some p →
  (q' = q ∧ j' = j ∧ p = f) ∨ ((q', j') ≠ (q, j) ∧ child m q' j' = Some p).
Proof.
  intros Hq' Hj' E. destruct (decide ((q', j') = (q, j))) as [[= -> ->]|Hne].
  - rewrite hang_child_eq in E. left. clear Hfq. naive_solver.
  - right. by rewrite hang_child_ne in E.
Qed.
End hang.

(** Solves the inequalities between the tables of a tree. *)
Ltac tree_ne :=
  repeat match goal with
  | H : pt_tree _ _ _ _ |- _ => apply tree_nodup in H
  | H : NoDup (_ :: _) |- _ => apply NoDup_cons in H as [? ?]
  | H : NoDup (_ ++ _) |- _ => apply NoDup_app in H as (? & ? & ?)
  | H : _ ∉ _ :: _ |- _ => apply not_elem_of_cons in H as [? ?]
  | H : _ ∉ _ ++ _ |- _ => apply not_elem_of_app in H as [? ?]
  end;
  repeat match goal with
  | |- (_, _) ≠ (_, _) => intros [= ]; subst
  | |- _ ∉ _ ++ _ => apply not_elem_of_app; split
  | |- _ ≠ _ => intros ->
  end; first [done | by eauto | congruence].

(** A new second-level table under the root. *)
Section hang_root.
Context {m : pmem} {root : Z} {l1 l0 : list Z} (Htree : pt_tree m root l1 l0) (Hwf : pmem_wf m).
Context (f j : Z) (Hj : is_idx j) (Hf : 0 ≤ f < 2 ^ 44) (Hnew : f ∉ root :: l1 ++ l0).
Context (Hfree : child m root j = None).

Lemma hang_root_ne : f ≠ root.
Proof. tree_ne. Qed.

Lemma hang_root_child_l1 q i :
  q ∈ l1 → is_idx i → child (hang m f root j) q i = child m q i.
Proof. intros. apply hang_child_ne; try done; tree_ne. Qed.

Lemma hang_root_tree : pt_tree (hang m f root j) root (f :: l1) l0.
Proof.
  pose proof hang_root_ne as Hfr. split.
  - pose proof (tree_nodup _ _ _ _ Htree) as [Hr Hnd]%NoDup_cons. simpl.
    rewrite !NoDup_cons, elem_of_cons. split_and!; [|tree_ne|done]. intros [?|?]; by subst.
  - intros i p Hi [(_ & _ & ->)|[_ E]]%hang_child_inv; try done; [set_solver|].
    apply elem_of_cons. right. by apply (tree_l1 _ _ _ _ Htree i).
  - intros i i' p Hi Hi' E E'. apply hang_child_inv in E; try done. apply hang_child_inv in E'; try done.
    pose proof (tree_l1 _ _ _ _ Htree) as H1.
    destruct E as [(_ & -> & ->)|[_ E]], E' as [(_ & -> & Ep)|[_ E']]; subst; try done.
    + exfalso. specialize (H1 _ _ Hi' E'). tree_ne.
    + exfalso. specialize (H1 _ _ Hi E). tree_ne.
    + by apply (tree_l1_inj _ _ _ _ Htree i i' p).
  - intros q i p [->|Hq]%elem_of_cons Hi E; [by rewrite hang_child_new in E|].
    rewrite hang_root_child_l1 in E by done. by apply (tree_l0 _ _ _ _ Htree q i).
  - intros q q' i i' p [->|Hq]%elem_of_cons [->|Hq']%elem_of_cons Hi Hi' E E';
      try (by rewrite hang_child_new in E by done); try (by rewrite hang_child_new in E' by done).
    rewrite hang_root_child_l1 in E by done. rewrite hang_root_child_l1 in E' by done.
    by apply (tree_l0_inj _ _ _ _ Htree q q' i i' p).
Qed.

Lemma hang_root_lookup vpn : pt_lookup (hang m f root j) root vpn = pt_lookup m root vpn.
Proof.
  pose proof hang_root_ne as Hfr.
  rewrite !pt_lookup_walk. pose proof (vpn_idx vpn) as (Hi0 & Hi1 & Hi2).
  unfold walk. destruct (decide (vpn_i0 vpn = j)) as [Ej|Ne].
  - rewrite Ej, hang_child_eq, Hfree by done. simpl. by rewrite hang_child_new.
  - rewrite hang_child_ne by (done || congruence).
    destruct (child m root (vpn_i0 vpn)) as [p1|] eqn:E1; [|done]. simpl.
    apply (tree_l1 _ _ _ _ Htree) in E1; [|done].
    rewrite hang_root_child_l1 by done.
    destruct (child m p1 (vpn_i1 vpn)) as [p0|] eqn:E0; [|done]. simpl.
    apply (tree_l0 _ _ _ _ Htree) in E0; [|done|done].
    unfold leaf. simpl. rewrite hang_pte_ne; [done|done|done|tree_ne|done|].
    intros [= -> _]. by pose proof (tree_disjoint Htree root E0) as [[] _].
Qed.
End hang_root.

(** A new leaf table under a second-level table. *)
Section hang_l1.
Context {m : pmem} {root : Z} {l1 l0 : list Z} (Htree : pt_tree m root l1 l0) (Hwf : pmem_wf m).
Context (f q j : Z) (Hq : q ∈ l1) (Hj : is_idx j) (Hf : 0 ≤ f < 2 ^ 44).
Context (Hnew : f ∉ root :: l1 ++ l0) (Hfree : child m q j = None).

Lemma hang_l1_ne : f ≠ q ∧ root ≠ q ∧ root ≠ f.
Proof. split_and!; tree_ne. Qed.

Lemma hang_l1_child_root i : is_idx i → child (hang m f q j) root i = child m root i.
Proof.
  pose proof hang_l1_ne as (? & ? & ?). intros. apply hang_child_ne; try done. congruence.
Qed.

Lemma hang_l1_new_ne q' : q' ∈ l1 → q' ≠ f.
Proof. intros. tree_ne. Qed.

Lemma hang_l1_tree : pt_tree (hang m f q j) root l1 (f :: l0).
Proof.
  pose proof hang_l1_ne as (Hfq & Hrq & Hrf). split.
  - assert (Hperm : root :: l1 ++ f :: l0 ≡ₚ f :: root :: l1 ++ l0).
    { rewrite <- Permutation_middle. apply Permutation_swap. }
    rewrite Hperm. apply NoDup_cons. split; [done|]. by apply (tree_nodup _ _ _ _ Htree).
  - intros i p Hi. rewrite hang_l1_child_root by done. by apply (tree_l1 _ _ _ _ Htree).
  - intros i i' p Hi Hi'. rewrite !hang_l1_child_root by done. by apply (tree_l1_inj _ _ _ _ Htree).
  - intros q' i p Hq' Hi [(_ & _ & ->)|[_ E]]%hang_child_inv; try done;
      [set_solver| |by apply hang_l1_new_ne].
    apply elem_of_cons. right. by apply (tree_l0 _ _ _ _ Htree q' i).
  - intros q1 q2 i i' p Hq1 Hq2 Hi Hi' E E'.
    apply hang_child_inv in E; try done; [|by apply hang_l1_new_ne].
    apply hang_child_inv in E'; try done; [|by apply hang_l1_new_ne].
    pose proof (tree_l0 _ _ _ _ Htree) as H0.
    destruct E as [(-> & -> & ->)|[_ E]], E' as [(-> & -> & Ep)|[_ E']]; subst; try done.
    + exfalso. specialize (H0 _ _ _ Hq2 Hi' E'). tree_ne.
    + exfalso. specialize (H0 _ _ _ Hq1 Hi E). tree_ne.
    + by apply (tree_l0_inj _ _ _ _ Htree q1 q2 i i' p).
Qed.

Lemma hang_l1_lookup vpn : pt_lookup (hang m f q j) root vpn = pt_lookup m root vpn.
Proof.
  pose proof hang_l1_ne as (Hfq & Hrq & Hrf).
  rewrite !pt_lookup_walk. pose proof (vpn_idx vpn) as (Hi0 & Hi1 & Hi2).
  unfold walk. rewrite hang_l1_child_root by done.
  destruct (child m root (vpn_i0 vpn)) as [p1|] eqn:E1; [|done]. simpl.
  apply (tree_l1 _ _ _ _ Htree) in E1; [|done].
  destruct (decide ((p1, vpn_i1 vpn) = (q, j))) as [[= -> ->]|Ne].
  - rewrite hang_child_eq, Hfree by done. simpl. unfold leaf. simpl. by rewrite hang_pte_new.
  - rewrite hang_child_ne; [|done|done|by apply hang_l1_new_ne|done|done].
    destruct (child m p1 (vpn_i1 vpn)) as [p0|] eqn:E0; [|done]. simpl.
    apply (tree_l0 _ _ _ _ Htree) in E0; [|done|done]. unfold leaf. simpl.
    rewrite hang_pte_ne; [done|done|done|tree_ne|done|].
    intros [= -> _]. by pose proof (tree_disjoint Htree q E0) as [_ []].
Qed.
End hang_l1.

(** ** The operations against the abstract page table *)
Section ops.
Context (l r : Z).

(** [pt'] is [pt] with the tables [new] added; the translations are now [tr];
    no page but the tables of [pt'] is touched. *)
Record pt_step (s : mm) (live : gset Z) (pt : PageTable)
    (s' : mm) (pt' : PageTable) (new : list Z) (tr : Z → option Z) : Prop := {
  step_root : root_ppn pt' = root_ppn pt;
  step_frames : frames pt' = frames pt ++ new;
  step_fresh f : f ∈ new → f ∉ live;
  step_inv : mm_inv l r s' (live ∪ list_to_set new);
  step_wf : pt_wf (ram s') pt';
  step_lookup vpn : is_vpn vpn → pt_lookup (ram s') (root_ppn pt) vpn = tr vpn;
  step_other q : q ∉ frames pt' → get_bytes_array (ram s') q = get_bytes_array (ram s) q;
  step_free : mm_free s' = mm_free s - len new;
}.

(** So no live page but the tables of [pt] is. *)
Lemma step_pages s live pt s' pt' new tr q :
  pt_step s live pt s' pt' new tr → q ∈ live → q ∉ frames pt →
  get_bytes_array (ram s') q = get_bytes_array (ram s) q.
Proof.
  intros G Hq Hn. apply (step_other _ _ _ _ _ _ _ G). rewrite (step_frames _ _ _ _ _ _ _ G).
  intros [?|Hf]%elem_of_app; [done|]. by apply (step_fresh _ _ _ _ _ _ _ G q).
Qed.

(** The same translations. *)
Abbreviation pt_grow s live pt s' pt' new :=
  (pt_step s live pt s' pt' new (pt_lookup (ram s) (root_ppn pt))).

Lemma pt_grow_refl s live pt :
  mm_inv l r s live → pt_wf (ram s) pt → pt_grow s live pt s pt [].
Proof.
  intros Hinv Hwf. split; try done.
  - by rewrite app_nil_r.
  - intros f ?%not_elem_of_nil. done.
  - replace (live ∪ list_to_set []) with live by set_solver. done.
  - unfold len. simpl. lia.
Qed.

Lemma pt_step_trans s live pt s1 pt1 n1 s2 pt2 n2 tr1 tr2 :
  pt_step s live pt s1 pt1 n1 tr1 →
  pt_step s1 (live ∪ list_to_set n1) pt1 s2 pt2 n2 tr2 →
  pt_step s live pt s2 pt2 (n1 ++ n2) tr2.
Proof.
  intros [R1 F1 N1 I1 W1 L1 P1 X1] [R2 F2 N2 I2 W2 L2 P2 X2]. split; try done.
  - congruence.
  - by rewrite F2, F1, app_assoc.
  - intros f [?|Hf]%elem_of_app; [by apply N1|]. apply N2 in Hf. set_solver.
  - replace (live ∪ list_to_set (n1 ++ n2)) with (live ∪ list_to_set n1 ∪ list_to_set n2);
      [done|]. rewrite list_to_set_app_L. set_solver.
  - intros vpn. rewrite R1 in L2. apply L2.
  - intros q Hq. rewrite P2 by done. apply P1. intros Hn. apply Hq. rewrite F2. apply elem_of_app. by left.
  - rewrite X2, X1. unfold len. rewrite length_app. lia.
Qed.

Lemma pt_step_ext s live pt s' pt' new tr tr' :
  pt_step s live pt s' pt' new tr → (∀ vpn, is_vpn vpn → tr vpn = tr' vpn) →
  pt_step s live pt s' pt' new tr'.
Proof. intros [] E. split; try done. intros vpn Hv. rewrite <- E by done. eauto. Qed.

Lemma hang_pages m f q j p :
  p ≠ f → p ≠ q → get_bytes_array (hang m f q j) p = get_bytes_array m p.
Proof.
  intros. unfold hang. rewrite get_bytes_array_set_pte_ne by done.
  by apply get_bytes_array_insert_ne.
Qed.

Lemma find_pte_create_next_spec s live q j fs :
  mm_inv l r s live → is_idx j → 0 < mm_free s → q ∈ live →
  (∃ p, child (ram s) q j = Some p ∧ find_pte_create_next q j fs s = Ok ((p, fs), s)) ∨
  (child (ram s) q j = None ∧ ∃ f s',
     find_pte_create_next q j fs s = Ok ((f, fs ++ [f]), s') ∧
     0 ≤ f < 2 ^ 44 ∧ f ∉ live ∧ mm_inv l r s' ({[f]} ∪ live) ∧
     ram s' = hang (ram s) f q j ∧ mm_free s' = mm_free s - 1).
Proof.
  intros Hinv Hj Hfree Hq. unfold find_pte_create_next, child.
  rewrite (bind_run (read_pte q j) _ s (get_pte (ram s) q j) s) by done.
  destruct (PageTableEntry_is_valid (get_pte (ram s) q j)) eqn:Ev; simpl.
  - left. eexists. split; [done|]. done.
  - right. split; [done|].
    destruct (frame_alloc_unwrap_spec l r s live Hinv Hfree)
      as (f & s1 & Hrun & Hf & Hnf & Hinv1 & Hram & Hfr).
    assert (Hf44 : 0 ≤ f < 2 ^ 44) by (destruct Hinv as [(? & ? & ? & _) _]; lia).
    assert (f ≠ q) by congruence.
    exists f, (mkMM (frame_allocator s1) (hang (ram s) f q j)).
    unfold bind at 1 2. rewrite Hrun. unfold bind, write_pte, modify, ret, read_pte.
    rewrite Hram. simpl. fold (hang (ram s) f q j).
    rewrite hang_pte_eq by (done || apply Hinv).
    rewrite PageTableEntry_ppn_new by done. split_and!; try done; try lia.
    destruct Hinv1 as [Hinv1 _]. split; [done|]. by apply hang_wf; [apply Hinv|].
Qed.

Lemma grow_live_eq (live : gset Z) f : live ∪ list_to_set [f] = {[f]} ∪ live.
Proof. set_solver. Qed.

(** The first step of the walk, creating the second-level table if need be. *)
Lemma descend_root s live pt j :
  mm_inv l r s live → pt_wf (ram s) pt → list_to_set (frames pt) ⊆ live →
  is_idx j → 0 < mm_free s →
  ∃ p s' pt' new,
    find_pte_create_next (root_ppn pt) j (frames pt) s = Ok ((p, frames pt'), s') ∧
    pt_grow s live pt s' pt' new ∧ len new ≤ 1 ∧ child (ram s') (root_ppn pt) j = Some p.
Proof.
  intros Hinv Hwf Hsub Hj Hfree. pose proof Hwf as (l1 & l0 & Hperm & Htree).
  assert (Hroot : root_ppn pt ∈ live).
  { apply Hsub, elem_of_list_to_set. rewrite Hperm. set_solver. }
  destruct (find_pte_create_next_spec s live (root_ppn pt) j (frames pt))
    as [(p & Hc & Hrun)|(Hc & f & s' & Hrun & Hf & Hnf & Hinv' & Hram & Hfr)]; try done.
  { exists p, s, pt, []. split_and!; try done. by apply pt_grow_refl. }
  assert (Hnew : f ∉ root_ppn pt :: l1 ++ l0) by (rewrite <- Hperm; set_solver).
  destruct Hinv as [_ Hm].
  exists f, s', (mkPT (root_ppn pt) (frames pt ++ [f])), [f].
  split_and!; [done| |done|rewrite Hram; by apply hang_child_eq].
  split; rewrite ?Hram, ?grow_live_eq; simpl; try done.
  - set_solver.
  - exists (f :: l1), l0. simpl. split; [|by apply hang_root_tree].
    rewrite Hperm, Permutation_app_comm. simpl. apply Permutation_swap.
  - intros vpn _. by apply (hang_root_lookup Htree).
  - intros q Hq. apply hang_pages; intros ->; apply Hq; [set_solver|]. rewrite Hperm. set_solver.
Qed.

(** The second step. *)
Lemma descend_l1 s live pt i j q :
  mm_inv l r s live → pt_wf (ram s) pt → list_to_set (frames pt) ⊆ live →
  is_idx i → is_idx j → 0 < mm_free s → child (ram s) (root_ppn pt) i = Some q →
  ∃ p s' pt' new,
    find_pte_create_next q j (frames pt) s = Ok ((p, frames pt'), s') ∧
    pt_grow s live pt s' pt' new ∧ len new ≤ 1 ∧
    child (ram s') (root_ppn pt) i = Some q ∧ child (ram s') q j = Some p.
Proof.
  intros Hinv Hwf Hsub Hi Hj Hfree Hq. pose proof Hwf as (l1 & l0 & Hperm & Htree).
  pose proof (tree_l1 _ _ _ _ Htree _ _ Hi Hq) as Hql1.
  assert (Hqf : q ∈ frames pt) by (rewrite Hperm; set_solver).
  assert (Hql : q ∈ live) by set_solver.
  destruct (find_pte_create_next_spec s live q j (frames pt))
    as [(p & Hc & Hrun)|(Hc & f & s' & Hrun & Hf & Hnf & Hinv' & Hram & Hfr)]; try done.
  { exists p, s, pt, []. split_and!; try done. by apply pt_grow_refl. }
  assert (Hnew : f ∉ root_ppn pt :: l1 ++ l0) by (rewrite <- Hperm; set_solver).
  destruct Hinv as [_ Hm].
  exists f, s', (mkPT (root_ppn pt) (frames pt ++ [f])), [f].
  split_and!; [done| |done| |rewrite Hram; by apply hang_child_eq].
  2: { rewrite Hram. erewrite hang_l1_child_root; done. }
  split; rewrite ?Hram, ?grow_live_eq; simpl; try done.
  - set_solver.
  - exists l1, (f :: l0). simpl. split; [|by apply hang_l1_tree].
    rewrite Hperm, Permutation_app_comm. simpl.
    rewrite <- Permutation_middle. apply Permutation_swap.
  - intros vpn _. by apply (hang_l1_lookup Htree).
  - intros p Hp. apply hang_pages; intros ->; apply Hp; set_solver.
Qed.

Lemma find_pte_create_spec s live pt vpn :
  mm_inv l r s live → pt_wf (ram s) pt → list_to_set (frames pt) ⊆ live → 2 ≤ mm_free s →
  ∃ loc s' pt' new,
    PageTable_find_pte_create pt vpn s = Ok ((Some loc, pt'), s') ∧
    pt_grow s live pt s' pt' new ∧ len new ≤ 2 ∧ walk (ram s') (root_ppn pt) vpn = Some loc.
Proof.
  intros Hinv Hwf Hsub Hfree. pose proof (vpn_idx vpn) as (Hi0 & Hi1 & Hi2).
  destruct (descend_root s live pt (vpn_i0 vpn)) as (p1 & s1 & pt1 & n1 & R1 & G1 & N1 & C1);
    try done; [lia|].
  pose proof (step_free _ _ _ _ _ _ _ G1) as F1.
  destruct (descend_l1 s1 (live ∪ list_to_set n1) pt1 (vpn_i0 vpn) (vpn_i1 vpn) p1)
    as (p0 & s2 & pt2 & n2 & R2 & G2 & N2 & C2 & C3); try done.
  { apply G1. }
  { apply G1. }
  { rewrite (step_frames _ _ _ _ _ _ _ G1), list_to_set_app_L. set_solver. }
  { lia. }
  { by rewrite (step_root _ _ _ _ _ _ _ G1). }
  exists (p0, vpn_i2 vpn), s2, pt2, (n1 ++ n2).
  rewrite (step_root _ _ _ _ _ _ _ G1) in C2.
  split_and!; [| |unfold len in *; rewrite length_app; lia|].
  - unfold PageTable_find_pte_create. rewrite VirtPageNum_indexes_eq. simpl.
    fold (vpn_i0 vpn) (vpn_i1 vpn) (vpn_i2 vpn).
    unfold bind. rewrite R1, R2. simpl. unfold ret. do 3 f_equal.
    destruct pt2 as [rt fs]. simpl. f_equal.
    rewrite <- (step_root _ _ _ _ _ _ _ G1). symmetry. apply (step_root _ _ _ _ _ _ _ G2).
  - apply (pt_step_ext _ _ _ _ _ _ _ _ (pt_step_trans _ _ _ _ _ _ _ _ _ _ _ G1 G2)).
    rewrite (step_root _ _ _ _ _ _ _ G1). apply G1.
  - apply walk_Some. eauto.
Qed.

(** Writing the leaf entry of [vpn], at the place the walk gives. *)
Lemma write_leaf_spec s live pt vpn p i v :
  mm_inv l r s live → pt_wf (ram s) pt → list_to_set (frames pt) ⊆ live → is_vpn vpn →
  walk (ram s) (root_ppn pt) vpn = Some (p, i) → is_usize v →
  ∃ s', write_pte p i v s = Ok (tt, s') ∧
    pt_step s live pt s' pt [] (λ vpn',
      if decide (vpn' = vpn) then (if PageTableEntry_is_valid v then Some v else None)
      else pt_lookup (ram s) (root_ppn pt) vpn').
Proof.
  intros Hinv (l1 & l0 & Hperm & Htree) Hsub Hv Hw Hu.
  pose proof (walk_place Htree _ _ _ Hw) as [Hp Hi]. destruct Hinv as [Hinv Hm].
  eexists. split; [done|]. split; simpl; try done.
  - by rewrite app_nil_r.
  - intros f ?%not_elem_of_nil. done.
  - replace (live ∪ ∅) with live by set_solver. split; [done|]. by apply pmem_wf_set_pte.
  - exists l1, l0. split; [done|]. by apply leaf_write_tree.
  - intros vpn' Hv'. by apply (leaf_write_lookup Htree).
  - intros q Hq. apply get_bytes_array_set_pte_ne. intros ->. apply Hq. rewrite Hperm. set_solver.
  - unfold len, mm_free. simpl. lia.
Qed.

Lemma walk_leaf s pt vpn loc :
  walk (ram s) (root_ppn pt) vpn = Some loc →
  pt_lookup (ram s) (root_ppn pt) vpn = leaf (ram s) loc.
Proof. intros E. by rewrite pt_lookup_walk, E. Qed.

Lemma map_spec s live pt vpn ppn flags :
  mm_inv l r s live → pt_wf (ram s) pt → list_to_set (frames pt) ⊆ live → 2 ≤ mm_free s →
  is_vpn vpn → 0 ≤ ppn < 2 ^ 44 → 0 ≤ flags < 256 →
  if pt_lookup (ram s) (root_ppn pt) vpn then PageTable_map pt vpn ppn flags s = Fault Assert
  else ∃ s' pt' new, PageTable_map pt vpn ppn flags s = Ok (pt', s') ∧ len new ≤ 2 ∧
    pt_step s live pt s' pt' new (λ vpn',
      if decide (vpn' = vpn) then Some (PageTableEntry_new ppn (Z.lor flags PTEFlags_V))
      else pt_lookup (ram s) (root_ppn pt) vpn').
Proof.
  intros Hinv Hwf Hsub Hfree Hv Hppn Hfl.
  destruct (find_pte_create_spec s live pt vpn) as ([p i] & s1 & pt1 & n1 & R1 & G1 & N1 & W1);
    [done..|].
  pose proof (step_root _ _ _ _ _ _ _ G1) as Er.
  rewrite <- (step_lookup _ _ _ _ _ _ _ G1) by done. rewrite (walk_leaf s1 pt vpn _ W1).
  unfold PageTable_map. rewrite (bind_run _ _ _ _ _ R1). simpl.
  unfold leaf. simpl. unfold bind at 1. simpl. unfold read_pte, bind at 1.
  destruct (PageTableEntry_is_valid (get_pte (ram s1) p i)) eqn:Ev; [done|].
  pose proof (lor_V_range flags Hfl) as Hfl'.
  destruct (write_leaf_spec s1 (live ∪ list_to_set n1) pt1 vpn p i
    (PageTableEntry_new ppn (Z.lor flags PTEFlags_V))) as (s2 & R2 & G2); try apply G1; try done.
  { rewrite (step_frames _ _ _ _ _ _ _ G1), list_to_set_app_L. set_solver. }
  { by rewrite Er. }
  { by apply PageTableEntry_new_range. }
  exists s2, pt1, n1. split_and!; [|done|].
  - unfold bind. simpl. rewrite Ev. by injection R2 as <-.
  - pose proof (pt_step_trans _ _ _ _ _ _ _ _ _ _ _ G1 G2) as G. rewrite app_nil_r in G.
    apply (pt_step_ext _ _ _ _ _ _ _ _ G). intros vpn' Hv'.
    rewrite PageTableEntry_new_valid, lor_V_odd by done.
    destruct (decide (vpn' = vpn)); [done|]. rewrite Er. by apply G1.
Qed.

Lemma unmap_run s pt vpn :
  PageTable_unmap pt vpn s =
  match walk (ram s) (root_ppn pt) vpn with
  | None => Fault Unwrap
  | Some (p, i) =>
      if PageTableEntry_is_valid (get_pte (ram s) p i)
      then write_pte p i PageTableEntry_empty s else Fault Assert
  end.
Proof.
  unfold PageTable_unmap, bind, get, lift, read_pte. rewrite find_pte_walk.
  destruct (walk (ram s) (root_ppn pt) vpn) as [[p i]|]; [|done]. unfold unwrap.
  by destruct (PageTableEntry_is_valid (get_pte (ram s) p i)).
Qed.

Lemma unmap_spec s live pt vpn :
  mm_inv l r s live → pt_wf (ram s) pt → list_to_set (frames pt) ⊆ live → is_vpn vpn →
  if pt_lookup (ram s) (root_ppn pt) vpn then
    ∃ s', PageTable_unmap pt vpn s = Ok (tt, s') ∧
      pt_step s live pt s' pt [] (λ vpn',
        if decide (vpn' = vpn) then None else pt_lookup (ram s) (root_ppn pt) vpn')
  else PageTable_unmap pt vpn s = Fault Assert ∨ PageTable_unmap pt vpn s = Fault Unwrap.
Proof.
  intros Hinv Hwf Hsub Hv. rewrite unmap_run.
  destruct (pt_lookup (ram s) (root_ppn pt) vpn) as [e|] eqn:E;
    rewrite pt_lookup_walk in E; destruct (walk (ram s) (root_ppn pt) vpn) as [[p i]|] eqn:W;
    simpl in E; unfold leaf in E; simpl in E; [|done| |by right];
    destruct (PageTableEntry_is_valid (get_pte (ram s) p i)); try done; [|by left].
  destruct (write_leaf_spec s live pt vpn p i PageTableEntry_empty) as (s2 & R2 & G2); [done..|].
  exists s2. split; [exact R2|]. apply (pt_step_ext _ _ _ _ _ _ _ _ G2). done.
Qed.

Lemma is_mapped_spec s live pt vpn :
  mm_inv l r s live → pt_wf (ram s) pt → list_to_set (frames pt) ⊆ live → 2 ≤ mm_free s →
  is_vpn vpn →
  ∃ s' pt' new,
    PageTable_is_mapped pt vpn s =
      Ok ((bool_decide (is_Some (pt_lookup (ram s) (root_ppn pt) vpn)), pt'), s') ∧
    len new ≤ 2 ∧ pt_grow s live pt s' pt' new.
Proof.
  intros Hinv Hwf Hsub Hfree Hv.
  destruct (find_pte_create_spec s live pt vpn) as ([p i] & s1 & pt1 & n1 & R1 & G1 & N1 & W1);
    [done..|].
  exists s1, pt1, n1. split_and!; try done.
  rewrite <- (step_lookup _ _ _ _ _ _ _ G1), (walk_leaf s1 pt vpn _ W1) by done.
  unfold PageTable_is_mapped. rewrite (bind_run _ _ _ _ _ R1).
  unfold leaf, bind, lift, read_pte, ret. simpl.
  by destruct (PageTableEntry_is_valid (get_pte (ram s1) p i)).
Qed.

(** A new page table translates nothing. *)
Lemma zero_table_wf m f :
  get_bytes_array m f = zero_page →
  pt_wf m (mkPT f [f]) ∧ ∀ vpn, pt_lookup m f vpn = None.
Proof.
  intros Hz0.
  assert (Hz : ∀ i, child m f i = None) by (intros i; unfold child; by rewrite get_pte_zero).
  split.
  - exists [], []. simpl. split; [done|]. split; [apply NoDup_singleton| | | |].
    + intros i p _. by rewrite Hz.
    + intros i j p _ _. by rewrite Hz.
    + intros q i p ?%not_elem_of_nil. done.
    + intros q q' i j p ?%not_elem_of_nil. done.
  - intros vpn. rewrite pt_lookup_walk. unfold walk. by rewrite Hz.
Qed.

Lemma new_spec s live :
  mm_inv l r s live → 0 < mm_free s →
  ∃ s' f, PageTable_new s = Ok (mkPT f [f], s') ∧ f ∉ live ∧ l ≤ f < r ∧
    mm_inv l r s' (live ∪ {[f]}) ∧ pt_wf (ram s') (mkPT f [f]) ∧
    (∀ vpn, pt_lookup (ram s') f vpn = None) ∧
    (∀ q, q ≠ f → get_bytes_array (ram s') q = get_bytes_array (ram s) q) ∧
    mm_free s' = mm_free s - 1.
Proof.
  intros Hinv Hfree.
  destruct (frame_alloc_unwrap_spec l r s live Hinv Hfree)
    as (f & s1 & Hrun & Hf & Hnf & Hinv1 & Hram & Hfr).
  destruct (zero_table_wf (ram s1) f) as [Hwf Hnone].
  { rewrite Hram. apply get_bytes_array_insert_eq. }
  exists s1, f. unfold PageTable_new. rewrite (bind_run _ _ _ _ _ Hrun).
  split_and!; try done; try lia.
  - by replace (live ∪ {[f]}) with ({[f]} ∪ live) by set_solver.
  - intros q Hq. rewrite Hram. by apply get_bytes_array_insert_ne.
Qed.
End ops.

(** ** Refinement of a finite map

    Any sequence of calls on a new page table against the same sequence on a
    finite map from page numbers to entries. *)
Inductive pt_op : Type :=
| OpMap (vpn ppn flags : Z)
| OpUnmap (vpn : Z)
| OpIsMapped (vpn : Z).

Definition pt_op_ok (op : pt_op) : Prop :=
  match op with
  | OpMap vpn ppn flags => is_vpn vpn ∧ 0 ≤ ppn < 2 ^ 44 ∧ 0 ≤ flags < 256
  | OpUnmap vpn | OpIsMapped vpn => is_vpn vpn
  end.

(** One call; the answer of [is_mapped] is the result, [true] for the others. *)
Definition pt_run (op : pt_op) (pt : PageTable) : M mm (bool * PageTable) :=
  match op with
  | OpMap vpn ppn flags => let* pt' := PageTable_map pt vpn ppn flags in ret (true, pt')
  | OpUnmap vpn => PageTable_unmap pt vpn ;; ret (true, pt)
  | OpIsMapped vpn => PageTable_is_mapped pt vpn
  end.

Definition abs_run (op : pt_op) (a : gmap Z Z) : option (bool * gmap Z Z) :=
  match op with
  | OpMap vpn ppn flags =>
      match a !! vpn with
      | Some _ => None
      | None => Some (true, <[vpn := PageTableEntry_new ppn (Z.lor flags PTEFlags_V)]> a)
      end
  | OpUnmap vpn =>
      match a !! vpn with Some _ => Some (true, delete vpn a) | None => None end
  | OpIsMapped vpn => Some (bool_decide (is_Some (a !! vpn)), a)
  end.

Fixpoint pt_runs (ops : list pt_op) (pt : PageTable) : M mm (list bool * PageTable) :=
  match ops with
  | [] => ret ([], pt)
  | op :: ops' =>
      let* '(b, pt) := pt_run op pt in
      let* '(bs, pt) := pt_runs ops' pt in
      ret (b :: bs, pt)
  end.
Fixpoint abs_runs (ops : list pt_op) (a : gmap Z Z) : option (list bool * gmap Z Z) :=
  match ops with
  | [] => Some ([], a)
  | op :: ops' =>
      '(b, a) ← abs_run op a;
      '(bs, a) ← abs_runs ops' a;
      Some (b :: bs, a)
  end.

Definition pt_abs (m : pmem) (pt : PageTable) (a : gmap Z Z) : Prop :=
  ∀ vpn, is_vpn vpn → pt_lookup m (root_ppn pt) vpn = a !! vpn.

Lemma pt_abs_step l r s live pt s' pt' new tr a :
  pt_step l r s live pt s' pt' new tr → (∀ vpn, is_vpn vpn → tr vpn = a !! vpn) →
  pt_abs (ram s') pt' a.
Proof.
  intros G E vpn Hv. rewrite <- E by done. rewrite (step_root _ _ _ _ _ _ _ _ _ G). by apply G.
Qed.

Lemma pt_run_refines l r s live pt a op :
  mm_inv l r s live → pt_wf (ram s) pt → list_to_set (frames pt) ⊆ live → 2 ≤ mm_free s →
  pt_op_ok op → pt_abs (ram s) pt a →
  match abs_run op a with
  | Some (b, a') => ∃ s' pt' new tr, pt_run op pt s = Ok ((b, pt'), s') ∧ len new ≤ 2 ∧
      pt_step l r s live pt s' pt' new tr ∧ pt_abs (ram s') pt' a'
  | None => ∃ f, pt_run op pt s = Fault f
  end.
Proof.
  intros Hinv Hwf Hsub Hfree Hok Ha. destruct op as [vpn ppn flags|vpn|vpn]; simpl in Hok |- *.
  - destruct Hok as (Hv & Hp & Hf). pose proof (map_spec l r s live pt vpn ppn flags) as Hm.
    rewrite Ha in Hm by done. destruct (a !! vpn) as [e|].
    + eexists. apply bind_fault. by apply Hm.
    + destruct Hm as (s' & pt' & new & Hrun & Hn & G); try done.
      eexists s', pt', new, _. rewrite (bind_run _ _ _ _ _ Hrun). split_and!; try done.
      apply (pt_abs_step _ _ _ _ _ _ _ _ _ _ G). intros vpn' Hv'.
      destruct (decide (vpn' = vpn)) as [->|]; [by rewrite lookup_insert_eq|].
      rewrite lookup_insert_ne by done. by apply Ha.
  - pose proof (unmap_spec l r s live pt vpn) as Hm. rewrite Ha in Hm by done.
    destruct (a !! vpn) as [e|].
    + destruct Hm as (s' & Hrun & G); try done.
      eexists s', pt, [], _. rewrite (bind_run _ _ _ _ _ Hrun). split_and!; try done.
      apply (pt_abs_step _ _ _ _ _ _ _ _ _ _ G). intros vpn' Hv'.
      destruct (decide (vpn' = vpn)) as [->|]; [by rewrite lookup_delete_eq|].
      rewrite lookup_delete_ne by done. by apply Ha.
    + destruct Hm as [Hm|Hm]; try done; eexists; by apply bind_fault.
  - destruct (is_mapped_spec l r s live pt vpn) as (s' & pt' & new & Hrun & Hn & G); try done.
    rewrite Ha in Hrun by done. eexists s', pt', new, _. split_and!; try done.
    by apply (pt_abs_step _ _ _ _ _ _ _ _ _ _ G).
Qed.

Lemma pt_runs_refines l r ops : ∀ s live pt a,
  mm_inv l r s live → pt_wf (ram s) pt → list_to_set (frames pt) ⊆ live →
  2 * len ops ≤ mm_free s → Forall pt_op_ok ops → pt_abs (ram s) pt a →
  match abs_runs ops a with
  | Some (bs, a') => ∃ s' pt', pt_runs ops pt s = Ok ((bs, pt'), s') ∧ pt_abs (ram s') pt' a'
  | None => ∃ f, pt_runs ops pt s = Fault f
  end.
Proof.
  induction ops as [|op ops IH]; intros s live pt a Hinv Hwf Hsub Hfree Hok Ha; simpl.
  { by exists s, pt. }
  unfold len in Hfree. simpl in Hfree. apply Forall_cons in Hok as [Hop Hok].
  pose proof (pt_run_refines l r s live pt a op) as Hr.
  destruct (abs_run op a) as [[b a1]|]; simpl.
  2: { destruct Hr as [f Hr]; try done; [lia|]. exists f. by apply bind_fault. }
  destruct Hr as (s1 & pt1 & new & tr & Hrun & Hn & G & Ha1); try done; [lia|].
  rewrite (bind_run _ _ _ _ _ Hrun).
  pose proof (step_free _ _ _ _ _ _ _ _ _ G) as Hf.
  specialize (IH s1 (live ∪ list_to_set new) pt1 a1).
  destruct (abs_runs ops a1) as [[bs a2]|]; simpl.
  - destruct IH as (s2 & pt2 & Hrun2 & Ha2); try apply G; try done.
    { rewrite (step_frames _ _ _ _ _ _ _ _ _ G), list_to_set_app_L. set_solver. }
    { unfold len. lia. }
    exists s2, pt2. by rewrite (bind_run _ _ _ _ _ Hrun2).
  - destruct IH as [f Hrun2]; try apply G; try done.
    { rewrite (step_frames _ _ _ _ _ _ _ _ _ G), list_to_set_app_L. set_solver. }
    { unfold len. lia. }
    exists f. by apply bind_fault.
Qed.

(** ** Other address spaces *)
Lemma pt_wf_frames m pt p :
  pt_wf m pt → p = root_ppn pt → p ∈ frames pt.
Proof. intros (l1 & l0 & Hperm & _) ->. rewrite Hperm. set_solver. Qed.

(** A page table only depends on its own tables. *)
Lemma pt_lookup_local m m' pt vpn :
  pt_wf m pt → (∀ q, q ∈ frames pt → get_bytes_array m' q = get_bytes_array m q) →
  pt_lookup m' (root_ppn pt) vpn = pt_lookup m (root_ppn pt) vpn.
Proof.
  intros (l1 & l0 & Hperm & Htree) Hsame. rewrite !pt_lookup_walk.
  assert (Hpte : ∀ q i, q ∈ root_ppn pt :: l1 ++ l0 → get_pte m' q i = get_pte m q i).
  { intros q i Hq. unfold get_pte. rewrite Hsame; [done|]. by rewrite Hperm. }
  assert (Hchild : ∀ q i, q ∈ root_ppn pt :: l1 ++ l0 → child m' q i = child m q i).
  { intros q i Hq. unfold child. by rewrite Hpte. }
  assert (Hw : walk m' (root_ppn pt) vpn = walk m (root_ppn pt) vpn).
  { unfold walk. rewrite Hchild by set_solver.
    destruct (child m (root_ppn pt) (vpn_i0 vpn)) as [p1|] eqn:E; [|done]. simpl.
    apply (tree_l1 _ _ _ _ Htree) in E; [|apply vpn_idx]. rewrite Hchild; [done|set_solver]. }
  rewrite Hw. destruct (walk m (root_ppn pt) vpn) as [[p i]|] eqn:W; [|done]. simpl.
  apply (walk_place Htree) in W as [Hp _]. unfold leaf. simpl. rewrite Hpte; [done|set_solver].
Qed.

Lemma pt_wf_local m m' pt :
  pt_wf m pt → (∀ q, q ∈ frames pt → get_bytes_array m' q = get_bytes_array m q) → pt_wf m' pt.
Proof.
  intros (l1 & l0 & Hperm & Htree) Hsame.
  assert (Hchild : ∀ q i, q ∈ root_ppn pt :: l1 ++ l0 → child m' q i = child m q i).
  { intros q i Hq. unfold child, get_pte. rewrite Hsame; [done|]. by rewrite Hperm. }
  assert (Hr : ∀ i, child m' (root_ppn pt) i = child m (root_ppn pt) i).
  { intros i. apply Hchild. by left. }
  assert (Hl1 : ∀ q i, q ∈ l1 → child m' q i = child m q i).
  { intros q i Hq. apply Hchild. rewrite elem_of_cons, elem_of_app. auto. }
  exists l1, l0. split; [done|]. destruct Htree as [H1 H2 H3 H4 H5].
  split; [done| | | |]; intros *; rewrite ?Hr; [apply H2|apply H3| |].
  - intros Hq. rewrite Hl1 by done. by apply H4.
  - intros Hq Hq'. rewrite !Hl1 by done. by apply H5.
Qed.

Lemma token_root pt : 0 ≤ root_ppn pt < 2 ^ 44 → root_ppn (PageTable_from_token (PageTable_token pt)) = root_ppn pt.
Proof.
  intros Hr. unfold PageTable_from_token, PageTable_token. simpl.
  change (wrap64 (Z.shiftl 8 60)) with (2 ^ 19 * 2 ^ 44).
  change (Z.shiftl 1 44 - 1) with (2 ^ 44 - 1).
  rewrite lor_low_high, land_mask by lia.
  rewrite Z.add_comm, Z.mod_add by lia. rewrite Z.mod_small by lia. by apply PhysPageNum_from_small.
Qed.

Lemma translate_lookup m pt vpn e :
  pt_lookup m (root_ppn pt) vpn = Some e → PageTable_translate m pt vpn = Some e.
Proof.
  rewrite pt_lookup_walk. unfold PageTable_translate. rewrite find_pte_walk.
  destruct (walk m (root_ppn pt) vpn) as [[p i]|]; [|done]. simpl. unfold leaf. simpl.
  by destruct (PageTableEntry_is_valid (get_pte m p i)).
Qed.

Lemma translate_va_lookup m pt va e :
  pt_lookup m (root_ppn pt) (VirtAddr_floor va) = Some e →
  PageTable_translate_va m pt va = Some (PageTableEntry_ppn e * 4096 + va mod 4096).
Proof.
  intros E. apply translate_lookup in E. unfold PageTable_translate in E.
  unfold PageTable_translate_va.
  destruct (PageTable_find_pte m pt (VirtAddr_floor va)) as [[p i]|]; [|done].
  simpl in *. injection E as ->. f_equal.
  pose proof (PageTableEntry_ppn_range e). pose proof (Z.mod_pos_bound va 4096).
  unfold PhysAddr_from_PhysPageNum. rewrite VirtAddr_page_offset_mod, Z.shiftl_mul_pow2 by done.
  change (2 ^ PAGE_SIZE_BITS) with 4096.
  rewrite wrap64_small, uadd_small, PhysAddr_from_mod by lia. apply Z.mod_small. lia.
Qed.

(** C2. A page table built by any sequence of [map], [unmap] and [is_mapped]
    calls refines a finite map from page numbers to entries: with two free
    frames per call the calls succeed exactly when the map operations are
    defined ([map] of an unmapped page, [unmap] of a mapped one), [is_mapped]
    gives the map's answer, and every translation is the map's. *)
Theorem PageTable_refines_finite_map l r s live ops :
  mm_inv l r s live → 1 + 2 * len ops ≤ mm_free s → Forall pt_op_ok ops →
  match abs_runs ops ∅ with
  | Some (bs, a) => ∃ s' pt,
      (let* pt := PageTable_new in pt_runs ops pt) s = Ok ((bs, pt), s') ∧
      ∀ vpn, is_vpn vpn → pt_lookup (ram s') (root_ppn pt) vpn = a !! vpn
  | None => ∃ f, (let* pt := PageTable_new in pt_runs ops pt) s = Fault f
  end.
Proof.
  intros Hinv Hfree Hok. pose proof (len_nonneg ops).
  destruct (new_spec l r s live Hinv) as (s1 & f & Hrun & _ & _ & Hinv1 & Hwf & Hnone & _ & Hf); [lia|].
  rewrite (bind_run _ _ _ _ _ Hrun).
  apply (pt_runs_refines l r ops s1 _ _ ∅ Hinv1 Hwf); [set_solver|lia|done|].
  intros vpn _. by rewrite lookup_empty, Hnone.
Qed.

Lemma PageTable_refines_finite_map_witness :
  ∃ s' pt,
    (let* pt := PageTable_new in
     pt_runs [OpMap 5 0x80700 6; OpIsMapped 5; OpUnmap 5; OpIsMapped 5; OpMap 6 0x80700 6] pt)
      (mkMM (mkSFA 0x80500 0x88000 []) ∅) = Ok (([true; true; true; false; true], pt), s') ∧
    ∀ vpn, is_vpn vpn →
      pt_lookup (ram s') (root_ppn pt) vpn = <[6 := 0x201c0007]> (delete 5 (<[5 := 0x201c0007]> (∅ : gmap Z Z))) !! vpn.
Proof.
  apply (PageTable_refines_finite_map 0x80500 0x88000 (mkMM (mkSFA 0x80500 0x88000 []) ∅) ∅
    [OpMap 5 0x80700 6; OpIsMapped 5; OpUnmap 5; OpIsMapped 5; OpMap 6 0x80700 6]).
  - split; [by apply (sfa_inv_init 0x80500 0x88000 StackFrameAllocator_new)|apply pmem_wf_empty].
  - done.
  - repeat constructor; done.
Defined.

(** C24. [map] works on its own page table only: whatever it does, another
    well-formed page table whose tables are live and disjoint from the mapped
    one's translates every page as before, and every live page that is not one
    of the mapped table's own tables keeps its bytes. *)
Theorem PageTable_map_isolated l r s live pt vpn ppn flags pt' s' other :
  mm_inv l r s live → pt_wf (ram s) pt → list_to_set (frames pt) ⊆ live → 2 ≤ mm_free s →
  is_vpn vpn → 0 ≤ ppn < 2 ^ 44 → 0 ≤ flags < 256 →
  PageTable_map pt vpn ppn flags s = Ok (pt', s') →
  pt_wf (ram s) other → list_to_set (frames other) ⊆ live →
  (∀ q, q ∈ frames other → q ∉ frames pt) →
  (∀ v, pt_lookup (ram s') (root_ppn other) v = pt_lookup (ram s) (root_ppn other) v) ∧
  (∀ q, q ∈ live → q ∉ frames pt → get_bytes_array (ram s') q = get_bytes_array (ram s) q).
Proof.
  intros Hinv Hwf Hsub Hfree Hv Hp Hf Hrun Hwfo Hsubo Hdis.
  pose proof (map_spec l r s live pt vpn ppn flags Hinv Hwf Hsub Hfree Hv Hp Hf) as Hm.
  destruct (pt_lookup (ram s) (root_ppn pt) vpn); [congruence|].
  destruct Hm as (s1 & pt1 & new & Hrun1 & _ & G). assert (s1 = s') as -> by congruence.
  assert (Hpages : ∀ q, q ∈ live → q ∉ frames pt → get_bytes_array (ram s') q = get_bytes_array (ram s) q)
    by (intros q; by apply (step_pages _ _ _ _ _ _ _ _ _ _ G)).
  split; [|done]. intros v. apply pt_lookup_local; [done|].
  intros q Hq. apply Hpages; [set_solver|by apply Hdis].
Qed.

Definition witness_mm : mm :=
  mkMM (mkSFA 0x80502 0x88000 []) (<[0x80501 := zero_page]> (<[0x80500 := zero_page]> ∅)).

Lemma witness_mm_inv : mm_inv 0x80500 0x88000 witness_mm {[0x80500; 0x80501]}.
Proof.
  split; [|by repeat apply zeroed_wf; apply pmem_wf_empty].
  unfold sfa_inv. simpl. split_and!; try lia; try done.
  - constructor.
  - intros p ?%not_elem_of_nil. done.
  - intros p. rewrite elem_of_union, !elem_of_singleton. split.
    + intros H. split; [lia|apply not_elem_of_nil].
    + lia.
Qed.

Lemma witness_table p : p ∈ [0x80500; 0x80501] →
  pt_wf (ram witness_mm) (mkPT p [p]) ∧ ∀ vpn, pt_lookup (ram witness_mm) p vpn = None.
Proof.
  intros Hp. apply zero_table_wf.
  by repeat apply elem_of_cons in Hp as [->|Hp]; [..|apply not_elem_of_nil in Hp].
Qed.

Lemma witness_sub p : p ∈ [0x80500; 0x80501] → (list_to_set [p] : gset Z) ⊆ {[0x80500; 0x80501]}.
Proof. set_solver. Qed.

Lemma witness_map : ∃ s' pt' new,
  PageTable_map (mkPT 0x80500 [0x80500]) 5 0x80501 6 witness_mm = Ok (pt', s') ∧
  pt_step 0x80500 0x88000 witness_mm {[0x80500; 0x80501]} (mkPT 0x80500 [0x80500]) s' pt' new
    (λ vpn, if decide (vpn = 5) then Some 0x20140407 else None).
Proof.
  destruct (witness_table 0x80500) as [Hwf Hnone]; [by left|].
  pose proof (map_spec 0x80500 0x88000 witness_mm _ (mkPT 0x80500 [0x80500]) 5 0x80501 6
    witness_mm_inv Hwf (witness_sub 0x80500 ltac:(by left))) as Hm.
  simpl in Hm. rewrite Hnone in Hm.
  destruct Hm as (s' & pt' & new & Hrun & _ & G); [done..|].
  exists s', pt', new. split; [done|]. apply (pt_step_ext _ _ _ _ _ _ _ _ _ _ G).
  intros vpn _. destruct (decide (vpn = 5)); [done|]. apply Hnone.
Qed.

Lemma PageTable_map_isolated_witness :
  ∃ pt' s', PageTable_map (mkPT 0x80500 [0x80500]) 5 0x80501 6 witness_mm = Ok (pt', s') ∧
  (∀ v, pt_lookup (ram s') 0x80501 v = pt_lookup (ram witness_mm) 0x80501 v) ∧
  (∀ q, q ∈ ({[0x80500; 0x80501]} : gset Z) → q ∉ [0x80500] →
        get_bytes_array (ram s') q = get_bytes_array (ram witness_mm) q).
Proof.
  destruct witness_map as (s' & pt' & new & Hrun & G). exists pt', s'. split; [exact Hrun|].
  destruct (witness_table 0x80500) as [Hwf _]; [by left|].
  destruct (witness_table 0x80501) as [Hwf2 _]; [by right; left|].
  apply (PageTable_map_isolated 0x80500 0x88000 witness_mm {[0x80500; 0x80501]}
           (mkPT 0x80500 [0x80500]) 5 0x80501 6 pt' s' (mkPT 0x80501 [0x80501])).
  - apply witness_mm_inv.
  - exact Hwf.
  - by apply witness_sub; left.
  - vm_compute. discriminate.
  - unfold is_vpn. lia.
  - lia.
  - lia.
  - exact Hrun.
  - exact Hwf2.
  - by apply witness_sub; right; left.
  - intros q ->%list_elem_of_singleton Hq. by apply list_elem_of_singleton in Hq.
Defined.

(** Through the token of a page table, [translate_va] gives the physical
    address of a mapped virtual address: the frame of the page's entry and the
    offset in the page. *)
Theorem translate_va_token m pt va e :
  0 ≤ root_ppn pt < 2 ^ 44 → pt_lookup m (root_ppn pt) (VirtAddr_floor va) = Some e →
  PageTable_translate_va m (PageTable_from_token (PageTable_token pt)) va =
    Some (PageTableEntry_ppn e * PAGE_SIZE + va mod PAGE_SIZE).
Proof. intros Hr E. apply translate_va_lookup. by rewrite token_root. Qed.

Lemma translate_va_token_witness :
  ∃ s pt, PageTable_map (mkPT 0x80500 [0x80500]) 5 0x80501 6 witness_mm = Ok (pt, s) ∧
    PageTable_translate_va (ram s) (PageTable_from_token (PageTable_token pt)) 0x5123
      = Some 0x80501123.
Proof.
  destruct witness_map as (s' & pt' & new & Hrun & G). exists s', pt'. split; [exact Hrun|].
  clear Hrun. pose proof (step_root _ _ _ _ _ _ _ _ _ G) as Hr.
  apply (translate_va_token (ram s') pt' 0x5123 0x20140407); rewrite Hr; [simpl; lia|].
  rewrite (step_lookup _ _ _ _ _ _ _ _ _ G); [reflexivity|]. vm_compute. split; congruence.
Defined.
