(* ===== verification/UserMem.v ===== *)
(** * Access to user memory through a page table ([mm/page_table.rs], part 2)

    [translated_byte_buffer], [copy_out] and [translate_str] walk a page table
    given by its token.  A slice [&'static mut [u8]] into a physical page is
    the page and its range of offsets.  The abstract view is a map from user
    addresses to physical addresses, [user_pa]. *)

From S2P Require Import Prelude Addr PhysMem FrameAlloc PageTable.

(** A sub-slice [ppn.get_bytes_array()[lo..hi]]. *)
Record page_slice : Type := mkSlice {
  slice_ppn : Z;
  slice_lo : Z;
  slice_hi : Z;
}.

(** Slicing checks the bounds. *)
Definition page_slice_new (ppn lo hi : Z) : outcome page_slice :=
  if (lo <=? hi) && (hi <=? PAGE_SIZE) then Ok (mkSlice ppn lo hi) else Fault OutOfBounds.

Definition slice_bytes (m : pmem) (sl : page_slice) : list Z :=
  take (Z.to_nat (slice_hi sl - slice_lo sl))
    (drop (Z.to_nat (slice_lo sl)) (get_bytes_array m (slice_ppn sl))).

(** The next part of a user range: its slice, and where the next part starts. *)
(** [mm/page_table.rs:157-169] translated_byte_buffer. The body of the loop,
    which [copy_out] (180-189, 198-200) shares. *)
Definition user_chunk (m : pmem) (page_table : PageTable) (start end_ : Z) :
    outcome (page_slice * Z) :=
  let start_va := VirtAddr_from start in
  let vpn := VirtAddr_floor start_va in
  let! pte := unwrap (PageTable_translate m page_table vpn) in
  let ppn := PageTableEntry_ppn pte in
  let vpn := step vpn in
  let end_va := VirtAddr_from_VirtPageNum vpn in
  let end_va := Z.min end_va (VirtAddr_from end_) in
  let! sl :=
    if VirtAddr_page_offset end_va =? 0
    then page_slice_new ppn (VirtAddr_page_offset start_va) PAGE_SIZE
    else page_slice_new ppn (VirtAddr_page_offset start_va) (VirtAddr_page_offset end_va) in
  Ok (sl, usize_from_VirtAddr end_va).

(** [mm/page_table.rs:156-170] translated_byte_buffer. The loop. *)
Fixpoint translated_byte_buffer_loop (fuel : nat) (m : pmem) (page_table : PageTable)
    (start end_ : Z) (v : list page_slice) : outcome (list page_slice) :=
  match fuel with
  | O => Fault Fuel
  | S fuel =>
      if start <? end_ then
        let! '(sl, start) := user_chunk m page_table start end_ in
        translated_byte_buffer_loop fuel m page_table start end_ (v ++ [sl])
      else Ok v
  end.

(** [mm/page_table.rs:150-172] translated_byte_buffer *)
Definition translated_byte_buffer (m : pmem) (token ptr len : Z) : outcome (list page_slice) :=
  let page_table := PageTable_from_token token in
  let end_ := ptr +u len in
  translated_byte_buffer_loop (S (Z.to_nat len)) m page_table ptr end_ [].

(** [x.copy_from_slice(from_raw_parts(start_src, x.len()))]: [src] holds the
    bytes from the source pointer on. *)
Definition copy_slice (m : pmem) (sl : page_slice) (src : list Z) : outcome pmem :=
  let n := Z.to_nat (slice_hi sl - slice_lo sl) in
  if len src <? slice_hi sl - slice_lo sl then Fault OutOfBounds
  else Ok (set_bytes_array m (slice_ppn sl)
             (splice (get_bytes_array m (slice_ppn sl)) (Z.to_nat (slice_lo sl)) (take n src))).

(** [mm/page_table.rs:179-201] copy_out. The loop; [src] is the rest of the
    source, [start_src] onwards. *)
Fixpoint copy_out_loop (fuel : nat) (m : pmem) (page_table : PageTable) (start end_ : Z)
    (src : list Z) : outcome pmem :=
  match fuel with
  | O => Fault Fuel
  | S fuel =>
      if start <? end_ then
        let! '(sl, next) := user_chunk m page_table start end_ in
        let! m := copy_slice m sl src in
        let dlt := next -u start in
        copy_out_loop fuel m page_table next end_ (drop (Z.to_nat dlt) src)
      else Ok m
  end.

(** [mm/page_table.rs:174-202] copy_out *)
Definition copy_out (token ptr : Z) (src : list Z) (len : Z) : M mm unit :=
  λ s,
    let page_table := PageTable_from_token token in
    let end_ := ptr +u len in
    let! m := copy_out_loop (S (Z.to_nat len)) (ram s) page_table ptr end_ src in
    Ok (tt, mkMM (frame_allocator s) m).

(** [mm/page_table.rs:208-219] translate_str. The loop. *)
Fixpoint translate_str_loop (fuel : nat) (m : pmem) (page_table : PageTable) (va : Z)
    (string : list Z) : outcome (list Z) :=
  match fuel with
  | O => Fault Fuel
  | S fuel =>
      let! pa := unwrap (PageTable_translate_va m page_table (VirtAddr_from va)) in
      let! p := PhysAddr_get_mut pa in
      let ch := load_byte m p in
      if ch =? 0 then Ok string
      else translate_str_loop fuel m page_table (va +u 1) (string ++ [ch])
  end.

(** [translate_str]: the characters of the string; the loop has no bound of
    its own, [fuel] is the number of bytes read. *)
(** [mm/page_table.rs:204-221] translate_str *)
Definition translate_str (fuel : nat) (m : pmem) (token ptr : Z) : outcome (list Z) :=
  translate_str_loop fuel m (PageTable_from_token token) ptr [].

(** ** The abstract view: where a user address lives *)
Definition user_pa (m : pmem) (root va : Z) : option Z :=
  (λ e, PageTableEntry_ppn e * PAGE_SIZE + va mod PAGE_SIZE) <$> pt_lookup m root (va / PAGE_SIZE).

Definition user_mapped (m : pmem) (root ptr n : Z) : Prop :=
  ∀ va, ptr ≤ va < ptr + n → is_Some (user_pa m root va).

(** The byte a user program reads at [va]. *)
Definition user_byte (m : pmem) (root va : Z) : Z := default 0 (load_byte m <$> user_pa m root va).
Definition user_bytes (m : pmem) (root ptr n : Z) : list Z := user_byte m root <$> seqZ ptr n.

Definition slice_addrs (sl : page_slice) : list Z :=
  (λ o, slice_ppn sl * PAGE_SIZE + o) <$> seqZ (slice_lo sl) (slice_hi sl - slice_lo sl).

(** Part of a range up to the end of the page of its start. *)
Definition chunk_end (start end_ : Z) : Z := Z.min ((start / PAGE_SIZE + 1) * PAGE_SIZE) end_.

Lemma user_chunk_entry m pt start end_ e :
  0 ≤ start < end_ → end_ < 2 ^ 38 →
  PageTable_translate m pt (start / PAGE_SIZE) = Some e →
  user_chunk m pt start end_ =
    Ok (mkSlice (PageTableEntry_ppn e) (start mod PAGE_SIZE)
          (start mod PAGE_SIZE + (chunk_end start end_ - start)), chunk_end start end_).
Proof.
  intros Hs He E. unfold user_chunk. rewrite !VirtAddr_from_mod, !Z.mod_small by lia.
  unfold VirtAddr_floor. rewrite E. simpl.
  unfold step, PageNum_step, VirtAddr_from_VirtPageNum. unfold PAGE_SIZE in *.
  assert (Hq : 0 ≤ start / 4096 < 2 ^ 26).
  { split; [apply Z.div_pos; lia|apply Z.div_lt_upper_bound; lia]. }
  rewrite uadd_small by lia. rewrite Z.shiftl_mul_pow2 by done.
  change (2 ^ PAGE_SIZE_BITS) with 4096. rewrite wrap64_small by lia.
  fold PAGE_SIZE. fold (chunk_end start end_). rewrite !VirtAddr_page_offset_mod.
  unfold chunk_end, PAGE_SIZE.
  set (ce := Z.min ((start / 4096 + 1) * 4096) end_).
  assert (Hce : start < ce ≤ end_ ∧ (ce ≤ (start / 4096 + 1) * 4096)).
  { unfold ce. pose proof (Z.div_mod start 4096). pose proof (Z.mod_pos_bound start 4096). lia. }
  rewrite usize_from_VirtAddr_eq by lia. destruct (Z.ltb_spec ce (2 ^ 38)); [|lia].
  pose proof (Z.div_mod start 4096). pose proof (Z.mod_pos_bound start 4096).
  pose proof (Z.div_mod ce 4096). pose proof (Z.mod_pos_bound ce 4096).
  unfold page_slice_new, PAGE_SIZE.
  destruct (Z.eqb_spec (ce mod 4096) 0) as [E0|E0].
  - destruct (Z.leb_spec (start mod 4096) 4096); [|lia]. simpl. do 3 f_equal. lia.
  - destruct (Z.leb_spec (start mod 4096) (ce mod 4096)); [|nia].
    destruct (Z.leb_spec (ce mod 4096) 4096); [|lia]. simpl. do 3 f_equal. nia.
Qed.

Lemma user_chunk_spec m pt start end_ e :
  0 ≤ start < end_ → end_ < 2 ^ 38 →
  pt_lookup m (root_ppn pt) (start / PAGE_SIZE) = Some e →
  user_chunk m pt start end_ =
    Ok (mkSlice (PageTableEntry_ppn e) (start mod PAGE_SIZE)
          (start mod PAGE_SIZE + (chunk_end start end_ - start)), chunk_end start end_).
Proof. intros Hs He E%translate_lookup. by apply user_chunk_entry. Qed.

Lemma chunk_end_bounds start end_ :
  0 ≤ start < end_ →
  start < chunk_end start end_ ≤ end_ ∧
  start mod PAGE_SIZE + (chunk_end start end_ - start) ≤ PAGE_SIZE.
Proof.
  intros. unfold chunk_end, PAGE_SIZE.
  pose proof (Z.div_mod start 4096). pose proof (Z.mod_pos_bound start 4096). lia.
Qed.

(** Inside one part the page does not change. *)
Lemma chunk_page start end_ va :
  0 ≤ start < end_ → start ≤ va < chunk_end start end_ →
  va / PAGE_SIZE = start / PAGE_SIZE ∧
  va mod PAGE_SIZE = start mod PAGE_SIZE + (va - start).
Proof.
  intros Hs Hva. unfold chunk_end, PAGE_SIZE in *.
  pose proof (Z.div_mod start 4096). pose proof (Z.mod_pos_bound start 4096).
  pose proof (Z.div_mod va 4096). pose proof (Z.mod_pos_bound va 4096).
  assert (va / 4096 = start / 4096) by nia. lia.
Qed.

Lemma user_mapped_lookup m root ptr n va :
  user_mapped m root ptr n → ptr ≤ va < ptr + n →
  ∃ e, pt_lookup m root (va / PAGE_SIZE) = Some e.
Proof.
  intros Hm Hva. destruct (Hm va Hva) as [pa Hpa]. unfold user_pa in Hpa.
  destruct (pt_lookup m root (va / PAGE_SIZE)); [eauto|done].
Qed.

Lemma user_pa_lookup m root va e :
  pt_lookup m root (va / PAGE_SIZE) = Some e →
  user_pa m root va = Some (PageTableEntry_ppn e * PAGE_SIZE + va mod PAGE_SIZE).
Proof. intros E. unfold user_pa. by rewrite E. Qed.

Lemma chunk_addrs m root start end_ e :
  0 ≤ start < end_ → pt_lookup m root (start / PAGE_SIZE) = Some e →
  Some <$> slice_addrs (mkSlice (PageTableEntry_ppn e) (start mod PAGE_SIZE)
             (start mod PAGE_SIZE + (chunk_end start end_ - start))) =
  user_pa m root <$> seqZ start (chunk_end start end_ - start).
Proof.
  intros Hs E. unfold slice_addrs. cbn [slice_ppn slice_lo slice_hi].
  replace (start mod PAGE_SIZE + (chunk_end start end_ - start) - start mod PAGE_SIZE)
    with (chunk_end start end_ - start) by lia.
  replace (seqZ (start mod PAGE_SIZE) (chunk_end start end_ - start))
    with (Z.add (start mod PAGE_SIZE - start) <$> seqZ start (chunk_end start end_ - start))
    by (rewrite fmap_add_seqZ; f_equal; lia).
  rewrite <- !list_fmap_compose. apply list_fmap_ext. intros i va Hi.
  apply lookup_seqZ in Hi as [-> Hi]. unfold compose.
  destruct (chunk_page start end_ (start + Z.of_nat i)) as [Eq Er]; [done|lia|].
  rewrite (user_pa_lookup m root _ e) by (by rewrite Eq). f_equal. rewrite Er. lia.
Qed.

Lemma seqZ_split a b c : a ≤ b ≤ c → seqZ a (c - a) = seqZ a (b - a) ++ seqZ b (c - b).
Proof.
  intros. replace (c - a) with ((b - a) + (c - b)) by lia.
  rewrite seqZ_app by lia. do 2 f_equal. lia.
Qed.

Definition slice_ok (sl : page_slice) : Prop :=
  0 ≤ slice_ppn sl < 2 ^ 44 ∧ 0 ≤ slice_lo sl ∧ slice_lo sl < slice_hi sl ∧ slice_hi sl ≤ PAGE_SIZE.

Lemma chunk_slice_ok e start end_ :
  0 ≤ start < end_ →
  slice_ok (mkSlice (PageTableEntry_ppn e) (start mod PAGE_SIZE)
     (start mod PAGE_SIZE + (chunk_end start end_ - start))).
Proof.
  intros Hs. pose proof (chunk_end_bounds start end_ Hs).
  unfold slice_ok. cbn [slice_ppn slice_lo slice_hi].
  pose proof (PageTableEntry_ppn_range e). pose proof (Z.mod_pos_bound start PAGE_SIZE).
  unfold PAGE_SIZE in *. lia.
Qed.

(** The slices of a range, one per page. *)
Inductive chunked (m : pmem) (root end_ : Z) : Z → list page_slice → Prop :=
  | chunked_nil : chunked m root end_ end_ []
  | chunked_cons start e sls :
      0 ≤ start < end_ → pt_lookup m root (start / PAGE_SIZE) = Some e →
      chunked m root end_ (chunk_end start end_) sls →
      chunked m root end_ start (mkSlice (PageTableEntry_ppn e) (start mod PAGE_SIZE)
        (start mod PAGE_SIZE + (chunk_end start end_ - start)) :: sls).

Lemma translated_byte_buffer_loop_spec m pt end_ : end_ < 2 ^ 38 → ∀ fuel start v,
  0 ≤ start ≤ end_ → end_ - start < Z.of_nat fuel →
  user_mapped m (root_ppn pt) start (end_ - start) →
  ∃ sls, translated_byte_buffer_loop fuel m pt start end_ v = Ok (v ++ sls) ∧ chunked m (root_ppn pt) end_ start sls.
Proof.
  intros He. induction fuel as [|fuel IH]; intros start v Hs Hf Hm; [lia|].
  cbn [translated_byte_buffer_loop].
  destruct (Z.ltb_spec start end_) as [Hlt|].
  2: { exists []. rewrite app_nil_r. replace start with end_ by lia. split; [done|constructor]. }
  destruct (user_mapped_lookup _ _ _ _ start Hm) as [e E]; [lia|].
  rewrite (user_chunk_spec m pt start end_ e) by (done || lia). cbn [obind].
  pose proof (chunk_end_bounds start end_ ltac:(lia)) as [Hce _].
  edestruct (IH (chunk_end start end_)) as (sls & -> & Hok); [lia|lia| |].
  { intros va Hva. apply Hm. lia. }
  eexists (_ :: sls). split; [by rewrite <- app_assoc|]. by constructor; [lia|..].
Qed.
Lemma chunked_le m root end_ start sls : chunked m root end_ start sls → start ≤ end_.
Proof. destruct 1; lia. Qed.
Lemma chunked_ok m root end_ start sls : chunked m root end_ start sls → Forall slice_ok sls.
Proof. induction 1; constructor; [|done]. apply chunk_slice_ok. lia. Qed.
Lemma chunked_addrs m root end_ start sls :
  chunked m root end_ start sls → Some <$> (sls ≫= slice_addrs) = user_pa m root <$> seqZ start (end_ - start).
Proof.
  induction 1 as [|start e sls Hs E H IH]; [by rewrite Z.sub_diag|]. apply chunked_le in H.
  pose proof (chunk_end_bounds start end_ Hs) as [Hce _].
  rewrite (seqZ_split start (chunk_end start end_) end_) by lia.
  rewrite fmap_app, <- IH, <- (chunk_addrs m _ start end_ e) by (done || lia).
  by rewrite <- fmap_app.
Qed.

Lemma slice_bytes_addrs m sl :
  pmem_wf m → slice_ok sl → slice_bytes m sl = load_byte m <$> slice_addrs sl.
Proof.
  intros Hwf (Hp & Hlo & Hlt & Hhi). unfold slice_bytes, slice_addrs, PAGE_SIZE in *.
  pose proof (length_get_bytes_array m (slice_ppn sl) Hwf) as Hlen. rewrite page_len_nat in Hlen.
  apply list_eq. intros i. rewrite !list_lookup_fmap.
  destruct (decide (i < Z.to_nat (slice_hi sl - slice_lo sl))%nat) as [Hi|Hi].
  - rewrite lookup_take_lt, lookup_drop by done.
    rewrite lookup_seqZ_lt by lia. simpl. unfold load_byte, PAGE_SIZE.
    rewrite Z.div_add_l, Z.div_small, Z.add_0_r by lia.
    rewrite (Z.add_comm (_ * 4096)), Z.mod_add, Z.mod_small by lia.
    replace (Z.to_nat (slice_lo sl + Z.of_nat i)) with (Z.to_nat (slice_lo sl) + i)%nat by lia.
    apply list_lookup_lookup_total_lt. lia.
  - rewrite lookup_take_ge by lia. rewrite lookup_seqZ_ge by lia. done.
Qed.

(** ** Writing user memory *)

(** No two pages of the address space share a frame. *)
Definition pt_inj (m : pmem) (root : Z) : Prop :=
  ∀ v v' e e', pt_lookup m root v = Some e → pt_lookup m root v' = Some e' →
    is_vpn v → is_vpn v' → PageTableEntry_ppn e = PageTableEntry_ppn e' → v = v'.

Lemma load_byte_write m p lo data pa :
  pmem_wf m → 0 ≤ lo → lo + len data ≤ PAGE_SIZE →
  load_byte (set_bytes_array m p (splice (get_bytes_array m p) (Z.to_nat lo) data)) pa =
  if decide (pa / PAGE_SIZE = p ∧ lo ≤ pa mod PAGE_SIZE < lo + len data)
  then data !!! Z.to_nat (pa mod PAGE_SIZE - lo) else load_byte m pa.
Proof.
  intros Hwf Hlo Hhi. unfold load_byte, set_bytes_array, len in *.
  pose proof (length_get_bytes_array m p Hwf) as Hlen. rewrite page_len_nat in Hlen.
  pose proof (Z.mod_pos_bound pa PAGE_SIZE eq_refl) as Hpa. unfold PAGE_SIZE in *.
  destruct (decide (pa / 4096 = p)) as [->|Hne].
  2: { rewrite get_bytes_array_insert_ne by done. rewrite decide_False by naive_solver. done. }
  rewrite get_bytes_array_insert_eq, !list_lookup_total_alt.
  destruct (decide (lo ≤ pa mod 4096 < lo + Z.of_nat (length data))) as [Hin|Hout].
  - rewrite decide_True by done. rewrite lookup_splice_in by lia. do 2 f_equal. lia.
  - rewrite decide_False by naive_solver. rewrite lookup_splice_out by lia. done.
Qed.

Lemma copy_slice_spec m sl src :
  pmem_wf m → slice_ok sl → slice_hi sl - slice_lo sl ≤ len src → Forall is_byte src →
  ∃ m', copy_slice m sl src = Ok m' ∧ pmem_wf m' ∧
    (∀ q, q ≠ slice_ppn sl → get_bytes_array m' q = get_bytes_array m q) ∧
    (∀ pa, load_byte m' pa =
       if decide (pa / PAGE_SIZE = slice_ppn sl ∧ slice_lo sl ≤ pa mod PAGE_SIZE < slice_hi sl)
       then src !!! Z.to_nat (pa mod PAGE_SIZE - slice_lo sl) else load_byte m pa).
Proof.
  intros Hwf (Hp & Hlo & Hlt & Hhi) Hsrc Hb. unfold copy_slice.
  destruct (Z.ltb_spec (len src) (slice_hi sl - slice_lo sl)); [lia|].
  set (data := take _ src). eexists. split; [done|].
  assert (Hdata : len data = slice_hi sl - slice_lo sl).
  { unfold len, data in *. rewrite length_take. lia. }
  pose proof (length_get_bytes_array m (slice_ppn sl) Hwf) as Hlen.
  split_and!.
  - apply pmem_wf_insert; [done| |].
    + rewrite length_splice; [done|]. rewrite Hlen, page_len_nat. unfold len, PAGE_SIZE in *. lia.
    + pose proof (bytes_get_bytes_array m (slice_ppn sl) Hwf).
      unfold splice, data. rewrite !Forall_app. split_and!;
        [by apply Forall_take|by apply Forall_take|by apply Forall_drop].
  - intros q Hq. by apply get_bytes_array_insert_ne.
  - intros pa. rewrite load_byte_write by (done || lia). rewrite Hdata.
    replace (slice_lo sl + (slice_hi sl - slice_lo sl)) with (slice_hi sl) by lia.
    destruct (decide _) as [[_ Hin]|]; [|done].
    unfold data. rewrite !list_lookup_total_alt, lookup_take_lt by lia. done.
Qed.

Lemma user_byte_page m root va e :
  pt_lookup m root (va / PAGE_SIZE) = Some e →
  user_byte m root va = load_byte m (PageTableEntry_ppn e * PAGE_SIZE + va mod PAGE_SIZE).
Proof. intros E. unfold user_byte. by rewrite (user_pa_lookup _ _ _ e). Qed.

Lemma page_addr_div p o : 0 ≤ o < PAGE_SIZE →
  (p * PAGE_SIZE + o) / PAGE_SIZE = p ∧ (p * PAGE_SIZE + o) mod PAGE_SIZE = o.
Proof.
  unfold PAGE_SIZE. intros. rewrite Z.div_add_l, Z.div_small, Z.add_0_r by lia.
  split; [done|]. rewrite Z.add_comm, Z.mod_add by lia. by apply Z.mod_small.
Qed.

Lemma va_vpn va : 0 ≤ va < 2 ^ 39 → is_vpn (va / PAGE_SIZE).
Proof.
  unfold is_vpn, PAGE_SIZE. intros.
  split; [apply Z.div_pos; lia|apply Z.div_lt_upper_bound; lia].
Qed.

(** A page table whose own tables are not mapped in it, so that user writes
    cannot change translations. *)
Definition pt_separate (m : pmem) (pt : PageTable) : Prop :=
  ∀ v e, is_vpn v → pt_lookup m (root_ppn pt) v = Some e → PageTableEntry_ppn e ∉ frames pt.

(** What a write of [data] at user address [ptr] does. *)
Record user_written (m : pmem) (pt : PageTable) (ptr : Z) (data : list Z) (m' : pmem) : Prop := {
  written_wf : pmem_wf m';
  written_tables q : q ∈ frames pt → get_bytes_array m' q = get_bytes_array m q;
  written_bytes va : 0 ≤ va < 2 ^ 39 →
    user_byte m' (root_ppn pt) va =
    if decide (ptr ≤ va < ptr + len data) then data !!! Z.to_nat (va - ptr)
    else user_byte m (root_ppn pt) va;
  written_pages q :
    (∀ v e, is_vpn v → pt_lookup m (root_ppn pt) v = Some e → PageTableEntry_ppn e ≠ q) →
    get_bytes_array m' q = get_bytes_array m q;
}.

Lemma user_written_lookup m pt ptr data m' v :
  pt_wf m pt → user_written m pt ptr data m' →
  pt_lookup m' (root_ppn pt) v = pt_lookup m (root_ppn pt) v.
Proof. intros Hwf W. apply pt_lookup_local; [done|]. apply W. Qed.

Lemma write_chunk_spec m pt start end_ e src :
  pmem_wf m → pt_wf m pt → pt_separate m pt → pt_inj m (root_ppn pt) →
  0 ≤ start < end_ → end_ ≤ 2 ^ 39 → pt_lookup m (root_ppn pt) (start / PAGE_SIZE) = Some e →
  chunk_end start end_ - start ≤ len src → Forall is_byte src →
  ∃ m', copy_slice m (mkSlice (PageTableEntry_ppn e) (start mod PAGE_SIZE)
          (start mod PAGE_SIZE + (chunk_end start end_ - start))) src = Ok m' ∧
    user_written m pt start (take (Z.to_nat (chunk_end start end_ - start)) src) m'.
Proof.
  intros Hm Hwf Hsep Hinj Hs He E Hsrc Hb.
  pose proof (chunk_end_bounds start end_ ltac:(lia)) as [Hce Hce2].
  pose proof (chunk_slice_ok e start end_ ltac:(lia)) as Hok.
  edestruct (copy_slice_spec m) as (m' & Hrun & Hm' & Hpages & Hload); [done|exact Hok| |done|].
  { simpl. lia. }
  cbn [slice_ppn slice_lo slice_hi] in *.
  assert (Hlen : len (take (Z.to_nat (chunk_end start end_ - start)) src) = chunk_end start end_ - start).
  { unfold len in *. rewrite length_take. lia. }
  assert (Htab : ∀ q, q ∈ frames pt → get_bytes_array m' q = get_bytes_array m q).
  { intros q Hq. apply Hpages. intros ->. eapply Hsep; [|exact E|exact Hq]. apply va_vpn. lia. }
  exists m'. split; [exact Hrun|]. split; [done|done| |].
  - intros va Hva. rewrite Hlen. replace (start + (chunk_end start end_ - start)) with (chunk_end start end_) by lia.
    destruct (pt_lookup m (root_ppn pt) (va / PAGE_SIZE)) as [e'|] eqn:E'.
    + rewrite !(user_byte_page _ _ _ e') by (rewrite ?(pt_lookup_local m m'); done).
      pose proof (Z.mod_pos_bound va PAGE_SIZE eq_refl) as Hmod.
      rewrite Hload. destruct (page_addr_div (PageTableEntry_ppn e') (va mod PAGE_SIZE) Hmod) as [-> ->].
      destruct (decide (start ≤ va < chunk_end start end_)) as [Hin|Hout].
      * destruct (chunk_page start end_ va) as [Hq Hr]; [lia|lia|]. rewrite Hq in E'.
        assert (e' = e) as -> by congruence. rewrite decide_True by lia.
        rewrite !list_lookup_total_alt, lookup_take_lt by lia. do 2 f_equal. lia.
      * rewrite decide_False; [done|]. intros [Hp Hr]. apply Hout.
        assert (Hq : va / PAGE_SIZE = start / PAGE_SIZE).
        { apply (Hinj _ _ e' e); try done; apply va_vpn; lia. }
        pose proof (Z.div_mod va PAGE_SIZE ltac:(done)). pose proof (Z.div_mod start PAGE_SIZE ltac:(done)).
        rewrite Hq in *. lia.
    + unfold user_byte, user_pa. rewrite (pt_lookup_local m m') by done. rewrite E'. simpl.
      rewrite decide_False; [done|]. intros Hin.
      destruct (chunk_page start end_ va) as [Hq Hr]; [lia|lia|]. congruence.
  - intros q Hq. apply Hpages. intros ->. eapply Hq; [|exact E|done]. apply va_vpn. lia.
Qed.

Lemma user_written_nil m pt ptr : pmem_wf m → user_written m pt ptr [] m.
Proof.
  intros Hm. split; try done. intros va Hva. rewrite decide_False; [done|].
  unfold len. simpl. lia.
Qed.

Lemma user_written_trans m pt ptr d1 m1 d2 m2 :
  pt_wf m pt → user_written m pt ptr d1 m1 →
  user_written m1 pt (ptr + len d1) d2 m2 → user_written m pt ptr (d1 ++ d2) m2.
Proof.
  intros Hwf W1 W2. split.
  - apply W2.
  - intros q Hq. rewrite (written_tables _ _ _ _ _ W2) by done. by apply W1.
  - intros va Hva. rewrite (written_bytes _ _ _ _ _ W2), (written_bytes _ _ _ _ _ W1) by done.
    assert (Hl : len (d1 ++ d2) = len d1 + len d2) by (unfold len; rewrite length_app; lia).
    rewrite Hl. pose proof (len_nonneg d1). pose proof (len_nonneg d2).
    rewrite !list_lookup_total_alt.
    destruct (decide (ptr + len d1 ≤ va < ptr + len d1 + len d2)).
    + rewrite decide_True by lia. rewrite lookup_app_r by (unfold len in *; lia).
      do 2 f_equal. unfold len in *. lia.
    + destruct (decide (ptr ≤ va < ptr + len d1)).
      * rewrite decide_True by lia. rewrite lookup_app_l by (unfold len in *; lia). done.
      * rewrite decide_False by lia. done.
  - intros q Hq. rewrite (written_pages _ _ _ _ _ W2).
    + by apply (written_pages _ _ _ _ _ W1).
    + intros v e Hv E. rewrite (user_written_lookup _ _ _ _ _ _ Hwf W1) in E. by apply (Hq v).
Qed.

Lemma user_written_stable m pt ptr data m' :
  pt_wf m pt → user_written m pt ptr data m' →
  pt_separate m pt → pt_inj m (root_ppn pt) →
  pt_wf m' pt ∧ pt_separate m' pt ∧ pt_inj m' (root_ppn pt).
Proof.
  intros Hwf W Hsep Hinj.
  assert (HL : ∀ v, pt_lookup m' (root_ppn pt) v = pt_lookup m (root_ppn pt) v)
    by (intros v; by eapply user_written_lookup).
  split_and!.
  - apply (pt_wf_local m); [done|apply W].
  - intros v e Hv. rewrite HL. by apply Hsep.
  - intros v v' e e'. rewrite !HL. by apply Hinj.
Qed.

Lemma copy_out_loop_spec pt end_ : end_ < 2 ^ 38 → ∀ fuel m start src,
  pmem_wf m → pt_wf m pt → pt_separate m pt → pt_inj m (root_ppn pt) →
  0 ≤ start ≤ end_ → end_ - start < Z.of_nat fuel →
  user_mapped m (root_ppn pt) start (end_ - start) →
  end_ - start ≤ len src → Forall is_byte src →
  ∃ m', copy_out_loop fuel m pt start end_ src = Ok m' ∧
    user_written m pt start (take (Z.to_nat (end_ - start)) src) m'.
Proof.
  intros He. induction fuel as [|fuel IH]; intros m start src Hm Hwf Hsep Hinj Hs Hf Hmap Hsrc Hb; [lia|].
  cbn [copy_out_loop]. destruct (Z.ltb_spec start end_) as [Hlt|].
  2: { exists m. split; [done|]. replace (end_ - start) with 0 by lia. by apply user_written_nil. }
  destruct (user_mapped_lookup _ _ _ _ start Hmap) as [e E]; [lia|].
  rewrite (user_chunk_spec m pt start end_ e) by (done || lia). cbn [obind].
  pose proof (chunk_end_bounds start end_ ltac:(lia)) as [Hce _].
  destruct (write_chunk_spec m pt start end_ e src) as (m1 & -> & W1); try done; try lia.
  cbn [obind]. rewrite usub_small by lia. set (n := chunk_end start end_ - start) in *.
  destruct (user_written_stable _ _ _ _ _ Hwf W1) as (Hwf1 & Hsep1 & Hinj1); try done.
  edestruct (IH m1 (chunk_end start end_) (drop (Z.to_nat n) src)) as (m2 & Hrun & W2);
    try done; try lia.
  { by apply W1. }
  { intros va Hva. unfold user_pa. rewrite (user_written_lookup _ _ _ _ _ _ Hwf W1).
    apply Hmap. lia. }
  { unfold len in *. rewrite length_drop. lia. }
  { by apply Forall_drop. }
  exists m2. split; [exact Hrun|].
  replace (take (Z.to_nat (end_ - start)) src)
    with (take (Z.to_nat n) src ++ take (Z.to_nat (end_ - chunk_end start end_)) (drop (Z.to_nat n) src)).
  - eapply user_written_trans; [done|exact W1|].
    replace (start + len (take (Z.to_nat n) src)) with (chunk_end start end_); [done|].
    unfold len in *. rewrite length_take. lia.
  - rewrite take_take_drop. f_equal. lia.
Qed.

(** One round of [translate_str] on a mapped address. *)
Lemma translate_str_step m pt fuel va acc pa :
  0 ≤ va < 2 ^ 38 → user_pa m (root_ppn pt) va = Some pa → pa ≠ 0 →
  translate_str_loop (S fuel) m pt va acc =
  if user_byte m (root_ppn pt) va =? 0 then Ok acc
  else translate_str_loop fuel m pt (va + 1) (acc ++ [user_byte m (root_ppn pt) va]).
Proof.
  intros Hva Hpa Hn. unfold user_byte. rewrite Hpa. cbn [translate_str_loop].
  rewrite VirtAddr_from_mod, Z.mod_small, uadd_small by lia.
  unfold user_pa in Hpa.
  destruct (pt_lookup m (root_ppn pt) (va / PAGE_SIZE)) as [e|] eqn:E; [|done].
  simpl in Hpa. injection Hpa as <-.
  rewrite (translate_va_lookup m pt va e) by done. cbn [unwrap obind].
  unfold PhysAddr_get_mut. rewrite (proj2 (Z.eqb_neq _ _)) by done. done.
Qed.

Lemma user_bytes_cons m root ptr n b bs :
  0 ≤ n → user_bytes m root ptr (n + 1) = b :: bs →
  user_byte m root ptr = b ∧ user_bytes m root (ptr + 1) n = bs.
Proof.
  intros Hn. unfold user_bytes. rewrite seqZ_cons by lia. rewrite fmap_cons. intros [= <- <-].
  split; [done|]. do 2 f_equal; lia.
Qed.

Lemma translate_str_loop_spec m pt s : ∀ fuel ptr acc,
  0 ≤ ptr → ptr + len s < 2 ^ 38 → (length s < fuel)%nat →
  (∀ va, ptr ≤ va ≤ ptr + len s → ∃ pa, user_pa m (root_ppn pt) va = Some pa ∧ pa ≠ 0) →
  user_bytes m (root_ppn pt) ptr (len s + 1) = s ++ [0] → Forall (λ b, b ≠ 0) s →
  translate_str_loop fuel m pt ptr acc = Ok (acc ++ s).
Proof.
  induction s as [|b s IH]; intros fuel ptr acc Hp He Hf Hmap Hbytes Hb;
    (destruct fuel as [|fuel]; [lia|]).
  - destruct (Hmap ptr) as (pa & Hpa & Hn); [unfold len; simpl; lia|].
    apply (user_bytes_cons _ _ _ 0) in Hbytes as [Hb0 _]; [|done].
    rewrite (translate_str_step _ _ _ _ _ pa) by (done || unfold len in *; simpl in *; lia).
    rewrite Hb0. by rewrite app_nil_r.
  - destruct (Hmap ptr) as (pa & Hpa & Hn); [pose proof (len_nonneg (b :: s)); lia|].
    assert (Hl : len (b :: s) = len s + 1) by (unfold len; simpl; lia).
    pose proof (len_nonneg s). rewrite Hl in *.
    apply (user_bytes_cons _ _ _ (len s + 1)) in Hbytes as [Hb0 Hbs]; [|lia].
    rewrite (translate_str_step _ _ _ _ _ pa) by (done || lia). rewrite Hb0.
    apply Forall_cons in Hb as [Hnz Hb]. rewrite (proj2 (Z.eqb_neq b 0)) by done.
    rewrite IH; [by rewrite <- app_assoc|lia|lia|simpl in Hf; lia| |done|done].
    intros va Hva. apply Hmap. lia.
Qed.

(** ** Properties *)
Lemma fmap_Some_default (f : Z → Z) (g : Z → option Z) (l1 l2 : list Z) :
  Some <$> l1 = g <$> l2 → f <$> l1 = (λ x, default 0 (f <$> g x)) <$> l2.
Proof.
  revert l2. induction l1 as [|x l1 IH]; intros [|y l2]; try done.
  rewrite !fmap_cons. intros [= E1 E2]. rewrite <- E1. simpl. f_equal. by apply IH.
Qed.

(** C29. [copy_out] to a mapped user range writes exactly that range: it ends
    without a panic, the user program then reads the source bytes there and
    its other bytes as before, and no frame outside the address space
    changes. *)
Theorem copy_out_writes s pt ptr src n :
  pmem_wf (ram s) → 0 ≤ root_ppn pt < 2 ^ 44 → pt_wf (ram s) pt →
  pt_separate (ram s) pt → pt_inj (ram s) (root_ppn pt) →
  0 ≤ ptr → 0 ≤ n ≤ len src → ptr + n < 2 ^ 38 → Forall is_byte src →
  user_mapped (ram s) (root_ppn pt) ptr n →
  ∃ s', copy_out (PageTable_token pt) ptr src n s = Ok (tt, s') ∧
    frame_allocator s' = frame_allocator s ∧
    user_written (ram s) pt ptr (take (Z.to_nat n) src) (ram s').
Proof.
  intros Hm Hr Hwf Hsep Hinj Hp Hn He Hb Hmap. unfold copy_out.
  rewrite uadd_small by lia.
  assert (Hroot : ∀ fuel m st en b,
    copy_out_loop fuel m (PageTable_from_token (PageTable_token pt)) st en b =
    copy_out_loop fuel m pt st en b).
  { intros fuel. induction fuel as [|fuel IH]; intros m st en b; [done|]. cbn [copy_out_loop].
    destruct (st <? en); [|done].
    assert (user_chunk m (PageTable_from_token (PageTable_token pt)) st en = user_chunk m pt st en) as ->.
    { unfold user_chunk, PageTable_translate, PageTable_find_pte. by rewrite token_root. }
    destruct (user_chunk m pt st en) as [[sl nx]|]; [|done]. cbn [obind].
    destruct (copy_slice m sl b); [|done]. cbn [obind]. apply IH. }
  rewrite Hroot.
  destruct (copy_out_loop_spec pt (ptr + n) He (S (Z.to_nat n)) (ram s) ptr src) as (m' & -> & W);
    try done; try lia.
  { by replace (ptr + n - ptr) with n by lia. }
  eexists. split; [done|]. split; [done|]. simpl. by replace (ptr + n - ptr) with n in W by lia.
Qed.

(** The witnesses below use the page table of [witness_map]: one user page,
    number 5, in frame 0x80501. *)
Lemma witness_user s' pt' new :
  pt_step 0x80500 0x88000 witness_mm {[0x80500; 0x80501]} (mkPT 0x80500 [0x80500]) s' pt' new
    (λ vpn, if decide (vpn = 5) then Some 0x20140407 else None) →
  root_ppn pt' = 0x80500 ∧ pmem_wf (ram s') ∧ pt_wf (ram s') pt' ∧
  pt_separate (ram s') pt' ∧ pt_inj (ram s') (root_ppn pt') ∧
  (∀ va, 0x5000 ≤ va < 0x6000 → user_pa (ram s') (root_ppn pt') va = Some (0x80501000 + (va - 0x5000))) ∧
  get_bytes_array (ram s') 0x80501 = zero_page.
Proof.
  intros G. pose proof (step_root _ _ _ _ _ _ _ _ _ G) as Hr. simpl in Hr.
  pose proof (step_lookup _ _ _ _ _ _ _ _ _ G) as HL. simpl in HL. rewrite Hr.
  split_and!; [done|apply G|apply G| | | |].
  - intros v e Hv. rewrite Hr, HL by done. destruct (decide (v = 5)); [|done]. intros [= <-].
    rewrite (step_frames _ _ _ _ _ _ _ _ _ G). simpl. change (PageTableEntry_ppn _) with 0x80501.
    intros [?|Hn]%elem_of_cons; [done|]. apply (step_fresh _ _ _ _ _ _ _ _ _ G) in Hn. set_solver.
  - intros v v' e e' E E' Hv Hv' _. rewrite HL in E, E' by done.
    destruct (decide (v = 5)), (decide (v' = 5)); congruence.
  - intros va Hva. assert (Hq : va / PAGE_SIZE = 5).
    { unfold PAGE_SIZE. symmetry. apply (Z.div_unique va 4096 5 (va - 0x5000)); lia. }
    rewrite (user_pa_lookup _ _ _ 0x20140407); [|by rewrite Hq, HL by done].
    change (PageTableEntry_ppn 0x20140407) with 0x80501. f_equal.
    unfold PAGE_SIZE in *. rewrite Z.mod_eq by lia. rewrite Hq. lia.
  - rewrite (step_pages _ _ _ _ _ _ _ _ _ _ G); [done|set_solver|].
    simpl. by intros ?%list_elem_of_singleton.
Qed.

Lemma copy_out_writes_witness :
  ∃ pt s s', PageTable_map (mkPT 0x80500 [0x80500]) 5 0x80501 6 witness_mm = Ok (pt, s) ∧
    copy_out (PageTable_token pt) 0x5010 [104; 105; 0] 2 s = Ok (tt, s') ∧
    frame_allocator s' = frame_allocator s ∧
    user_written (ram s) pt 0x5010 [104; 105] (ram s').
Proof.
  destruct witness_map as (s & pt & new & Hrun & G). exists pt, s.
  destruct (witness_user _ _ _ G) as (Hr & Hm & Hwf & Hsep & Hinj & Hpa & _).
  destruct (copy_out_writes s pt 0x5010 [104; 105; 0] 2) as (s' & H); [exact Hm| |exact Hwf|exact Hsep|exact Hinj|lia| | | | |].
  - rewrite Hr. lia.
  - unfold len. simpl. lia.
  - lia.
  - repeat constructor; lia.
  - intros va Hva. rewrite Hpa by lia. eauto.
  - exists s'. split; [exact Hrun|exact H].
Defined.

Lemma translated_byte_buffer_chunked m pt ptr n :
  0 ≤ root_ppn pt < 2 ^ 44 → 0 ≤ ptr → 0 ≤ n → ptr + n < 2 ^ 38 → user_mapped m (root_ppn pt) ptr n →
  ∃ v, translated_byte_buffer m (PageTable_token pt) ptr n = Ok v ∧ chunked m (root_ppn pt) (ptr + n) ptr v.
Proof.
  intros Hr Hp Hn He Hmap. unfold translated_byte_buffer. rewrite uadd_small by lia.
  edestruct (translated_byte_buffer_loop_spec m (PageTable_from_token (PageTable_token pt)) (ptr + n) He
    (S (Z.to_nat n)) ptr []) as (v & -> & Hc); [lia|lia| |].
  { rewrite token_root by done. by replace (ptr + n - ptr) with n by lia. }
  rewrite token_root in Hc by done. by exists v.
Qed.
Lemma chunked_bytes m root ptr n v :
  pmem_wf m → chunked m root (ptr + n) ptr v → (v ≫= slice_bytes m) = user_bytes m root ptr n.
Proof.
  intros Hm Hc. pose proof (chunked_addrs _ _ _ _ _ Hc) as Haddr. replace (ptr + n - ptr) with n in Haddr by lia.
  assert (Hb : v ≫= slice_bytes m = load_byte m <$> (v ≫= slice_addrs)).
  { pose proof (chunked_ok _ _ _ _ _ Hc) as Hok. clear Haddr Hc. induction Hok as [|sl v Hsl Hv IH]; [done|].
    rewrite !bind_cons, IH, fmap_app. by rewrite slice_bytes_addrs. }
  rewrite Hb. unfold user_bytes, user_byte. by apply fmap_Some_default.
Qed.

(** C30. [translated_byte_buffer] of a mapped user range ends within its bound
    and returns slices that cover the range byte for byte, in order: their
    addresses are the physical addresses of the user bytes, and reading them
    gives what the user program reads. *)
Theorem translated_byte_buffer_covers m pt ptr n :
  pmem_wf m → 0 ≤ root_ppn pt < 2 ^ 44 → 0 ≤ ptr → 0 ≤ n → ptr + n < 2 ^ 38 →
  user_mapped m (root_ppn pt) ptr n →
  ∃ v, translated_byte_buffer m (PageTable_token pt) ptr n = Ok v ∧
    Some <$> (v ≫= slice_addrs) = user_pa m (root_ppn pt) <$> seqZ ptr n ∧
    (v ≫= slice_bytes m) = user_bytes m (root_ppn pt) ptr n.
Proof.
  intros Hm Hr Hp Hn He Hmap. destruct (translated_byte_buffer_chunked m pt ptr n) as (v & -> & Hc); try done.
  exists v. split; [done|]. split; [|by apply chunked_bytes].
  rewrite (chunked_addrs _ _ _ _ _ Hc). by replace (ptr + n - ptr) with n by lia.
Qed.

Lemma translated_byte_buffer_covers_witness :
  ∃ pt s v, PageTable_map (mkPT 0x80500 [0x80500]) 5 0x80501 6 witness_mm = Ok (pt, s) ∧
    translated_byte_buffer (ram s) (PageTable_token pt) 0x5ffe 2 = Ok v ∧
    Some <$> (v ≫= slice_addrs) = user_pa (ram s) (root_ppn pt) <$> seqZ 0x5ffe 2 ∧
    (v ≫= slice_bytes (ram s)) = user_bytes (ram s) (root_ppn pt) 0x5ffe 2.
Proof.
  destruct witness_map as (s & pt & new & Hrun & G). exists pt, s.
  destruct (witness_user _ _ _ G) as (Hr & Hm & _ & _ & _ & Hpa & _).
  destruct (translated_byte_buffer_covers (ram s) pt 0x5ffe 2) as (v & H); [exact Hm| |lia|lia|lia| |].
  - rewrite Hr. lia.
  - intros va Hva. rewrite Hpa by lia. eauto.
  - exists v. split; [exact Hrun|exact H].
Defined.

(** [translate_str] returns the string at a user address: the bytes up to
    the first zero byte, for any bound above their number, provided that no
    byte of it lies at physical address 0 (which [get_mut] takes for a null
    pointer). *)
Theorem translate_str_reads m pt ptr s fuel :
  0 ≤ root_ppn pt < 2 ^ 44 → 0 ≤ ptr → ptr + len s < 2 ^ 38 → (length s < fuel)%nat →
  (∀ va, ptr ≤ va ≤ ptr + len s → ∃ pa, user_pa m (root_ppn pt) va = Some pa ∧ pa ≠ 0) →
  user_bytes m (root_ppn pt) ptr (len s + 1) = s ++ [0] → Forall (λ b, b ≠ 0) s →
  translate_str fuel m (PageTable_token pt) ptr = Ok s.
Proof.
  intros Hr Hp He Hf Hmap Hbytes Hb. unfold translate_str.
  apply (translate_str_loop_spec m (PageTable_from_token (PageTable_token pt)) s fuel ptr []);
    rewrite ?token_root by done; done.
Qed.

Lemma translate_str_reads_witness :
  ∃ pt s, PageTable_map (mkPT 0x80500 [0x80500]) 5 0x80501 6 witness_mm = Ok (pt, s) ∧
    translate_str 1 (ram s) (PageTable_token pt) 0x5000 = Ok [].
Proof.
  destruct witness_map as (s & pt & new & Hrun & G). exists pt, s. split; [exact Hrun|].
  clear Hrun. destruct (witness_user _ _ _ G) as (Hr & Hm & _ & _ & _ & Hpa & Hz).
  apply (translate_str_reads (ram s) pt 0x5000 [] 1).
  - rewrite Hr. lia.
  - lia.
  - unfold len. simpl. lia.
  - simpl. lia.
  - unfold len. simpl. intros va Hva. exists (0x80501000 + (va - 0x5000)).
    rewrite Hpa by lia. split; [done|lia].
  - change (user_byte (ram s) (root_ppn pt) <$> [0x5000] = [0]). rewrite fmap_cons.
    unfold user_byte at 1. rewrite Hpa by lia.
    change (default 0 _) with (get_bytes_array (ram s) 0x80501 !!! 0%nat). rewrite Hz. reflexivity.
  - constructor.
Defined.

(** C40. Neither buffer routine looks at the valid bit: for a page whose table
    exists but which is not mapped (an entry of zeroes), the buffer handed out
    is in physical frame 0. *)
Theorem translated_byte_buffer_unmapped m pt ptr n :
  0 ≤ root_ppn pt < 2 ^ 44 → 0 ≤ ptr → 0 < n → ptr mod PAGE_SIZE + n ≤ PAGE_SIZE →
  ptr + n < 2 ^ 38 →
  PageTable_translate m pt (ptr / PAGE_SIZE) = Some PageTableEntry_empty →
  pt_lookup m (root_ppn pt) (ptr / PAGE_SIZE) = None ∧
  translated_byte_buffer m (PageTable_token pt) ptr n =
    Ok [mkSlice 0 (ptr mod PAGE_SIZE) (ptr mod PAGE_SIZE + n)].
Proof.
  intros Hr Hp Hn Hpg He E. split.
  { unfold PageTable_translate in E. rewrite find_pte_walk in E. rewrite pt_lookup_walk.
    destruct (walk m (root_ppn pt) (ptr / PAGE_SIZE)) as [[p i]|]; [|done]. simpl in *.
    injection E as E. unfold leaf. simpl. by rewrite E. }
  unfold translated_byte_buffer. rewrite uadd_small by lia.
  destruct (Z.to_nat n) as [|k] eqn:Ek; [lia|]. cbn [translated_byte_buffer_loop].
  destruct (Z.ltb_spec ptr (ptr + n)); [|lia].
  assert (Hce : chunk_end ptr (ptr + n) = ptr + n).
  { unfold chunk_end, PAGE_SIZE in *. pose proof (Z.div_mod ptr 4096). lia. }
  rewrite (user_chunk_entry m _ ptr (ptr + n) PageTableEntry_empty); [|lia|lia|].
  2: { unfold PageTable_translate, PageTable_find_pte in *. by rewrite token_root. }
  cbn [obind]. rewrite Hce. change (PageTableEntry_ppn PageTableEntry_empty) with 0.
  destruct (Z.ltb_spec (ptr + n) (ptr + n)); [lia|].
  simpl. do 3 f_equal. lia.
Qed.

Lemma translated_byte_buffer_unmapped_witness :
  let m := set_pte (set_pte ∅ 0x80500 0 (PageTableEntry_new 0x80501 PTEFlags_V))
             0x80501 0 (PageTableEntry_new 0x80502 PTEFlags_V) in
  let pt := mkPT 0x80500 [0x80500; 0x80501; 0x80502] in
  pt_lookup m 0x80500 6 = None ∧
  translated_byte_buffer m (PageTable_token pt) 0x6010 4 = Ok [mkSlice 0 0x10 0x14].
Proof.
  intros m pt. apply (translated_byte_buffer_unmapped m pt 0x6010 4).
  - simpl. lia.
  - lia.
  - lia.
  - vm_compute. congruence.
  - lia.
  - vm_compute. reflexivity.
Defined.
