(* ===== verification/MemorySet.v ===== *)
(** * Address spaces ([mm/memory_set.rs])

    A [MemorySet] is a page table and the areas mapped in it.  [data_frames],
    a [BTreeMap] of frame trackers, is a finite map from page numbers to
    frames; replacing or removing an entry drops the tracker.  An ELF file is
    what the accessors of [xmas_elf] return for it. *)

From stdpp Require Import sorting.
From S2P Require Import Prelude Addr PhysMem FrameAlloc PageTable UserMem.

(** [mm/memory_set.rs:413-418] MapType *)
Inductive MapType : Type := Identical | Framed.
#[global] Instance MapType_eq_dec : EqDecision MapType.
Proof. solve_decision. Defined.

(** [mm/memory_set.rs:423-423] MapPermission::R *)
Definition MapPermission_R : Z := Z.shiftl 1 1.
(** [mm/memory_set.rs:424-424] MapPermission::W *)
Definition MapPermission_W : Z := Z.shiftl 1 2.
(** [mm/memory_set.rs:425-425] MapPermission::X *)
Definition MapPermission_X : Z := Z.shiftl 1 3.
(** [mm/memory_set.rs:426-426] MapPermission::U *)
Definition MapPermission_U : Z := Z.shiftl 1 4.
Definition MapPermission_all : Z :=
  Z.lor (Z.lor MapPermission_R MapPermission_W) (Z.lor MapPermission_X MapPermission_U).

(** [mm/memory_set.rs:310-316] MapArea *)
Record MapArea : Type := mkArea {
  vpn_range : VPNRange;
  data_frames : gmap Z Z;
  map_type : MapType;
  map_perm : Z;
}.

(** [mm/memory_set.rs:39-43] MemorySet *)
Record MemorySet : Type := mkMS {
  page_table : PageTable;
  areas : list MapArea;
}.

(** The values of a [BTreeMap] in key order, and its drop. *)
Definition key_le (x y : Z * Z) : Prop := x.1 ≤ y.1.
#[global] Instance key_le_dec : RelDecision key_le.
Proof. intros x y. unfold key_le. apply _. Defined.
Definition btree_values (m : gmap Z Z) : list Z := (merge_sort key_le (map_to_list m)).*2.

(** ** [MapArea] *)
(** [mm/memory_set.rs:319-333] MapArea::new *)
Definition MapArea_new (start_va end_va : Z) (type : MapType) (perm : Z) : outcome MapArea :=
  let start_vpn := VirtAddr_floor start_va in
  let end_vpn := VirtAddr_ceil end_va in
  let! range := VPNRange_new start_vpn end_vpn in
  Ok (mkArea range ∅ type perm).

(** [BTreeMap::insert] of a tracker: the tracker it replaces is dropped. *)
Definition data_frames_insert (area : MapArea) (vpn frame : Z) : M mm MapArea :=
  (match data_frames area !! vpn with
   | Some old => FrameTracker_drop old
   | None => ret tt
   end) ;;
  ret (mkArea (vpn_range area) (<[vpn := frame]> (data_frames area)) (map_type area) (map_perm area)).

Definition data_frames_remove (area : MapArea) (vpn : Z) : M mm MapArea :=
  (match data_frames area !! vpn with
   | Some old => FrameTracker_drop old
   | None => ret tt
   end) ;;
  ret (mkArea (vpn_range area) (delete vpn (data_frames area)) (map_type area) (map_perm area)).

(** [mm/memory_set.rs:334-348] MapArea::map_one *)
Definition MapArea_map_one (area : MapArea) (pt : PageTable) (vpn : Z) :
    M mm (MapArea * PageTable) :=
  let* '(ppn, area) :=
    match map_type area with
    | Identical => ret (vpn, area)
    | Framed =>
        let* frame := frame_alloc_unwrap in
        let* area := data_frames_insert area vpn frame in
        ret (frame, area)
    end in
  let* pte_flags := lift (unwrap (PTEFlags_from_bits (map_perm area))) in
  let* pt := PageTable_map pt vpn ppn pte_flags in
  ret (area, pt).

(** [mm/memory_set.rs:349-355] MapArea::unmap_one *)
Definition MapArea_unmap_one (area : MapArea) (pt : PageTable) (vpn : Z) :
    M mm (MapArea * PageTable) :=
  let* area :=
    if decide (map_type area = Framed) then data_frames_remove area vpn else ret area in
  PageTable_unmap pt vpn ;;
  ret (area, pt).

(** [mm/memory_set.rs:356-360] MapArea::map *)
Definition MapArea_map (area : MapArea) (pt : PageTable) : M mm (MapArea * PageTable) :=
  fold_m (λ '(area, pt) vpn, MapArea_map_one area pt vpn) (VPNRange_vpns (vpn_range area)) (area, pt).

(** [mm/memory_set.rs:361-366] MapArea::unmap *)
Definition MapArea_unmap (area : MapArea) (pt : PageTable) : M mm (MapArea * PageTable) :=
  fold_m (λ '(area, pt) vpn, MapArea_unmap_one area pt vpn) (VPNRange_vpns (vpn_range area)) (area, pt).

Definition set_vpn_range (area : MapArea) (range : VPNRange) : MapArea :=
  mkArea range (data_frames area) (map_type area) (map_perm area).

(** [mm/memory_set.rs:367-373] MapArea::shrink_to *)
Definition MapArea_shrink_to (area : MapArea) (pt : PageTable) (new_end : Z) :
    M mm (MapArea * PageTable) :=
  let* range := lift (VPNRange_new new_end (SimpleRange_get_end (vpn_range area))) in
  let* '(area, pt) :=
    fold_m (λ '(area, pt) vpn, MapArea_unmap_one area pt vpn) (VPNRange_vpns range) (area, pt) in
  let* range := lift (VPNRange_new (SimpleRange_get_start (vpn_range area)) new_end) in
  ret (set_vpn_range area range, pt).

(** [mm/memory_set.rs:374-380] MapArea::append_to *)
Definition MapArea_append_to (area : MapArea) (pt : PageTable) (new_end : Z) :
    M mm (MapArea * PageTable) :=
  let* range := lift (VPNRange_new (SimpleRange_get_end (vpn_range area)) new_end) in
  let* '(area, pt) :=
    fold_m (λ '(area, pt) vpn, MapArea_map_one area pt vpn) (VPNRange_vpns range) (area, pt) in
  let* range := lift (VPNRange_new (SimpleRange_get_start (vpn_range area)) new_end) in
  ret (set_vpn_range area range, pt).

(** [mm/memory_set.rs:388-401] MapArea::copy_data. The loop; the number of
    rounds is bounded by the length of the data. *)
Fixpoint copy_data_loop (fuel : nat) (pt : PageTable) (data : list Z) (start current_vpn : Z) :
    M mm unit :=
  match fuel with
  | O => throw Fuel
  | S fuel =>
      let* src := lift (slice data start (Z.min (len data) (start +u PAGE_SIZE))) in
      let* s := get in
      let* pte := lift (unwrap (PageTable_translate (ram s) pt current_vpn)) in
      let ppn := PageTableEntry_ppn pte in
      let* page := lift (copy_into (get_bytes_array (ram s) ppn) 0 (len src) src) in
      put (mkMM (frame_allocator s) (set_bytes_array (ram s) ppn page)) ;;
      let start := start +u PAGE_SIZE in
      if start >=? len data then ret tt
      else copy_data_loop fuel pt data start (step current_vpn)
  end.

(** [mm/memory_set.rs:381-402] MapArea::copy_data *)
Definition MapArea_copy_data (area : MapArea) (pt : PageTable) (data : list Z) : M mm unit :=
  lift (assert_ (bool_decide (map_type area = Framed))) ;;
  copy_data_loop (S (length data)) pt data 0 (SimpleRange_get_start (vpn_range area)).

(** [mm/memory_set.rs:403-410] MapArea::from_another *)
Definition MapArea_from_another (another : MapArea) : outcome MapArea :=
  let! range := VPNRange_new (SimpleRange_get_start (vpn_range another))
                             (SimpleRange_get_end (vpn_range another)) in
  Ok (mkArea range ∅ (map_type another) (map_perm another)).

(** ** [MemorySet] *)
(** [mm/memory_set.rs:46-51] MemorySet::new_bare *)
Definition MemorySet_new_bare : M mm MemorySet :=
  let* pt := PageTable_new in ret (mkMS pt []).

(** [mm/memory_set.rs:52-54] MemorySet::token *)
Definition MemorySet_token (ms : MemorySet) : Z := PageTable_token (page_table ms).

(** [mm/memory_set.rs:67-73] MemorySet::push *)
Definition MemorySet_push (ms : MemorySet) (map_area : MapArea) (data : option (list Z)) :
    M mm MemorySet :=
  let* '(map_area, pt) := MapArea_map map_area (page_table ms) in
  (match data with
   | Some data => MapArea_copy_data map_area pt data
   | None => ret tt
   end) ;;
  ret (mkMS pt (areas ms ++ [map_area])).

(** [mm/memory_set.rs:55-66] MemorySet::insert_framed_area *)
Definition MemorySet_insert_framed_area (ms : MemorySet) (start_va end_va permission : Z) :
    M mm MemorySet :=
  let* area := lift (MapArea_new start_va end_va Framed permission) in
  MemorySet_push ms area None.

(** [mm/memory_set.rs:252-254] MemorySet::translate *)
Definition MemorySet_translate (m : pmem) (ms : MemorySet) (vpn : Z) : option Z :=
  PageTable_translate m (page_table ms) vpn.

(** The areas with the first one that starts at [vpn] singled out. *)
Fixpoint find_area (vpn : Z) (before l : list MapArea) :
    option (list MapArea * MapArea * list MapArea) :=
  match l with
  | [] => None
  | area :: l' =>
      if SimpleRange_get_start (vpn_range area) =? vpn then Some (before, area, l')
      else find_area vpn (before ++ [area]) l'
  end.

(** [mm/memory_set.rs:255-267] MemorySet::shrink_to *)
Definition MemorySet_shrink_to (ms : MemorySet) (start new_end : Z) : M mm (bool * MemorySet) :=
  match find_area (VirtAddr_floor start) [] (areas ms) with
  | Some (before, area, after) =>
      let* '(area, pt) := MapArea_shrink_to area (page_table ms) (VirtAddr_ceil new_end) in
      ret (true, mkMS pt (before ++ area :: after))
  | None => ret (false, ms)
  end.

(** [mm/memory_set.rs:268-280] MemorySet::append_to *)
Definition MemorySet_append_to (ms : MemorySet) (start new_end : Z) : M mm (bool * MemorySet) :=
  match find_area (VirtAddr_floor start) [] (areas ms) with
  | Some (before, area, after) =>
      let* '(area, pt) := MapArea_append_to area (page_table ms) (VirtAddr_ceil new_end) in
      ret (true, mkMS pt (before ++ area :: after))
  | None => ret (false, ms)
  end.

(** [mm/memory_set.rs:300-307] MemorySet::get_areas_end *)
Definition MemorySet_get_areas_end (ms : MemorySet) : outcome Z :=
  let! area := unwrap (areas ms !! Z.to_nat (len (areas ms) -u 2)) in
  Ok (SimpleRange_get_end (vpn_range area)).

(** Dropping a memory set drops the trackers of the page table, then those
    of each area. *)
Definition MemorySet_drop (ms : MemorySet) : M mm unit :=
  drop_frames (frames (page_table ms)) ;;
  for_each (areas ms) (λ area, drop_frames (btree_values (data_frames area))).

(** ** Address spaces that depend on the linked kernel image *)

(** The symbols of [linker.ld] the module imports. *)
(** [mm/memory_set.rs:20-31] extern symbols *)
Record linker_symbols : Type := mkLinker {
  stext : Z; etext : Z; srodata : Z; erodata : Z; sdata : Z; edata : Z;
  sbss_with_stack : Z; ebss : Z; ekernel : Z; strampoline : Z;
}.

(** What [xmas_elf] returns for a program header and for a file. *)
Record ProgramHeader : Type := mkPH {
  ph_get_type : option Z;   (** [None]: [get_type] is an error *)
  ph_virtual_addr : Z;
  ph_mem_size : Z;
  ph_is_read : bool;
  ph_is_write : bool;
  ph_is_execute : bool;
  ph_offset : Z;
  ph_file_size : Z;
}.
Record ElfFile : Type := mkElf {
  elf_magic : list Z;
  elf_ph_count : Z;
  elf_program_header : Z → option ProgramHeader;
  elf_entry_point : Z;
  elf_input : list Z;
}.
(** [xmas_elf::program::Type::Load]. *)
Definition PT_LOAD : Z := 1.

Section linked.
Context (ld : linker_symbols).

(** [mm/memory_set.rs:74-81] MemorySet::map_trampoline *)
Definition MemorySet_map_trampoline (ms : MemorySet) : M mm MemorySet :=
  let* vpn := lift (VirtPageNum_from_VirtAddr (VirtAddr_from TRAMPOLINE)) in
  let* ppn := lift (PhysPageNum_from_PhysAddr (PhysAddr_from (strampoline ld))) in
  let* pt := PageTable_map (page_table ms) vpn ppn (Z.lor PTEFlags_R PTEFlags_X) in
  ret (mkMS pt (areas ms)).

(** [push(MapArea::new(start.into(), end.into(), type, perm), None)] *)
Definition push_new (ms : MemorySet) (start end_ : Z) (type : MapType) (perm : Z)
    (data : option (list Z)) : M mm MemorySet :=
  let* area := lift (MapArea_new (VirtAddr_from start) (VirtAddr_from end_) type perm) in
  MemorySet_push ms area data.

(** [mm/memory_set.rs:82-158] MemorySet::new_kernel *)
Definition MemorySet_new_kernel : M mm MemorySet :=
  let* ms := MemorySet_new_bare in
  let* ms := MemorySet_map_trampoline ms in
  let* ms := push_new ms (stext ld) (etext ld) Identical (Z.lor MapPermission_R MapPermission_X) None in
  let* ms := push_new ms (srodata ld) (erodata ld) Identical MapPermission_R None in
  let* ms := push_new ms (sdata ld) (edata ld) Identical (Z.lor MapPermission_R MapPermission_W) None in
  let* ms := push_new ms (sbss_with_stack ld) (ebss ld) Identical
               (Z.lor MapPermission_R MapPermission_W) None in
  let* ms := push_new ms (ekernel ld) MEMORY_END Identical
               (Z.lor MapPermission_R MapPermission_W) None in
  fold_m (λ ms pair, push_new ms (fst pair) (fst pair +u snd pair) Identical
                       (Z.lor MapPermission_R MapPermission_W) None) MMIO ms.

(** [mm/memory_set.rs:176-186] MemorySet::from_elf. The permissions of a
    segment. *)
Definition ph_map_perm (ph : ProgramHeader) : Z :=
  let map_perm := MapPermission_U in
  let map_perm := if ph_is_read ph then Z.lor map_perm MapPermission_R else map_perm in
  let map_perm := if ph_is_write ph then Z.lor map_perm MapPermission_W else map_perm in
  if ph_is_execute ph then Z.lor map_perm MapPermission_X else map_perm.

(** [mm/memory_set.rs:171-197] MemorySet::from_elf. One round of the loop over
    the program headers. *)
Definition from_elf_ph (elf : ElfFile) (acc : MemorySet * Z) (i : Z) : M mm (MemorySet * Z) :=
  let '(ms, max_end_vpn) := acc in
  let* ph := lift (unwrap (elf_program_header elf i)) in
  let* type := lift (unwrap (ph_get_type ph)) in
  if type =? PT_LOAD then
    let start_va := VirtAddr_from (ph_virtual_addr ph) in
    let end_va := VirtAddr_from (ph_virtual_addr ph +u ph_mem_size ph) in
    let* map_area := lift (MapArea_new start_va end_va Framed (ph_map_perm ph)) in
    let max_end_vpn := SimpleRange_get_end (vpn_range map_area) in
    let align := ph_offset ph in
    let align := align -u align mod 4096 in
    let* data := lift (slice (elf_input elf) align (ph_offset ph +u ph_file_size ph)) in
    let* ms := MemorySet_push ms map_area (Some data) in
    ret (ms, max_end_vpn)
  else ret (ms, max_end_vpn).

(** [mm/memory_set.rs:159-244] MemorySet::from_elf *)
Definition MemorySet_from_elf (elf : ElfFile) : M mm (MemorySet * Z * Z * Z) :=
  let* ms := MemorySet_new_bare in
  let* ms := MemorySet_map_trampoline ms in
  lift (assert_ (bool_decide (elf_magic elf = [0x7f; 0x45; 0x4c; 0x46]))) ;;
  let* '(ms, max_end_vpn) := fold_m (from_elf_ph elf) (seqZ 0 (elf_ph_count elf)) (ms, 0) in
  let max_end_va := VirtAddr_from_VirtPageNum max_end_vpn in
  let user_stack_top := TRAPFRAME -u USER_STACK_SIZE in
  let user_stack_bottom := user_stack_top -u USER_STACK_SIZE *u 2 in
  let* ms := push_new ms user_stack_bottom user_stack_top Framed
               (Z.lor (Z.lor MapPermission_R MapPermission_W) MapPermission_U) None in
  let* ms := push_new ms TRAPFRAME TRAMPOLINE Framed (Z.lor MapPermission_R MapPermission_W) None in
  ret (ms, usize_from_VirtAddr max_end_va, user_stack_top, elf_entry_point elf).

(** [mm/memory_set.rs:290-296] MemorySet::from_existed_user. The copy of one
    page. *)
Definition copy_user_page (user_space ms : MemorySet) (vpn : Z) : M mm unit :=
  let* s := get in
  let* src := lift (unwrap (MemorySet_translate (ram s) user_space vpn)) in
  let* dst := lift (unwrap (MemorySet_translate (ram s) ms vpn)) in
  put (mkMM (frame_allocator s)
         (set_bytes_array (ram s) (PageTableEntry_ppn dst)
            (get_bytes_array (ram s) (PageTableEntry_ppn src)))).

(** [mm/memory_set.rs:286-297] MemorySet::from_existed_user. The copy of one
    area. *)
Definition copy_user_area (user_space ms : MemorySet) (area : MapArea) : M mm MemorySet :=
  let* new_area := lift (MapArea_from_another area) in
  let* ms := MemorySet_push ms new_area None in
  for_each (VPNRange_vpns (vpn_range area)) (copy_user_page user_space ms) ;;
  ret ms.

(** [mm/memory_set.rs:281-299] MemorySet::from_existed_user *)
Definition MemorySet_from_existed_user (user_space : MemorySet) : M mm MemorySet :=
  let* ms := MemorySet_new_bare in
  let* ms := MemorySet_map_trampoline ms in
  fold_m (copy_user_area user_space) (areas user_space) ms.
End linked.
