(* ===== verification/AddressSpace.v ===== *)
(** * Address spaces: invariants and correctness

    Proofs about [MemorySet.v].  [area_step] describes mapping fresh frames
    into a page table; [uspace_inv] is the invariant of a user address space:
    its page table translates exactly the pages of its areas and the
    trampoline, and all its frames are live and distinct. *)

From stdpp Require Import sorting.
From S2P Require Import Prelude Addr PhysMem FrameAlloc PageTable UserMem MemorySet.

Abbreviation img dm := (map_img (SA := gset Z) dm).

Lemma elem_of_img (dm : gmap Z Z) f : f ∈ img dm ↔ ∃ v, dm !! v = Some f.
Proof. apply elem_of_map_img. Qed.

Lemma img_insert (dm : gmap Z Z) v f : dm !! v = None → img (<[v := f]> dm) = {[f]} ∪ img dm.
Proof.
  intros Hn. apply set_eq. intros x. rewrite elem_of_union, elem_of_singleton, !elem_of_img. split.
  - intros [w [[-> ->]|[_ H]]%lookup_insert_Some]; eauto.
  - intros [->|[w Hw]]; [exists v; apply lookup_insert_eq|].
    exists w. rewrite lookup_insert_ne; [done|congruence].
Qed.

Section area.
Context (l r : Z).

(** From [(s, pt)], with the live frames [live], to [(s', pt')]: new tables
    [newt], new zeroed data frames [dm], translations [tr]. *)
Record area_step (s : mm) (live : gset Z) (pt : PageTable) (s' : mm) (pt' : PageTable)
    (newt : list Z) (dm : gmap Z Z) (tr : Z → option Z) : Prop := {
  as_root : root_ppn pt' = root_ppn pt;
  as_frames : frames pt' = frames pt ++ newt;
  as_fresh f : f ∈ newt → f ∉ live;
  as_dfresh v f : dm !! v = Some f → f ∉ live ∧ f ∉ newt ∧ l ≤ f < r;
  as_dinj v v' f : dm !! v = Some f → dm !! v' = Some f → v = v';
  as_inv : mm_inv l r s' (live ∪ list_to_set newt ∪ img dm);
  as_wf : pt_wf (ram s') pt';
  as_lookup v : is_vpn v → pt_lookup (ram s') (root_ppn pt) v = tr v;
  as_other q :
    q ∉ frames pt' → q ∉ img dm → get_bytes_array (ram s') q = get_bytes_array (ram s) q;
  as_zero v f : dm !! v = Some f → get_bytes_array (ram s') f = zero_page;
  as_free : mm_free s' = mm_free s - len newt - Z.of_nat (size dm);
}.

Lemma as_pages s live pt s' pt' newt dm tr q :
  area_step s live pt s' pt' newt dm tr → q ∈ live → q ∉ frames pt →
  get_bytes_array (ram s') q = get_bytes_array (ram s) q.
Proof.
  intros G Hq Hn. apply (as_other _ _ _ _ _ _ _ _ G).
  - rewrite (as_frames _ _ _ _ _ _ _ _ G). intros [?|Hf]%elem_of_app; [done|].
    by apply (as_fresh _ _ _ _ _ _ _ _ G q).
  - intros [v Hv]%elem_of_img. by apply (as_dfresh _ _ _ _ _ _ _ _ G v q) in Hv as [? _].
Qed.

Lemma area_step_refl s live pt :
  mm_inv l r s live → pt_wf (ram s) pt →
  area_step s live pt s pt [] ∅ (pt_lookup (ram s) (root_ppn pt)).
Proof.
  intros Hinv Hwf. split; try done.
  - by rewrite app_nil_r.
  - intros f ?%not_elem_of_nil. done.
  - replace (live ∪ list_to_set [] ∪ img ∅) with live; [done|].
    apply set_eq. intros x. rewrite !elem_of_union, elem_of_img. simpl.
    rewrite elem_of_empty. split; [auto|]. intros [[?|?]|[v Hv]]; [done|done|].
    by rewrite lookup_empty in Hv.
  - rewrite map_size_empty. unfold len. simpl. lia.
Qed.

Lemma area_step_ext s live pt s' pt' newt dm tr tr' :
  area_step s live pt s' pt' newt dm tr → (∀ v, is_vpn v → tr v = tr' v) →
  area_step s live pt s' pt' newt dm tr'.
Proof. intros [] E. split; try done. intros v Hv. rewrite <- E by done. eauto. Qed.

(** One more framed page. *)
Lemma area_step_one s live pt s1 pt1 newt dm tr vpn flags :
  list_to_set (frames pt) ⊆ live → area_step s live pt s1 pt1 newt dm tr →
  is_vpn vpn → dm !! vpn = None → tr vpn = None → 3 ≤ mm_free s1 → 0 ≤ flags < 256 →
  ∃ f s2 s3 pt2 newt2,
    frame_alloc_unwrap s1 = Ok (f, s2) ∧ PageTable_map pt1 vpn f flags s2 = Ok (pt2, s3) ∧
    len newt2 ≤ 2 ∧
    area_step s live pt s3 pt2 (newt ++ newt2) (<[vpn := f]> dm)
      (λ v, if decide (v = vpn) then Some (PageTableEntry_new f (Z.lor flags PTEFlags_V)) else tr v).
Proof.
  intros Hsub [R F N D I V W L P Z0 X] Hv Hdm Htr Hfree Hfl.
  destruct (frame_alloc_unwrap_spec l r s1 _ V) as (f & s2 & Hrun & Hf & Hnf & Hinv2 & Hram & Hfr); [lia|].
  assert (Hf44 : 0 ≤ f < 2 ^ 44) by (destruct V as [(? & ? & ? & _) _]; lia).
  assert (Hfp : f ∉ frames pt1) by (rewrite F; intros [?|?]%elem_of_app; set_solver).
  assert (Hsame : ∀ q, q ≠ f → get_bytes_array (ram s2) q = get_bytes_array (ram s1) q).
  { intros q Hq. rewrite Hram. by apply get_bytes_array_insert_ne. }
  assert (Hsame1 : ∀ q, q ∈ frames pt1 → get_bytes_array (ram s2) q = get_bytes_array (ram s1) q).
  { intros q Hq. apply Hsame. congruence. }
  pose proof (pt_wf_local _ (ram s2) _ W Hsame1) as W2.
  assert (Hlk : ∀ v, pt_lookup (ram s2) (root_ppn pt1) v = pt_lookup (ram s1) (root_ppn pt1) v).
  { intros v. by apply pt_lookup_local. }
  pose proof (map_spec l r s2 _ pt1 vpn f flags Hinv2 W2) as Hm.
  rewrite Hlk, R, L, Htr in Hm by done.
  destruct Hm as (s3 & pt2 & n2 & Hrun2 & Hn2 & G); try done; [|lia|].
  { rewrite F, list_to_set_app_L. set_solver. }
  exists f, s2, s3, pt2, n2. split_and!; try done.
  pose proof (step_fresh _ _ _ _ _ _ _ _ _ G) as Hn2f.
  split.
  - rewrite (step_root _ _ _ _ _ _ _ _ _ G). done.
  - rewrite (step_frames _ _ _ _ _ _ _ _ _ G), F. by rewrite app_assoc.
  - intros q [Hq|Hq]%elem_of_app; [by apply N|]. apply Hn2f in Hq. set_solver.
  - intros v q [[<- <-]|[Hne Hq]]%lookup_insert_Some.
    + split_and!; [set_solver| |lia|lia]. intros [?|Hq]%elem_of_app; [set_solver|]. apply Hn2f in Hq. set_solver.
    + destruct (D v q Hq) as (? & ? & ?). split_and!; [done| |lia|lia].
      intros [?|Hq2]%elem_of_app; [done|]. apply Hn2f in Hq2.
      apply Hq2. rewrite !elem_of_union, elem_of_img. eauto.
  - intros v v' q [[<- <-]|[Hne Hq]]%lookup_insert_Some [[<- Eq]|[Hne' Hq']]%lookup_insert_Some; try done.
    + exfalso. apply Hnf. rewrite !elem_of_union, elem_of_img. eauto.
    + exfalso. apply Hnf. subst. rewrite !elem_of_union, elem_of_img. eauto.
    + eauto.
  - replace (live ∪ list_to_set (newt ++ n2) ∪ img (<[vpn:=f]> dm))
      with ({[f]} ∪ (live ∪ list_to_set newt ∪ img dm) ∪ list_to_set n2); [apply G|].
    rewrite img_insert, list_to_set_app_L by done. set_solver.
  - apply G.
  - intros v Hv'. rewrite <- R. rewrite (step_lookup _ _ _ _ _ _ _ _ _ G) by done.
    destruct (decide (v = vpn)); [done|]. rewrite <- R, Hlk, R. by apply L.
  - intros q Hq Hnq. rewrite (step_other _ _ _ _ _ _ _ _ _ G) by done. rewrite img_insert in Hnq by done.
    rewrite Hsame by set_solver. apply P; [|set_solver].
    rewrite (step_frames _ _ _ _ _ _ _ _ _ G) in Hq. set_solver.
  - intros v q [[<- <-]|[Hne Hq]]%lookup_insert_Some.
    + rewrite (step_pages _ _ _ _ _ _ _ _ _ _ G); [|set_solver|done].
      rewrite Hram. apply get_bytes_array_insert_eq.
    + rewrite (step_pages _ _ _ _ _ _ _ _ _ _ G).
      * rewrite Hsame; [by apply (Z0 v)|]. intros ->. apply Hnf. rewrite !elem_of_union, elem_of_img. eauto.
      * rewrite !elem_of_union, elem_of_img. eauto.
      * rewrite F. destruct (D v q Hq) as (? & ? & ?). intros [?|?]%elem_of_app; [set_solver|done].
  - rewrite (step_free _ _ _ _ _ _ _ _ _ G), Hfr, X. rewrite map_size_insert_None by done.
    unfold len. rewrite length_app. lia.
Qed.

(** The entries of the pages [dm] with permission [perm], over [tr]. *)
Definition framed_tr (dm : gmap Z Z) (perm : Z) (tr : Z → option Z) (v : Z) : option Z :=
  match dm !! v with
  | Some f => Some (PageTableEntry_new f (Z.lor perm PTEFlags_V))
  | None => tr v
  end.

Lemma map_one_framed area pt vpn f s s2 s3 pt2 :
  map_type area = Framed → 0 ≤ map_perm area < 256 → data_frames area !! vpn = None →
  frame_alloc_unwrap s = Ok (f, s2) → PageTable_map pt vpn f (map_perm area) s2 = Ok (pt2, s3) →
  MapArea_map_one area pt vpn s =
    Ok ((mkArea (vpn_range area) (<[vpn := f]> (data_frames area)) Framed (map_perm area), pt2), s3).
Proof.
  intros Ht Hp Hn Hrun Hrun2. unfold MapArea_map_one. rewrite Ht.
  unfold bind at 1 2. rewrite Hrun. unfold data_frames_insert. rewrite Hn, Ht.
  unfold bind, ret, lift. cbn [map_perm]. rewrite PTEFlags_from_bits_u8 by done.
  cbn [unwrap]. by rewrite Hrun2.
Qed.

Lemma map_pages_framed area pt vpns s live :
  map_type area = Framed → 0 ≤ map_perm area < 256 →
  mm_inv l r s live → pt_wf (ram s) pt → list_to_set (frames pt) ⊆ live →
  NoDup vpns → Forall is_vpn vpns →
  (∀ v, v ∈ vpns → data_frames area !! v = None ∧ pt_lookup (ram s) (root_ppn pt) v = None) →
  3 * len vpns ≤ mm_free s →
  ∃ pt' s' newt dm,
    fold_m (λ '(area, pt) vpn, MapArea_map_one area pt vpn) vpns (area, pt) s =
      Ok ((mkArea (vpn_range area) (dm ∪ data_frames area) Framed (map_perm area), pt'), s') ∧
    dom dm = list_to_set vpns ∧ len newt ≤ 2 * len vpns ∧
    area_step s live pt s' pt' newt dm
      (framed_tr dm (map_perm area) (pt_lookup (ram s) (root_ppn pt))).
Proof.
  intros Ht Hp Hinv Hwf Hsub Hnd Hvs Hfreev Hfree.
  destruct (fold_m_inv (λ done acc s', ∃ newt dm,
      acc.1 = mkArea (vpn_range area) (dm ∪ data_frames area) Framed (map_perm area) ∧
      dom dm = list_to_set done ∧ size dm = length done ∧ len newt ≤ 2 * len done ∧
      area_step s live pt s' acc.2 newt dm (framed_tr dm (map_perm area) (pt_lookup (ram s) (root_ppn pt))))
    vpns (λ '(area, pt) vpn, MapArea_map_one area pt vpn) (area, pt) s)
    as ([area' pt'] & s' & Hrun & newt & dm & Ea & Hdom & _ & Hlen & Hstep).
  - intros pre vpn post [a1 pt1] s1 E (newt & dm & Ea & Hdom & Hsz & Hlen & Hstep). simpl in Ea, Hstep.
    assert (Hin : vpn ∈ vpns) by (rewrite E; set_solver).
    assert (Hnpre : vpn ∉ pre).
    { intros Hpre. rewrite E in Hnd. apply NoDup_app in Hnd as (_ & Hd & _). apply (Hd vpn Hpre). set_solver. }
    assert (Hdm : dm !! vpn = None) by (apply not_elem_of_dom; rewrite Hdom; set_solver).
    destruct (Hfreev vpn Hin) as [Hdf Hlk].
    assert (Hv : is_vpn vpn) by (by eapply Forall_forall in Hvs).
    pose proof (as_free _ _ _ _ _ _ _ _ Hstep) as Hfr.
    assert (Hl : len vpns = len pre + 1 + len post)
      by (rewrite E; unfold len; rewrite length_app; simpl; lia).
    pose proof (len_nonneg post).
    destruct (area_step_one s live pt s1 pt1 newt dm _ vpn (map_perm area) Hsub Hstep)
      as (f & s2 & s3 & pt2 & n2 & R1 & R2 & Hn2 & Hstep2); try done.
    { unfold framed_tr. by rewrite Hdm. }
    { unfold len in *. lia. }
    eexists (_, pt2), s3. split.
    { apply (map_one_framed a1 pt1 vpn f s1 s2 s3 pt2); subst a1; simpl; try done.
      by rewrite lookup_union_None. }
    exists (newt ++ n2), (<[vpn := f]> dm). simpl. rewrite Ea. simpl.
    split_and!.
    + f_equal. by rewrite insert_union_l.
    + rewrite dom_insert_L, Hdom, list_to_set_app_L. set_solver.
    + rewrite map_size_insert_None, length_app, Hsz by done. simpl. lia.
    + unfold len in *. rewrite !length_app. simpl. lia.
    + apply (area_step_ext _ _ _ _ _ _ _ _ _ Hstep2). intros v _. unfold framed_tr.
      destruct (decide (v = vpn)) as [->|]; [by rewrite lookup_insert_eq|by rewrite lookup_insert_ne].
  - exists [], ∅. simpl. split_and!; try done.
    + destruct area. simpl in *. rewrite (left_id_L ∅ (∪)). by rewrite Ht.
    + apply (area_step_ext _ _ _ _ _ _ _ _ _ (area_step_refl s live pt Hinv Hwf)).
      intros v _. unfold framed_tr. by rewrite lookup_empty.
  - exists pt', s', newt, dm. simpl in *. subst area'. done.
Qed.
End area.

(** ** User address spaces *)
Definition area_frames (a : MapArea) : list Z := (map_to_list (data_frames a)).*2.
Definition areas_frames (l : list MapArea) : list Z := l ≫= area_frames.

(** Every frame an address space owns. *)
Definition owned (ms : MemorySet) : list Z := frames (page_table ms) ++ areas_frames (areas ms).

(** The translations of a list of areas, over those of [base]. *)
Definition areas_tr (l : list MapArea) (base : Z → option Z) : Z → option Z :=
  foldl (λ tr a, framed_tr (data_frames a) (map_perm a) tr) base l.

Definition range_vpns (a : MapArea) : list Z :=
  seqZ (range_l (vpn_range a)) (range_r (vpn_range a) - range_l (vpn_range a)).

Record uarea_ok (a : MapArea) : Prop := {
  ua_type : map_type a = Framed;
  ua_perm : 0 ≤ map_perm a < 256;
  ua_range : 0 ≤ range_l (vpn_range a) ≤ range_r (vpn_range a) ∧ range_r (vpn_range a) ≤ 2 ^ 27;
  ua_dom : dom (data_frames a) = list_to_set (range_vpns a);
}.

(** The invariant of a user address space with the fixed mappings [base]. *)
Record uspace (base : Z → option Z) (s : mm) (live : gset Z) (ms : MemorySet) : Prop := {
  us_wf : pt_wf (ram s) (page_table ms);
  us_nodup : NoDup (owned ms);
  us_live : list_to_set (owned ms) ⊆ live;
  us_areas : Forall uarea_ok (areas ms);
  us_pages : NoDup (areas ms ≫= range_vpns);
  us_base v : v ∈ areas ms ≫= range_vpns → base v = None;
  us_lookup v : is_vpn v →
    pt_lookup (ram s) (root_ppn (page_table ms)) v = areas_tr (areas ms) base v;
}.

Lemma elem_of_area_frames a f : f ∈ area_frames a ↔ ∃ v, data_frames a !! v = Some f.
Proof.
  unfold area_frames. rewrite list_elem_of_fmap. split.
  - intros ([v f'] & -> & H%elem_of_map_to_list). eauto.
  - intros [v H]. exists (v, f). split; [done|]. by apply elem_of_map_to_list.
Qed.

Lemma elem_of_areas_frames l f :
  f ∈ areas_frames l ↔ ∃ a v, a ∈ l ∧ data_frames a !! v = Some f.
Proof.
  unfold areas_frames. rewrite list_elem_of_bind. split.
  - intros (a & Hf%elem_of_area_frames & Ha). destruct Hf as [v Hv]. eauto.
  - intros (a & v & Ha & Hv). exists a. rewrite elem_of_area_frames. eauto.
Qed.

Lemma areas_frames_app l1 l2 : areas_frames (l1 ++ l2) = areas_frames l1 ++ areas_frames l2.
Proof. apply bind_app. Qed.

Lemma area_frames_nodup a :
  (∀ v v' f, data_frames a !! v = Some f → data_frames a !! v' = Some f → v = v') →
  NoDup (area_frames a).
Proof.
  intros Hinj. unfold area_frames. apply NoDup_fmap_2_strong; [|apply NoDup_map_to_list].
  intros [v f] [v' f'] H%elem_of_map_to_list H'%elem_of_map_to_list E. simpl in E. subst f'.
  by rewrite (Hinj v v' f).
Qed.

Lemma areas_tr_snoc l a base :
  areas_tr (l ++ [a]) base = framed_tr (data_frames a) (map_perm a) (areas_tr l base).
Proof. unfold areas_tr. by rewrite foldl_app. Qed.

Lemma areas_tr_Some l base v e :
  areas_tr l base v = Some e →
  (∃ a f, a ∈ l ∧ data_frames a !! v = Some f ∧
          e = PageTableEntry_new f (Z.lor (map_perm a) PTEFlags_V)) ∨ base v = Some e.
Proof.
  revert e. induction l as [|a l IH] using rev_ind; intros e; [by right|].
  rewrite areas_tr_snoc. unfold framed_tr. destruct (data_frames a !! v) as [f|] eqn:E.
  - intros [= <-]. left. exists a, f. split_and!; try done. set_solver.
  - intros [(a' & f & Ha & ? & ?)|?]%IH; [|by right]. left. exists a', f. split_and!; try done. set_solver.
Qed.

Lemma areas_tr_None l base v :
  areas_tr l base v = None ↔ base v = None ∧ ∀ a, a ∈ l → data_frames a !! v = None.
Proof.
  induction l as [|a l IH] using rev_ind.
  - simpl. split; [intros E; split; [done|]; intros a ?%not_elem_of_nil; done|by intros [? _]].
  - rewrite areas_tr_snoc. unfold framed_tr.
    setoid_rewrite elem_of_app. setoid_rewrite list_elem_of_singleton.
    destruct (data_frames a !! v) as [f|] eqn:E.
    + split; [done|]. intros [_ H]. specialize (H a). naive_solver.
    + rewrite IH. naive_solver.
Qed.

(** The area and page of a data frame. *)
Lemma areas_frames_inj l a a' v v' f :
  NoDup (areas_frames l) → a ∈ l → a' ∈ l → data_frames a !! v = Some f → data_frames a' !! v' = Some f → v = v'.
Proof.
  intros Hnd Ha Ha' Hv Hv'.
  destruct (decide (v = v')) as [|Hne]; [done|]. exfalso.
  revert Hnd Ha Ha'. induction l as [|b l IH]; intros Hnd Ha Ha'; [by apply not_elem_of_nil in Ha|].
  change (areas_frames (b :: l)) with (area_frames b ++ areas_frames l) in Hnd.
  apply NoDup_app in Hnd as (Hb & Hdis & Hl).
  apply elem_of_cons in Ha as [->|Ha]; apply elem_of_cons in Ha' as [->|Ha'].
  - unfold area_frames in Hb. apply Hne.
    assert (Hi : ∀ m : list (Z * Z), NoDup (m.*2) → (v, f) ∈ m → (v', f) ∈ m → v = v').
    { clear. induction m as [|[k x] m IH]; [by intros _ ?%not_elem_of_nil|]. simpl.
      intros [Hn Hnd]%NoDup_cons [[= -> ->]|H1]%elem_of_cons [[= ->]|H2]%elem_of_cons; try done.
      - exfalso. apply Hn. apply list_elem_of_fmap. by exists (v', x).
      - subst. exfalso. apply Hn. apply list_elem_of_fmap. by exists (v, x).
      - by apply IH. }
    by apply (Hi _ Hb); apply elem_of_map_to_list.
  - apply (Hdis f); [apply elem_of_area_frames|apply elem_of_areas_frames]; eauto.
  - apply (Hdis f); [apply elem_of_area_frames|apply elem_of_areas_frames]; eauto.
  - by apply IH.
Qed.

Lemma owned_push ms pt' newt rng dm perm :
  frames pt' = frames (page_table ms) ++ newt →
  (list_to_set (owned (mkMS pt' (areas ms ++ [mkArea rng dm Framed perm]))) : gset Z) =
  list_to_set (owned ms) ∪ list_to_set newt ∪ img dm.
Proof.
  intros Hf. unfold owned. simpl. rewrite areas_frames_app, Hf. apply set_eq. intros f.
  change (areas_frames [_]) with (area_frames (mkArea rng dm Framed perm) ++ []).
  rewrite app_nil_r, elem_of_list_to_set, !elem_of_app, elem_of_area_frames. simpl.
  rewrite !elem_of_union, !elem_of_list_to_set, elem_of_app, elem_of_img. tauto.
Qed.

Section uspace.
Context (l r : Z) (base : Z → option Z).

(** Live frames are frames of the managed range. *)
Lemma live_range s live f : mm_inv l r s live → f ∈ live → l ≤ f < r ∧ 0 ≤ f < 2 ^ 44.
Proof. intros [(? & ? & ? & _ & _ & _ & Hlive) _] [? _]%Hlive. lia. Qed.

(** An area over unmapped pages. *)
Record new_area_ok (s : mm) (ms : MemorySet) (a : MapArea) : Prop := {
  na_type : map_type a = Framed;
  na_perm : 0 ≤ map_perm a < 256;
  na_range : 0 ≤ range_l (vpn_range a) ≤ range_r (vpn_range a) ∧ range_r (vpn_range a) ≤ 2 ^ 27;
  na_empty : data_frames a = ∅;
  na_free v : v ∈ range_vpns a → pt_lookup (ram s) (root_ppn (page_table ms)) v = None;
}.

Lemma range_vpns_eq a :
  0 ≤ range_l (vpn_range a) ≤ range_r (vpn_range a) → range_r (vpn_range a) ≤ 2 ^ 27 →
  VPNRange_vpns (vpn_range a) = range_vpns a.
Proof.
  intros. unfold range_vpns. destruct (vpn_range a) as [lo hi]. simpl in *. apply VPNRange_vpns_eq; lia.
Qed.

Lemma range_vpns_is_vpn a v :
  0 ≤ range_l (vpn_range a) → range_r (vpn_range a) ≤ 2 ^ 27 → v ∈ range_vpns a → is_vpn v.
Proof. intros ? ? Hv%elem_of_seqZ. unfold is_vpn. lia. Qed.

Lemma map_area_framed s live ms a :
  mm_inv l r s live → pt_wf (ram s) (page_table ms) → list_to_set (frames (page_table ms)) ⊆ live →
  new_area_ok s ms a → 3 * len (range_vpns a) ≤ mm_free s →
  ∃ pt' s' newt dm,
    MapArea_map a (page_table ms) s =
      Ok ((mkArea (vpn_range a) dm Framed (map_perm a), pt'), s') ∧
    dom dm = list_to_set (range_vpns a) ∧ len newt ≤ 2 * len (range_vpns a) ∧
    area_step l r s live (page_table ms) s' pt' newt dm
      (framed_tr dm (map_perm a) (pt_lookup (ram s) (root_ppn (page_table ms)))).
Proof.
  intros Hinv Hwf Hsub [Ht Hp [Hr Hr2] He Hfree] Hfr. unfold MapArea_map.
  rewrite range_vpns_eq by done.
  destruct (map_pages_framed l r a (page_table ms) (range_vpns a) s live)
    as (pt' & s' & newt & dm & Hrun & Hdom & Hlen & Hstep); try done.
  - apply NoDup_seqZ.
  - apply Forall_forall. intros v Hv. apply (range_vpns_is_vpn a); try lia. done.
  - intros v Hv. rewrite He. split; [apply lookup_empty|by apply Hfree].
  - exists pt', s', newt, dm. rewrite He, (right_id_L ∅ (∪)) in Hrun. done.
Qed.

Lemma area_step_owned s live ms s' pt' newt dm tr rng perm :
  mm_inv l r s live → uspace base s live ms →
  area_step l r s live (page_table ms) s' pt' newt dm tr →
  NoDup (owned (mkMS pt' (areas ms ++ [mkArea rng dm Framed perm]))) ∧
  list_to_set (owned (mkMS pt' (areas ms ++ [mkArea rng dm Framed perm])))
    ⊆ live ∪ list_to_set newt ∪ img dm.
Proof.
  intros Hinv U G. unfold owned. simpl.
  rewrite areas_frames_app, (as_frames _ _ _ _ _ _ _ _ _ _ G).
  pose proof (us_nodup _ _ _ _ U) as Hnd. pose proof (us_live _ _ _ _ U) as Hlive. unfold owned in *.
  change (areas_frames [_]) with (area_frames (mkArea rng dm Framed perm) ++ []). rewrite app_nil_r.
  assert (Hdm : ∀ f, f ∈ area_frames (mkArea rng dm Framed perm) ↔ f ∈ img dm).
  { intros f. by rewrite elem_of_area_frames, elem_of_img. }
  assert (Hold : ∀ f, f ∈ frames (page_table ms) ++ areas_frames (areas ms) → f ∈ live) by set_solver.
  split.
  - assert (Hperm : (frames (page_table ms) ++ newt) ++ areas_frames (areas ms) ++ area_frames (mkArea rng dm Framed perm)
        ≡ₚ (frames (page_table ms) ++ areas_frames (areas ms)) ++ newt ++ area_frames (mkArea rng dm Framed perm)).
    { rewrite <- !app_assoc. apply Permutation_app_head. rewrite !app_assoc.
      apply Permutation_app_tail. apply Permutation_app_comm. }
    rewrite Hperm. apply NoDup_app. split_and!; [done| |].
    + intros f Hf%Hold [Hn|Hn]%elem_of_app.
      * by apply (as_fresh _ _ _ _ _ _ _ _ _ _ G f).
      * apply Hdm, elem_of_img in Hn as [v Hv]. by apply (as_dfresh _ _ _ _ _ _ _ _ _ _ G v f) in Hv as [? _].
    + apply NoDup_app. split_and!.
      * destruct (as_wf _ _ _ _ _ _ _ _ _ _ G) as (l1 & l0 & Hp & Ht).
        pose proof (tree_nodup _ _ _ _ Ht) as Hn. rewrite <- Hp, (as_frames _ _ _ _ _ _ _ _ _ _ G) in Hn.
        by apply NoDup_app in Hn as (_ & _ & ?).
      * intros f Hf Hn. apply Hdm, elem_of_img in Hn as [v Hv].
        by apply (as_dfresh _ _ _ _ _ _ _ _ _ _ G v f) in Hv as (_ & ? & _).
      * apply area_frames_nodup. apply (as_dinj _ _ _ _ _ _ _ _ _ _ G).
  - intros f Hf%elem_of_list_to_set. rewrite !elem_of_union, elem_of_list_to_set, <- Hdm.
    rewrite !elem_of_app in Hf. setoid_rewrite elem_of_app in Hold. naive_solver.
Qed.

(** The pages of an area over unmapped pages are those of no other area. *)
Lemma new_area_pages s live ms a :
  uspace base s live ms → new_area_ok s ms a →
  NoDup ((areas ms ≫= range_vpns) ++ range_vpns a) ∧ ∀ v, v ∈ range_vpns a → base v = None.
Proof.
  intros U [Ht Hp [Hr Hr2] He Hfree].
  assert (Hn : ∀ v, v ∈ range_vpns a → areas_tr (areas ms) base v = None).
  { intros v Hv. rewrite <- (us_lookup _ _ _ _ U); [by apply Hfree|].
    apply (range_vpns_is_vpn a); try lia. done. }
  split.
  - apply NoDup_app. split_and!; [apply U| |apply NoDup_seqZ].
    intros v (b & Hb & Hbl)%list_elem_of_bind Hv. apply Hn, areas_tr_None in Hv as [_ Hv].
    specialize (Hv b Hbl). apply not_elem_of_dom in Hv. apply Hv.
    pose proof (us_areas _ _ _ _ U) as Hf. rewrite Forall_forall in Hf.
    rewrite (ua_dom _ (Hf b Hbl)). by apply elem_of_list_to_set.
  - intros v Hv. by apply Hn, areas_tr_None in Hv as [? _].
Qed.

Lemma area_step_uspace s live ms s' pt' newt dm a :
  mm_inv l r s live → uspace base s live ms → new_area_ok s ms a →
  dom dm = list_to_set (range_vpns a) →
  area_step l r s live (page_table ms) s' pt' newt dm
    (framed_tr dm (map_perm a) (pt_lookup (ram s) (root_ppn (page_table ms)))) →
  uspace base s' (live ∪ list_to_set newt ∪ img dm)
    (mkMS pt' (areas ms ++ [mkArea (vpn_range a) dm Framed (map_perm a)])).
Proof.
  intros Hinv U Ha Hdom G.
  destruct (area_step_owned _ _ _ _ _ _ _ _ (vpn_range a) (map_perm a) Hinv U G) as [Hnd Hl].
  destruct (new_area_pages s live ms a U Ha) as [Hpages Hbase].
  destruct Ha as [Ht Hp [Hr Hr2] He Hfree].
  split; try done.
  - apply G.
  - simpl. apply Forall_app. split; [apply U|]. repeat constructor; simpl; try done; lia.
  - simpl. rewrite bind_app. simpl. by rewrite app_nil_r.
  - intros v. simpl. rewrite bind_app, elem_of_app. simpl. rewrite app_nil_r.
    intros [Hv|Hv]; [by apply U|by apply Hbase].
  - intros v Hv. simpl. rewrite (as_root _ _ _ _ _ _ _ _ _ _ G), (as_lookup _ _ _ _ _ _ _ _ _ _ G) by done.
    rewrite areas_tr_snoc. unfold framed_tr. simpl. destruct (dm !! v); [done|]. by apply U.
Qed.

(** [push] without data of an area over unmapped pages. *)
Lemma push_spec s live ms a :
  mm_inv l r s live → uspace base s live ms → new_area_ok s ms a →
  3 * len (range_vpns a) ≤ mm_free s →
  ∃ pt' s' newt dm,
    let ms' := mkMS pt' (areas ms ++ [mkArea (vpn_range a) dm Framed (map_perm a)]) in
    MemorySet_push ms a None s = Ok (ms', s') ∧
    dom dm = list_to_set (range_vpns a) ∧ len newt ≤ 2 * len (range_vpns a) ∧
    area_step l r s live (page_table ms) s' pt' newt dm
      (framed_tr dm (map_perm a) (pt_lookup (ram s) (root_ppn (page_table ms)))) ∧
    uspace base s' (live ∪ list_to_set newt ∪ img dm) ms'.
Proof.
  intros Hinv U Ha Hfree.
  destruct (map_area_framed s live ms a) as (pt' & s' & newt & dm & Hrun & Hdom & Hlen & G); try done.
  - apply U.
  - pose proof (us_live _ _ _ _ U) as Hl. unfold owned in Hl. rewrite list_to_set_app_L in Hl. set_solver.
  - exists pt', s', newt, dm. simpl. split_and!; try done.
    + unfold MemorySet_push. by rewrite (bind_run _ _ _ _ _ Hrun).
    + by apply (area_step_uspace s).
Qed.

(** *** Reading a user address space *)
Lemma uarea_lookup a v f :
  uarea_ok a → data_frames a !! v = Some f → v ∈ range_vpns a ∧ is_vpn v.
Proof.
  intros Ha Hv. apply elem_of_dom_2 in Hv. rewrite (ua_dom _ Ha), elem_of_list_to_set in Hv.
  split; [done|]. destruct (ua_range _ Ha) as [[? ?] ?]. by apply (range_vpns_is_vpn a).
Qed.

Lemma uarea_page a v : uarea_ok a → v ∈ range_vpns a → ∃ f, data_frames a !! v = Some f.
Proof.
  intros Ha Hv. assert (Hd : v ∈ dom (data_frames a)) by (rewrite (ua_dom _ Ha); by apply elem_of_list_to_set).
  by apply elem_of_dom in Hd.
Qed.

Lemma areas_tr_lookup (areas : list MapArea) a v f :
  NoDup (areas ≫= range_vpns) → Forall uarea_ok areas → a ∈ areas → data_frames a !! v = Some f →
  areas_tr areas base v = Some (PageTableEntry_new f (Z.lor (map_perm a) PTEFlags_V)).
Proof.
  induction areas as [|b areas IH] using rev_ind; intros Hnd Hok Ha Hv; [by apply not_elem_of_nil in Ha|].
  rewrite areas_tr_snoc. unfold framed_tr. rewrite bind_app in Hnd. simpl in Hnd. rewrite app_nil_r in Hnd.
  apply NoDup_app in Hnd as (Hnd & Hdis & _). apply Forall_app in Hok as [Hok Hb].
  apply Forall_cons in Hb as [Hb _].
  apply elem_of_app in Ha as [Ha| ->%list_elem_of_singleton]; [|by rewrite Hv].
  destruct (data_frames b !! v) as [g|] eqn:E; [|by apply IH]. exfalso.
  apply (Hdis v); [|exact (proj1 (uarea_lookup b v g Hb E))].
  apply list_elem_of_bind. exists a. split; [|done].
  apply (proj1 (uarea_lookup a v f ltac:(by eapply Forall_forall in Hok) Hv)).
Qed.

Section reading.
Context {s : mm} {live : gset Z} {ms : MemorySet} (Hinv : mm_inv l r s live) (U : uspace base s live ms).

Lemma uspace_lookup a v f :
  a ∈ areas ms → data_frames a !! v = Some f →
  pt_lookup (ram s) (root_ppn (page_table ms)) v =
    Some (PageTableEntry_new f (Z.lor (map_perm a) PTEFlags_V)).
Proof.
  intros Ha Hv. pose proof (us_areas _ _ _ _ U) as Hok.
  assert (Hoka : uarea_ok a) by (by eapply Forall_forall in Hok).
  rewrite (us_lookup _ _ _ _ U) by (by apply (uarea_lookup a v f)).
  by apply areas_tr_lookup; [apply U|..].
Qed.

Lemma data_frame_live a v f :
  a ∈ areas ms → data_frames a !! v = Some f → f ∈ live ∧ f ∉ frames (page_table ms) ∧ 0 ≤ f < 2 ^ 44.
Proof.
  intros Ha Hv. assert (Hf : f ∈ areas_frames (areas ms)) by (apply elem_of_areas_frames; eauto).
  assert (Hl : f ∈ live).
  { apply (us_live _ _ _ _ U), elem_of_list_to_set. unfold owned. apply elem_of_app. by right. }
  pose proof (live_range s live f Hinv Hl). split_and!; [done| |lia|lia].
  intros Hp. pose proof (us_nodup _ _ _ _ U) as Hnd. unfold owned in Hnd.
  apply NoDup_app in Hnd as (_ & Hd & _). by apply (Hd f).
Qed.

Lemma data_frame_ppn a v f :
  a ∈ areas ms → data_frames a !! v = Some f →
  PageTableEntry_ppn (PageTableEntry_new f (Z.lor (map_perm a) PTEFlags_V)) = f.
Proof.
  intros Ha Hv. pose proof (us_areas _ _ _ _ U) as Hok.
  assert (Hoka : uarea_ok a) by (by eapply Forall_forall in Hok).
  apply PageTableEntry_ppn_new; [by apply (data_frame_live a v f)|].
  apply lor_V_range. apply Hoka.
Qed.

(** What a user program can write is disjoint from its page table and never
    shared, so the specifications of [UserMem] apply. *)
Lemma uspace_separate :
  (∀ v e, base v = Some e → 0 ≤ PageTableEntry_ppn e < l) → pt_separate (ram s) (page_table ms).
Proof.
  intros Hbase v e Hv. rewrite (us_lookup _ _ _ _ U) by done.
  intros [(a & f & Ha & Hf & ->)|Hb]%areas_tr_Some.
  - rewrite (data_frame_ppn a v f) by done. by apply (data_frame_live a v f).
  - apply Hbase in Hb. intros Hp. assert (Hl : PageTableEntry_ppn e ∈ live).
    { apply (us_live _ _ _ _ U), elem_of_list_to_set. unfold owned. apply elem_of_app. by left. }
    apply (live_range s live) in Hl; [lia|done].
Qed.

Lemma uspace_inj :
  (∀ v e, base v = Some e → 0 ≤ PageTableEntry_ppn e < l) →
  (∀ v v' e e', base v = Some e → base v' = Some e' → v = v') →
  pt_inj (ram s) (root_ppn (page_table ms)).
Proof.
  intros Hbase Huniq v v' e e' E E' Hv Hv' Heq. rewrite (us_lookup _ _ _ _ U) in E, E' by done.
  apply areas_tr_Some in E as [(a & f & Ha & Hf & ->)|Hb];
    apply areas_tr_Some in E' as [(a' & f' & Ha' & Hf' & ->)|Hb'].
  - rewrite !(data_frame_ppn a v f), !(data_frame_ppn a' v' f') in Heq by done. subst f'.
    pose proof (us_nodup _ _ _ _ U) as Hnd. unfold owned in Hnd. apply NoDup_app in Hnd as (_ & _ & Hnd).
    by apply (areas_frames_inj (areas ms) a a' v v' f).
  - rewrite (data_frame_ppn a v f) in Heq by done. apply Hbase in Hb'.
    pose proof (data_frame_live a v f Ha Hf) as (Hl & _). apply (live_range s live) in Hl; [lia|done].
  - rewrite (data_frame_ppn a' v' f') in Heq by done. apply Hbase in Hb.
    pose proof (data_frame_live a' v' f' Ha' Hf') as (Hl & _). apply (live_range s live) in Hl; [lia|done].
  - by apply (Huniq v v' e e').
Qed.

Lemma uspace_frames_live q : q ∈ frames (page_table ms) → q ∈ live.
Proof.
  intros Hq. apply (us_live _ _ _ _ U), elem_of_list_to_set. unfold owned. apply elem_of_app. by left.
Qed.

(** The invariant depends on the tables of the page table only. *)
Lemma uspace_local s' :
  (∀ q, q ∈ frames (page_table ms) → get_bytes_array (ram s') q = get_bytes_array (ram s) q) →
  uspace base s' live ms.
Proof.
  intros Hsame. split; try apply U.
  - apply (pt_wf_local (ram s)); [apply U|done].
  - intros v Hv. rewrite (pt_lookup_local (ram s)) by (done || apply U). by apply U.
Qed.
End reading.
End uspace.
