(* ===== verification/Fork.v ===== *)
(** * Copying and dropping address spaces

    [MemorySet::from_existed_user], which [sys_clone] uses to copy the parent's
    address space, and the drop of a memory set. *)

From stdpp Require Import sorting.
From S2P Require Import Prelude Addr PhysMem FrameAlloc PageTable UserMem MemorySet AddressSpace.

(** The trampoline page, mapped in every address space. *)
Definition tramp_vpn : Z := 2 ^ 27 - 1.
Definition tramp_pte (ld : linker_symbols) : Z :=
  PageTableEntry_new (strampoline ld / PAGE_SIZE)
    (Z.lor (Z.lor PTEFlags_R PTEFlags_X) PTEFlags_V).
Definition tramp_base (ld : linker_symbols) (v : Z) : option Z :=
  if decide (v = tramp_vpn) then Some (tramp_pte ld) else None.

(** The kernel image, with the trampoline in it, is page-aligned RAM below
    the managed frames. *)
Definition tramp_ok (ld : linker_symbols) (l : Z) : Prop :=
  0 ≤ strampoline ld < 2 ^ 56 ∧ strampoline ld mod PAGE_SIZE = 0 ∧
  strampoline ld / PAGE_SIZE < l.

Section fork.
Context (l r : Z) (ld : linker_symbols) (Htramp : tramp_ok ld l).

Lemma tramp_ppn_range : 0 ≤ strampoline ld / PAGE_SIZE < 2 ^ 44.
Proof.
  destruct Htramp as (? & ? & ?). unfold PAGE_SIZE in *.
  split; [apply Z.div_pos; lia|apply Z.div_lt_upper_bound; lia].
Qed.

Lemma tramp_base_ppn v e : tramp_base ld v = Some e → 0 ≤ PageTableEntry_ppn e < l.
Proof.
  unfold tramp_base. destruct (decide _); [|done]. intros [= <-]. unfold tramp_pte.
  pose proof tramp_ppn_range. rewrite PageTableEntry_ppn_new by done. destruct Htramp. lia.
Qed.

Lemma tramp_base_uniq v v' e e' :
  tramp_base ld v = Some e → tramp_base ld v' = Some e' → v = v'.
Proof.
  unfold tramp_base. destruct (decide (v = tramp_vpn)), (decide (v' = tramp_vpn)); congruence.
Qed.

Lemma map_trampoline_run ms s :
  MemorySet_map_trampoline ld ms s =
  (let* pt := PageTable_map (page_table ms) tramp_vpn (strampoline ld / PAGE_SIZE)
                (Z.lor PTEFlags_R PTEFlags_X) in
   ret (mkMS pt (areas ms))) s.
Proof.
  destruct Htramp as (Hr & Ha & Hl). unfold MemorySet_map_trampoline.
  rewrite (bind_run _ _ s tramp_vpn s) by done.
  rewrite (bind_run _ _ s (strampoline ld / PAGE_SIZE) s); [done|].
  unfold lift, PhysPageNum_from_PhysAddr, PhysAddr_floor.
  rewrite PhysAddr_from_mod, (Z.mod_small _ (2 ^ 56)), PhysAddr_page_offset_mod by lia.
  unfold PAGE_SIZE in *. by rewrite Ha.
Qed.

(** A new address space with the trampoline. *)
Lemma tramp_space_spec s live :
  mm_inv l r s live → 3 ≤ mm_free s →
  ∃ ms s', (let* ms := MemorySet_new_bare in MemorySet_map_trampoline ld ms) s = Ok (ms, s') ∧
    areas ms = [] ∧ (∀ f, f ∈ frames (page_table ms) → f ∉ live) ∧
    mm_inv l r s' (live ∪ list_to_set (frames (page_table ms))) ∧
    uspace (tramp_base ld) s' (live ∪ list_to_set (frames (page_table ms))) ms ∧
    (∀ q, q ∈ live → get_bytes_array (ram s') q = get_bytes_array (ram s) q) ∧
    mm_free s' = mm_free s - len (frames (page_table ms)) ∧ len (frames (page_table ms)) ≤ 3.
Proof.
  intros Hinv Hfree. unfold MemorySet_new_bare.
  destruct (new_spec l r s live Hinv) as (s1 & f & Hrun & Hnf & Hf & Hinv1 & Hwf & Hnone & Hpages & Hfr); [lia|].
  rewrite (bind_run _ _ s (mkMS (mkPT f [f]) []) s1) by (by rewrite (bind_run _ _ _ _ _ Hrun)).
  rewrite map_trampoline_run. simpl.
  pose proof (map_spec l r s1 (live ∪ {[f]}) (mkPT f [f]) tramp_vpn (strampoline ld / PAGE_SIZE)
    (Z.lor PTEFlags_R PTEFlags_X) Hinv1 Hwf) as Hm.
  cbn [root_ppn] in Hm. rewrite Hnone in Hm.
  destruct Hm as (s2 & pt2 & n2 & Hrun2 & Hn2 & G); [set_solver|lia|done|apply tramp_ppn_range|done|].
  rewrite (bind_run _ _ _ _ _ Hrun2). exists (mkMS pt2 []), s2. cbn [page_table areas].
  pose proof (step_frames _ _ _ _ _ _ _ _ _ G) as Hfs. simpl in Hfs.
  assert (Hlive : live ∪ {[f]} ∪ list_to_set n2 = live ∪ list_to_set (frames pt2))
    by (rewrite Hfs; set_solver).
  pose proof (step_inv _ _ _ _ _ _ _ _ _ G) as Hinv2. rewrite Hlive in Hinv2.
  split_and!; try done.
  - intros q. rewrite Hfs. intros [->|Hq]%elem_of_cons; [done|].
    apply (step_fresh _ _ _ _ _ _ _ _ _ G) in Hq. set_solver.
  - split; simpl; [apply G| |set_solver|constructor|constructor|by intros v ?%not_elem_of_nil|].
    + unfold owned. simpl. unfold areas_frames. simpl. rewrite app_nil_r.
      destruct (step_wf _ _ _ _ _ _ _ _ _ G) as (l1 & l0 & Hp & Ht). rewrite Hp. apply Ht.
    + intros v Hv. rewrite (step_root _ _ _ _ _ _ _ _ _ G), (step_lookup _ _ _ _ _ _ _ _ _ G) by done.
      unfold areas_tr, tramp_base. simpl. destruct (decide (v = tramp_vpn)); [done|]. apply Hnone.
  - intros q Hq. rewrite (step_pages _ _ _ _ _ _ _ _ _ _ G).
    + apply Hpages. congruence.
    + set_solver.
    + simpl. intros ->%list_elem_of_singleton. done.
  - rewrite (step_free _ _ _ _ _ _ _ _ _ G), Hfr, Hfs. unfold len. simpl. lia.
  - rewrite Hfs. unfold len in *. simpl. lia.
Qed.

(** ** The copy of the pages of one area *)
Lemma copy_user_page_run parent child v s e e0 :
  pt_lookup (ram s) (root_ppn (page_table child)) v = Some e →
  pt_lookup (ram s) (root_ppn (page_table parent)) v = Some e0 →
  copy_user_page parent child v s =
    Ok (tt, mkMM (frame_allocator s)
              (set_bytes_array (ram s) (PageTableEntry_ppn e)
                 (get_bytes_array (ram s) (PageTableEntry_ppn e0)))).
Proof.
  intros E E0. unfold copy_user_page, MemorySet_translate.
  rewrite (bind_run get _ s s s) by done.
  rewrite (translate_lookup _ _ _ _ E), (translate_lookup _ _ _ _ E0). done.
Qed.

Lemma copy_pages_spec parent child (dm : gmap Z Z) vpns s :
  pmem_wf (ram s) → pt_wf (ram s) (page_table child) → pt_wf (ram s) (page_table parent) →
  (∀ v f, dm !! v = Some f → f ∉ frames (page_table child) ∧ f ∉ frames (page_table parent)) →
  (∀ v v' f, dm !! v = Some f → dm !! v' = Some f → v = v') →
  (∀ v, v ∈ vpns → ∃ f e e0, dm !! v = Some f ∧
     pt_lookup (ram s) (root_ppn (page_table child)) v = Some e ∧ PageTableEntry_ppn e = f ∧
     pt_lookup (ram s) (root_ppn (page_table parent)) v = Some e0 ∧ PageTableEntry_ppn e0 ∉ img dm) →
  ∃ s', for_each vpns (copy_user_page parent child) s = Ok (tt, s') ∧
    frame_allocator s' = frame_allocator s ∧ pmem_wf (ram s') ∧
    (∀ q, q ∉ img dm → get_bytes_array (ram s') q = get_bytes_array (ram s) q) ∧
    (∀ v f e0, v ∈ vpns → dm !! v = Some f →
       pt_lookup (ram s) (root_ppn (page_table parent)) v = Some e0 →
       get_bytes_array (ram s') f = get_bytes_array (ram s) (PageTableEntry_ppn e0)).
Proof.
  intros Hm Hwc Hwp Hdis Hinj Hpages.
  apply (for_each_inv (λ done s', frame_allocator s' = frame_allocator s ∧ pmem_wf (ram s') ∧
    (∀ q, q ∉ img dm → get_bytes_array (ram s') q = get_bytes_array (ram s) q) ∧
    (∀ v f e0, v ∈ done → dm !! v = Some f →
       pt_lookup (ram s) (root_ppn (page_table parent)) v = Some e0 →
       get_bytes_array (ram s') f = get_bytes_array (ram s) (PageTableEntry_ppn e0)))).
  2: { split_and!; try done. by intros v f e0 ?%not_elem_of_nil. }
  intros pre v post s1 E (Hfa & Hm1 & Hsame & Hdone).
  destruct (Hpages v) as (f & e & e0 & Hf & Ec & Hef & Ep & Hn0); [rewrite E; set_solver|].
  assert (Hown : ∀ ms, pt_wf (ram s) (page_table ms) →
    (∀ q, q ∈ frames (page_table ms) → q ∉ img dm) →
    ∀ w, pt_lookup (ram s1) (root_ppn (page_table ms)) w = pt_lookup (ram s) (root_ppn (page_table ms)) w).
  { intros ms Hw Hq w. apply pt_lookup_local; [done|]. intros q Hin. by apply Hsame, Hq. }
  eexists. split.
  { apply (copy_user_page_run parent child v s1 e e0); rewrite Hown; try done;
      intros q Hq (w & Hw)%elem_of_img; by destruct (Hdis w q Hw). }
  rewrite Hef. simpl. unfold set_bytes_array. split_and!.
  - done.
  - apply pmem_wf_insert; [done|by apply length_get_bytes_array|by apply bytes_get_bytes_array].
  - intros q Hq. rewrite get_bytes_array_insert_ne; [by apply Hsame|].
    intros ->. apply Hq, elem_of_img. eauto.
  - intros w g e1 Hw Hg E1. destruct (decide (g = f)) as [->|Hne].
    + rewrite (Hinj w v f) in E1 by done. rewrite get_bytes_array_insert_eq.
      assert (e1 = e0) as -> by congruence. by apply Hsame.
    + rewrite get_bytes_array_insert_ne by done.
      apply elem_of_app in Hw as [Hw| ->%list_elem_of_singleton]; [by apply (Hdone w)|congruence].
Qed.

(** ** [from_existed_user] *)
Definition same_shape (a b : MapArea) : Prop :=
  vpn_range b = vpn_range a ∧ map_perm b = map_perm a.

Section fork_loop.
Context (s : mm) (live : gset Z) (parent : MemorySet).
Context (Hinv0 : mm_inv l r s live) (U0 : uspace (tramp_base ld) s live parent).

(** After the areas [pre]. *)
Record fork_inv (pre : list MapArea) (ms : MemorySet) (s' : mm) : Prop := {
  fi_inv : mm_inv l r s' (live ∪ list_to_set (owned ms));
  fi_space : uspace (tramp_base ld) s' (live ∪ list_to_set (owned ms)) ms;
  fi_fresh f : f ∈ owned ms → f ∉ live;
  fi_shape : Forall2 same_shape pre (areas ms);
  fi_pages q : q ∈ live → get_bytes_array (ram s') q = get_bytes_array (ram s) q;
  fi_copied v e e' :
    v ∈ pre ≫= range_vpns →
    pt_lookup (ram s) (root_ppn (page_table parent)) v = Some e →
    pt_lookup (ram s') (root_ppn (page_table ms)) v = Some e' →
    get_bytes_array (ram s') (PageTableEntry_ppn e') = get_bytes_array (ram s) (PageTableEntry_ppn e);
  fi_free : mm_free s - 3 - 3 * len (pre ≫= range_vpns) ≤ mm_free s';
}.

Lemma shape_pages pre areas v b :
  Forall2 same_shape pre areas → b ∈ areas → v ∈ range_vpns b → v ∈ pre ≫= range_vpns.
Proof.
  intros H Hb Hv. apply list_elem_of_lookup in Hb as [i Hi].
  destruct (Forall2_lookup_r _ _ _ _ _ H Hi) as (a & Ha & Hr & _).
  apply list_elem_of_bind. exists a. split; [|by eapply list_elem_of_lookup_2].
  unfold range_vpns in *. by rewrite <- Hr.
Qed.

Lemma parent_pages_same s' :
  (∀ q, q ∈ live → get_bytes_array (ram s') q = get_bytes_array (ram s) q) →
  pt_wf (ram s') (page_table parent) ∧
  ∀ v, pt_lookup (ram s') (root_ppn (page_table parent)) v =
       pt_lookup (ram s) (root_ppn (page_table parent)) v.
Proof.
  intros Hsame. assert (Hq : ∀ q, q ∈ frames (page_table parent) →
    get_bytes_array (ram s') q = get_bytes_array (ram s) q).
  { intros q Hq. by apply Hsame, (uspace_frames_live _ U0). }
  split; [apply (pt_wf_local (ram s)); [apply U0|done]|].
  intros v. apply pt_lookup_local; [apply U0|done].
Qed.

(** The area to push next is over unmapped pages of the copy. *)
Lemma fork_new_area pre a post ms s1 :
  areas parent = pre ++ a :: post → fork_inv pre ms s1 →
  new_area_ok s1 ms (mkArea (vpn_range a) ∅ Framed (map_perm a)).
Proof.
  intros E F. pose proof (us_areas _ _ _ _ U0) as Hok. rewrite E in Hok.
  apply Forall_app in Hok as [_ [Ha _]%Forall_cons].
  pose proof (us_pages _ _ _ _ U0) as Hnd. rewrite E, bind_app, bind_cons in Hnd.
  apply NoDup_app in Hnd as (_ & Hdis & _).
  split; try done; simpl; try apply Ha.
  intros v Hv. change (range_vpns (mkArea _ _ _ _)) with (range_vpns a) in Hv.
  destruct (ua_range _ Ha) as [[? ?] ?].
  rewrite (us_lookup _ _ _ _ (fi_space _ _ _ F)) by (apply (range_vpns_is_vpn a); lia || done).
  apply areas_tr_None. split.
  - apply (us_base _ _ _ _ U0). rewrite E. apply list_elem_of_bind. exists a. split; [done|set_solver].
  - intros b Hb. destruct (data_frames b !! v) as [f|] eqn:Ef; [|done]. exfalso.
    pose proof (us_areas _ _ _ _ (fi_space _ _ _ F)) as Hokb. rewrite Forall_forall in Hokb.
    apply (Hdis v); [|apply elem_of_app; by left].
    apply (shape_pages pre (areas ms) v b); [apply F|done|].
    exact (proj1 (uarea_lookup b v f (Hokb b Hb) Ef)).
Qed.

(** The state after the push of the area, before its pages are copied. *)
Lemma fork_pushed pre a post ms s1 pt' s2 newt dm :
  areas parent = pre ++ a :: post → fork_inv pre ms s1 →
  let ms' := mkMS pt' (areas ms ++ [mkArea (vpn_range a) dm Framed (map_perm a)]) in
  area_step l r s1 (live ∪ list_to_set (owned ms)) (page_table ms) s2 pt' newt dm
    (framed_tr dm (map_perm a) (pt_lookup (ram s1) (root_ppn (page_table ms)))) →
  (∀ f, f ∈ owned ms' → f ∉ live) ∧
  (∀ q, q ∈ live → get_bytes_array (ram s2) q = get_bytes_array (ram s) q) ∧
  (∀ q, q ∈ areas_frames (areas ms) → q ∉ img dm ∧
     get_bytes_array (ram s2) q = get_bytes_array (ram s1) q).
Proof.
  intros E F ms' G. split_and!.
  - intros f Hf. apply (elem_of_list_to_set (C := gset Z)) in Hf. unfold ms' in Hf.
    rewrite (owned_push ms pt' newt) in Hf by apply G.
    apply elem_of_union in Hf as [[Hf|Hf]%elem_of_union|Hf].
    + apply elem_of_list_to_set in Hf. by apply (fi_fresh _ _ _ F).
    + apply elem_of_list_to_set, (as_fresh _ _ _ _ _ _ _ _ _ _ G) in Hf. set_solver.
    + apply elem_of_img in Hf as [v Hv]. apply (as_dfresh _ _ _ _ _ _ _ _ _ _ G) in Hv as [? _]. set_solver.
  - intros q Hq. rewrite (as_pages _ _ _ _ _ _ _ _ _ _ _ G); [by apply F|set_solver|].
    intros Hp. apply (fi_fresh _ _ _ F q); [|done]. unfold owned. apply elem_of_app. by left.
  - intros q Hq. assert (Ho : q ∈ owned ms) by (unfold owned; apply elem_of_app; by right). split.
    + intros [v Hv]%elem_of_img. apply (as_dfresh _ _ _ _ _ _ _ _ _ _ G) in Hv as [Hn _].
      apply Hn. apply elem_of_union. right. by apply elem_of_list_to_set.
    + apply (as_pages _ _ _ _ _ _ _ _ _ _ _ G).
      * apply elem_of_union. right. by apply elem_of_list_to_set.
      * intros Hp. pose proof (us_nodup _ _ _ _ (fi_space _ _ _ F)) as Hnd. unfold owned in Hnd.
        apply NoDup_app in Hnd as (_ & Hd & _). by apply (Hd q).
Qed.

(** The pages of the pushed area satisfy what [copy_pages_spec] asks for. *)
Lemma fork_copy_pre pre a post ms s1 pt' s2 newt dm :
  areas parent = pre ++ a :: post → fork_inv pre ms s1 →
  let ms' := mkMS pt' (areas ms ++ [mkArea (vpn_range a) dm Framed (map_perm a)]) in
  dom dm = list_to_set (range_vpns a) →
  area_step l r s1 (live ∪ list_to_set (owned ms)) (page_table ms) s2 pt' newt dm
    (framed_tr dm (map_perm a) (pt_lookup (ram s1) (root_ppn (page_table ms)))) →
  uspace (tramp_base ld) s2 (live ∪ list_to_set (owned ms) ∪ list_to_set newt ∪ img dm) ms' →
  ∃ s3, for_each (range_vpns a) (copy_user_page parent ms') s2 = Ok (tt, s3) ∧
    frame_allocator s3 = frame_allocator s2 ∧ pmem_wf (ram s3) ∧
    (∀ q, q ∉ img dm → get_bytes_array (ram s3) q = get_bytes_array (ram s2) q) ∧
    (∀ v f e0, v ∈ range_vpns a → dm !! v = Some f →
       pt_lookup (ram s) (root_ppn (page_table parent)) v = Some e0 →
       get_bytes_array (ram s3) f = get_bytes_array (ram s) (PageTableEntry_ppn e0)).
Proof.
  intros E F ms' Hdom G U. destruct (fork_pushed _ _ _ _ _ _ _ _ _ E F G) as (Hfr & Hlive & _).
  destruct (parent_pages_same s2 Hlive) as [Hwp Hlp].
  pose proof (as_inv _ _ _ _ _ _ _ _ _ _ G) as Hinv2.
  assert (Ha : mkArea (vpn_range a) dm Framed (map_perm a) ∈ areas ms') by (simpl; set_solver).
  assert (Hpar : a ∈ areas parent) by (rewrite E; set_solver).
  assert (Hoka : uarea_ok a).
  { pose proof (us_areas _ _ _ _ U0) as Hok. by eapply Forall_forall in Hok. }
  assert (Hpage : ∀ v, v ∈ range_vpns a → ∃ f0, data_frames a !! v = Some f0 ∧ f0 ∈ live ∧
    pt_lookup (ram s) (root_ppn (page_table parent)) v =
      Some (PageTableEntry_new f0 (Z.lor (map_perm a) PTEFlags_V)) ∧
    PageTableEntry_ppn (PageTableEntry_new f0 (Z.lor (map_perm a) PTEFlags_V)) = f0).
  { intros v Hv. destruct (uarea_page a v Hoka Hv) as [f0 Hf0]. exists f0. split; [done|].
    split; [by apply (data_frame_live l r _ Hinv0 U0 a v f0)|].
    split; [by apply (uspace_lookup _ U0)|by apply (data_frame_ppn l r _ Hinv0 U0 a v)]. }
  assert (Hnew : ∀ f, f ∈ live → f ∉ img dm).
  { intros f Hf [v Hv]%elem_of_img. apply (as_dfresh _ _ _ _ _ _ _ _ _ _ G) in Hv as [Hn _]. set_solver. }
  destruct (copy_pages_spec parent ms' dm (range_vpns a) s2) as (s3 & Hrun & Hfa & Hm3 & Hsame & Hcopy).
  - apply Hinv2.
  - apply U.
  - done.
  - intros v f Hv. split.
    + by apply (data_frame_live l r _ Hinv2 U _ v f Ha).
    + intros Hp. apply (uspace_frames_live _ U0), Hnew in Hp. apply Hp, elem_of_img. eauto.
  - apply G.
  - intros v Hv. assert (Hd : v ∈ dom dm) by (rewrite Hdom; by apply elem_of_list_to_set).
    apply elem_of_dom in Hd as [f Hf]. destruct (Hpage v Hv) as (f0 & _ & Hl0 & E0 & Hp0).
    eexists f, _, _. split; [done|]. split; [by apply (uspace_lookup _ U _ v f Ha)|].
    split; [by apply (data_frame_ppn l r _ Hinv2 U _ v f Ha)|]. rewrite Hlp. split; [done|].
    rewrite Hp0. by apply Hnew.
  - exists s3. split_and!; try done. intros v f e0 Hv Hf E0. rewrite (Hcopy v f e0 Hv Hf) by (by rewrite Hlp).
    apply Hlive. destruct (Hpage v Hv) as (f0 & _ & Hl0 & E1 & Hp0). rewrite E1 in E0. injection E0 as <-.
    by rewrite Hp0.
Qed.

Lemma parent_page_vpn v :
  v ∈ areas parent ≫= range_vpns → is_vpn v ∧ tramp_base ld v = None.
Proof.
  intros Hv. split; [|by apply (us_base _ _ _ _ U0)].
  apply list_elem_of_bind in Hv as (b & Hv & Hb). pose proof (us_areas _ _ _ _ U0) as Hok.
  rewrite Forall_forall in Hok. destruct (ua_range _ (Hok b Hb)) as [[? ?] ?].
  by apply (range_vpns_is_vpn b).
Qed.

(** The pages copied earlier are still there. *)
Lemma fork_copied pre a post ms s1 pt' s2 newt dm s3 v e e' :
  areas parent = pre ++ a :: post → fork_inv pre ms s1 →
  dom dm = list_to_set (range_vpns a) →
  area_step l r s1 (live ∪ list_to_set (owned ms)) (page_table ms) s2 pt' newt dm
    (framed_tr dm (map_perm a) (pt_lookup (ram s1) (root_ppn (page_table ms)))) →
  (∀ q, q ∉ img dm → get_bytes_array (ram s3) q = get_bytes_array (ram s2) q) →
  v ∈ pre ≫= range_vpns →
  pt_lookup (ram s) (root_ppn (page_table parent)) v = Some e →
  pt_lookup (ram s2) (root_ppn pt') v = Some e' →
  get_bytes_array (ram s3) (PageTableEntry_ppn e') = get_bytes_array (ram s) (PageTableEntry_ppn e).
Proof.
  intros E F Hdom G Hsame Hv Ee Ee'.
  destruct (fork_pushed _ _ _ _ _ _ _ _ _ E F G) as (_ & _ & Hold).
  destruct (parent_page_vpn v) as [Hvpn Hbase]; [rewrite E, bind_app; set_solver|].
  pose proof (us_pages _ _ _ _ U0) as Hnd. rewrite E, bind_app, bind_cons in Hnd.
  apply NoDup_app in Hnd as (_ & Hdis & _).
  assert (Hdm : dm !! v = None).
  { apply not_elem_of_dom. rewrite Hdom, elem_of_list_to_set. intros Hin.
    apply (Hdis v Hv). apply elem_of_app. by left. }
  rewrite (as_root _ _ _ _ _ _ _ _ _ _ G), (as_lookup _ _ _ _ _ _ _ _ _ _ G) in Ee' by done.
  unfold framed_tr in Ee'. rewrite Hdm in Ee'.
  pose proof Ee' as Ea. rewrite (us_lookup _ _ _ _ (fi_space _ _ _ F)) in Ea by done.
  apply areas_tr_Some in Ea as [(b & f & Hb & Hf & ->)|?]; [|congruence].
  rewrite (data_frame_ppn l r _ (fi_inv _ _ _ F) (fi_space _ _ _ F) b v f Hb Hf).
  destruct (Hold f) as [Hn Hs]; [apply elem_of_areas_frames; eauto|].
  rewrite Hsame, Hs by done.
  rewrite <- (fi_copied _ _ _ F v e _ Hv Ee Ee').
  by rewrite (data_frame_ppn l r _ (fi_inv _ _ _ F) (fi_space _ _ _ F) b v f Hb Hf).
Qed.

Lemma fork_step pre a post ms s1 :
  areas parent = pre ++ a :: post → fork_inv pre ms s1 → 3 * len (range_vpns a) ≤ mm_free s1 →
  ∃ ms2 s2, copy_user_area parent ms a s1 = Ok (ms2, s2) ∧ fork_inv (pre ++ [a]) ms2 s2.
Proof.
  intros E F Hfree. pose proof (fork_new_area _ _ _ _ _ E F) as Hna.
  assert (Hr : 0 ≤ range_l (vpn_range a) ≤ range_r (vpn_range a) ∧ range_r (vpn_range a) ≤ 2 ^ 27) by apply Hna.
  destruct (push_spec l r (tramp_base ld) s1 _ ms (mkArea (vpn_range a) ∅ Framed (map_perm a))
    (fi_inv _ _ _ F) (fi_space _ _ _ F) Hna Hfree) as (pt' & s2 & newt & dm & Hrun & Hdom & Hlen & G & U).
  change (range_vpns (mkArea _ _ _ _)) with (range_vpns a) in Hdom, Hlen. cbn [vpn_range map_perm] in Hrun, G, U.
  set (ms' := mkMS pt' (areas ms ++ [mkArea (vpn_range a) dm Framed (map_perm a)])) in *.
  destruct (fork_copy_pre _ _ _ _ _ _ _ _ _ E F Hdom G U) as (s3 & Hrun3 & Hfa & Hm3 & Hsame & Hcopy).
  destruct (fork_pushed _ _ _ _ _ _ _ _ _ E F G) as (Hfr & Hlive & Hold). fold ms' in Hfr.
  assert (Hset : live ∪ list_to_set (owned ms) ∪ list_to_set newt ∪ img dm = live ∪ list_to_set (owned ms')).
  { unfold ms'. rewrite (owned_push ms pt' newt) by apply G. set_solver. }
  pose proof (as_inv _ _ _ _ _ _ _ _ _ _ G) as Hinv2. rewrite Hset in Hinv2, U.
  assert (Hmap : MapArea_from_another a = Ok (mkArea (vpn_range a) ∅ Framed (map_perm a))).
  { unfold MapArea_from_another, SimpleRange_get_start, SimpleRange_get_end, VPNRange_new, SimpleRange_new.
    rewrite (proj2 (Z.leb_le _ _)) by lia. simpl.
    pose proof (us_areas _ _ _ _ U0) as Hok. rewrite E in Hok.
    apply Forall_app in Hok as [_ [Ha _]%Forall_cons]. rewrite (ua_type _ Ha).
    by destruct (vpn_range a). }
  assert (Hda : ∀ v f, dm !! v = Some f → f ∉ frames pt').
  { intros v f Hv. apply (data_frame_live l r _ Hinv2 U (mkArea (vpn_range a) dm Framed (map_perm a)) v f);
      [simpl; set_solver|done]. }
  assert (Hpt : ∀ q, q ∈ frames pt' → get_bytes_array (ram s3) q = get_bytes_array (ram s2) q).
  { intros q Hq. apply Hsame. intros [v Hv]%elem_of_img. by apply (Hda v q). }
  assert (U3 : uspace (tramp_base ld) s3 (live ∪ list_to_set (owned ms')) ms') by (by apply (uspace_local _ U)).
  exists ms', s3. split.
  { unfold copy_user_area. unfold bind at 1. unfold lift. rewrite Hmap.
    rewrite (bind_run _ _ _ _ _ Hrun). rewrite range_vpns_eq by lia. by rewrite (bind_run _ _ _ _ _ Hrun3). }
  split; try done.
  - split; [|done]. rewrite Hfa. apply Hinv2.
  - apply Forall2_app; [apply F|]. by repeat constructor.
  - intros q Hq. rewrite Hsame; [by apply Hlive|]. intros [v Hv]%elem_of_img.
    apply (as_dfresh _ _ _ _ _ _ _ _ _ _ G) in Hv as [Hn _]. set_solver.
  - intros v e e' Hv Ee Ee'. rewrite bind_app, elem_of_app, bind_cons, app_nil_r in Hv.
    rewrite (pt_lookup_local (ram s2)) in Ee' by (done || apply U).
    destruct Hv as [Hv|Hv]; [by apply (fork_copied pre a post ms s1 pt' s2 newt dm s3 v)|].
    assert (Hd : v ∈ dom dm) by (rewrite Hdom; by apply elem_of_list_to_set).
    apply elem_of_dom in Hd as [f Hf].
    assert (Ha : mkArea (vpn_range a) dm Framed (map_perm a) ∈ areas ms') by (simpl; set_solver).
    rewrite (uspace_lookup _ U _ v f Ha Hf) in Ee'. injection Ee' as <-.
    pose proof (data_frame_ppn l r _ Hinv2 U _ v f Ha Hf) as Hp. simpl in Hp |- *.
    rewrite Hp. by apply (Hcopy v f).
  - assert (mm_free s3 = mm_free s2) as -> by (unfold mm_free; by rewrite Hfa).
    rewrite (as_free _ _ _ _ _ _ _ _ _ _ G).
    pose proof (fi_free _ _ _ F). rewrite bind_app, bind_cons, app_nil_r. unfold len in *. rewrite length_app.
    assert (size dm = length (range_vpns a)).
    { rewrite <- size_dom, Hdom, size_list_to_set; [done|apply NoDup_seqZ]. }
    lia.
Qed.

Lemma fork_all :
  3 + 3 * len (areas parent ≫= range_vpns) ≤ mm_free s →
  ∃ child s', MemorySet_from_existed_user ld parent s = Ok (child, s') ∧
    fork_inv (areas parent) child s'.
Proof.
  intros Hfree. unfold MemorySet_from_existed_user. pose proof (len_nonneg (areas parent ≫= range_vpns)).
  destruct (tramp_space_spec s live Hinv0) as (ms & s1 & Hrun & Ea & Hfr & Hinv1 & U1 & Hpg & Hf & Hl); [lia|].
  assert (Ho : owned ms = frames (page_table ms)).
  { unfold owned. rewrite Ea. apply app_nil_r. }
  unfold bind in Hrun |- *. destruct (MemorySet_new_bare s) as [[ms0 s0]|]; [|done]. rewrite Hrun.
  apply (fold_m_inv fork_inv).
  - intros pre a post ms1 s2 E F. apply (fork_step pre a post ms1 s2 E F).
    pose proof (fi_free _ _ _ F). rewrite E, bind_app, bind_cons in Hfree.
    unfold len in *. rewrite !length_app in Hfree. lia.
  - split; rewrite ?Ho; try done.
    + rewrite Ea. constructor.
    + by intros v e e' ?%not_elem_of_nil.
    + simpl. unfold len. simpl. lia.
Qed.

(** A user byte of the parent, read in the copy. *)
Lemma fork_user_byte child s' va :
  fork_inv (areas parent) child s' → va / PAGE_SIZE ∈ areas parent ≫= range_vpns →
  user_byte (ram s') (root_ppn (page_table child)) va =
  user_byte (ram s) (root_ppn (page_table parent)) va.
Proof.
  intros F Hv. pose proof Hv as (a & Hva & Ha)%list_elem_of_bind.
  pose proof (us_areas _ _ _ _ U0) as Hok. rewrite Forall_forall in Hok.
  pose proof (us_areas _ _ _ _ (fi_space _ _ _ F)) as Hokc. rewrite Forall_forall in Hokc.
  destruct (uarea_page a _ (Hok a Ha) Hva) as [f Hf]. pose proof (uspace_lookup _ U0 _ _ _ Ha Hf) as Ee.
  apply list_elem_of_lookup in Ha as [i Hi].
  destruct (Forall2_lookup_l _ _ _ _ _ (fi_shape _ _ _ F) Hi) as (b & Hb & Hr & _).
  apply list_elem_of_lookup_2 in Hb.
  destruct (uarea_page b (va / PAGE_SIZE) (Hokc b Hb)) as [g Hg].
  { unfold range_vpns in *. by rewrite Hr. }
  pose proof (uspace_lookup _ (fi_space _ _ _ F) _ _ _ Hb Hg) as Ee'.
  rewrite (user_byte_page _ _ _ _ Ee), (user_byte_page _ _ _ _ Ee').
  unfold load_byte. pose proof (Z.mod_pos_bound va PAGE_SIZE eq_refl) as Hm.
  rewrite !(proj1 (page_addr_div _ _ Hm)), !(proj2 (page_addr_div _ _ Hm)).
  by rewrite (fi_copied _ _ _ F _ _ _ Hv Ee Ee').
Qed.
End fork_loop.
End fork.

(** ** Dropping an address space *)
Lemma btree_values_perm a : btree_values (data_frames a) ≡ₚ area_frames a.
Proof. unfold btree_values, area_frames. by rewrite merge_sort_Permutation. Qed.

Lemma btree_values_set a :
  (list_to_set (btree_values (data_frames a)) : gset Z) = list_to_set (area_frames a).
Proof. apply set_eq. intros f. by rewrite !elem_of_list_to_set, btree_values_perm. Qed.

Lemma drop_areas_spec l r areas : ∀ s live,
  mm_inv l r s live → NoDup (areas_frames areas) → list_to_set (areas_frames areas) ⊆ live →
  ∃ s', for_each areas (λ area, drop_frames (btree_values (data_frames area))) s = Ok (tt, s') ∧
    mm_inv l r s' (live ∖ list_to_set (areas_frames areas)) ∧
    ram s' = ram s ∧ mm_free s' = mm_free s + len (areas_frames areas).
Proof.
  induction areas as [|a areas IH]; intros s live Hinv Hnd Hsub.
  { exists s. simpl. replace (live ∖ ∅) with live by set_solver. unfold len. simpl. split_and!; [done|done|done|lia]. }
  change (areas_frames (a :: areas)) with (area_frames a ++ areas_frames areas) in *.
  apply NoDup_app in Hnd as (Ha & Hd & Hnd). rewrite list_to_set_app_L in *.
  destruct (drop_frames_spec l r s live (btree_values (data_frames a)) Hinv) as (s1 & R1 & I1 & M1 & F1).
  { by rewrite btree_values_perm. }
  { rewrite btree_values_set. set_solver. }
  rewrite btree_values_set in I1.
  destruct (IH s1 (live ∖ list_to_set (area_frames a)) I1 Hnd) as (s2 & R2 & I2 & M2 & F2).
  { intros f Hf. apply elem_of_difference. split; [set_solver|].
    rewrite elem_of_list_to_set. intros Hfa. apply (Hd f Hfa). by apply elem_of_list_to_set in Hf. }
  exists s2. simpl. rewrite (bind_run _ _ _ _ _ R1). split_and!; [done| |congruence|].
  - replace (live ∖ (list_to_set (area_frames a) ∪ list_to_set (areas_frames areas)))
      with (live ∖ list_to_set (area_frames a) ∖ list_to_set (areas_frames areas)) by set_solver. done.
  - rewrite F2, F1. unfold len. rewrite length_app, btree_values_perm. lia.
Qed.

Lemma memory_set_drop_spec l r s live ms :
  mm_inv l r s live → NoDup (owned ms) → list_to_set (owned ms) ⊆ live →
  ∃ s', MemorySet_drop ms s = Ok (tt, s') ∧ mm_inv l r s' (live ∖ list_to_set (owned ms)) ∧
    ram s' = ram s ∧ mm_free s' = mm_free s + len (owned ms).
Proof.
  intros Hinv Hnd Hsub. unfold owned in *. apply NoDup_app in Hnd as (Hf & Hd & Ha).
  rewrite list_to_set_app_L in *.
  destruct (drop_frames_spec l r s live (frames (page_table ms)) Hinv) as (s1 & R1 & I1 & M1 & F1);
    [done|set_solver|].
  destruct (drop_areas_spec l r (areas ms) s1 _ I1 Ha) as (s2 & R2 & I2 & M2 & F2).
  { intros f Hf'. apply elem_of_difference. split; [set_solver|].
    rewrite elem_of_list_to_set. intros Hfp. apply (Hd f Hfp). by apply elem_of_list_to_set in Hf'. }
  exists s2. unfold MemorySet_drop. rewrite (bind_run _ _ _ _ _ R1). split_and!; [done| |congruence|].
  - replace (live ∖ (list_to_set (frames (page_table ms)) ∪ list_to_set (areas_frames (areas ms))))
      with (live ∖ list_to_set (frames (page_table ms)) ∖ list_to_set (areas_frames (areas ms))) by set_solver.
    done.
  - rewrite F2, F1. unfold len. rewrite length_app. lia.
Qed.

(** ** Properties *)

(** A concrete address space: the trampoline and one framed page. *)
Definition witness_ld : linker_symbols :=
  mkLinker 0x80200000 0x80220000 0x80220000 0x80230000 0x80230000 0x80240000
    0x80240000 0x84300000 0x84300000 0x80201000.
Definition witness_s0 : mm := mkMM (mkSFA 0x84300 0x88000 []) ∅.

Lemma witness_tramp_ok : tramp_ok witness_ld 0x84300.
Proof. unfold tramp_ok. simpl. split_and!; done. Qed.

Lemma witness_s0_inv : mm_inv 0x84300 0x88000 witness_s0 ∅.
Proof. split; [by apply (sfa_inv_init 0x84300 0x88000 StackFrameAllocator_new)|apply pmem_wf_empty]. Qed.

Definition witness_build : M mm MemorySet :=
  let* ms := (let* ms := MemorySet_new_bare in MemorySet_map_trampoline witness_ld ms) in
  MemorySet_push ms (mkArea (mkRange 5 6) ∅ Framed 22) None.

Lemma build_space s0 :
  mm_inv 0x84300 0x88000 s0 ∅ → 200 ≤ mm_free s0 →
  ∃ ms s live, witness_build s0 = Ok (ms, s) ∧
    mm_inv 0x84300 0x88000 s live ∧ uspace (tramp_base witness_ld) s live ms ∧
    areas ms ≫= range_vpns = [5] ∧ 100 ≤ mm_free s.
Proof.
  intros Hinv0 Hf0.
  destruct (tramp_space_spec _ _ _ witness_tramp_ok _ _ Hinv0)
    as (ms & s1 & Hrun & Ea & _ & Hinv1 & U1 & _ & Hf1 & Hl1); [lia|].
  destruct (push_spec 0x84300 0x88000 (tramp_base witness_ld) s1 _ ms (mkArea (mkRange 5 6) ∅ Framed 22)
    Hinv1 U1) as (pt' & s2 & newt & dm & Hrun2 & Hdom & Hlen & G & U2).
  { split; try done. intros v Hv. rewrite (us_lookup _ _ _ _ U1).
    - rewrite Ea. simpl. unfold tramp_base. rewrite decide_False; [done|].
      intros ->. apply elem_of_seqZ in Hv. unfold tramp_vpn in Hv. simpl in Hv. lia.
    - apply (range_vpns_is_vpn (mkArea (mkRange 5 6) ∅ Framed 22)); [simpl; lia..|done]. }
  { change (len _) with 1. lia. }
  eexists _, s2, _. unfold witness_build. rewrite (bind_run _ _ _ _ _ Hrun).
  split; [exact Hrun2|]. split_and!; [apply G|done| |].
  - simpl. by rewrite Ea.
  - rewrite (as_free _ _ _ _ _ _ _ _ _ _ G), Hf1.
    assert (size dm = 1%nat) as ->; [|change (len (range_vpns _)) with 1 in Hlen; lia].
    rewrite <- size_dom, Hdom. done.
Qed.

Lemma witness_space : ∃ ms s live, witness_build witness_s0 = Ok (ms, s) ∧
  mm_inv 0x84300 0x88000 s live ∧ uspace (tramp_base witness_ld) s live ms ∧
  areas ms ≫= range_vpns = [5] ∧ 100 ≤ mm_free s.
Proof. apply build_space; [apply witness_s0_inv|]. vm_compute. congruence. Qed.

(** C5. [from_existed_user] makes an independent copy of a user address space:
    with a free frame and two free table frames for every page it succeeds;
    the copy has the same areas with the same permissions, and every user
    byte of them reads as in the parent; none of its frames was live before,
    it is a well-formed address space, and no byte of a live frame changes. *)
Theorem from_existed_user_copies l r ld s live parent :
  tramp_ok ld l → mm_inv l r s live → uspace (tramp_base ld) s live parent →
  3 + 3 * len (areas parent ≫= range_vpns) ≤ mm_free s →
  ∃ child s', MemorySet_from_existed_user ld parent s = Ok (child, s') ∧
    mm_inv l r s' (live ∪ list_to_set (owned child)) ∧
    uspace (tramp_base ld) s' (live ∪ list_to_set (owned child)) child ∧
    (∀ f, f ∈ owned child → f ∉ live) ∧
    Forall2 same_shape (areas parent) (areas child) ∧
    (∀ va, va / PAGE_SIZE ∈ areas parent ≫= range_vpns →
       user_byte (ram s') (root_ppn (page_table child)) va =
       user_byte (ram s) (root_ppn (page_table parent)) va) ∧
    (∀ q, q ∈ live → get_bytes_array (ram s') q = get_bytes_array (ram s) q).
Proof.
  intros Ht Hinv U Hfree. destruct (fork_all l r ld Ht s live parent Hinv U Hfree) as (child & s' & Hrun & F).
  exists child, s'. split_and!; try done; try apply F.
  intros va. by apply (fork_user_byte l r ld s live parent U).
Qed.

(** C23. Dropping an address space returns exactly its frames: the tables and
    the data frames of all areas, each once; so a copy that is dropped leaves
    the live frames with every byte in them, the parent's among them, and the
    number of free frames as they were. *)
Theorem fork_drop_no_leak l r ld s live parent :
  tramp_ok ld l → mm_inv l r s live → uspace (tramp_base ld) s live parent →
  3 + 3 * len (areas parent ≫= range_vpns) ≤ mm_free s →
  ∃ s', (let* child := MemorySet_from_existed_user ld parent in MemorySet_drop child) s = Ok (tt, s') ∧
    mm_inv l r s' live ∧ mm_free s' = mm_free s ∧ uspace (tramp_base ld) s' live parent ∧
    (∀ q, q ∈ live → get_bytes_array (ram s') q = get_bytes_array (ram s) q).
Proof.
  intros Ht Hinv U Hfree. destruct (fork_all l r ld Ht s live parent Hinv U Hfree) as (child & s1 & Hrun & F).
  destruct (memory_set_drop_spec l r s1 _ child (fi_inv _ _ _ _ _ _ _ _ _ F))
    as (s2 & Hrun2 & Hinv2 & Hram & _).
  { apply F. }
  { apply F. }
  replace ((live ∪ list_to_set (owned child)) ∖ list_to_set (owned child)) with live in Hinv2
    by (pose proof (fi_fresh _ _ _ _ _ _ _ _ _ F) as Hfr; set_solver).
  exists s2. rewrite (bind_run _ _ _ _ _ Hrun). split_and!; [done|done| | |].
  - by rewrite (mm_free_live _ _ _ _ Hinv2), (mm_free_live _ _ _ _ Hinv).
  - apply (uspace_local _ U). intros q Hq. rewrite Hram. apply F. by apply (uspace_frames_live _ U).
  - intros q Hq. rewrite Hram. by apply F.
Qed.

Lemma from_existed_user_copies_witness :
  ∃ parent s live child s', witness_build witness_s0 = Ok (parent, s) ∧
    MemorySet_from_existed_user witness_ld parent s = Ok (child, s') ∧
    mm_inv 0x84300 0x88000 s' (live ∪ list_to_set (owned child)) ∧
    uspace (tramp_base witness_ld) s' (live ∪ list_to_set (owned child)) child ∧
    (∀ f, f ∈ owned child → f ∉ live) ∧
    Forall2 same_shape (areas parent) (areas child) ∧
    (∀ va, va / PAGE_SIZE ∈ areas parent ≫= range_vpns →
       user_byte (ram s') (root_ppn (page_table child)) va =
       user_byte (ram s) (root_ppn (page_table parent)) va) ∧
    (∀ q, q ∈ live → get_bytes_array (ram s') q = get_bytes_array (ram s) q).
Proof.
  destruct witness_space as (parent & s & live & Hrun & Hinv & U & Hpages & Hfree).
  destruct (from_existed_user_copies 0x84300 0x88000 witness_ld s live parent witness_tramp_ok Hinv U)
    as (child & s' & H).
  { rewrite Hpages. change (len [5]) with 1. lia. }
  exists parent, s, live, child, s'. split; [exact Hrun|exact H].
Defined.

Lemma fork_drop_no_leak_witness :
  ∃ parent s live s', witness_build witness_s0 = Ok (parent, s) ∧
    (let* child := MemorySet_from_existed_user witness_ld parent in MemorySet_drop child) s = Ok (tt, s') ∧
    mm_inv 0x84300 0x88000 s' live ∧ mm_free s' = mm_free s ∧
    uspace (tramp_base witness_ld) s' live parent ∧
    (∀ q, q ∈ live → get_bytes_array (ram s') q = get_bytes_array (ram s) q).
Proof.
  destruct witness_space as (parent & s & live & Hrun & Hinv & U & Hpages & Hfree).
  destruct (fork_drop_no_leak 0x84300 0x88000 witness_ld s live parent witness_tramp_ok Hinv U) as (s' & H).
  { rewrite Hpages. change (len [5]) with 1. lia. }
  exists parent, s, live, s'. split; [exact Hrun|exact H].
Defined.
