(* ===== verification/ElfLoad.v ===== *)
(** * Loading programs

    [MapArea::copy_data] and [MemorySet::from_elf]: the bytes of a file end up
    at the user addresses the program headers name. *)

From S2P Require Import Prelude Addr PhysMem FrameAlloc PageTable UserMem MemorySet AddressSpace Fork.

(** Writing nothing. *)
Lemma user_written_same m pt ptr m' :
  pmem_wf m' → (∀ q, get_bytes_array m' q = get_bytes_array m q) → pt_wf m pt →
  user_written m pt ptr [] m'.
Proof.
  intros Hm Hs Hwf. split; try done.
  intros va Hva. rewrite decide_False by (unfold len; simpl; lia).
  unfold user_byte, user_pa. rewrite (pt_lookup_local m) by done.
  destruct (pt_lookup m (root_ppn pt) (va / PAGE_SIZE)); [|done]. simpl. unfold load_byte. by rewrite Hs.
Qed.

Section copy.
Context (pt : PageTable) (data : list Z) (Hdata : Forall is_byte data).

(** One round of the loop, for a part of [n] bytes. *)
Lemma copy_data_round fuel s start vpn e :
  pmem_wf (ram s) → 0 ≤ start ≤ len data → len data < 2 ^ 63 →
  pt_lookup (ram s) (root_ppn pt) vpn = Some e →
  let n := Z.min (len data) (start + PAGE_SIZE) - start in
  let page := get_bytes_array (ram s) (PageTableEntry_ppn e) in
  let s' := mkMM (frame_allocator s)
              (set_bytes_array (ram s) (PageTableEntry_ppn e)
                 (splice page 0 (take (Z.to_nat n) (drop (Z.to_nat start) data)))) in
  copy_data_loop (S fuel) pt data start vpn s =
  if len data <=? start + PAGE_SIZE then Ok (tt, s')
  else copy_data_loop fuel pt data (start + PAGE_SIZE) (step vpn) s'.
Proof.
  intros Hm Hs Hl E n page s'. cbn [copy_data_loop]. unfold PAGE_SIZE in *.
  rewrite uadd_small by lia.
  assert (Hsl : slice data start (Z.min (len data) (start + 4096)) =
    Ok (take (Z.to_nat n) (drop (Z.to_nat start) data))).
  { apply slice_Ok. split; [lia|]. by unfold n, PAGE_SIZE. }
  assert (Hlen : len (take (Z.to_nat n) (drop (Z.to_nat start) data)) = n).
  { unfold len in *. rewrite length_take, length_drop. unfold n, PAGE_SIZE. lia. }
  unfold bind at 1. unfold lift at 1. rewrite Hsl. unfold bind at 1, get. unfold bind at 1, lift at 1.
  rewrite (translate_lookup _ _ _ _ E). cbn [unwrap]. unfold bind at 1, lift.
  assert (Hcp : copy_into page 0 n (take (Z.to_nat n) (drop (Z.to_nat start) data)) =
    Ok (splice page 0 (take (Z.to_nat n) (drop (Z.to_nat start) data)))).
  { apply copy_into_Ok. split_and!; [unfold n, PAGE_SIZE; lia| |lia|done].
    unfold len, page. rewrite length_get_bytes_array, page_len_eq by done. unfold n, PAGE_SIZE. lia. }
  rewrite Hlen. fold page. rewrite Hcp. unfold bind at 1, put.
  rewrite Z.geb_leb. by destruct (len data <=? start + 4096).
Qed.

Lemma copy_data_loop_spec fuel : ∀ s start vpn,
  pmem_wf (ram s) → pt_wf (ram s) pt → pt_separate (ram s) pt → pt_inj (ram s) (root_ppn pt) →
  0 ≤ start ≤ len data → len data < 2 ^ 63 → len data - start < Z.of_nat fuel →
  0 ≤ vpn → vpn * PAGE_SIZE + Z.max 1 (len data - start) ≤ 2 ^ 39 →
  user_mapped (ram s) (root_ppn pt) (vpn * PAGE_SIZE) (Z.max 1 (len data - start)) →
  ∃ s', copy_data_loop fuel pt data start vpn s = Ok (tt, s') ∧
    frame_allocator s' = frame_allocator s ∧
    user_written (ram s) pt (vpn * PAGE_SIZE) (drop (Z.to_nat start) data) (ram s').
Proof.
  induction fuel as [|fuel IH]; intros s start vpn Hm Hwf Hsep Hinj Hs Hl Hf Hv Hend Hmap; [lia|].
  destruct (user_mapped_lookup _ _ _ _ (vpn * PAGE_SIZE) Hmap) as [e E]; [lia|].
  pose proof E as E2. rewrite Z.div_mul in E by done.
  rewrite (copy_data_round fuel s start vpn e) by done.
  set (n := Z.min (len data) (start + PAGE_SIZE) - start).
  set (rest := drop (Z.to_nat start) data).
  assert (Hrest : len rest = len data - start) by (unfold len, rest in *; rewrite length_drop; lia).
  set (s1 := mkMM _ _).
  assert (W1 : user_written (ram s) pt (vpn * PAGE_SIZE) (take (Z.to_nat n) rest) (ram s1)).
  { destruct (decide (len rest = 0)) as [E0|Hne].
    - assert (take (Z.to_nat n) rest = []) as Hnil.
      { unfold len in E0. destruct rest; [by rewrite take_nil|simpl in E0; lia]. }
      unfold s1. fold n rest. rewrite Hnil. unfold splice. cbn [length]. rewrite take_0, !app_nil_l, drop_0. cbn [ram].
      apply user_written_same; [|intros q; unfold set_bytes_array|done].
      + apply pmem_wf_insert; [done|by apply length_get_bytes_array|by apply bytes_get_bytes_array].
      + destruct (decide (PageTableEntry_ppn e = q)) as [<-|];
          [apply get_bytes_array_insert_eq|by apply get_bytes_array_insert_ne].
    - assert (0 ≤ vpn * PAGE_SIZE) by (unfold PAGE_SIZE; lia).
      pose proof (len_nonneg rest). rewrite Z.max_r in Hend, Hmap by lia.
      destruct (write_chunk_spec (ram s) pt (vpn * PAGE_SIZE) (vpn * PAGE_SIZE + len rest) e rest)
        as (m' & Hrun & W); try done; try lia.
      { unfold chunk_end. rewrite Z.div_mul by done. unfold PAGE_SIZE. lia. }
      { by apply Forall_drop. }
      assert (Hce : chunk_end (vpn * PAGE_SIZE) (vpn * PAGE_SIZE + len rest) - vpn * PAGE_SIZE = n).
      { unfold chunk_end, n. rewrite Z.div_mul by done. unfold PAGE_SIZE. lia. }
      rewrite Hce in Hrun, W. rewrite Z.mod_mul in Hrun by done. unfold copy_slice in Hrun.
      cbn [slice_lo slice_hi slice_ppn] in Hrun.
      destruct (Z.ltb_spec (len rest) (0 + n - 0)); [done|]. injection Hrun as <-.
      unfold s1. cbn [ram]. fold n rest. by replace (0 + n - 0) with n in W by lia. }
  destruct (Z.leb_spec (len data) (start + PAGE_SIZE)).
  - exists s1. split_and!; [done|done|]. rewrite take_ge in W1; [done|].
    unfold len in *. unfold n. lia.
  - destruct (user_written_stable _ _ _ _ _ Hwf W1) as (Hwf1 & Hsep1 & Hinj1); [done|done|].
    unfold step, PageNum_step. unfold PAGE_SIZE in *. rewrite uadd_small by lia.
    destruct (IH s1 (start + 4096) (vpn + 1)) as (s2 & Hrun & Hfa & W2); try done; try lia.
    { apply W1. }
    { intros va Hva. unfold user_pa. rewrite (user_written_lookup _ _ _ _ _ _ Hwf W1).
      apply Hmap. lia. }
    exists s2. split_and!; [done|by rewrite Hfa|].
    assert (Hn : n = 4096) by (unfold n; lia). rewrite Hn in W1.
    replace rest with (take (Z.to_nat 4096) rest ++ drop (Z.to_nat (start + 4096)) data).
    + eapply user_written_trans; [done|exact W1|].
      replace (vpn * 4096 + len (take (Z.to_nat 4096) rest)) with ((vpn + 1) * 4096); [done|].
      unfold len in *. rewrite length_take. lia.
    + rewrite <- (take_drop (Z.to_nat 4096) rest) at 2. f_equal. unfold rest. rewrite drop_drop. f_equal. lia.
Qed.
End copy.

(** What a user program reads. *)
Definition um (s : mm) (ms : MemorySet) (va : Z) : Z :=
  user_byte (ram s) (root_ppn (page_table ms)) va.

Section push.
Context (l r : Z) (base : Z → option Z).
Context (Hbase : ∀ v e, base v = Some e → 0 ≤ PageTableEntry_ppn e < l).
Context (Huniq : ∀ v v' e e', base v = Some e → base v' = Some e' → v = v').

(** New pages read as zeroes, the others as before. *)
Lemma area_step_user_byte s live ms s' pt' newt dm perm va :
  mm_inv l r s live → uspace base s live ms → 0 ≤ perm < 256 →
  area_step l r s live (page_table ms) s' pt' newt dm
    (framed_tr dm perm (pt_lookup (ram s) (root_ppn (page_table ms)))) →
  0 ≤ va < 2 ^ 39 →
  user_byte (ram s') (root_ppn pt') va =
  if decide (va / PAGE_SIZE ∈ dom dm) then 0 else um s ms va.
Proof.
  intros Hinv U Hp G Hva. pose proof (va_vpn va Hva) as Hv. unfold um.
  pose proof (as_lookup _ _ _ _ _ _ _ _ _ _ G _ Hv) as Hl. unfold framed_tr in Hl.
  rewrite (as_root _ _ _ _ _ _ _ _ _ _ G). pose proof (as_inv _ _ _ _ _ _ _ _ _ _ G) as Hinv'.
  pose proof (Z.mod_pos_bound va PAGE_SIZE eq_refl) as Hm.
  destruct (dm !! (va / PAGE_SIZE)) as [f|] eqn:E.
  - rewrite decide_True by (by eapply elem_of_dom_2).
    rewrite (user_byte_page _ _ _ _ Hl). unfold load_byte.
    assert (Hf : 0 ≤ f < 2 ^ 44).
    { apply (live_range l r s' _ f Hinv'). apply elem_of_union. right. apply elem_of_img. eauto. }
    rewrite PageTableEntry_ppn_new by (done || by apply lor_V_range).
    rewrite (proj1 (page_addr_div _ _ Hm)), (proj2 (page_addr_div _ _ Hm)).
    rewrite (as_zero _ _ _ _ _ _ _ _ _ _ G _ _ E). unfold zero_page.
    apply lookup_total_replicate_2. rewrite page_len_nat. unfold PAGE_SIZE in *. lia.
  - rewrite decide_False by (by apply not_elem_of_dom).
    destruct (pt_lookup (ram s) (root_ppn (page_table ms)) (va / PAGE_SIZE)) as [e|] eqn:Ee.
    + rewrite (user_byte_page _ _ _ _ Hl), (user_byte_page _ _ _ _ Ee). unfold load_byte.
      rewrite (proj1 (page_addr_div _ _ Hm)). f_equal.
      pose proof Ee as Ea. rewrite (us_lookup _ _ _ _ U) in Ea by done.
      apply areas_tr_Some in Ea as [(a & f & Ha & Hf & ->)|Hb].
      * rewrite (data_frame_ppn l r _ Hinv U a _ f Ha Hf).
        destruct (data_frame_live l r _ Hinv U a _ f Ha Hf) as (? & ? & _).
        by apply (as_pages _ _ _ _ _ _ _ _ _ _ _ G).
      * apply Hbase in Hb. assert (Hn : PageTableEntry_ppn e ∉ live ∪ list_to_set newt ∪ img dm).
        { intros Hin. apply (live_range l r s') in Hin; [lia|done]. }
        apply (as_other _ _ _ _ _ _ _ _ _ _ G); [|set_solver].
        rewrite (as_frames _ _ _ _ _ _ _ _ _ _ G). intros [Hf|Hf]%elem_of_app; [|set_solver].
        apply (uspace_frames_live _ U) in Hf. set_solver.
    + unfold user_byte, user_pa. rewrite Hl, Ee. done.
Qed.

(** The result of pushing the area [a] with the bytes [d] at its start. *)
Record pushed (s : mm) (live : gset Z) (ms : MemorySet) (a : MapArea) (d : list Z)
    (s' : mm) (live' : gset Z) (ms' : MemorySet) : Prop := {
  pu_inv : mm_inv l r s' live';
  pu_space : uspace base s' live' ms';
  pu_sub : live ⊆ live';
  pu_areas : ∃ dm, areas ms' = areas ms ++ [mkArea (vpn_range a) dm Framed (map_perm a)];
  pu_bytes va : 0 ≤ va < 2 ^ 39 →
    um s' ms' va =
    if decide (range_l (vpn_range a) * PAGE_SIZE ≤ va < range_l (vpn_range a) * PAGE_SIZE + len d)
    then d !!! Z.to_nat (va - range_l (vpn_range a) * PAGE_SIZE)
    else if decide (va / PAGE_SIZE ∈ range_vpns a) then 0 else um s ms va;
  pu_owned f : f ∈ owned ms' → f ∈ owned ms ∨ f ∉ live;
  pu_pages q : q ∈ live → q ∉ owned ms → get_bytes_array (ram s') q = get_bytes_array (ram s) q;
  pu_free : mm_free s - 3 * len (range_vpns a) ≤ mm_free s';
}.

Lemma push_none_pushed s live ms a :
  mm_inv l r s live → uspace base s live ms → new_area_ok s ms a →
  3 * len (range_vpns a) ≤ mm_free s →
  ∃ s' live' ms', MemorySet_push ms a None s = Ok (ms', s') ∧ pushed s live ms a [] s' live' ms'.
Proof.
  intros Hinv U Ha Hfree.
  destruct (push_spec l r base s live ms a Hinv U Ha Hfree)
    as (pt' & s' & newt & dm & Hrun & Hdom & Hlen & G & U').
  eexists s', _, _. split; [exact Hrun|].
  assert (Hsz : Z.of_nat (size dm) = len (range_vpns a)).
  { rewrite <- size_dom, Hdom, size_list_to_set; [done|apply NoDup_seqZ]. }
  split; [apply G|exact U'|set_solver|by eexists| | | |].
  - intros va Hva. rewrite decide_False by (unfold len; simpl; lia). unfold um at 1. cbn [page_table].
    rewrite (area_step_user_byte s live ms s' pt' newt dm (map_perm a) va) by (done || apply Ha).
    rewrite Hdom. apply decide_ext. by rewrite elem_of_list_to_set.
  - intros f Hf. apply (elem_of_list_to_set (C := gset Z)) in Hf.
    rewrite (owned_push ms pt' newt) in Hf by apply G.
    apply elem_of_union in Hf as [[Hf|Hf]%elem_of_union|Hf].
    + left. by apply elem_of_list_to_set in Hf.
    + right. apply (as_fresh _ _ _ _ _ _ _ _ _ _ G). by apply elem_of_list_to_set in Hf.
    + right. apply elem_of_img in Hf as [v Hv]. by apply (as_dfresh _ _ _ _ _ _ _ _ _ _ G v f).
  - intros q Hq Hn. apply (as_pages _ _ _ _ _ _ _ _ _ _ _ G); [done|].
    intros Hp. apply Hn. unfold owned. apply elem_of_app. by left.
  - rewrite (as_free _ _ _ _ _ _ _ _ _ _ G). lia.
Qed.

Lemma push_some_run ms a d s pt' a' s1 :
  map_type a' = Framed →
  MemorySet_push ms a None s = Ok (mkMS pt' (areas ms ++ [a']), s1) →
  MemorySet_push ms a (Some d) s =
  (copy_data_loop (S (length d)) pt' d 0 (range_l (vpn_range a')) ;;
   ret (mkMS pt' (areas ms ++ [a']))) s1.
Proof.
  intros Ht. unfold MemorySet_push, bind.
  destruct (MapArea_map a (page_table ms) s) as [[[a1 pt1] s2]|]; [|done].
  unfold ret. intros [= -> Ea ->]. apply app_inv_head in Ea. injection Ea as ->.
  unfold MapArea_copy_data. rewrite Ht. done.
Qed.

(** The pages of the last area are mapped. *)
Lemma pushed_mapped s live ms a s' live' ms' n :
  pushed s live ms a [] s' live' ms' → new_area_ok s ms a → n ≤ len (range_vpns a) * PAGE_SIZE →
  user_mapped (ram s') (root_ppn (page_table ms')) (range_l (vpn_range a) * PAGE_SIZE) n.
Proof.
  intros P Ha Hn va Hva. destruct (pu_areas _ _ _ _ _ _ _ _ P) as [dm Ea].
  destruct (na_range _ _ _ Ha) as [? ?].
  set (b := mkArea (vpn_range a) dm Framed (map_perm a)) in *.
  assert (Hb : b ∈ areas ms') by (rewrite Ea; set_solver).
  pose proof (us_areas _ _ _ _ (pu_space _ _ _ _ _ _ _ _ P)) as Hok. rewrite Forall_forall in Hok.
  assert (Hv : va / PAGE_SIZE ∈ range_vpns b).
  { apply elem_of_seqZ. unfold b. cbn [vpn_range]. unfold len, range_vpns in Hn. rewrite length_seqZ in Hn.
    unfold PAGE_SIZE in *. split; [apply Z.div_le_lower_bound; lia|apply Z.div_lt_upper_bound; lia]. }
  destruct (uarea_page b _ (Hok b Hb) Hv) as [f Hf].
  unfold user_pa. rewrite (uspace_lookup _ (pu_space _ _ _ _ _ _ _ _ P) b _ f Hb Hf). simpl. eauto.
Qed.

Lemma user_written_uspace s live ms ptr d s' :
  mm_inv l r s live → uspace base s live ms → frame_allocator s' = frame_allocator s →
  user_written (ram s) (page_table ms) ptr d (ram s') →
  mm_inv l r s' live ∧ uspace base s' live ms ∧
  (∀ q, q ∈ live → q ∉ owned ms → get_bytes_array (ram s') q = get_bytes_array (ram s) q).
Proof.
  intros Hinv U Hfa W. split_and!.
  - split; [rewrite Hfa; apply Hinv|apply W].
  - apply (uspace_local _ U). apply W.
  - intros q Hq Hn. apply (written_pages _ _ _ _ _ W). intros v e Hv.
    rewrite (us_lookup _ _ _ _ U) by done. intros [(a & f & Ha & Hf & ->)|Hb]%areas_tr_Some.
    + rewrite (data_frame_ppn l r _ Hinv U a v f Ha Hf). intros ->. apply Hn. unfold owned.
      apply elem_of_app. right. apply elem_of_areas_frames. eauto.
    + apply Hbase in Hb. apply (live_range l r s) in Hq; [lia|done].
Qed.

Lemma push_some_pushed s live ms a d :
  mm_inv l r s live → uspace base s live ms → new_area_ok s ms a →
  3 * len (range_vpns a) ≤ mm_free s → 0 < len (range_vpns a) →
  len d ≤ len (range_vpns a) * PAGE_SIZE → Forall is_byte d →
  ∃ s' live' ms', MemorySet_push ms a (Some d) s = Ok (ms', s') ∧ pushed s live ms a d s' live' ms'.
Proof.
  intros Hinv U Ha Hfree Hne Hd Hb.
  destruct (push_none_pushed s live ms a Hinv U Ha Hfree) as (s1 & live' & ms1 & Hrun & P).
  pose proof P as [I1 U1 S1 [dm Ea] B1 O1 P1 F1].
  destruct (na_range _ _ _ Ha) as [? ?].
  assert (Hlen : len (range_vpns a) = range_r (vpn_range a) - range_l (vpn_range a)).
  { unfold len, range_vpns. rewrite length_seqZ. lia. }
  destruct ms1 as [pt1 ar1]. simpl in Ea. subst ar1.
  rewrite (push_some_run _ _ _ _ _ _ _ (eq_refl : map_type (mkArea (vpn_range a) dm Framed (map_perm a)) = Framed) Hrun).
  destruct (copy_data_loop_spec pt1 d Hb (S (length d)) s1 0 (range_l (vpn_range a))) as (s2 & Hrun2 & Hfa & W).
  - apply I1.
  - apply U1.
  - apply (uspace_separate l r base I1 U1 Hbase).
  - apply (uspace_inj l r base I1 U1 Hbase Huniq).
  - pose proof (len_nonneg d). lia.
  - unfold PAGE_SIZE in *. lia.
  - unfold len. lia.
  - lia.
  - unfold PAGE_SIZE in *. lia.
  - apply (pushed_mapped s live ms a s1 live' _ _ P Ha). unfold PAGE_SIZE in *. lia.
  - rewrite drop_0 in W.
    destruct (user_written_uspace s1 live' _ _ _ s2 I1 U1 Hfa W) as (I2 & U2 & P2).
    eexists s2, live', _. split; [by rewrite (bind_run _ _ _ _ _ Hrun2)|].
    split; try done.
    + by eexists.
    + intros va Hva. unfold um at 1. cbn [page_table]. rewrite (written_bytes _ _ _ _ _ W) by done.
      destruct (decide _); [done|]. change (user_byte _ _ va) with (um s1 (mkMS pt1 (areas ms ++ [mkArea (vpn_range a) dm Framed (map_perm a)])) va).
      rewrite B1 by done. rewrite decide_False by (unfold len; simpl; lia). done.
    + intros q Hq Hn. rewrite P2; [by apply P1|by apply S1|]. intros [?|?]%O1; done.
    + unfold mm_free. rewrite Hfa. exact F1.
Qed.
End push.

(** ** [from_elf] *)
Definition load_ph (elf : ElfFile) (i : Z) : option ProgramHeader :=
  ph ← elf_program_header elf i;
  type ← ph_get_type ph;
  if type =? PT_LOAD then Some ph else None.
(** The segments to load, in file order. *)
Definition loads (elf : ElfFile) : list ProgramHeader :=
  omap (load_ph elf) (seqZ 0 (elf_ph_count elf)).

Definition ph_lo (ph : ProgramHeader) : Z := ph_virtual_addr ph / PAGE_SIZE.
Definition ph_hi (ph : ProgramHeader) : Z :=
  (ph_virtual_addr ph + ph_mem_size ph + 4095) / PAGE_SIZE.
Definition ph_vpns (ph : ProgramHeader) : list Z := seqZ (ph_lo ph) (ph_hi ph - ph_lo ph).

Record ph_ok (elf : ElfFile) (ph : ProgramHeader) : Prop := {
  pk_va : 0 ≤ ph_virtual_addr ph;
  pk_mem : 0 < ph_mem_size ph;
  pk_end : ph_virtual_addr ph + ph_mem_size ph ≤ 2 ^ 38 - 4096;
  pk_off : 0 ≤ ph_offset ph;
  pk_file : 0 ≤ ph_file_size ph ≤ ph_mem_size ph;
  pk_input : ph_offset ph + ph_file_size ph ≤ len (elf_input elf);
  pk_align : ph_virtual_addr ph mod PAGE_SIZE = ph_offset ph mod PAGE_SIZE;
}.

(** A well-formed executable: segments inside the file, in user space, on
    pages of their own, with congruent addresses and offsets. *)
Record elf_ok (elf : ElfFile) : Prop := {
  eo_magic : elf_magic elf = [0x7f; 0x45; 0x4c; 0x46];
  eo_headers i : 0 ≤ i < elf_ph_count elf →
    ∃ ph type, elf_program_header elf i = Some ph ∧ ph_get_type ph = Some type;
  eo_loads : Forall (ph_ok elf) (loads elf);
  eo_pages : NoDup (loads elf ≫= ph_vpns);
  eo_bytes : Forall is_byte (elf_input elf);
  eo_size : len (elf_input elf) < 2 ^ 63;
}.

(** The segment is in user memory: the bytes of the file, then zeroes. *)
Definition segment_loaded (s : mm) (ms : MemorySet) (elf : ElfFile) (ph : ProgramHeader) : Prop :=
  (∀ i, 0 ≤ i < ph_file_size ph →
     um s ms (ph_virtual_addr ph + i) = elf_input elf !!! Z.to_nat (ph_offset ph + i)) ∧
  (∀ i, ph_file_size ph ≤ i < ph_mem_size ph → um s ms (ph_virtual_addr ph + i) = 0).

Section segment.
Context (elf : ElfFile) (ph : ProgramHeader) (Hph : ph_ok elf ph).

Definition ph_area : MapArea := mkArea (mkRange (ph_lo ph) (ph_hi ph)) ∅ Framed (ph_map_perm ph).
(** The bytes [from_elf] copies: from the page boundary below the offset. *)
Definition ph_data : list Z :=
  take (Z.to_nat (ph_offset ph mod PAGE_SIZE + ph_file_size ph))
    (drop (Z.to_nat (ph_offset ph - ph_offset ph mod PAGE_SIZE)) (elf_input elf)).

Lemma ph_bounds :
  0 ≤ ph_lo ph < ph_hi ph ∧ ph_hi ph < 2 ^ 26 ∧
  ph_lo ph * PAGE_SIZE = ph_virtual_addr ph - ph_virtual_addr ph mod PAGE_SIZE ∧
  ph_virtual_addr ph + ph_mem_size ph ≤ ph_hi ph * PAGE_SIZE.
Proof.
  destruct Hph. unfold ph_lo, ph_hi, PAGE_SIZE in *.
  set (e := ph_virtual_addr ph + ph_mem_size ph) in *.
  pose proof (Z.div_mod (ph_virtual_addr ph) 4096). pose proof (Z.mod_pos_bound (ph_virtual_addr ph) 4096).
  pose proof (Z.div_mod (e + 4095) 4096). pose proof (Z.mod_pos_bound (e + 4095) 4096). lia.
Qed.

Lemma ph_area_new :
  MapArea_new (VirtAddr_from (ph_virtual_addr ph))
    (VirtAddr_from (ph_virtual_addr ph +u ph_mem_size ph)) Framed (ph_map_perm ph) = Ok ph_area.
Proof.
  destruct ph_bounds as (Hlo & Hhi & _ & _). destruct Hph. unfold MapArea_new.
  rewrite uadd_small, !VirtAddr_from_mod, !Z.mod_small by lia.
  unfold VirtAddr_floor, VirtAddr_ceil. rewrite usub_small, uadd_small by (unfold PAGE_SIZE; lia).
  replace (ph_virtual_addr ph + ph_mem_size ph - 1 + PAGE_SIZE)
    with (ph_virtual_addr ph + ph_mem_size ph + 4095) by (unfold PAGE_SIZE; lia).
  fold (ph_lo ph) (ph_hi ph).
  rewrite (proj2 (VPNRange_new_Ok (ph_lo ph) (ph_hi ph) _)) by (split; [lia|done]). done.
Qed.

Lemma ph_data_slice :
  len (elf_input elf) < 2 ^ 63 →
  slice (elf_input elf) (ph_offset ph -u ph_offset ph mod 4096) (ph_offset ph +u ph_file_size ph) = Ok ph_data.
Proof.
  intros Hl. destruct Hph. pose proof (Z.mod_pos_bound (ph_offset ph) 4096).
  pose proof (Z.mod_le (ph_offset ph) 4096).
  rewrite usub_small, uadd_small by lia. apply slice_Ok. split; [lia|]. unfold ph_data, PAGE_SIZE.
  do 2 f_equal. lia.
Qed.

Lemma ph_data_len : len ph_data = ph_offset ph mod PAGE_SIZE + ph_file_size ph.
Proof.
  destruct Hph. unfold ph_data, len, PAGE_SIZE in *. pose proof (Z.mod_pos_bound (ph_offset ph) 4096).
  pose proof (Z.mod_le (ph_offset ph) 4096). rewrite length_take, length_drop. lia.
Qed.

Lemma ph_perm_range : 0 ≤ ph_map_perm ph < 256.
Proof. unfold ph_map_perm. by destruct (ph_is_read ph), (ph_is_write ph), (ph_is_execute ph). Qed.

Lemma ph_va_vpn i :
  0 ≤ i < ph_mem_size ph → (ph_virtual_addr ph + i) / PAGE_SIZE ∈ ph_vpns ph.
Proof.
  intros Hi. destruct ph_bounds as (? & ? & E & ?). apply elem_of_seqZ. unfold PAGE_SIZE in *.
  pose proof (Z.mod_pos_bound (ph_virtual_addr ph) 4096). destruct Hph.
  split; [apply Z.div_le_lower_bound; lia|apply Z.div_lt_upper_bound; lia].
Qed.

(** Pushing the segment loads it. *)
Lemma pushed_segment l r base s live ms s' live' ms' :
  pushed l r base s live ms ph_area ph_data s' live' ms' → segment_loaded s' ms' elf ph.
Proof.
  intros P. pose proof ph_bounds as (? & ? & E & ?). pose proof ph_data_len as Hl.
  pose proof Hph as [Hva Hmem Hend Hoff Hfile Hin Hal]. pose proof (len_nonneg ph_data).
  pose proof (Z.mod_pos_bound (ph_offset ph) PAGE_SIZE eq_refl) as Hmo.
  pose proof (Z.mod_le (ph_offset ph) PAGE_SIZE Hoff eq_refl) as Hmo2.
  split; intros i Hi; rewrite (pu_bytes _ _ _ _ _ _ _ _ _ _ _ P) by lia;
    cbn [vpn_range ph_area range_l]; rewrite E, Hl, Hal.
  - rewrite decide_True by lia. unfold ph_data. rewrite !list_lookup_total_alt, lookup_take_lt, lookup_drop by lia.
    do 2 f_equal. lia.
  - rewrite decide_False by lia. rewrite decide_True; [done|]. apply ph_va_vpn. lia.
Qed.
End segment.

Section load.
Context (l r : Z) (ld : linker_symbols) (Htramp : tramp_ok ld l).
Context (elf : ElfFile) (Helf : elf_ok elf) (s : mm) (live : gset Z) (Hinv0 : mm_inv l r s live).

Abbreviation base := (tramp_base ld).

(** After the program headers that give the segments [phs]. *)
Record elf_inv (phs : list ProgramHeader) (acc : MemorySet * Z) (s' : mm) : Prop := {
  ei_state : ∃ live', mm_inv l r s' live' ∧ uspace base s' live' acc.1 ∧ live ⊆ live';
  ei_fresh f : f ∈ owned acc.1 → f ∉ live;
  ei_pages : areas acc.1 ≫= range_vpns = phs ≫= ph_vpns;
  ei_loaded : Forall (segment_loaded s' acc.1 elf) phs;
  ei_other q : q ∈ live → get_bytes_array (ram s') q = get_bytes_array (ram s) q;
  ei_free : mm_free s - 3 - 3 * len (phs ≫= ph_vpns) ≤ mm_free s';
  ei_end : acc.2 = from_option ph_hi 0 (last phs);
}.

(** The pages of the segments are below the user stack. *)
Lemma load_vpn_small ph v : ph_ok elf ph → v ∈ ph_vpns ph → 0 ≤ v < 2 ^ 26.
Proof. intros Hph Hv%elem_of_seqZ. pose proof (ph_bounds elf ph Hph). lia. Qed.

Lemma tramp_base_small v : v < tramp_vpn → base v = None.
Proof. intros. unfold tramp_base. rewrite decide_False; [done|lia]. Qed.

(** An area of pages none of which is among those of [ms]. *)
Lemma fresh_area_ok s1 live1 ms a :
  uspace base s1 live1 ms → map_type a = Framed → 0 ≤ map_perm a < 256 → data_frames a = ∅ →
  0 ≤ range_l (vpn_range a) ≤ range_r (vpn_range a) → range_r (vpn_range a) ≤ tramp_vpn →
  (∀ v, v ∈ range_vpns a → v ∉ areas ms ≫= range_vpns) → new_area_ok s1 ms a.
Proof.
  intros U Ht Hp He Hr Hr2 Hdis. split; try done.
  { unfold tramp_vpn in *. lia. }
  intros v Hv. pose proof Hv as Hv2%elem_of_seqZ.
  rewrite (us_lookup _ _ _ _ U) by (unfold is_vpn, tramp_vpn in *; lia).
  apply areas_tr_None. split; [apply tramp_base_small; lia|].
  intros b Hb. destruct (data_frames b !! v) as [f|] eqn:Ef; [|done]. exfalso.
  apply (Hdis v Hv). apply list_elem_of_bind. exists b. split; [|done].
  pose proof (us_areas _ _ _ _ U) as Hok. rewrite Forall_forall in Hok.
  exact (proj1 (uarea_lookup b v f (Hok b Hb) Ef)).
Qed.

Lemma pushed_owned phs ms mx s1 live1 a d s2 live2 ms2 f :
  elf_inv phs (ms, mx) s1 → live ⊆ live1 → pushed l r base s1 live1 ms a d s2 live2 ms2 →
  f ∈ owned ms2 → f ∉ live.
Proof.
  intros I Hs P [Hf|Hf]%(pu_owned _ _ _ _ _ _ _ _ _ _ _ P); [by apply (ei_fresh _ _ _ I)|].
  intros Hl. apply Hf. by apply Hs.
Qed.

Lemma segment_preserved phs ms s1 live1 a d s2 live2 ms2 ph :
  pushed l r base s1 live1 ms a d s2 live2 ms2 →
  0 ≤ range_l (vpn_range a) → len d ≤ len (range_vpns a) * PAGE_SIZE →
  (∀ v, v ∈ range_vpns a → v ∉ phs ≫= ph_vpns) → ph ∈ phs → ph_ok elf ph →
  segment_loaded s1 ms elf ph → segment_loaded s2 ms2 elf ph.
Proof.
  intros P Hr Hd Hdis Hin Hph [H1 H2].
  assert (Hsame : ∀ i, 0 ≤ i < ph_mem_size ph →
    um s2 ms2 (ph_virtual_addr ph + i) = um s1 ms (ph_virtual_addr ph + i)).
  { intros i Hi. pose proof (ph_va_vpn elf ph Hph i Hi) as Hv. destruct Hph.
    rewrite (pu_bytes _ _ _ _ _ _ _ _ _ _ _ P) by lia.
    assert (Hn : (ph_virtual_addr ph + i) / PAGE_SIZE ∉ range_vpns a).
    { intros Ha. apply (Hdis _ Ha). apply list_elem_of_bind. eauto. }
    rewrite decide_False, decide_False; [done|done|]. intros Hva. apply Hn.
    apply elem_of_seqZ. unfold len, range_vpns in Hd. rewrite length_seqZ in Hd. unfold PAGE_SIZE, len in *.
    split; [apply Z.div_le_lower_bound; lia|apply Z.div_lt_upper_bound; lia]. }
  destruct Hph. split; intros i Hi; rewrite Hsame by lia; [by apply H1|by apply H2].
Qed.

Lemma elf_step phs ph ms mx s1 i :
  elf_inv phs (ms, mx) s1 → load_ph elf i = Some ph → ph_ok elf ph → Forall (ph_ok elf) phs →
  NoDup ((phs ++ [ph]) ≫= ph_vpns) → 3 * len (ph_vpns ph) ≤ mm_free s1 →
  ∃ acc' s2, from_elf_ph elf (ms, mx) i s1 = Ok (acc', s2) ∧ elf_inv (phs ++ [ph]) acc' s2.
Proof.
  intros I Ei Hph Hphs Hnd Hfree. destruct (ei_state _ _ _ I) as (live1 & I1 & U1 & S1). simpl in U1.
  rewrite bind_app, bind_cons, app_nil_r in Hnd. apply NoDup_app in Hnd as (_ & Hdis & _).
  pose proof (ph_bounds elf ph Hph) as (Hb1 & Hb2 & Hb3 & Hb4).
  assert (Hna : new_area_ok s1 ms (ph_area ph)).
  { apply (fresh_area_ok s1 live1); try done; simpl; try lia.
    - apply ph_perm_range.
    - unfold tramp_vpn. lia.
    - intros v Hv. pose proof (ei_pages _ _ _ I) as Hpg. simpl in Hpg. rewrite Hpg.
      intros Hin. by apply (Hdis v). }
  assert (Hd : len (ph_data elf ph) ≤ len (range_vpns (ph_area ph)) * PAGE_SIZE).
  { rewrite (ph_data_len elf ph Hph). change (range_vpns (ph_area ph)) with (ph_vpns ph).
    unfold len, ph_vpns. rewrite length_seqZ. destruct Hph. unfold PAGE_SIZE in *. lia. }
  destruct (push_some_pushed l r base (tramp_base_ppn l ld Htramp) (tramp_base_uniq ld)
    s1 live1 ms (ph_area ph) (ph_data elf ph) I1 U1 Hna) as (s2 & live2 & ms2 & Hrun & P); try done.
  { change (range_vpns (ph_area ph)) with (ph_vpns ph). unfold len, ph_vpns. rewrite length_seqZ. lia. }
  { apply Forall_take, Forall_drop, Helf. }
  exists (ms2, ph_hi ph), s2. split.
  - unfold load_ph in Ei. unfold from_elf_ph.
    destruct (elf_program_header elf i) as [ph'|]; [|done]. simpl in Ei.
    destruct (ph_get_type ph') as [type|] eqn:Et; [|done]. simpl in Ei.
    destruct (type =? PT_LOAD) eqn:Ety; [|done]. injection Ei as ->.
    unfold bind at 1 2. unfold lift at 1 2. cbn [unwrap]. rewrite Et. cbn [unwrap]. rewrite Ety.
    rewrite (ph_area_new elf ph Hph), (ph_data_slice elf ph Hph) by apply Helf.
    unfold bind at 1 2. unfold lift. by rewrite (bind_run _ _ _ _ _ Hrun).
  - destruct (pu_areas _ _ _ _ _ _ _ _ _ _ _ P) as [dm Ea]. split; simpl.
    + exists live2. split_and!; [apply P|apply P|]. etransitivity; [exact S1|apply P].
    + intros f. by apply (pushed_owned phs ms mx s1 live1 (ph_area ph) (ph_data elf ph) s2 live2).
    + rewrite Ea, !bind_app, !bind_cons. pose proof (ei_pages _ _ _ I) as Hpg. simpl in Hpg. by rewrite Hpg.
    + apply Forall_app. split; [|by repeat constructor; apply (pushed_segment elf ph Hph l r base s1 live1 ms s2 live2)].
      pose proof (ei_loaded _ _ _ I) as Hold. rewrite Forall_forall in Hold, Hphs |- *. intros p Hp.
      apply (segment_preserved phs ms s1 live1 (ph_area ph) (ph_data elf ph) s2 live2 ms2 p P); try done; try (by apply Hphs).
      * simpl. lia.
      * intros v Hv Hin. by apply (Hdis v).
      * by apply Hold.
    + intros q Hq. rewrite (pu_pages _ _ _ _ _ _ _ _ _ _ _ P); [by apply (ei_other _ _ _ I)|by apply S1|].
      intros Ho. by apply (ei_fresh _ _ _ I q).
    + pose proof (pu_free _ _ _ _ _ _ _ _ _ _ _ P). pose proof (ei_free _ _ _ I).
      change (range_vpns (ph_area ph)) with (ph_vpns ph) in *.
      rewrite bind_app, bind_cons, app_nil_r. unfold len in *. rewrite length_app. lia.
    + by rewrite last_snoc.
Qed.

Lemma loads_split pre i post :
  seqZ 0 (elf_ph_count elf) = pre ++ i :: post →
  loads elf = omap (load_ph elf) pre ++ omap (load_ph elf) (i :: post) ∧ 0 ≤ i < elf_ph_count elf.
Proof.
  intros E. unfold loads. rewrite E, omap_app. split; [done|].
  assert (Hi : i ∈ seqZ 0 (elf_ph_count elf)) by (rewrite E; set_solver).
  apply elem_of_seqZ in Hi. lia.
Qed.

Lemma elf_loop ms s1 :
  elf_inv [] (ms, 0) s1 → 3 + 3 * len (loads elf ≫= ph_vpns) ≤ mm_free s →
  ∃ acc s2, fold_m (from_elf_ph elf) (seqZ 0 (elf_ph_count elf)) (ms, 0) s1 = Ok (acc, s2) ∧
    elf_inv (loads elf) acc s2.
Proof.
  intros I0 Hfree.
  apply (fold_m_inv (λ pre acc s', elf_inv (omap (load_ph elf) pre) acc s')); [|done].
  intros pre i post [ms1 mx1] s2 E I. destruct (loads_split pre i post E) as [El Hi].
  pose proof (eo_loads _ Helf) as Hok. pose proof (eo_pages _ Helf) as Hnd. rewrite El in Hok, Hnd, Hfree.
  rewrite omap_app. destruct (load_ph elf i) as [ph|] eqn:Ei.
  - assert (Eo : omap (load_ph elf) (i :: post) = ph :: omap (load_ph elf) post) by (simpl; by rewrite Ei).
    rewrite Eo in Hok, Hnd, Hfree. apply Forall_app in Hok as [Hok [Hph _]%Forall_cons].
    assert (Es : omap (load_ph elf) [i] = [ph]) by (simpl; by rewrite Ei). rewrite Es.
    apply (elf_step (omap (load_ph elf) pre) ph ms1 mx1 s2 i); try done.
    + rewrite bind_app, bind_cons in Hnd. rewrite bind_app, bind_cons, app_nil_r.
      rewrite app_assoc in Hnd. by apply NoDup_app in Hnd as [? _].
    + pose proof (ei_free _ _ _ I). rewrite bind_app, bind_cons in Hfree. unfold len in *.
      rewrite !length_app in Hfree. lia.
  - assert (Es : omap (load_ph elf) [i] = []) by (simpl; by rewrite Ei). rewrite Es, app_nil_r.
    exists (ms1, mx1), s2. split; [|done].
    destruct (eo_headers _ Helf i Hi) as (ph & type & E1 & E2).
    unfold load_ph in Ei. rewrite E1 in Ei. simpl in Ei. rewrite E2 in Ei. simpl in Ei.
    unfold from_elf_ph. rewrite E1. unfold bind, lift. cbn [unwrap]. rewrite E2. cbn [unwrap].
    by destruct (type =? PT_LOAD).
Qed.

(** The fixed pages at the top: user stack and trap frame. *)
Definition stack_area : MapArea := mkArea (mkRange (2 ^ 27 - 8) (2 ^ 27 - 4)) ∅ Framed 22.
Definition trapframe_area : MapArea := mkArea (mkRange (2 ^ 27 - 2) (2 ^ 27 - 1)) ∅ Framed 6.

Lemma stack_area_new :
  MapArea_new (VirtAddr_from (TRAPFRAME -u USER_STACK_SIZE -u USER_STACK_SIZE *u 2))
    (VirtAddr_from (TRAPFRAME -u USER_STACK_SIZE)) Framed
    (Z.lor (Z.lor MapPermission_R MapPermission_W) MapPermission_U) = Ok stack_area.
Proof. reflexivity. Qed.
Lemma trapframe_area_new :
  MapArea_new (VirtAddr_from TRAPFRAME) (VirtAddr_from TRAMPOLINE) Framed
    (Z.lor MapPermission_R MapPermission_W) = Ok trapframe_area.
Proof. reflexivity. Qed.

(** Pushing a fixed area, at page [lo] above the segments. *)
Lemma push_fixed ms s1 vs lo hi perm :
  0 ≤ perm < 256 → 2 ^ 26 ≤ lo ≤ hi → hi ≤ tramp_vpn → (∀ v, v ∈ vs → lo ≤ v < hi → False) →
  let a := mkArea (mkRange lo hi) ∅ Framed perm in
  (∃ live', mm_inv l r s1 live' ∧ uspace base s1 live' ms ∧ live ⊆ live') →
  (∀ f, f ∈ owned ms → f ∉ live) → areas ms ≫= range_vpns = (loads elf ≫= ph_vpns) ++ vs →
  Forall (segment_loaded s1 ms elf) (loads elf) →
  (∀ q, q ∈ live → get_bytes_array (ram s1) q = get_bytes_array (ram s) q) →
  3 * (hi - lo) ≤ mm_free s1 →
  ∃ ms2 s2, MemorySet_push ms a None s1 = Ok (ms2, s2) ∧
    (∃ live', mm_inv l r s2 live' ∧ uspace base s2 live' ms2 ∧ live ⊆ live') ∧
    (∀ f, f ∈ owned ms2 → f ∉ live) ∧
    areas ms2 ≫= range_vpns = (loads elf ≫= ph_vpns) ++ vs ++ seqZ lo (hi - lo) ∧
    Forall (segment_loaded s2 ms2 elf) (loads elf) ∧
    (∀ q, q ∈ live → get_bytes_array (ram s2) q = get_bytes_array (ram s) q) ∧
    mm_free s1 - 3 * (hi - lo) ≤ mm_free s2.
Proof.
  intros Hp Hlo Hhi Hvs a (live1 & I1 & U1 & S1) Hfr Hpg Hseg Hq Hfree.
  assert (Hlen : len (range_vpns a) = hi - lo) by (unfold len, range_vpns; rewrite length_seqZ; simpl; lia).
  assert (Hdis : ∀ v, v ∈ range_vpns a → v ∉ loads elf ≫= ph_vpns).
  { intros v Hv%elem_of_seqZ (ph & Hv2 & Hph)%list_elem_of_bind. simpl in Hv.
    pose proof (eo_loads _ Helf) as Hok. rewrite Forall_forall in Hok.
    apply load_vpn_small in Hv2; [lia|by apply Hok]. }
  assert (Hna : new_area_ok s1 ms a).
  { apply (fresh_area_ok s1 live1); try done; simpl; try lia. intros v Hv. rewrite Hpg.
    intros [Hin|Hin]%elem_of_app; [by apply (Hdis v)|]. apply (Hvs v Hin). apply elem_of_seqZ in Hv. simpl in Hv. lia. }
  destruct (push_none_pushed l r base (tramp_base_ppn l ld Htramp) (tramp_base_uniq ld) s1 live1 ms a I1 U1 Hna)
    as (s2 & live2 & ms2 & Hrun & P); [lia|].
  exists ms2, s2. destruct (pu_areas _ _ _ _ _ _ _ _ _ _ _ P) as [dm Ea]. split_and!.
  - done.
  - exists live2. split_and!; [apply P|apply P|]. etransitivity; [exact S1|apply P].
  - intros f [Hf|Hf]%(pu_owned _ _ _ _ _ _ _ _ _ _ _ P); [by apply Hfr|]. intros Hl. apply Hf. by apply S1.
  - rewrite Ea, bind_app, bind_cons, Hpg, app_nil_r, <- app_assoc. done.
  - rewrite Forall_forall in Hseg |- *. intros ph Hph. pose proof (eo_loads _ Helf) as Hok. rewrite Forall_forall in Hok.
    apply (segment_preserved (loads elf) ms s1 live1 a [] s2 live2 ms2 ph P); try done; [simpl; lia| |by apply Hok|by apply Hseg].
    rewrite Hlen. unfold len, PAGE_SIZE. simpl. lia.
  - intros q Hin. rewrite (pu_pages _ _ _ _ _ _ _ _ _ _ _ P); [by apply Hq|by apply S1|]. intros Ho. by apply (Hfr q).
  - pose proof (pu_free _ _ _ _ _ _ _ _ _ _ _ P). lia.
Qed.
End load.

Lemma push_new_run ms start end_ type perm data a s :
  MapArea_new (VirtAddr_from start) (VirtAddr_from end_) type perm = Ok a →
  push_new ms start end_ type perm data s = MemorySet_push ms a data s.
Proof. intros E. unfold push_new, bind, lift. by rewrite E. Qed.

Lemma heap_start elf phs :
  Forall (ph_ok elf) phs →
  usize_from_VirtAddr (VirtAddr_from_VirtPageNum (from_option ph_hi 0 (last phs))) =
  from_option ph_hi 0 (last phs) * PAGE_SIZE.
Proof.
  intros Hok. assert (Hb : 0 ≤ from_option ph_hi 0 (last phs) < 2 ^ 26).
  { destruct (last phs) as [ph|] eqn:E; simpl; [|lia]. apply last_Some_elem_of in E.
    rewrite Forall_forall in Hok. pose proof (ph_bounds elf ph (Hok ph E)). lia. }
  unfold VirtAddr_from_VirtPageNum. rewrite Z.shiftl_mul_pow2 by done.
  change (2 ^ PAGE_SIZE_BITS) with 4096. unfold PAGE_SIZE.
  rewrite wrap64_small, usize_from_VirtAddr_eq by lia.
  destruct (Z.ltb_spec (from_option ph_hi 0 (last phs) * 4096) (2 ^ 38)); [done|lia].
Qed.

(** C6. [from_elf] loads a well-formed executable: with enough free frames it
    succeeds and returns a well-formed address space of new frames in which
    every byte of every loadable segment is at its virtual address, the rest
    of a segment's memory is zero, the four stack pages and the trap-frame
    page are mapped after the segments, the heap starts at the page after the
    last segment, the stack pointer is the top of the stack and the entry
    point is the file's; no live frame changes. *)
Theorem from_elf_loads l r ld elf s live :
  tramp_ok ld l → elf_ok elf → mm_inv l r s live →
  3 + 3 * (len (loads elf ≫= ph_vpns) + 5) ≤ mm_free s →
  ∃ ms s' live',
    MemorySet_from_elf ld elf s =
      Ok ((ms, from_option ph_hi 0 (last (loads elf)) * PAGE_SIZE, TRAPFRAME - USER_STACK_SIZE,
           elf_entry_point elf), s') ∧
    mm_inv l r s' live' ∧ uspace (tramp_base ld) s' live' ms ∧ live ⊆ live' ∧
    (∀ f, f ∈ owned ms → f ∉ live) ∧
    Forall (segment_loaded s' ms elf) (loads elf) ∧
    areas ms ≫= range_vpns =
      (loads elf ≫= ph_vpns) ++ [2^27 - 8; 2^27 - 7; 2^27 - 6; 2^27 - 5; 2^27 - 2] ∧
    (∀ q, q ∈ live → get_bytes_array (ram s') q = get_bytes_array (ram s) q).
Proof.
  intros Ht He Hinv Hfree. unfold MemorySet_from_elf. pose proof (len_nonneg (loads elf ≫= ph_vpns)).
  destruct (tramp_space_spec l r ld Ht s live Hinv) as (ms0 & s0 & Hrun0 & Ea & Hfr & I0 & U0 & Hpg & Hf & Hl); [lia|].
  assert (Ho : owned ms0 = frames (page_table ms0)).
  { unfold owned. rewrite Ea. apply app_nil_r. }
  unfold bind at 1 in Hrun0. unfold bind at 1. destruct (MemorySet_new_bare s) as [[ms00 s00]|]; [|done].
  rewrite (bind_run _ _ _ _ _ Hrun0), (eo_magic _ He).
  rewrite (bind_run _ _ s0 tt s0) by done.
  destruct (elf_loop l r ld Ht elf He s live Hinv ms0 s0) as ([ms1 mx] & s1 & Hrun1 & I1); [|lia|].
  { split; simpl; try done.
    - exists (live ∪ list_to_set (frames (page_table ms0))). split_and!; [done|done|set_solver].
    - intros f. rewrite Ho. apply Hfr.
    - by rewrite Ea.
    - unfold len at 1. simpl. lia. }
  rewrite (bind_run _ _ _ _ _ Hrun1). destruct I1 as [St1 Fr1 Pg1 Sg1 Ot1 Fe1 En1]. simpl in *.
  destruct (push_fixed l r ld Ht elf He s live ms1 s1 [] (2^27 - 8) (2^27 - 4) 22)
    as (ms2 & s2 & Hrun2 & St2 & Fr2 & Pg2 & Sg2 & Ot2 & Fe2); try done; try lia.
  { by intros v ?%not_elem_of_nil. }
  { by rewrite app_nil_r. }
  rewrite (bind_run _ _ s1 ms2 s2) by (by rewrite (push_new_run _ _ _ _ _ _ _ _ stack_area_new)).
  destruct (push_fixed l r ld Ht elf He s live ms2 s2 (seqZ (2^27 - 8) 4) (2^27 - 2) (2^27 - 1) 6)
    as (ms3 & s3 & Hrun3 & (live3 & I3 & U3 & S3) & Fr3 & Pg3 & Sg3 & Ot3 & Fe3); try done; try lia.
  { intros v Hv%elem_of_seqZ. lia. }
  rewrite (bind_run _ _ s2 ms3 s3) by (by rewrite (push_new_run _ _ _ _ _ _ _ _ trapframe_area_new)).
  exists ms3, s3, live3. split_and!; try done.
  unfold ret. do 5 f_equal. rewrite En1. apply (heap_start elf), He.
Qed.

Definition witness_ph : ProgramHeader := mkPH (Some 1) 0x1004 16 true false true 4 8.
Definition witness_elf : ElfFile :=
  mkElf [0x7f; 0x45; 0x4c; 0x46] 1 (λ i, if i =? 0 then Some witness_ph else None) 0x1004
    [0x7f; 0x45; 0x4c; 0x46; 1; 2; 3; 4; 5; 6; 7; 8].

Lemma witness_elf_ok : elf_ok witness_elf.
Proof.
  split.
  - done.
  - intros i Hi. simpl in *. assert (i = 0) as -> by lia. by exists witness_ph, 1.
  - repeat constructor; unfold len; simpl; lia.
  - vm_compute. repeat constructor. by intros ?%not_elem_of_nil.
  - repeat constructor; lia.
  - unfold len. simpl. lia.
Qed.

Lemma from_elf_loads_witness :
  ∃ ms s' live',
    MemorySet_from_elf witness_ld witness_elf witness_s0 =
      Ok ((ms, 0x2000, TRAPFRAME - USER_STACK_SIZE, 0x1004), s') ∧
    mm_inv 0x84300 0x88000 s' live' ∧ uspace (tramp_base witness_ld) s' live' ms ∧ ∅ ⊆ live' ∧
    (∀ f, f ∈ owned ms → f ∉ (∅ : gset Z)) ∧
    Forall (segment_loaded s' ms witness_elf) (loads witness_elf) ∧
    areas ms ≫= range_vpns =
      (loads witness_elf ≫= ph_vpns) ++ [2^27 - 8; 2^27 - 7; 2^27 - 6; 2^27 - 5; 2^27 - 2] ∧
    (∀ q, q ∈ (∅ : gset Z) → get_bytes_array (ram s') q = get_bytes_array (ram witness_s0) q).
Proof.
  apply (from_elf_loads 0x84300 0x88000 witness_ld witness_elf witness_s0 ∅).
  - apply witness_tramp_ok.
  - apply witness_elf_ok.
  - apply witness_s0_inv.
  - vm_compute. congruence.
Defined.
