(* ===== verification/BlockDev.v ===== *)
(** * Block devices and byte access to them ([fs/util.rs], [fs/dev/mod.rs])

    [BlockIter] splits a byte range into parts of blocks.  [BlockDevice] is
    the trait of devices that read and write whole blocks; every such device
    is a byte-addressed [Device].  [BlockDeviceLaws] states what the byte
    layer relies on, against the abstract contents of the device; the theorems
    of the byte layer are proved from it, for any device. *)

From S2P Require Import Prelude.

(** ** [BlockIter] *)
(** [fs/util.rs:1-6] BlockIter *)
Record BlockIter : Type := mkBlockIter {
  bi_begin : Z;
  bi_end : Z;
  bi_block_size_log2 : Z;
}.
(** [fs/util.rs:8-14] BlockRange *)
Record BlockRange : Type := mkBlockRange {
  br_block : Z;
  br_begin : Z;
  br_end : Z;
  br_block_size_log2 : Z;
}.

(** [fs/util.rs:17-19] BlockRange::is_empty *)
Definition BlockRange_is_empty (r : BlockRange) : bool := br_end r =? br_begin r.
(** [fs/util.rs:20-22] BlockRange::len *)
Definition BlockRange_len (r : BlockRange) : Z := br_end r -u br_begin r.
(** [fs/util.rs:23-25] BlockRange::is_full *)
Definition BlockRange_is_full (r : BlockRange) : bool :=
  BlockRange_len r =? wrap64 (Z.shiftl 1 (br_block_size_log2 r)).
(** [fs/util.rs:26-28] BlockRange::origin_begin *)
Definition BlockRange_origin_begin (r : BlockRange) : Z :=
  wrap64 (Z.shiftl (br_block r) (br_block_size_log2 r)) +u br_begin r.
(** [fs/util.rs:29-31] BlockRange::origin_end *)
Definition BlockRange_origin_end (r : BlockRange) : Z :=
  wrap64 (Z.shiftl (br_block r) (br_block_size_log2 r)) +u br_end r.

(** [fs/util.rs:34-58] BlockIter::next *)
Definition BlockIter_next (it : BlockIter) : option BlockRange * BlockIter :=
  if bi_begin it >=? bi_end it then (None, it)
  else
    let block_size_log2 := bi_block_size_log2 it in
    let block_size := wrap64 (Z.shiftl 1 block_size_log2) in
    let block := bi_begin it / block_size in
    let begin := bi_begin it mod block_size in
    let end_ := if block =? bi_end it / block_size then bi_end it mod block_size
                else block_size in
    (Some (mkBlockRange block begin end_ block_size_log2),
     mkBlockIter (bi_begin it +u (end_ -u begin)) (bi_end it) block_size_log2).

(** The items of the iterator; [None] when [n] calls do not exhaust it. *)
Fixpoint BlockIter_collect (n : nat) (it : BlockIter) : option (list BlockRange) :=
  match n with
  | O => None
  | S n => match BlockIter_next it with
           | (None, _) => Some []
           | (Some range, it') => cons range <$> BlockIter_collect n it'
           end
  end.
(** The ranges a [for range in iter] loop visits; every call advances by at
    least one byte ([BlockIter_collect_ranges]). *)
Definition BlockIter_ranges (it : BlockIter) : list BlockRange :=
  default [] (BlockIter_collect (S (Z.to_nat (bi_end it - bi_begin it))) it).

(** ** Devices *)
(** [fs/dev/mod.rs:27-29] DevError *)
Inductive DevError : Type := mkDevError.

(** [trait BlockDevice].  A [&mut [u8]] argument is the buffer before the
    call; the buffer after it is part of the result. *)
(** [fs/dev/mod.rs:19-25] BlockDevice *)
Class BlockDevice (T : Type) := {
  BLOCK_SIZE_LOG2 : Z;
  bd_read_at : Z → list Z → M T (Result unit DevError * list Z);
  bd_write_at : Z → list Z → M T (Result unit DevError);
  bd_sync : M T (Result unit DevError);
}.
Arguments BLOCK_SIZE_LOG2 T {_}.

(** [trait Device]. *)
(** [fs/dev/mod.rs:12-17] Device *)
Class Device (T : Type) := {
  dev_read_at : Z → list Z → M T (Result Z DevError * list Z);
  dev_write_at : Z → list Z → M T (Result Z DevError);
  dev_sync : M T (Result unit DevError);
}.

Section byte_device.
Context {T : Type} `{BlockDevice T}.
(** [uninit_memory()]: the local block buffer before it is written. *)
Context (uninit : list Z).

(** [fs/dev/mod.rs:54-68] Device::read_at. The loop over the ranges left;
    [out] is the whole buffer. *)
Fixpoint Device_read_loop (offset : Z) (ranges : list BlockRange) (out : list Z) :
    M T (Result Z DevError * list Z) :=
  match ranges with
  | [] => ret (ok (len out), out)
  | range :: ranges' =>
      let ln := BlockRange_origin_begin range -u offset in
      let a := BlockRange_origin_begin range -u offset in
      let b := BlockRange_origin_end range -u offset in
      let* buf := lift (slice out a b) in
      if BlockRange_is_full range then
        let* '(res, buf) := bd_read_at (br_block range) buf in
        let* out := lift (copy_into out a b buf) in
        if is_ok res then Device_read_loop offset ranges' out else ret (ok ln, out)
      else
        lift (assert_ (BLOCK_SIZE_LOG2 T <=? 10)) ;;
        let* '(res, block_buf) := bd_read_at (br_block range) uninit in
        if is_ok res then
          let* part := lift (slice block_buf (br_begin range) (br_end range)) in
          let* out := lift (copy_into out a b part) in
          Device_read_loop offset ranges' out
        else ret (ok ln, out)
  end.

(** [fs/dev/mod.rs:46-70] Device::read_at *)
Definition Device_read_at (offset : Z) (buf : list Z) : M T (Result Z DevError * list Z) :=
  let iter := mkBlockIter offset (offset +u len buf) (BLOCK_SIZE_LOG2 T) in
  Device_read_loop offset (BlockIter_ranges iter) buf.

(** [fs/dev/mod.rs:80-96] Device::write_at. The loop over the ranges left. *)
Fixpoint Device_write_loop (offset : Z) (ranges : list BlockRange) (data : list Z) :
    M T (Result Z DevError) :=
  match ranges with
  | [] => ret (ok (len data))
  | range :: ranges' =>
      let ln := BlockRange_origin_begin range -u offset in
      let* buf := lift (slice data (BlockRange_origin_begin range -u offset)
                                   (BlockRange_origin_end range -u offset)) in
      if BlockRange_is_full range then
        let* res := bd_write_at (br_block range) buf in
        if is_ok res then Device_write_loop offset ranges' data else ret (ok ln)
      else
        lift (assert_ (BLOCK_SIZE_LOG2 T <=? 10)) ;;
        let* '(res, block_buf) := bd_read_at (br_block range) uninit in
        if is_ok res then
          let* block_buf := lift (copy_into block_buf (br_begin range) (br_end range) buf) in
          let* res := bd_write_at (br_block range) block_buf in
          if is_ok res then Device_write_loop offset ranges' data else ret (ok ln)
        else ret (ok ln)
  end.

(** [fs/dev/mod.rs:72-98] Device::write_at *)
Definition Device_write_at (offset : Z) (buf : list Z) : M T (Result Z DevError) :=
  let iter := mkBlockIter offset (offset +u len buf) (BLOCK_SIZE_LOG2 T) in
  Device_write_loop offset (BlockIter_ranges iter) buf.

(** [fs/dev/mod.rs:100-102] Device::sync *)
Definition Device_sync : M T (Result unit DevError) := bd_sync.

(** [fs/dev/mod.rs:44-103] Device for T *)
#[export] Instance BlockDevice_Device : Device T := {
  dev_read_at := Device_read_at;
  dev_write_at := Device_write_at;
  dev_sync := Device_sync;
}.
End byte_device.

(** ** What the byte layer relies on

    The contents of a device are its bytes, a whole number of blocks; [dev_ok]
    is the device's own invariant. *)
Class BlockDeviceLaws (T : Type) `{BlockDevice T} (contents : T → list Z) (dev_ok : T → Prop) : Prop := {
  law_log2 : 0 ≤ BLOCK_SIZE_LOG2 T ≤ 10;
  law_size d : dev_ok d → len (contents d) mod 2 ^ BLOCK_SIZE_LOG2 T = 0;
  (** a block inside the device is read into the start of the buffer *)
  law_read d b buf :
    dev_ok d → 0 ≤ b → (b + 1) * 2 ^ BLOCK_SIZE_LOG2 T ≤ len (contents d) →
    2 ^ BLOCK_SIZE_LOG2 T ≤ len buf →
    ∃ d', bd_read_at b buf d =
      Ok ((ok tt, splice buf 0 (take (Z.to_nat (2 ^ BLOCK_SIZE_LOG2 T))
                     (drop (Z.to_nat (b * 2 ^ BLOCK_SIZE_LOG2 T)) (contents d)))), d') ∧
      dev_ok d' ∧ contents d' = contents d;
  (** the start of the buffer is written to a block inside the device *)
  law_write d b buf :
    dev_ok d → 0 ≤ b → (b + 1) * 2 ^ BLOCK_SIZE_LOG2 T ≤ len (contents d) →
    2 ^ BLOCK_SIZE_LOG2 T ≤ len buf →
    ∃ d', bd_write_at b buf d = Ok (ok tt, d') ∧ dev_ok d' ∧
      contents d' = splice (contents d) (Z.to_nat (b * 2 ^ BLOCK_SIZE_LOG2 T))
                      (take (Z.to_nat (2 ^ BLOCK_SIZE_LOG2 T)) buf);
}.

(** Devices that refuse blocks outside, leaving buffer and contents alone. *)
Class BlockDeviceErrors (T : Type) `{BlockDevice T} (contents : T → list Z) (dev_ok : T → Prop) : Prop := {
  law_read_err d b buf :
    dev_ok d → 0 ≤ b → len (contents d) < (b + 1) * 2 ^ BLOCK_SIZE_LOG2 T →
    ∃ e d', bd_read_at b buf d = Ok ((err e, buf), d') ∧ dev_ok d' ∧ contents d' = contents d;
  law_write_err d b buf :
    dev_ok d → 0 ≤ b → len (contents d) < (b + 1) * 2 ^ BLOCK_SIZE_LOG2 T →
    ∃ e d', bd_write_at b buf d = Ok (err e, d') ∧ dev_ok d' ∧ contents d' = contents d;
}.

(** Devices whose [sync] succeeds. *)
Class BlockDeviceSync (T : Type) `{BlockDevice T} (contents : T → list Z) (dev_ok : T → Prop) : Prop := {
  law_sync d : dev_ok d → ∃ d', bd_sync d = Ok (ok tt, d') ∧ dev_ok d' ∧ contents d' = contents d;
}.

(** ** Facts about the iterator *)
Section iter.
Context (k : Z) (Hk : 0 ≤ k ≤ 20).

Lemma block_size_eq : wrap64 (Z.shiftl 1 k) = 2 ^ k.
Proof.
  rewrite Z.shiftl_mul_pow2, Z.mul_1_l by lia. apply wrap64_small.
  split; [apply Z.pow_nonneg; lia|]. apply Z.le_lt_trans with (2 ^ 20); [|done].
  apply Z.pow_le_mono_r; lia.
Qed.

Lemma block_size_bounds : 1 ≤ 2 ^ k ≤ 2 ^ 20.
Proof.
  split; [|apply Z.pow_le_mono_r; lia]. pose proof (Z.pow_pos_nonneg 2 k). lia.
Qed.

(** The first part of a range: up to the end of its block. *)
Definition part_end (b e : Z) : Z := Z.min ((b / 2 ^ k + 1) * 2 ^ k) e.
Definition part (b e : Z) : BlockRange :=
  mkBlockRange (b / 2 ^ k) (b mod 2 ^ k) (b mod 2 ^ k + (part_end b e - b)) k.

Lemma part_end_bounds b e :
  0 ≤ b < e → b < part_end b e ≤ e ∧ b mod 2 ^ k + (part_end b e - b) ≤ 2 ^ k.
Proof.
  intros Hb. unfold part_end. pose proof block_size_bounds.
  pose proof (Z.div_mod b (2 ^ k)). pose proof (Z.mod_pos_bound b (2 ^ k)). nia.
Qed.

Lemma BlockIter_next_spec b e :
  0 ≤ b < e → e < 2 ^ 63 →
  BlockIter_next (mkBlockIter b e k) = (Some (part b e), mkBlockIter (part_end b e) e k).
Proof.
  intros Hb He. unfold BlockIter_next. cbn [bi_begin bi_end bi_block_size_log2].
  destruct (Z.geb_spec b e); [lia|]. rewrite block_size_eq.
  pose proof block_size_bounds as Hk2. set (bs := 2 ^ k) in *.
  pose proof (Z.div_mod b bs) as D1. pose proof (Z.mod_pos_bound b bs) as D2.
  pose proof (Z.div_mod e bs) as D3. pose proof (Z.mod_pos_bound e bs) as D4.
  assert (Hend : (if b / bs =? e / bs then e mod bs else bs) = b mod bs + (part_end b e - b)).
  { unfold part_end. fold bs. destruct (Z.eqb_spec (b / bs) (e / bs)) as [E|E].
    - rewrite Z.min_r by nia. nia.
    - rewrite Z.min_l; [nia|]. assert (b / bs < e / bs); [|nia].
      assert (b / bs ≤ e / bs) by (apply Z.div_le_mono; lia). lia. }
  rewrite Hend. clear D1 D3 D4 Hend. subst bs. pose proof (part_end_bounds b e Hb) as [? ?].
  unfold part. rewrite usub_small, uadd_small by lia. do 3 f_equal. lia.
Qed.

(** The parts a range is split into. *)
Fixpoint parts (n : nat) (b e : Z) : list BlockRange :=
  match n with
  | O => []
  | S n => if b <? e then part b e :: parts n (part_end b e) e else []
  end.

Lemma BlockIter_collect_ranges n : ∀ b e,
  0 ≤ b → b ≤ e → e < 2 ^ 63 → e - b < Z.of_nat n →
  BlockIter_collect n (mkBlockIter b e k) = Some (parts n b e).
Proof.
  induction n as [|n IH]; intros b e Hb Hbe He Hn; [lia|]. cbn [BlockIter_collect parts].
  destruct (Z.ltb_spec b e).
  - rewrite BlockIter_next_spec by lia. pose proof (part_end_bounds b e ltac:(lia)) as [? _].
    rewrite IH by lia. done.
  - unfold BlockIter_next. cbn [bi_begin bi_end]. destruct (Z.geb_spec b e); [done|lia].
Qed.

Lemma part_origin b e :
  0 ≤ b < e → e < 2 ^ 63 →
  BlockRange_origin_begin (part b e) = b ∧ BlockRange_origin_end (part b e) = part_end b e ∧
  BlockRange_is_full (part b e) = (part_end b e - b =? 2 ^ k).
Proof.
  intros Hb He. pose proof (part_end_bounds b e Hb) as [? ?]. pose proof block_size_bounds.
  pose proof (Z.div_mod b (2 ^ k)). pose proof (Z.mod_pos_bound b (2 ^ k)).
  assert (0 ≤ b / 2 ^ k) by (apply Z.div_pos; lia).
  unfold BlockRange_origin_begin, BlockRange_origin_end, BlockRange_is_full, BlockRange_len, part.
  cbn [br_block br_begin br_end br_block_size_log2]. rewrite block_size_eq.
  rewrite Z.shiftl_mul_pow2 by lia. rewrite wrap64_small by nia.
  rewrite !uadd_small, usub_small by nia. split_and!; [nia|nia|]. f_equal. lia.
Qed.
End iter.

(** A byte inside the device is in a block inside it. *)
Lemma inside_block n bs b :
  1 ≤ bs → n mod bs = 0 → 0 ≤ b < n → 0 ≤ b / bs ∧ (b / bs + 1) * bs ≤ n.
Proof.
  intros H1 Hm Hb. split; [apply Z.div_pos; lia|].
  apply Z.mod_divide in Hm as [q ->]; [|lia].
  assert (b / bs < q) by (apply Z.div_lt_upper_bound; lia). nia.
Qed.

Lemma outside_block n bs b : 1 ≤ bs → n ≤ b → n < (b / bs + 1) * bs.
Proof.
  intros H1 Hb. assert (0 < bs) by lia. pose proof (Z.mul_succ_div_gt b bs). lia.
Qed.

(** ** The byte layer *)
Section byte_proofs.
Context {T : Type} `{HBD : BlockDevice T} (contents : T → list Z) (dev_ok : T → Prop).
Context {HL : BlockDeviceLaws T contents dev_ok}.
Context (uninit : list Z) (Huninit : len uninit = 1024).

Abbreviation k := (BLOCK_SIZE_LOG2 T).
Abbreviation bs := (2 ^ BLOCK_SIZE_LOG2 T).

Lemma k_range : 0 ≤ k ≤ 20.
Proof. pose proof law_log2. lia. Qed.

Lemma bs_bounds : 1 ≤ bs ≤ 1024.
Proof.
  pose proof law_log2. assert (0 < bs) by (apply Z.pow_pos_nonneg; lia).
  split; [lia|]. apply (Z.pow_le_mono_r 2 k 10); lia.
Qed.


(** What is done about blocks outside the device, up to the end [e]. *)
Definition read_errs (e : Z) : Prop :=
  ∀ d b buf, dev_ok d → len (contents d) ≤ b < e →
    ∃ er d', bd_read_at (b / bs) buf d = Ok ((err er, buf), d') ∧ dev_ok d' ∧ contents d' = contents d.

(** Reading one part that is inside the device. *)
Lemma read_part d off b e out n :
  dev_ok d → 0 ≤ off ≤ b → b < e → e < 2 ^ 63 → b < len (contents d) → len out = e - off →
  ∃ d', Device_read_loop uninit off (part k b e :: n) out d =
    Device_read_loop uninit off n
      (splice out (Z.to_nat (b - off)) (subl (contents d) b (part_end k b e))) d' ∧
    dev_ok d' ∧ contents d' = contents d.
Proof.
  intros Hok Hoff Hbe He Hin Hout. pose proof k_range as Hk. pose proof bs_bounds as Hbs.
  destruct (part_origin k Hk b e) as (E1 & E2 & E3); [lia|lia|].
  pose proof (part_end_bounds k Hk b e ltac:(lia)) as [P1 P2].
  pose proof (Z.div_mod b bs) as D1. pose proof (Z.mod_pos_bound b bs) as D2.
  destruct (inside_block (len (contents d)) bs b) as [B1 B2]; [apply bs_bounds|by apply law_size|lia|].
  assert (Hpe : part_end k b e ≤ len (contents d)) by (unfold part_end; lia).
  set (blk := take (Z.to_nat bs) (drop (Z.to_nat (b / bs * bs)) (contents d))).
  assert (Hblk : blk = subl (contents d) (b / bs * bs) ((b / bs + 1) * bs)).
  { unfold blk, subl. do 2 f_equal. lia. }
  assert (Hlblk : len blk = bs) by (rewrite Hblk, len_subl by nia; nia).
  cbn [Device_read_loop]. rewrite E1, E2, E3, !usub_small by lia.
  assert (Hsl : slice out (b - off) (part_end k b e - off) = Ok (subl out (b - off) (part_end k b e - off))).
  { apply slice_Ok. split; [lia|]. done. }
  unfold bind at 1, lift at 1. rewrite Hsl.
  assert (Hcp : ∀ x, len x = part_end k b e - b →
    copy_into out (b - off) (part_end k b e - off) x = Ok (splice out (Z.to_nat (b - off)) x)).
  { intros x Hx. apply copy_into_Ok. split_and!; [lia|lia|lia|done]. }
  destruct (Z.eqb_spec (part_end k b e - b) bs) as [Ef|Ef].
  - assert (Hb0 : b = b / bs * bs) by lia.
    destruct (law_read d (b / bs) (subl out (b - off) (part_end k b e - off)) Hok B1 B2)
      as (d' & Hrun & Hok' & Hc); [rewrite len_subl; lia|].
    exists d'. split; [|done]. change (br_block (part k b e)) with (b / bs).
    rewrite (bind_run _ _ _ _ _ Hrun). fold blk.
    rewrite splice_whole by (apply Nat2Z.inj; fold (len blk); fold (len (subl out (b - off) (part_end k b e - off))); rewrite len_subl; lia).
    unfold bind, lift. rewrite Hcp by lia. simpl. do 2 f_equal. rewrite Hblk. f_equal; lia.
  - destruct (law_read d (b / bs) uninit Hok B1 B2) as (d' & Hrun & Hok' & Hc); [lia|].
    exists d'. split; [|done]. change (br_block (part k b e)) with (b / bs).
    rewrite (bind_run _ _ d tt d).
    2: { unfold lift, assert_. destruct (Z.leb_spec k 10); [done|]. pose proof law_log2. lia. }
    rewrite (bind_run _ _ _ _ _ Hrun). fold blk. cbn [is_ok br_begin br_end part].
    assert (Hpart : subl (splice uninit 0 blk) (b mod bs) (b mod bs + (part_end k b e - b)) =
      subl (contents d) b (part_end k b e)).
    { unfold len in Hlblk, Huninit. rewrite subl_splice_in by lia. rewrite Hblk. rewrite subl_subl by lia. f_equal; lia. }
    assert (Hs2 : slice (splice uninit 0 blk) (b mod bs) (b mod bs + (part_end k b e - b)) =
      Ok (subl (contents d) b (part_end k b e))).
    { rewrite <- Hpart. apply slice_Ok. unfold len in *. rewrite length_splice by lia. split; [lia|done]. }
    unfold bind, lift. rewrite Hs2, Hcp by (rewrite len_subl; lia). done.
Qed.

(** A part outside the device ends the loop. *)
Lemma read_part_err d off b e out n :
  read_errs e → dev_ok d → 0 ≤ off ≤ b → b < e → e < 2 ^ 63 → len (contents d) ≤ b → len out = e - off →
  ∃ d', Device_read_loop uninit off (part k b e :: n) out d = Ok ((ok (b - off), out), d') ∧
    dev_ok d' ∧ contents d' = contents d.
Proof.
  intros Herr Hok Hoff Hbe He Hout Hlen. pose proof k_range as Hk.
  destruct (part_origin k Hk b e) as (E1 & E2 & E3); [lia|lia|].
  pose proof (part_end_bounds k Hk b e ltac:(lia)) as [P1 P2].
  cbn [Device_read_loop]. rewrite E1, E2, E3, !usub_small by lia.
  rewrite (bind_run _ _ d (subl out (b - off) (part_end k b e - off)) d)
    by (unfold lift; by rewrite (proj2 (slice_Ok out (b - off) (part_end k b e - off) _)) by (split; [lia|done])).
  change (br_block (part k b e)) with (b / bs).
  destruct (part_end k b e - b =? bs).
  - destruct (Herr d b (subl out (b - off) (part_end k b e - off)) Hok) as (er & d' & Hrun & Hok' & Hc); [lia|].
    exists d'. rewrite (bind_run _ _ _ _ _ Hrun). split; [|done].
    rewrite (bind_run _ _ d' out d'); [done|]. unfold lift.
    rewrite (proj2 (copy_into_Ok out (b - off) (part_end k b e - off) _ out)); [done|].
    rewrite len_subl, splice_subl by lia. split_and!; done || lia.
  - destruct (Herr d b uninit Hok) as (er & d' & Hrun & Hok' & Hc); [lia|].
    exists d'. split; [|done]. rewrite (bind_run _ _ d tt d).
    2: { unfold lift, assert_. destruct (Z.leb_spec k 10); [done|]. pose proof law_log2. lia. }
    by rewrite (bind_run _ _ _ _ _ Hrun).
Qed.

Lemma read_loop_spec e off n : ∀ b out d,
  read_errs e → dev_ok d → 0 ≤ off ≤ b → b ≤ e → e < 2 ^ 63 → e - b < Z.of_nat n → len out = e - off →
  let stop := Z.max b (Z.min e (len (contents d))) in
  ∃ d', Device_read_loop uninit off (parts k n b e) out d =
    Ok ((ok (stop - off), splice out (Z.to_nat (b - off)) (subl (contents d) b stop)), d') ∧
    dev_ok d' ∧ contents d' = contents d.
Proof.
  induction n as [|n IH]; intros b out d Herr Hok Hoff Hbe He Hn Hout stop; [lia|]. cbn [parts].
  destruct (Z.ltb_spec b e).
  2: { exists d. split; [|done]. cbn [Device_read_loop]. unfold ret. unfold stop.
    rewrite subl_nil, splice_nil by (unfold len in *; lia). do 4 f_equal. lia. }
  destruct (Z.lt_ge_cases b (len (contents d))) as [Hin|Hout2].
  - destruct (read_part d off b e out (parts k n (part_end k b e) e)) as (d1 & -> & Hok1 & Hc1); try done; try lia.
    pose proof (part_end_bounds k k_range b e ltac:(lia)) as [P1 P2].
    destruct (inside_block (len (contents d)) bs b) as [B1 B2]; [apply bs_bounds|by apply law_size|lia|].
    assert (Hpe : part_end k b e ≤ len (contents d)) by (unfold part_end; lia).
    assert (Hl : len (subl (contents d) b (part_end k b e)) = part_end k b e - b) by (rewrite len_subl; lia).
    destruct (IH (part_end k b e) (splice out (Z.to_nat (b - off)) (subl (contents d) b (part_end k b e))) d1)
      as (d2 & Hrun & Hok2 & Hc2); try done; try lia.
    { unfold len in *. rewrite length_splice; lia. }
    exists d2. rewrite Hrun, Hc2, Hc1. split; [|done].
    replace (Z.max (part_end k b e) (Z.min e (len (contents d)))) with stop by (unfold stop; lia).
    do 3 f_equal.
    replace (Z.to_nat (part_end k b e - off))
      with (Z.to_nat (b - off) + length (subl (contents d) b (part_end k b e)))%nat by (unfold len in Hl; lia).
    rewrite splice_adj.
    + f_equal. apply subl_app; unfold stop; lia.
    + assert (Hl2 : len (subl (contents d) (part_end k b e) stop) = stop - part_end k b e)
        by (rewrite len_subl; unfold stop; lia).
      unfold len in *. unfold stop in *. lia.
  - destruct (read_part_err d off b e out (parts k n (part_end k b e) e)) as (d1 & -> & Hok1 & Hc1); try done; try lia.
    exists d1. split; [|done]. unfold stop. rewrite Z.max_l by lia.
    by rewrite subl_nil, splice_nil by (unfold len in *; lia).
Qed.

(** Writing one part that is inside the device. *)
Lemma write_part d off b e data n :
  dev_ok d → 0 ≤ off ≤ b → b < e → e < 2 ^ 63 → b < len (contents d) → len data = e - off →
  ∃ d', Device_write_loop uninit off (part k b e :: n) data d = Device_write_loop uninit off n data d' ∧
    dev_ok d' ∧
    contents d' = splice (contents d) (Z.to_nat b) (subl data (b - off) (part_end k b e - off)).
Proof.
  intros Hok Hoff Hbe He Hin Hout. pose proof k_range as Hk. pose proof bs_bounds as Hbs.
  destruct (part_origin k Hk b e) as (E1 & E2 & E3); [lia|lia|].
  pose proof (part_end_bounds k Hk b e ltac:(lia)) as [P1 P2].
  pose proof (Z.div_mod b bs) as D1. pose proof (Z.mod_pos_bound b bs) as D2.
  destruct (inside_block (len (contents d)) bs b) as [B1 B2]; [apply bs_bounds|by apply law_size|lia|].
  set (buf := subl data (b - off) (part_end k b e - off)).
  assert (Hlbuf : len buf = part_end k b e - b) by (unfold buf; rewrite len_subl; lia).
  cbn [Device_write_loop]. rewrite E1, E2, E3, !usub_small by lia.
  rewrite (bind_run _ _ d buf d) by (unfold lift; by rewrite (proj2 (slice_Ok data (b - off) (part_end k b e - off) buf)) by (split; [lia|done])).
  change (br_block (part k b e)) with (b / bs).
  destruct (Z.eqb_spec (part_end k b e - b) bs) as [Ef|Ef].
  - destruct (law_write d (b / bs) buf Hok B1 B2) as (d' & Hrun & Hok' & Hc); [lia|].
    exists d'. rewrite (bind_run _ _ _ _ _ Hrun). split_and!; [done|done|]. rewrite Hc.
    rewrite take_ge by (unfold len in Hlbuf; lia). do 2 f_equal. lia.
  - set (blk := subl (contents d) (b / bs * bs) ((b / bs + 1) * bs)).
    assert (Hlblk : len blk = bs) by (unfold blk; rewrite len_subl by nia; nia).
    destruct (law_read d (b / bs) uninit Hok B1 B2) as (d1 & Hrun1 & Hok1 & Hc1); [lia|].
    replace (take (Z.to_nat bs) (drop (Z.to_nat (b / bs * bs)) (contents d))) with blk in Hrun1
      by (unfold blk, subl; do 2 f_equal; lia).
    rewrite (bind_run _ _ d tt d).
    2: { unfold lift, assert_. destruct (Z.leb_spec k 10); [done|]. pose proof law_log2. lia. }
    rewrite (bind_run _ _ _ _ _ Hrun1). cbn [is_ok br_begin br_end part].
    set (bb := splice (splice uninit 0 blk) (Z.to_nat (b mod bs)) buf).
    assert (Hls : length (splice uninit 0 blk) = length uninit) by (apply length_splice; unfold len in *; lia).
    rewrite (bind_run _ _ d1 bb d1).
    2: { unfold lift. rewrite (proj2 (copy_into_Ok _ _ _ _ bb)); [done|]. unfold len in *. split_and!; [lia|lia|lia|done]. }
    rewrite <- Hc1 in B2.
    assert (Hlbb : len bb = 1024) by (unfold bb, len in *; rewrite length_splice; lia).
    destruct (law_write d1 (b / bs) bb Hok1 B1 B2) as (d2 & Hrun2 & Hok2 & Hc2); [lia|].
    rewrite (bind_run _ _ _ _ _ Hrun2). exists d2. split_and!; [done|done|].
    assert (Htk : take (Z.to_nat bs) bb = splice blk (Z.to_nat (b mod bs)) buf).
    { replace (Z.to_nat bs) with (length blk) by (unfold len in Hlblk; lia).
      apply take_splice_head; unfold len in *; lia. }
    rewrite Hc2, Htk, Hc1. unfold blk. rewrite Hc1 in B2.
    rewrite splice_block by (unfold len in *; nia). f_equal. lia.
Qed.

Definition write_errs (e : Z) : Prop :=
  ∀ d b buf, dev_ok d → len (contents d) ≤ b < e →
    ∃ er d', bd_write_at (b / bs) buf d = Ok (err er, d') ∧ dev_ok d' ∧ contents d' = contents d.

Lemma write_part_err d off b e data n :
  read_errs e → write_errs e → dev_ok d → 0 ≤ off ≤ b → b < e → e < 2 ^ 63 →
  len (contents d) ≤ b → len data = e - off →
  ∃ d', Device_write_loop uninit off (part k b e :: n) data d = Ok (ok (b - off), d') ∧
    dev_ok d' ∧ contents d' = contents d.
Proof.
  intros Herr Hwerr Hok Hoff Hbe He Hout Hlen. pose proof k_range as Hk.
  destruct (part_origin k Hk b e) as (E1 & E2 & E3); [lia|lia|].
  pose proof (part_end_bounds k Hk b e ltac:(lia)) as [P1 P2].
  cbn [Device_write_loop]. rewrite E1, E2, E3, !usub_small by lia.
  set (buf := subl data (b - off) (part_end k b e - off)).
  rewrite (bind_run _ _ d buf d)
    by (unfold lift; by rewrite (proj2 (slice_Ok data (b - off) (part_end k b e - off) buf)) by (split; [lia|done])).
  change (br_block (part k b e)) with (b / bs).
  destruct (part_end k b e - b =? bs).
  - destruct (Hwerr d b buf Hok) as (er & d' & Hrun & Hok' & Hc); [lia|].
    exists d'. by rewrite (bind_run _ _ _ _ _ Hrun).
  - destruct (Herr d b uninit Hok) as (er & d' & Hrun & Hok' & Hc); [lia|].
    exists d'. split; [|done]. rewrite (bind_run _ _ d tt d).
    2: { unfold lift, assert_. destruct (Z.leb_spec k 10); [done|]. pose proof law_log2. lia. }
    by rewrite (bind_run _ _ _ _ _ Hrun).
Qed.

Lemma write_loop_spec e off data n : ∀ b d,
  read_errs e → write_errs e → dev_ok d → 0 ≤ off ≤ b → b ≤ e → e < 2 ^ 63 →
  e - b < Z.of_nat n → len data = e - off →
  let stop := Z.max b (Z.min e (len (contents d))) in
  ∃ d', Device_write_loop uninit off (parts k n b e) data d = Ok (ok (stop - off), d') ∧
    dev_ok d' ∧
    contents d' = if decide (b < stop)
                  then splice (contents d) (Z.to_nat b) (subl data (b - off) (stop - off))
                  else contents d.
Proof.
  induction n as [|n IH]; intros b d Herr Hwerr Hok Hoff Hbe He Hn Hdata stop; [lia|]. cbn [parts].
  destruct (Z.ltb_spec b e).
  2: { exists d. cbn [Device_write_loop]. unfold ret. rewrite decide_False by (unfold stop; lia).
    split_and!; try done. do 3 f_equal. unfold stop. lia. }
  destruct (Z.lt_ge_cases b (len (contents d))) as [Hin|Hout].
  - destruct (write_part d off b e data (parts k n (part_end k b e) e)) as (d1 & -> & Hok1 & Hc1); try done; try lia.
    pose proof (part_end_bounds k k_range b e ltac:(lia)) as [P1 P2].
    destruct (inside_block (len (contents d)) bs b) as [B1 B2]; [apply bs_bounds|by apply law_size|lia|].
    assert (Hpe : part_end k b e ≤ len (contents d)) by (unfold part_end; lia).
    set (x := subl data (b - off) (part_end k b e - off)) in *.
    assert (Hx : len x = part_end k b e - b) by (unfold x; rewrite len_subl; lia).
    assert (Hlen1 : len (contents d1) = len (contents d)).
    { rewrite Hc1. unfold len in *. rewrite length_splice; lia. }
    destruct (IH (part_end k b e) d1) as (d2 & Hrun & Hok2 & Hc2); try done; try lia.
    rewrite Hlen1 in Hrun, Hc2.
    replace (Z.max (part_end k b e) (Z.min e (len (contents d)))) with stop in Hrun, Hc2 by (unfold stop; lia).
    assert (Hstop : part_end k b e ≤ stop ≤ e ∧ stop ≤ len (contents d)) by (unfold stop; lia).
    clearbody stop. exists d2. split_and!; [done|done|]. rewrite decide_True by lia.
    rewrite Hc2. destruct (decide (part_end k b e < stop)) as [Hlt|].
    + set (y := subl data (part_end k b e - off) (stop - off)).
      assert (Hy : len y = stop - part_end k b e) by (unfold y; rewrite len_subl; lia).
      rewrite Hc1. replace (Z.to_nat (part_end k b e)) with (Z.to_nat b + length x)%nat by (unfold len in *; lia).
      rewrite splice_adj by (unfold len in *; lia). f_equal. apply subl_app; lia.
    + rewrite Hc1. unfold x. do 2 f_equal. lia.
  - destruct (write_part_err d off b e data (parts k n (part_end k b e) e)) as (d1 & -> & Hok1 & Hc1); try done; try lia.
    exists d1. unfold stop. rewrite Z.max_l by lia. rewrite decide_False by lia. done.
Qed.

(** Out of range does not occur, or is refused. *)
Lemma errs_cases e :
  (∀ d, dev_ok d → e ≤ len (contents d)) ∨ BlockDeviceErrors T contents dev_ok →
  read_errs e ∧ write_errs e.
Proof.
  pose proof bs_bounds. intros [Hin|HE]; split; intros d b buf Hok Hb.
  - specialize (Hin d Hok). lia.
  - specialize (Hin d Hok). lia.
  - apply law_read_err; [done|apply Z.div_pos; pose proof (len_nonneg (contents d)); lia|].
    apply outside_block; lia.
  - apply law_write_err; [done|apply Z.div_pos; pose proof (len_nonneg (contents d)); lia|].
    apply outside_block; lia.
Qed.
End byte_proofs.

(** ** The 16-byte test device *)
(** [fs/dev/mod.rs:112-119] BlockDevice for Mutex<[u8; 16]> *)
Definition array_read_at (block_id : Z) (buf : list Z) : M (list Z) (Result unit DevError * list Z) :=
  if block_id >=? 4 then ret (err mkDevError, buf)
  else
    let begin := wrap64 (Z.shiftl block_id 2) in
    let* arr := get in
    let* src := lift (slice arr begin (begin +u 4)) in
    let* buf := lift (copy_into buf 0 4 src) in
    ret (ok tt, buf).
(** [fs/dev/mod.rs:120-127] BlockDevice for Mutex<[u8; 16]> *)
Definition array_write_at (block_id : Z) (buf : list Z) : M (list Z) (Result unit DevError) :=
  if block_id >=? 4 then ret (err mkDevError)
  else
    let begin := wrap64 (Z.shiftl block_id 2) in
    let* arr := get in
    let* src := lift (slice buf 0 4) in
    let* arr := lift (copy_into arr begin (begin +u 4) src) in
    put arr ;;
    ret (ok tt).
(** [fs/dev/mod.rs:110-131] BlockDevice for Mutex<[u8; 16]> *)
#[export] Instance ArrayDevice : BlockDevice (list Z) := {
  BLOCK_SIZE_LOG2 := 2;
  bd_read_at := array_read_at;
  bd_write_at := array_write_at;
  bd_sync := ret (ok tt);
}.

Definition array_ok (d : list Z) : Prop := len d = 16.

Lemma array_block b : 0 ≤ b < 4 → wrap64 (Z.shiftl b 2) = b * 4 ∧ b * 4 +u 4 = b * 4 + 4.
Proof. intros. rewrite Z.shiftl_mul_pow2, wrap64_small, uadd_small by lia. done. Qed.

#[export] Instance ArrayDevice_laws : BlockDeviceLaws (list Z) id array_ok.
Proof.
  split; cbn [BLOCK_SIZE_LOG2 ArrayDevice bd_read_at bd_write_at]; unfold array_ok, id; change (2 ^ 2) with 4.
  - lia.
  - by intros d ->.
  - intros d b buf Hd Hb Hin Hbuf. exists d. split; [|done]. unfold array_read_at.
    destruct (Z.geb_spec b 4); [lia|]. destruct (array_block b) as [E1 E2]; [lia|]. rewrite E1, E2.
    rewrite (bind_run _ _ d d d) by done.
    rewrite (bind_run _ _ d (subl d (b * 4) (b * 4 + 4)) d)
      by (unfold lift; by rewrite (proj2 (slice_Ok d (b * 4) (b * 4 + 4) _)) by (split; [lia|done])).
    assert (Hl : len (subl d (b * 4) (b * 4 + 4)) = 4) by (rewrite len_subl; lia).
    rewrite (bind_run _ _ d (splice buf 0 (subl d (b * 4) (b * 4 + 4))) d)
      by (unfold lift; by rewrite (proj2 (copy_into_Ok buf 0 4 _ _)) by (split_and!; done || lia)).
    unfold ret, subl. do 5 f_equal. lia.
  - intros d b buf Hd Hb Hin Hbuf. exists (splice d (Z.to_nat (b * 4)) (subl buf 0 4)).
    assert (Hl : len (subl buf 0 4) = 4) by (rewrite len_subl; lia).
    unfold array_write_at. destruct (Z.geb_spec b 4); [lia|].
    destruct (array_block b) as [E1 E2]; [lia|]. rewrite E1, E2. split.
    + rewrite (bind_run _ _ d d d) by done.
      rewrite (bind_run _ _ d (subl buf 0 4) d)
        by (unfold lift; by rewrite (proj2 (slice_Ok buf 0 4 _)) by (split; [lia|done])).
      by rewrite (bind_run _ _ d (splice d (Z.to_nat (b * 4)) (subl buf 0 4)) d)
        by (unfold lift; by rewrite (proj2 (copy_into_Ok d (b * 4) (b * 4 + 4) _ _)) by (split_and!; done || lia)).
    + split; [unfold len in *; rewrite length_splice; lia|]. done.
Qed.

#[export] Instance ArrayDevice_errors : BlockDeviceErrors (list Z) id array_ok.
Proof.
  split; cbn [BLOCK_SIZE_LOG2 ArrayDevice bd_read_at bd_write_at]; unfold array_ok, id; change (2 ^ 2) with 4;
    intros d b buf Hd Hb Hin; exists mkDevError, d; unfold array_read_at, array_write_at;
    by destruct (Z.geb_spec b 4); [|lia].
Qed.

#[export] Instance ArrayDevice_sync : BlockDeviceSync (list Z) id array_ok.
Proof. split. intros d Hd. by exists d. Qed.

(** ** Properties *)

(** Reading bytes from any block device: the call ends without a panic and
    reports how many of the bytes lie on the device; the buffer starts with
    exactly these bytes of the contents, its rest and the contents are as
    before.  Only if the range leaves the device does this need that the
    device refuses such blocks. *)
Theorem Device_read_at_reads {T} `{HBD : BlockDevice T} contents dev_ok
    {HL : BlockDeviceLaws T contents dev_ok} uninit d off buf :
  len uninit = 1024 → dev_ok d → 0 ≤ off → off + len buf < 2 ^ 63 →
  (∀ d, dev_ok d → off + len buf ≤ len (contents d)) ∨ BlockDeviceErrors T contents dev_ok →
  let n := Z.max 0 (Z.min (len buf) (len (contents d) - off)) in
  ∃ d', Device_read_at uninit off buf d =
    Ok ((ok n, splice buf 0 (subl (contents d) off (off + n))), d') ∧
    dev_ok d' ∧ contents d' = contents d.
Proof.
  intros Hu Hok Hoff Hlen Herr n. pose proof (len_nonneg buf). unfold Device_read_at.
  destruct (errs_cases contents dev_ok (off + len buf) Herr) as [Hre _].
  rewrite uadd_small by lia. unfold BlockIter_ranges. cbn [bi_begin bi_end].
  rewrite (BlockIter_collect_ranges _ (k_range contents dev_ok)) by lia. cbn [default from_option].
  destruct (read_loop_spec contents dev_ok uninit Hu (off + len buf) off
    (S (Z.to_nat (off + len buf - off))) off buf d) as (d' & Hrun & Hok' & Hc); try done; try lia.
  exists d'. split; [|done]. unfold id. rewrite Hrun.
  replace (Z.max off (Z.min (off + len buf) (len (contents d)))) with (off + n) by (unfold n; lia).
  replace (off - off) with 0 by lia. do 4 f_equal. lia.
Qed.

Lemma Device_read_at_reads_witness :
  ∃ d', Device_read_at (replicate 1024 7) 11 [0; 0; 0; 0; 0; 8] (seqZ 0 16) =
    Ok ((ok 5, [11; 12; 13; 14; 15; 8]), d') ∧ array_ok d' ∧ id d' = seqZ 0 16.
Proof.
  apply (Device_read_at_reads id array_ok (replicate 1024 7) (seqZ 0 16) 11 [0; 0; 0; 0; 0; 8]).
  - vm_compute. reflexivity.
  - vm_compute. reflexivity.
  - lia.
  - unfold len. simpl. lia.
  - right. apply ArrayDevice_errors.
Defined.

(** Writing bytes to any block device: the call ends without a panic,
    reports how many of the bytes lie on the device, and replaces exactly
    these bytes of the contents, also when only parts of blocks are
    written. *)
Theorem Device_write_at_writes {T} `{HBD : BlockDevice T} contents dev_ok
    {HL : BlockDeviceLaws T contents dev_ok} uninit d off buf :
  len uninit = 1024 → dev_ok d → 0 ≤ off → off + len buf < 2 ^ 63 →
  (∀ d, dev_ok d → off + len buf ≤ len (contents d)) ∨ BlockDeviceErrors T contents dev_ok →
  let n := Z.max 0 (Z.min (len buf) (len (contents d) - off)) in
  ∃ d', Device_write_at uninit off buf d = Ok (ok n, d') ∧ dev_ok d' ∧
    contents d' = if decide (0 < n) then splice (contents d) (Z.to_nat off) (subl buf 0 n)
                  else contents d.
Proof.
  intros Hu Hok Hoff Hlen Herr n. pose proof (len_nonneg buf). unfold Device_write_at.
  destruct (errs_cases contents dev_ok (off + len buf) Herr) as [Hre Hwe].
  rewrite uadd_small by lia. unfold BlockIter_ranges. cbn [bi_begin bi_end].
  rewrite (BlockIter_collect_ranges _ (k_range contents dev_ok)) by lia. cbn [default from_option].
  destruct (write_loop_spec contents dev_ok uninit Hu (off + len buf) off buf
    (S (Z.to_nat (off + len buf - off))) off d) as (d' & Hrun & Hok' & Hc); try done; try lia.
  exists d'. unfold id. rewrite Hrun.
  replace (Z.max off (Z.min (off + len buf) (len (contents d)))) with (off + n) in * by (unfold n; lia).
  split_and!; [do 3 f_equal; lia|done|]. rewrite Hc. replace (off - off) with 0 by lia.
  destruct (decide (off < off + n)), (decide (0 < n)); try lia; [|done]. do 2 f_equal. lia.
Qed.

Lemma Device_write_at_writes_witness :
  ∃ d', Device_write_at (replicate 1024 7) 3 [3; 4; 5; 6; 7; 8] (replicate 16 0) = Ok (ok 6, d') ∧
    array_ok d' ∧ id d' = [0; 0; 0; 3; 4; 5; 6; 7; 8; 0; 0; 0; 0; 0; 0; 0].
Proof.
  apply (Device_write_at_writes id array_ok (replicate 1024 7) (replicate 16 0) 3 [3; 4; 5; 6; 7; 8]).
  - vm_compute. reflexivity.
  - vm_compute. reflexivity.
  - lia.
  - unfold len. simpl. lia.
  - right. apply ArrayDevice_errors.
Defined.
