(* ===== verification/BlockCache.v ===== *)
(** * The block cache ([fs/dev/block_cache.rs])

    A write-back cache in front of any block device, with an LRU list of its
    buffers kept in two index vectors.  The cache runs on one hart and holds
    no guard across calls, so a [try_lock] succeeds and a [MutexGuard<Buf>] is
    the index of its buffer.  The LRU vectors are shown to represent a cyclic
    list; the cache is shown to satisfy the laws of the device it caches. *)

From S2P Require Import Prelude BlockDev.

(** ** [LRU] *)
(** [fs/dev/block_cache.rs:125-128] LRU *)
Record LRU : Type := mkLRU {
  lru_prev : list Z;
  lru_next : list Z;
}.

(** A range [a..b] of indices. *)
Definition range (a b : Z) : list Z := seqZ a (b - a).

(** [fs/dev/block_cache.rs:131-136] LRU::new *)
Definition LRU_new (size : Z) : LRU :=
  mkLRU (range (size -u 1) size ++ range 0 (size -u 1)) (range 1 size ++ range 0 1).

(** [fs/dev/block_cache.rs:149-154] LRU::_list_remove *)
Definition LRU__list_remove (l : LRU) (id : Z) : outcome LRU :=
  let! prev := idx (lru_prev l) id in
  let! next := idx (lru_next l) id in
  let! p := set_idx (lru_prev l) next prev in
  let! n := set_idx (lru_next l) prev next in
  Ok (mkLRU p n).

(** [fs/dev/block_cache.rs:155-161] LRU::_list_insert_head *)
Definition LRU__list_insert_head (l : LRU) (id : Z) : outcome LRU :=
  let! head := idx (lru_next l) 0 in
  let! p := set_idx (lru_prev l) id 0 in
  let! n := set_idx (lru_next l) id head in
  let! n := set_idx n 0 id in
  let! p := set_idx p head id in
  Ok (mkLRU p n).

(** [fs/dev/block_cache.rs:137-144] LRU::visit *)
Definition LRU_visit (l : LRU) (id : Z) : outcome LRU :=
  if (id =? 0) || (id >=? len (lru_prev l)) then Ok l
  else
    let! l := LRU__list_remove l id in
    LRU__list_insert_head l id.

(** [fs/dev/block_cache.rs:145-148] LRU::victim *)
Definition LRU_victim (l : LRU) : outcome Z := idx (lru_prev l) 0.

(** ** The cache *)
(** [fs/dev/block_cache.rs:17-24] BufStatus *)
Inductive BufStatus : Type :=
  | Unused
  | Valid (block_id : Z)
  | Dirty (block_id : Z).
#[export] Instance BufStatus_eq_dec : EqDecision BufStatus.
Proof. solve_decision. Defined.
(** [fs/dev/block_cache.rs:12-15] Buf *)
Record Buf : Type := mkBuf {
  status : BufStatus;
  data : list Z;
}.
(** [fs/dev/block_cache.rs:6-10] BlockCache *)
Record BlockCache (T : Type) : Type := mkBlockCache {
  device : T;
  bufs : list Buf;
  lru : LRU;
}.
Arguments mkBlockCache {T}.
Arguments device {T}.
Arguments bufs {T}.
Arguments lru {T}.

Definition is_unused (b : Buf) : bool := match status b with Unused => true | _ => false end.
Definition holds (block_id : Z) (b : Buf) : bool :=
  match status b with Unused => false | Valid id | Dirty id => id =? block_id end.

(** The index of the first buffer with a property, [iter().enumerate()]. *)
Fixpoint position (f : Buf → bool) (l : list Buf) : option Z :=
  match l with
  | [] => None
  | b :: l => if f b then Some 0 else Z.succ <$> position f l
  end.

Section cache.
Context {T : Type} `{BlockDevice T}.

Definition cache_device : lens (BlockCache T) T :=
  Lens device (λ d c, mkBlockCache d (bufs c) (lru c)).

(** [self.bufs[i]] and assignment through its guard. *)
Definition buf_at (i : Z) : M (BlockCache T) Buf := let* c := get in lift (idx (bufs c) i).
Definition set_buf (i : Z) (b : Buf) : M (BlockCache T) unit :=
  let* c := get in
  let* bs := lift (set_idx (bufs c) i b) in
  put (mkBlockCache (device c) bs (lru c)).

(** [fs/dev/block_cache.rs:27-37] BlockCache::new *)
Definition BlockCache_new (device : T) (capacity : Z) : BlockCache T :=
  mkBlockCache device
    (replicate (Z.to_nat capacity)
       (mkBuf Unused (replicate (Z.to_nat (wrap64 (Z.shiftl 1 (BLOCK_SIZE_LOG2 T)))) 0)))
    (LRU_new capacity).

(** [fs/dev/block_cache.rs:76-82] BlockCache::write_back *)
Definition BlockCache_write_back (i : Z) : M (BlockCache T) (Result unit DevError) :=
  let* buf := buf_at i in
  match status buf with
  | Dirty block_id =>
      let* res := zoom cache_device (bd_write_at block_id (data buf)) in
      match res with
      | err e => ret (err e)
      | ok _ => set_buf i (mkBuf (Valid block_id) (data buf)) ;; ret (ok tt)
      end
  | _ => ret (ok tt)
  end.

(** [fs/dev/block_cache.rs:60-73] BlockCache::get_unused *)
Definition BlockCache_get_unused : M (BlockCache T) Z :=
  let* c := get in
  match position is_unused (bufs c) with
  | Some i => ret i
  | None =>
      let* victim_id := lift (LRU_victim (lru c)) in
      let* res := BlockCache_write_back victim_id in
      lift (unwrap_r res) ;;
      let* victim := buf_at victim_id in
      set_buf victim_id (mkBuf Unused (data victim)) ;;
      ret victim_id
  end.

(** [fs/dev/block_cache.rs:46-57] BlockCache::_get_buf *)
Definition BlockCache__get_buf (block_id : Z) : M (BlockCache T) Z :=
  let* c := get in
  match position (holds block_id) (bufs c) with
  | Some i => ret i
  | None => BlockCache_get_unused
  end.

(** [fs/dev/block_cache.rs:40-44] BlockCache::get_buf *)
Definition BlockCache_get_buf (block_id : Z) : M (BlockCache T) Z :=
  let* i := BlockCache__get_buf block_id in
  let* c := get in
  let* l := lift (LRU_visit (lru c) i) in
  put (mkBlockCache (device c) (bufs c) l) ;;
  ret i.

(** [fs/dev/block_cache.rs:94-104] BlockCache::read_at *)
Definition BlockCache_read_at (block_id : Z) (buffer : list Z) :
    M (BlockCache T) (Result unit DevError * list Z) :=
  let* i := BlockCache_get_buf block_id in
  let* buf := buf_at i in
  let* res :=
    match status buf with
    | Unused =>
        let* '(res, d) := zoom cache_device (bd_read_at block_id (data buf)) in
        match res with
        | err e => set_buf i (mkBuf Unused d) ;; ret (err e)
        | ok _ => set_buf i (mkBuf (Valid block_id) d) ;; ret (ok tt)
        end
    | _ => ret (ok tt)
    end in
  match res with
  | err e => ret (err e, buffer)
  | ok _ =>
      let ln := wrap64 (Z.shiftl 1 (BLOCK_SIZE_LOG2 T)) in
      let* buf := buf_at i in
      let* buffer := lift (copy_into buffer 0 ln (data buf)) in
      ret (ok tt, buffer)
  end.

(** [fs/dev/block_cache.rs:106-112] BlockCache::write_at *)
Definition BlockCache_write_at (block_id : Z) (buffer : list Z) : M (BlockCache T) (Result unit DevError) :=
  let* i := BlockCache_get_buf block_id in
  let* buf := buf_at i in
  set_buf i (mkBuf (Dirty block_id) (data buf)) ;;
  let ln := wrap64 (Z.shiftl 1 (BLOCK_SIZE_LOG2 T)) in
  let* src := lift (slice buffer 0 ln) in
  let* buf := buf_at i in
  let* d := lift (copy_into (data buf) 0 (len (data buf)) src) in
  set_buf i (mkBuf (Dirty block_id) d) ;;
  ret (ok tt).

(** [fs/dev/block_cache.rs:115-117] BlockCache::sync. The loop over the
    buffers left; an error ends it. *)
Fixpoint BlockCache_sync_loop (ids : list Z) : M (BlockCache T) (Result unit DevError) :=
  match ids with
  | [] => ret (ok tt)
  | i :: ids =>
      let* res := BlockCache_write_back i in
      match res with
      | err e => ret (err e)
      | ok _ => BlockCache_sync_loop ids
      end
  end.

(** [fs/dev/block_cache.rs:114-120] BlockCache::sync *)
Definition BlockCache_sync : M (BlockCache T) (Result unit DevError) :=
  let* c := get in
  let* res := BlockCache_sync_loop (range 0 (len (bufs c))) in
  match res with
  | err e => ret (err e)
  | ok _ => zoom cache_device bd_sync
  end.

(** [fs/dev/block_cache.rs:85-89] BlockCache::drop *)
Definition BlockCache_drop : M (BlockCache T) unit :=
  let* res := BlockCache_sync in
  lift (unwrap_r res).

(** [fs/dev/block_cache.rs:91-121] BlockDevice for BlockCache *)
#[export] Instance BlockCache_BlockDevice : BlockDevice (BlockCache T) := {
  BLOCK_SIZE_LOG2 := BLOCK_SIZE_LOG2 T;
  bd_read_at := BlockCache_read_at;
  bd_write_at := BlockCache_write_at;
  bd_sync := BlockCache_sync;
}.
End cache.

(** ** The cyclic list the vectors represent *)
Definition nx (l : LRU) (i : Z) : option Z := lru_next l !! Z.to_nat i.
Definition pv (l : LRU) (i : Z) : option Z := lru_prev l !! Z.to_nat i.

Definition link (l : LRU) (u v : Z) : Prop := nx l u = Some v ∧ pv l v = Some u.
(** Neighbours in [w] are linked both ways. *)
Fixpoint links (l : LRU) (w : list Z) : Prop :=
  match w with
  | u :: w' => (∀ v, head w' = Some v → link l u v) ∧ links l w'
  | [] => True
  end.

(** [order] is the list after the head 0, most recently visited first. *)
Record lru_rep (n : Z) (l : LRU) (order : list Z) : Prop := {
  rep_prev : len (lru_prev l) = n;
  rep_next : len (lru_next l) = n;
  rep_links : links l (0 :: order ++ [0]);
  rep_perm : order ≡ₚ range 1 n;
}.

Lemma links_app l w1 w2 :
  links l (w1 ++ w2) ↔
  links l w1 ∧ links l w2 ∧ ∀ u v, last w1 = Some u → head w2 = Some v → link l u v.
Proof.
  induction w1 as [|x w1 IH]; simpl; [naive_solver|]. rewrite IH.
  destruct w1 as [|y w1]; simpl; naive_solver.
Qed.

(** Links that a write does not touch stay. *)
Lemma links_frame l l' w :
  (∀ i, i ∈ removelast w → nx l' i = nx l i) → (∀ i, i ∈ tail w → pv l' i = pv l i) →
  links l w → links l' w.
Proof.
  induction w as [|u w IH]; [done|]. intros Hn Hp [Hl Hw]. destruct w as [|v w]; [done|].
  split.
  - intros ? [= <-]. destruct (Hl v eq_refl) as [H1 H2]. split.
    + by rewrite Hn by (cbn [removelast]; apply list_elem_of_here).
    + by rewrite Hp by (simpl; apply list_elem_of_here).
  - apply IH; [| |done].
    + intros i Hi. apply Hn. cbn [removelast]. by apply list_elem_of_further.
    + intros i Hi. apply Hp. simpl. by apply list_elem_of_further.
Qed.

Lemma range_elem a b i : i ∈ range a b ↔ a ≤ i < b.
Proof. unfold range. rewrite elem_of_seqZ. lia. Qed.

Lemma len_range a b : a ≤ b → len (range a b) = b - a.
Proof. intros. unfold len, range. rewrite length_seqZ. lia. Qed.

Lemma set_idx_lookup {A} (v : list A) i x :
  0 ≤ i < len v → ∃ v', set_idx v i x = Ok v' ∧ len v' = len v ∧
    ∀ j, 0 ≤ j → v' !! Z.to_nat j = if decide (j = i) then Some x else v !! Z.to_nat j.
Proof.
  intros Hi. unfold set_idx. rewrite (proj2 (Z.ltb_lt _ _)) by lia. eexists. split; [done|].
  unfold len in *. rewrite length_insert. split; [done|]. intros j Hj.
  destruct (decide (j = i)) as [->|]; [by rewrite list_lookup_insert_eq by lia|].
  by rewrite list_lookup_insert_ne by lia.
Qed.

Lemma lru_new_rep n : 1 ≤ n → n < 2 ^ 63 → lru_rep n (LRU_new n) (range 1 n).
Proof.
  intros Hn Hn2. unfold LRU_new. rewrite usub_small by lia.
  assert (Hnx : ∀ i, 0 ≤ i < n → nx (LRU_new n) i = Some (if decide (i = n - 1) then 0 else i + 1)).
  { intros i Hi. unfold nx, LRU_new. cbn [lru_next]. pose proof (len_range 1 n ltac:(lia)) as Hl. unfold len in Hl.
    destruct (decide (i = n - 1)).
    - rewrite lookup_app_r by lia. unfold range in *. apply lookup_seqZ. lia.
    - rewrite lookup_app_l by lia. unfold range in *. apply lookup_seqZ. lia. }
  assert (Hpv : ∀ i, 0 ≤ i < n → pv (LRU_new n) i = Some (if decide (i = 0) then n - 1 else i - 1)).
  { intros i Hi. unfold pv, LRU_new. rewrite usub_small by lia. cbn [lru_prev].
    pose proof (len_range (n - 1) n ltac:(lia)) as Hl. unfold len in Hl. destruct (decide (i = 0)).
    - rewrite lookup_app_l by lia. unfold range in *. apply lookup_seqZ. lia.
    - rewrite lookup_app_r by lia. unfold range in *. apply lookup_seqZ. lia. }
  unfold LRU_new in Hnx, Hpv. rewrite usub_small in Hnx, Hpv by lia.
  split; [| | |done].
  - simpl. unfold len. rewrite length_app. pose proof (len_range (n - 1) n). pose proof (len_range 0 (n - 1)).
    unfold len in *. lia.
  - simpl. unfold len. rewrite length_app. pose proof (len_range 1 n). pose proof (len_range 0 1).
    unfold len in *. lia.
  - set (lru := mkLRU _ _) in *.
    assert (Hc : ∀ m x, 0 ≤ x → x + Z.of_nat m = n - 1 → links lru (x :: seqZ (x + 1) (Z.of_nat m) ++ [0])).
    { induction m as [|m IH]; intros x Hx Hm.
      - simpl. split; [|done]. intros ? [= <-]. split; [rewrite Hnx by lia|rewrite Hpv by lia].
        + by rewrite decide_True by lia.
        + rewrite decide_True by lia. f_equal. lia.
      - rewrite seqZ_cons by lia. replace (Z.pred (Z.of_nat (S m))) with (Z.of_nat m) by lia. split; [|apply IH; lia].
        intros ? [= <-]. split; [rewrite Hnx by lia|rewrite Hpv by lia].
        + by rewrite decide_False by lia.
        + rewrite decide_False by lia. f_equal. lia. }
    unfold range. specialize (Hc (Z.to_nat (n - 1)) 0). rewrite Z2Nat.id in Hc by lia. apply Hc; lia.
Qed.

Lemma lru_victim_rep n l order :
  lru_rep n l order → LRU_victim l = Ok (default 0 (last order)).
Proof.
  intros R. unfold LRU_victim. apply idx_Ok. change (pv l 0 = Some (default 0 (last order))).
  pose proof (rep_links _ _ _ R) as Hc. rewrite app_comm_cons in Hc. apply links_app in Hc as (_ & _ & Hc).
  apply (Hc (default 0 (last order)) 0); [|done]. rewrite last_cons. by destruct (last order).
Qed.

Lemma elem_removelast {A} (w : list A) i : i ∈ removelast w → i ∈ w.
Proof.
  induction w as [|u w IH]; [done|]. destruct w as [|v w]; [by intros ?%elem_of_nil|].
  change (removelast (u :: v :: w)) with (u :: removelast (v :: w)).
  rewrite (elem_of_cons (removelast _)), (elem_of_cons (v :: w)). tauto.
Qed.

Lemma not_removelast {A} (w : list A) i : NoDup w → last w = Some i → i ∉ removelast w.
Proof.
  destruct w as [|x w _] using rev_ind; [done|]. rewrite last_snoc, removelast_last.
  intros Hnd [= ->]. apply NoDup_app in Hnd. set_solver.
Qed.

Lemma not_tail_snoc (w : list Z) x i : NoDup w → x ∉ w → head (w ++ [x]) = Some i → i ∉ tail (w ++ [x]).
Proof.
  intros Hnd Hx. destruct w as [|z w]; simpl; [set_solver|]. intros [= ->].
  apply NoDup_cons in Hnd as [? _]. set_solver.
Qed.

Lemma filter_id {A} (P : A → Prop) `{∀ x, Decision (P x)} (l : list A) : (∀ x, x ∈ l → P x) → filter P l = l.
Proof.
  induction l as [|x l IH]; intros Hl; [done|]. rewrite filter_cons_True by (apply Hl; set_solver).
  f_equal. apply IH. set_solver.
Qed.

Section lru_steps.
Context (n : Z).

(** Unlinking an inner element. *)
Lemma lru_remove_rep l a id b :
  len (lru_prev l) = n → len (lru_next l) = n →
  (∀ i, i ∈ 0 :: a ++ id :: b → 0 ≤ i < n) → NoDup (0 :: a ++ id :: b) →
  links l (0 :: (a ++ id :: b) ++ [0]) →
  ∃ l', LRU__list_remove l id = Ok l' ∧ len (lru_prev l') = n ∧ len (lru_next l') = n ∧
    links l' (0 :: (a ++ b) ++ [0]).
Proof.
  intros Hp Hn Hr Hnd Hc. rewrite <- app_assoc, app_comm_cons in Hc.
  apply links_app in Hc as (Hc1 & Hc2 & Hj1).
  change ((id :: b) ++ [0]) with ([id] ++ (b ++ [0])) in Hc2. apply links_app in Hc2 as (_ & Hc2 & Hj2).
  set (p := default 0 (last a)). set (q := default 0 (head b)).
  assert (Elast : last (0 :: a) = Some p) by (rewrite last_cons; unfold p; by destruct (last a)).
  assert (Ehead : head (b ++ [0]) = Some q) by (unfold q; by destruct b).
  destruct (Hj1 p id Elast eq_refl) as [_ Hpid]. destruct (Hj2 id q eq_refl Ehead) as [Hqid _].
  assert (Hpr : p ∈ 0 :: a) by (by apply last_Some_elem_of).
  assert (Hqr : q ∈ b ++ [0]) by (by apply head_Some_elem_of).
  assert (0 ≤ p < n) by (apply Hr; set_solver). assert (0 ≤ q < n) by (apply Hr; set_solver).
  unfold LRU__list_remove. rewrite (proj2 (idx_Ok _ _ _) Hpid), (proj2 (idx_Ok _ _ _) Hqid). cbn [obind].
  destruct (set_idx_lookup (lru_prev l) q p) as (v1 & -> & L1 & V1); [lia|].
  destruct (set_idx_lookup (lru_next l) p q) as (v2 & -> & L2 & V2); [lia|].
  cbn [obind]. eexists. split; [done|]. cbn [lru_prev lru_next]. split_and!; [lia|lia|].
  assert (Hnx : ∀ i, 0 ≤ i → nx (mkLRU v1 v2) i = if decide (i = p) then Some q else nx l i) by apply V2.
  assert (Hpv : ∀ i, 0 ≤ i → pv (mkLRU v1 v2) i = if decide (i = q) then Some p else pv l i) by apply V1.
  rewrite <- app_assoc, app_comm_cons. apply links_app.
  apply NoDup_cons in Hnd as [Hz Hnd]. apply NoDup_app in Hnd as (Ha & Hab & Hb). apply NoDup_cons in Hb as [Hidb Hb].
  assert (D1 : ∀ i, i ∈ a → i ∉ b ++ [0]) by (clear -Hz Hab; set_solver).
  assert (D2 : ∀ i, i ∈ b → i ∉ 0 :: a) by (clear -Hz Hab; set_solver).
  assert (D3 : NoDup (0 :: a)) by (constructor; [clear -Hz; set_solver|done]).
  split_and!.
  - apply links_frame with l; [| |done].
    + intros i Hi. rewrite Hnx by (apply elem_removelast in Hi; apply Hr; set_solver).
      rewrite decide_False; [done|]. intros ->. revert Hi. by apply not_removelast.
    + intros i Hi. simpl in Hi. rewrite Hpv by (apply Hr; set_solver).
      rewrite decide_False; [done|]. intros ->. by apply (D1 q).
  - apply links_frame with l; [| |done].
    + intros i Hi. rewrite removelast_last in Hi. rewrite Hnx by (apply Hr; set_solver).
      rewrite decide_False; [done|]. intros ->. by apply (D2 p).
    + intros i Hi. assert (Hr' : 0 ≤ i) by (apply Hr; destruct b; clear -Hi; set_solver).
      rewrite Hpv by done. rewrite decide_False; [done|]. intros ->.
      by apply (not_tail_snoc b 0 q Hb ltac:(clear -Hz; set_solver) Ehead).
  - intros u v Hu Hv. rewrite Elast in Hu. rewrite Ehead in Hv. simplify_eq.
    split; [rewrite Hnx by lia|rewrite Hpv by lia]; by rewrite decide_True.
Qed.

(** Linking an element in after the head. *)
Lemma lru_insert_rep l id c :
  len (lru_prev l) = n → len (lru_next l) = n →
  (∀ i, i ∈ 0 :: id :: c → 0 ≤ i < n) → NoDup (0 :: id :: c) →
  links l (0 :: c ++ [0]) →
  ∃ l', LRU__list_insert_head l id = Ok l' ∧ len (lru_prev l') = n ∧ len (lru_next l') = n ∧
    links l' (0 :: (id :: c) ++ [0]).
Proof.
  intros Hp Hn Hr Hnd Hc. change (0 :: c ++ [0]) with ([0] ++ (c ++ [0])) in Hc.
  apply links_app in Hc as (_ & Hc & Hj). set (h := default 0 (head c)).
  assert (Ehead : head (c ++ [0]) = Some h) by (unfold h; by destruct c).
  destruct (Hj 0 h eq_refl Ehead) as [Hh _].
  assert (Hhr : h ∈ c ++ [0]) by (by apply head_Some_elem_of).
  assert (0 ≤ h < n) by (apply Hr; set_solver). assert (0 ≤ id < n) by (apply Hr; set_solver).
  unfold LRU__list_insert_head. rewrite (proj2 (idx_Ok _ 0 _) Hh). cbn [obind].
  destruct (set_idx_lookup (lru_prev l) id 0) as (v1 & -> & L1 & V1); [lia|].
  destruct (set_idx_lookup (lru_next l) id h) as (v2 & -> & L2 & V2); [lia|]. cbn [obind].
  destruct (set_idx_lookup v2 0 id) as (v3 & -> & L3 & V3); [lia|]. cbn [obind].
  destruct (set_idx_lookup v1 h id) as (v4 & -> & L4 & V4); [lia|].
  cbn [obind]. eexists. split; [done|]. cbn [lru_prev lru_next]. split_and!; [lia|lia|].
  assert (Hnx : ∀ i, 0 ≤ i → nx (mkLRU v4 v3) i =
    if decide (i = 0) then Some id else if decide (i = id) then Some h else nx l i).
  { intros i Hi. unfold nx. cbn [lru_next]. by rewrite V3, V2. }
  assert (Hpv : ∀ i, 0 ≤ i → pv (mkLRU v4 v3) i =
    if decide (i = h) then Some id else if decide (i = id) then Some 0 else pv l i).
  { intros i Hi. unfold pv. cbn [lru_prev]. by rewrite V4, V1. }
  apply NoDup_cons in Hnd as [Hz Hnd]. apply NoDup_cons in Hnd as [Hidc Hnd].
  change (0 :: (id :: c) ++ [0]) with ([0; id] ++ (c ++ [0])). apply links_app. split_and!.
  - simpl. split_and!; [|done..]. intros ? [= <-]. split; [by rewrite Hnx|].
    rewrite Hpv by lia. rewrite decide_False by (intros ->; set_solver). by rewrite decide_True.
  - apply links_frame with l; [| |done].
    + intros i Hi. rewrite removelast_last in Hi. rewrite Hnx by (apply Hr; set_solver).
      by rewrite !decide_False by (intros ->; set_solver).
    + intros i Hi. assert (Hic : i ∈ c ++ [0]) by (clear -Hi; destruct c; set_solver).
      rewrite Hpv by (apply Hr; clear -Hic; set_solver).
      rewrite (decide_False (P := i = id)) by (intros ->; clear -Hic Hidc Hz; set_solver).
      rewrite decide_False; [done|]. intros ->.
      by apply (not_tail_snoc c 0 h Hnd ltac:(clear -Hz; set_solver) Ehead).
  - intros u v [= <-] Hv. rewrite Ehead in Hv. simplify_eq. split.
    + rewrite Hnx by lia. rewrite decide_False by (intros ->; set_solver). by rewrite decide_True.
    + rewrite Hpv by lia. by rewrite decide_True.
Qed.

(** The order after [visit id]: everything but 0 moves to the front. *)
Definition lru_moved (order : list Z) (id : Z) : list Z :=
  if (id =? 0) || (id >=? n) then order else id :: filter (λ i, i ≠ id) order.

Lemma lru_visit_rep l order id :
  0 < n → 0 ≤ id → lru_rep n l order →
  ∃ l', LRU_visit l id = Ok l' ∧ lru_rep n l' (lru_moved order id).
Proof.
  intros Hn0 Hid [Hp Hn Hl Hperm]. unfold LRU_visit, lru_moved. rewrite Hp.
  destruct (Z.eqb_spec id 0); [by exists l|]. destruct (Z.geb_spec id n); [by exists l|]. cbn [orb].
  assert (Hin : id ∈ order) by (rewrite Hperm; apply range_elem; lia).
  assert (Hnd0 : NoDup (0 :: order)).
  { apply NoDup_cons. rewrite Hperm, range_elem. split; [lia|]. apply NoDup_seqZ. }
  assert (Hr0 : ∀ i, i ∈ 0 :: order → 0 ≤ i < n).
  { intros i. rewrite elem_of_cons, Hperm, range_elem. lia. }
  apply list_elem_of_split in Hin as (a & b & ->).
  destruct (lru_remove_rep l a id b Hp Hn Hr0 Hnd0 Hl) as (l1 & -> & Hp1 & Hn1 & Hl1). cbn [obind].
  assert (Hpm : 0 :: a ++ id :: b ≡ₚ 0 :: id :: a ++ b) by (by rewrite <- Permutation_middle).
  assert (Hfil : filter (λ i, i ≠ id) (a ++ id :: b) = a ++ b).
  { apply NoDup_cons in Hnd0 as [_ Hnd0]. apply NoDup_app in Hnd0 as (_ & Hab & Hb). apply NoDup_cons in Hb as [Hb _].
    rewrite filter_app, filter_cons_False by naive_solver. f_equal; apply filter_id; intros i Hi ->; set_solver. }
  rewrite Hfil.
  destruct (lru_insert_rep l1 id (a ++ b)) as (l2 & -> & Hp2 & Hn2 & Hl2); try done.
  { intros i. rewrite <- Hpm. apply Hr0. } { by rewrite <- Hpm. }
  exists l2. split; [done|]. split; [done|done|done|]. by rewrite Permutation_middle.
Qed.
End lru_steps.

(** ** Blocks of the contents *)
Section blocks.
Context (bs : Z) (Hbs : 1 ≤ bs).

Definition block (c : list Z) (b : Z) : list Z := subl c (b * bs) ((b + 1) * bs).
Definition inside (n b : Z) : Prop := 0 ≤ b ∧ (b + 1) * bs ≤ n.

Lemma len_block (c : list Z) b : inside (len c) b → len (block c b) = bs.
Proof. intros [? ?]. unfold block. rewrite len_subl by nia. lia. Qed.

Lemma len_splice_block (c : list Z) b d : inside (len c) b → len d = bs → len (splice c (Z.to_nat (b * bs)) d) = len c.
Proof. intros [? ?] ?. unfold len in *. rewrite length_splice by nia. done. Qed.

Lemma block_splice_eq c b d :
  inside (len c) b → len d = bs → block (splice c (Z.to_nat (b * bs)) d) b = d.
Proof.
  intros [? ?] ?. unfold block, len in *. rewrite subl_splice_in by nia.
  unfold subl. rewrite take_ge by (rewrite length_drop; nia). replace (Z.to_nat _) with O by nia. done.
Qed.

Lemma block_splice_ne c b b' d :
  inside (len c) b → inside (len c) b' → len d = bs → b ≠ b' →
  block (splice c (Z.to_nat (b * bs)) d) b' = block c b'.
Proof.
  intros [? ?] [? ?] ? Hne. unfold block, len in *. apply list_eq. intros i. rewrite !lookup_subl by nia.
  case_decide; [|done]. rewrite lookup_splice by nia. rewrite decide_False; [done|]. nia.
Qed.

Lemma block_ext c c' :
  len c = len c' → len c mod bs = 0 → (∀ b, inside (len c) b → block c b = block c' b) → c = c'.
Proof.
  intros Hl Hm Hb. apply list_eq. intros i. destruct (decide (Z.of_nat i < len c)) as [Hi|Hi].
  - destruct (inside_block (len c) bs (Z.of_nat i) Hbs Hm ltac:(lia)) as [B1 B2].
    specialize (Hb (Z.of_nat i / bs) (conj B1 B2)).
    pose proof (Z.div_mod (Z.of_nat i) bs ltac:(lia)). pose proof (Z.mod_pos_bound (Z.of_nat i) bs ltac:(lia)).
    apply (f_equal (lookup (Z.to_nat (Z.of_nat i mod bs)))) in Hb. unfold block in Hb.
    rewrite !lookup_subl, !decide_True in Hb by nia.
    by replace (Z.to_nat (Z.of_nat i / bs * bs) + Z.to_nat (Z.of_nat i mod bs))%nat with i in Hb by nia.
  - unfold len in *. rewrite !lookup_ge_None_2 by lia. done.
Qed.

(** The device's contents with the dirty buffers written over them. *)
Definition overlay (c : list Z) (l : list Buf) : list Z :=
  foldr (λ b acc, match status b with
                  | Dirty id => splice acc (Z.to_nat (id * bs)) (data b)
                  | _ => acc
                  end) c l.

Record bufs_ok (c : list Z) (l : list Buf) : Prop := {
  bo_len i b : l !! i = Some b → len (data b) = bs;
  bo_in i b id : l !! i = Some b → holds id b = true → inside (len c) id;
  bo_valid i b id : l !! i = Some b → status b = Valid id → data b = block c id;
  bo_uniq i j bi bj id : l !! i = Some bi → l !! j = Some bj →
    holds id bi = true → holds id bj = true → i = j;
}.

Lemma holds_dirty id b : status b = Dirty id → holds id b = true.
Proof. unfold holds. intros ->. apply Z.eqb_refl. Qed.
Lemma holds_valid id b : status b = Valid id → holds id b = true.
Proof. unfold holds. intros ->. apply Z.eqb_refl. Qed.
Lemma holds_cases id b : holds id b = true → status b = Valid id ∨ status b = Dirty id.
Proof. unfold holds. destruct (status b); intros ?; [done|left|right]; f_equal; lia. Qed.

Lemma bufs_ok_tail c b l : bufs_ok c (b :: l) → bufs_ok c l.
Proof.
  intros [H1 H2 H3 H4]. split.
  - intros i. apply (H1 (S i)).
  - intros i. apply (H2 (S i)).
  - intros i. apply (H3 (S i)).
  - intros i j bi bj id Hi Hj Hbi Hbj. pose proof (H4 (S i) (S j) bi bj id Hi Hj Hbi Hbj). lia.
Qed.

Lemma len_overlay c l : bufs_ok c l → len (overlay c l) = len c.
Proof.
  induction l as [|b l IH]; intros Hok; [done|]. specialize (IH (bufs_ok_tail _ _ _ Hok)). simpl.
  destruct (status b) eqn:E; [done|done|]. rewrite len_splice_block; [done| |].
  - rewrite IH. apply (bo_in _ _ Hok O b); [done|]. by apply holds_dirty.
  - by apply (bo_len _ _ Hok O).
Qed.

Lemma overlay_dirty c l i b id :
  bufs_ok c l → l !! i = Some b → status b = Dirty id → block (overlay c l) id = data b.
Proof.
  revert i. induction l as [|b0 l IH]; intros i Hok Hi Hs; [done|].
  pose proof (bufs_ok_tail _ _ _ Hok) as Hok'.
  assert (Hb0 : ∀ id0, status b0 = Dirty id0 → inside (len (overlay c l)) id0).
  { intros. rewrite len_overlay by done. apply (bo_in _ _ Hok O b0); [done|]. by apply holds_dirty. }
  destruct i as [|i]; simpl in Hi.
  - simplify_eq. simpl. rewrite Hs. apply block_splice_eq; [by apply Hb0|by apply (bo_len _ _ Hok O)].
  - simpl. destruct (status b0) as [| |id0] eqn:E; [by eapply IH..|].
    rewrite block_splice_ne; [by eapply IH|by apply Hb0| |by apply (bo_len _ _ Hok O)|].
    + rewrite len_overlay by done. apply (bo_in _ _ Hok (S i) b); [done|]. by apply holds_dirty.
    + intros ->. by pose proof (bo_uniq _ _ Hok O (S i) b0 b id eq_refl Hi (holds_dirty _ _ E) (holds_dirty _ _ Hs)).
Qed.

Lemma overlay_clean c l id :
  bufs_ok c l → inside (len c) id → (∀ i b, l !! i = Some b → status b ≠ Dirty id) →
  block (overlay c l) id = block c id.
Proof.
  induction l as [|b0 l IH]; intros Hok Hin Hs; [done|]. pose proof (bufs_ok_tail _ _ _ Hok) as Hok'.
  simpl. specialize (IH Hok' Hin (λ i, Hs (S i))). destruct (status b0) as [| |id0] eqn:E; [done|done|].
  rewrite block_splice_ne; [done| | |by apply (bo_len _ _ Hok O)|].
  - rewrite len_overlay by done. apply (bo_in _ _ Hok O b0); [done|]. by apply holds_dirty.
  - by rewrite len_overlay.
  - intros ->. by apply (Hs O b0).
Qed.

(** A buffer holding a block has its current contents. *)
Lemma overlay_hit c l i b id :
  bufs_ok c l → l !! i = Some b → holds id b = true → block (overlay c l) id = data b.
Proof.
  intros Hok Hi Hh. destruct (holds_cases _ _ Hh) as [E|E]; [|by eapply overlay_dirty].
  rewrite (bo_valid _ _ Hok i b id) by done. apply overlay_clean; [done|by eapply bo_in|].
  intros j bj Hj Hd. pose proof (bo_uniq _ _ Hok i j b bj id Hi Hj Hh (holds_dirty _ _ Hd)). congruence.
Qed.

Lemma dirty_dec (l : list Buf) id :
  (∃ i b, l !! i = Some b ∧ status b = Dirty id) ∨ (∀ i b, l !! i = Some b → status b ≠ Dirty id).
Proof.
  destruct (decide (Exists (λ b, status b = Dirty id) l)) as [H|H].
  - left. apply Exists_exists in H as (b & [i Hi]%list_elem_of_lookup & Hs). by exists i, b.
  - right. intros i b Hi Hs. apply H, Exists_exists. exists b. split; [|done]. by eapply list_elem_of_lookup_2.
Qed.

Section replace.
Context (c : list Z) (l : list Buf) (i : nat) (b b' : Buf).
Context (Hok : bufs_ok c l) (Hi : l !! i = Some b).

Lemma insert_cases j bj :
  <[i:=b']> l !! j = Some bj → (j = i ∧ bj = b') ∨ (j ≠ i ∧ l !! j = Some bj).
Proof using Hi.
  intros Hj. destruct (decide (j = i)) as [->|]; [left|right].
  - apply lookup_lt_Some in Hi as Hlt. rewrite list_lookup_insert_eq in Hj by done. naive_solver.
  - rewrite list_lookup_insert_ne in Hj by done. done.
Qed.

(** No other buffer holds the block. *)
Definition alone (id : Z) : Prop := ∀ j bj, l !! j = Some bj → holds id bj = true → j = i.

Lemma bufs_ok_replace c' :
  len c' = len c → len (data b') = bs →
  (∀ id, holds id b' = true → inside (len c) id ∧ alone id) →
  (∀ id, status b' = Valid id → data b' = block c' id) →
  (∀ j bj id, j ≠ i → l !! j = Some bj → status bj = Valid id → block c' id = block c id) →
  bufs_ok c' (<[i:=b']> l).
Proof using Hok Hi.
  intros Hc Hd Hh Hv Ho. split.
  - intros j bj [[-> ->]|[_ Hj]]%insert_cases; [done|by eapply bo_len].
  - intros j bj id [[-> ->]|[_ Hj]]%insert_cases Hhj; rewrite Hc; [by apply Hh|by eapply bo_in].
  - intros j bj id [[-> ->]|[Hne Hj]]%insert_cases Hsj; [by apply Hv|].
    rewrite (Ho j bj) by done. by eapply bo_valid.
  - intros j j' bj bj' id Hj Hj' Hb Hb'.
    apply insert_cases in Hj as [[-> ->]|[Hne Hj]]; apply insert_cases in Hj' as [[-> ->]|[Hne' Hj']].
    + done.
    + by destruct (Hh id Hb) as [_ ->%(λ f, f j' bj' Hj' Hb')].
    + by destruct (Hh id Hb') as [_ ->%(λ f, f j bj Hj Hb)].
    + by apply (bo_uniq _ _ Hok j j' bj bj' id).
Qed.

(** A buffer that stays clean. *)
Lemma overlay_replace_clean :
  (∀ id, status b ≠ Dirty id) → (∀ id, status b' ≠ Dirty id) → overlay c (<[i:=b']> l) = overlay c l.
Proof using Hi.
  clear Hok. revert i Hi. induction l as [|x l' IH]; intros [|j] Hj Hb Hb'; [done..| |]; simpl in Hj |- *.
  - simplify_eq. destruct (status b) as [| |x], (status b') as [| |y]; first [done|by destruct (Hb x)|by destruct (Hb' y)].
  - by rewrite IH.
Qed.

(** A dirty buffer that is written back. *)
Lemma overlay_write_back id :
  status b = Dirty id → (∀ id, status b' ≠ Dirty id) → len c mod bs = 0 →
  bufs_ok (splice c (Z.to_nat (id * bs)) (data b)) (<[i:=b']> l) →
  overlay (splice c (Z.to_nat (id * bs)) (data b)) (<[i:=b']> l) = overlay c l.
Proof using Hok Hi Hbs.
  intros Hs Hb' Hm Hok'. set (c' := splice c _ _) in *.
  assert (Hlen : len (data b) = bs) by (by apply (bo_len _ _ Hok i)).
  assert (Hin : inside (len c) id) by (apply (bo_in _ _ Hok i b); [done|by apply holds_dirty]).
  assert (Hc : len c' = len c) by (by apply len_splice_block).
  apply block_ext; rewrite ?len_overlay by done; [done|by rewrite Hc|]. rewrite Hc. intros id0 Hin0.
  destruct (dirty_dec (<[i:=b']> l) id0) as [(j & bj & Hj & Hsj)|Hno].
  - rewrite (overlay_dirty c' _ j bj id0) by done.
    apply insert_cases in Hj as [[-> ->]|[Hne Hj]]; [by destruct (Hb' id0)|].
    by rewrite (overlay_dirty c _ j bj id0).
  - rewrite overlay_clean by (rewrite ?Hc; done).
    destruct (decide (id0 = id)) as [->|Hne].
    + rewrite (overlay_dirty c l i b id) by done. by apply block_splice_eq.
    + rewrite overlay_clean; [by apply block_splice_ne|done..|].
      intros j bj Hj Hsj. destruct (decide (j = i)) as [->|]; [congruence|].
      apply (Hno j bj); [|done]. by rewrite list_lookup_insert_ne.
Qed.

(** A block that is written into its buffer, or into an unused one. *)
Lemma overlay_write id :
  status b' = Dirty id → (status b = Unused ∨ holds id b = true) → alone id → inside (len c) id →
  len c mod bs = 0 → bufs_ok c (<[i:=b']> l) →
  overlay c (<[i:=b']> l) = splice (overlay c l) (Z.to_nat (id * bs)) (data b').
Proof using Hok Hi Hbs.
  intros Hs' Hb Hal Hin Hm Hok'. apply lookup_lt_Some in Hi as Hlt.
  assert (Hi' : <[i:=b']> l !! i = Some b') by (by apply list_lookup_insert_eq).
  assert (Hlen : len (data b') = bs) by (by apply (bo_len _ _ Hok' i)).
  assert (Hin' : inside (len (overlay c l)) id) by (by rewrite len_overlay).
  apply block_ext; rewrite ?len_splice_block, ?len_overlay by done; [done..|]. intros id0 Hin0.
  destruct (decide (id0 = id)) as [->|Hne].
  - rewrite (overlay_dirty _ _ i b' id) by done. by rewrite block_splice_eq.
  - rewrite block_splice_ne; [|done|by rewrite len_overlay|done|done].
    destruct (dirty_dec l id0) as [(j & bj & Hj & Hsj)|Hno].
    + rewrite (overlay_dirty c l j bj id0) by done. apply (overlay_dirty _ _ j); [done| |done].
      rewrite list_lookup_insert_ne; [done|]. intros <-. rewrite Hi in Hj. simplify_eq.
      destruct Hb as [Hb|[Hb|Hb]%holds_cases]; congruence.
    + rewrite !overlay_clean; [done|done..|].
      intros j bj [[-> ->]|[_ Hj]]%insert_cases; [congruence|by apply (Hno j)].
Qed.
End replace.
End blocks.

Lemma position_Some f l i : position f l = Some i → 0 ≤ i ∧ ∃ b, l !! Z.to_nat i = Some b ∧ f b = true.
Proof.
  revert i. induction l as [|b l IH]; intros i; simpl; [done|].
  destruct (f b) eqn:E; [intros [= <-]; split; [lia|by exists b]|].
  destruct (position f l) as [j|]; [|done]. intros [= <-]. destruct (IH j eq_refl) as (? & b' & ? & ?).
  split; [lia|]. exists b'. by replace (Z.to_nat (Z.succ j)) with (S (Z.to_nat j)) by lia.
Qed.

Lemma position_None f l i b : position f l = None → l !! i = Some b → f b = false.
Proof.
  revert i. induction l as [|b0 l IH]; intros i; simpl; [done|].
  destruct (f b0) eqn:E; [done|]. destruct (position f l) eqn:Ep; [done|].
  intros _. destruct i as [|i]; simpl; [congruence|by apply IH].
Qed.

(** ** The cache is the device it caches *)
Section cache_proofs.
Context {T : Type} `{HBD : BlockDevice T} (contents : T → list Z) (dev_ok : T → Prop).
Context {HL : BlockDeviceLaws T contents dev_ok}.

Abbreviation bs := (2 ^ BLOCK_SIZE_LOG2 T).
Definition cache_contents (c : BlockCache T) : list Z := overlay bs (contents (device c)) (bufs c).

Record cache_ok (c : BlockCache T) : Prop := {
  co_dev : dev_ok (device c);
  co_size : 1 ≤ len (bufs c) < 2 ^ 63;
  co_lru : ∃ order, lru_rep (len (bufs c)) (lru c) order;
  co_bufs : bufs_ok bs (contents (device c)) (bufs c);
}.

Lemma cache_bs : 1 ≤ bs.
Proof. pose proof (bs_bounds contents dev_ok). lia. Qed.
#[local] Hint Resolve cache_bs : core.
Lemma cache_ln : wrap64 (Z.shiftl 1 (BLOCK_SIZE_LOG2 T)) = bs.
Proof. apply block_size_eq, (k_range contents dev_ok). Qed.

Lemma len_cache c : cache_ok c → len (cache_contents c) = len (contents (device c)).
Proof. intros Hc. apply len_overlay; [done|]. apply (co_bufs _ Hc). Qed.

Lemma buf_at_run (c : BlockCache T) i b : bufs c !! Z.to_nat i = Some b → buf_at i c = Ok (b, c).
Proof. intros Hi. unfold buf_at, bind, get, lift. by rewrite (proj2 (idx_Ok _ _ _) Hi). Qed.

Lemma set_buf_run (c : BlockCache T) i b b0 :
  bufs c !! Z.to_nat i = Some b0 → 0 ≤ i →
  set_buf i b c = Ok (tt, mkBlockCache (device c) (<[Z.to_nat i:=b]> (bufs c)) (lru c)).
Proof.
  intros Hi H0. apply lookup_lt_Some in Hi. unfold set_buf, bind, get, lift, set_idx, put, len.
  rewrite (proj2 (Z.ltb_lt _ _)) by lia. done.
Qed.

Lemma alone_holder c l i b id :
  bufs_ok bs c l → l !! i = Some b → holds id b = true → alone l i id.
Proof. intros Hok Hi Hh j bj Hj Hhj. by apply (bo_uniq _ _ _ Hok j i bj b id). Qed.

Lemma cache_replace c d b' i l' :
  cache_ok c → l' = <[i:=b']> (bufs c) → dev_ok d → bufs_ok bs (contents d) l' →
  cache_ok (mkBlockCache d l' (lru c)).
Proof.
  intros [H1 H2 H3 H4] -> Hd Hb. split; cbn [device bufs lru]; [done| | |done].
  - unfold len in *. by rewrite length_insert.
  - unfold len in *. by rewrite length_insert.
Qed.

Definition clean (b : Buf) : Buf :=
  match status b with Dirty id => mkBuf (Valid id) (data b) | _ => b end.

Lemma write_back_spec c i b :
  cache_ok c → 0 ≤ i → bufs c !! Z.to_nat i = Some b →
  ∃ d, let c' := mkBlockCache d (<[Z.to_nat i := clean b]> (bufs c)) (lru c) in
    BlockCache_write_back i c = Ok (ok tt, c') ∧ cache_ok c' ∧ cache_contents c' = cache_contents c.
Proof.
  intros Hc H0 Hi. unfold BlockCache_write_back, clean. rewrite (bind_run _ _ _ _ _ (buf_at_run _ _ _ Hi)).
  destruct (status b) as [|id|id] eqn:Hs.
  1-2: exists (device c); rewrite list_insert_id by done; destruct c; done.
  pose proof (co_bufs _ Hc) as Hok. pose proof (bo_len _ _ _ Hok _ _ Hi) as Hlen.
  pose proof (bo_in _ _ _ Hok _ _ _ Hi (holds_dirty _ _ Hs)) as Hin.
  destruct (law_write (device c) id (data b)) as (d & Hrun & Hd & Hcd);
    [apply Hc|apply Hin|apply Hin|lia|].
  rewrite take_ge in Hcd by (unfold len in Hlen; lia).
  set (c1 := mkBlockCache d (bufs c) (lru c)).
  exists d. rewrite (bind_run _ _ c (ok tt) c1).
  2: { unfold zoom. cbn [view cache_device]. rewrite Hrun. done. }
  rewrite (bind_run _ _ _ _ _ (set_buf_run c1 i (mkBuf (Valid id) (data b)) b Hi H0)). subst c1. cbn [device bufs lru].
  assert (Hok' : bufs_ok bs (contents d) (<[Z.to_nat i:=mkBuf (Valid id) (data b)]> (bufs c))).
  { rewrite Hcd. apply bufs_ok_replace with (contents (device c)) b; [exact Hok|exact Hi| |exact Hlen| | |].
    - by apply len_splice_block.
    - intros id' Hh. apply Z.eqb_eq in Hh as <-. split; [done|]. eapply alone_holder; [done..|by apply holds_dirty].
    - intros id' [= <-]. symmetry. by apply block_splice_eq.
    - intros j bj id' Hne Hj Hsj. apply block_splice_ne; [done|done| |done|].
      + apply (bo_in _ _ _ Hok j bj); [done|by apply holds_valid].
      + intros ->. apply Hne. apply (bo_uniq _ _ _ Hok j (Z.to_nat i) bj b id'); [done..|by apply holds_valid|by apply holds_dirty]. }
  split_and!; [done|by eapply cache_replace|]. unfold cache_contents. cbn [device bufs]. rewrite Hcd in Hok' |- *.
  apply overlay_write_back with (1 := cache_bs); try done. by apply law_size, Hc.
Qed.

(** The buffer that is used for a block nobody holds. *)
Lemma get_unused_spec c :
  cache_ok c →
  ∃ i c' b, BlockCache_get_unused c = Ok (i, c') ∧ cache_ok c' ∧ cache_contents c' = cache_contents c ∧
    0 ≤ i ∧ bufs c' !! Z.to_nat i = Some b ∧ status b = Unused ∧
    ∀ id, (∀ j bj, bufs c !! j = Some bj → holds id bj = false) →
          (∀ j bj, bufs c' !! j = Some bj → holds id bj = false).
Proof.
  intros Hc. unfold BlockCache_get_unused. rewrite (bind_run _ _ c c c) by done.
  destruct (position is_unused (bufs c)) as [i|] eqn:Hp.
  { apply position_Some in Hp as (H0 & b & Hi & Hu). exists i, c, b. split_and!; try done.
    unfold is_unused in Hu. by destruct (status b). }
  destruct (co_lru _ Hc) as [order Ho]. rewrite (bind_run _ _ c (default 0 (last order)) c).
  2: { unfold lift. by rewrite (lru_victim_rep _ _ _ Ho). }
  set (v := default 0 (last order)).
  assert (Hv : 0 ≤ v < len (bufs c)).
  { unfold v. pose proof (co_size _ Hc). destruct (last order) eqn:E; simpl; [|lia].
    apply last_Some_elem_of in E. rewrite (rep_perm _ _ _ Ho) in E. apply range_elem in E. lia. }
  destruct (lookup_lt_is_Some_2 (bufs c) (Z.to_nat v)) as [b Hb]; [unfold len in Hv; lia|].
  destruct (write_back_spec c v b Hc) as (d & Hrun & Hc' & Hcc); [lia|done|].
  rewrite (bind_run _ _ _ _ _ Hrun), (bind_run _ _ _ tt _) by done.
  set (c1 := mkBlockCache _ _ _) in *. apply lookup_lt_Some in Hb as Hlt.
  assert (Hb1 : bufs c1 !! Z.to_nat v = Some (clean b)) by (by apply list_lookup_insert_eq).
  rewrite (bind_run _ _ _ _ _ (buf_at_run c1 v _ Hb1)).
  rewrite (bind_run _ _ _ _ _ (set_buf_run c1 v (mkBuf Unused (data (clean b))) _ Hb1 ltac:(lia))).
  set (b2 := mkBuf Unused _).
  assert (Hok2 : bufs_ok bs (contents (device c1)) (<[Z.to_nat v:=b2]> (bufs c1))).
  { apply bufs_ok_replace with (contents (device c1)) (clean b); try done; [apply Hc'|].
    exact (bo_len _ _ _ (co_bufs _ Hc') (Z.to_nat v) (clean b) Hb1). }
  eexists v, _, b2. split; [done|]. split; [by eapply cache_replace; [apply Hc'|done|apply Hc'|]|].
  split.
  { rewrite <- Hcc. unfold cache_contents. cbn [device bufs]. apply overlay_replace_clean with (clean b); [done| |done].
    unfold clean. intros id. destruct (status b) eqn:E; simpl; congruence. }
  cbn [bufs]. split_and!; [lia|apply list_lookup_insert_eq; by eapply lookup_lt_Some|done|].
  intros id Hno j bj. subst c1. cbn [bufs]. rewrite list_insert_insert_eq.
  intros [[-> ->]|[_ Hj]]%(insert_cases (bufs c) _ b _ Hb); [done|by eapply Hno].
Qed.

(** The buffer for a block: its own, or an unused one when nobody holds it. *)
Lemma get_buf_spec c id :
  cache_ok c →
  ∃ i c' b, BlockCache_get_buf id c = Ok (i, c') ∧ cache_ok c' ∧ cache_contents c' = cache_contents c ∧
    0 ≤ i ∧ bufs c' !! Z.to_nat i = Some b ∧ (status b = Unused ∨ holds id b = true) ∧
    alone (bufs c') (Z.to_nat i) id.
Proof.
  intros Hc.
  assert (∃ i c' b, BlockCache__get_buf id c = Ok (i, c') ∧ cache_ok c' ∧ cache_contents c' = cache_contents c ∧
    0 ≤ i ∧ bufs c' !! Z.to_nat i = Some b ∧ (status b = Unused ∨ holds id b = true) ∧
    alone (bufs c') (Z.to_nat i) id) as (i & c' & b & Hrun & Hc' & Hcc & H0 & Hi & Hs & Hal).
  { unfold BlockCache__get_buf. rewrite (bind_run _ _ c c c) by done.
    destruct (position (holds id) (bufs c)) as [i|] eqn:Hp.
    - apply position_Some in Hp as (H0 & b & Hi & Hh). exists i, c, b. split_and!; try done; [by right|].
      by apply (alone_holder _ _ _ b _ (co_bufs _ Hc) Hi).
    - destruct (get_unused_spec c Hc) as (i & c' & b & Hrun & Hc' & Hcc & H0 & Hi & Hs & Hno).
      exists i, c', b. split_and!; try done; [by left|].
      intros j bj Hj Hh. enough (holds id bj = false) by congruence.
      apply (Hno id) with (2 := Hj). intros j' bj'. by apply position_None. }
  destruct (co_lru _ Hc') as [order Ho]. assert (Hn : 0 < len (bufs c')) by (pose proof (co_size _ Hc'); lia).
  destruct (lru_visit_rep _ _ _ i Hn H0 Ho) as (l' & Hv & Ho').
  unfold BlockCache_get_buf. rewrite (bind_run _ _ _ _ _ Hrun), (bind_run _ _ c' c' c') by done.
  rewrite (bind_run _ _ c' l' c') by (unfold lift; by rewrite Hv).
  eexists i, _, b. split; [done|]. split_and!; try done.
  destruct Hc' as [H1 H2 H3 H4]. split; cbn [device bufs lru]; [done|done|by eexists|done].
Qed.

(** The copy into the caller's buffer. *)
Lemma copy_out_buf (c : BlockCache T) i b buf :
  bufs c !! Z.to_nat i = Some b → len (data b) = bs → bs ≤ len buf →
  (let* b := buf_at i in
   let* buffer := lift (copy_into buf 0 (wrap64 (Z.shiftl 1 (BLOCK_SIZE_LOG2 T))) (data b)) in
   ret (ok tt : Result unit DevError, buffer)) c = Ok ((ok tt, splice buf 0 (data b)), c).
Proof.
  intros Hi Hl Hb. rewrite (bind_run _ _ _ _ _ (buf_at_run _ _ _ Hi)), cache_ln.
  rewrite (bind_run _ _ c (splice buf 0 (data b)) c); [done|]. unfold lift.
  rewrite (proj2 (copy_into_Ok buf 0 bs (data b) (splice buf 0 (data b)))); [done|].
  pose proof cache_bs. split_and!; [lia|lia|lia|done].
Qed.

Lemma cache_read c id buf :
  cache_ok c → inside bs (len (cache_contents c)) id → bs ≤ len buf →
  ∃ c', BlockCache_read_at id buf c = Ok ((ok tt, splice buf 0 (block bs (cache_contents c) id)), c') ∧
    cache_ok c' ∧ cache_contents c' = cache_contents c.
Proof.
  intros Hc Hin Hbuf. rewrite len_cache in Hin by done.
  destruct (get_buf_spec c id Hc) as (i & c1 & b & Hrun & Hc1 & Hcc & H0 & Hi & Hs & Hal).
  pose proof (f_equal len Hcc) as Hlc. rewrite !len_cache in Hlc by done.
  pose proof (co_bufs _ Hc1) as Hok. pose proof (bo_len _ _ _ Hok _ _ Hi) as Hlen.
  unfold BlockCache_read_at. rewrite (bind_run _ _ _ _ _ Hrun), (bind_run _ _ _ _ _ (buf_at_run _ _ _ Hi)).
  destruct Hs as [Hs|Hh].
  2: { exists c1. rewrite <- Hcc. unfold cache_contents at 1. rewrite (overlay_hit bs) with (i := Z.to_nat i) (b := b) by done.
    split; [|done]. rewrite (bind_run _ _ c1 (ok tt) c1); [by apply copy_out_buf|].
    by destruct (holds_cases _ _ Hh) as [-> | ->]. }
  destruct (law_read (device c1) id (data b)) as (d & Hrd & Hd & Hcd);
    [apply Hc1|apply Hin|rewrite Hlc; apply Hin|lia|].
  assert (Hblk : splice (data b) 0 (take (Z.to_nat bs) (drop (Z.to_nat (id * bs)) (contents (device c1)))) =
    block bs (contents (device c1)) id).
  { assert (E : take (Z.to_nat bs) (drop (Z.to_nat (id * bs)) (contents (device c1))) = block bs (contents (device c1)) id).
    { unfold block, subl. do 2 f_equal. lia. }
    rewrite E. apply splice_whole. apply Nat2Z.inj. fold (len (data b)). fold (len (block bs (contents (device c1)) id)).
    rewrite len_block; [done|done|]. by rewrite Hlc. }
  rewrite Hblk in Hrd. rewrite Hs. set (b2 := mkBuf (Valid id) (block bs (contents (device c1)) id)).
  set (c2 := mkBlockCache d (<[Z.to_nat i := b2]> (bufs c1)) (lru c1)).
  assert (Hl2 : len (data b2) = bs) by (apply len_block; [done|]; by rewrite Hlc).
  assert (Hok2 : bufs_ok bs (contents d) (<[Z.to_nat i := b2]> (bufs c1))).
  { rewrite Hcd. apply bufs_ok_replace with (contents (device c1)) b; try done.
    - intros id' Hh. apply Z.eqb_eq in Hh as <-. split; [by rewrite Hlc|done].
    - by intros id' [= <-]. }
  exists c2. rewrite (bind_run _ _ c1 (ok tt) c2).
  2: { rewrite (bind_run _ _ c1 (ok tt, data b2) (mkBlockCache d (bufs c1) (lru c1))).
    2: { unfold zoom. cbn [view cache_device]. by rewrite Hrd. }
    rewrite (bind_run _ _ _ _ _ (set_buf_run (mkBlockCache d (bufs c1) (lru c1)) i b2 b Hi H0)). done. }
  assert (Hi2 : bufs c2 !! Z.to_nat i = Some b2) by (apply list_lookup_insert_eq; by eapply lookup_lt_Some).
  assert (Hcc2 : cache_contents c2 = cache_contents c).
  { rewrite <- Hcc. unfold cache_contents, c2. cbn [device bufs]. rewrite Hcd.
    apply overlay_replace_clean with b; [done|by rewrite Hs|done]. }
  split; [|split; [by eapply cache_replace|done]]. rewrite (copy_out_buf c2 i b2) by done.
  do 4 f_equal. rewrite <- Hcc2. symmetry. apply overlay_hit with (i := Z.to_nat i); [done|done|done|].
  apply Z.eqb_refl.
Qed.

Lemma cache_write c id buf :
  cache_ok c → inside bs (len (cache_contents c)) id → bs ≤ len buf →
  ∃ c', BlockCache_write_at id buf c = Ok (ok tt, c') ∧ cache_ok c' ∧
    cache_contents c' = splice (cache_contents c) (Z.to_nat (id * bs)) (take (Z.to_nat bs) buf).
Proof.
  intros Hc Hin Hbuf. rewrite len_cache in Hin by done.
  destruct (get_buf_spec c id Hc) as (i & c1 & b & Hrun & Hc1 & Hcc & H0 & Hi & Hs & Hal).
  pose proof (f_equal len Hcc) as Hlc. rewrite !len_cache in Hlc by done. rewrite <- Hlc in Hin.
  pose proof (co_bufs _ Hc1) as Hok. pose proof (bo_len _ _ _ Hok _ _ Hi) as Hlen. apply lookup_lt_Some in Hi as Hlt.
  unfold BlockCache_write_at. rewrite (bind_run _ _ _ _ _ Hrun), (bind_run _ _ _ _ _ (buf_at_run _ _ _ Hi)).
  rewrite (bind_run _ _ _ _ _ (set_buf_run _ i _ b Hi H0)). cbv zeta. rewrite cache_ln.
  set (c2 := mkBlockCache _ _ _). set (src := take (Z.to_nat bs) buf).
  assert (Hsrc : len src = bs) by (unfold src, len in *; rewrite length_take; lia).
  rewrite (bind_run _ _ c2 src c2).
  2: { unfold lift. rewrite (proj2 (slice_Ok buf 0 bs src)); [done|]. rewrite Z.sub_0_r, drop_0. split; [lia|done]. }
  assert (Hi2 : bufs c2 !! Z.to_nat i = Some (mkBuf (Dirty id) (data b))) by (by apply list_lookup_insert_eq).
  rewrite (bind_run _ _ _ _ _ (buf_at_run c2 i _ Hi2)). cbn [data].
  rewrite (bind_run _ _ c2 src c2).
  2: { unfold lift. rewrite (proj2 (copy_into_Ok (data b) 0 (len (data b)) src src)); [done|].
    split_and!; [lia|lia|lia|]. symmetry. apply splice_whole. unfold len in *. lia. }
  rewrite (bind_run _ _ _ _ _ (set_buf_run c2 i (mkBuf (Dirty id) src) _ Hi2 H0)).
  subst c2. cbn [device bufs lru]. rewrite list_insert_insert_eq.
  set (b2 := mkBuf (Dirty id) src). set (l2 := <[_:=b2]> _).
  assert (Hok2 : bufs_ok bs (contents (device c1)) l2).
  { apply bufs_ok_replace with (contents (device c1)) b; try done.
    intros id' Hh. apply Z.eqb_eq in Hh as <-. done. }
  eexists. split; [done|]. split; [by eapply cache_replace; [|done|apply Hc1|]|].
  rewrite <- Hcc. unfold cache_contents. cbn [device bufs]. apply overlay_write with b; try done.
  apply law_size, Hc1.
Qed.

(** The cache satisfies the laws of the device it caches. *)
#[export] Instance BlockCache_laws : BlockDeviceLaws (BlockCache T) cache_contents cache_ok.
Proof.
  split; cbn [BLOCK_SIZE_LOG2 bd_read_at bd_write_at BlockCache_BlockDevice].
  - apply law_log2.
  - intros c Hc. rewrite len_cache by done. apply law_size, Hc.
  - intros c b buf Hc H0 Hb Hl. destruct (cache_read c b buf Hc (conj H0 Hb) Hl) as (c' & Hr & ? & ?).
    exists c'. rewrite Hr. split_and!; try done. unfold block, subl. do 5 f_equal. lia.
  - intros c b buf Hc H0 Hb Hl. by apply cache_write.
Qed.

Lemma overlay_all_clean c l : (∀ b id, b ∈ l → status b ≠ Dirty id) → overlay bs c l = c.
Proof.
  induction l as [|b l IH]; intros Hl; [done|]. simpl. rewrite IH by set_solver.
  destruct (status b) as [| |id] eqn:E; [done|done|]. by destruct (Hl b id ltac:(set_solver)).
Qed.

(** Writing back the buffers from [i] on leaves those from [i] on clean. *)
Lemma sync_loop_spec n : ∀ c i,
  cache_ok c → 0 ≤ i → i + Z.of_nat n = len (bufs c) →
  (∀ j b id, Z.of_nat j < i → bufs c !! j = Some b → status b ≠ Dirty id) →
  ∃ c', BlockCache_sync_loop (seqZ i (Z.of_nat n)) c = Ok (ok tt, c') ∧ cache_ok c' ∧
    cache_contents c' = cache_contents c ∧ ∀ j b id, bufs c' !! j = Some b → status b ≠ Dirty id.
Proof.
  induction n as [|n IH]; intros c i Hc H0 Hn Hcl.
  { exists c. split_and!; try done. intros j b id Hj. apply Hcl with j; [|done].
    apply lookup_lt_Some in Hj. unfold len in Hn. lia. }
  rewrite seqZ_cons by lia. replace (Z.pred (Z.of_nat (S n))) with (Z.of_nat n) by lia.
  destruct (lookup_lt_is_Some_2 (bufs c) (Z.to_nat i)) as [b Hb]; [unfold len in Hn; lia|].
  destruct (write_back_spec c i b Hc H0 Hb) as (d & Hrun & Hc' & Hcc). cbn [BlockCache_sync_loop].
  rewrite (bind_run _ _ _ _ _ Hrun). set (c1 := mkBlockCache _ _ _) in *.
  destruct (IH c1 (Z.succ i)) as (c2 & Hr2 & Hc2 & Hcc2 & Hcl2); [done|lia| | |].
  - subst c1. cbn [bufs]. unfold len in *. rewrite length_insert. lia.
  - intros j bj id Hj. subst c1. cbn [bufs]. intros [[-> ->]|[Hne Hj2]]%(insert_cases _ _ b _ Hb).
    + unfold clean. destruct (status b) eqn:E; simpl; congruence.
    + apply Hcl with j; [lia|done].
  - exists c2. split_and!; [done|done|congruence|done].
Qed.

Context {HS : BlockDeviceSync T contents dev_ok}.

Lemma cache_sync c :
  cache_ok c →
  ∃ c', BlockCache_sync c = Ok (ok tt, c') ∧ cache_ok c' ∧ cache_contents c' = cache_contents c ∧
    contents (device c') = cache_contents c.
Proof using HL HS.
  intros Hc. unfold BlockCache_sync. rewrite (bind_run _ _ c c c) by done. unfold range. rewrite Z.sub_0_r.
  destruct (sync_loop_spec (length (bufs c)) c 0 Hc) as (c1 & Hrun & Hc1 & Hcc & Hcl); [done|done|lia|].
  change (len (bufs c)) with (Z.of_nat (length (bufs c))). rewrite (bind_run _ _ _ _ _ Hrun).
  destruct (law_sync (device c1) (co_dev _ Hc1)) as (d & Hs & Hd & Hcd).
  assert (E : ∀ x, overlay bs x (bufs c1) = x).
  { intros x. apply overlay_all_clean. intros b id [j Hj]%list_elem_of_lookup. by eapply Hcl. }
  eexists. split; [unfold zoom; cbn [view cache_device]; rewrite Hs; done|]. cbn [update cache_device].
  unfold cache_contents in *. cbn [device bufs]. rewrite E in Hcc |- *. rewrite Hcd.
  split_and!; [|done|done]. destruct Hc1 as [H1 H2 H3 H4]. split; cbn [device bufs lru]; [done..|]. by rewrite Hcd.
Qed.

#[export] Instance BlockCache_laws_sync : BlockDeviceSync (BlockCache T) cache_contents cache_ok.
Proof.
  split. intros c Hc. destruct (cache_sync c Hc) as (c' & ? & ? & ? & _). by exists c'.
Qed.

Lemma new_cache_ok d capacity :
  dev_ok d → 1 ≤ capacity < 2 ^ 63 →
  cache_ok (BlockCache_new d capacity) ∧ cache_contents (BlockCache_new d capacity) = contents d.
Proof using HL.
  intros Hd Hcap. unfold BlockCache_new. rewrite cache_ln. set (b0 := mkBuf Unused _).
  assert (Hb0 : ∀ i b, replicate (Z.to_nat capacity) b0 !! i = Some b → b = b0).
  { intros i b Hi. by apply lookup_replicate in Hi as [-> _]. }
  split; [split; cbn [device bufs lru]|].
  - done.
  - unfold len. rewrite length_replicate. lia.
  - exists (range 1 capacity). unfold len. rewrite length_replicate, Z2Nat.id by lia. apply lru_new_rep; lia.
  - split.
    + intros i b ->%Hb0. unfold b0, len. cbn [data]. rewrite length_replicate. pose proof cache_bs. lia.
    + intros i b id ->%Hb0. done.
    + intros i b id ->%Hb0. done.
    + intros i j bi bj id ->%Hb0. done.
  - apply overlay_all_clean. intros b id [i Hi]%list_elem_of_lookup. cbn [bufs] in Hi. by apply Hb0 in Hi as ->.
Qed.
End cache_proofs.

(** ** Sequences of operations on a block device *)
Inductive dev_op : Type :=
  | OpRead (b : Z) (buf : list Z)
  | OpWrite (b : Z) (buf : list Z)
  | OpSync.

Definition run_op {T} `{BlockDevice T} (o : dev_op) : M T (Result unit DevError * list Z) :=
  match o with
  | OpRead b buf => bd_read_at b buf
  | OpWrite b buf => let* res := bd_write_at b buf in ret (res, [])
  | OpSync => let* res := bd_sync in ret (res, [])
  end.
Fixpoint run_ops {T} `{BlockDevice T} (ops : list dev_op) : M T (list (Result unit DevError * list Z)) :=
  match ops with
  | [] => ret []
  | o :: ops => let* r := run_op o in let* rs := run_ops ops in ret (r :: rs)
  end.

(** The blocks are inside a device of [n] bytes, the buffers large enough. *)
Definition op_inside (bs n : Z) (o : dev_op) : Prop :=
  match o with
  | OpRead b buf | OpWrite b buf => inside bs n b ∧ bs ≤ len buf
  | OpSync => True
  end.

(** What the operations do to the contents. *)
Definition abs_op (bs : Z) (c : list Z) (o : dev_op) : (Result unit DevError * list Z) * list Z :=
  match o with
  | OpRead b buf => ((ok tt, splice buf 0 (take (Z.to_nat bs) (drop (Z.to_nat (b * bs)) c))), c)
  | OpWrite b buf => ((ok tt, []), splice c (Z.to_nat (b * bs)) (take (Z.to_nat bs) buf))
  | OpSync => ((ok tt, []), c)
  end.
Fixpoint abs_ops (bs : Z) (c : list Z) (ops : list dev_op) : list (Result unit DevError * list Z) * list Z :=
  match ops with
  | [] => ([], c)
  | o :: ops => let '(r, c) := abs_op bs c o in let '(rs, c) := abs_ops bs c ops in (r :: rs, c)
  end.

Section sequences.
Context {T : Type} `{HBD : BlockDevice T} (contents : T → list Z) (dev_ok : T → Prop).
Context {HL : BlockDeviceLaws T contents dev_ok} {HS : BlockDeviceSync T contents dev_ok}.
Abbreviation bs := (2 ^ BLOCK_SIZE_LOG2 T).

Lemma run_op_abs d o :
  dev_ok d → op_inside bs (len (contents d)) o →
  ∃ d', run_op o d = Ok ((abs_op bs (contents d) o).1, d') ∧ dev_ok d' ∧
    contents d' = (abs_op bs (contents d) o).2 ∧ len (contents d') = len (contents d).
Proof.
  intros Hd Ho. pose proof (bs_bounds contents dev_ok) as Hbs. destruct o as [b buf|b buf|]; cbn [run_op abs_op fst snd].
  - destruct Ho as [[H0 Hb] Hl]. destruct (law_read d b buf Hd H0 Hb Hl) as (d' & Hr & Hd' & Hc).
    exists d'. by rewrite Hr, Hc.
  - destruct Ho as [[H0 Hb] Hl]. destruct (law_write d b buf Hd H0 Hb Hl) as (d' & Hr & Hd' & Hc).
    exists d'. rewrite (bind_run _ _ _ _ _ Hr). split_and!; [done|done|done|]. rewrite Hc.
    apply (len_splice_block bs); [lia|done|]. unfold len in *. rewrite length_take. lia.
  - destruct (law_sync d Hd) as (d' & Hr & Hd' & Hc). exists d'. rewrite (bind_run _ _ _ _ _ Hr), Hc. done.
Qed.

Lemma run_ops_abs ops : ∀ d,
  dev_ok d → Forall (op_inside bs (len (contents d))) ops →
  ∃ d', run_ops ops d = Ok ((abs_ops bs (contents d) ops).1, d') ∧ dev_ok d' ∧
    contents d' = (abs_ops bs (contents d) ops).2.
Proof.
  induction ops as [|o ops IH]; intros d Hd Ho; [by exists d|]. apply Forall_cons in Ho as [Ho Hos].
  destruct (run_op_abs d o Hd Ho) as (d1 & Hr & Hd1 & Hc & Hl). rewrite <- Hl in Hos.
  destruct (IH d1 Hd1 Hos) as (d2 & Hr2 & Hd2 & Hc2). exists d2. cbn [run_ops abs_ops].
  rewrite (bind_run _ _ _ _ _ Hr), (bind_run _ _ _ _ _ Hr2). rewrite Hc in *.
  destruct (abs_op _ _ o) as [r c1]. cbn [fst snd] in *. by destruct (abs_ops _ c1 ops).
Qed.
End sequences.

(** C8. The cache is transparent: any sequence of reads, writes and syncs
    inside the device gives the same results through a new cache of any
    capacity as on the device itself, and when the cache is dropped the
    device holds what it would hold without the cache. *)
Theorem BlockCache_transparent {T} `{BlockDevice T} contents dev_ok d capacity ops :
  BlockDeviceLaws T contents dev_ok → BlockDeviceSync T contents dev_ok →
  dev_ok d → 1 ≤ capacity < 2 ^ 63 →
  Forall (op_inside (2 ^ BLOCK_SIZE_LOG2 T) (len (contents d))) ops →
  ∃ rs d' c c', run_ops ops d = Ok (rs, d') ∧
    run_ops ops (BlockCache_new d capacity) = Ok (rs, c) ∧
    BlockCache_drop c = Ok (tt, c') ∧ contents (device c') = contents d'.
Proof.
  intros HL HS Hd Hcap Hops. destruct (run_ops_abs contents dev_ok ops d Hd Hops) as (d' & Hr & Hd' & Hc).
  destruct (new_cache_ok contents dev_ok d capacity Hd Hcap) as [Hok Hcc].
  assert (Hops' : Forall (op_inside (2 ^ BLOCK_SIZE_LOG2 (BlockCache T))
    (len (cache_contents contents (BlockCache_new d capacity)))) ops) by (by rewrite Hcc).
  destruct (run_ops_abs (cache_contents contents) (cache_ok contents dev_ok) ops _ Hok Hops') as (c & Hrc & Hc' & Hcc').
  destruct (cache_sync contents dev_ok c Hc') as (c' & Hs & _ & _ & Hdev).
  exists (abs_ops (2 ^ BLOCK_SIZE_LOG2 T) (contents d) ops).1, d', c, c'. split_and!; [done| | |].
  - rewrite Hrc, Hcc. done.
  - unfold BlockCache_drop. by rewrite (bind_run _ _ _ _ _ Hs).
  - rewrite Hdev, Hcc', Hcc, Hc. done.
Qed.

Lemma BlockCache_transparent_witness :
  let ops := [OpWrite 2 [1; 2; 3; 4]; OpRead 0 [9; 9; 9; 9]; OpWrite 1 [5; 6; 7; 8];
              OpRead 2 [9; 9; 9; 9]; OpSync; OpRead 3 [9; 9; 9; 9; 9]] in
  ∃ rs d' c c', run_ops ops (seqZ 0 16) = Ok (rs, d') ∧
    run_ops ops (BlockCache_new (seqZ 0 16) 2) = Ok (rs, c) ∧
    BlockCache_drop c = Ok (tt, c') ∧ id (device c') = id d'.
Proof.
  apply (BlockCache_transparent id array_ok (seqZ 0 16) 2).
  - apply ArrayDevice_laws.
  - apply ArrayDevice_sync.
  - reflexivity.
  - lia.
  - repeat apply Forall_cons_2; try apply Forall_nil_2;
      first [exact I|unfold op_inside, inside; vm_compute; split; [split|]; congruence].
Defined.

(** ** Which buffer is evicted *)
Section recency.
Context (n : Z).

(** The LRU list after the visits [vs]. *)
Fixpoint LRU_visits (l : LRU) (vs : list Z) : outcome LRU :=
  match vs with
  | [] => Ok l
  | v :: vs => let! l := LRU_visit l v in LRU_visits l vs
  end.

Lemma lru_visits_rep vs : ∀ l order,
  0 < n → Forall (λ v, 0 ≤ v) vs → lru_rep n l order →
  ∃ l', LRU_visits l vs = Ok l' ∧ lru_rep n l' (foldl (lru_moved n) order vs).
Proof.
  induction vs as [|v vs IH]; intros l order Hn Hvs Ho; [by exists l|].
  apply Forall_cons in Hvs as [Hv Hvs].
  destruct (lru_visit_rep n l order v Hn Hv Ho) as (l1 & Hr & Ho1).
  destruct (IH l1 _ Hn Hvs Ho1) as (l2 & Hr2 & Ho2). exists l2. cbn [LRU_visits foldl]. by rewrite Hr.
Qed.

(** The order is by last visit. *)
Definition by_recency (vs order : list Z) : Prop :=
  ∀ a v b vs1 vs2, order = a ++ v :: b → vs = vs1 ++ v :: vs2 → v ∉ vs2 → ∀ j, j ∈ a → j ∈ vs2.

(** The visit after which [v] is not visited any more, in an extended list. *)
Lemma last_visit_snoc (vs : list Z) x v vs1 vs2 :
  vs ++ [x] = vs1 ++ v :: vs2 → v ≠ x → ∃ vs2', vs2 = vs2' ++ [x] ∧ vs = vs1 ++ v :: vs2'.
Proof.
  intros E Hne. destruct vs2 as [|y vs2 _] using rev_ind.
  - by apply app_inj_tail in E as [_ ?].
  - rewrite app_comm_cons, app_assoc in E. apply app_inj_tail in E as [-> ->]. by exists vs2.
Qed.

(** Splitting what is left of a list after filtering it. *)
Lemma filter_split (P : Z → Prop) `{∀ x, Decision (P x)} (l a : list Z) v b :
  filter P l = a ++ v :: b → ∃ a0 b0, l = a0 ++ v :: b0 ∧ filter P a0 = a.
Proof.
  revert a. induction l as [|x l IH]; intros a; [by destruct a|]. rewrite filter_cons. case_decide.
  - destruct a as [|y a]; intros [= -> E]; [by exists [], l|].
    destruct (IH _ E) as (a0 & b0 & -> & Ha). exists (y :: a0), b0. split; [done|].
    rewrite filter_cons_True by done. by rewrite Ha.
  - intros E. destruct (IH _ E) as (a0 & b0 & -> & Ha). exists (x :: a0), b0. split; [done|].
    by rewrite filter_cons_False.
Qed.

Lemma by_recency_visit vs order x :
  (∀ i, i ∈ order → 1 ≤ i < n) → by_recency vs order → by_recency (vs ++ [x]) (lru_moved n order x).
Proof.
  intros Hr H a v b vs1 vs2. unfold lru_moved.
  destruct (Z.eqb_spec x 0); [|destruct (Z.geb_spec x n)]; cbn [orb].
  1,2: intros E Hvs Hv j Hj; assert (v ≠ x) by (specialize (Hr v ltac:(set_solver)); lia);
    destruct (last_visit_snoc vs x v vs1 vs2 Hvs) as (vs2' & -> & ->); [done|];
    apply elem_of_app; left; apply (H a v b vs1 vs2'); [done|done|set_solver|done].
  intros E Hvs Hv j Hj. destruct a as [|y a]; [set_solver|]. injection E as -> E.
  assert (Hvx : v ≠ y).
  { intros ->. assert (Hin : y ∈ filter (λ i, i ≠ y) order) by (rewrite E; set_solver).
    by apply list_elem_of_filter in Hin as [? _]. }
  destruct (last_visit_snoc vs y v vs1 vs2 Hvs Hvx) as (vs2' & -> & ->).
  destruct (filter_split _ _ _ _ _ E) as (a0 & b0 & -> & Ha). apply elem_of_app.
  apply elem_of_cons in Hj as [-> |Hj]; [right; set_solver|left].
  eapply H; [done|done|set_solver|]. rewrite <- Ha in Hj. by apply list_elem_of_filter in Hj as [_ ?].
Qed.

Lemma by_recency_visits order vs :
  (∀ i, i ∈ order → 1 ≤ i < n) → Forall (λ v, 0 ≤ v) vs →
  by_recency vs (foldl (lru_moved n) order vs) ∧ (∀ i, i ∈ foldl (lru_moved n) order vs → 1 ≤ i < n).
Proof.
  intros Hr. induction vs as [|x vs IH] using rev_ind; intros Hvs; [split; [|done]|].
  - intros a v b [|] vs2 _ E; discriminate E.
  - apply Forall_app in Hvs as [Hvs [Hx _]%Forall_cons]. destruct (IH Hvs) as [IH1 IH2].
    rewrite foldl_app. cbn [foldl]. split; [by apply by_recency_visit|].
    intros i. unfold lru_moved at 1. destruct (Z.eqb_spec x 0), (Z.geb_spec x n); cbn [orb]; try by apply IH2.
    intros [-> |Hi]%elem_of_cons; [lia|apply IH2; by apply list_elem_of_filter in Hi as [_ ?]].
Qed.
End recency.

(** The victim is the least recently used buffer: after any visits to a
    new list of at least two buffers, it is a buffer other than the first,
    and if it was ever visited, every buffer except the first and itself was
    visited after its last visit.  Buffer 0, the list's head, is never a
    victim, however long ago it was visited. *)
Theorem LRU_victim_least_recent n vs :
  2 ≤ n < 2 ^ 63 → Forall (λ v, 0 ≤ v) vs →
  ∃ l v, LRU_visits (LRU_new n) vs = Ok l ∧ LRU_victim l = Ok v ∧ 1 ≤ v < n ∧
    ∀ vs1 vs2, vs = vs1 ++ v :: vs2 → v ∉ vs2 → ∀ j, 1 ≤ j < n → j ≠ v → j ∈ vs2.
Proof.
  intros Hn Hvs. destruct (lru_visits_rep n vs (LRU_new n) (range 1 n)) as (l & Hr & Ho);
    [lia|done|apply lru_new_rep; lia|].
  destruct (by_recency_visits n (range 1 n) vs) as [Hrec Hin]; [intros i; by rewrite range_elem|done|].
  set (order := foldl _ _ _) in *. pose proof (rep_perm _ _ _ Ho) as Hp.
  destruct order as [|v order _] using rev_ind.
  { assert (1 ∈ (nil : list Z)) by (rewrite Hp; apply range_elem; lia). set_solver. }
  exists l, v. rewrite (lru_victim_rep _ _ _ Ho), last_snoc. split_and!; [done|done|apply Hin; set_solver|apply Hin; set_solver|].
  intros vs1 vs2 E Hv j Hj Hne. apply (Hrec order v [] vs1 vs2 eq_refl E Hv).
  assert (Hjo : j ∈ order ++ [v]) by (rewrite Hp; by apply range_elem). set_solver.
Qed.

Lemma LRU_victim_least_recent_witness :
  ∃ l v, LRU_visits (LRU_new 4) [3; 1; 0; 2; 1] = Ok l ∧ LRU_victim l = Ok v ∧ 1 ≤ v < 4 ∧
    ∀ vs1 vs2, [3; 1; 0; 2; 1] = vs1 ++ v :: vs2 → v ∉ vs2 → ∀ j, 1 ≤ j < 4 → j ≠ v → j ∈ vs2.
Proof. apply (LRU_victim_least_recent 4 [3; 1; 0; 2; 1]); [lia|repeat constructor; lia]. Defined.
