(* ===== verification/Inode.v ===== *)
(** * Inodes ([fs/vfs.rs], [fs/file.rs])

    The types of the VFS, the [INode] trait with its default methods, and the
    four kinds of inode the kernel has: regular files held in memory, the
    terminal, directory entries and pipes.  Strings are lists of characters
    (Unicode scalar values), byte buffers lists of bytes.  The methods run on
    the inode and the console.  The theorems give regular files and pipes
    their specifications, and say when terminal output panics. *)

From S2P Require Import Prelude.

(** ** Strings *)
Abbreviation String := (list Z).

(** A string literal. *)
Definition str (s : String.string) : String := (λ c, Z.of_nat (Ascii.nat_of_ascii c)) <$> String.list_ascii_of_string s.
Arguments str s%_string.

(** The UTF-8 encoding of a character. *)
Definition char_bytes (c : Z) : list Z :=
  if c <? 0x80 then [c]
  else if c <? 0x800 then [0xC0 + c / 0x40; 0x80 + c mod 0x40]
  else if c <? 0x10000 then [0xE0 + c / 0x1000; 0x80 + c / 0x40 mod 0x40; 0x80 + c mod 0x40]
  else [0xF0 + c / 0x40000; 0x80 + c / 0x1000 mod 0x40; 0x80 + c / 0x40 mod 0x40; 0x80 + c mod 0x40].
(** [as_bytes]. *)
Definition as_bytes (s : String) : list Z := concat (char_bytes <$> s).
(** [String::len], in bytes. *)
Definition str_len (s : String) : Z := len (as_bytes s).

Definition between (a b x : Z) : bool := (a <=? x) && (x <=? b).
(** The ranges of the second byte after each first byte of three and of four. *)
Definition second3 (b c : Z) : bool :=
  ((b =? 0xE0) && between 0xA0 0xBF c) || (between 0xE1 0xEC b && between 0x80 0xBF c)
  || ((b =? 0xED) && between 0x80 0x9F c) || (between 0xEE 0xEF b && between 0x80 0xBF c).
Definition second4 (b c : Z) : bool :=
  ((b =? 0xF0) && between 0x90 0xBF c) || (between 0xF1 0xF3 b && between 0x80 0xBF c)
  || ((b =? 0xF4) && between 0x80 0x8F c).

(** [core::str::from_utf8]. *)
Fixpoint from_utf8 (v : list Z) : option String :=
  match v with
  | [] => Some []
  | b :: v1 =>
      if between 0 0x7F b then cons b <$> from_utf8 v1
      else match v1 with
      | [] => None
      | c1 :: v2 =>
          if between 0xC2 0xDF b && between 0x80 0xBF c1 then
            cons ((b - 0xC0) * 0x40 + (c1 - 0x80)) <$> from_utf8 v2
          else match v2 with
          | [] => None
          | c2 :: v3 =>
              if second3 b c1 && between 0x80 0xBF c2 then
                cons (((b - 0xE0) * 0x40 + (c1 - 0x80)) * 0x40 + (c2 - 0x80)) <$> from_utf8 v3
              else match v3 with
              | [] => None
              | c3 :: v4 =>
                  if second4 b c1 && between 0x80 0xBF c2 && between 0x80 0xBF c3 then
                    cons ((((b - 0xF0) * 0x40 + (c1 - 0x80)) * 0x40 + (c2 - 0x80)) * 0x40 + (c3 - 0x80))
                      <$> from_utf8 v4
                  else None
              end
          end
      end
  end.

(** ** The types of the VFS *)
(** [fs/vfs.rs:284-288] Timespec *)
Record Timespec : Type := mkTimespec { sec : Z; nsec : Z }.
Definition Timespec_default : Timespec := mkTimespec 0 0.

(** [fs/vfs.rs:290-300] FileType *)
Inductive FileType : Type :=
  | FtFile | FtDir | FtSymLink | FtCharDevice | FtBlockDevice | FtNamedPipe | FtSocket | FtUnknown.
#[export] Instance FileType_eq_dec : EqDecision FileType.
Proof. solve_decision. Defined.

(** [fs/vfs.rs:221-225] PollStatus *)
Record PollStatus : Type := mkPollStatus { poll_read : bool; poll_write : bool; poll_error : bool }.
Definition PollStatus_default : PollStatus := mkPollStatus false false false.

(** [fs/vfs.rs:240-282] Metadata *)
Record Metadata : Type := mkMetadata {
  md_dev : Z; md_inode : Z; md_size : Z; md_blk_size : Z; md_blocks : Z;
  md_atime : Timespec; md_mtime : Timespec; md_ctime : Timespec;
  md_type : FileType; md_mode : Z; md_nlinks : Z; md_uid : Z; md_gid : Z; md_rdev : Z;
}.

(** [fs/vfs.rs:325-348] FsError *)
Inductive FsError : Type :=
  | NotSupported | NotFile | IsDir | NotDir | EntryNotFound | EntryExist | NotSameFs | InvalidParam
  | NoDeviceSpace | DirRemoved | DirNotEmpty | WrongFs | DeviceError | IOCTLErr | NoDevice | Again
  | SymLoop | Busy | Interrupted.
#[export] Instance FsError_eq_dec : EqDecision FsError.
Proof. solve_decision. Defined.

(** [fs/vfs.rs:376-378] make_rdev *)
Definition make_rdev (major minor : Z) : Z :=
  Z.lor (wrap64 (Z.shiftl (Z.land major 0xfff) 8)) (Z.land minor 0xff).

(** ** Open flags *)
(** [fs/file.rs:55-77] OpenFlags *)
Record OpenFlags : Type := mkOpenFlags { of_bits : Z }.
(** [fs/file.rs:57-57] OpenFlags::RDONLY. *)
Definition RDONLY : OpenFlags := mkOpenFlags 0.
(** [fs/file.rs:58-58] OpenFlags::WRONLY. *)
Definition WRONLY : OpenFlags := mkOpenFlags 1.
(** [fs/file.rs:59-59] OpenFlags::RDWR. *)
Definition RDWR : OpenFlags := mkOpenFlags 2.
(** [fs/file.rs:61-61] OpenFlags::CREATE. *)
Definition CREATE : OpenFlags := mkOpenFlags (Z.shiftl 1 6).
Definition OpenFlags_all : Z :=
  foldr (λ i, Z.lor (Z.shiftl 1 i)) 0 [0; 1; 6; 7; 8; 9; 11; 14; 15; 16; 17; 19; 21].
Definition OpenFlags_contains (f g : OpenFlags) : bool := Z.land (of_bits f) (of_bits g) =? of_bits g.

(** [fs/file.rs:80-82] OpenFlags::readable *)
Definition OpenFlags_readable (f : OpenFlags) : bool := OpenFlags_contains f RDONLY || OpenFlags_contains f RDWR.
(** [fs/file.rs:83-85] OpenFlags::writable *)
Definition OpenFlags_writable (f : OpenFlags) : bool := OpenFlags_contains f WRONLY || OpenFlags_contains f RDWR.
(** [fs/file.rs:86-89] OpenFlags::new *)
Definition OpenFlags_new (flags : Z) : OpenFlags := mkOpenFlags (Z.land flags OpenFlags_all).

(** ** The console *)
(** [con_in] is what the firmware has received and not yet handed out, one
    character per call; [con_out] is what was printed. *)
Record Console : Type := mkConsole {
  con_in : list Z;
  con_out : list Z;
}.

(** The firmware's console call gives -1 when there is no character. *)
(** [sbi.rs:32-34] console_getchar *)
Definition console_getchar : M Console Z :=
  let* c := get in
  match con_in c with
  | [] => ret (2 ^ 64 - 1)
  | ch :: rest => put (mkConsole rest (con_out c)) ;; ret ch
  end.
(** [sbi.rs:28-30] console_putchar *)
Definition console_putchar (ch : Z) : M Console unit :=
  modify (λ c, mkConsole (con_in c) (con_out c ++ [ch])).
(** [console.rs:11-16] Stdout::write_str *)
Definition print (s : String) : M Console unit := for_each s console_putchar.

(** ** The trait

    Methods that take [&mut self] or print run on the inode and the console;
    methods with [&self] are functions of the inode. *)
Abbreviation iom T := (M (T * Console)).
Definition self_ {T} : lens (T * Console) T := Lens fst (λ t s, (t, snd s)).
Definition console_ {T} : lens (T * Console) Console := Lens snd (λ c s, (fst s, c)).

(** [fs/vfs.rs:12-138] INode *)
Class INode (T : Type) := {
  read_at : Z → list Z → iom T (Result Z FsError * list Z);
  write_at : Z → list Z → iom T (Result Z FsError);
  poll : T → Result PollStatus FsError;
  metadata : T → Result Metadata FsError;
  unlink : String → iom T (Result unit FsError);
  get_entry : T → Z → Result String FsError;
  find : T → String → Result Z FsError;
  file_size : T → Z;
  file_data : lens T (list Z);
  file_name : T → String;
  is_pipe : T → bool;
}.

(** The default methods. *)
(** [fs/vfs.rs:30-32] INode::metadata *)
Definition default_metadata {T} (_ : T) : Result Metadata FsError := err NotSupported.
(** [fs/vfs.rs:76-78] INode::unlink *)
Definition default_unlink {T} (_ : String) : iom T (Result unit FsError) := ret (err NotSupported).
(** [fs/vfs.rs:92-94] INode::find *)
Definition default_find {T} (_ : T) (_ : String) : Result Z FsError := err NotSupported.
(** [fs/vfs.rs:97-99] INode::get_entry *)
Definition default_get_entry {T} (_ : T) (_ : Z) : Result String FsError := err NotSupported.

(** ** Regular files *)
(** [fs/file.rs:91-105] RegFileINode *)
Record RegFileINode : Type := mkRegFile {
  rf_readable : bool; rf_writable : bool;
  rf_dir : String; rf_name : String;
  rf_atime : Timespec; rf_mtime : Timespec; rf_ctime : Timespec;
  rf_flags : OpenFlags;
  rf_file : list Z;
}.
Definition rf_with_file (f : RegFileINode) (v : list Z) : RegFileINode :=
  mkRegFile (rf_readable f) (rf_writable f) (rf_dir f) (rf_name f) (rf_atime f) (rf_mtime f) (rf_ctime f) (rf_flags f) v.
Definition rf_with_name (f : RegFileINode) (n : String) : RegFileINode :=
  mkRegFile (rf_readable f) (rf_writable f) (rf_dir f) n (rf_atime f) (rf_mtime f) (rf_ctime f) (rf_flags f) (rf_file f).

(** [fs/file.rs:107-125] RegFileINode::new *)
Definition RegFileINode_new (dir name : String) (flags : OpenFlags) (readable writable : bool) : RegFileINode :=
  mkRegFile readable writable dir name Timespec_default Timespec_default Timespec_default flags [].
(** [fs/file.rs:126-145] RegFileINode::new_from_existed *)
Definition RegFileINode_new_from_existed (dir name : String) (flags : OpenFlags) (readable writable : bool)
    (file : list Z) : RegFileINode :=
  mkRegFile readable writable dir name Timespec_default Timespec_default Timespec_default flags file.

(** [fs/file.rs:149-161] RegFileINode::read_at *)
Definition RegFileINode_read_at (offset : Z) (buf : list Z) : iom RegFileINode (Result Z FsError * list Z) :=
  let* '(self, _) := get in
  if negb (rf_readable self) then ret (err InvalidParam, buf)
  else
    let* file := lift (slice (rf_file self) offset (len (rf_file self))) in
    let ln := Z.min (len buf) (len file) in
    let* src := lift (slice file 0 ln) in
    let* buf := lift (copy_into buf 0 ln src) in
    ret (ok ln, buf).

(** [fs/file.rs:168-177] RegFileINode::write_at. The loop from [pos] on;
    [buf] holds the bytes not yet written. *)
Fixpoint reg_write_loop (offset pos : Z) (buf file : list Z) : outcome (list Z * Z) :=
  match buf with
  | [] => Ok (file, pos)
  | b :: buf' =>
      let! file := if pos +u offset >=? len file then Ok (file ++ [b]) else set_idx file (pos +u offset) b in
      reg_write_loop offset (pos +u 1) buf' file
  end.
(** [fs/file.rs:162-178] RegFileINode::write_at *)
Definition RegFileINode_write_at (offset : Z) (buf : list Z) : iom RegFileINode (Result Z FsError) :=
  let* '(self, c) := get in
  if negb (rf_writable self) then ret (err InvalidParam)
  else
    let* '(file, pos) := lift (reg_write_loop offset 0 buf (rf_file self)) in
    put (rf_with_file self file, c) ;;
    ret (ok pos).

(** [fs/file.rs:191-194] RegFileINode::unlink *)
Definition RegFileINode_unlink (_ : String) : iom RegFileINode (Result unit FsError) :=
  let* '(self, c) := get in
  put (rf_with_name self (str "null"), c) ;;
  ret (ok tt).

(** [fs/file.rs:148-201] INode for RegFileINode *)
#[export] Instance RegFileINode_INode : INode RegFileINode := {
  read_at := RegFileINode_read_at;
  write_at := RegFileINode_write_at;
  poll _ := ok PollStatus_default;
  metadata := default_metadata;
  unlink := RegFileINode_unlink;
  get_entry := default_get_entry;
  find := default_find;
  file_size self := len (rf_file self);
  file_data := Lens rf_file (λ v f, rf_with_file f v);
  file_name self := rf_name self;
  is_pipe _ := false;
}.

(** ** The terminal *)
(** [fs/file.rs:204-208] TerminalINode *)
Record TerminalINode : Type := mkTerminal { term_readable : bool; term_writable : bool; term_file : list Z }.

(** [fs/file.rs:211-217] TerminalINode::new_stdin *)
Definition TerminalINode_new_stdin : TerminalINode := mkTerminal true false [].
(** [fs/file.rs:219-225] TerminalINode::new_stdout *)
Definition TerminalINode_new_stdout : TerminalINode := mkTerminal false true [].
(** [fs/file.rs:227-233] TerminalINode::new_stderr *)
Definition TerminalINode_new_stderr : TerminalINode := mkTerminal false true [].

(** [fs/file.rs:236-239] terminal_read *)
Definition terminal_read (buf : list Z) : M Console (Result Z FsError * list Z) :=
  let* c := console_getchar in
  let* buf := lift (set_idx buf 0 (c mod 256)) in
  ret (ok 1, buf).
(** [fs/file.rs:242-245] terminal_write *)
Definition terminal_write (buf : list Z) : M Console (Result Z FsError) :=
  let* s := lift (unwrap (from_utf8 buf)) in
  print s ;;
  ret (ok (len buf)).

(** [fs/file.rs:248-256] TerminalINode::read_at *)
Definition TerminalINode_read_at (_offset : Z) (buf : list Z) : iom TerminalINode (Result Z FsError * list Z) :=
  let* '(self, _) := get in
  if negb (term_readable self) then ret (err InvalidParam, buf)
  else zoom console_ (terminal_read buf).
(** [fs/file.rs:258-266] TerminalINode::write_at *)
Definition TerminalINode_write_at (_offset : Z) (buf : list Z) : iom TerminalINode (Result Z FsError) :=
  let* '(self, _) := get in
  if negb (term_writable self) then ret (err InvalidParam)
  else zoom console_ (terminal_write buf).

(** [fs/file.rs:247-292] INode for TerminalINode *)
#[export] Instance TerminalINode_INode : INode TerminalINode := {
  read_at := TerminalINode_read_at;
  write_at := TerminalINode_write_at;
  poll _ := ok PollStatus_default;
  metadata := default_metadata;
  unlink := default_unlink;
  get_entry := default_get_entry;
  find := default_find;
  file_size _ := 0;
  file_data := Lens term_file (λ v t, mkTerminal (term_readable t) (term_writable t) v);
  file_name _ := str "null";
  is_pipe _ := false;
}.

(** ** Directory entries *)
(** [fs/file.rs:295-308] DentryInode *)
Record DentryInode : Type := mkDentry {
  de_readable : bool; de_writable : bool;
  de_dir : String; de_name : String;
  de_atime : Timespec; de_mtime : Timespec; de_ctime : Timespec;
  de_flags : OpenFlags;
  de_file : list Z;
}.
(** [fs/file.rs:310-328] DentryInode::new *)
Definition DentryInode_new (dir name : String) (flags : OpenFlags) (readable writable : bool) : DentryInode :=
  mkDentry readable writable dir name Timespec_default Timespec_default Timespec_default flags [].
(** [fs/file.rs:329-348] DentryInode::new_from_existed *)
Definition DentryInode_new_from_existed (dir name : String) (flags : OpenFlags) (readable writable : bool)
    (file : list Z) : DentryInode :=
  mkDentry readable writable dir name Timespec_default Timespec_default Timespec_default flags file.

(** [fs/file.rs:370-373] DentryInode::unlink *)
Definition DentryInode_unlink (_ : String) : iom DentryInode (Result unit FsError) :=
  let* '(d, c) := get in
  put (mkDentry (de_readable d) (de_writable d) (de_dir d) (str "null") (de_atime d) (de_mtime d) (de_ctime d)
         (de_flags d) (de_file d), c) ;;
  ret (ok tt).

(** [fs/file.rs:351-380] INode for DentryInode *)
#[export] Instance DentryInode_INode : INode DentryInode := {
  read_at _ buf := ret (err InvalidParam, buf);
  write_at _ _ := ret (err InvalidParam);
  poll _ := ok PollStatus_default;
  metadata := default_metadata;
  unlink := DentryInode_unlink;
  get_entry := default_get_entry;
  find := default_find;
  file_size self := len (de_file self);
  file_data := Lens de_file (λ v d, mkDentry (de_readable d) (de_writable d) (de_dir d) (de_name d)
                                     (de_atime d) (de_mtime d) (de_ctime d) (de_flags d) v);
  file_name self := de_name self;
  is_pipe _ := false;
}.

(** ** Pipes *)
(** [fs/file.rs:454-457] PipeINode *)
Record PipeINode : Type := mkPipe { pipe_st : Z; pipe_buf : list Z }.
(** [fs/file.rs:460-465] PipeINode::new_pipe *)
Definition PipeINode_new_pipe : PipeINode := mkPipe 0 [].

(** [fs/file.rs:469-480] PipeINode::read_at *)
Definition PipeINode_read_at (_offset : Z) (buf : list Z) : iom PipeINode (Result Z FsError * list Z) :=
  let* '(self, _) := get in
  if _offset >? len (pipe_buf self) then ret (ok 0, buf)
  else
    let* pbuf := lift (slice (pipe_buf self) _offset (len (pipe_buf self))) in
    let size := Z.min (len pbuf) (len buf) in
    let* src := lift (slice pbuf 0 size) in
    let* buf := lift (copy_into buf 0 size src) in
    ret (ok size, buf).
(** [fs/file.rs:482-493] PipeINode::write_at *)
Definition PipeINode_write_at (_offset : Z) (buf : list Z) : iom PipeINode (Result Z FsError) :=
  let* '(self, c) := get in
  put (mkPipe (pipe_st self) (foldl (λ pbuf b, pbuf ++ [b]) (pipe_buf self) buf), c) ;;
  ret (ok (len buf)).

(** [fs/file.rs:468-520] INode for PipeINode *)
#[export] Instance PipeINode_INode : INode PipeINode := {
  read_at := PipeINode_read_at;
  write_at := PipeINode_write_at;
  poll _ := ok PollStatus_default;
  metadata := default_metadata;
  unlink := default_unlink;
  get_entry := default_get_entry;
  find := default_find;
  file_size self := len (pipe_buf self);
  file_data := Lens pipe_buf (λ v p, mkPipe (pipe_st p) v);
  file_name _ := str "null";
  is_pipe _ := true;
}.

(** ** [dyn INode] *)
Inductive inode : Type :=
  | IReg (f : RegFileINode)
  | ITerm (t : TerminalINode)
  | IDentry (d : DentryInode)
  | IPipe (p : PipeINode).

Definition run_on {T A} (wrap : T → inode) (t : T) (m : iom T A) : iom inode A :=
  λ s, match m (t, snd s) with
       | Ok (a, (t, c)) => Ok (a, (wrap t, c))
       | Fault f => Fault f
       end.
(** A method through the vtable. *)
Definition dispatch {A} (m : ∀ T, INode T → iom T A) : iom inode A :=
  λ s, match fst s with
       | IReg f => run_on IReg f (m _ _) s
       | ITerm t => run_on ITerm t (m _ _) s
       | IDentry d => run_on IDentry d (m _ _) s
       | IPipe p => run_on IPipe p (m _ _) s
       end.
Definition dispatch_ref {A} (m : ∀ T, INode T → T → A) (i : inode) : A :=
  match i with
  | IReg f => m _ _ f
  | ITerm t => m _ _ t
  | IDentry d => m _ _ d
  | IPipe p => m _ _ p
  end.
Definition inode_set_data (v : list Z) (i : inode) : inode :=
  match i with
  | IReg f => IReg (update file_data v f)
  | ITerm t => ITerm (update file_data v t)
  | IDentry d => IDentry (update file_data v d)
  | IPipe p => IPipe (update file_data v p)
  end.
#[export] Instance inode_INode : INode inode := {
  read_at offset buf := dispatch (λ T _, read_at offset buf);
  write_at offset buf := dispatch (λ T _, write_at offset buf);
  poll := dispatch_ref (λ T _, poll);
  metadata := dispatch_ref (λ T _, metadata);
  unlink name := dispatch (λ T _, unlink name);
  get_entry i n := dispatch_ref (λ T _ t, get_entry t n) i;
  find i name := dispatch_ref (λ T _ t, find t name) i;
  file_size := dispatch_ref (λ T _, file_size);
  file_data := Lens (dispatch_ref (λ T _, view file_data)) inode_set_data;
  file_name := dispatch_ref (λ T _, file_name);
  is_pipe := dispatch_ref (λ T _, is_pipe);
}.

(** ** Directory records and file status *)
(** [fs/file.rs:383-389] Dirent *)
Record Dirent : Type := mkDirent {
  d_ino : Z; d_off : Z; d_reclen : Z; d_type : Z; d_name : list Z;
}.
(** [fs/file.rs:392-400] Dirent::new *)
Definition Dirent_new : Dirent := mkDirent 123 0 0 0 (replicate 256 0).

(** [fs/file.rs:405-425] Stat *)
Record Stat : Type := mkStat {
  st_dev : Z; st_ino : Z; st_mode : Z; st_nlink : Z; st_uid : Z; st_gid : Z; st_rdev : Z;
  st_pad : Z; st_size : Z; st_blksize : Z; st_pad2 : Z; st_blocks : Z;
  st_atime_sec : Z; st_atime_nsec : Z; st_mtime_sec : Z; st_mtime_nsec : Z;
  st_ctime_sec : Z; st_ctime_nsec : Z; st_unused : list Z;
}.
(** [fs/file.rs:428-450] Stat::new *)
Definition Stat_new : Stat :=
  mkStat 1 1 32768 1 0 0 0xaabbccdd11223344 0 0 512 0 1
    (sec Timespec_default) (nsec Timespec_default) (sec Timespec_default) (nsec Timespec_default)
    (sec Timespec_default) (nsec Timespec_default) [0; 0].
Definition Stat_set_size (s : Stat) (size : Z) : Stat :=
  mkStat (st_dev s) (st_ino s) (st_mode s) (st_nlink s) (st_uid s) (st_gid s) (st_rdev s) (st_pad s)
    size (st_blksize s) (st_pad2 s) (st_blocks s) (st_atime_sec s) (st_atime_nsec s) (st_mtime_sec s)
    (st_mtime_nsec s) (st_ctime_sec s) (st_ctime_nsec s) (st_unused s).

Definition le32 (v : Z) : list Z := Z_to_little_endian 4 8 v.
Definition le64 (v : Z) : list Z := Z_to_little_endian 8 8 v.
(** The bytes of the [repr(C)] structure; [pad] are the four bytes of padding
    in front of [st_blocks]. *)
Definition Stat_bytes (pad : list Z) (s : Stat) : list Z :=
  le64 (st_dev s) ++ le64 (st_ino s) ++ le32 (st_mode s) ++ le32 (st_nlink s) ++ le32 (st_uid s) ++
  le32 (st_gid s) ++ le64 (st_rdev s) ++ le64 (st_pad s) ++ le32 (st_size s) ++ le32 (st_blksize s) ++
  le32 (st_pad2 s) ++ pad ++ le64 (st_blocks s) ++ le64 (st_atime_sec s) ++ le64 (st_atime_nsec s) ++
  le64 (st_mtime_sec s) ++ le64 (st_mtime_nsec s) ++ le64 (st_ctime_sec s) ++ le64 (st_ctime_nsec s) ++
  concat (le32 <$> st_unused s).
(** [size_of::<Stat>()]. *)
Definition size_of_Stat : Z := 128.

(** ** Facts *)
(** What a write at [offset] leaves in a file: the bytes go to [offset], or to
    the end of the file if that is before [offset]. *)
Definition written (file : list Z) (offset : Z) (buf : list Z) : list Z :=
  let o := Z.to_nat (Z.min offset (len file)) in
  take o file ++ buf ++ drop (o + length buf) file.

Lemma reg_write_loop_spec offset buf : ∀ pos file,
  0 ≤ offset → 0 ≤ pos → pos + offset + len buf < 2 ^ 63 → len file < 2 ^ 63 →
  reg_write_loop offset pos buf file =
    Ok (written file (pos + offset) buf, pos + len buf).
Proof.
  induction buf as [|b buf IH]; intros pos file Ho Hp Hl Hf.
  - cbn [reg_write_loop]. unfold written. simpl. rewrite Nat.add_0_r, take_drop. repeat f_equal. unfold len. simpl. lia.
  - assert (Hlb : len (b :: buf) = 1 + len buf) by (unfold len; simpl; lia). pose proof (len_nonneg buf).
    cbn [reg_write_loop]. rewrite !uadd_small by lia.
    set (o := Z.to_nat (Z.min (pos + offset) (len file))).
    assert (Hs : (if pos + offset >=? len file then Ok (file ++ [b]) else set_idx file (pos + offset) b) =
      Ok (take o file ++ [b] ++ drop (o + 1) file)).
    { unfold o, len in *. destruct (Z.geb_spec (pos + offset) (Z.of_nat (length file))).
      - rewrite take_ge, drop_ge by lia. by rewrite app_nil_r.
      - unfold set_idx, len. rewrite (proj2 (Z.ltb_lt _ _)) by lia. rewrite insert_take_drop by lia.
        rewrite Z.min_l by lia. by replace (Z.to_nat (pos + offset) + 1)%nat with (S (Z.to_nat (pos + offset))) by lia. }
    rewrite Hs. cbn [obind].
    assert (Hf2 : len (take o file ++ [b] ++ drop (o + 1) file) = Z.max (len file) (Z.of_nat o + 1)).
    { unfold o, len in *. rewrite !length_app, length_take, length_drop. simpl. lia. }
    rewrite IH by (rewrite ?Hf2; unfold o; lia). f_equal. f_equal; [|lia].
    unfold written. rewrite Hf2.
    replace (Z.to_nat (Z.min (pos + 1 + offset) (Z.max (len file) (Z.of_nat o + 1)))) with (o + 1)%nat by (unfold o; lia).
    fold o. assert (Ho2 : (o ≤ length file)%nat) by (unfold o, len; lia).
    assert (Ht : length (take o file) = o) by (rewrite length_take; lia).
    rewrite (app_assoc (take o file) [b]). set (pre := take o file ++ [b]).
    assert (Hpre : length pre = (o + 1)%nat) by (unfold pre; rewrite length_app; simpl; lia).
    rewrite take_app_length' by done. rewrite drop_app_ge by lia. rewrite Hpre, drop_drop. unfold pre.
    rewrite <- app_assoc. simpl. do 4 f_equal. lia.
Qed.

Lemma len_written file offset buf :
  0 ≤ offset → len (written file offset buf) = Z.max (len file) (Z.min offset (len file) + len buf).
Proof.
  intros Ho. unfold written, len. rewrite !length_app, length_take, length_drop. lia.
Qed.

Lemma reg_write_spec f c offset buf :
  rf_writable f = true → 0 ≤ offset → offset + len buf < 2 ^ 63 → len (rf_file f) < 2 ^ 63 →
  RegFileINode_write_at offset buf (f, c) =
    Ok (ok (len buf), (rf_with_file f (written (rf_file f) offset buf), c)).
Proof.
  intros Hw Ho Hl Hf. unfold RegFileINode_write_at. rewrite (bind_run _ _ (f, c) (f, c) (f, c)) by done.
  rewrite Hw. cbn [negb]. unfold bind at 1, lift. rewrite reg_write_loop_spec by lia.
  rewrite Z.add_0_l. done.
Qed.

(** Reading from a byte list at an offset. *)
Definition read_from (v : list Z) (offset : Z) (buf : list Z) : list Z :=
  let n := Z.min (len buf) (len v - offset) in
  splice buf 0 (subl v offset (offset + n)).

Lemma slice_read v offset buf :
  0 ≤ offset ≤ len v →
  let n := Z.min (len buf) (len v - offset) in
  slice v offset (len v) = Ok (subl v offset (len v)) ∧ len (subl v offset (len v)) = len v - offset ∧
  slice (subl v offset (len v)) 0 n = Ok (subl v offset (offset + n)) ∧
  copy_into buf 0 n (subl v offset (offset + n)) = Ok (read_from v offset buf).
Proof.
  intros Ho n. pose proof (len_nonneg buf).
  assert (Hl : len (subl v offset (len v)) = len v - offset) by (rewrite len_subl; lia).
  split_and!; [by apply slice_Ok; split; [lia|]|done| |].
  - apply slice_Ok. rewrite Hl. split; [unfold n; lia|].
    change (subl v offset (offset + n) = subl (subl v offset (len v)) 0 n).
    rewrite subl_subl by (unfold n; lia). f_equal; lia.
  - apply copy_into_Ok. rewrite len_subl by (unfold n; lia). split_and!; [unfold n; lia..|done].
Qed.

Lemma reg_read_spec f c offset buf :
  rf_readable f = true → 0 ≤ offset ≤ len (rf_file f) →
  RegFileINode_read_at offset buf (f, c) =
    Ok ((ok (Z.min (len buf) (len (rf_file f) - offset)), read_from (rf_file f) offset buf), (f, c)).
Proof.
  intros Hr Ho. destruct (slice_read (rf_file f) offset buf Ho) as (H1 & H2 & H3 & H4).
  unfold RegFileINode_read_at. rewrite (bind_run _ _ (f, c) (f, c) (f, c)) by done. rewrite Hr. cbn [negb].
  unfold bind, lift. by rewrite H1, H2, H3, H4.
Qed.

Lemma reg_read_panics f c offset buf :
  rf_readable f = true → len (rf_file f) < offset → RegFileINode_read_at offset buf (f, c) = Fault OutOfBounds.
Proof.
  intros Hr Ho. unfold RegFileINode_read_at. rewrite (bind_run _ _ (f, c) (f, c) (f, c)) by done. rewrite Hr.
  cbn [negb]. unfold bind, lift, slice. by rewrite (proj2 (Z.leb_gt _ _)) by lia.
Qed.

Lemma pipe_read_spec p c offset buf :
  0 ≤ offset ≤ len (pipe_buf p) →
  PipeINode_read_at offset buf (p, c) =
    Ok ((ok (Z.min (len buf) (len (pipe_buf p) - offset)), read_from (pipe_buf p) offset buf), (p, c)).
Proof.
  intros Ho. destruct (slice_read (pipe_buf p) offset buf Ho) as (H1 & H2 & H3 & H4).
  unfold PipeINode_read_at. rewrite (bind_run _ _ (p, c) (p, c) (p, c)) by done.
  rewrite Z.gtb_ltb, (proj2 (Z.ltb_ge _ _)) by lia. unfold bind, lift.
  rewrite H1, H2. rewrite (Z.min_comm (len (pipe_buf p) - offset)). by rewrite H3, H4.
Qed.

Lemma pipe_write_spec p c offset buf :
  PipeINode_write_at offset buf (p, c) = Ok (ok (len buf), (mkPipe (pipe_st p) (pipe_buf p ++ buf), c)).
Proof.
  unfold PipeINode_write_at. rewrite (bind_run _ _ (p, c) (p, c) (p, c)) by done. unfold bind, put, ret.
  do 5 f_equal. generalize (pipe_buf p). induction buf as [|b buf IH]; intros v; simpl; [by rewrite app_nil_r|].
  rewrite IH, <- app_assoc. done.
Qed.

(** ** UTF-8 *)
Definition is_char (c : Z) : Prop := 0 ≤ c < 0xD800 ∨ 0xE000 ≤ c < 0x110000.

Lemma between_true a b x : a ≤ x ≤ b → between a b x = true.
Proof. unfold between. intros. apply andb_true_iff. lia. Qed.
Lemma between_false a b x : x < a ∨ b < x → between a b x = false.
Proof. unfold between. intros. apply andb_false_iff. lia. Qed.

(** Cutting [c] into 6-bit digits. *)
Lemma digit_bounds c : 0 ≤ c → 0 ≤ c mod 0x40 < 0x40 ∧ c = c / 0x40 * 0x40 + c mod 0x40 ∧ 0 ≤ c / 0x40.
Proof. intros. pose proof (Z.div_mod c 0x40). pose proof (Z.mod_pos_bound c 0x40). lia. Qed.

Lemma second3_char q d : 0 ≤ d < 0x40 → 0 ≤ q < 0x10 → 0x20 ≤ q * 0x40 + d → q * 0x40 + d < 0x360 ∨ 0x380 ≤ q * 0x40 + d →
  second3 (0xE0 + q) (0x80 + d) = true.
Proof.
  intros Hd Hq Hlo Hs. unfold second3, between. repeat (rewrite orb_true_iff || rewrite andb_true_iff). lia.
Qed.

Lemma second4_char q d : 0 ≤ d < 0x40 → 0x10 ≤ q * 0x40 + d < 0x110 → 0 ≤ q →
  second4 (0xF0 + q) (0x80 + d) = true.
Proof.
  intros Hd Hq Hq0. unfold second4, between. repeat (rewrite orb_true_iff || rewrite andb_true_iff). lia.
Qed.

Lemma second3_lead b c : 0xF0 ≤ b → second3 b c = false.
Proof. intros. unfold second3, between. repeat (rewrite orb_false_iff || rewrite andb_false_iff). lia. Qed.

Lemma from_utf8_char c v : is_char c → from_utf8 (char_bytes c ++ v) = cons c <$> from_utf8 v.
Proof.
  intros Hc. unfold char_bytes. assert (0 ≤ c) by (unfold is_char in Hc; lia).
  destruct (Z.ltb_spec c 0x80).
  { cbn [from_utf8 app]. by rewrite between_true by lia. }
  destruct (digit_bounds c) as (D1 & E1 & P1); [lia|]. set (q1 := c / 0x40) in *. set (d1 := c mod 0x40) in *.
  destruct (Z.ltb_spec c 0x800).
  { cbn [from_utf8 app]. rewrite (between_false 0) by lia. rewrite !between_true by lia. cbn [andb].
    f_equal. f_equal. lia. }
  destruct (digit_bounds q1) as (D2 & E2 & P2); [lia|].
  replace (c / 0x1000) with (q1 / 0x40) by (unfold q1; rewrite Z.div_div by lia; done).
  set (q2 := q1 / 0x40) in *. set (d2 := q1 mod 0x40) in *.
  destruct (Z.ltb_spec c 0x10000).
  { cbn [from_utf8 app]. rewrite (between_false 0) by lia. rewrite (between_false 0xC2) by lia. cbn [andb].
    rewrite second3_char by (unfold is_char in Hc; lia). rewrite between_true by lia. cbn [andb].
    f_equal. f_equal. lia. }
  destruct (digit_bounds q2) as (D3 & E3 & P3); [lia|].
  replace (c / 0x40000) with (q2 / 0x40) by (unfold q2, q1; rewrite !Z.div_div by lia; done).
  set (q3 := q2 / 0x40) in *. set (d3 := q2 mod 0x40) in *. unfold is_char in Hc.
  cbn [from_utf8 app]. rewrite (between_false 0) by lia. rewrite (between_false 0xC2) by lia. cbn [andb].
  rewrite second3_lead by lia. cbn [andb]. rewrite second4_char by lia. rewrite !between_true by lia. cbn [andb].
  f_equal. f_equal. lia.
Qed.

Lemma from_utf8_as_bytes s : Forall is_char s → from_utf8 (as_bytes s) = Some s.
Proof.
  unfold as_bytes. induction s as [|c s IH]; intros Hs; [done|]. apply Forall_cons in Hs as [Hc Hs]. cbn [fmap list_fmap concat].
  change (from_utf8 (char_bytes c ++ concat (char_bytes <$> s)) = Some (c :: s)).
  rewrite from_utf8_char by done. by rewrite IH.
Qed.

Lemma print_spec s c : print s c = Ok (tt, mkConsole (con_in c) (con_out c ++ s)).
Proof.
  unfold print. revert c. induction s as [|ch s IH]; intros c; cbn [for_each].
  - rewrite app_nil_r. by destruct c.
  - unfold bind, console_putchar at 1, modify. rewrite IH. cbn [con_in con_out]. by rewrite <- app_assoc.
Qed.

(** ** Properties *)

(** Regular files: a write at any offset succeeds, returns the number of
    bytes, and puts them at the offset, or, when the file is shorter, at its
    end; what follows stays.  Reading at an offset inside the file returns
    what is there, up to the end of the file, and changes nothing; reading at
    an offset behind the end is an out-of-bounds panic. *)
Theorem RegFileINode_read_write f c offset buf :
  rf_readable f = true → rf_writable f = true → 0 ≤ offset → offset + len buf < 2 ^ 63 → len (rf_file f) < 2 ^ 63 →
  let file := rf_file f in
  let o := Z.to_nat (Z.min offset (len file)) in
  RegFileINode_write_at offset buf (f, c) =
    Ok (ok (len buf), (rf_with_file f (take o file ++ buf ++ drop (o + length buf) file), c)) ∧
  RegFileINode_read_at offset buf (f, c) =
    (if offset <=? len file
     then let n := Z.min (len buf) (len file - offset) in
          Ok ((ok n, splice buf 0 (subl file offset (offset + n))), (f, c))
     else Fault OutOfBounds).
Proof.
  intros Hr Hw Ho Hl Hf file o. split; [by apply reg_write_spec|].
  destruct (Z.leb_spec offset (len file)); [by apply reg_read_spec|by apply reg_read_panics].
Qed.

Lemma RegFileINode_read_write_witness :
  let f := RegFileINode_new_from_existed (str "/") (str "a") CREATE true true [1; 2; 3] in
  let c := mkConsole [] [] in
  RegFileINode_write_at 7 [8; 9] (f, c) = Ok (ok 2, (rf_with_file f [1; 2; 3; 8; 9], c)) ∧
  RegFileINode_read_at 7 [8; 9] (f, c) = Fault OutOfBounds.
Proof.
  apply (RegFileINode_read_write
    (RegFileINode_new_from_existed (str "/") (str "a") CREATE true true [1; 2; 3]) (mkConsole [] []) 7 [8; 9]);
    first [reflexivity|unfold len; simpl; lia].
Defined.

(** Terminal output: a buffer that is the UTF-8 encoding of characters is
    printed, character for character, and its length returned; a buffer that
    is not UTF-8, for example a part of a character that was split between
    two pages, panics the kernel. *)
Theorem terminal_write_utf8 buf c :
  terminal_write buf c =
    match from_utf8 buf with
    | Some s => Ok (ok (len buf), mkConsole (con_in c) (con_out c ++ s))
    | None => Fault Unwrap
    end ∧
  (∀ s, Forall is_char s → from_utf8 (as_bytes s) = Some s) ∧
  (∀ ch, 0x80 ≤ ch → is_char ch → from_utf8 (take 1 (as_bytes [ch])) = None).
Proof.
  split_and!.
  - unfold terminal_write, bind, lift, unwrap. destruct (from_utf8 buf) as [s|]; [|done]. by rewrite print_spec.
  - apply from_utf8_as_bytes.
  - intros ch Hch Hc. unfold is_char in Hc. unfold as_bytes, char_bytes. simpl. rewrite (proj2 (Z.ltb_ge _ _)) by lia.
    assert (Hd : 2 ≤ ch / 0x40) by (apply Z.div_le_lower_bound; lia).
    assert (0 ≤ ch / 0x1000 ∧ 0 ≤ ch / 0x40000) by (split; apply Z.div_pos; lia).
    destruct (ch <? 0x800); [|destruct (ch <? 0x10000)]; simpl; by rewrite between_false by lia.
Qed.
