(* ===== verification/Fd.v ===== *)
(** * Open files, descriptors and the dentry cache ([task/mod.rs], [fs/file.rs])

    Inodes and open files are shared through [Arc<Mutex<_>>]: several
    descriptors, also of several processes, may name the same open file, and
    several open files the same inode.  They live in a store; an [Arc] is its
    key.  An open file carries the state of its spin lock, which a task may
    keep while it is suspended; locking a locked one ends in the panic of the spin
    mutex, since one hart runs the tasks and a task is not preempted. *)

From S2P Require Import Prelude Inode.

(** [task/mod.rs:66-72] OpenFile *)
Record OpenFile : Type := mkOpenFile {
  offset : Z;
  status_flags : Z;
  readable : bool;
  writable : bool;
  of_inode : Z;
}.
Record OpenFileCell : Type := mkCell { cell_file : OpenFile; cell_locked : bool }.

(** The store: inodes, open files, the global dentry cache and the console. *)
Record fstore : Type := mkFs {
  inodes : gmap Z inode;
  open_files : gmap Z OpenFileCell;
  dentries : gmap String Z;
  console : Console;
  next_arc : Z;
}.
Definition fs_set_inodes (s : fstore) x := mkFs x (open_files s) (dentries s) (console s) (next_arc s).
Definition fs_set_open_files (s : fstore) x := mkFs (inodes s) x (dentries s) (console s) (next_arc s).
Definition fs_set_dentries (s : fstore) x := mkFs (inodes s) (open_files s) x (console s) (next_arc s).
Definition fs_set_console (s : fstore) x := mkFs (inodes s) (open_files s) (dentries s) x (next_arc s).
Definition fs_console : lens fstore Console := Lens console (λ c s, fs_set_console s c).

Abbreviation FS := (M fstore).

(** ** [Arc<Mutex<dyn INode>>] *)
Definition inode_new (i : inode) : FS Z :=
  let* s := get in
  let id := next_arc s in
  put (mkFs (<[id := i]> (inodes s)) (open_files s) (dentries s) (console s) (id + 1)) ;;
  ret id.
Definition inode_get (id : Z) : FS inode := let* s := get in lift (unwrap (inodes s !! id)).
(** [inode.lock().method(..)]: the guard lasts for the statement. *)
Definition with_inode {A} (id : Z) (m : iom inode A) : FS A :=
  λ s, match inodes s !! id with
       | None => Fault Unwrap
       | Some i => match m (i, console s) with
                   | Ok (a, (i', c')) => Ok (a, fs_set_console (fs_set_inodes s (<[id := i']> (inodes s))) c')
                   | Fault f => Fault f
                   end
       end.

(** ** [Arc<Mutex<OpenFile>>] *)
Definition open_file_arc (o : OpenFile) : FS Z :=
  let* s := get in
  let id := next_arc s in
  put (mkFs (inodes s) (<[id := mkCell o false]> (open_files s)) (dentries s) (console s) (id + 1)) ;;
  ret id.
Definition of_set_locked (id : Z) (b : bool) : FS unit :=
  let* s := get in
  let* c := lift (unwrap (open_files s !! id)) in
  put (fs_set_open_files s (<[id := mkCell (cell_file c) b]> (open_files s))).
Definition of_lock (id : Z) : FS unit :=
  let* s := get in
  let* c := lift (unwrap (open_files s !! id)) in
  if cell_locked c then throw Deadlock else of_set_locked id true.
Definition of_unlock (id : Z) : FS unit := of_set_locked id false.
(** Access through a guard. *)
Definition of_get (id : Z) : FS OpenFile :=
  let* s := get in let* c := lift (unwrap (open_files s !! id)) in ret (cell_file c).
Definition of_put (id : Z) (o : OpenFile) : FS unit :=
  let* s := get in
  let* c := lift (unwrap (open_files s !! id)) in
  put (fs_set_open_files s (<[id := mkCell o (cell_locked c)]> (open_files s))).
Definition of_set_offset (id : Z) (off : Z) : FS unit :=
  let* o := of_get id in
  of_put id (mkOpenFile off (status_flags o) (readable o) (writable o) (of_inode o)).

(** ** [OpenFile] *)
(** [task/mod.rs:75-89] OpenFile::new *)
Definition OpenFile_new : FS OpenFile :=
  let* i := inode_new (IReg (RegFileINode_new (str "/") (str "null") (OpenFlags_new 0) true true)) in
  ret (mkOpenFile 0 0 true true i).
(** [task/mod.rs:91-99] OpenFile::new_stdin *)
Definition OpenFile_new_stdin : FS OpenFile :=
  let* i := inode_new (ITerm TerminalINode_new_stdin) in ret (mkOpenFile 0 0 true false i).
(** [task/mod.rs:101-109] OpenFile::new_stdout *)
Definition OpenFile_new_stdout : FS OpenFile :=
  let* i := inode_new (ITerm TerminalINode_new_stdout) in ret (mkOpenFile 0 0 false true i).
(** [task/mod.rs:111-119] OpenFile::new_stderr *)
Definition OpenFile_new_stderr : FS OpenFile :=
  let* i := inode_new (ITerm TerminalINode_new_stderr) in ret (mkOpenFile 0 0 false true i).
(** [task/mod.rs:121-129] OpenFile::new_from_inode *)
Definition OpenFile_new_from_inode (readable writable : bool) (inode : Z) : OpenFile :=
  mkOpenFile 0 0 readable writable inode.
(** [task/mod.rs:131-138] OpenFile::set_close_on_exec *)
Definition OpenFile_set_close_on_exec (self : OpenFile) (flag : bool) : OpenFile * Z :=
  (mkOpenFile (offset self) (if flag then 1 else 0) (readable self) (writable self) (of_inode self), 0).

(** [Arc::new(Mutex::new(OpenFile::new()))]. *)
Definition new_null_file : FS Z := let* o := OpenFile_new in open_file_arc o.

(** ** The global tables *)
(** [task/mod.rs:140-143] GlobalOpenFileTable *)
Definition GlobalOpenFileTable : Type := list OpenFile.
(** [task/mod.rs:146-150] GlobalOpenFileTable::insert *)
Definition GlobalOpenFileTable_insert (open_file : OpenFile) : M GlobalOpenFileTable OpenFile :=
  let* table := get in
  put (table ++ [open_file]) ;;
  lift (unwrap (last (table ++ [open_file]))).

(** Buffers are identified by their [Arc]. *)
(** [task/mod.rs:154-156] GlobalBufferList *)
Definition GlobalBufferList : Type := list Z.
(** [task/mod.rs:159-163] GlobalBufferList::insert *)
Definition GlobalBufferList_insert (buf : Z) : M GlobalBufferList Z :=
  let* list := get in
  put (list ++ [buf]) ;;
  lift (unwrap (last (list ++ [buf]))).
(** [task/mod.rs:164-174] GlobalBufferList::remove *)
Fixpoint buffer_remove (buf : Z) (list : GlobalBufferList) : GlobalBufferList :=
  match list with
  | [] => []
  | b :: rest => if b =? buf then rest else b :: buffer_remove buf rest
  end.

(** ** [FdManager] *)
(** [task/mod.rs:183-187] FdManager *)
Record FdManager : Type := mkFdManager { fd_array : list Z }.

(** [task/mod.rs:190-197] FdManager::new *)
Definition FdManager_new : FS FdManager :=
  let* o := OpenFile_new_stdin in
  let* a := open_file_arc o in
  let* o := OpenFile_new_stdout in
  let* b := open_file_arc o in
  let* o := OpenFile_new_stderr in
  let* c := open_file_arc o in
  ret (mkFdManager [a; b; c]).
(** [task/mod.rs:198-200] FdManager::len *)
Definition FdManager_len (self : FdManager) : Z := len (fd_array self).
(** [task/mod.rs:201-211] FdManager::close *)
Definition FdManager_close (self : FdManager) (fd : Z) : FS FdManager :=
  let* a := new_null_file in
  let* v := lift (set_idx (fd_array self) fd a) in
  ret (mkFdManager v).
(** [task/mod.rs:214-219] FdManager::close_on_exec. The body for index [i]. *)
Definition close_on_exec_at (v : list Z) (i : Z) : FS (list Z) :=
  let* a := lift (idx v i) in
  of_lock a ;;
  let* o := of_get a in
  of_unlock a ;;
  if status_flags o =? 1 then
    let* b := new_null_file in
    lift (set_idx v i b)
  else ret v.
(** [task/mod.rs:212-220] FdManager::close_on_exec *)
Definition FdManager_close_on_exec (self : FdManager) : FS FdManager :=
  let* v := fold_m close_on_exec_at (seqZ 0 (len (fd_array self))) (fd_array self) in
  ret (mkFdManager v).
(** [task/mod.rs:221-224] FdManager::push *)
Definition FdManager_push (self : FdManager) (open_file : Z) : FdManager * Z :=
  (mkFdManager (fd_array self ++ [open_file]), len (fd_array self ++ [open_file]) -u 1).
(** [task/mod.rs:225-227] FdManager::get *)
Definition FdManager_get (self : FdManager) (fd : Z) : option Z := fd_array self !! Z.to_nat fd.
(** [task/mod.rs:231-233] FdManager::remove *)
Definition FdManager_remove (self : FdManager) (fd : Z) : outcome (Z * FdManager) :=
  let! a := idx (fd_array self) fd in
  Ok (a, mkFdManager (delete (Z.to_nat fd) (fd_array self))).
(** [task/mod.rs:234-239] FdManager::dup *)
Definition FdManager_dup (self : FdManager) (fd : Z) : outcome (FdManager * Z) :=
  let! open_file := unwrap (FdManager_get self fd) in
  let v := fd_array self ++ [open_file] in
  Ok (mkFdManager v, len v -u 1).
(** [task/mod.rs:242-244] FdManager::dup3. The loop; [n] bounds its passes. *)
Fixpoint dup3_fill (n : nat) (v : list Z) (new_fd : Z) : FS (list Z) :=
  match n with
  | O => if len v <? new_fd then throw Fuel else ret v
  | S n =>
      if len v <? new_fd then
        let* a := new_null_file in dup3_fill n (v ++ [a]) new_fd
      else ret v
  end.
(** [task/mod.rs:240-249] FdManager::dup3 *)
Definition FdManager_dup3 (self : FdManager) (fd new_fd : Z) : FS (FdManager * Z) :=
  let* open_file := lift (unwrap (FdManager_get self fd)) in
  let* v := dup3_fill (Z.to_nat new_fd) (fd_array self) new_fd in
  let* v := lift (set_idx v new_fd open_file) in
  ret (mkFdManager v, new_fd).

(** ** [GlobalDentryCache] *)
(** [task/mod.rs:262-268] GlobalDentryCache::get *)
Definition GlobalDentryCache_get (path : String) : FS (option Z) :=
  let* s := get in ret (dentries s !! path).
(** [task/mod.rs:269-274] GlobalDentryCache::insert *)
Definition GlobalDentryCache_insert (path : String) (inode : Z) : FS Z :=
  let* s := get in
  put (fs_set_dentries s (<[path := inode]> (dentries s))) ;;
  let* s := get in
  lift (unwrap (dentries s !! path)).
(** [task/mod.rs:275-278] GlobalDentryCache::remove *)
Definition GlobalDentryCache_remove (path : String) : FS unit :=
  modify (λ s, fs_set_dentries s (delete path (dentries s))).
(** [task/mod.rs:279-300] GlobalDentryCache::unlink *)
Definition GlobalDentryCache_unlink (path : String) : FS unit :=
  let* s := get in
  let* i := lift (unwrap (dentries s !! path)) in
  with_inode i (unlink path) ;;
  ret tt.

(** ** [File] *)
(** [fs/file.rs:14-19] File *)
Record File : Type := mkFile { f_inode : Z; f_offset : Z; f_readable : bool; f_writable : bool }.
(** [fs/file.rs:22-29] File::new *)
Definition File_new (inode : Z) (readable writable : bool) : File := mkFile inode 0 readable writable.
(** [fs/file.rs:31-36] File::read *)
Definition File_read (self : File) (buf : list Z) : FS (Result Z FsError * list Z * File) :=
  lift (assert_ (f_readable self)) ;;
  let* '(res, buf) := with_inode (f_inode self) (read_at (f_offset self) buf) in
  match res with
  | err e => ret (err e, buf, self)
  | ok ln => ret (ok ln, buf, mkFile (f_inode self) (f_offset self +u ln) (f_readable self) (f_writable self))
  end.
(** [fs/file.rs:38-43] File::write *)
Definition File_write (self : File) (buf : list Z) : FS (Result Z FsError * File) :=
  lift (assert_ (f_writable self)) ;;
  let* res := with_inode (f_inode self) (write_at (f_offset self) buf) in
  match res with
  | err e => ret (err e, self)
  | ok ln => ret (ok ln, mkFile (f_inode self) (f_offset self +u ln) (f_readable self) (f_writable self))
  end.
(** [fs/file.rs:45-47] File::info *)
Definition File_info (self : File) : FS (Result Metadata FsError) :=
  let* i := inode_get (f_inode self) in ret (metadata i).
(** [fs/file.rs:49-51] File::get_entry *)
Definition File_get_entry (self : File) (id : Z) : FS (Result String FsError) :=
  let* i := inode_get (f_inode self) in ret (get_entry i id).

(** ** Duplicating *)
Lemma new_null_file_run s : ∃ x s1, new_null_file s = Ok (x, s1).
Proof.
  unfold new_null_file, OpenFile_new, inode_new, open_file_arc, bind, get, put, ret. eexists _, _. reflexivity.
Qed.
Lemma dup3_fill_spec n : ∀ v new_fd s,
  len v ≤ new_fd → new_fd - len v ≤ Z.of_nat n → ∃ v' s', dup3_fill n v new_fd s = Ok (v', s') ∧ len v' = new_fd.
Proof.
  induction n as [|n IH]; intros v new_fd s Hle Hn; cbn [dup3_fill].
  { rewrite (proj2 (Z.ltb_ge _ _)) by lia. exists v, s. split; [done|]. lia. }
  destruct (Z.ltb_spec (len v) new_fd); [|exists v, s; split; [done|lia]].
  destruct (new_null_file_run s) as (x & s1 & Hf).
  rewrite (bind_run _ _ _ _ _ Hf). assert (len (v ++ [x]) = len v + 1) by (unfold len; rewrite length_app; cbn; lia).
  apply IH; lia.
Qed.

(** [dup3] of a descriptor: onto an existing descriptor it replaces that
    one and changes nothing else; onto any other it panics, since the array is
    filled up only to [new_fd] entries, one too few.  It panics also if the
    descriptor to copy does not exist. *)
Theorem FdManager_dup3_cases self fd new_fd s :
  0 ≤ new_fd →
  match FdManager_get self fd with
  | None => FdManager_dup3 self fd new_fd s = Fault Unwrap
  | Some a =>
      if new_fd <? FdManager_len self
      then FdManager_dup3 self fd new_fd s = Ok ((mkFdManager (<[Z.to_nat new_fd := a]> (fd_array self)), new_fd), s)
      else FdManager_dup3 self fd new_fd s = Fault OutOfBounds
  end.
Proof.
  intros Hn. unfold FdManager_dup3, FdManager_len. destruct (FdManager_get self fd) as [a|]; [|done].
  cbn [unwrap]. rewrite bind_lift_Ok. destruct (Z.ltb_spec new_fd (len (fd_array self))) as [Hlt|Hge].
  - rewrite (bind_run _ _ _ (fd_array self) s).
    + unfold bind, lift, set_idx. by rewrite (proj2 (Z.ltb_lt _ _)).
    + destruct (Z.to_nat new_fd); cbn [dup3_fill]; by rewrite (proj2 (Z.ltb_ge _ _)) by lia.
  - pose proof (len_nonneg (fd_array self)).
    destruct (dup3_fill_spec (Z.to_nat new_fd) (fd_array self) new_fd s) as (v & s' & Hrun & Hl); [lia|lia|].
    rewrite (bind_run _ _ _ _ _ Hrun). unfold bind, lift, set_idx. by rewrite (proj2 (Z.ltb_ge _ _)) by lia.
Qed.
Lemma FdManager_dup3_cases_witness :
  FdManager_dup3 (mkFdManager [8; 9; 10]) 0 3 (mkFs ∅ ∅ ∅ (mkConsole [] []) 11) = Fault OutOfBounds.
Proof. apply (FdManager_dup3_cases (mkFdManager [8; 9; 10]) 0 3). lia. Defined.
