(* ===== verification/FatItem.v ===== *)
(** * FAT32: names and directory items ([fat32/src/tool.rs], [bpb.rs], [directory_item.rs])

    The pure part of the FAT32 crate: the fields of the boot sector, the short
    and long directory items and their 32 bytes on disk, the checksum and the
    conversions of names.  Arrays are lists; what panics in the code, an index
    out of range for example, is a fault.  The theorems are round trips: an
    item written to disk and read back, a long name encoded and decoded. *)

From S2P Require Import Prelude Inode.

(** The sector size, with the crate's default feature. *)
(** [fat32/lib.rs:10-11] BUFFER_SIZE *)
Definition BUFFER_SIZE : Z := 512.

(** A loop over a list whose body may panic. *)
Fixpoint fold_o {A B} (f : B → A → outcome B) (l : list A) (b : B) : outcome B :=
  match l with
  | [] => Ok b
  | a :: l => let! b := f b a in fold_o f l b
  end.

(** ** [tool.rs] *)
(** [fat32/tool.rs:6-9] is_fat32 *)
Definition is_fat32 (value : list Z) : outcome bool :=
  let! v := slice value 0 5 in
  let! file_system_str := unwrap (from_utf8 v) in
  Ok (bool_decide (file_system_str = str "FAT32")).
(** [fat32/tool.rs:11-14] read_le_u16 *)
Definition read_le_u16 (input : list Z) : outcome Z :=
  let! int_bytes := slice input 0 2 in Ok (little_endian_to_Z 8 int_bytes).
(** [fat32/tool.rs:16-19] read_le_u32 *)
Definition read_le_u32 (input : list Z) : outcome Z :=
  let! int_bytes := slice input 0 4 in Ok (little_endian_to_Z 8 int_bytes).

Definition str_contains (s : String) (p : Z → bool) : bool := existsb p s.
(** The double quote is character 34. *)
(** [fat32/tool.rs:21-29] is_illegal *)
Definition is_illegal (chs : String) : bool :=
  existsb (λ ch, str_contains chs (Z.eqb ch)) (str "\/:*?" ++ [34] ++ str "<>|").

(** [fat32/directory_item.rs:5-8] NameType *)
Inductive NameType : Type := NameType_SFN | NameType_LFN.

(** [value.find('.')]: what is before and behind the first dot. *)
Fixpoint split_dot (value : String) : String * String :=
  match value with
  | [] => ([], [])
  | c :: rest => if c =? 46 then ([], rest) else let '(n, e) := split_dot rest in (c :: n, e)
  end.
Definition is_ascii (s : String) : bool := forallb (λ c, c <? 0x80) s.
Definition is_ascii_uppercase (c : Z) : bool := between 65 90 c.
Definition to_ascii_uppercase (c : Z) : Z := if between 97 122 c then c - 32 else c.
Definition to_ascii_lowercase (c : Z) : Z := if between 65 90 c then c + 32 else c.

(** [fat32/tool.rs:31-48] sfn_or_lfn *)
Definition sfn_or_lfn (value : String) : NameType :=
  let '(name, extension) := split_dot value in
  if is_ascii value
     && negb (str_contains value is_ascii_uppercase)
     && negb (str_contains value (Z.eqb 32))
     && negb (str_contains name (Z.eqb 46))
     && negb (str_contains extension (Z.eqb 46))
     && (str_len name <=? 8)
     && (str_len extension <=? 3)
  then NameType_SFN else NameType_LFN.

(** [fat32/tool.rs:50-53] get_count_of_lfn *)
Definition get_count_of_lfn (value : String) : Z :=
  let num_char := len value in
  if num_char mod 13 =? 0 then num_char / 13 else num_char / 13 + 1.

(** The byte length of the characters of [value_str], the first of which has
    index [index], with an index below [end_]. *)
(** [fat32/tool.rs:58-62] get_lfn_index. The loop. *)
Fixpoint lfn_index_loop (value_str : String) (index end_ ln : Z) : Z :=
  match value_str with
  | [] => ln
  | ch :: rest => lfn_index_loop rest (index + 1) end_ (if index <? end_ then ln +u len (char_bytes ch) else ln)
  end.
(** [fat32/tool.rs:55-64] get_lfn_index *)
Definition get_lfn_index (value_str : String) (count : Z) : Z :=
  lfn_index_loop value_str 0 (13 *u (count -u 1)) 0.

(** [fat32/tool.rs:66-76] generate_checksum *)
Definition generate_checksum (value : list Z) : Z :=
  wrap8 (foldl (λ checksum i,
    Z.land ((if Z.land checksum 1 =? 1 then 0x80 else 0) + Z.shiftr checksum 1 + i) 0xFF) 0 value).

(** [fat32/tool.rs:78-84] get_needed_sector *)
Definition get_needed_sector (value : Z) : Z :=
  if negb (value mod BUFFER_SIZE =? 0) then value / BUFFER_SIZE + 1 else value / BUFFER_SIZE.

(** ** [bpb.rs] *)
(** [fat32/bpb.rs:3-14] BIOSParameterBlock *)
Record BIOSParameterBlock : Type := mkBPB {
  byte_per_sector : Z; sector_per_cluster : Z; reserved_sector : Z; num_fat : Z;
  total_sector : Z; sector_per_fat : Z; root_cluster : Z; bpb_id : Z;
  bpb_volume_label : list Z; file_system : list Z;
}.
(** [fat32/bpb.rs:18-23] BIOSParameterBlock::offset *)
Definition BPB_offset (self : BIOSParameterBlock) (cluster : Z) : Z :=
  (reserved_sector self +u num_fat self *u sector_per_fat self +u
   (cluster -u 2) *u sector_per_cluster self) *u byte_per_sector self.
(** [fat32/bpb.rs:26-28] BIOSParameterBlock::fat1 *)
Definition BPB_fat1 (self : BIOSParameterBlock) : Z := reserved_sector self *u byte_per_sector self.
(** [fat32/bpb.rs:31-33] BIOSParameterBlock::sector_per_cluster_usize *)
Definition sector_per_cluster_usize (self : BIOSParameterBlock) : Z := sector_per_cluster self.

(** ** Directory items *)
(** [fat32/dir.rs:28-31] OpType *)
Inductive OpType : Type := OpType_Dir | OpType_File.
(** [fat32/directory_item.rs:11-16] ItemType *)
Inductive ItemType : Type := ItemType_Dir | ItemType_File | ItemType_LFN | ItemType_Deleted.
#[export] Instance ItemType_eq_dec : EqDecision ItemType.
Proof. solve_decision. Defined.
(** [fat32/directory_item.rs:19-27] ItemType::from_value *)
Definition ItemType_from_value (value : Z) : ItemType :=
  if Z.land value 0x10 =? 0x10 then ItemType_Dir
  else if value =? 0x0F then ItemType_LFN
  else ItemType_File.
(** [fat32/directory_item.rs:29-34] ItemType::from_create *)
Definition ItemType_from_create (value : OpType) : ItemType :=
  match value with OpType_Dir => ItemType_Dir | OpType_File => ItemType_File end.
(** [fat32/directory_item.rs:38-40] ItemType::default *)
Definition ItemType_default : ItemType := ItemType_Dir.

(** *** Short items *)
(** [fat32/directory_item.rs:44-49] ShortDirectoryItem *)
Record ShortDirectoryItem : Type := mkSfn { sfn_name : list Z; sfn_extension : list Z; sfn_length : Z; sfn_cluster : Z }.
Definition ShortDirectoryItem_default : ShortDirectoryItem := mkSfn (replicate 8 0) (replicate 3 0) 0 0.

(** [fat32/directory_item.rs:105-121] ShortDirectoryItem::from_buf *)
Definition Sfn_from_buf (buf : list Z) : outcome ShortDirectoryItem :=
  let! name := slice buf 0x00 0x08 in
  let! extension := slice buf 0x08 0x0B in
  let! b15 := idx buf 0x15 in
  let! b14 := idx buf 0x14 in
  let! b1B := idx buf 0x1B in
  let! b1A := idx buf 0x1A in
  let! l := slice buf 0x1C 0x20 in
  let! length := read_le_u32 l in
  Ok (mkSfn name extension length
    (Z.lor (Z.lor (Z.lor (Z.shiftl b15 24) (Z.shiftl b14 16)) (Z.shiftl b1B 8)) b1A)).

(** The cluster number in the bytes of an item. *)
(** [fat32/directory_item.rs:66-70] ShortDirectoryItem::new. The cluster; [new_bytes] and [bytes] do the same. *)
Definition put_cluster (item : list Z) (cluster : Z) : outcome (list Z) :=
  let c := le32 cluster in
  let! hi := slice c 2 4 in
  let! item := copy_into item 0x14 0x16 hi in
  let! lo := slice c 0 2 in
  copy_into item 0x1A 0x1C lo.
(** [item[a..b].make_ascii_uppercase()]. *)
Definition uppercase_range (item : list Z) (a b : Z) : outcome (list Z) :=
  let! s := slice item a b in copy_into item a b (to_ascii_uppercase <$> s).

(** [fat32/directory_item.rs:52-78] ShortDirectoryItem::new *)
Definition Sfn_new (cluster : Z) (value : String) (create_type : OpType) : outcome ShortDirectoryItem :=
  let '(name, extension) := split_dot value in
  let item := replicate 32 0 in
  let! item := copy_into item 0x00 0x0B (replicate 11 0x20) in
  let! item := copy_into item 0x00 (0x00 + str_len name) (as_bytes name) in
  let! item := copy_into item 0x08 (0x08 + str_len extension) (as_bytes extension) in
  let! item := uppercase_range item 0x00 (0x00 + str_len name) in
  let! item := uppercase_range item 0x08 (0x08 + str_len extension) in
  let! item := put_cluster item cluster in
  let! item := match create_type with
               | OpType_Dir => set_idx item 0x0B 0x10
               | OpType_File => set_idx item 0x10 0x20
               end in
  Sfn_from_buf item.
(** [fat32/directory_item.rs:80-96] ShortDirectoryItem::new_bytes *)
Definition Sfn_new_bytes (cluster : Z) (value : list Z) (create_type : OpType) : outcome ShortDirectoryItem :=
  let item := replicate 32 0 in
  let! item := copy_into item 0x00 0x0B value in
  let! item := put_cluster item cluster in
  let! item := match create_type with
               | OpType_Dir => set_idx item 0x0B 0x10
               | OpType_File => set_idx item 0x10 0x20
               end in
  Sfn_from_buf item.
(** [fat32/directory_item.rs:98-103] ShortDirectoryItem::root_dir *)
Definition Sfn_root_dir (cluster : Z) : ShortDirectoryItem :=
  mkSfn (sfn_name ShortDirectoryItem_default) (sfn_extension ShortDirectoryItem_default)
    (sfn_length ShortDirectoryItem_default) cluster.

(** [full_name[len] = i; len += 1]. *)
(** [fat32/directory_item.rs:129-130] ShortDirectoryItem::get_full_name_bytes. One byte. *)
Definition push_name (acc : list Z * Z) (i : Z) : outcome (list Z * Z) :=
  let! full_name := set_idx (fst acc) (snd acc) i in Ok (full_name, snd acc + 1).
(** [fat32/directory_item.rs:127-132] ShortDirectoryItem::get_full_name_bytes. One pass. *)
Definition push_non_blank (acc : list Z * Z) (i : Z) : outcome (list Z * Z) :=
  if negb (i =? 0x20) then push_name acc i else Ok acc.
(** [fat32/directory_item.rs:123-147] ShortDirectoryItem::get_full_name_bytes *)
Definition get_full_name_bytes (self : ShortDirectoryItem) : outcome (list Z * Z) :=
  let! acc := fold_o push_non_blank (sfn_name self) (replicate 12 0, 0) in
  let! e0 := idx (sfn_extension self) 0 in
  let! acc := if negb (e0 =? 0x20) then push_name acc 46 else Ok acc in
  fold_o push_non_blank (sfn_extension self) acc.

(** [fat32/directory_item.rs:149-174] ShortDirectoryItem::bytes *)
Definition Sfn_bytes (self : ShortDirectoryItem) (item_type : ItemType) : outcome (list Z) :=
  let item := replicate 32 0 in
  let! item := copy_into item 0x00 0x08 (sfn_name self) in
  let! item := copy_into item 0x08 0x0B (sfn_extension self) in
  let! item := put_cluster item (sfn_cluster self) in
  let! item := set_idx item 0x0C 0x18 in
  let! item := copy_into item 0x1C 0x20 (le32 (sfn_length self)) in
  match item_type with
  | ItemType_Dir => set_idx item 0x0B 0x10
  | ItemType_File => set_idx item 0x0B 0x20
  | ItemType_LFN => set_idx item 0x0B 0x0F
  | ItemType_Deleted => set_idx item 0x00 0xE5
  end.

(** *** Long items *)
(** [fat32/directory_item.rs:178-184] LongDirectoryItem *)
Record LongDirectoryItem : Type := mkLfn {
  attribute : Z; check_sum : Z; unicode_part1 : list Z; unicode_part2 : list Z; unicode_part3 : list Z;
}.

(** [char::encode_utf16]. *)
Definition utf16 (c : Z) : list Z :=
  if c <? 0x10000 then [c] else [0xD800 + (c - 0x10000) / 0x400; 0xDC00 + (c - 0x10000) mod 0x400].
Definition encode_utf16 (s : String) : list Z := concat (utf16 <$> s).
(** The positions of an item that hold the units of a part. *)
Definition step_by_2 (start end_ : Z) : list Z :=
  (λ k, start + 2 * k) <$> seqZ 0 ((end_ - start + 1) / 2).

(** [temp[index] = part1; temp[index + 1] = part2; index += 2]. *)
(** [fat32/directory_item.rs:199-205] LongDirectoryItem::write_unicode. One pass. *)
Definition put_unit (acc : list Z * Z) (i : Z) : outcome (list Z * Z) :=
  let '(temp, index) := acc in
  let part1 := wrap8 (Z.land i 0xFF) in
  let part2 := wrap8 (Z.shiftr (Z.land i 0xFF00) 8) in
  let! temp := set_idx temp index part1 in
  let! temp := set_idx temp (index + 1) part2 in
  Ok (temp, index + 2).
(** The closure [op] for one position of [buf]. *)
(** [fat32/directory_item.rs:213-219] LongDirectoryItem::write_unicode. The closure [op], for one position. *)
Definition move_unit (temp : list Z) (acc : list Z * Z) (i : Z) : outcome (list Z * Z) :=
  let '(buf, index) := acc in
  let! t0 := idx temp index in
  let! buf := set_idx buf i t0 in
  let! t1 := idx temp (index + 1) in
  let! buf := set_idx buf (i + 1) t1 in
  Ok (buf, index + 2).
(** [fat32/directory_item.rs:195-224] LongDirectoryItem::write_unicode *)
Definition write_unicode (value : String) (buf : list Z) : outcome (list Z) :=
  let! '(temp, index) := fold_o put_unit (encode_utf16 value) (replicate 26 0xFF, 0) in
  let! temp := if negb (index =? 26) then
                 let! temp := set_idx temp index 0 in set_idx temp (index + 1) 0
               else Ok temp in
  let! acc := fold_o (move_unit temp) (step_by_2 0x01 0x0A) (buf, 0) in
  let! acc := fold_o (move_unit temp) (step_by_2 0x0E 0x19) acc in
  let! acc := fold_o (move_unit temp) (step_by_2 0x1C 0x1F) acc in
  Ok (fst acc).
(** [fat32/directory_item.rs:226-244] LongDirectoryItem::from_buf *)
Definition Lfn_from_buf (buf : list Z) : outcome LongDirectoryItem :=
  let! attribute := idx buf 0x00 in
  let! check_sum := idx buf 0x0D in
  let! unicode_part1 := slice buf 0x01 0x0B in
  let! unicode_part2 := slice buf 0x0E 0x1A in
  let! unicode_part3 := slice buf 0x1C 0x20 in
  Ok (mkLfn attribute check_sum unicode_part1 unicode_part2 unicode_part3).
(** [fat32/directory_item.rs:187-193] LongDirectoryItem::new *)
Definition Lfn_new (attribute check_sum : Z) (value : String) : outcome LongDirectoryItem :=
  let! buf := set_idx (replicate 32 0) 0x00 attribute in
  let! buf := set_idx buf 0x0D check_sum in
  let! buf := write_unicode value buf in
  Lfn_from_buf buf.

(** [utf8[len + i] = bytes[i]; len += bytes.len()]. *)
Definition put_utf8 (acc : list Z * Z) (bytes : list Z) : outcome (list Z * Z) :=
  let! utf8 := copy_into (fst acc) (snd acc) (snd acc + len bytes) bytes in Ok (utf8, snd acc + len bytes).
(** [fat32/directory_item.rs:254-273] LongDirectoryItem::to_utf8. The bytes of
    one unit. *)
Definition unit_utf8 (unicode : Z) : list Z :=
  if unicode <=? 0x007F then [wrap8 unicode]
  else if (unicode >=? 0x0080) && (unicode <=? 0x07FF) then
    [wrap8 (Z.lor 0xC0 (Z.land 0x1F (Z.shiftr unicode 6)));
     wrap8 (Z.lor 0x80 (Z.land 0x3F unicode))]
  else if unicode >=? 0x0800 then
    [wrap8 (Z.lor 0xE0 (Z.land 0x1F (Z.shiftr unicode 12)));
     wrap8 (Z.lor 0x80 (Z.land 0x3F (Z.shiftr unicode 6)));
     wrap8 (Z.lor 0x80 (Z.land 0x3F unicode))]
  else [].
(** [fat32/directory_item.rs:249-275] LongDirectoryItem::to_utf8. The closure
    [op]: the units of a part up to an end mark. *)
Fixpoint part_utf8 (part : list Z) (acc : list Z * Z) : outcome (list Z * Z) :=
  match part with
  | [] => Ok acc
  | [p0] => if p0 =? 0xFF then Ok acc else Fault OutOfBounds
  | p0 :: p1 :: rest =>
      if ((p0 =? 0x00) && (p1 =? 0x00)) || (p0 =? 0xFF) then Ok acc
      else
        let! acc := put_utf8 acc (unit_utf8 (Z.lor (wrap16 (Z.shiftl p1 8)) p0)) in
        part_utf8 rest acc
  end.
(** [fat32/directory_item.rs:246-282] LongDirectoryItem::to_utf8 *)
Definition to_utf8 (self : LongDirectoryItem) : outcome (list Z * Z) :=
  let! acc := part_utf8 (unicode_part1 self) (replicate 39 0, 0) in
  let! acc := part_utf8 (unicode_part2 self) acc in
  part_utf8 (unicode_part3 self) acc.
(** [fat32/directory_item.rs:284-286] LongDirectoryItem::count_of_name *)
Definition Lfn_count_of_name (self : LongDirectoryItem) : Z := Z.land (attribute self) 0x1F.
(** [fat32/directory_item.rs:288-290] LongDirectoryItem::is_name_end *)
Definition Lfn_is_name_end (self : LongDirectoryItem) : bool := Z.land (attribute self) 0x40 =? 0x40.
(** [fat32/directory_item.rs:292-302] LongDirectoryItem::bytes *)
Definition Lfn_bytes (self : LongDirectoryItem) : outcome (list Z) :=
  let! buf := set_idx (replicate 32 0) 0x00 (attribute self) in
  let! buf := set_idx buf 0x0B 0x0F in
  let! buf := set_idx buf 0x0D (check_sum self) in
  let! buf := copy_into buf 0x01 0x0B (unicode_part1 self) in
  let! buf := copy_into buf 0x0E 0x1A (unicode_part2 self) in
  copy_into buf 0x1C 0x20 (unicode_part3 self).

(** *** [DirectoryItem] *)
(** [fat32/directory_item.rs:306-310] DirectoryItem *)
Record DirectoryItem : Type := mkItem {
  item_type : ItemType; sfn : option ShortDirectoryItem; lfn : option LongDirectoryItem;
}.
(** [fat32/directory_item.rs:313-315] DirectoryItem::cluster *)
Definition Item_cluster (self : DirectoryItem) : outcome Z := let! s := unwrap (sfn self) in Ok (sfn_cluster s).
(** [fat32/directory_item.rs:317-323] DirectoryItem::get_sfn *)
Definition get_sfn (self : DirectoryItem) : outcome (option (list Z * Z)) :=
  match sfn self with Some s => let! r := get_full_name_bytes s in Ok (Some r) | None => Ok None end.
(** [fat32/directory_item.rs:325-331] DirectoryItem::get_lfn *)
Definition get_lfn (self : DirectoryItem) : outcome (option (list Z * Z)) :=
  match lfn self with Some l => let! r := to_utf8 l in Ok (Some r) | None => Ok None end.
(** [fat32/directory_item.rs:333-339] DirectoryItem::count_of_name *)
Definition Item_count_of_name (self : DirectoryItem) : option Z := Lfn_count_of_name <$> lfn self.
(** [fat32/directory_item.rs:341-347] DirectoryItem::is_name_end *)
Definition Item_is_name_end (self : DirectoryItem) : option bool := Lfn_is_name_end <$> lfn self.
(** [fat32/directory_item.rs:349-355] DirectoryItem::length *)
Definition Item_length (self : DirectoryItem) : option Z := sfn_length <$> sfn self.
(** [fat32/directory_item.rs:357-363] DirectoryItem::bytes *)
Definition Item_bytes (self : DirectoryItem) : outcome (list Z) :=
  match sfn self with
  | Some s => Sfn_bytes s (item_type self)
  | None => let! l := unwrap (lfn self) in Lfn_bytes l
  end.
(** [fat32/directory_item.rs:365-371] DirectoryItem::new_lfn *)
Definition Item_new_lfn (attribute check_sum : Z) (value : String) : outcome DirectoryItem :=
  let! l := Lfn_new attribute check_sum value in Ok (mkItem ItemType_LFN None (Some l)).
(** [fat32/directory_item.rs:373-379] DirectoryItem::new_sfn *)
Definition Item_new_sfn (cluster : Z) (value : String) (create_type : OpType) : outcome DirectoryItem :=
  let! s := Sfn_new cluster value create_type in Ok (mkItem (ItemType_from_create create_type) (Some s) None).
(** [fat32/directory_item.rs:381-387] DirectoryItem::new_sfn_bytes *)
Definition Item_new_sfn_bytes (cluster : Z) (value : list Z) (create_type : OpType) : outcome DirectoryItem :=
  let! s := Sfn_new_bytes cluster value create_type in Ok (mkItem (ItemType_from_create create_type) (Some s) None).
(** [fat32/directory_item.rs:389-394] DirectoryItem::root_dir *)
Definition Item_root_dir (cluster : Z) : DirectoryItem :=
  mkItem ItemType_default (Some (Sfn_root_dir cluster)) None.
(** [fat32/directory_item.rs:396-419] DirectoryItem::from_buf *)
Definition Item_from_buf (buf : list Z) : outcome DirectoryItem :=
  let! b0 := idx buf 0x00 in
  let! item_type := if b0 =? 0xE5 then Ok ItemType_Deleted
                    else let! bB := idx buf 0x0B in Ok (ItemType_from_value bB) in
  match item_type with
  | ItemType_LFN => let! l := Lfn_from_buf buf in Ok (mkItem item_type None (Some l))
  | _ => let! s := Sfn_from_buf buf in Ok (mkItem item_type (Some s) None)
  end.

(** [fat32/directory_item.rs:449-451] DirectoryItem::is_lfn *)
Definition is_lfn (self : DirectoryItem) : bool := bool_decide (item_type self = ItemType_LFN).
(** [fat32/directory_item.rs:453-455] DirectoryItem::is_deleted *)
Definition is_deleted (self : DirectoryItem) : bool := bool_decide (item_type self = ItemType_Deleted).
(** [fat32/directory_item.rs:457-459] DirectoryItem::is_dir *)
Definition is_dir (self : DirectoryItem) : bool := bool_decide (item_type self = ItemType_Dir).
(** [fat32/directory_item.rs:461-463] DirectoryItem::is_file *)
Definition is_file (self : DirectoryItem) : bool := bool_decide (item_type self = ItemType_File).

(** [str::eq_ignore_ascii_case]. *)
Definition eq_ignore_ascii_case (a b : String) : bool :=
  bool_decide (to_ascii_lowercase <$> a = to_ascii_lowercase <$> b).
(** A name of an item, its bytes and their number, compared with [value]. *)
(** [fat32/directory_item.rs:424-430] DirectoryItem::sfn_equal. The comparison. *)
Definition name_equal (name : option (list Z * Z)) (value : String) : outcome bool :=
  match name with
  | None => Ok false
  | Some (bytes, ln) =>
      let! s := slice bytes 0 ln in
      Ok (match from_utf8 s with Some res => eq_ignore_ascii_case value res | None => false end)
  end.
(** [fat32/directory_item.rs:421-431] DirectoryItem::sfn_equal *)
Definition sfn_equal (self : DirectoryItem) (value : String) : outcome bool :=
  if is_deleted self then Ok false else let! name := get_sfn self in name_equal name value.
(** [fat32/directory_item.rs:433-443] DirectoryItem::lfn_equal *)
Definition lfn_equal (self : DirectoryItem) (value : String) : outcome bool :=
  if is_deleted self then Ok false else let! name := get_lfn self in name_equal name value.
(** [fat32/directory_item.rs:445-447] DirectoryItem::set_file_length *)
Definition set_file_length (self : DirectoryItem) (length : Z) : outcome DirectoryItem :=
  let! s := unwrap (sfn self) in
  Ok (mkItem (item_type self) (Some (mkSfn (sfn_name s) (sfn_extension s) (wrap32 length) (sfn_cluster s))) (lfn self)).

(** ** Items on disk *)
Lemma le32_bytes z : ∃ a b c d, le32 z = [a; b; c; d] ∧ little_endian_to_Z 8 [a; b; c; d] = z mod 2 ^ 32.
Proof.
  do 4 eexists. split; [reflexivity|]. change (little_endian_to_Z 8 (le32 z) = z mod 2 ^ 32).
  unfold le32. by rewrite little_endian_to_Z_to_little_endian by lia.
Qed.
Lemma cluster_bits a b c d :
  Z.lor (Z.lor (Z.lor (Z.shiftl d 24) (Z.shiftl c 16)) (Z.shiftl b 8)) a = little_endian_to_Z 8 [a; b; c; d].
Proof.
  cbn [little_endian_to_Z]. rewrite Z.shiftl_0_l, Z.lor_0_r, !Z.shiftl_lor, !Z.shiftl_shiftl by lia.
  rewrite (Z.lor_comm _ a). f_equal. rewrite (Z.lor_comm _ (Z.shiftl b 8)). f_equal. apply Z.lor_comm.
Qed.
Lemma length_8 {A} (l : list A) : length l = 8%nat →
  ∃ a b c d e f g h, l = [a; b; c; d; e; f; g; h].
Proof. destruct l as [|a [|b [|c [|d [|e [|f [|g [|h [|]]]]]]]]]; try done. intros _. by exists a, b, c, d, e, f, g, h. Qed.
Lemma length_3 {A} (l : list A) : length l = 3%nat → ∃ a b c, l = [a; b; c].
Proof. destruct l as [|a [|b [|c [|]]]]; try done. intros _. by exists a, b, c. Qed.

(** A short item as the code makes it. *)
Record sfn_ok (s : ShortDirectoryItem) : Prop := {
  so_name : length (sfn_name s) = 8%nat;
  so_ext : length (sfn_extension s) = 3%nat;
  so_length : 0 ≤ sfn_length s < 2 ^ 32;
  so_cluster : 0 ≤ sfn_cluster s < 2 ^ 32;
  so_first : sfn_name s !! 0%nat ≠ Some 0xE5;
}.

Lemma length_4 {A} (l : list A) : length l = 4%nat → ∃ a b c d, l = [a; b; c; d].
Proof. do 4 (destruct l as [|? l]; [done|]). destruct l; [|done]. intros _. by repeat eexists. Qed.
Lemma length_9 {A} (l : list A) : length l = 9%nat → ∃ a b c d e f g h i, l = [a; b; c; d; e; f; g; h; i].
Proof. do 9 (destruct l as [|? l]; [done|]). destruct l; [|done]. intros _. by repeat eexists. Qed.

(** The 32 bytes. *)
Definition item_layout (name ext mid mid2 cl ln : list Z) : list Z :=
  name ++ ext ++ mid ++ drop 2 cl ++ mid2 ++ take 2 cl ++ ln.
Lemma Sfn_from_layout name ext mid mid2 ln cl :
  length name = 8%nat → length ext = 3%nat → length mid = 9%nat → length mid2 = 4%nat →
  0 ≤ ln < 2 ^ 32 → 0 ≤ cl < 2 ^ 32 →
  Sfn_from_buf (item_layout name ext mid mid2 (le32 cl) (le32 ln)) = Ok (mkSfn name ext ln cl).
Proof.
  intros Hn He Hm Hm2 Hl Hc.
  destruct (length_8 _ Hn) as (n0 & n1 & n2 & n3 & n4 & n5 & n6 & n7 & ->).
  destruct (length_3 _ He) as (e0 & e1 & e2 & ->).
  destruct (length_9 _ Hm) as (m0 & m1 & m2 & m3 & m4 & m5 & m6 & m7 & m8 & ->).
  destruct (length_4 _ Hm2) as (k0 & k1 & k2 & k3 & ->).
  destruct (le32_bytes ln) as (l0 & l1 & l2 & l3 & -> & Hlv). rewrite Z.mod_small in Hlv by lia.
  destruct (le32_bytes cl) as (c0 & c1 & c2 & c3 & -> & Hcv). rewrite Z.mod_small in Hcv by lia.
  unfold Sfn_from_buf. set (b := item_layout _ _ _ _ _ _).
  change (idx b 0x15) with (Ok c3). change (idx b 0x14) with (Ok c2). change (idx b 0x1B) with (Ok c1).
  change (idx b 0x1A) with (Ok c0). change (slice b 0 8) with (Ok [n0; n1; n2; n3; n4; n5; n6; n7]).
  change (slice b 8 11) with (Ok [e0; e1; e2]). change (slice b 0x1C 0x20) with (Ok [l0; l1; l2; l3]).
  cbn [obind]. unfold read_le_u32. change (slice [l0; l1; l2; l3] 0 4) with (Ok [l0; l1; l2; l3]). cbn [obind].
  by rewrite cluster_bits, Hcv, Hlv.
Qed.
(** The bytes of an item on disk. *)
Definition sfn_layout (name ext : list Z) (attr : Z) (cl ln : list Z) : list Z :=
  item_layout name ext ([attr; 0x18] ++ replicate 7 0) (replicate 4 0) cl ln.
Lemma Sfn_bytes_layout s ty attr :
  sfn_ok s → (ty = ItemType_Dir ∧ attr = 0x10) ∨ (ty = ItemType_File ∧ attr = 0x20) →
  Sfn_bytes s ty = Ok (sfn_layout (sfn_name s) (sfn_extension s) attr (le32 (sfn_cluster s)) (le32 (sfn_length s))).
Proof.
  intros [Hn He _ _ _] Hty. destruct s as [name ext ln cl]. cbn [sfn_name sfn_extension sfn_length sfn_cluster] in *.
  destruct (length_8 _ Hn) as (n0 & n1 & n2 & n3 & n4 & n5 & n6 & n7 & ->).
  destruct (length_3 _ He) as (e0 & e1 & e2 & ->).
  unfold Sfn_bytes, put_cluster. cbn [sfn_name sfn_extension sfn_length sfn_cluster].
  destruct (le32_bytes ln) as (l0 & l1 & l2 & l3 & -> & _). destruct (le32_bytes cl) as (c0 & c1 & c2 & c3 & -> & _).
  by destruct Hty as [[-> ->]|[-> ->]].
Qed.

Lemma sfn_roundtrip s ty :
  sfn_ok s → ty = ItemType_Dir ∨ ty = ItemType_File →
  ∃ b, Item_bytes (mkItem ty (Some s) None) = Ok b ∧ length b = 32%nat ∧
    Item_from_buf b = Ok (mkItem ty (Some s) None).
Proof.
  intros Hs Hty. set (attr := match ty with ItemType_Dir => 0x10 | _ => 0x20 end).
  assert (Ha : (ty = ItemType_Dir ∧ attr = 0x10) ∨ (ty = ItemType_File ∧ attr = 0x20)) by (destruct Hty; subst; tauto).
  exists (sfn_layout (sfn_name s) (sfn_extension s) attr (le32 (sfn_cluster s)) (le32 (sfn_length s))).
  cbn [Item_bytes sfn item_type]. rewrite (Sfn_bytes_layout s ty attr Hs Ha). destruct Hs as [Hn He Hl Hc Hf].
  split_and!; [done| |].
  { unfold sfn_layout, item_layout. rewrite !length_app, Hn, He, length_drop, length_take. reflexivity. }
  unfold Item_from_buf. unfold sfn_layout at 3 4 5. rewrite Sfn_from_layout by done. destruct s as [name ext ln cl]. cbn [sfn_name sfn_extension] in *.
  destruct (length_8 _ Hn) as (n0 & n1 & n2 & n3 & n4 & n5 & n6 & n7 & ->). destruct (length_3 _ He) as (e0 & e1 & e2 & ->).
  change (idx (sfn_layout _ _ _ _ _) 0x00) with (Ok n0). change (idx (sfn_layout _ _ _ _ _) 0x0B) with (Ok attr).
  cbn [obind]. rewrite (proj2 (Z.eqb_neq n0 0xE5)) by (intros ->; by apply Hf). cbn [obind].
  by destruct Ha as [[-> ->]|[-> ->]].
Qed.

(** ** Long names *)
(** The two bytes of a unit. *)
Definition unit_bytes (u : Z) : list Z := [wrap8 (Z.land u 0xFF); wrap8 (Z.shiftr (Z.land u 0xFF00) 8)].
Definition units_bytes (us : list Z) : list Z := concat (unit_bytes <$> us).

Lemma set_idx_app {A} (pre : list A) x post y : set_idx (pre ++ x :: post) (len pre) y = Ok (pre ++ y :: post).
Proof.
  unfold set_idx. rewrite (proj2 (Z.ltb_lt _ _)) by (unfold len; rewrite length_app; simpl; lia).
  unfold len. rewrite Nat2Z.id. f_equal. rewrite insert_app_r_alt by lia. by rewrite Nat.sub_diag.
Qed.
Lemma put_units us : ∀ pre k,
  (2 * length us ≤ k)%nat →
  fold_o put_unit us (pre ++ replicate k 0xFF, len pre) =
    Ok (pre ++ units_bytes us ++ replicate (k - 2 * length us) 0xFF, len pre + 2 * len us).
Proof.
  induction us as [|u us IH]; intros pre k Hk.
  { cbn [fold_o length]. unfold len at 2. cbn. by rewrite Nat.sub_0_r, Z.add_0_r. }
  cbn [length] in Hk. destruct k as [|[|k]]; [lia|lia|]. cbn [fold_o replicate]. unfold put_unit at 1.
  rewrite set_idx_app. cbn [obind]. set (a := wrap8 (Z.land u 0xFF)). set (b := wrap8 _).
  replace (pre ++ a :: 0xFF :: replicate k 0xFF) with ((pre ++ [a]) ++ 0xFF :: replicate k 0xFF) by (by rewrite <- app_assoc).
  replace (len pre + 1) with (len (pre ++ [a])) by (unfold len; rewrite length_app; simpl; lia).
  rewrite set_idx_app. cbn [obind].
  replace ((pre ++ [a]) ++ b :: replicate k 0xFF) with ((pre ++ [a; b]) ++ replicate k 0xFF) by (by rewrite <- !app_assoc).
  replace (len pre + 2) with (len (pre ++ [a; b])) by (unfold len; rewrite length_app; simpl; lia).
  rewrite IH by lia. unfold units_bytes. cbn [fmap list_fmap concat length]. rewrite <- !app_assoc.
  f_equal. f_equal; [|unfold len; rewrite length_app; simpl; lia]. do 2 f_equal. f_equal. f_equal. lia.
Qed.

(** The 13 units of an item: those of the name, an end mark, and filling. *)
Definition padded (us : list Z) : list Z :=
  us ++ (if decide (length us < 13)%nat then 0 :: replicate (12 - length us) 0xFFFF else []).
Lemma length_padded us : (length us ≤ 13)%nat → length (padded us) = 13%nat.
Proof. intros. unfold padded. rewrite length_app. case_decide; cbn [length]; [rewrite length_replicate|]; lia. Qed.
Lemma units_bytes_app us1 us2 : units_bytes (us1 ++ us2) = units_bytes us1 ++ units_bytes us2.
Proof. unfold units_bytes. by rewrite fmap_app, concat_app. Qed.
Lemma units_bytes_fill n : units_bytes (replicate n 0xFFFF) = replicate (2 * n) 0xFF.
Proof. induction n as [|n IH]; [done|]. change (units_bytes (replicate (S n) 0xFFFF)) with (0xFF :: 0xFF :: units_bytes (replicate n 0xFFFF)).
  rewrite IH. by replace (2 * S n)%nat with (S (S (2 * n))) by lia. Qed.
Lemma length_units_bytes us : length (units_bytes us) = (2 * length us)%nat.
Proof. induction us as [|u us IH]; [done|]. unfold units_bytes in *. cbn [fmap list_fmap concat]. rewrite length_app, IH. simpl. lia. Qed.

(** [temp] before the units are moved. *)
Lemma unicode_temp us :
  (length us ≤ 13)%nat →
  (let! '(temp, index) := fold_o put_unit us (replicate 26 0xFF, 0) in
   if negb (index =? 26) then let! temp := set_idx temp index 0 in set_idx temp (index + 1) 0 else Ok temp) =
    Ok (units_bytes (padded us)).
Proof.
  intros Hus. assert (E : fold_o put_unit us (replicate 26 0xFF, 0) =
    Ok (units_bytes us ++ replicate (26 - 2 * length us) 0xFF, 2 * len us)) by (apply (put_units us [] 26); lia).
  rewrite E. cbn [obind]. clear E.
  unfold padded. rewrite units_bytes_app. case_decide as Hlt.
  - rewrite (proj2 (Z.eqb_neq _ _)) by (unfold len; lia). cbn [negb].
    replace (26 - 2 * length us)%nat with (S (S (2 * (12 - length us)))) by lia. cbn [replicate].
    replace (2 * len us) with (len (units_bytes us)) by (unfold len; rewrite length_units_bytes; lia).
    rewrite set_idx_app. cbn [obind].
    set (r := replicate _ 0xFF). replace (units_bytes us ++ 0 :: 0xFF :: r) with ((units_bytes us ++ [0]) ++ 0xFF :: r) by (by rewrite <- app_assoc).
    replace (len (units_bytes us) + 1) with (len (units_bytes us ++ [0])) by (unfold len; rewrite length_app; simpl; lia).
    rewrite set_idx_app, <- app_assoc. do 2 f_equal. change (0 :: replicate (12 - length us) 0xFFFF) with ([0] ++ replicate (12 - length us) 0xFFFF).
    rewrite units_bytes_app, units_bytes_fill. done.
  - rewrite (proj2 (Z.eqb_eq _ _)) by (unfold len; lia). cbn [negb]. replace (26 - 2 * length us)%nat with O by lia. done.
Qed.
Lemma length_13 {A} (l : list A) : length l = 13%nat →
  ∃ a b c d e f g h i j k m n, l = [a; b; c; d; e; f; g; h; i; j; k; m; n].
Proof. do 13 (destruct l as [|? l]; [done|]). destruct l; [|done]. intros _. by repeat eexists. Qed.

Lemma Lfn_new_parts attr cs value :
  let us := encode_utf16 value in
  (length us ≤ 13)%nat →
  Lfn_new attr cs value = Ok (mkLfn attr cs (units_bytes (take 5 (padded us))) (units_bytes (take 6 (drop 5 (padded us))))
    (units_bytes (drop 11 (padded us)))).
Proof.
  intros us Hus. unfold Lfn_new, write_unicode. fold us. pose proof (unicode_temp us Hus) as Ht.
  destruct (fold_o put_unit us _) as [[temp index]|]; [|done]. cbn [obind] in *. rewrite Ht. clear Ht.
  destruct (length_13 (padded us) (length_padded us Hus)) as (a & b & c & d & e & f & g & h & i & j & k & m & n & ->).
  reflexivity.
Qed.

(** Decoding. *)
Lemma unit_bytes_eq u : 0 ≤ u < 0x10000 → unit_bytes u = [u mod 256; u / 256].
Proof.
  intros Hu. unfold unit_bytes, wrap8. change 0xFF with (2 ^ 8 - 1). rewrite land_mask by lia.
  rewrite Z.shiftr_land. change (Z.shiftr 0xFF00 8) with (2 ^ 8 - 1). rewrite land_mask, Z.shiftr_div_pow2 by lia.
  change (2 ^ 8) with 256. rewrite !Z.mod_mod by lia. rewrite (Z.mod_small (u / 256)); [done|].
  split; [apply Z.div_pos; lia|apply Z.div_lt_upper_bound; lia].
Qed.
Lemma unit_value u : 0 ≤ u < 0x10000 → Z.lor (wrap16 (Z.shiftl (u / 256) 8)) (u mod 256) = u.
Proof.
  intros Hu. rewrite Z.shiftl_mul_pow2 by lia. unfold wrap16. pose proof (Z.div_mod u 256 ltac:(lia)).
  pose proof (Z.mod_pos_bound u 256 ltac:(lia)). assert (0 ≤ u / 256) by (apply Z.div_pos; lia).
  rewrite Z.mod_small by lia. rewrite lor_low_high by (try change (2 ^ 8) with 256; lia). lia.
Qed.

(** A low field under a fixed prefix. *)
Lemma prefix_bits p n x : 0 ≤ n → 0 ≤ x < 2 ^ n → Z.lor (p * 2 ^ n) (Z.land (2 ^ n - 1) x) = p * 2 ^ n + x.
Proof. intros Hn Hx. rewrite Z.land_comm, land_mask, Z.mod_small by lia. by apply lor_low_high. Qed.
Lemma cont_byte x : wrap8 (Z.lor 0x80 (Z.land 0x3F x)) = 0x80 + x mod 0x40.
Proof.
  rewrite Z.land_comm. change 0x3F with (2 ^ 6 - 1) at 1. rewrite land_mask by lia. change 0x80 with (2 * 2 ^ 6) at 1.
  pose proof (Z.mod_pos_bound x (2 ^ 6) ltac:(lia)). rewrite lor_low_high by lia. unfold wrap8.
  rewrite Z.mod_small by (change (2 ^ 6) with 64 in *; lia). done.
Qed.
Lemma unit_utf8_char u : 0 ≤ u < 0x10000 → unit_utf8 u = char_bytes u.
Proof.
  intros Hu. unfold unit_utf8, char_bytes. assert (0 ≤ u / 64 ∧ 0 ≤ u / 4096) by (split; apply Z.div_pos; lia).
  destruct (Z.leb_spec u 0x7F); destruct (Z.ltb_spec u 0x80); try lia.
  { unfold wrap8. by rewrite Z.mod_small by lia. }
  assert (Hge : (u >=? 0x80) = true) by (apply Z.geb_le; lia). rewrite Hge. cbn [andb].
  destruct (Z.leb_spec u 0x7FF); destruct (Z.ltb_spec u 0x800); try lia.
  - rewrite cont_byte, Z.shiftr_div_pow2 by lia. change (2 ^ 6) with 64.
    assert (u / 64 < 32) by (apply Z.div_lt_upper_bound; lia).
    change 0xC0 with (6 * 2 ^ 5) at 1. change 0x1F with (2 ^ 5 - 1). rewrite prefix_bits by lia. unfold wrap8.
    by rewrite Z.mod_small by lia.
  - assert (Hge' : (u >=? 0x800) = true) by (apply Z.geb_le; lia). rewrite Hge', (proj2 (Z.ltb_lt u 0x10000)) by lia.
    rewrite !cont_byte, !Z.shiftr_div_pow2 by lia. change (2 ^ 6) with 64. change (2 ^ 12) with 4096.
    assert (u / 4096 < 16) by (apply Z.div_lt_upper_bound; lia).
    change 0xE0 with (7 * 2 ^ 5) at 1. change 0x1F with (2 ^ 5 - 1). rewrite prefix_bits by lia. unfold wrap8.
    by rewrite Z.mod_small by lia.
Qed.

(** Units that do not look like an end mark. *)
Definition plain_unit (u : Z) : Prop := 0 < u < 0x10000 ∧ u mod 256 ≠ 255.

Lemma part_utf8_plain us rest : ∀ pre k,
  Forall plain_unit us → (length (as_bytes us) ≤ k)%nat →
  part_utf8 (units_bytes us ++ rest) (pre ++ replicate k 0, len pre) =
    part_utf8 rest (pre ++ as_bytes us ++ replicate (k - length (as_bytes us)) 0, len pre + len (as_bytes us)).
Proof.
  induction us as [|u us IH]; intros pre k Hus Hk.
  { cbn. by rewrite Nat.sub_0_r, Z.add_0_r. }
  apply Forall_cons in Hus as [[Hu Hff] Hus]. unfold as_bytes in Hk |- *. cbn [fmap list_fmap concat] in *.
  unfold units_bytes. cbn [fmap list_fmap concat]. rewrite unit_bytes_eq by lia.
  cbn [app part_utf8]. rewrite (proj2 (Z.eqb_neq _ _) Hff). pose proof (Z.div_mod u 256 ltac:(lia)).
  assert (Hz : (u mod 256 =? 0) && (u / 256 =? 0) = false).
  { apply andb_false_iff. destruct (Z.eqb_spec (u mod 256) 0); [right; apply Z.eqb_neq; lia|by left]. }
  rewrite Hz. cbn [orb]. rewrite unit_value, unit_utf8_char by lia. unfold put_utf8. cbn [fst snd].
  set (b := char_bytes u) in *. rewrite length_app in Hk.
  assert (E : copy_into (pre ++ replicate k 0) (len pre) (len pre + len b) b = Ok ((pre ++ b) ++ replicate (k - length b) 0)).
  { unfold copy_into. unfold len in *. rewrite length_app, length_replicate.
    rewrite (proj2 (Z.leb_le _ _)), (proj2 (Z.leb_le _ _)), (proj2 (Z.eqb_eq _ _)) by lia. cbn [andb]. f_equal.
    unfold splice. rewrite Nat2Z.id, take_app_length, drop_app_ge, drop_replicate, <- app_assoc by lia. do 3 f_equal. lia. }
  rewrite E. cbn [obind]. replace (len pre + len b) with (len (pre ++ b)) by (unfold len; rewrite length_app; lia).
  change (concat (unit_bytes <$> us)) with (units_bytes us). rewrite IH by (done || unfold as_bytes; lia).
  unfold as_bytes, len. rewrite !length_app. f_equal. f_equal; [|lia]. rewrite <- !app_assoc. do 3 f_equal. f_equal. lia.
Qed.
Lemma part_utf8_end us acc : Forall (λ u, u = 0 ∨ u = 0xFFFF) us → part_utf8 (units_bytes us) acc = Ok acc.
Proof. destruct us as [|u us]; intros Hus; [done|]. apply Forall_cons in Hus as [[-> | ->] _]; done. Qed.

Lemma padded_end (us : list Z) :
  Forall (λ u, u = 0 ∨ u = 0xFFFF) (if decide (length us < 13)%nat then 0 :: replicate (12 - length us) 0xFFFF else []).
Proof. case_decide; [|done]. constructor; [by left|]. apply Forall_replicate. by right. Qed.
Lemma part_utf8_sub us ends pre k :
  Forall plain_unit us → Forall (λ u, u = 0 ∨ u = 0xFFFF) ends → (length (as_bytes us) ≤ k)%nat →
  part_utf8 (units_bytes (us ++ ends)) (pre ++ replicate k 0, len pre) =
    Ok ((pre ++ as_bytes us) ++ replicate (k - length (as_bytes us)) 0, len (pre ++ as_bytes us)).
Proof.
  intros Hus Hends Hk. rewrite units_bytes_app, part_utf8_plain by done. rewrite part_utf8_end by done.
  rewrite <- app_assoc. unfold len. rewrite length_app. by rewrite Nat2Z.inj_add.
Qed.
Lemma as_bytes_app s1 s2 : as_bytes (s1 ++ s2) = as_bytes s1 ++ as_bytes s2.
Proof. unfold as_bytes. by rewrite fmap_app, concat_app. Qed.
Lemma length_char_bytes c : 0 ≤ c < 0x10000 → (length (char_bytes c) ≤ 3)%nat.
Proof. intros. unfold char_bytes. repeat case_match; simpl; lia. Qed.
Lemma length_plain us : Forall plain_unit us → (length (as_bytes us) ≤ 3 * length us)%nat.
Proof.
  induction 1 as [|u us [Hu _] Hus IH]; [done|]. unfold as_bytes in *. cbn [fmap list_fmap concat length]. rewrite length_app.
  pose proof (length_char_bytes u ltac:(lia)). lia.
Qed.

(** The parts of an item for a name of plain units, decoded. *)
Lemma to_utf8_parts attr cs us :
  (length us ≤ 13)%nat → Forall plain_unit us →
  to_utf8 (mkLfn attr cs (units_bytes (take 5 (padded us))) (units_bytes (take 6 (drop 5 (padded us))))
    (units_bytes (drop 11 (padded us)))) =
    Ok (as_bytes us ++ replicate (39 - length (as_bytes us)) 0, len (as_bytes us)).
Proof.
  intros Hlen Hus. unfold to_utf8. cbn [unicode_part1 unicode_part2 unicode_part3].
  pose proof (padded_end us) as He. unfold padded. set (ends := if decide _ then _ else _) in *.
  rewrite take_app, !drop_app, take_app. set (u1 := take 5 us). set (u2 := take 6 (drop 5 us)). set (u3 := drop 11 us).
  assert (Hsplit : us = u1 ++ u2 ++ u3).
  { unfold u1, u2, u3. by rewrite <- (take_drop 5 us) at 1; rewrite <- (take_drop 6 (drop 5 us)) at 1; rewrite drop_drop. }
  assert (Hf : Forall plain_unit u1 ∧ Forall plain_unit u2 ∧ Forall plain_unit u3).
  { rewrite Hsplit, !Forall_app in Hus. tauto. }
  destruct Hf as (Hf1 & Hf2 & Hf3). assert (Hb : (length (as_bytes us) ≤ 39)%nat) by (pose proof (length_plain us Hus); lia).
  assert (Hbs : as_bytes us = as_bytes u1 ++ as_bytes u2 ++ as_bytes u3) by (rewrite Hsplit at 1; by rewrite !as_bytes_app).
  rewrite Hbs, !length_app in Hb.
  assert (E1 : part_utf8 (units_bytes (u1 ++ take (5 - length us) ends)) (replicate 39 0, 0) =
    Ok (as_bytes u1 ++ replicate (39 - length (as_bytes u1)) 0, len (as_bytes u1))).
  { apply (part_utf8_sub u1 _ [] 39); [done|by apply Forall_take|lia]. }
  rewrite E1. cbn [obind]. rewrite part_utf8_sub by (done || (try lia); by apply Forall_take, Forall_drop). cbn [obind].
  rewrite part_utf8_sub by (done || (try lia); by apply Forall_drop). rewrite Hbs, !length_app, <- !app_assoc.
  do 6 f_equal. lia.
Qed.

Lemma utf16_plain us : Forall plain_unit us → encode_utf16 us = us.
Proof.
  induction 1 as [|u us [Hu _] Hus IH]; [done|]. unfold encode_utf16 in *. cbn [fmap list_fmap concat].
  unfold utf16 at 1. rewrite (proj2 (Z.ltb_lt _ _)) by lia. cbn. by f_equal.
Qed.
Lemma length_10 {A} (l : list A) : length l = 10%nat → ∃ a b c d e f g h i j, l = [a; b; c; d; e; f; g; h; i; j].
Proof. do 10 (destruct l as [|? l]; [done|]). destruct l; [|done]. intros _. by repeat eexists. Qed.
Lemma length_12 {A} (l : list A) : length l = 12%nat → ∃ a b c d e f g h i j k m, l = [a; b; c; d; e; f; g; h; i; j; k; m].
Proof. do 12 (destruct l as [|? l]; [done|]). destruct l; [|done]. intros _. by repeat eexists. Qed.

(** A long item written to disk and read back. *)
Lemma lfn_roundtrip l :
  length (unicode_part1 l) = 10%nat → length (unicode_part2 l) = 12%nat → length (unicode_part3 l) = 4%nat →
  attribute l ≠ 0xE5 →
  ∃ b, Lfn_bytes l = Ok b ∧ length b = 32%nat ∧ Item_from_buf b = Ok (mkItem ItemType_LFN None (Some l)).
Proof.
  intros H1 H2 H3 Ha. destruct l as [attr cs p1 p2 p3]. cbn [attribute unicode_part1 unicode_part2 unicode_part3] in *.
  destruct (length_10 _ H1) as (a & b & c & d & e & f & g & h & i & j & ->).
  destruct (length_12 _ H2) as (a' & b' & c' & d' & e' & f' & g' & h' & i' & j' & k' & m' & ->).
  destruct (length_4 _ H3) as (x & y & z & t & ->).
  eexists. split; [reflexivity|]. split; [reflexivity|]. unfold Item_from_buf.
  match goal with |- context [idx ?l 0] => change (idx l 0) with (Ok attr) end. cbn [obind].
  rewrite (proj2 (Z.eqb_neq _ _) Ha). reflexivity.
Qed.
Lemma eq_ignore_ascii_case_refl s : eq_ignore_ascii_case s s = true.
Proof. unfold eq_ignore_ascii_case. by apply bool_decide_eq_true. Qed.
Lemma slice_prefix {A} (l l' : list A) : slice (l ++ l') 0 (len l) = Ok l.
Proof.
  unfold slice, len. rewrite length_app. rewrite (proj2 (Z.leb_le _ _)), (proj2 (Z.leb_le _ _)) by lia. cbn [andb].
  rewrite Z.sub_0_r, Nat2Z.id. change (Z.to_nat 0) with O. by rewrite drop_0, take_app_length.
Qed.

(** *** Short names *)
Lemma as_bytes_ascii s : is_ascii s = true → as_bytes s = s.
Proof.
  unfold is_ascii, as_bytes. induction s as [|c s IH]; [done|]. cbn [forallb fmap list_fmap concat].
  intros [Hc Hs]%andb_true_iff. unfold char_bytes at 1. rewrite Hc. cbn. by rewrite IH.
Qed.
Lemma fold_o_app {A B} (f : B → A → outcome B) l1 l2 b : fold_o f (l1 ++ l2) b = (let! b := fold_o f l1 b in fold_o f l2 b).
Proof. revert b. induction l1 as [|a l1 IH]; intros b; [done|]. cbn. destruct (f b a); [apply IH|done]. Qed.
Lemma push_non_blanks l : ∀ pre k,
  Forall (λ c, c ≠ 0x20) l → (length l ≤ k)%nat →
  fold_o push_non_blank l (pre ++ replicate k 0, len pre) = Ok ((pre ++ l) ++ replicate (k - length l) 0, len (pre ++ l)).
Proof.
  induction l as [|c l IH]; intros pre k Hl Hk.
  { cbn. by rewrite app_nil_r, Nat.sub_0_r. }
  apply Forall_cons in Hl as [Hc Hl]. cbn [length] in Hk. destruct k as [|k]; [lia|]. cbn [fold_o replicate].
  unfold push_non_blank at 1. rewrite (proj2 (Z.eqb_neq _ _) Hc). cbn [negb]. unfold push_name. cbn [fst snd].
  rewrite set_idx_app. cbn [obind]. replace (pre ++ c :: replicate k 0) with ((pre ++ [c]) ++ replicate k 0) by (by rewrite <- app_assoc).
  replace (len pre + 1) with (len (pre ++ [c])) by (unfold len; rewrite length_app; simpl; lia).
  rewrite IH by (done || lia). rewrite <- !app_assoc. cbn. done.
Qed.
Lemma push_blanks n acc : fold_o push_non_blank (replicate n 0x20) acc = Ok acc.
Proof. induction n as [|n IH]; [done|]. cbn. apply IH. Qed.

Definition blank_pad (n : nat) (s : list Z) : list Z := (to_ascii_uppercase <$> s) ++ replicate (n - length s) 0x20.
Lemma upper_not_blank s : Forall (λ c, c ≠ 0x20) s → Forall (λ c, c ≠ 0x20) (to_ascii_uppercase <$> s).
Proof.
  intros Hs. apply Forall_fmap. eapply Forall_impl; [exact Hs|]. intros c Hc. cbn. unfold to_ascii_uppercase.
  destruct (between 97 122 c) eqn:E; [|done]. unfold between in E. apply andb_true_iff in E. lia.
Qed.
Lemma full_name name ext ln cl :
  (length name ≤ 8)%nat → (length ext ≤ 3)%nat → Forall (λ c, c ≠ 0x20) name → Forall (λ c, c ≠ 0x20) ext →
  let full := (to_ascii_uppercase <$> name) ++ match ext with [] => [] | _ => 46 :: (to_ascii_uppercase <$> ext) end in
  get_full_name_bytes (mkSfn (blank_pad 8 name) (blank_pad 3 ext) ln cl) =
    Ok (full ++ replicate (12 - length full) 0, len full).
Proof.
  intros Hn He Fn Fe full. unfold get_full_name_bytes. cbn [sfn_name sfn_extension].
  apply upper_not_blank in Fn, Fe. unfold blank_pad. rewrite !fold_o_app.
  assert (E1 : fold_o push_non_blank (to_ascii_uppercase <$> name) (replicate 12 0, 0) =
    Ok ((to_ascii_uppercase <$> name) ++ replicate (12 - length name) 0, len (to_ascii_uppercase <$> name))).
  { rewrite <- (length_fmap to_ascii_uppercase name). apply (push_non_blanks _ [] 12); [done|]. rewrite length_fmap. lia. }
  rewrite E1. cbn [obind]. rewrite push_blanks. cbn [obind]. destruct ext as [|e ext].
  - cbn [fmap list_fmap app]. cbn [idx replicate length Nat.sub lookup list_lookup Z.to_nat obind Z.eqb negb].
    change (fold_o push_non_blank [0x20; 0x20; 0x20]) with (fold_o push_non_blank (replicate 3 0x20)). cbn.
    unfold full. by rewrite app_nil_r, length_fmap.
  - cbn [fmap list_fmap] in Fe |- *. change (idx (_ ++ _) 0) with (Ok (to_ascii_uppercase e)). cbn [obind].
    assert (He0 : to_ascii_uppercase e ≠ 0x20) by (by apply Forall_cons in Fe as [? _]).
    rewrite (proj2 (Z.eqb_neq _ _) He0). cbn [negb]. unfold push_name. cbn [fst snd].
    replace (12 - length name)%nat with (S (11 - length name)) by lia. cbn [replicate]. rewrite set_idx_app. cbn [obind].
    set (n := to_ascii_uppercase <$> name) in *. set (x := to_ascii_uppercase e :: _) in *.
    replace (n ++ 46 :: replicate (11 - length name) 0) with ((n ++ [46]) ++ replicate (11 - length name) 0) by (by rewrite <- app_assoc).
    replace (len n + 1) with (len (n ++ [46])) by (unfold len; rewrite length_app; simpl; lia).
    rewrite fold_o_app, push_non_blanks; [|done|unfold x; cbn [length] in *; rewrite length_fmap; lia].
    cbn [obind]. rewrite push_blanks. unfold full. fold x. rewrite <- !app_assoc. cbn [app]. do 4 f_equal.
    rewrite length_app. unfold n. rewrite length_fmap. cbn [length].
    change (to_ascii_uppercase <$> e :: ext) with x. do 2 f_equal. lia.
Qed.

(** *** A new short item *)
Lemma Sfn_new_eq cluster value name ext ty :
  split_dot value = (name, ext) → is_ascii name = true → is_ascii ext = true →
  (length name ≤ 8)%nat → (length ext ≤ 3)%nat → 0 ≤ cluster < 2 ^ 32 →
  Sfn_new cluster value ty = Ok (mkSfn (blank_pad 8 name) (blank_pad 3 ext) 0 cluster).
Proof.
  intros Hs Hn He Hln Hle Hc. unfold Sfn_new. rewrite Hs. unfold str_len. rewrite !as_bytes_ascii by done.
  set (m := match ty with OpType_Dir => 0x10 :: replicate 8 0 | OpType_File => replicate 5 0 ++ 0x20 :: replicate 3 0 end).
  transitivity (Sfn_from_buf (item_layout (blank_pad 8 name) (blank_pad 3 ext) m (replicate 4 0) (le32 cluster) (le32 0))).
  2: { apply Sfn_from_layout; [| |by destruct ty|done|done|done];
       unfold blank_pad; rewrite length_app, length_fmap, length_replicate; lia. }
  clear Hs Hn He Hc. unfold put_cluster. destruct (le32_bytes cluster) as (c0 & c1 & c2 & c3 & -> & _).
  do 9 (destruct name as [|? name]; [do 4 (destruct ext as [|? ext]; [by destruct ty|]); cbn in Hle; lia|]). cbn in Hln. lia.
Qed.

Lemma split_dot_app value name ext : split_dot value = (name, ext) → value = name ∧ ext = [] ∨ value = name ++ 46 :: ext.
Proof.
  revert name ext. induction value as [|c value IH]; cbn; intros name ext; [intros [= <- <-]; by left|].
  destruct (Z.eqb_spec c 46) as [->|_]; [intros [= <- <-]; by right|].
  destruct (split_dot value) as [n e]. intros [= <- <-]. destruct (IH n e eq_refl) as [[-> ->]| ->]; [by left|by right].
Qed.
Lemma sfn_name_facts value :
  sfn_or_lfn value = NameType_SFN →
  is_ascii value = true ∧ Forall (λ c, c ≠ 0x20) value ∧
  str_len (split_dot value).1 ≤ 8 ∧ str_len (split_dot value).2 ≤ 3.
Proof.
  unfold sfn_or_lfn. destruct (split_dot value) as [name ext]. destruct (_ && _) eqn:E; [|done]. intros _.
  rewrite !andb_true_iff, !negb_true_iff in E. destruct E as ((((((H1 & _) & H3) & _) & _) & H6) & H7).
  split_and!; [done| |by apply Z.leb_le|by apply Z.leb_le]. apply Forall_forall. intros c Hc ->.
  unfold str_contains in H3. assert (existsb (Z.eqb 32) value = true); [|congruence].
  apply existsb_exists. exists 32. split; [by apply list_elem_of_In|done].
Qed.
Lemma lower_upper c : 0 ≤ c < 0x80 → to_ascii_lowercase (to_ascii_uppercase c) = to_ascii_lowercase c.
Proof.
  intros Hc. unfold to_ascii_lowercase, to_ascii_uppercase, between.
  destruct (Z.leb_spec 97 c), (Z.leb_spec c 122); cbn [andb]; try done.
  destruct (Z.leb_spec 65 (c - 32)), (Z.leb_spec (c - 32) 90), (Z.leb_spec 65 c), (Z.leb_spec c 90); cbn [andb]; lia.
Qed.
Lemma eq_ignore_upper s : Forall (λ c, 0 ≤ c < 0x80) s → eq_ignore_ascii_case s (to_ascii_uppercase <$> s) = true.
Proof.
  intros Hs. apply bool_decide_eq_true. rewrite <- list_fmap_compose. apply list_fmap_ext. intros i c Hc.
  cbn. symmetry. apply lower_upper. by apply (Forall_lookup_1 _ _ i c Hs).
Qed.
Lemma from_utf8_ascii s : Forall (λ c, 0 ≤ c < 0x80) s → from_utf8 s = Some s.
Proof.
  induction 1 as [|c s Hc Hs IH]; [done|]. cbn [from_utf8]. unfold between at 1.
  rewrite (proj2 (Z.leb_le _ _)), (proj2 (Z.leb_le _ _)) by lia. cbn [andb]. by rewrite IH.
Qed.
Lemma upper_ascii s : Forall (λ c, 0 ≤ c < 0x80) s → Forall (λ c, 0 ≤ c < 0x80) (to_ascii_uppercase <$> s).
Proof.
  intros Hs. apply Forall_fmap. eapply Forall_impl; [exact Hs|]. intros c Hc. cbn in *. unfold to_ascii_uppercase, between.
  destruct (Z.leb_spec 97 c); cbn [andb]; [case_match; lia|lia].
Qed.
Lemma ascii_forall s : is_ascii s = true → Forall is_char s → Forall (λ c, 0 ≤ c < 0x80) s.
Proof.
  unfold is_ascii. intros Ha Hc. apply Forall_forall. intros c Hin. rewrite Forall_forall in Hc. specialize (Hc c Hin).
  rewrite forallb_forall in Ha. specialize (Ha c ltac:(by apply list_elem_of_In)). unfold is_char in Hc. lia.
Qed.

(** Evaluates the list a [Forall] is about. *)
Ltac eval_list := match goal with |- Forall _ ?l => let l' := eval vm_compute in l in change l with l' end.

(** Short names: the item made for a short name that does not end in a dot
    is read back from its 32 bytes as it was, with its cluster, and found under
    that name. *)
Theorem short_name_found cluster value ty :
  sfn_or_lfn value = NameType_SFN → Forall is_char value → (∀ s, value ≠ s ++ [46]) → 0 ≤ cluster < 2 ^ 32 →
  ∃ it b, Item_new_sfn cluster value ty = Ok it ∧ Item_bytes it = Ok b ∧ len b = 32 ∧ Item_from_buf b = Ok it ∧
    Item_cluster it = Ok cluster ∧ sfn_equal it value = Ok true.
Proof.
  intros Hsfn Hch Hdot Hc. destruct (sfn_name_facts value Hsfn) as (Ha & Hb & Hn & He).
  assert (Hv := ascii_forall value Ha Hch). destruct (split_dot value) as [name ext] eqn:Es. cbn [fst snd] in *.
  assert (Hval : value = name ++ match ext with [] => [] | _ => 46 :: ext end).
  { destruct (split_dot_app value name ext Es) as [[-> ->]|E]; [by rewrite app_nil_r|].
    destruct ext; [by destruct (Hdot name)|done]. }
  assert (Hne : Forall (λ c, 0 ≤ c < 0x80 ∧ c ≠ 0x20) (name ++ ext)).
  { assert (Hb' := proj2 (Forall_and _ _) (conj Hv Hb)). cbv beta in Hb'. rewrite Hval in Hb'. apply Forall_app in Hb' as [Hb1 Hb2]. apply Forall_app. split; [done|].
    destruct ext; [done|]. by apply Forall_cons in Hb2 as [_ ?]. }
  assert (Hasc : ∀ s, Forall (λ c, 0 ≤ c < 0x80 ∧ c ≠ 0x20) s → is_ascii s = true).
  { intros s Hs. apply forallb_forall. intros c Hin%list_elem_of_In. rewrite Forall_forall in Hs. specialize (Hs c Hin). lia. }
  apply Forall_app in Hne as [Hn1 He1].
  assert (Hasn := Hasc _ Hn1). assert (Hase := Hasc _ He1). unfold str_len in Hn, He. rewrite as_bytes_ascii in Hn, He by done.
  unfold len in Hn, He. set (s := mkSfn (blank_pad 8 name) (blank_pad 3 ext) 0 cluster).
  assert (Hnew : Sfn_new cluster value ty = Ok s) by (apply Sfn_new_eq; (done || lia)).
  assert (Hok : sfn_ok s).
  { split; cbn [sfn_name sfn_extension sfn_length sfn_cluster s]; [| |done|done|];
      [unfold blank_pad; rewrite length_app, length_fmap, length_replicate; lia..|].
    apply Forall_and in Hn1 as [Hn1 _]. apply upper_ascii in Hn1. unfold blank_pad.
    destruct name as [|c name]; [done|]. cbn. intros [= E]. apply Forall_cons in Hn1 as [Hc1 _]. lia. }
  destruct (sfn_roundtrip s (ItemType_from_create ty) Hok) as (b & Hb1 & Hb2 & Hb3); [destruct ty; auto|].
  exists (mkItem (ItemType_from_create ty) (Some s) None), b. unfold Item_new_sfn. rewrite Hnew. cbn [obind].
  split_and!; [done|done|unfold len; lia|done|done|].
  unfold sfn_equal. replace (is_deleted _) with false by (by destruct ty). cbn [get_sfn sfn]. unfold s.
  apply Forall_and in Hn1 as [Hn1 Hn2], He1 as [He1 He2].
  rewrite full_name by (done || lia). cbn [obind name_equal]. rewrite slice_prefix. cbn [obind].
  assert (Hfull : (to_ascii_uppercase <$> name) ++ match ext with [] => [] | _ :: _ => 46 :: (to_ascii_uppercase <$> ext) end
    = to_ascii_uppercase <$> value).
  { rewrite Hval, fmap_app. by destruct ext. }
  rewrite Hfull, from_utf8_ascii by (by apply upper_ascii). by rewrite eq_ignore_upper.
Qed.
Lemma short_name_found_witness :
  ∃ it b, Item_new_sfn 7 (str "init.sh") OpType_File = Ok it ∧ Item_bytes it = Ok b ∧ len b = 32 ∧
    Item_from_buf b = Ok it ∧ Item_cluster it = Ok 7 ∧ sfn_equal it (str "init.sh") = Ok true.
Proof.
  apply (short_name_found 7 (str "init.sh") OpType_File).
  - reflexivity.
  - eval_list. repeat first [apply List.Forall_nil|apply Forall_cons; split; [left; lia|]].
  - intros s E. apply (f_equal last) in E. rewrite last_snoc in E. done.
  - lia.
Defined.

(** C33. Long names: the item made for a part of up to 13 characters of the
    basic plane, none of them zero or with the low byte 255, with any attribute
    but the mark of a deleted item (0xE5), is read back from its 32 bytes as it
    was and decodes to exactly that part. *)
Theorem long_name_roundtrip attr cs value :
  (length value ≤ 13)%nat → Forall plain_unit value → Forall is_char value → attr ≠ 0xE5 →
  ∃ it b, Item_new_lfn attr cs value = Ok it ∧ Item_bytes it = Ok b ∧ len b = 32 ∧ Item_from_buf b = Ok it ∧
    (∃ rest, get_lfn it = Ok (Some (as_bytes value ++ rest, str_len value))) ∧ lfn_equal it value = Ok true.
Proof.
  intros Hlen Hp Hc Ha. unfold Item_new_lfn. assert (Hu := utf16_plain value Hp).
  rewrite Lfn_new_parts by (by rewrite Hu). cbn [obind]. rewrite Hu. set (l := mkLfn _ _ _ _ _).
  assert (Hpad := length_padded value Hlen).
  destruct (lfn_roundtrip l) as (b & Hb1 & Hb2 & Hb3); [cbn; rewrite length_units_bytes..|done|].
  - rewrite length_take. lia.
  - rewrite length_take, length_drop. lia.
  - rewrite length_drop. lia.
  - exists (mkItem ItemType_LFN None (Some l)), b. split_and!; [done|done|unfold len; lia|done| |].
    + exists (replicate (39 - length (as_bytes value)) 0). cbn [get_lfn lfn]. unfold l. by rewrite to_utf8_parts.
    + unfold lfn_equal. cbn [is_deleted item_type get_lfn lfn]. unfold l. rewrite to_utf8_parts by done. cbn [obind name_equal].
      rewrite slice_prefix. cbn [obind]. rewrite from_utf8_as_bytes by done. by rewrite eq_ignore_ascii_case_refl.
Qed.
Lemma long_name_roundtrip_witness :
  ∃ it b, Item_new_lfn 0x41 5 (str "Makefile" ++ [0x4E2D]) = Ok it ∧ Item_bytes it = Ok b ∧ len b = 32 ∧
    Item_from_buf b = Ok it ∧
    (∃ rest, get_lfn it = Ok (Some (as_bytes (str "Makefile" ++ [0x4E2D]) ++ rest, str_len (str "Makefile" ++ [0x4E2D])))) ∧
    lfn_equal it (str "Makefile" ++ [0x4E2D]) = Ok true.
Proof.
  apply (long_name_roundtrip 0x41 5 (str "Makefile" ++ [0x4E2D])).
  - cbn. lia.
  - eval_list. repeat first [apply List.Forall_nil|apply Forall_cons; split; [split; [lia|vm_compute; discriminate]|]].
  - eval_list. repeat first [apply List.Forall_nil|apply Forall_cons; split; [left; lia|]].
  - lia.
Defined.

(** A character of the basic plane whose low byte is 255, such as U+00FF,
    is taken for the end of a long name: a part that starts with it is decoded
    as empty, and the item is not found under the name it was made for. *)
Theorem long_name_cut attr cs c s :
  0 ≤ c < 0x10000 → c mod 256 = 255 → (length s < 5)%nat → Forall plain_unit s →
  ∃ it rest, Item_new_lfn attr cs (c :: s) = Ok it ∧ get_lfn it = Ok (Some (rest, 0)) ∧ lfn_equal it (c :: s) = Ok false.
Proof.
  intros Hc Hff Hlen Hs.
  assert (Hu : encode_utf16 (c :: s) = c :: s).
  { unfold encode_utf16. cbn [fmap list_fmap concat]. change (concat (utf16 <$> s)) with (encode_utf16 s).
    rewrite (utf16_plain s Hs). unfold utf16. by rewrite (proj2 (Z.ltb_lt _ _)) by lia. }
  unfold Item_new_lfn. rewrite Lfn_new_parts by (rewrite Hu; cbn; lia). cbn [obind]. rewrite Hu.
  set (us := padded (c :: s)). set (l := mkLfn _ _ _ _ _). exists (mkItem ItemType_LFN None (Some l)), (replicate 39 0).
  assert (Hto : to_utf8 l = Ok (replicate 39 0, 0)).
  { unfold to_utf8, l. cbn [unicode_part1 unicode_part2 unicode_part3].
    assert (E1 : part_utf8 (units_bytes (take 5 us)) (replicate 39 0, 0) = Ok (replicate 39 0, 0)).
    { unfold us, padded. cbn [app take]. unfold units_bytes. cbn [fmap list_fmap concat]. rewrite unit_bytes_eq by lia.
      cbn [app part_utf8]. rewrite Hff. by rewrite Z.eqb_refl, orb_true_r. }
    pose proof (padded_end (c :: s)) as Hend. unfold us, padded. set (ends := if decide _ then _ else _) in *.
    assert (E2 : drop 5 ((c :: s) ++ ends) = drop (4 - length s) ends) by (rewrite drop_app_ge by (cbn; lia); cbn; f_equal; lia).
    assert (E3 : drop 11 ((c :: s) ++ ends) = drop (10 - length s) ends) by (rewrite drop_app_ge by (cbn; lia); cbn; f_equal; lia).
    unfold us, padded in E1. fold ends in E1. rewrite E1. cbn [obind]. rewrite E2, E3.
    rewrite part_utf8_end by (by apply Forall_take, Forall_drop). cbn [obind]. by rewrite part_utf8_end by (by apply Forall_drop). }
  split_and!; [done|cbn [get_lfn lfn]; by rewrite Hto|].
  unfold lfn_equal. cbn [is_deleted item_type get_lfn lfn]. rewrite Hto. reflexivity.
Qed.
Lemma long_name_cut_witness :
  ∃ it rest, Item_new_lfn 0x41 5 (0xFF :: str "x") = Ok it ∧ get_lfn it = Ok (Some (rest, 0)) ∧
    lfn_equal it (0xFF :: str "x") = Ok false.
Proof.
  apply (long_name_cut 0x41 5 0xFF (str "x")).
  - lia.
  - reflexivity.
  - cbn. lia.
  - eval_list. repeat first [apply List.Forall_nil|apply Forall_cons; split; [split; [lia|vm_compute; discriminate]|]].
Defined.
