(* ===== verification/Fat.v ===== *)
(** * FAT32: the device and the allocation table ([fat32/src/fat.rs], [volume.rs])

    The crate works on any device with the trait [BlockDevice] of the crate
    [block_device]: here a class, with laws for the theorems.  A [FAT] is a
    cursor on a chain of clusters, an iterator the code copies and moves.
    Loops that follow a chain or search the table run on fuel; the theorems
    say how much is enough. *)

From S2P Require Import Prelude Inode FatItem.

(** ** The device *)
(** [read(&self, buf: &mut [u8], address, number_of_blocks)] gives the result
    and the buffer. *)
Class BlockIO (D : Type) : Type := {
  io_error : Type;
  io_read : list Z → Z → Z → M D (Result unit io_error * list Z);
  io_write : list Z → Z → Z → M D (Result unit io_error);
}.

(** What the crate relies on: [bytes] are the contents of the device; whole
    sectors, and the first bytes of the last one, can be read, and whole
    sectors written. *)
Class BlockIOLaws (D : Type) `{BlockIO D} (bytes : D → list Z) (io_ok : D → Prop) : Prop := {
  law_io_read buf address n d :
    io_ok d → address mod BUFFER_SIZE = 0 → 0 ≤ address → address + len buf ≤ len (bytes d) →
    n = get_needed_sector (len buf) →
    ∃ d', io_read buf address n d = Ok ((ok tt, subl (bytes d) address (address + len buf)), d') ∧
      io_ok d' ∧ bytes d' = bytes d;
  law_io_write buf address n d :
    io_ok d → address mod BUFFER_SIZE = 0 → 0 ≤ address → address + len buf ≤ len (bytes d) →
    len buf = n * BUFFER_SIZE →
    ∃ d', io_write buf address n d = Ok (ok tt, d') ∧ io_ok d' ∧
      bytes d' = splice (bytes d) (Z.to_nat address) buf;
}.

Section fat.
Context {D : Type} `{BlockIO D}.

(** [device.read(buf, address, n).unwrap()], and [write]. *)
Definition read_unwrap (buf : list Z) (address n : Z) : M D (list Z) :=
  let* '(res, buf) := io_read buf address n in
  lift (unwrap_r res) ;;
  ret buf.
Definition write_unwrap (buf : list Z) (address n : Z) : M D unit :=
  let* res := io_write buf address n in
  lift (unwrap_r res).

(** ** The cursor *)
(** [fat32/fat.rs:6-16] FAT *)
Record FAT : Type := mkFAT {
  fat_offset : Z;
  start_cluster : Z;
  previous_cluster : Z;
  current_cluster : Z;
  next_cluster : option Z;
  fat_buffer : list Z;
}.
Definition fat_set_buffer (f : FAT) (b : list Z) : FAT :=
  mkFAT (fat_offset f) (start_cluster f) (previous_cluster f) (current_cluster f) (next_cluster f) b.

(** [fat32/fat.rs:21-31] FAT::new *)
Definition FAT_new (cluster fat_offset : Z) : FAT :=
  mkFAT fat_offset cluster 0 0 None (replicate (Z.to_nat BUFFER_SIZE) 0).

(** [fat32/fat.rs:41-46] FAT::blank_cluster. The scan of the block in the
    buffer; the flag is [done]. *)
Fixpoint scan_block (is_ : list Z) (buffer : list Z) (cluster : Z) : outcome (bool * Z) :=
  match is_ with
  | [] => Ok (false, cluster)
  | i :: rest =>
      let! s := slice buffer i (i + 4) in
      let! v := read_le_u32 s in
      if v =? 0 then Ok (true, cluster) else scan_block rest buffer (wrap32 (cluster + 1))
  end.
(** [fat32/fat.rs:37-48] FAT::blank_cluster. The loop over the blocks. *)
Fixpoint blank_loop (fuel : nat) (self : FAT) (block cluster : Z) : M D (Z * FAT) :=
  match fuel with
  | O => throw Fuel
  | S fuel =>
      let* buffer := read_unwrap (fat_buffer self) (fat_offset self +u block *u BUFFER_SIZE) 1 in
      let self := fat_set_buffer self buffer in
      let* '(done, cluster) := lift (scan_block ((λ k, 4 * k) <$> seqZ 0 (BUFFER_SIZE / 4)) buffer cluster) in
      if done : bool then ret (cluster, self) else blank_loop fuel self (block + 1) cluster
  end.
(** [fat32/fat.rs:33-50] FAT::blank_cluster *)
Definition FAT_blank_cluster (fuel : nat) (self : FAT) : M D (Z * FAT) := blank_loop fuel self 0 0.

(** [fat32/fat.rs:52-67] FAT::write *)
Definition FAT_write (self : FAT) (cluster value : Z) : M D FAT :=
  let offset := cluster *u 4 in
  let block_offset := offset / BUFFER_SIZE in
  let offset_left := offset mod BUFFER_SIZE in
  let offset := fat_offset self +u block_offset *u BUFFER_SIZE in
  let* buffer := read_unwrap (fat_buffer self) offset 1 in
  let* buffer := lift (copy_into buffer offset_left (offset_left + 4) (le32 value)) in
  write_unwrap buffer offset 1 ;;
  ret (fat_set_buffer self buffer).

(** [fat32/fat.rs:69-72] FAT::refresh *)
Definition FAT_refresh (self : FAT) (start_cluster : Z) : FAT :=
  mkFAT (fat_offset self) start_cluster (previous_cluster self) 0 (next_cluster self) (fat_buffer self).
(** [fat32/fat.rs:74-79] FAT::previous *)
Definition FAT_previous (self : FAT) : FAT :=
  if negb (current_cluster self =? 0) then
    mkFAT (fat_offset self) (start_cluster self) (previous_cluster self) (previous_cluster self)
      (Some (current_cluster self)) (fat_buffer self)
  else self.
(** [fat32/fat.rs:81-83] FAT::next_is_none *)
Definition FAT_next_is_none (self : FAT) : bool := match next_cluster self with None => true | Some _ => false end.

(** The move to the cluster whose entry is read; nothing at the end. *)
(** [fat32/fat.rs:96-106] FAT::next. The move. *)
Definition FAT_advance (self : FAT) : option FAT :=
  if current_cluster self =? 0 then
    Some (mkFAT (fat_offset self) (start_cluster self) (previous_cluster self) (start_cluster self)
            (next_cluster self) (fat_buffer self))
  else
    match next_cluster self with
    | Some n => Some (mkFAT (fat_offset self) (start_cluster self) (current_cluster self) n (Some n) (fat_buffer self))
    | None => None
    end.
(** The item is a copy of the cursor. *)
(** [fat32/fat.rs:95-129] FAT::next *)
Definition FAT_next (self : FAT) : M D (option FAT * FAT) :=
  match FAT_advance self with
  | None => ret (None, self)
  | Some self =>
      let offset := current_cluster self *u 4 in
      let block_offset := offset / BUFFER_SIZE in
      let offset_left := offset mod BUFFER_SIZE in
      let* buffer := read_unwrap (fat_buffer self) (fat_offset self +u block_offset *u BUFFER_SIZE) 1 in
      let* s := lift (slice buffer offset_left (offset_left + 4)) in
      let* next_cluster := lift (read_le_u32 s) in
      let next_cluster := if next_cluster =? 0x0FFFFFFF then None else Some next_cluster in
      let self := mkFAT (fat_offset self) (start_cluster self) (previous_cluster self) (current_cluster self)
                    next_cluster buffer in
      ret (Some self, self)
  end.

(** [self.map(body).last()]: the items in turn, with the state of the closure;
    the cursor is consumed. *)
Fixpoint FAT_iterate {B} (fuel : nat) (self : FAT) (body : B → FAT → M D B) (b : B) : M D (B * FAT) :=
  match fuel with
  | O => throw Fuel
  | S fuel =>
      let* '(item, self) := FAT_next self in
      match item with
      | None => ret (b, self)
      | Some f => let* b := body b f in FAT_iterate fuel self body b
      end
  end.
End fat.
Arguments FAT : clear implicits.

(** ** The table

    The [n] entries of the table at [off] on a device with contents [bs]. *)
Definition fat_entry (bs : list Z) (off c : Z) : Z := little_endian_to_Z 8 (subl bs (off + 4 * c) (off + 4 * c + 4)).
Record fat_area (bs : list Z) (off n : Z) : Prop := {
  fa_off : 0 ≤ off;
  fa_aligned : off mod BUFFER_SIZE = 0;
  fa_sectors : n mod 128 = 0;
  fa_inside : off + 4 * n ≤ len bs;
  fa_small : len bs < 2 ^ 63;
  fa_entries : 0 ≤ n ≤ 0x0FFFFFF0;
}.

(** A cluster's entry lies in one sector of the table. *)
Lemma fat_sector bs off n c :
  fat_area bs off n → 0 ≤ c < n →
  let a := off + 4 * c / 512 * 512 in
  c *u 4 = 4 * c ∧ off +u 4 * c / 512 *u 512 = a ∧ 0 ≤ a ∧ a mod 512 = 0 ∧ a + 512 ≤ len bs ∧
  a + 4 * c mod 512 = off + 4 * c ∧ 0 ≤ 4 * c mod 512 ≤ 508.
Proof.
  intros [Ho Ha Hs Hi Hsm He] Hc a. unfold BUFFER_SIZE in Ha.
  assert (Hq : 4 * c = 512 * (c / 128) + 4 * (c mod 128)) by (pose proof (Z.div_mod c 128 ltac:(lia)); lia).
  pose proof (Z.mod_pos_bound c 128 ltac:(lia)).
  assert (Hd : 4 * c / 512 = c / 128) by (symmetry; apply (Z.div_unique _ _ _ (4 * (c mod 128))); lia).
  assert (Hm : 4 * c mod 512 = 4 * (c mod 128)) by (symmetry; apply (Z.mod_unique _ _ (c / 128)); lia).
  assert (Hle : c / 128 * 128 + 128 ≤ n).
  { pose proof (Z.div_mod n 128 ltac:(lia)). assert (c / 128 < n / 128) by (apply Z.div_lt_upper_bound; lia). lia. }
  assert (0 ≤ c / 128) by (apply Z.div_pos; lia).
  assert (Ea : a = off + c / 128 * 512) by (unfold a; by rewrite Hd).
  rewrite Hm, !uadd_small, !umul_small by (rewrite ?Hd, ?umul_small; lia). rewrite Hd, Ea.
  split_and!; try lia. rewrite Z.mod_add by lia. done.
Qed.

Section laws.
Context {D : Type} `{BlockIO D} (bytes : D → list Z) (io_ok : D → Prop) {HL : BlockIOLaws D bytes io_ok}.

Lemma read_sector_run buf address d :
  io_ok d → len buf = 512 → address mod 512 = 0 → 0 ≤ address → address + 512 ≤ len (bytes d) →
  ∃ d', read_unwrap buf address 1 d = Ok (subl (bytes d) address (address + 512), d') ∧ io_ok d' ∧ bytes d' = bytes d.
Proof.
  intros Hd Hb Ha H0 Hl. destruct (law_io_read buf address 1 d) as (d' & Hr & Hok & Hbs); try (done || lia).
  { rewrite Hb. done. }
  exists d'. unfold read_unwrap. rewrite (bind_run _ _ _ _ _ Hr), Hb. done.
Qed.
Lemma write_sectors_run buf address n d :
  io_ok d → len buf = n * 512 → address mod 512 = 0 → 0 ≤ address → address + len buf ≤ len (bytes d) →
  ∃ d', write_unwrap buf address n d = Ok (tt, d') ∧ io_ok d' ∧ bytes d' = splice (bytes d) (Z.to_nat address) buf.
Proof.
  intros Hd Hb Ha H0 Hl. destruct (law_io_write buf address n d) as (d' & Hr & Hok & Hbs); try (done || lia).
  exists d'. unfold write_unwrap. by rewrite (bind_run _ _ _ _ _ Hr).
Qed.
(** A part of a sector. *)
Lemma slice_subl {A} (l : list A) a k n :
  0 ≤ a → 0 ≤ k → k + n ≤ 512 → 0 ≤ n → a + 512 ≤ len l →
  slice (subl l a (a + 512)) k (k + n) = Ok (subl l (a + k) (a + k + n)).
Proof.
  intros Ha Hk Hkn Hn Hl. apply slice_Ok. rewrite len_subl by lia. split; [lia|].
  change (subl l (a + k) (a + k + n) = subl (subl l a (a + 512)) k (k + n)). rewrite subl_subl by lia. f_equal. lia.
Qed.
Lemma entry_read bs off n c :
  fat_area bs off n → 0 ≤ c < n → read_le_u32 (subl bs (off + 4 * c) (off + 4 * c + 4)) = Ok (fat_entry bs off c).
Proof.
  intros [Ho Ha Hs Hi Hsm He] Hc. unfold read_le_u32, fat_entry.
  assert (Hs4 : slice (subl bs (off + 4 * c) (off + 4 * c + 4)) 0 4 = Ok (subl bs (off + 4 * c) (off + 4 * c + 4))).
  { apply slice_Ok. rewrite len_subl by lia. split; [lia|].
    change (subl bs (off + 4 * c) (off + 4 * c + 4) = subl (subl bs (off + 4 * c) (off + 4 * c + 4)) 0 4).
    rewrite subl_subl by lia. f_equal; lia. }
  by rewrite Hs4.
Qed.

(** The cursor on cluster [c] after its entry was read. *)
Definition fat_at (f : FAT) (bs : list Z) (off c : Z) : Prop :=
  fat_offset f = off ∧ current_cluster f = c ∧ len (fat_buffer f) = 512 ∧
  next_cluster f = (if fat_entry bs off c =? 0x0FFFFFFF then None else Some (fat_entry bs off c)).

Lemma FAT_next_run f f1 off n d :
  io_ok d → fat_area (bytes d) off n → FAT_advance f = Some f1 → fat_offset f = off → len (fat_buffer f) = 512 →
  0 ≤ current_cluster f1 < n →
  ∃ f2 d', FAT_next f d = Ok ((Some f2, f2), d') ∧ io_ok d' ∧ bytes d' = bytes d ∧
    fat_at f2 (bytes d) off (current_cluster f1) ∧ start_cluster f2 = start_cluster f.
Proof.
  intros Hd Har Hadv Hoff Hbuf Hc. unfold FAT_next. rewrite Hadv.
  assert (Ho1 : fat_offset f1 = off ∧ fat_buffer f1 = fat_buffer f ∧ start_cluster f1 = start_cluster f).
  { unfold FAT_advance in Hadv. repeat case_match; simplify_eq; done. }
  destruct Ho1 as (Ho1 & Hb1 & Hst). destruct (fat_sector _ _ _ _ Har Hc) as (E1 & E2 & Ha0 & Ham & Hal & Hsum & Hk).
  unfold BUFFER_SIZE. rewrite E1, Ho1, E2, Hb1. set (a := off + _) in *.
  destruct (read_sector_run (fat_buffer f) a d) as (d' & Hr & Hok & Hbs); try done.
  rewrite (bind_run _ _ _ _ _ Hr). unfold lift, bind. rewrite slice_subl by lia. rewrite Hsum.
  rewrite (entry_read _ _ _ _ Har Hc). eexists _, d'. split; [reflexivity|]. split_and!; try done.
  unfold fat_at. cbn. split_and!; try done. rewrite len_subl by lia. lia.
Qed.

(** *** Following a chain *)
(** The clusters [c :: rest] are a chain. *)
Fixpoint fat_chain (bs : list Z) (off n c : Z) (rest : list Z) : Prop :=
  0 < c < n ∧ match rest with
              | [] => fat_entry bs off c = 0x0FFFFFFF
              | c' :: rest => fat_entry bs off c = c' ∧ fat_chain bs off n c' rest
              end.
Lemma fat_chain_head bs off n c rest : fat_chain bs off n c rest → 0 < c < n.
Proof. by destruct rest; intros [? _]. Qed.
Lemma fat_chain_next bs off n c rest :
  n ≤ 0x0FFFFFF0 → fat_chain bs off n c rest →
  (if fat_entry bs off c =? 0x0FFFFFFF then None else Some (fat_entry bs off c)) = head rest.
Proof.
  intros Hn. destruct rest as [|c' rest]; intros [Hc H']; cbn [head].
  - by rewrite H', Z.eqb_refl.
  - destruct H' as [-> H']. apply fat_chain_head in H'. by rewrite (proj2 (Z.eqb_neq _ _)) by lia.
Qed.

(** A loop over a chain: [J rest b d] before the clusters [rest], with the
    loop's variables [b] on the device [d]; it says that [rest] is a chain. *)
Section iterate.
Context {B : Type} (off n : Z) (body : B → FAT → M D B) (J : list Z → B → D → Prop).
Context (J_area : ∀ cs b d, J cs b d → io_ok d ∧ fat_area (bytes d) off n).
Context (J_chain : ∀ c rest b d, J (c :: rest) b d → fat_chain (bytes d) off n c rest).
Context (J_body : ∀ c rest b d f, J (c :: rest) b d → current_cluster f = c → fat_offset f = off → len (fat_buffer f) = 512 →
  ∃ b' d', body b f d = Ok (b', d') ∧ J rest b' d').
Context (J_dev : ∀ cs b d d', J cs b d → bytes d' = bytes d → io_ok d' → J cs b d').

Lemma iterate_step c rest b d f f1 fuel :
  J (c :: rest) b d → FAT_advance f = Some f1 → current_cluster f1 = c → fat_offset f = off → len (fat_buffer f) = 512 →
  ∃ b' f2 d', FAT_iterate (S fuel) f body b d = FAT_iterate fuel f2 body b' d' ∧ J rest b' d' ∧
    fat_offset f2 = off ∧ len (fat_buffer f2) = 512 ∧ current_cluster f2 = c ∧ next_cluster f2 = head rest.
Proof.
  intros HJ Hadv Hcur Hoff Hbuf. destruct (J_area _ _ _ HJ) as [Hd Har]. assert (Hch := J_chain _ _ _ _ HJ).
  assert (Hc := fat_chain_head _ _ _ _ _ Hch).
  destruct (FAT_next_run f f1 off n d) as (f2 & d1 & Hr & Hok & Hbs & (Ho & Hcu & Hbf & Hnx) & _); try done; [lia|].
  destruct (J_body c rest b d1 f2) as (b' & d2 & Hb & HJ'); [by apply (J_dev _ _ d)|congruence|done|done|].
  exists b', f2, d2. split_and!; try done; [|congruence|].
  - cbn [FAT_iterate]. rewrite (bind_run _ _ _ _ _ Hr), (bind_run _ _ _ _ _ Hb). done.
  - rewrite Hnx, Hcur. apply (fat_chain_next _ _ n); [apply (fa_entries _ _ _ Har)|done].
Qed.
Lemma iterate_rest : ∀ rest b d f fuel,
  J rest b d → next_cluster f = head rest → current_cluster f ≠ 0 → fat_offset f = off → len (fat_buffer f) = 512 →
  (length rest < fuel)%nat →
  ∃ b' f' d', FAT_iterate fuel f body b d = Ok ((b', f'), d') ∧ J [] b' d' ∧ fat_offset f' = off ∧
    len (fat_buffer f') = 512 ∧ current_cluster f' = default (current_cluster f) (last rest).
Proof.
  induction rest as [|c rest IH]; intros b d f fuel HJ Hnx Hcur Hoff Hbuf Hfuel; (destruct fuel as [|fuel]; [cbn in Hfuel; lia|]).
  - exists b, f, d. split_and!; try done. cbn [FAT_iterate]. unfold FAT_next, FAT_advance.
    rewrite (proj2 (Z.eqb_neq _ _) Hcur), Hnx. done.
  - set (f1 := mkFAT (fat_offset f) (start_cluster f) (current_cluster f) c (Some c) (fat_buffer f)).
    assert (Hadv : FAT_advance f = Some f1).
    { unfold FAT_advance. rewrite (proj2 (Z.eqb_neq _ _) Hcur), Hnx. done. }
    destruct (iterate_step c rest b d f f1 fuel HJ Hadv) as (b' & f2 & d' & -> & HJ' & Ho & Hb & Hcu & Hn); try done.
    assert (Hc := fat_chain_head _ _ _ _ _ (J_chain _ _ _ _ HJ)).
    destruct (IH b' d' f2 fuel) as (b2 & f3 & d2 & Hrun & HJ2 & Ho3 & Hb3 & Hcu3); try done; [lia|cbn in Hfuel; lia|].
    exists b2, f3, d2. split_and!; try done. rewrite Hcu3, Hcu, last_cons. by destruct (last rest).
Qed.
Lemma iterate_chain c rest b d f fuel :
  J (c :: rest) b d → current_cluster f = 0 → start_cluster f = c → fat_offset f = off → len (fat_buffer f) = 512 →
  (S (length rest) < fuel)%nat →
  ∃ b' f' d', FAT_iterate fuel f body b d = Ok ((b', f'), d') ∧ J [] b' d' ∧ fat_offset f' = off ∧
    len (fat_buffer f') = 512 ∧ current_cluster f' = default c (last rest).
Proof.
  intros HJ Hcur Hst Hoff Hbuf Hfuel. destruct fuel as [|fuel]; [lia|].
  set (f1 := mkFAT (fat_offset f) (start_cluster f) (previous_cluster f) (start_cluster f) (next_cluster f) (fat_buffer f)).
  assert (Hadv : FAT_advance f = Some f1) by (unfold FAT_advance; by rewrite Hcur).
  destruct (iterate_step c rest b d f f1 fuel HJ Hadv) as (b' & f2 & d' & -> & HJ' & Ho & Hb & Hcu & Hn); try done.
  assert (Hc := fat_chain_head _ _ _ _ _ (J_chain _ _ _ _ HJ)).
  destruct (iterate_rest rest b' d' f2 fuel) as (b2 & f3 & d2 & Hrun & HJ2 & Ho3 & Hb3 & Hcu3); try done; [lia|lia|].
  exists b2, f3, d2. by rewrite Hcu3, Hcu.
Qed.
End iterate.

(** *** Entries written, and free ones found *)
Lemma FAT_write_run f off n c v d :
  io_ok d → fat_area (bytes d) off n → fat_offset f = off → len (fat_buffer f) = 512 → 0 ≤ c < n →
  ∃ f' d', FAT_write f c v d = Ok (f', d') ∧ io_ok d' ∧
    bytes d' = splice (bytes d) (Z.to_nat (off + 4 * c)) (le32 v) ∧ f' = fat_set_buffer f (fat_buffer f') ∧
    len (fat_buffer f') = 512.
Proof.
  intros Hd Har Hoff Hbuf Hc. destruct (fat_sector _ _ _ _ Har Hc) as (E1 & E2 & Ha0 & Ham & Hal & Hsum & Hk).
  unfold FAT_write, BUFFER_SIZE. cbv zeta. rewrite E1, Hoff, E2. set (a := off + _) in *.
  destruct (read_sector_run (fat_buffer f) a d) as (d1 & Hr & Hok & Hbs); try done.
  rewrite (bind_run _ _ _ _ _ Hr). set (k := 4 * c mod 512) in *. set (sec := subl (bytes d) a (a + 512)).
  assert (Hlsec : len sec = 512) by (unfold sec; rewrite len_subl; lia).
  assert (Hl4 : length (le32 v) = 4%nat) by (destruct (le32_bytes v) as (? & ? & ? & ? & -> & _); done).
  assert (Hcp : copy_into sec k (k + 4) (le32 v) = Ok (splice sec (Z.to_nat k) (le32 v))).
  { apply copy_into_Ok. split_and!; [lia|lia|unfold len; lia|done]. }
  rewrite (bind_run _ _ d1 _ d1) by (unfold lift; by rewrite Hcp).
  assert (Hlnew : len (splice sec (Z.to_nat k) (le32 v)) = 512) by (unfold len in *; rewrite length_splice; lia).
  destruct (write_sectors_run (splice sec (Z.to_nat k) (le32 v)) a 1 d1) as (d2 & Hw & Hok2 & Hbs2); try done; [rewrite Hlnew, Hbs; lia|].
  rewrite (bind_run _ _ _ _ _ Hw). eexists _, d2. split; [reflexivity|]. split_and!; try done.
  rewrite Hbs2, Hbs. unfold sec. rewrite splice_block by lia. f_equal. lia.
Qed.

(** [z] is the first free entry. *)
Record first_free (bs : list Z) (off n z : Z) : Prop := {
  ff_range : 0 ≤ z < n;
  ff_free : fat_entry bs off z = 0;
  ff_used i : 0 ≤ i < z → fat_entry bs off i ≠ 0;
}.
Lemma scan_block_run bs off n z b m : ∀ j,
  fat_area bs off n → first_free bs off n z → 0 ≤ b → 0 ≤ j → j + Z.of_nat m = 128 → 128 * b + j ≤ z → 128 * b + 128 ≤ n →
  scan_block ((λ k, 4 * k) <$> seqZ j (Z.of_nat m)) (subl bs (off + b * 512) (off + b * 512 + 512)) (128 * b + j) =
    Ok (if z <? 128 * b + 128 then (true, z) else (false, 128 * b + 128)).
Proof.
  induction m as [|m IH]; intros j Har Hz Hb Hj Hm Hle Hn.
  { replace j with 128 in * by lia. rewrite (proj2 (Z.ltb_ge _ _)) by lia. done. }
  pose proof Har as [Ho Ha Hs Hi Hsm He].
  rewrite seqZ_cons by lia. cbn [fmap list_fmap scan_block]. rewrite slice_subl by lia.
  replace (off + b * 512 + 4 * j) with (off + 4 * (128 * b + j)) by lia. cbn [obind].
  rewrite (entry_read bs off n) by (done || lia). cbn [obind]. destruct (decide (128 * b + j = z)) as [Hbj|Hne].
  - rewrite Hbj, (ff_free _ _ _ _ Hz). cbn [Z.eqb]. by rewrite (proj2 (Z.ltb_lt _ _)) by lia.
  - rewrite (proj2 (Z.eqb_neq _ _)) by (apply (ff_used _ _ _ _ Hz); lia).
    replace (wrap32 (128 * b + j + 1)) with (128 * b + Z.succ j) by (unfold wrap32; rewrite Z.mod_small by lia; lia).
    replace (Z.pred (Z.of_nat (S m))) with (Z.of_nat m) by lia. apply IH; (done || lia).
Qed.
Lemma blank_loop_run off n z fuel : ∀ f b d,
  io_ok d → fat_area (bytes d) off n → first_free (bytes d) off n z → fat_offset f = off → len (fat_buffer f) = 512 →
  0 ≤ b → 128 * b ≤ z → (Z.to_nat (z / 128 - b) < fuel)%nat →
  ∃ f' d', blank_loop fuel f b (128 * b) d = Ok ((z, f'), d') ∧ io_ok d' ∧ bytes d' = bytes d ∧
    f' = fat_set_buffer f (fat_buffer f') ∧ len (fat_buffer f') = 512.
Proof.
  induction fuel as [|fuel IH]; intros f b d Hd Har Hz Hoff Hbuf Hb Hle Hfuel; [lia|].
  assert (Hn : 128 * b + 128 ≤ n).
  { destruct Har as [_ _ Hs _ _ _], Hz as [Hr _ _]. pose proof (Z.div_mod n 128 ltac:(lia)).
    assert (b < n / 128) by (apply (Z.le_lt_trans _ (z / 128)); [apply Z.div_le_lower_bound; lia|apply Z.div_lt_upper_bound; lia]). lia. }
  assert (Hb4 : 0 ≤ 128 * b < n) by lia. destruct (fat_sector _ _ _ _ Har Hb4) as (_ & E2 & Ha0 & Ham & Hal & _).
  assert (Hdv : 4 * (128 * b) / 512 = b) by (replace (4 * (128 * b)) with (b * 512) by lia; apply Z.div_mul; lia).
  rewrite Hdv in *.
  cbn [blank_loop]. unfold BUFFER_SIZE. rewrite Hoff, E2.
  destruct (read_sector_run (fat_buffer f) (off + b * 512) d) as (d1 & Hr & Hok & Hbs); try done.
  rewrite (bind_run _ _ _ _ _ Hr). set (sec := subl (bytes d) (off + b * 512) (off + b * 512 + 512)).
  assert (Hlsec : len sec = 512) by (unfold sec; rewrite len_subl; lia).
  assert (Hsc := scan_block_run (bytes d) off n z b 128 0 Har Hz Hb ltac:(lia) ltac:(lia) ltac:(lia) Hn).
  rewrite Z.add_0_r in Hsc. change (512 / 4) with (Z.of_nat 128).
  rewrite (bind_run _ _ d1 _ d1) by (unfold lift; fold sec in Hsc; by rewrite Hsc).
  destruct (Z.ltb_spec z (128 * b + 128)).
  - eexists _, d1. split; [reflexivity|]. split_and!; done.
  - assert (Hq : b < z / 128) by (apply Z.lt_le_trans with (b + 1); [lia|apply Z.div_le_lower_bound; lia]).
    destruct (IH (fat_set_buffer f sec) (b + 1) d1) as (f' & d2 & Hrun & Hok2 & Hbs2 & Hf & Hl); try (done || lia || congruence).
    exists f', d2. replace (128 * b + 128) with (128 * (b + 1)) by lia. rewrite Hrun. split_and!; try done; congruence.
Qed.
Lemma blank_cluster_run off n z fuel f d :
  io_ok d → fat_area (bytes d) off n → first_free (bytes d) off n z → fat_offset f = off → len (fat_buffer f) = 512 →
  z / 128 < Z.of_nat fuel →
  ∃ f' d', FAT_blank_cluster fuel f d = Ok ((z, f'), d') ∧ io_ok d' ∧ bytes d' = bytes d ∧
    f' = fat_set_buffer f (fat_buffer f') ∧ len (fat_buffer f') = 512.
Proof.
  intros Hd Har Hz Hoff Hbuf Hf. pose proof (ff_range _ _ _ _ Hz). assert (0 ≤ z / 128) by (apply Z.div_pos; lia).
  apply (blank_loop_run off n z fuel f 0 d); (done || lia).
Qed.

(** An entry after a write. *)
Lemma fat_entry_splice bs off n c v c' :
  fat_area bs off n → 0 ≤ c < n → 0 ≤ c' < n → 0 ≤ v < 2 ^ 32 →
  fat_entry (splice bs (Z.to_nat (off + 4 * c)) (le32 v)) off c' = if decide (c' = c) then v else fat_entry bs off c'.
Proof.
  intros [Ho Ha Hs Hi Hsm He] Hc Hc' Hv. unfold fat_entry.
  assert (Hl4 : length (le32 v) = 4%nat) by (destruct (le32_bytes v) as (? & ? & ? & ? & -> & _); done).
  unfold len in Hi. case_decide as E.
  - subst c'. rewrite subl_splice_in by lia. rewrite Z2Nat.id by lia.
    replace (off + 4 * c - (off + 4 * c)) with 0 by lia. replace (off + 4 * c + 4 - (off + 4 * c)) with 4 by lia.
    destruct (le32_bytes v) as (a1 & a2 & a3 & a4 & -> & E). change (subl [a1; a2; a3; a4] 0 4) with [a1; a2; a3; a4].
    rewrite E. apply Z.mod_small. lia.
  - f_equal. apply list_eq. intros i. rewrite !lookup_subl, lookup_splice by lia. repeat case_decide; try done; lia.
Qed.
End laws.

(** ** A device held in memory *)
#[export] Instance FlatDisk : BlockIO (list Z) :=
  {| io_error := unit;
     io_read buf address n := λ d,
       if address + len buf <=? len d then Ok ((ok tt, subl d address (address + len buf)), d) else Ok ((err tt, buf), d);
     io_write buf address n := λ d,
       if address + len buf <=? len d then Ok (ok tt, splice d (Z.to_nat address) buf) else Ok (err tt, d) |}.
#[export] Instance FlatDisk_laws : BlockIOLaws (list Z) id (λ _, True).
Proof.
  split; unfold id; intros buf address n d _ _ H0 Hl _; cbn; rewrite (proj2 (Z.leb_le _ _)) by lia; by eexists.
Qed.

(** ** Properties *)

(** C36. Following a chain ends after its last cluster and visits exactly its
    clusters, in order; the device is only read. *)
Theorem FAT_iterate_visits {D} `{BlockIO D} bytes io_ok {HL : BlockIOLaws D bytes io_ok} d off n c rest fuel :
  io_ok d → fat_area (bytes d) off n → fat_chain (bytes d) off n c rest → (S (length rest) < fuel)%nat →
  ∃ f' d', FAT_iterate fuel (FAT_new c off) (λ l f, ret (l ++ [current_cluster f])) [] d = Ok ((c :: rest, f'), d') ∧
    io_ok d' ∧ bytes d' = bytes d.
Proof.
  intros Hd Har Hch Hf.
  destruct (iterate_chain bytes io_ok off n (λ l f, ret (l ++ [current_cluster f]))
    (λ cs l d', l ++ cs = c :: rest ∧ io_ok d' ∧ bytes d' = bytes d ∧
       match cs with [] => True | c' :: r => fat_chain (bytes d) off n c' r end)
    ltac:(by intros cs l d' (_ & ? & -> & _)) ltac:(by intros c' r l d' (_ & _ & -> & ?))
    ) with (c := c) (rest := rest) (b := @nil Z) (d := d) (f := FAT_new c off) (fuel := fuel)
    as (l & f' & d' & Hrun & (Hl & Hok & Hbs & _) & _); try done.
  - intros c' r l d' f (Hl & Hok & Hbs & Hch') Hcur _ _. exists (l ++ [c']), d'. rewrite Hcur. split; [done|].
    rewrite <- app_assoc. split_and!; try done. destruct r as [|c2 r]; [done|]. by destruct Hch' as (_ & _ & ?).
  - intros cs l d1 d2 (? & ? & ? & ?) E ?. split_and!; try done. congruence.
  - exists f', d'. rewrite app_nil_r in Hl. by subst l.
Qed.
(** A table of one sector: the clusters 5, 2 and 9 are a chain. *)
Definition witness_table : list Z :=
  concat (le32 <$> ([0x0FFFFFF8; 0x0FFFFFFF; 9; 0x0FFFFFFF; 0; 2; 0x0FFFFFFF; 0x0FFFFFFF; 0x0FFFFFFF; 0x0FFFFFFF] ++ replicate 118 0)).
Lemma witness_area : fat_area witness_table 0 128.
Proof. split; try done; vm_compute; congruence. Qed.
Lemma FAT_iterate_visits_witness :
  ∃ f' d', FAT_iterate 5 (FAT_new 5 0) (λ l f, ret (l ++ [current_cluster f])) [] witness_table = Ok (([5; 2; 9], f'), d') ∧
    True ∧ d' = witness_table.
Proof.
  apply (FAT_iterate_visits id (λ _, True) witness_table 0 128 5 [2; 9] 5).
  - exact Logic.I.
  - exact witness_area.
  - vm_compute. repeat split; congruence.
  - cbn. lia.
Defined.

(** C26. Allocation: the search finds the first free cluster, given that there
    is one; marking it as the end of a chain makes it a chain of its own and
    changes no other entry and nothing else on the device. *)
Theorem FAT_allocates {D} `{BlockIO D} bytes io_ok {HL : BlockIOLaws D bytes io_ok} d off n z f fuel :
  io_ok d → fat_area (bytes d) off n → first_free (bytes d) off n z → 0 < z →
  fat_offset f = off → len (fat_buffer f) = 512 → z / 128 < Z.of_nat fuel →
  ∃ f1 d1 f2 d2, FAT_blank_cluster fuel f d = Ok ((z, f1), d1) ∧ bytes d1 = bytes d ∧
    FAT_write f1 z 0x0FFFFFFF d1 = Ok (f2, d2) ∧ io_ok d2 ∧
    bytes d2 = splice (bytes d) (Z.to_nat (off + 4 * z)) [0xFF; 0xFF; 0xFF; 0x0F] ∧
    fat_chain (bytes d2) off n z [] ∧
    ∀ c, 0 ≤ c < n → c ≠ z → fat_entry (bytes d2) off c = fat_entry (bytes d) off c.
Proof.
  intros Hd Har Hz Hpos Hoff Hbuf Hf.
  destruct (blank_cluster_run bytes io_ok off n z fuel f d) as (f1 & d1 & Hb & Hok & Hbs & Hf1 & Hl1); try done.
  assert (Ho1 : fat_offset f1 = off) by (by rewrite Hf1). rewrite <- Hbs in Har. assert (Hr := ff_range _ _ _ _ Hz).
  destruct (FAT_write_run bytes io_ok f1 off n z 0x0FFFFFFF d1) as (f2 & d2 & Hw & Hok2 & Hbs2 & _ & _); try done.
  assert (He : ∀ c, 0 ≤ c < n → fat_entry (bytes d2) off c = if decide (c = z) then 0x0FFFFFFF else fat_entry (bytes d) off c).
  { intros c Hc. rewrite Hbs2, (fat_entry_splice _ _ n) by (done || lia). by rewrite Hbs. }
  exists f1, d1, f2, d2. do 4 (split; [done|]). split; [by rewrite Hbs2, Hbs|]. split.
  - split; [lia|]. rewrite He by lia. by rewrite decide_True.
  - intros c Hc Hne. rewrite He by lia. by rewrite decide_False.
Qed.
Lemma FAT_allocates_witness :
  ∃ f1 d1 f2 d2, FAT_blank_cluster 1 (FAT_new 0 0) witness_table = Ok ((4, f1), d1) ∧ d1 = witness_table ∧
    FAT_write f1 4 0x0FFFFFFF d1 = Ok (f2, d2) ∧ True ∧
    d2 = splice witness_table (Z.to_nat (0 + 4 * 4)) [0xFF; 0xFF; 0xFF; 0x0F] ∧
    fat_chain d2 0 128 4 [] ∧
    ∀ c, 0 ≤ c < 128 → c ≠ 4 → fat_entry d2 0 c = fat_entry witness_table 0 c.
Proof.
  apply (FAT_allocates id (λ _, True) witness_table 0 128 4 (FAT_new 0 0) 1).
  - exact Logic.I.
  - exact witness_area.
  - split; [lia|reflexivity|]. intros i Hi. assert (Hc : i = 0 ∨ i = 1 ∨ i = 2 ∨ i = 3) by lia.
    destruct Hc as [-> |[-> |[-> | ->]]]; vm_compute; congruence.
  - lia.
  - reflexivity.
  - reflexivity.
  - vm_compute. reflexivity.
Defined.
