(* ===== verification/FatDir.v ===== *)
(** * FAT32: directories ([fat32/src/dir.rs])

    A directory is a chain of clusters of 32-byte items.  [DirIter] walks over
    them sector by sector; searching, creating and deleting are loops over it.
    The recursions and loops run on one bound, [fuel]. *)

From S2P Require Import Prelude Inode FatItem Fat.

(** [&s[i..]] and [&s[..i]] for a byte index [i]: what is behind and before
    it; a panic unless it is between two characters. *)
Fixpoint str_split (s : String) (i : Z) : outcome (String * String) :=
  if i =? 0 then Ok ([], s)
  else match s with
       | [] => Fault OutOfBounds
       | c :: rest =>
           if i <? len (char_bytes c) then Fault OutOfBounds
           else let! '(a, b) := str_split rest (i - len (char_bytes c)) in Ok (c :: a, b)
       end.
Definition str_from (s : String) (i : Z) : outcome String := let! '(_, b) := str_split s i in Ok b.
Definition str_to (s : String) (i : Z) : outcome String := let! '(a, _) := str_split s i in Ok a.

(** [fat32/dir.rs:18-24] DirError *)
Inductive DirError : Type := NoMatchDir | NoMatchFile | IllegalChar | DirHasExist | FileHasExist.

Section dir.
Context {D : Type} `{BlockIO D}.
Context (fuel : nat).

(** ** [DirIter] *)
(** [fat32/dir.rs:330-340] DirIter *)
Record DirIter : Type := mkDirIter {
  it_fat : FAT;
  it_bpb : BIOSParameterBlock;
  it_offset : Z;
  it_sector_offset : Z;
  it_index : Z;
  it_buffer : list Z;
}.
Definition it_set_buffer (i : DirIter) (b : list Z) : DirIter :=
  mkDirIter (it_fat i) (it_bpb i) (it_offset i) (it_sector_offset i) (it_index i) b.
Definition it_set_pos (i : DirIter) (sector_offset index : Z) : DirIter :=
  mkDirIter (it_fat i) (it_bpb i) (it_offset i) sector_offset index (it_buffer i).
Definition it_set_fat (i : DirIter) (f : FAT) : DirIter :=
  mkDirIter f (it_bpb i) (it_offset i) (it_sector_offset i) (it_index i) (it_buffer i).

(** [fat32/dir.rs:345-359] DirIter::new *)
Definition DirIter_new (fat : FAT) (bpb : BIOSParameterBlock) : M D DirIter :=
  let* '(_, fat) := FAT_next fat in
  ret (mkDirIter fat bpb (BPB_offset bpb (current_cluster fat)) 0 0 (replicate (Z.to_nat BUFFER_SIZE) 0)).
(** [fat32/dir.rs:361-363] DirIter::offset_value *)
Definition offset_value (self : DirIter) : Z := it_offset self +u it_sector_offset self *u BUFFER_SIZE.

(** [a % b]. *)
Definition urem (a b : Z) : outcome Z := if b =? 0 then Fault DivZero else Ok (a mod b).

(** [fat32/dir.rs:365-384] DirIter::offset_index *)
Definition offset_index (self : DirIter) : M D DirIter :=
  let spc := sector_per_cluster_usize (it_bpb self) in
  let index := it_index self +u 32 in
  let self := if index mod BUFFER_SIZE =? 0 then it_set_pos self (it_sector_offset self +u 1) 0
              else it_set_pos self (it_sector_offset self) index in
  let* r := lift (urem (it_sector_offset self) spc) in
  if (r =? 0) && negb (it_sector_offset self =? 0) then
    if FAT_next_is_none (it_fat self) then ret (it_set_pos self spc (it_index self))
    else
      let* '(_, fat) := FAT_next (it_fat self) in
      ret (mkDirIter fat (it_bpb self) (BPB_offset (it_bpb self) (current_cluster fat)) 0 (it_index self) (it_buffer self))
  else ret self.

(** [fat32/dir.rs:386-389] DirIter::is_end_sector *)
Definition is_end_sector (self : DirIter) : bool :=
  it_sector_offset self =? sector_per_cluster_usize (it_bpb self).
(** [fat32/dir.rs:391-393] DirIter::is_end *)
Definition is_end (self : DirIter) : outcome bool :=
  if is_end_sector self then Ok true
  else let! b := idx (it_buffer self) (it_index self) in Ok (b =? 0x00).
(** [fat32/dir.rs:395-400] DirIter::is_special_item *)
Definition is_special_item (self : DirIter) : outcome bool :=
  let! b0 := idx (it_buffer self) (it_index self) in
  if b0 =? 0x2E then
    let! b1 := idx (it_buffer self) (it_index self + 1) in
    if b1 =? 0x20 then Ok true
    else if b1 =? 0x2E then let! b2 := idx (it_buffer self) (it_index self + 2) in Ok (b2 =? 0x20)
    else Ok false
  else Ok false.
(** [fat32/dir.rs:402-404] DirIter::get_part_buf *)
Definition get_part_buf (self : DirIter) : outcome (list Z) :=
  slice (it_buffer self) (it_index self) (it_index self + 32).
(** [fat32/dir.rs:406-408] DirIter::set_deleted *)
Definition set_deleted (self : DirIter) : outcome DirIter :=
  let! b := set_idx (it_buffer self) (it_index self) 0xE5 in Ok (it_set_buffer self b).
(** [fat32/dir.rs:444-449] DirIter::update_buffer *)
Definition update_buffer (self : DirIter) : M D DirIter :=
  let* b := read_unwrap (it_buffer self) (offset_value self) 1 in ret (it_set_buffer self b).
(** [fat32/dir.rs:451-455] DirIter::update *)
Definition DirIter_update (self : DirIter) : M D unit := write_unwrap (it_buffer self) (offset_value self) 1.

(** Zeroes in every sector of a cluster. *)
(** [fat32/dir.rs:301-309] Dir::clean_cluster_data. Shared with [DirIter]. *)
Definition clean_cluster (bpb : BIOSParameterBlock) (cluster : Z) : M D unit :=
  for_each (seqZ 0 (sector_per_cluster_usize bpb)) (λ i,
    write_unwrap (replicate (Z.to_nat BUFFER_SIZE) 0) (BPB_offset bpb cluster +u i *u BUFFER_SIZE) 1).
(** [fat32/dir.rs:457-465] DirIter::clean_new_cluster_data *)
Definition clean_new_cluster_data (self : DirIter) (cluster : Z) : M D unit := clean_cluster (it_bpb self) cluster.

(** [fat32/dir.rs:411-424] DirIter::update_item. At the end of the directory a
    cluster is appended. *)
Definition append_cluster (self : DirIter) : M D DirIter :=
  let* '(blank_cluster, fat) := FAT_blank_cluster fuel (it_fat self) in
  clean_new_cluster_data self blank_cluster ;;
  let* fat := FAT_write fat blank_cluster 0x0FFFFFFF in
  let* fat := FAT_write fat (current_cluster fat) blank_cluster in
  let fat := FAT_previous fat in
  let* '(_, fat) := FAT_next fat in
  let* '(_, fat) := FAT_next fat in
  update_buffer (mkDirIter fat (it_bpb self) (BPB_offset (it_bpb self) blank_cluster) 0 0 (it_buffer self)).
(** [fat32/dir.rs:410-426] DirIter::update_item *)
Definition update_item (self : DirIter) (buf : list Z) : M D DirIter :=
  let* self := if is_end_sector self then append_cluster self else ret self in
  let* b := lift (copy_into (it_buffer self) (it_index self) (it_index self + 32) buf) in
  ret (it_set_buffer self b).

(** [fat32/dir.rs:428-442] DirIter::previous *)
Definition DirIter_previous (self : DirIter) : M D DirIter :=
  if (it_index self =? 0) && negb (it_sector_offset self =? 0) then
    update_buffer (it_set_pos self (it_sector_offset self - 1) (BUFFER_SIZE - 32))
  else if negb (it_index self =? 0) then
    ret (it_set_pos self (it_sector_offset self) (it_index self - 32))
  else
    let spc := sector_per_cluster_usize (it_bpb self) in
    update_buffer (it_set_fat (it_set_pos self (spc -u 1) (BUFFER_SIZE - 32)) (FAT_previous (it_fat self))).

(** The recursion of [next] over the special items. *)
(** [fat32/dir.rs:475-487] DirIter::next. The body, with its recursion. *)
Fixpoint next_loop (fuel : nat) (self : DirIter) : M D (option DirectoryItem * DirIter) :=
  match fuel with
  | O => throw Fuel
  | S fuel =>
      let* self := if it_index self =? 0 then update_buffer self else ret self in
      let* e := lift (is_end self) in
      if e : bool then ret (None, self)
      else
        let* s := lift (is_special_item self) in
        if s : bool then
          let* self := offset_index self in next_loop fuel self
        else
          let* buf := lift (get_part_buf self) in
          let* di := lift (Item_from_buf buf) in
          let* self := offset_index self in
          ret (Some di, self)
  end.
(** [fat32/dir.rs:474-488] DirIter::next *)
Definition DirIter_next (self : DirIter) : M D (option DirectoryItem * DirIter) := next_loop fuel self.

(** [iter.find(p)]. *)
Fixpoint find_loop (n : nat) (p : DirectoryItem → outcome bool) (self : DirIter) : M D (option DirectoryItem * DirIter) :=
  match n with
  | O => throw Fuel
  | S n =>
      let* '(d, self) := DirIter_next self in
      match d with
      | None => ret (None, self)
      | Some d => let* b := lift (p d) in if b : bool then ret (Some d, self) else find_loop n p self
      end
  end.
Definition DirIter_find (p : DirectoryItem → outcome bool) (self : DirIter) : M D (option DirectoryItem * DirIter) :=
  find_loop fuel p self.

(** ** [Dir] *)
(** [fat32/dir.rs:34-41] Dir *)
Record Dir : Type := mkDir { dir_bpb : BIOSParameterBlock; dir_detail : DirectoryItem; dir_fat : FAT }.
Definition dir_set_fat (d : Dir) (f : FAT) : Dir := mkDir (dir_bpb d) (dir_detail d) f.
Definition Dir_new_iter (self : Dir) : M D DirIter := DirIter_new (dir_fat self) (dir_bpb self).

(** [fat32/dir.rs:162-173] Dir::find_lfn. The items before the last part of the
    name, which comes first; gives [has_match]. *)
Fixpoint lfn_parts (cs : list Z) (value : String) (index : Z) (iter : DirIter) : M D (bool * DirIter) :=
  match cs with
  | [] => ret (true, iter)
  | c :: cs =>
      let* v := lift (str_to value index) in
      let index := get_lfn_index v c in
      let* '(next, iter) := DirIter_next iter in
      let* next := lift (unwrap next) in
      let* part := lift (str_from v index) in
      let* b := lift (lfn_equal next part) in
      if b : bool then lfn_parts cs value index iter else ret (false, iter)
  end.
(** [fat32/dir.rs:152-159] Dir::find_lfn. Whether an item is the last part of
    the name. *)
Definition lfn_last (value : String) (count index : Z) (d : DirectoryItem) : outcome bool :=
  if is_lfn d then
    let! c := unwrap (Item_count_of_name d) in
    if c =? count then
      let! e := unwrap (Item_is_name_end d) in
      if e : bool then let! part := str_from value index in lfn_equal d part else Ok false
    else Ok false
  else Ok false.
(** [fat32/dir.rs:147-177] Dir::find_lfn *)
Definition find_lfn (iter : DirIter) (value : String) : M D (option DirectoryItem * DirIter) :=
  let count := get_count_of_lfn value in
  let index := get_lfn_index value count in
  let* '(result, iter) := DirIter_find (lfn_last value count index) iter in
  let* '(has_match, iter) := match result with
                             | Some _ => lfn_parts (reverse (seqZ 1 (count - 1))) value index iter
                             | None => ret (true, iter)
                             end in
  if has_match : bool then DirIter_next iter else ret (None, iter).

(** [fat32/dir.rs:139-144] Dir::exist_iter *)
Definition exist_iter (iter : DirIter) (value : String) : M D (option DirectoryItem * DirIter) :=
  match sfn_or_lfn value with
  | NameType_SFN => DirIter_find (λ d, sfn_equal d value) iter
  | NameType_LFN => find_lfn iter value
  end.
(** [fat32/dir.rs:126-133] Dir::exist *)
Definition exist (self : Dir) (value : String) : M D (option DirectoryItem) :=
  let* iter := Dir_new_iter self in
  let* '(r, _) := match sfn_or_lfn value with
                  | NameType_SFN => DirIter_find (λ d, sfn_equal d value) iter
                  | NameType_LFN => find_lfn iter value
                  end in
  ret r.
(** [fat32/dir.rs:134-136] Dir::iter *)
Definition Dir_iter (self : Dir) : M D DirIter := Dir_new_iter self.

(** [fat32/file.rs:24-32] File *)
Record FatFile : Type := mkFatFile {
  ff_bpb : BIOSParameterBlock; ff_dir_cluster : Z; ff_detail : DirectoryItem; ff_fat : FAT;
}.
(** [fat32/dir.rs:87-102] Dir::open_file_from_dentry *)
Definition open_file_from_dentry (self : Dir) (di : DirectoryItem) : M D (Result FatFile DirError) :=
  if is_file di then
    let* cluster := lift (Item_cluster di) in
    let fat := FAT_new cluster (BPB_fat1 (dir_bpb self)) in
    let* dir_cluster := lift (Item_cluster (dir_detail self)) in
    ret (ok (mkFatFile (dir_bpb self) dir_cluster di fat))
  else ret (err NoMatchFile).
(** [fat32/dir.rs:67-86] Dir::open_file *)
Definition open_file (self : Dir) (file : String) : M D (Result FatFile DirError) :=
  if is_illegal file then ret (err IllegalChar)
  else
    let* found := exist self file in
    match found with
    | None => ret (err NoMatchFile)
    | Some di =>
        if is_file di then
          let* cluster := lift (Item_cluster di) in
          let fat := FAT_new cluster (BPB_fat1 (dir_bpb self)) in
          let* dir_cluster := lift (Item_cluster (dir_detail self)) in
          ret (ok (mkFatFile (dir_bpb self) dir_cluster di fat))
        else ret (err NoMatchFile)
    end.
(** [fat32/dir.rs:105-123] Dir::cd *)
Definition cd (self : Dir) (dir : String) : M D (Result Dir DirError) :=
  if is_illegal dir then ret (err IllegalChar)
  else
    let* found := exist self dir in
    match found with
    | None => ret (err NoMatchDir)
    | Some di =>
        if is_dir di then
          let* cluster := lift (Item_cluster di) in
          ret (ok (mkDir (dir_bpb self) di (FAT_new cluster (BPB_fat1 (dir_bpb self)))))
        else ret (err NoMatchDir)
    end.

(** [fat32/dir.rs:293-298] Dir::write_directory_item *)
Definition write_directory_item (self : Dir) (di : DirectoryItem) : M D unit :=
  let* iter := Dir_new_iter self in
  let* '(_, iter) := DirIter_find (λ _, Ok false) iter in
  let* bytes := lift (Item_bytes di) in
  let* iter := update_item iter bytes in
  DirIter_update iter.
(** [fat32/dir.rs:301-309] Dir::clean_cluster_data *)
Definition clean_cluster_data (self : Dir) (cluster : Z) : M D unit := clean_cluster (dir_bpb self) cluster.
(** [fat32/dir.rs:312-325] Dir::add_dot_item *)
Definition add_dot_item (self : Dir) (cluster : Z) : M D unit :=
  let buffer := replicate (Z.to_nat BUFFER_SIZE) 0 in
  let value := replicate 11 0x20 in
  let* value := lift (set_idx value 0 46) in
  let* di := lift (Item_new_sfn_bytes cluster value OpType_Dir) in
  let* bytes := lift (Item_bytes di) in
  let* buffer := lift (copy_into buffer 0 32 bytes) in
  let* value := lift (set_idx value 1 46) in
  let* parent := lift (Item_cluster (dir_detail self)) in
  let* di := lift (Item_new_sfn_bytes parent value OpType_Dir) in
  let* bytes := lift (Item_bytes di) in
  let* buffer := lift (copy_into buffer 32 64 bytes) in
  write_unwrap buffer (BPB_offset (dir_bpb self) cluster) 1.

(** [fat32/dir.rs:211-218] Dir::create. The items of a long name before its
    last part. *)
Fixpoint create_parts (self : Dir) (cs : list Z) (check_sum : Z) (value : String) (lfn_index : Z) : M D unit :=
  match cs with
  | [] => ret tt
  | c :: cs =>
      let* v := lift (str_to value lfn_index) in
      let lfn_index := get_lfn_index v c in
      let* part := lift (str_from v lfn_index) in
      let* di := lift (Item_new_lfn (wrap8 c) check_sum part) in
      write_directory_item self di ;;
      create_parts self cs check_sum value lfn_index
  end.
(** [fat32/dir.rs:192-225] Dir::create. The items of the new entry. *)
Definition create_items (self : Dir) (blank_cluster : Z) (value : String) (create_type : OpType) : M D unit :=
  match sfn_or_lfn value with
  | NameType_SFN =>
      let* di := lift (Item_new_sfn blank_cluster value create_type) in
      write_directory_item self di
  | NameType_LFN =>
      let sfn := as_bytes (str "unsupported") in
      let check_sum := generate_checksum sfn in
      let count := get_count_of_lfn value in
      let lfn_index := get_lfn_index value count in
      let* part := lift (str_from value lfn_index) in
      let* di := lift (Item_new_lfn (Z.lor (wrap8 count) (Z.shiftl 1 6)) check_sum part) in
      write_directory_item self di ;;
      create_parts self (reverse (seqZ 1 (count - 1))) check_sum value lfn_index ;;
      let* di := lift (Item_new_sfn_bytes blank_cluster sfn create_type) in
      write_directory_item self di
  end.
(** [fat32/dir.rs:180-232] Dir::create *)
Definition Dir_create (self : Dir) (value : String) (create_type : OpType) : M D (Result unit DirError * Dir) :=
  if is_illegal value then ret (err IllegalChar, self)
  else
    let* found := exist self value in
    match found with
    | Some _ => ret (err (match create_type with OpType_Dir => DirHasExist | OpType_File => FileHasExist end), self)
    | None =>
        let* '(blank_cluster, fat) := FAT_blank_cluster fuel (dir_fat self) in
        let* fat := FAT_write fat blank_cluster 0x0FFFFFFF in
        let self := dir_set_fat self fat in
        create_items self blank_cluster value create_type ;;
        match create_type with
        | OpType_Dir => clean_cluster_data self blank_cluster ;; add_dot_item self blank_cluster
        | OpType_File => ret tt
        end ;;
        ret (ok tt, self)
    end.

(** [iter.previous(); iter.set_deleted(); iter.update()]. *)
(** [fat32/dir.rs:264-266] Dir::delete. One pass. *)
Definition mark_previous (iter : DirIter) : M D DirIter :=
  let* iter := DirIter_previous iter in
  let* iter := lift (set_deleted iter) in
  DirIter_update iter ;;
  ret iter.
(** [fat32/dir.rs:278-289] Dir::delete_in_dir. The loop; [sub] is the recursive
    call. *)
Fixpoint delete_in_loop (n : nat) (sub : Z → M D unit) (iter : DirIter) : M D unit :=
  match n with
  | O => throw Fuel
  | S n =>
      let* '(d, iter) := DirIter_next iter in
      match d with
      | None => ret tt
      | Some d =>
          (if is_dir d then let* c := lift (Item_cluster d) in sub c else ret tt) ;;
          if is_deleted d then delete_in_loop n sub iter
          else
            let* iter := mark_previous iter in
            let* '(_, iter) := DirIter_next iter in
            delete_in_loop n sub iter
      end
  end.
(** [fat32/dir.rs:274-290] Dir::delete_in_dir *)
Fixpoint delete_in_dir (depth : nat) (bpb : BIOSParameterBlock) (cluster : Z) : M D unit :=
  match depth with
  | O => throw Fuel
  | S depth =>
      let fat := FAT_new cluster (BPB_fat1 bpb) in
      let* iter := DirIter_new fat bpb in
      delete_in_loop fuel (delete_in_dir depth bpb) iter
  end.
(** [fat32/dir.rs:235-271] Dir::delete *)
Definition Dir_delete (self : Dir) (value : String) (delete_type : OpType) : M D (Result unit DirError * Dir) :=
  if is_illegal value then ret (err IllegalChar, self)
  else
    let* iter := Dir_new_iter self in
    let* '(found, iter) := exist_iter iter value in
    match found with
    | None => ret (err (match delete_type with OpType_Dir => NoMatchDir | OpType_File => NoMatchFile end), self)
    | Some di =>
        let go :=
          let* cluster := lift (Item_cluster di) in
          let* fat := FAT_write (dir_fat self) cluster 0 in
          let* _ := fold_m (λ iter _, mark_previous iter)
            (match sfn_or_lfn value with
             | NameType_SFN => [0]
             | NameType_LFN => seqZ 0 (get_count_of_lfn value + 1)
             end) iter in
          ret (ok tt, dir_set_fat self fat) in
        match delete_type with
        | OpType_Dir =>
            if is_file di then ret (err NoMatchDir, self)
            else let* c := lift (Item_cluster di) in delete_in_dir fuel (dir_bpb self) c ;; go
        | OpType_File => if is_dir di then ret (err NoMatchFile, self) else go
        end
    end.
(** [fat32/dir.rs:47-49] Dir::delete_dir *)
Definition delete_dir (self : Dir) (dir : String) : M D (Result unit DirError * Dir) := Dir_delete self dir OpType_Dir.
(** [fat32/dir.rs:52-54] Dir::delete_file *)
Definition delete_file (self : Dir) (file : String) : M D (Result unit DirError * Dir) := Dir_delete self file OpType_File.
(** [fat32/dir.rs:57-59] Dir::create_dir *)
Definition create_dir (self : Dir) (dir : String) : M D (Result unit DirError * Dir) := Dir_create self dir OpType_Dir.
(** [fat32/dir.rs:62-64] Dir::create_file *)
Definition create_file (self : Dir) (file : String) : M D (Result unit DirError * Dir) := Dir_create self file OpType_File.
End dir.
