(* ===== verification/FatFile.v ===== *)
(** * FAT32: files and the volume ([fat32/src/file.rs], [volume.rs])

    Reading a file follows its chain of clusters; writing frees or extends the
    chain, writes the data sector by sector and updates the length in the
    directory item. *)

From S2P Require Import Prelude Inode FatItem Fat FatDir.

(** [fat32/file.rs:12-15] FileError *)
Inductive FileError : Type := BufTooSmall | WriteError.
(** [fat32/file.rs:18-21] WriteType *)
Inductive WriteType : Type := OverWritten | Append.

(** [a / b]. *)
Definition udiv (a b : Z) : outcome Z := if b =? 0 then Fault DivZero else Ok (a / b).

Section file.
Context {D : Type} `{BlockIO D}.
Context (fuel : nat).

Definition ff_spc (self : FatFile) : Z := sector_per_cluster_usize (ff_bpb self).
Definition ff_set_fat (self : FatFile) (f : FAT) : FatFile :=
  mkFatFile (ff_bpb self) (ff_dir_cluster self) (ff_detail self) f.

(** [fat32/file.rs:51-53] File::length *)
Definition FatFile_length (self : FatFile) : outcome Z := unwrap (Item_length (ff_detail self)).

(** ** Reading *)
(** The variables of the closure. *)
Record read_vars : Type := mkReadVars { rv_index : Z; rv_blocks : Z; rv_buf : list Z }.
(** [fat32/file.rs:63-76] File::read. The closure, for one cluster. *)
Definition read_cluster (self : FatFile) (length cluster_size : Z) (v : read_vars) (f : FAT) : M D read_vars :=
  let offset := BPB_offset (ff_bpb self) (current_cluster f) in
  let* '(nb, end_) :=
    if length -u rv_index v <? cluster_size then
      let* bytes_left := lift (urem length cluster_size) in
      ret (get_needed_sector bytes_left, rv_index v +u bytes_left)
    else ret (rv_blocks v, rv_index v +u cluster_size) in
  let* part := lift (slice (rv_buf v) (rv_index v) end_) in
  let* part := read_unwrap part offset nb in
  ret (mkReadVars (rv_index v +u cluster_size) nb (splice (rv_buf v) (Z.to_nat (rv_index v)) part)).
(** [fat32/file.rs:54-79] File::read *)
Definition FatFile_read (self : FatFile) (buf : list Z) : M D (Result Z FileError * list Z) :=
  let* length := lift (FatFile_length self) in
  let spc := ff_spc self in
  let cluster_size := spc *u BUFFER_SIZE in
  if len buf <? length then ret (err BufTooSmall, buf)
  else
    let* '(v, _) := FAT_iterate fuel (ff_fat self) (read_cluster self length cluster_size) (mkReadVars 0 spc buf) in
    ret (ok length, rv_buf v).

(** ** Writing *)
(** [fat32/file.rs:136-144] File::num_cluster *)
Definition num_cluster (self : FatFile) (length : Z) : outcome Z :=
  let cluster_size := ff_spc self *u BUFFER_SIZE in
  let! r := urem length cluster_size in
  let! q := udiv length cluster_size in
  Ok (if negb (r =? 0) then q +u 1 else q).
(** [fat32/file.rs:147-156] File::buf_write *)
Definition buf_write (from : list Z) (value : Z) (to : list Z) : outcome (list Z) :=
  let index := value *u BUFFER_SIZE in
  let index_end := index +u BUFFER_SIZE in
  if len from <? index_end then
    let! to := copy_into to 0 (len to) (replicate (Z.to_nat BUFFER_SIZE) 0) in
    let! src := slice from index (len from) in
    copy_into to 0 (len from -u index) src
  else
    let! src := slice from index index_end in
    copy_into to 0 (len to) src.

(** [fat32/file.rs:199-205] File::fill_left_sector. The loop over the sectors
    that are left in the cluster. *)
Fixpoint fill_sectors (ss : list Z) (buf data : list Z) (offset index : Z) : M D Z :=
  match ss with
  | [] => ret index
  | s :: ss =>
      let* from := lift (slice buf index (len buf)) in
      let* data := lift (buf_write from s data) in
      write_unwrap data (offset +u s *u BUFFER_SIZE) 1 ;;
      fill_sectors ss buf data offset (index +u BUFFER_SIZE)
  end.
(** [fat32/file.rs:162-166] File::fill_left_sector. [get_used_sector]. *)
Definition get_used_sector (spc length ln : Z) : outcome Z :=
  let! r := urem ln (spc *u BUFFER_SIZE) in
  Ok (if (r =? 0) && negb (length =? 0) then spc else r / BUFFER_SIZE).
(** [fat32/file.rs:194-210] File::fill_left_sector. The whole sectors. *)
Definition fill_rest (spc : Z) (buf data : list Z) (offset index already_fill used_sector : Z) : M D (bool * Z) :=
  let buf_needed_sector := get_needed_sector (len buf -u already_fill) in
  let the_cluster_left_sector := spc -u used_sector in
  let num_sector := Z.min the_cluster_left_sector buf_needed_sector in
  let* index := fill_sectors (seqZ 0 num_sector) buf data offset index in
  if buf_needed_sector >? the_cluster_left_sector then ret (true, index) else ret (false, 0).
(** [fat32/file.rs:159-211] File::fill_left_sector *)
Definition fill_left_sector (self : FatFile) (buf : list Z) (cluster : Z) : M D (bool * Z) :=
  let spc := ff_spc self in
  let* length := lift (FatFile_length self) in
  let left_start := length mod BUFFER_SIZE in
  let blank_size := BUFFER_SIZE - left_start in
  let* used_sector := lift (get_used_sector spc length length) in
  let data := replicate (Z.to_nat BUFFER_SIZE) 0 in
  let offset := BPB_offset (ff_bpb self) cluster +u used_sector *u BUFFER_SIZE in
  if negb (left_start =? 0) then
    let* data := read_unwrap data offset 1 in
    if len buf <=? blank_size then
      let* data := lift (copy_into data left_start (left_start + len buf) buf) in
      write_unwrap data offset 1 ;;
      ret (false, 0)
    else
      let* src := lift (slice buf 0 blank_size) in
      let* data := lift (copy_into data left_start BUFFER_SIZE src) in
      let* used_sector := lift (get_used_sector spc length (length +u blank_size)) in
      write_unwrap data offset 1 ;;
      fill_rest spc buf data (BPB_offset (ff_bpb self) cluster +u BUFFER_SIZE) blank_size blank_size used_sector
  else fill_rest spc buf data offset 0 0 used_sector.

(** [fat32/file.rs:214-225] File::update_length *)
Definition update_length (self : FatFile) (length : Z) : M D FatFile :=
  let fat := FAT_new (ff_dir_cluster self) (BPB_fat1 (ff_bpb self)) in
  let* iter := DirIter_new fat (ff_bpb self) in
  let* '(found, iter) := DirIter_find fuel (λ d,
    if is_deleted d then Ok false
    else if is_lfn d then Ok false
    else
      let! c := Item_cluster d in
      let! c' := Item_cluster (ff_detail self) in
      Ok (c =? c')) iter in
  lift (unwrap found) ;;
  let* detail := lift (set_file_length (ff_detail self) length) in
  let* iter := DirIter_previous iter in
  let* bytes := lift (Item_bytes detail) in
  let* iter := update_item fuel iter bytes in
  DirIter_update iter ;;
  ret (mkFatFile (ff_bpb self) (ff_dir_cluster self) detail (ff_fat self)).

(** [fat32/file.rs:228-237] File::write_blank_fat *)
Definition write_blank_fat (self : FatFile) (num_cluster : Z) : M D FatFile :=
  let* fat := fold_m (λ fat n,
    let* '(bl1, fat) := FAT_blank_cluster fuel fat in
    let* fat := FAT_write fat bl1 0x0FFFFFFF in
    let* '(bl2, fat) := FAT_blank_cluster fuel fat in
    if negb (n =? num_cluster -u 1) then FAT_write fat bl1 bl2 else ret fat)
    (seqZ 0 num_cluster) (ff_fat self) in
  ret (ff_set_fat self fat).

(** The variables of the closure: the sectors left, those written, and the
    sector buffer. *)
Record write_vars : Type := mkWriteVars { wv_count : Z; wv_w : Z; wv_buf : list Z }.
(** [fat32/file.rs:249-280] File::_write. The closure, for one cluster. *)
Definition write_cluster (self : FatFile) (buf : list Z) (v : write_vars) (f : FAT) : M D write_vars :=
  let spc := ff_spc self in
  let op start sectors := slice buf (start *u BUFFER_SIZE) ((start +u sectors) *u BUFFER_SIZE) in
  let w := wv_w v in
  let* q := lift (udiv (wv_count v) spc) in
  let '(count, write_count) := if q >? 0 then (spc, wv_count v -u spc) else (wv_count v, wv_count v) in
  let offset := BPB_offset (ff_bpb self) (current_cluster f) in
  if count =? spc then
    if (w +u spc) *u BUFFER_SIZE >? len buf then
      let* bw := lift (buf_write buf w (wv_buf v)) in
      write_unwrap bw offset 1 ;;
      ret (mkWriteVars write_count (w +u count) bw)
    else
      let* src := lift (op w count) in
      write_unwrap src offset count ;;
      ret (mkWriteVars write_count (w +u count) (wv_buf v))
  else
    let* src := lift (op w (count -u 1)) in
    write_unwrap src offset (count -u 1) ;;
    let w := w +u (count -u 1) in
    let* bw := lift (buf_write buf w (wv_buf v)) in
    write_unwrap bw (offset +u (count -u 1) *u BUFFER_SIZE) 1 ;;
    ret (mkWriteVars write_count w bw).
(** [fat32/file.rs:240-281] File::_write *)
Definition _write (self : FatFile) (buf : list Z) (fat : FAT) : M D unit :=
  FAT_iterate fuel fat (write_cluster self buf)
    (mkWriteVars (get_needed_sector (len buf)) 0 (replicate (Z.to_nat BUFFER_SIZE) 0)) ;;
  ret tt.

(** [fat.count()]. *)
Definition FAT_count (fat : FAT) : M D Z :=
  let* '(n, _) := FAT_iterate fuel fat (λ n _, ret (n + 1)) 0 in ret n.
(** [fat32/file.rs:94-110] File::write. Appending. *)
Definition write_append (self : FatFile) (buf : list Z) (num_cluster : Z) : M D FatFile :=
  let fat := ff_fat self in
  let* exist_fat := FAT_count fat in
  let* '(_, fat) := FAT_iterate fuel fat (λ _ _, ret tt) tt in
  let* '(new_cluster, index) := fill_left_sector self buf (current_cluster fat) in
  if new_cluster : bool then
    let* buf := lift (slice buf index (len buf)) in
    let* '(bl, sfat) := FAT_blank_cluster fuel (ff_fat self) in
    let self := ff_set_fat self sfat in
    let* fat := FAT_write fat (current_cluster fat) bl in
    let* self := write_blank_fat self (num_cluster -u exist_fat) in
    _write self buf (FAT_refresh fat bl) ;;
    ret self
  else ret self.
(** [fat32/file.rs:82-119] File::write *)
Definition FatFile_write (self : FatFile) (buf : list Z) (write_type : WriteType) : M D (Result unit FileError * FatFile) :=
  match write_type with
  | OverWritten =>
      let* n := lift (num_cluster self (len buf)) in
      FAT_iterate fuel (ff_fat self) (λ _ f, let* _ := FAT_write f (current_cluster f) 0 in ret tt) tt ;;
      let* self := write_blank_fat self n in
      _write self buf (ff_fat self) ;;
      let* self := update_length self (len buf) in
      ret (ok tt, self)
  | Append =>
      let* l := lift (FatFile_length self) in
      let* n := lift (num_cluster self (len buf +u l)) in
      let* self := write_append self buf n in
      let* l := lift (FatFile_length self) in
      let* self := update_length self (len buf +u l) in
      ret (ok tt, self)
  end.

(** ** Reading by sector *)
(** [fat32/file.rs:35-45] ReadIter *)
Record ReadIter : Type := mkReadIter {
  ri_buffer : list Z; ri_bpb : BIOSParameterBlock; ri_fat : FAT; left_length : Z; read_count : Z; need_count : Z;
}.
(** [fat32/file.rs:122-133] File::read_per_sector *)
Definition read_per_sector (self : FatFile) : outcome ReadIter :=
  let! left_length := FatFile_length self in
  Ok (mkReadIter (replicate (Z.to_nat BUFFER_SIZE) 0) (ff_bpb self) (ff_fat self) left_length 0
        (get_needed_sector left_length)).
(** [fat32/file.rs:289-307] ReadIter::next *)
Definition ReadIter_next (self : ReadIter) : M D (option (list Z * Z) * ReadIter) :=
  let spc := sector_per_cluster_usize (ri_bpb self) in
  if read_count self =? need_count self then ret (None, self)
  else
    let* r := lift (urem (read_count self) spc) in
    let* fat := if r =? 0 then let* '(_, fat) := FAT_next (ri_fat self) in ret fat else ret (ri_fat self) in
    let offset := BPB_offset (ri_bpb self) (current_cluster fat) +u r *u BUFFER_SIZE in
    let* buffer := read_unwrap (ri_buffer self) offset 1 in
    let rc := read_count self +u 1 in
    if rc =? need_count self then
      ret (Some (buffer, left_length self), mkReadIter buffer (ri_bpb self) fat (left_length self) rc (need_count self))
    else
      ret (Some (buffer, BUFFER_SIZE),
           mkReadIter buffer (ri_bpb self) fat (left_length self -u BUFFER_SIZE) rc (need_count self)).

(** ** The volume *)
(** [fat32/volume.rs:20-26] Volume *)
Record Volume : Type := mkVolume { vol_bpb : BIOSParameterBlock }.
(** [fat32/volume.rs:32-67] Volume::new *)
Definition Volume_new : M D Volume :=
  let* buf := read_unwrap (replicate (Z.to_nat BUFFER_SIZE) 0) 0 1 in
  let* volume_label := lift (slice buf 0x47 0x52) in
  let* file_system := lift (slice buf 0x52 0x5A) in
  let* s := lift (slice buf 0x0B 0x0D) in
  let* bps := lift (read_le_u16 s) in
  if negb (bps =? BUFFER_SIZE) then throw Explicit
  else
    let* f := lift (is_fat32 file_system) in
    if negb f then throw Explicit
    else
      let* spc := lift (idx buf 0x0D) in
      let* s := lift (slice buf 0x0E 0x10) in
      let* reserved := lift (read_le_u16 s) in
      let* num_fat := lift (idx buf 0x10) in
      let* s := lift (slice buf 0x20 0x24) in
      let* total := lift (read_le_u32 s) in
      let* s := lift (slice buf 0x24 0x28) in
      let* spf := lift (read_le_u32 s) in
      let* s := lift (slice buf 0x2C 0x30) in
      let* root := lift (read_le_u32 s) in
      let* s := lift (slice buf 0x43 0x47) in
      let* id := lift (read_le_u32 s) in
      ret (mkVolume (mkBPB bps spc reserved num_fat total spf root id volume_label file_system)).
(** [fat32/volume.rs:70-72] Volume::volume_label *)
Definition volume_label (self : Volume) : outcome String := unwrap (from_utf8 (bpb_volume_label (vol_bpb self))).
(** [fat32/volume.rs:75-84] Volume::root_dir *)
Definition root_dir (self : Volume) : Dir :=
  mkDir (vol_bpb self) (Item_root_dir (root_cluster (vol_bpb self)))
    (FAT_new (root_cluster (vol_bpb self)) (BPB_fat1 (vol_bpb self))).
End file.

(** ** Reading a file *)

(** A volume whose parameters fit the device: sectors of 512 bytes, a table of
    [n] entries. *)
Record vol_ok (bs : list Z) (bpb : BIOSParameterBlock) (n : Z) : Prop := {
  vo_bps : byte_per_sector bpb = 512;
  vo_spc : 0 < sector_per_cluster bpb < 2 ^ 8;
  vo_reserved : 0 ≤ reserved_sector bpb < 2 ^ 16;
  vo_num_fat : 0 ≤ num_fat bpb < 2 ^ 8;
  vo_spf : 0 ≤ sector_per_fat bpb < 2 ^ 32;
  vo_table : fat_area bs (BPB_fat1 bpb) n;
}.
(** Where a cluster is, and its contents. *)
Definition cluster_size (bpb : BIOSParameterBlock) : Z := sector_per_cluster bpb * 512.
Definition cluster_at (bpb : BIOSParameterBlock) (c : Z) : Z :=
  (reserved_sector bpb + num_fat bpb * sector_per_fat bpb + (c - 2) * sector_per_cluster bpb) * 512.
Definition cluster_data (bs : list Z) (bpb : BIOSParameterBlock) (c : Z) : list Z :=
  subl bs (cluster_at bpb c) (cluster_at bpb c + cluster_size bpb).
Definition cluster_inside (bs : list Z) (bpb : BIOSParameterBlock) (c : Z) : Prop :=
  2 ≤ c ∧ cluster_at bpb c + cluster_size bpb ≤ len bs.

Lemma BPB_offset_at bs bpb n c : vol_ok bs bpb n → 2 ≤ c < n → BPB_offset bpb c = cluster_at bpb c.
Proof.
  intros [Hb Hs Hr Hf Hp Ht] Hc. destruct Ht as [_ _ _ _ _ He]. unfold BPB_offset, cluster_at. rewrite Hb.
  assert (0 ≤ num_fat bpb * sector_per_fat bpb < 2 ^ 40) by nia.
  assert (0 ≤ (c - 2) * sector_per_cluster bpb < 2 ^ 36) by nia.
  rewrite (usub_small c 2) by lia. rewrite (umul_small (num_fat bpb)) by lia. rewrite (umul_small (c - 2)) by lia.
  rewrite (uadd_small (reserved_sector bpb)) by lia. rewrite uadd_small by lia. by rewrite umul_small by lia.
Qed.
Lemma cluster_at_aligned bpb c : cluster_at bpb c mod 512 = 0.
Proof. unfold cluster_at. apply Z.mod_mul. lia. Qed.
Lemma cluster_at_nonneg bs bpb n c : vol_ok bs bpb n → 2 ≤ c → 0 ≤ cluster_at bpb c.
Proof. intros [Hb Hs Hr Hf Hp _] Hc. unfold cluster_at. nia. Qed.
Lemma len_cluster_data bs bpb n c : vol_ok bs bpb n → cluster_inside bs bpb c → len (cluster_data bs bpb c) = cluster_size bpb.
Proof.
  intros Hv [Hc Hin]. unfold cluster_data. rewrite len_subl; [lia| |done]. pose proof (cluster_at_nonneg _ _ _ _ Hv Hc).
  destruct Hv as [_ Hs _ _ _ _]. unfold cluster_size. lia.
Qed.
Lemma length_clusters bs bpb n cs :
  vol_ok bs bpb n → Forall (cluster_inside bs bpb) cs → len (concat (cluster_data bs bpb <$> cs)) = len cs * cluster_size bpb.
Proof.
  intros Hv. induction 1 as [|c cs Hc Hcs IH]; [done|]. cbn [fmap list_fmap concat]. pose proof (len_cluster_data _ _ _ _ Hv Hc).
  unfold len in *. rewrite length_app. cbn [length]. lia.
Qed.
Lemma needed_whole k : 0 ≤ k → get_needed_sector (k * 512) = k.
Proof. intros. unfold get_needed_sector, BUFFER_SIZE. rewrite Z.mod_mul, Z.div_mul by lia. done. Qed.

Section read.
Context {D : Type} `{BlockIO D} (bytes : D → list Z) (io_ok : D → Prop) {HL : BlockIOLaws D bytes io_ok}.
Context (bs buf : list Z) (bpb : BIOSParameterBlock) (n L : Z) (file : FatFile) (c0 : Z) (rest0 : list Z).
Context (Hvol : vol_ok bs bpb n) (Hbpb : ff_bpb file = bpb) (Hin : Forall (cluster_inside bs bpb) (c0 :: rest0)).
Context (HL1 : len rest0 * cluster_size bpb ≤ L) (HL2 : L ≤ (len rest0 + 1) * cluster_size bpb) (HL3 : L ≤ len buf) (HL4 : L < 2 ^ 32).
Abbreviation csz := (cluster_size bpb).
Abbreviation data done := (concat (cluster_data bs bpb <$> done)).

(** Before the clusters [cs]: the data of those before are in the buffer. *)
Definition read_inv (cs : list Z) (v : read_vars) (d : D) : Prop :=
  io_ok d ∧ bytes d = bs ∧ match cs with [] => True | c :: r => fat_chain bs (BPB_fat1 bpb) n c r end ∧
  ∃ done, c0 :: rest0 = done ++ cs ∧ rv_index v = len done * csz ∧ (cs ≠ [] → rv_blocks v = sector_per_cluster bpb) ∧
    rv_buf v = splice buf 0 (take (Z.to_nat L) (data done)).

Lemma read_cluster_part d part a k :
  io_ok d → bytes d = bs → a mod 512 = 0 → 0 ≤ a → a + len part ≤ len bs → k = get_needed_sector (len part) →
  ∃ d', read_unwrap part a k d = Ok (subl bs a (a + len part), d') ∧ io_ok d' ∧ bytes d' = bs.
Proof.
  intros Hd Hb Ha H0 Hl Hk. destruct (law_io_read part a k d) as (d' & Hr & Hok & Hbs); try done; [by rewrite Hb|].
  exists d'. unfold read_unwrap. rewrite (bind_run _ _ _ _ _ Hr), <- Hb. by split_and!.
Qed.

(** Reading [k] bytes of a cluster behind the data of [done]. *)
Lemma splice_read done c k :
  Forall (cluster_inside bs bpb) (done ++ [c]) → 0 ≤ k ≤ csz → len done * csz + k ≤ len buf → len done * csz ≤ L →
  L = len done * csz + k ∨ k = csz ∧ len done * csz + csz ≤ L →
  splice (splice buf 0 (take (Z.to_nat L) (data done))) (Z.to_nat (len done * csz)) (subl bs (cluster_at bpb c) (cluster_at bpb c + k)) =
    splice buf 0 (take (Z.to_nat L) (data (done ++ [c]))).
Proof.
  intros Hf Hk Hb HdL Hcase. apply Forall_app in Hf as [Hf1 Hf2]. apply Forall_cons in Hf2 as [Hfc _].
  assert (Hdl := length_clusters _ _ _ _ Hvol Hf1). assert (Hcl := len_cluster_data _ _ _ _ Hvol Hfc).
  pose proof (len_nonneg done). assert (Hcs : 0 < csz) by (pose proof (vo_spc _ _ _ Hvol); unfold cluster_size; lia).
  rewrite take_ge by (unfold len in *; lia).
  assert (Hsub : subl bs (cluster_at bpb c) (cluster_at bpb c + k) = take (Z.to_nat k) (cluster_data bs bpb c)).
  { unfold cluster_data, subl. rewrite take_take. f_equal. unfold cluster_size in *. lia. }
  rewrite Hsub. replace (Z.to_nat (len done * csz)) with (0 + length (data done))%nat by (unfold len in *; lia).
  rewrite splice_adj by (rewrite length_take; unfold len in *; lia). f_equal.
  rewrite fmap_app, concat_app. cbn [fmap list_fmap concat]. rewrite app_nil_r.
  rewrite take_app_ge by (unfold len in *; lia). f_equal. destruct Hcase as [E|[-> E]].
  - f_equal. unfold len in *. lia.
  - rewrite !take_ge; [done|unfold len in *; lia..].
Qed.

Lemma read_cluster_run c r v d f :
  read_inv (c :: r) v d → current_cluster f = c →
  ∃ v' d', read_cluster file L csz v f d = Ok (v', d') ∧ read_inv r v' d'.
Proof.
  intros (Hd & Hb & Hch & done & Hall & Hidx & Hblk & Hbuf) Hcur. specialize (Hblk ltac:(done)).
  assert (Hfa : Forall (cluster_inside bs bpb) (done ++ [c])).
  { rewrite Hall, Forall_app, Forall_cons in Hin. apply Forall_app. split; [tauto|]. constructor; [tauto|done]. }
  assert (Hci : cluster_inside bs bpb c) by (by apply Forall_app in Hfa as [_ [? _]%Forall_cons]).
  assert (Hlen : len done + len r = len rest0).
  { apply (f_equal length) in Hall. rewrite length_app in Hall. cbn [length] in Hall. unfold len. lia. }
  assert (Hspc := vo_spc _ _ _ Hvol). pose proof (len_nonneg done). pose proof (len_nonneg r).
  assert (Hcs : 0 < csz < 2 ^ 17) by (unfold cluster_size; lia).
  assert (Hneed : get_needed_sector csz = sector_per_cluster bpb) by (unfold cluster_size; apply needed_whole; lia).
  assert (Hc := fat_chain_head _ _ _ _ _ Hch). destruct Hci as [Hc2 Hce].
  assert (Hle : len done * csz ≤ L) by nia.
  set (k := Z.min csz (L - len done * csz)).
  assert (Hkk : L = len done * csz + k ∨ k = csz ∧ len done * csz + csz ≤ L) by lia.
  unfold read_cluster. rewrite Hbpb, Hcur, (BPB_offset_at _ _ _ _ Hvol) by lia. rewrite Hidx, usub_small by lia.
  erewrite (bind_run _ _ d (get_needed_sector k, len done * csz + k) d).
  2: { destruct (Z.ltb_spec (L - len done * csz) csz).
       - assert (Hm : L mod csz = k) by (symmetry; apply (Z.mod_unique _ _ (len done)); lia).
         unfold urem. rewrite (proj2 (Z.eqb_neq _ _)) by lia. rewrite (bind_run _ _ d (L mod csz) d) by done.
         rewrite Hm, uadd_small by lia. done.
       - assert (k = csz) as -> by lia. rewrite uadd_small by lia. by rewrite Hneed, Hblk. }
  assert (Hlb : len (rv_buf v) = len buf).
  { rewrite Hbuf. unfold len. rewrite length_splice; [done|]. rewrite length_take. unfold len in *. lia. }
  assert (Hsl : slice (rv_buf v) (len done * csz) (len done * csz + k) = Ok (subl (rv_buf v) (len done * csz) (len done * csz + k))).
  { apply slice_Ok. split; [lia|done]. }
  rewrite (bind_run _ _ d _ d) by (unfold lift; by rewrite Hsl). set (part := subl _ _ _).
  assert (Hpl : len part = k) by (unfold part; rewrite len_subl; lia).
  destruct (read_cluster_part d part (cluster_at bpb c) (get_needed_sector k)) as (d' & Hr & Hd' & Hb'); try done;
    [apply cluster_at_aligned|by eapply cluster_at_nonneg|lia|by rewrite Hpl|].
  rewrite (bind_run _ _ _ _ _ Hr), Hpl. eexists _, d'. split; [reflexivity|].
  split_and!; [done|done|by destruct r as [|c2 r]; [|destruct Hch as (_ & _ & ?)]|]. exists (done ++ [c]). cbn [rv_index rv_blocks rv_buf].
  split_and!.
  - by rewrite Hall, <- app_assoc.
  - rewrite uadd_small by lia. unfold len in *. rewrite length_app. cbn. lia.
  - intros Hr0. assert (1 ≤ len r) by (destruct r; [done|unfold len; cbn; lia]). assert (k = csz) as -> by nia. done.
  - rewrite Hbuf. apply splice_read; (done || lia).
Qed.
End read.

(** C25. Reading a file: if its chain of clusters has the right length for it,
    and the buffer is long enough, [read] ends, gives the file's length, and the
    buffer starts with exactly the bytes of the file: those of its clusters in
    the order of the chain, cut at the length.  The rest of the buffer and the
    device are as before.  A buffer that is too short is refused. *)
Theorem FatFile_read_reads {D} `{BlockIO D} bytes io_ok {HL : BlockIOLaws D bytes io_ok} d bpb n L file c rest buf fuel :
  io_ok d → vol_ok (bytes d) bpb n → ff_bpb file = bpb → ff_fat file = FAT_new c (BPB_fat1 bpb) →
  Item_length (ff_detail file) = Some L → L < 2 ^ 32 →
  fat_chain (bytes d) (BPB_fat1 bpb) n c rest → Forall (cluster_inside (bytes d) bpb) (c :: rest) →
  len rest * cluster_size bpb ≤ L → L ≤ (len rest + 1) * cluster_size bpb → (S (length rest) < fuel)%nat →
  (L ≤ len buf →
   ∃ d', FatFile_read fuel file buf d =
      Ok ((ok L, splice buf 0 (take (Z.to_nat L) (concat (cluster_data (bytes d) bpb <$> c :: rest)))), d') ∧
     io_ok d' ∧ bytes d' = bytes d) ∧
  (len buf < L → FatFile_read fuel file buf d = Ok ((err BufTooSmall, buf), d)).
Proof.
  intros Hd Hv Hbpb Hfat HLen HL4 Hch Hin HL1 HL2 Hfuel. unfold FatFile_read, FatFile_length, lift. rewrite HLen.
  split; intros Hbuf; unfold bind at 1; cbn [unwrap].
  2: { rewrite (proj2 (Z.ltb_lt _ _)) by lia. done. }
  rewrite (proj2 (Z.ltb_ge _ _)) by lia. unfold ff_spc, sector_per_cluster_usize. rewrite Hbpb, Hfat.
  pose proof (vo_spc _ _ _ Hv). unfold BUFFER_SIZE. rewrite umul_small by lia. fold (cluster_size bpb).
  destruct (iterate_chain bytes io_ok (BPB_fat1 bpb) n (read_cluster file L (cluster_size bpb))
    (read_inv bytes io_ok (bytes d) buf bpb n L c rest)) with (c := c) (rest := rest)
    (b := mkReadVars 0 (sector_per_cluster bpb) buf) (d := d) (f := FAT_new c (BPB_fat1 bpb)) (fuel := fuel)
    as (v & f' & d' & Hrun & (Hd' & Hb' & _ & done & Hall & _ & _ & Hvb) & _); try done; try reflexivity.
  - intros cs b d1 (? & -> & _). split; [done|]. by apply vo_table.
  - by intros c1 r b d1 (_ & -> & ? & _).
  - intros c1 r b d1 f1 Hinv Hcur _ _. by apply (read_cluster_run bytes io_ok (bytes d) buf bpb n L file c rest Hv Hbpb Hin HL1 HL2 Hbuf HL4 c1 r b d1 f1).
  - intros cs b d1 d2 (? & ? & ? & ?) E ?. split_and!; try done; congruence.
  - split_and!; try done. exists []. cbn. by rewrite take_nil.
  - exact Hfuel.
  - rewrite (bind_run _ _ _ _ _ Hrun). exists d'. split_and!; try done. rewrite app_nil_r in Hall. rewrite Hvb. by subst done.
Qed.

(** A volume with one reserved sector, one table of one sector and clusters of
    one sector; the file is 700 bytes in the clusters 3 and 2. *)
Definition witness_bpb : BIOSParameterBlock := mkBPB 512 1 1 1 4 1 2 0 [] [].
Definition witness_disk : list Z :=
  replicate 512 0 ++ concat (le32 <$> [0x0FFFFFF8; 0x0FFFFFFF; 0x0FFFFFFF; 2] ++ replicate 124 0) ++
  replicate 512 7 ++ replicate 512 8.
Definition witness_file : FatFile :=
  mkFatFile witness_bpb 2 (mkItem ItemType_File (Some (mkSfn (replicate 8 0x20) (replicate 3 0x20) 700 3)) None)
    (FAT_new 3 512).
Lemma witness_vol : vol_ok witness_disk witness_bpb 128.
Proof. split; try (cbn; lia). split; try done; vm_compute; congruence. Qed.
Lemma FatFile_read_reads_witness :
  (700 ≤ 702 →
   ∃ d', FatFile_read 4 witness_file (replicate 702 1) witness_disk =
      Ok ((ok 700, splice (replicate 702 1) 0
             (take (Z.to_nat 700) (concat (cluster_data witness_disk witness_bpb <$> [3; 2])))), d') ∧
     True ∧ d' = witness_disk) ∧
  (702 < 700 → FatFile_read 4 witness_file (replicate 702 1) witness_disk = Ok ((err BufTooSmall, replicate 702 1), witness_disk)).
Proof.
  apply (FatFile_read_reads id (λ _, True) witness_disk witness_bpb 128 700 witness_file 3 [2] (replicate 702 1) 4).
  - exact Logic.I.
  - exact witness_vol.
  - reflexivity.
  - reflexivity.
  - reflexivity.
  - lia.
  - vm_compute. repeat split; congruence.
  - repeat constructor; vm_compute; congruence.
  - vm_compute. congruence.
  - vm_compute. congruence.
  - cbn. lia.
Defined.

(** ** Writing a file *)
(** A chain ends, so no cluster is in it twice. *)
Lemma fat_chain_det bs off n rest : ∀ c rest', n ≤ 0x0FFFFFF0 → fat_chain bs off n c rest → fat_chain bs off n c rest' → rest = rest'.
Proof.
  induction rest as [|c1 rest IH]; intros c [|c1' rest'] Hn [Hc H1] [_ H1']; [done|..].
  - destruct H1' as [H1' H2%fat_chain_head]. lia.
  - destruct H1 as [H1 H2%fat_chain_head]. lia.
  - destruct H1 as [H1 H2], H1' as [H1' H2']. assert (c1' = c1) as -> by congruence. f_equal. by apply (IH c1).
Qed.
Lemma fat_chain_suffix bs off n rest : ∀ c c' l, fat_chain bs off n c rest → c' :: l `suffix_of` c :: rest → fat_chain bs off n c' l.
Proof.
  induction rest as [|c1 rest IH]; intros c c' l Hch Hs.
  - destruct Hs as [[|x p] E]; cbn in E; simplify_eq; [done|]. by destruct p.
  - apply suffix_cons_inv in Hs as [[= -> ->]|Hs]; [done|]. destruct Hch as (_ & _ & Hch). by apply (IH c1).
Qed.
Lemma fat_chain_NoDup bs off n c rest : n ≤ 0x0FFFFFF0 → fat_chain bs off n c rest → NoDup (c :: rest).
Proof.
  intros Hn. revert c. induction rest as [|c1 rest IH]; intros c Hch; [apply NoDup_singleton|].
  assert (Hch' := Hch). destruct Hch' as (_ & _ & Hch1). constructor; [|by apply IH]. intros Hin. apply list_elem_of_split in Hin as (l1 & l2 & E).
  assert (Hs : fat_chain bs off n c l2) by (apply (fat_chain_suffix bs off n _ _ _ _ Hch); exists (c :: l1); by rewrite E).
  pose proof (fat_chain_det _ _ _ _ _ _ Hn Hch Hs) as El. rewrite E in El. apply (f_equal length) in El. rewrite length_app in El. cbn in El. lia.
Qed.

(** The sector a part of the buffer is copied to, padded with zeroes. *)
Lemma buf_write_pad from w to :
  len to = 512 → 0 ≤ w → w * 512 ≤ len from → len from < 2 ^ 60 →
  buf_write from w to = Ok (subl (from ++ replicate 512 0) (w * 512) (w * 512 + 512)).
Proof.
  intros Ht Hw Hle Hlt. unfold buf_write, BUFFER_SIZE. rewrite umul_small, uadd_small by lia. set (a := w * 512) in *.
  set (z := replicate (Z.to_nat 512) 0). assert (Hz : length z = 512%nat) by apply length_replicate. set (src := drop (Z.to_nat a) from).
  assert (Hsrc : length src = Z.to_nat (len from - a)) by (unfold src, len; rewrite length_drop; lia).
  assert (Hpad : subl (from ++ replicate 512 0) a (a + 512) = take 512 (src ++ z)).
  { unfold subl. replace (Z.to_nat (a + 512 - a)) with 512%nat by lia. by rewrite drop_app_le by (unfold len in *; lia). }
  rewrite Hpad. destruct (Z.ltb_spec (len from) (a + 512)).
  - assert (E1 : copy_into to 0 (len to) z = Ok z) by (apply copy_into_Ok; unfold len in *; rewrite splice_whole by lia; split_and!; (done || lia)).
    assert (E2 : slice from a (len from) = Ok src).
    { apply slice_Ok. split; [lia|]. unfold src. symmetry. apply take_ge. rewrite length_drop. unfold len. lia. }
    rewrite E1. cbn [obind]. rewrite E2. cbn [obind]. rewrite usub_small by lia. apply copy_into_Ok. unfold len in *. split_and!; [lia|lia|lia|].
    unfold splice. cbn [Z.to_nat take app]. rewrite take_app_ge by lia. rewrite take_0. cbn [app Nat.add]. f_equal.
    unfold z. rewrite drop_replicate, take_replicate. f_equal. change (Z.to_nat 512) with 512%nat. lia.
  - assert (E2 : slice from a (a + 512) = Ok (take 512 src)) by (apply slice_Ok; split; [lia|]; unfold src; f_equal; lia).
    rewrite E2. cbn [obind]. rewrite take_app_le by (unfold len in *; lia). apply copy_into_Ok. unfold len in *.
    assert (Hl : length (take 512 src) = 512%nat) by (rewrite length_take; lia). rewrite splice_whole by lia. split_and!; (done || lia).
Qed.

(** How many sectors of the [j]-th cluster of the chain are written: all of a
    cluster that the data fill; of the last one those that are needed, but only
    the first if all are needed and the last of them is not filled. *)
Definition sectors_written (bpb : BIOSParameterBlock) (L j : Z) : Z :=
  let spc := sector_per_cluster bpb in
  let left := get_needed_sector L - j * spc in
  if (j + 1) * cluster_size bpb <=? L then spc else if left =? spc then 1 else left.
(** What they hold. *)
Definition part_written (bpb : BIOSParameterBlock) (buf : list Z) (j : Z) : list Z :=
  subl (buf ++ replicate 512 0) (j * cluster_size bpb) (j * cluster_size bpb + sectors_written bpb (len buf) j * 512).

Lemma needed_bounds L : 0 ≤ L → L ≤ get_needed_sector L * 512 < L + 512.
Proof.
  intros HL. unfold get_needed_sector, BUFFER_SIZE. pose proof (Z.div_mod L 512). pose proof (Z.mod_pos_bound L 512).
  destruct (L mod 512 =? 0) eqn:E; [apply Z.eqb_eq in E|apply Z.eqb_neq in E]; cbn [negb]; lia.
Qed.

Section write.
Context {D : Type} `{BlockIO D} (bytes : D → list Z) (io_ok : D → Prop) {HL : BlockIOLaws D bytes io_ok}.
Context (bs buf : list Z) (bpb : BIOSParameterBlock) (n : Z) (file : FatFile) (c0 : Z) (rest0 : list Z).
Context (Hvol : vol_ok bs bpb n) (Hbpb : ff_bpb file = bpb) (Hin : Forall (cluster_inside bs bpb) (c0 :: rest0)).
Context (Hch0 : fat_chain bs (BPB_fat1 bpb) n c0 rest0) (Hlow : BPB_fat1 bpb + 4 * n ≤ cluster_at bpb 2).
Context (HL1 : len rest0 * cluster_size bpb < len buf) (HL2 : len buf ≤ (len rest0 + 1) * cluster_size bpb) (HL3 : len buf < 2 ^ 32).
Abbreviation csz := (cluster_size bpb).
Abbreviation spc := (sector_per_cluster bpb).
Abbreviation total := (get_needed_sector (len buf)).

(** Before the clusters [cs]: those before have been written, and nothing else. *)
Definition only_written (done : list Z) (bs' : list Z) : Prop :=
  length bs' = length bs ∧
  (∀ j c, done !! j = Some c → cluster_data bs' bpb c = splice (cluster_data bs bpb c) 0 (part_written bpb buf (Z.of_nat j))) ∧
  (∀ x : nat, (∀ c, c ∈ done → ¬ (cluster_at bpb c ≤ Z.of_nat x < cluster_at bpb c + csz)) → bs' !! x = bs !! x).
Definition write_inv (cs : list Z) (v : write_vars) (d : D) : Prop :=
  io_ok d ∧ len (wv_buf v) = 512 ∧
  ∃ done, c0 :: rest0 = done ++ cs ∧ only_written done (bytes d) ∧
    (cs ≠ [] → wv_w v = len done * spc ∧ wv_count v = total - len done * spc).

Lemma cluster_apart c c' : 2 ≤ c → 2 ≤ c' → c ≠ c' → cluster_at bpb c + csz ≤ cluster_at bpb c' ∨ cluster_at bpb c' + csz ≤ cluster_at bpb c.
Proof. intros Hc Hc' Hne. pose proof (vo_spc _ _ _ Hvol). unfold cluster_at, cluster_size. assert (c < c' ∨ c' < c) as [|] by lia; [left|right]; nia. Qed.
Lemma written_vol done bs' : only_written done bs' → vol_ok bs' bpb n.
Proof.
  intros (Hl & _). destruct Hvol as [? ? ? ? ? [? ? ? ? ? ?]]. split; try done. split; try done; unfold len in *; by rewrite Hl.
Qed.
(** The table is not touched. *)
Lemma written_chain done bs' c r : only_written done bs' → Forall (λ c, 2 ≤ c) done → fat_chain bs (BPB_fat1 bpb) n c r → fat_chain bs' (BPB_fat1 bpb) n c r.
Proof.
  intros (Hl & _ & Hout) Hd. destruct Hvol as [_ Hspc _ _ _ [Ho _ _ Hi _ _]].
  assert (Hent : ∀ c, 0 ≤ c < n → fat_entry bs' (BPB_fat1 bpb) c = fat_entry bs (BPB_fat1 bpb) c).
  { intros x Hx. unfold fat_entry. f_equal. apply list_eq. intros k. rewrite !lookup_subl by lia. destruct (decide _) as [Hk|]; [|done]. apply Hout.
    intros c' Hc'. rewrite Forall_forall in Hd. specialize (Hd c' Hc'). assert (cluster_at bpb 2 ≤ cluster_at bpb c') by (unfold cluster_at; nia). lia. }
  revert c. induction r as [|c1 r IH]; intros c [Hc Hr]; (split; [done|]).
  - by rewrite Hent by lia.
  - destruct Hr as [Hr Hr']. rewrite Hent by lia. split; [done|]. by apply IH.
Qed.
Lemma cluster_lookup b c (k : nat) : 2 ≤ c →
  cluster_data b bpb c !! k = if decide (Z.of_nat k < csz) then b !! (Z.to_nat (cluster_at bpb c) + k)%nat else None.
Proof.
  intros Hc. pose proof (cluster_at_nonneg _ _ _ _ Hvol Hc). unfold cluster_data. rewrite lookup_subl by lia.
  by replace (cluster_at bpb c + csz - cluster_at bpb c) with csz by lia.
Qed.
(** One more cluster. *)
Lemma written_step done c bs1 part :
  only_written done bs1 → Forall (cluster_inside bs bpb) (done ++ [c]) → NoDup (done ++ [c]) →
  part = part_written bpb buf (len done) → len part ≤ csz →
  only_written (done ++ [c]) (splice bs1 (Z.to_nat (cluster_at bpb c)) part).
Proof.
  intros (Hl & Hcl & Hout) Hf Hnd Hpart Hple. apply Forall_app in Hf as [Hfd [Hci _]%Forall_cons]. pose proof Hci as [Hc2 Hce].
  assert (Hca := cluster_at_nonneg _ _ _ _ Hvol Hc2). assert (Hcd := len_cluster_data _ _ _ _ Hvol Hci).
  apply NoDup_app in Hnd as (_ & Hnot & _). assert (Hnc : ∀ c', c' ∈ done → 2 ≤ c' ∧ c ≠ c').
  { intros c' Hc'. rewrite Forall_forall in Hfd. split; [by apply Hfd|]. intros <-. apply (Hnot c Hc'). set_solver. }
  assert (Hsp : ∀ x, splice bs1 (Z.to_nat (cluster_at bpb c)) part !! x =
    if decide (Z.to_nat (cluster_at bpb c) ≤ x < Z.to_nat (cluster_at bpb c) + length part)%nat then part !! (x - Z.to_nat (cluster_at bpb c))%nat else bs1 !! x)
    by (intros x; apply lookup_splice; unfold len in *; lia).
  split_and!.
  - rewrite length_splice; unfold len in *; lia.
  - intros j c' Hj. apply list_eq. intros k. apply lookup_app_Some in Hj as [Hj|[Hge Hj]].
    + destruct (Hnc c') as [Hc'2 Hne]; [by eapply list_elem_of_lookup_2|]. rewrite <- (Hcl j c' Hj), !cluster_lookup by done.
      pose proof (cluster_apart c c' Hc2 Hc'2 Hne). pose proof (cluster_at_nonneg _ _ _ _ Hvol Hc'2). destruct (decide _); [|done].
      rewrite Hsp, decide_False; [done|]. unfold len in *. lia.
    + apply list_lookup_singleton_Some in Hj as [Hj <-]. replace (Z.of_nat j) with (len done) by (unfold len; lia). rewrite <- Hpart.
      rewrite lookup_splice by (unfold len in *; lia). rewrite !cluster_lookup, Hsp by done. unfold len in *.
      destruct (decide (0 ≤ k < 0 + length part)%nat) as [Hk|Hk].
      * rewrite decide_True, decide_True by lia. f_equal. lia.
      * destruct (decide (Z.of_nat k < csz)); [|done]. rewrite decide_False by lia. apply Hout. intros c'' Hc''.
        destruct (Hnc c'' Hc'') as [Hc2' Hne]. pose proof (cluster_apart c c'' Hc2 Hc2' Hne). lia.
  - intros x Hx. rewrite Hsp, decide_False; [apply Hout; intros c' Hc'; apply Hx; set_solver|]. specialize (Hx c ltac:(set_solver)). unfold len in *. lia.
Qed.
Lemma write_cluster_part bs1 c part k d : io_ok d → bytes d = bs1 → length bs1 = length bs → cluster_inside bs bpb c → len part = k * 512 → 0 ≤ k →
  ∀ o, 0 ≤ o → o * 512 + len part ≤ csz →
  ∃ d', write_unwrap part (cluster_at bpb c + o * 512) k d = Ok (tt, d') ∧ io_ok d' ∧ bytes d' = splice bs1 (Z.to_nat (cluster_at bpb c + o * 512)) part.
Proof.
  intros Hd <- Hl [Hc2 Hce] Hp Hk o Ho Hle. pose proof (cluster_at_nonneg _ _ _ _ Hvol Hc2).
  apply (write_sectors_run bytes io_ok); try done; [|lia|unfold len in *; lia]. rewrite Z.mod_add by lia. apply cluster_at_aligned.
Qed.
(** The cluster after [done]: where it is, and how much is left to write. *)
Record at_cluster (done : list Z) (c : Z) (r : list Z) : Prop := {
  ac_inside : Forall (cluster_inside bs bpb) (done ++ [c]);
  ac_nodup : NoDup (done ++ [c]);
  ac_cluster : 2 ≤ c < n;
  ac_first : len done * csz < len buf;
  ac_more : r = [] ∨ (len done + 1) * csz ≤ len buf;
  ac_sectors : len buf ≤ total * 512 < len buf + 512;
  ac_spc : 0 < spc < 2 ^ 8;
}.
Lemma at_cluster_of done c r : c0 :: rest0 = done ++ c :: r → at_cluster done c r.
Proof.
  intros Hall. assert (Hlr : len done + len r = len rest0).
  { apply (f_equal length) in Hall. rewrite length_app in Hall. cbn [length] in Hall. unfold len. lia. }
  pose proof (vo_spc _ _ _ Hvol) as Hspc. pose proof (len_nonneg done). pose proof (len_nonneg r). assert (Hcs : 0 < csz) by (unfold cluster_size; lia).
  split; [..|done].
  - rewrite Hall, Forall_app, Forall_cons in Hin. apply Forall_app. split; [tauto|]. constructor; [tauto|done].
  - pose proof (fat_chain_NoDup _ _ _ _ _ (proj2 (fa_entries _ _ _ (vo_table _ _ _ Hvol))) Hch0) as Hn. rewrite Hall in Hn.
    change (c :: r) with ([c] ++ r) in Hn. rewrite app_assoc in Hn. by apply NoDup_app in Hn as (? & _).
  - rewrite Hall, Forall_app, Forall_cons in Hin. destruct Hin as (_ & [Hc _] & _). split; [done|].
    apply (fat_chain_head bs (BPB_fat1 bpb) n c r), (fat_chain_suffix _ _ _ _ _ _ _ Hch0). by exists done.
  - nia.
  - destruct r as [|c1 r]; [by left|right]. assert (1 ≤ len (c1 :: r)) by (unfold len; cbn; lia). nia.
  - apply needed_bounds, len_nonneg.
Qed.
Lemma write_inv_step done c r v v' d' bs1 :
  c0 :: rest0 = done ++ c :: r → only_written done bs1 → io_ok d' → len (wv_buf v') = 512 →
  bytes d' = splice bs1 (Z.to_nat (cluster_at bpb c)) (part_written bpb buf (len done)) → sectors_written bpb (len buf) (len done) * 512 ≤ csz →
  len done * csz + sectors_written bpb (len buf) (len done) * 512 ≤ len buf + 512 → 0 ≤ sectors_written bpb (len buf) (len done) →
  (r ≠ [] → wv_w v' = wv_w v + spc ∧ wv_count v' = wv_count v - spc) → wv_w v = len done * spc → wv_count v = total - len done * spc →
  write_inv r v' d'.
Proof.
  intros Hall Hw Hd' Hvb Hb Hle Hle2 H0 Hr Hvw Hvc. destruct (at_cluster_of _ _ _ Hall) as [Hf Hnd _ Hfirst _ _ Hspc]. pose proof (len_nonneg done).
  split_and!; [done|done|]. exists (done ++ [c]). split_and!.
  - by rewrite <- app_assoc.
  - rewrite Hb. apply written_step; try done. unfold part_written. rewrite len_subl; [lia| |].
    + unfold cluster_size. lia.
    + unfold len in *. rewrite length_app, length_replicate. lia.
  - intros Hne. destruct (Hr Hne) as [-> ->]. unfold len in *. rewrite length_app. cbn. lia.
Qed.
Lemma subl_pad a b : 0 ≤ a ≤ b → b ≤ len buf → subl (buf ++ replicate 512 0) a b = subl buf a b.
Proof.
  intros Ha Hb. unfold subl, len in *. rewrite drop_app_le by lia. apply take_app_le. rewrite length_drop. lia.
Qed.
(** A cluster the data fill. *)
Lemma write_full c r v d f :
  write_inv (c :: r) v d → current_cluster f = c → (wv_w v + spc) * 512 ≤ len buf →
  ∃ v' d', write_cluster file buf v f d = Ok (v', d') ∧ write_inv r v' d'.
Proof.
  intros (Hd & Hvb & done & Hall & Hw & Hv) Hcur Hfull. destruct (Hv ltac:(done)) as [Hvw Hvc]. pose proof Hw as (Hlen & _).
  destruct (at_cluster_of _ _ _ Hall) as [Hf Hnd Hc Hfirst Hmore Hsec Hspc]. pose proof (len_nonneg done). rewrite Hvw in Hfull.
  assert (Hcsz : csz = spc * 512) by done. set (W := len done * spc) in *. assert (HW : W * 512 = len done * csz) by (unfold W; lia).
  assert (HW0 : 0 ≤ W) by (unfold W; nia). unfold write_cluster, ff_spc, sector_per_cluster_usize, udiv, BUFFER_SIZE.
  rewrite Hbpb, Hcur, (BPB_offset_at _ _ _ _ Hvol), Hvw, Hvc by lia. rewrite (proj2 (Z.eqb_neq spc 0)) by lia. unfold bind at 1, lift at 1.
  assert (Hq : 0 < (total - W) / spc) by (apply Z.div_str_pos; lia). rewrite Z.gtb_ltb, (proj2 (Z.ltb_lt _ _) Hq), Z.eqb_refl.
  rewrite !uadd_small, !umul_small by lia. rewrite Z.gtb_ltb, (proj2 (Z.ltb_ge _ _)) by lia.
  assert (Hsw : sectors_written bpb (len buf) (len done) = spc) by (unfold sectors_written; rewrite (proj2 (Z.leb_le _ _)); [done|lia]).
  set (part := subl buf (W * 512) ((W + spc) * 512)).
  assert (Hp : part = part_written bpb buf (len done)) by (unfold part, part_written; rewrite Hsw, subl_pad by lia; f_equal; lia).
  assert (Hpl : len part = spc * 512) by (unfold part; rewrite len_subl; lia).
  rewrite (bind_run _ _ d part d) by (unfold lift; rewrite (proj2 (slice_Ok _ _ _ part)); [done|split; [lia|done]]).
  destruct (write_cluster_part (bytes d) c part spc d Hd eq_refl Hlen) with (o := 0) as (d' & Hrun & Hd' & Hb); try done; try lia.
  { by apply Forall_app in Hf as [_ [? _]%Forall_cons]. }
  rewrite Z.mul_0_l, Z.add_0_r in Hrun, Hb. rewrite (bind_run _ _ _ _ _ Hrun). eexists _, d'. split; [reflexivity|].
  eapply (write_inv_step done c r v); try done; [by rewrite Hb, Hp|lia..|]. intros _. cbn. rewrite usub_small by lia. by rewrite Hvw, Hvc.
Qed.
(** The last cluster, when all its sectors are needed but not filled. *)
Lemma write_all_needed c r v d f :
  write_inv (c :: r) v d → current_cluster f = c → len buf < (wv_w v + spc) * 512 → wv_count v = spc →
  ∃ v' d', write_cluster file buf v f d = Ok (v', d') ∧ write_inv r v' d'.
Proof.
  intros (Hd & Hvb & done & Hall & Hw & Hv) Hcur Hlast Hcount. destruct (Hv ltac:(done)) as [Hvw Hvc]. pose proof Hw as (Hlen & _).
  destruct (at_cluster_of _ _ _ Hall) as [Hf Hnd Hc Hfirst Hmore Hsec Hspc]. pose proof (len_nonneg done). rewrite Hvw in Hlast.
  assert (Hcsz : csz = spc * 512) by done. set (W := len done * spc) in *. assert (HW : W * 512 = len done * csz) by (unfold W; lia).
  assert (HW0 : 0 ≤ W) by (unfold W; nia). unfold write_cluster, ff_spc, sector_per_cluster_usize, udiv, BUFFER_SIZE.
  rewrite Hbpb, Hcur, (BPB_offset_at _ _ _ _ Hvol), Hvw, Hcount by lia. rewrite (proj2 (Z.eqb_neq spc 0)) by lia. unfold bind at 1, lift at 1.
  rewrite Z.div_same by lia. cbn [Z.gtb Z.compare]. rewrite Z.eqb_refl.
  rewrite !uadd_small, !umul_small by lia. rewrite Z.gtb_ltb, (proj2 (Z.ltb_lt _ _)) by lia.
  assert (Hsw : sectors_written bpb (len buf) (len done) = 1).
  { unfold sectors_written. rewrite (proj2 (Z.leb_gt _ _)) by lia. rewrite (proj2 (Z.eqb_eq _ _)) by lia. done. }
  set (part := part_written bpb buf (len done)).
  assert (Hp : buf_write buf W (wv_buf v) = Ok part).
  { rewrite buf_write_pad by lia. unfold part, part_written. rewrite Hsw. do 2 f_equal; lia. }
  assert (Hpl : len part = 1 * 512) by (unfold part, part_written; rewrite Hsw, len_subl; [lia|lia|unfold len in *; rewrite length_app, length_replicate; lia]).
  rewrite (bind_run _ _ d part d) by (unfold lift; by rewrite Hp).
  destruct (write_cluster_part (bytes d) c part 1 d Hd eq_refl Hlen) with (o := 0) as (d' & Hrun & Hd' & Hb); try done; try lia.
  { by apply Forall_app in Hf as [_ [? _]%Forall_cons]. }
  rewrite Z.mul_0_l, Z.add_0_r in Hrun, Hb. rewrite (bind_run _ _ _ _ _ Hrun). eexists _, d'. split; [reflexivity|].
  eapply (write_inv_step done c r v); try done; [lia..|]. intros Hne. destruct Hmore as [|Hmore]; [done|lia].
Qed.
(** The last cluster, when only some of its sectors are needed. *)
Lemma write_some c r v d f :
  write_inv (c :: r) v d → current_cluster f = c → wv_count v < spc →
  ∃ v' d', write_cluster file buf v f d = Ok (v', d') ∧ write_inv r v' d'.
Proof.
  intros (Hd & Hvb & done & Hall & Hw & Hv) Hcur Hcount. destruct (Hv ltac:(done)) as [Hvw Hvc]. pose proof Hw as (Hlen & _).
  destruct (at_cluster_of _ _ _ Hall) as [Hf Hnd Hc Hfirst Hmore Hsec Hspc]. pose proof (len_nonneg done).
  assert (Hcsz : csz = spc * 512) by done. set (W := len done * spc) in *. assert (HW : W * 512 = len done * csz) by (unfold W; lia).
  assert (HW0 : 0 ≤ W) by (unfold W; nia). set (k := wv_count v) in *. assert (Hk : 0 < k) by lia.
  assert (Hci : cluster_inside bs bpb c) by (by apply Forall_app in Hf as [_ [? _]%Forall_cons]).
  unfold write_cluster, ff_spc, sector_per_cluster_usize, udiv, BUFFER_SIZE. fold k.
  rewrite Hbpb, Hcur, (BPB_offset_at _ _ _ _ Hvol), Hvw by lia. rewrite (proj2 (Z.eqb_neq spc 0)) by lia. unfold bind at 1, lift at 1.
  rewrite Z.div_small by lia. cbn [Z.gtb Z.compare]. rewrite (proj2 (Z.eqb_neq k spc)) by lia.
  pose proof (cluster_at_nonneg _ _ _ _ Hvol (proj1 Hc)). pose proof (fa_small _ _ _ (vo_table _ _ _ Hvol)). destruct Hci as [Hc2 Hce].
  rewrite !usub_small, (umul_small (k - 1)), !uadd_small, !umul_small by lia.
  assert (Hsw : sectors_written bpb (len buf) (len done) = k).
  { unfold sectors_written. rewrite (proj2 (Z.leb_gt _ _)) by lia. rewrite (proj2 (Z.eqb_neq _ _)) by lia. lia. }
  set (p1 := subl buf (W * 512) ((W + (k - 1)) * 512)). assert (Hp1 : len p1 = (k - 1) * 512) by (unfold p1; rewrite len_subl; lia).
  rewrite (bind_run _ _ d p1 d) by (unfold lift; rewrite (proj2 (slice_Ok _ _ _ p1)); [done|split; [lia|done]]).
  destruct (write_cluster_part (bytes d) c p1 (k - 1) d Hd eq_refl Hlen (conj Hc2 Hce)) with (o := 0) as (d1 & Hrun & Hd1 & Hb1); try done; try lia.
  rewrite Z.mul_0_l, Z.add_0_r in Hrun, Hb1. rewrite (bind_run _ _ _ _ _ Hrun).
  set (p2 := subl (buf ++ replicate 512 0) ((W + (k - 1)) * 512) ((W + (k - 1)) * 512 + 512)).
  rewrite (bind_run _ _ d1 p2 d1) by (unfold lift; by rewrite buf_write_pad by lia).
  assert (Hp2 : len p2 = 1 * 512) by (unfold p2; rewrite len_subl; [lia|lia|unfold len in *; rewrite length_app, length_replicate; lia]).
  assert (Hl1 : length (bytes d1) = length bs) by (rewrite Hb1, length_splice; [done|unfold len in *; lia]).
  destruct (write_cluster_part (bytes d1) c p2 1 d1 Hd1 eq_refl Hl1 (conj Hc2 Hce)) with (o := k - 1) as (d' & Hrun2 & Hd' & Hb); try done; try lia.
  rewrite (bind_run _ _ _ _ _ Hrun2). eexists _, d'. split; [reflexivity|].
  assert (Hpart : p1 ++ p2 = part_written bpb buf (len done)).
  { unfold part_written, p1, p2. rewrite Hsw, <- (subl_pad (W * 512)), subl_app by lia. f_equal; lia. }
  eapply (write_inv_step done c r v); try done; [|lia..|].
  - rewrite Hb, Hb1, <- Hpart. replace (Z.to_nat (cluster_at bpb c + (k - 1) * 512)) with (Z.to_nat (cluster_at bpb c) + length p1)%nat by (unfold len in *; lia).
    apply splice_adj. unfold len in *; lia.
  - intros Hne. destruct Hmore as [|Hmore]; [done|lia].
Qed.
Lemma write_cluster_run c r v d f :
  write_inv (c :: r) v d → current_cluster f = c →
  ∃ v' d', write_cluster file buf v f d = Ok (v', d') ∧ write_inv r v' d'.
Proof.
  intros Hinv Hcur. destruct (Z.le_gt_cases ((wv_w v + spc) * 512) (len buf)); [by eapply write_full|].
  destruct (Z.eq_dec (wv_count v) spc); [by eapply write_all_needed|]. eapply write_some; [done|done|].
  destruct Hinv as (_ & _ & done & Hall & _ & Hv). destruct (Hv ltac:(done)) as [Hvw Hvc].
  pose proof (ac_sectors _ _ _ (at_cluster_of _ _ _ Hall)). lia.
Qed.
End write.

(** C37. Writing over a chain of clusters of the right length for the data ends
    and reports no error, and every byte outside the clusters of the chain, the
    table among them, is as it was.  Of each cluster that the data fill all
    sectors are written with the data.  Of the last cluster, if the data do not
    fill it, the sectors that are needed are written, the last padded with
    zeroes; but if all its sectors are needed, only the first one is written and
    the others keep their old bytes: the rest of the data is lost. *)
Theorem FatFile_write_sectors {D} `{BlockIO D} bytes io_ok {HL : BlockIOLaws D bytes io_ok} d bpb n file c rest buf fuel :
  io_ok d → vol_ok (bytes d) bpb n → ff_bpb file = bpb → BPB_fat1 bpb + 4 * n ≤ cluster_at bpb 2 →
  fat_chain (bytes d) (BPB_fat1 bpb) n c rest → Forall (cluster_inside (bytes d) bpb) (c :: rest) →
  len rest * cluster_size bpb < len buf → len buf ≤ (len rest + 1) * cluster_size bpb → len buf < 2 ^ 32 →
  (S (length rest) < fuel)%nat →
  ∃ d', _write fuel file buf (FAT_new c (BPB_fat1 bpb)) d = Ok (tt, d') ∧ io_ok d' ∧ length (bytes d') = length (bytes d) ∧
    (∀ j c', (c :: rest) !! j = Some c' →
      cluster_data (bytes d') bpb c' = splice (cluster_data (bytes d) bpb c') 0 (part_written bpb buf (Z.of_nat j))) ∧
    (∀ x : nat, (∀ c', c' ∈ c :: rest → ¬ (cluster_at bpb c' ≤ Z.of_nat x < cluster_at bpb c' + cluster_size bpb)) →
      bytes d' !! x = bytes d !! x).
Proof.
  intros Hd Hv Hbpb Hlow Hch Hin HL1 HL2 HL3 Hfuel.
  assert (Hin2 : ∀ done cs, c :: rest = done ++ cs → Forall (λ c, 2 ≤ c) done).
  { intros done cs E. rewrite E in Hin. apply Forall_app in Hin as [Hin _]. eapply Forall_impl; [exact Hin|]. by intros ? []. }
  destruct (iterate_chain bytes io_ok (BPB_fat1 bpb) n (write_cluster file buf)
    (write_inv bytes io_ok (bytes d) buf bpb c rest)) with (c := c) (rest := rest)
    (b := mkWriteVars (get_needed_sector (len buf)) 0 (replicate (Z.to_nat BUFFER_SIZE) 0)) (d := d) (f := FAT_new c (BPB_fat1 bpb)) (fuel := fuel)
    as (v & f' & d' & Hrun & (Hd' & _ & done & Hall & (Hl & Hcl & Hout) & _) & _); try done; try reflexivity.
  - intros cs b d1 (? & _ & done & _ & Hw & _). split; [done|]. by eapply vo_table, written_vol.
  - intros c1 r b d1 (_ & _ & done & Hall & Hw & _). eapply written_chain; try done; [by eapply Hin2|].
    eapply fat_chain_suffix; [done|]. by exists done.
  - intros c1 r b d1 f1 Hinv Hcur _ _. by apply (write_cluster_run bytes io_ok (bytes d) buf bpb n file c rest Hv Hbpb Hin Hch Hlow HL1 HL2 HL3 c1 r).
  - intros cs b d1 d2 (? & ? & ?) E ?. split_and!; try done. by rewrite E.
  - split_and!; try done. exists []. split; [done|]. split; [by split_and!|]. intros _. change (len []) with 0.
    by rewrite Z.mul_0_l, Z.sub_0_r.
  - exact Hfuel.
  - rewrite app_nil_r in Hall. subst done. exists d'. split_and!; try done. unfold _write. by rewrite (bind_run _ _ _ _ _ Hrun).
Qed.

(** A volume with clusters of two sectors; the root directory, in cluster 2,
    has one empty file, in cluster 3. *)
Definition wide_bpb : BIOSParameterBlock := mkBPB 512 2 1 1 20 1 2 0 [] [].
Definition wide_item : list Z :=
  sfn_layout (65 :: replicate 7 0x20) (replicate 3 0x20) 0x20 (le32 3) (le32 0).
Definition wide_disk : list Z :=
  replicate 512 0 ++ concat (le32 <$> [0x0FFFFFF8; 0x0FFFFFFF; 0x0FFFFFFF; 0x0FFFFFFF] ++ replicate 124 0) ++
  (wide_item ++ replicate 992 0) ++ replicate 1024 0 ++ replicate 4096 0.
Definition wide_file : FatFile :=
  mkFatFile wide_bpb 2 (mkItem ItemType_File (Some (mkSfn (replicate 8 0x20) (replicate 3 0x20) 0 3)) None) (FAT_new 3 512).
Lemma FatFile_write_sectors_witness :
  ∃ d', _write 3 wide_file (replicate 1000 5) (FAT_new 3 (BPB_fat1 wide_bpb)) wide_disk = Ok (tt, d') ∧ True ∧
    length d' = length wide_disk ∧
    (∀ j c', [3] !! j = Some c' →
      cluster_data d' wide_bpb c' =
        splice (cluster_data wide_disk wide_bpb c') 0 (part_written wide_bpb (replicate 1000 5) (Z.of_nat j))) ∧
    (∀ x : nat, (∀ c', c' ∈ [3] → ¬ (cluster_at wide_bpb c' ≤ Z.of_nat x < cluster_at wide_bpb c' + cluster_size wide_bpb)) →
      d' !! x = wide_disk !! x).
Proof.
  apply (FatFile_write_sectors id (λ _, True) wide_disk wide_bpb 128 wide_file 3 [] (replicate 1000 5) 3).
  - exact Logic.I.
  - split; try (cbn; lia). split; try done; vm_compute; congruence.
  - reflexivity.
  - vm_compute. congruence.
  - vm_compute. repeat split; congruence.
  - repeat constructor; vm_compute; congruence.
  - vm_compute. congruence.
  - vm_compute. congruence.
  - vm_compute. congruence.
  - cbn. lia.
Defined.
(** Of those 1000 bytes the file has 512. *)
Lemma write_lost : part_written wide_bpb (replicate 1000 5) 0 = replicate 512 5.
Proof. vm_compute. reflexivity. Qed.
