(* ===== verification/VirtQueue.v ===== *)
(** * Virtqueues ([virtio-drivers/src/queue.rs], [hal.rs], [header.rs], [lib.rs])

    A virtqueue is a table of descriptors and two rings in memory shared with
    the device: the driver offers chains of descriptors in the available ring
    and takes them back from the used ring.  [VirtQueue_add] takes descriptors
    from a free list threaded through the table, [VirtQueue_pop_used] puts a
    chain back.  The registers of the device are the interface [Mmio], the
    functions the crate declares [extern] the interface [Hal]. *)

From S2P Require Import Prelude PhysMem.

(** ** Constants and errors *)
(** [virtio-drivers/lib.rs:29-29] PAGE_SIZE *)
Definition VIRTIO_PAGE_SIZE : Z := 4096.
(** [virtio-drivers/lib.rs:40-54] Error *)
Inductive VirtioError : Type :=
| BufferTooSmall
| NotReady
| AlreadyUsed
| InvalidParam
| DmaError
| IoError.
(** [virtio-drivers/lib.rs:57-59] align_up *)
Definition align_up (size : Z) : Z := Z.land (size +u VIRTIO_PAGE_SIZE) (Z.lnot (VIRTIO_PAGE_SIZE - 1)).
(** [virtio-drivers/lib.rs:62-64] pages *)
Definition pages (size : Z) : Z := (size +u VIRTIO_PAGE_SIZE -u 1) / VIRTIO_PAGE_SIZE.

(** [u16::is_power_of_two]. *)
Definition is_power_of_two (n : Z) : bool := (0 <? n) && (Z.land n (n - 1) =? 0).

(** ** The registers of the device *)
(** The device side of the registers: what a read gives, and what reads and
    writes do to the device.  Offsets are in bytes. *)
Class Mmio (H : Type) : Type := {
  mmio_read : Z → H → Z * H;
  mmio_write : Z → Z → H → H;
}.

Module Reg.
(** [virtio-drivers/header.rs:9-146] VirtIOHeader. The fields and the number of
    32-bit words of each. *)
Inductive VirtIOHeader_field : Type :=
| magic | version | device_id | vendor_id | device_features | device_features_sel | __r1
| driver_features | driver_features_sel | guest_page_size | __r2 | queue_sel | queue_num_max
| queue_num | queue_align | queue_pfn | queue_ready | __r3 | queue_notify | __r4
| interrupt_status | interrupt_ack | __r5 | status | __r6 | queue_desc_low | queue_desc_high
| __r7 | queue_avail_low | queue_avail_high | __r8 | queue_used_low | queue_used_high | __r9
| config_generation.
End Reg.
#[export] Instance VirtIOHeader_field_eq_dec : EqDecision Reg.VirtIOHeader_field.
Proof. solve_decision. Defined.
(** The struct is [repr(C)]: its fields are laid out in this order. *)
Definition VirtIOHeader_layout : list (Reg.VirtIOHeader_field * Z) :=
  [(Reg.magic, 1); (Reg.version, 1); (Reg.device_id, 1); (Reg.vendor_id, 1); (Reg.device_features, 1);
   (Reg.device_features_sel, 1); (Reg.__r1, 2); (Reg.driver_features, 1); (Reg.driver_features_sel, 1);
   (Reg.guest_page_size, 1); (Reg.__r2, 1); (Reg.queue_sel, 1); (Reg.queue_num_max, 1); (Reg.queue_num, 1);
   (Reg.queue_align, 1); (Reg.queue_pfn, 1); (Reg.queue_ready, 1); (Reg.__r3, 2); (Reg.queue_notify, 1); (Reg.__r4, 3);
   (Reg.interrupt_status, 1); (Reg.interrupt_ack, 1); (Reg.__r5, 2); (Reg.status, 1); (Reg.__r6, 3);
   (Reg.queue_desc_low, 1); (Reg.queue_desc_high, 1); (Reg.__r7, 2); (Reg.queue_avail_low, 1);
   (Reg.queue_avail_high, 1); (Reg.__r8, 2); (Reg.queue_used_low, 1); (Reg.queue_used_high, 1); (Reg.__r9, 21);
   (Reg.config_generation, 1)].
Fixpoint field_offset (l : list (Reg.VirtIOHeader_field * Z)) (f : Reg.VirtIOHeader_field) (at_ : Z) : Z :=
  match l with
  | [] => at_
  | (g, words) :: l => if decide (g = f) then at_ else field_offset l f (at_ + 4 * words)
  end.
Definition offset_of (f : Reg.VirtIOHeader_field) : Z := field_offset VirtIOHeader_layout f 0.

(** [virtio-drivers/header.rs:251-275] DeviceStatus *)
Inductive DeviceStatus : Type :=
| ACKNOWLEDGE | DRIVER | FAILED | FEATURES_OK | DRIVER_OK | DEVICE_NEEDS_RESET.
Definition DeviceStatus_bits (s : DeviceStatus) : Z :=
  match s with
  | ACKNOWLEDGE => 1 | DRIVER => 2 | FAILED => 128
  | FEATURES_OK => 8 | DRIVER_OK => 4 | DEVICE_NEEDS_RESET => 64
  end.
(** [virtio-drivers/header.rs:278-278] CONFIG_SPACE_OFFSET *)
Definition CONFIG_SPACE_OFFSET : Z := 256.

Module DeviceType.
(** [virtio-drivers/header.rs:280-308] DeviceType *)
Inductive DeviceType : Type :=
| Invalid | Network | Block | Console | EntropySource | MemoryBallooning | IoMemory | Rpmsg
| ScsiHost | _9P | Mac80211 | RprocSerial | VirtioCAIF | MemoryBalloon | GPU | Timer | Input
| Socket | Crypto | SignalDistributionModule | Pstore | IOMMU | Memory.
End DeviceType.
(** The discriminants. *)
Definition DeviceType_discriminant (t : DeviceType.DeviceType) : Z :=
  match t with
  | DeviceType.Invalid => 0 | DeviceType.Network => 1 | DeviceType.Block => 2 | DeviceType.Console => 3 | DeviceType.EntropySource => 4
  | DeviceType.MemoryBallooning => 5 | DeviceType.IoMemory => 6 | DeviceType.Rpmsg => 7 | DeviceType.ScsiHost => 8 | DeviceType._9P => 9
  | DeviceType.Mac80211 => 10 | DeviceType.RprocSerial => 11 | DeviceType.VirtioCAIF => 12 | DeviceType.MemoryBalloon => 13 | DeviceType.GPU => 16
  | DeviceType.Timer => 17 | DeviceType.Input => 18 | DeviceType.Socket => 19 | DeviceType.Crypto => 20 | DeviceType.SignalDistributionModule => 21
  | DeviceType.Pstore => 22 | DeviceType.IOMMU => 23 | DeviceType.Memory => 24
  end.
Definition DeviceType_all : list DeviceType.DeviceType :=
  [DeviceType.Invalid; DeviceType.Network; DeviceType.Block; DeviceType.Console; DeviceType.EntropySource; DeviceType.MemoryBallooning; DeviceType.IoMemory; DeviceType.Rpmsg; DeviceType.ScsiHost;
   DeviceType._9P; DeviceType.Mac80211; DeviceType.RprocSerial; DeviceType.VirtioCAIF; DeviceType.MemoryBalloon; DeviceType.GPU; DeviceType.Timer; DeviceType.Input; DeviceType.Socket; DeviceType.Crypto;
   DeviceType.SignalDistributionModule; DeviceType.Pstore; DeviceType.IOMMU; DeviceType.Memory].
(** [transmute] of a byte: the variant with that discriminant; undefined
    behaviour when there is none. *)
Definition transmute_DeviceType (x : Z) : option DeviceType.DeviceType :=
  list_find (λ t, DeviceType_discriminant t = x) DeviceType_all ≫= λ p, Some p.2.

Section header.
Context {H : Type} `{Mmio H}.

Definition read_reg (f : Reg.VirtIOHeader_field) : M H Z := λ h, Ok (mmio_read (offset_of f) h).
Definition write_reg (f : Reg.VirtIOHeader_field) (v : Z) : M H unit := λ h, Ok (tt, mmio_write (offset_of f) v h).

(** [virtio-drivers/header.rs:150-152] VirtIOHeader::verify *)
Definition VirtIOHeader_verify : M H bool :=
  let* m := read_reg Reg.magic in
  if negb (m =? 0x74726976) then ret false else
  let* v := read_reg Reg.version in
  if negb (v =? 1) then ret false else
  let* i := read_reg Reg.device_id in
  ret (negb (i =? 0)).
(** [virtio-drivers/header.rs:155-160] VirtIOHeader::device_type *)
Definition VirtIOHeader_device_type : M H (option DeviceType.DeviceType) :=
  let* x := read_reg Reg.device_id in
  ret (if ((1 <=? x) && (x <=? 13)) || ((16 <=? x) && (x <=? 24)) then transmute_DeviceType (wrap8 x)
       else Some DeviceType.Invalid).
(** [virtio-drivers/header.rs:163-165] VirtIOHeader::vendor_id *)
Definition VirtIOHeader_vendor_id : M H Z := read_reg Reg.vendor_id.
(** [virtio-drivers/header.rs:187-193] VirtIOHeader::read_device_features *)
Definition VirtIOHeader_read_device_features : M H Z :=
  write_reg Reg.device_features_sel 0 ;;
  let* device_features_bits := read_reg Reg.device_features in
  write_reg Reg.device_features_sel 1 ;;
  let* hi := read_reg Reg.device_features in
  ret (device_features_bits +u wrap64 (Z.shiftl hi 32)).
(** [virtio-drivers/header.rs:196-201] VirtIOHeader::write_driver_features *)
Definition VirtIOHeader_write_driver_features (features : Z) : M H unit :=
  write_reg Reg.driver_features_sel 0 ;;
  write_reg Reg.driver_features (wrap32 features) ;;
  write_reg Reg.driver_features_sel 1 ;;
  write_reg Reg.driver_features (wrap32 (Z.shiftr features 32)).
(** [virtio-drivers/header.rs:170-179] VirtIOHeader::begin_init *)
Definition VirtIOHeader_begin_init (negotiate_features : Z → Z) : M H unit :=
  write_reg Reg.status (DeviceStatus_bits ACKNOWLEDGE) ;;
  write_reg Reg.status (DeviceStatus_bits DRIVER) ;;
  let* features := VirtIOHeader_read_device_features in
  VirtIOHeader_write_driver_features (negotiate_features features) ;;
  write_reg Reg.status (DeviceStatus_bits FEATURES_OK) ;;
  write_reg Reg.guest_page_size VIRTIO_PAGE_SIZE.
(** [virtio-drivers/header.rs:182-184] VirtIOHeader::finish_init *)
Definition VirtIOHeader_finish_init : M H unit := write_reg Reg.status (DeviceStatus_bits DRIVER_OK).
(** [virtio-drivers/header.rs:204-209] VirtIOHeader::queue_set *)
Definition VirtIOHeader_queue_set (queue size align pfn : Z) : M H unit :=
  write_reg Reg.queue_sel queue ;;
  write_reg Reg.queue_num size ;;
  write_reg Reg.queue_align align ;;
  write_reg Reg.queue_pfn pfn.
(** [virtio-drivers/header.rs:212-215] VirtIOHeader::queue_physical_page_number *)
Definition VirtIOHeader_queue_physical_page_number (queue : Z) : M H Z :=
  write_reg Reg.queue_sel queue ;;
  read_reg Reg.queue_pfn.
(** [virtio-drivers/header.rs:218-220] VirtIOHeader::queue_used *)
Definition VirtIOHeader_queue_used (queue : Z) : M H bool :=
  let* pfn := VirtIOHeader_queue_physical_page_number queue in
  ret (negb (pfn =? 0)).
(** [virtio-drivers/header.rs:223-225] VirtIOHeader::max_queue_size *)
Definition VirtIOHeader_max_queue_size : M H Z := read_reg Reg.queue_num_max.
(** [virtio-drivers/header.rs:228-230] VirtIOHeader::notify *)
Definition VirtIOHeader_notify (queue : Z) : M H unit := write_reg Reg.queue_notify queue.
(** [virtio-drivers/header.rs:233-241] VirtIOHeader::ack_interrupt *)
Definition VirtIOHeader_ack_interrupt : M H bool :=
  let* interrupt := read_reg Reg.interrupt_status in
  if negb (interrupt =? 0) then write_reg Reg.interrupt_ack interrupt ;; ret true else ret false.
(** [virtio-drivers/header.rs:244-246] VirtIOHeader::config_space. Relative to
    the header. *)
Definition VirtIOHeader_config_space : Z := CONFIG_SPACE_OFFSET.
End header.

(** ** Memory for the device *)
(** The [extern] functions of the crate, and the byte at a virtual address,
    which is what the crate's casts of addresses to references read. *)
Class Hal (H : Type) : Type := {
  hal_dma_alloc : Z → M H Z;
  hal_dma_dealloc : Z → Z → M H Z;
  hal_phys_to_virt : H → Z → outcome Z;
  hal_virt_to_phys : H → Z → outcome Z;
  hal_load : H → Z → Z;
}.

(** [virtio-drivers/hal.rs:6-9] DMA *)
Record DMA : Type := mkDMA { dma_paddr : Z; dma_pages : Z }.

Section hal.
Context {H : Type} `{Hal H}.

(** [virtio-drivers/hal.rs:12-21] DMA::new *)
Definition DMA_new (pages : Z) : M H (Result DMA VirtioError) :=
  let* paddr := hal_dma_alloc pages in
  if paddr =? 0 then ret (err DmaError) else ret (ok (mkDMA (wrap32 paddr) (wrap32 pages))).
(** [virtio-drivers/hal.rs:49-51] phys_to_virt *)
Definition phys_to_virt (paddr : Z) : M H Z := λ h, lift (hal_phys_to_virt h paddr) h.
(** [virtio-drivers/hal.rs:53-55] virt_to_phys *)
Definition virt_to_phys (vaddr : Z) : M H Z := λ h, lift (hal_virt_to_phys h vaddr) h.
(** [virtio-drivers/hal.rs:27-29] DMA::vaddr *)
Definition DMA_vaddr (d : DMA) : M H Z := phys_to_virt (dma_paddr d).
(** [virtio-drivers/hal.rs:32-34] DMA::pfn *)
Definition DMA_pfn (d : DMA) : Z := Z.shiftr (dma_paddr d) 12.
(** [virtio-drivers/hal.rs:37-39] DMA::as_buf. The address and the length of the
    buffer. *)
Definition DMA_as_buf (d : DMA) : M H (Z * Z) :=
  let* va := DMA_vaddr d in
  ret (va, VIRTIO_PAGE_SIZE *u dma_pages d).
(** [virtio-drivers/hal.rs:42-47] Drop for DMA *)
Definition DMA_drop (d : DMA) : M H unit :=
  let* e := hal_dma_dealloc (dma_paddr d) (dma_pages d) in
  lift (assert_ (e =? 0)).

(** The little-endian number of [n] bytes at a virtual address. *)
Definition hal_num (h : H) (va : Z) (n : nat) : Z :=
  little_endian_to_Z 8 ((λ i, hal_load h (va + Z.of_nat i)) <$> seq 0 n).
End hal.

(** ** The queue *)
(** [virtio-drivers/queue.rs:209-214] Descriptor *)
Record Descriptor : Type := mkDescriptor { d_addr : Z; d_len : Z; d_flags : Z; d_next : Z }.
(** [virtio-drivers/queue.rs:226-226] DescFlags::NEXT *)
Definition DescFlags_NEXT : Z := 1.
(** [virtio-drivers/queue.rs:227-227] DescFlags::WRITE *)
Definition DescFlags_WRITE : Z := 2.
(** [virtio-drivers/queue.rs:228-228] DescFlags::INDIRECT *)
Definition DescFlags_INDIRECT : Z := 4.
(** [virtio-drivers/queue.rs:237-243] AvailRing *)
Record AvailRing : Type := mkAvail { av_flags : Z; av_idx : Z; av_ring : list Z; av_used_event : Z }.
(** [virtio-drivers/queue.rs:258-261] UsedElem *)
Record UsedElem : Type := mkUsedElem { ue_id : Z; ue_len : Z }.
(** [virtio-drivers/queue.rs:249-254] UsedRing *)
Record UsedRing : Type := mkUsed { us_flags : Z; us_idx : Z; us_ring : list UsedElem; us_avail_event : Z }.
(** [virtio-drivers/queue.rs:14-35] VirtQueue *)
Record VirtQueue : Type := mkVirtQueue {
  vq_dma : DMA;
  vq_desc : list Descriptor;
  vq_avail : AvailRing;
  vq_used : UsedRing;
  queue_idx : Z;
  queue_size : Z;
  num_used : Z;
  free_head : Z;
  avail_idx : Z;
  last_used_idx : Z;
}.

(** [virtio-drivers/queue.rs:183-187] VirtQueueLayout *)
Record VirtQueueLayout : Type := mkLayout { avail_offset : Z; used_offset : Z; layout_size : Z }.
(** [virtio-drivers/queue.rs:190-204] VirtQueueLayout::new. [size_of] is 16 for
    [Descriptor], 2 for [u16] and 8 for [UsedElem]. *)
Definition VirtQueueLayout_new (queue_size : Z) : outcome VirtQueueLayout :=
  let! _ := assert_ (is_power_of_two queue_size) in
  let desc := 16 *u queue_size in
  let avail := 2 *u (3 +u queue_size) in
  let used := 2 *u 3 +u 8 *u queue_size in
  Ok (mkLayout desc (align_up (desc +u avail)) (align_up (desc +u avail) +u align_up used)).

(** The structures the crate finds at an address: the casts of
    [VirtQueue::new]. *)
Section casts.
Context {H : Type} `{Hal H}.
Definition cast_Descriptor (h : H) (va : Z) : Descriptor :=
  mkDescriptor (hal_num h va 8) (hal_num h (va + 8) 4) (hal_num h (va + 12) 2) (hal_num h (va + 14) 2).
Definition cast_AvailRing (h : H) (va : Z) : AvailRing :=
  mkAvail (hal_num h va 2) (hal_num h (va + 2) 2)
    ((λ i, hal_num h (va + 4 + 2 * Z.of_nat i) 2) <$> seq 0 32) (hal_num h (va + 68) 2).
Definition cast_UsedElem (h : H) (va : Z) : UsedElem := mkUsedElem (hal_num h va 4) (hal_num h (va + 4) 4).
Definition cast_UsedRing (h : H) (va : Z) : UsedRing :=
  mkUsed (hal_num h va 2) (hal_num h (va + 2) 2)
    ((λ i, cast_UsedElem h (va + 4 + 8 * Z.of_nat i)) <$> seq 0 32) (hal_num h (va + 260) 2).

(** [virtio-drivers/queue.rs:58-60] VirtQueue::new. The loop over the
    descriptors from [i] on. *)
Fixpoint link_descriptors (n : nat) (i : Z) (desc : list Descriptor) : outcome (list Descriptor) :=
  match n with
  | O => Ok desc
  | S n =>
      let! d := idx desc i in
      let! desc := set_idx desc i (mkDescriptor (d_addr d) (d_len d) (d_flags d) (wrap16 (i + 1))) in
      link_descriptors n (i + 1) desc
  end.
(** [virtio-drivers/queue.rs:39-74] VirtQueue::new *)
Definition VirtQueue_new `{Mmio H} (qidx size : Z) : M H (Result VirtQueue VirtioError) :=
  let* used := VirtIOHeader_queue_used (wrap32 qidx) in
  if used then ret (err AlreadyUsed) else
  if negb (is_power_of_two size) then ret (err InvalidParam) else
  let* max := VirtIOHeader_max_queue_size in
  if max <? size then ret (err InvalidParam) else
  let* layout := lift (VirtQueueLayout_new size) in
  let* dma := DMA_new (layout_size layout / VIRTIO_PAGE_SIZE) in
  match dma with
  | err e => ret (err e)
  | ok dma =>
      VirtIOHeader_queue_set (wrap32 qidx) size VIRTIO_PAGE_SIZE (DMA_pfn dma) ;;
      let* va := DMA_vaddr dma in
      let* h := get in
      let desc := (λ i, cast_Descriptor h (va + 16 * Z.of_nat i)) <$> seq 0 (Z.to_nat size) in
      let avail := cast_AvailRing h (va +u avail_offset layout) in
      let used := cast_UsedRing h (va +u used_offset layout) in
      let* desc := lift (link_descriptors (Z.to_nat (wrap16 (size - 1))) 0 desc) in
      ret (ok (mkVirtQueue dma desc avail used (wrap32 qidx) size 0 0 0 0))
  end.
End casts.

(** A slice of bytes: its address and its length. *)
Record buf : Type := mkBuf { b_ptr : Z; b_len : Z }.

Definition q_set_desc ds q := mkVirtQueue (vq_dma q) ds (vq_avail q) (vq_used q) (queue_idx q)
  (queue_size q) (num_used q) (free_head q) (avail_idx q) (last_used_idx q).
Definition q_set_used u q := mkVirtQueue (vq_dma q) (vq_desc q) (vq_avail q) u (queue_idx q)
  (queue_size q) (num_used q) (free_head q) (avail_idx q) (last_used_idx q).
Definition q_set_num_used n q := mkVirtQueue (vq_dma q) (vq_desc q) (vq_avail q) (vq_used q) (queue_idx q)
  (queue_size q) n (free_head q) (avail_idx q) (last_used_idx q).
Definition q_set_free_head n q := mkVirtQueue (vq_dma q) (vq_desc q) (vq_avail q) (vq_used q) (queue_idx q)
  (queue_size q) (num_used q) n (avail_idx q) (last_used_idx q).
Definition q_set_avail a i q := mkVirtQueue (vq_dma q) (vq_desc q) a (vq_used q) (queue_idx q)
  (queue_size q) (num_used q) (free_head q) i (last_used_idx q).
Definition q_set_last_used n q := mkVirtQueue (vq_dma q) (vq_desc q) (vq_avail q) (vq_used q) (queue_idx q)
  (queue_size q) (num_used q) (free_head q) (avail_idx q) n.

Section queue.
(** [virt_to_phys] at the time of the call. *)
Context (v2p : Z → outcome Z).

(** [virtio-drivers/queue.rs:217-220] Descriptor::set_buf *)
Definition Descriptor_set_buf (b : buf) (d : Descriptor) : outcome Descriptor :=
  let! pa := v2p (b_ptr b) in
  Ok (mkDescriptor pa (wrap32 (b_len b)) (d_flags d) (d_next d)).

(** One pass of the loops of [add]: the flags and the buffer of the descriptor;
    the result is [last]. *)
(** [virtio-drivers/queue.rs:91-97] VirtQueue::add. The body of the loops. *)
Definition take_descriptor (last : Z) (fb : Z * buf) : M VirtQueue Z :=
  let* q := get in
  let* d := lift (idx (vq_desc q) (free_head q)) in
  let* d := lift (Descriptor_set_buf fb.2 d) in
  let d := mkDescriptor (d_addr d) (d_len d) fb.1 (d_next d) in
  let* ds := lift (set_idx (vq_desc q) (free_head q) d) in
  put (q_set_free_head (d_next d) (q_set_desc ds q)) ;;
  ret (free_head q).
(** [virtio-drivers/queue.rs:79-123] VirtQueue::add *)
Definition VirtQueue_add (inputs outputs : list buf) : M VirtQueue (Result Z VirtioError) :=
  let* q := get in
  if (len inputs =? 0) && (len outputs =? 0) then ret (err InvalidParam) else
  if queue_size q <? len inputs +u len outputs +u num_used q then ret (err BufferTooSmall) else
  let head := free_head q in
  let* last := fold_m take_descriptor ((λ b, (DescFlags_NEXT, b)) <$> inputs) (free_head q) in
  let* last := fold_m take_descriptor ((λ b, (Z.lor DescFlags_NEXT DescFlags_WRITE, b)) <$> outputs) last in
  let* q := get in
  let* d := lift (idx (vq_desc q) last) in
  let flags := Z.ldiff (d_flags d) DescFlags_NEXT in
  let* ds := lift (set_idx (vq_desc q) last (mkDescriptor (d_addr d) (d_len d) flags (d_next d))) in
  put (q_set_num_used (wrap16 (num_used q + wrap16 (len inputs +u len outputs))) (q_set_desc ds q)) ;;
  let* q := get in
  let avail_slot := Z.land (avail_idx q) (wrap16 (queue_size q - 1)) in
  let* ring := lift (set_idx (av_ring (vq_avail q)) avail_slot head) in
  let avail_idx := wrap16 (avail_idx q + 1) in
  let a := vq_avail q in
  put (q_set_avail (mkAvail (av_flags a) avail_idx ring (av_used_event a)) avail_idx q) ;;
  ret (ok head).
End queue.

(** [virtio-drivers/queue.rs:126-128] VirtQueue::can_pop *)
Definition VirtQueue_can_pop (q : VirtQueue) : bool := negb (last_used_idx q =? us_idx (vq_used q)).
(** [virtio-drivers/queue.rs:131-133] VirtQueue::available_desc *)
Definition VirtQueue_available_desc (q : VirtQueue) : Z := wrap16 (queue_size q - num_used q).
(** [virtio-drivers/queue.rs:141-151] VirtQueue::recycle_descriptors. The loop;
    it visits a descriptor twice only if it never ends. *)
Fixpoint recycle_loop (fuel : nat) (origin_free_head head : Z) : M VirtQueue unit :=
  match fuel with
  | O => throw Fuel
  | S fuel =>
      let* q := get in
      let* d := lift (idx (vq_desc q) head) in
      let q := q_set_num_used (wrap16 (num_used q - 1)) q in
      if Z.testbit (d_flags d) 0 then put q ;; recycle_loop fuel origin_free_head (d_next d)
      else
        let* ds := lift (set_idx (vq_desc q) head (mkDescriptor (d_addr d) (d_len d) (d_flags d) origin_free_head)) in
        put (q_set_desc ds q)
  end.
(** [virtio-drivers/queue.rs:138-152] VirtQueue::recycle_descriptors *)
Definition VirtQueue_recycle_descriptors (head : Z) : M VirtQueue unit :=
  let* q := get in
  put (q_set_free_head head q) ;;
  recycle_loop (S (length (vq_desc q))) (free_head q) head.
(** [virtio-drivers/queue.rs:157-172] VirtQueue::pop_used *)
Definition VirtQueue_pop_used : M VirtQueue (Result (Z * Z) VirtioError) :=
  let* q := get in
  if negb (VirtQueue_can_pop q) then ret (err NotReady) else
  let last_used_slot := Z.land (last_used_idx q) (wrap16 (queue_size q - 1)) in
  let* e := lift (idx (us_ring (vq_used q)) last_used_slot) in
  let index := wrap16 (ue_id e) in
  let len := ue_len e in
  VirtQueue_recycle_descriptors index ;;
  modify (λ q, q_set_last_used (wrap16 (last_used_idx q + 1)) q) ;;
  ret (ok (index, len)).
(** [virtio-drivers/queue.rs:175-177] VirtQueue::size *)
Definition VirtQueue_size (q : VirtQueue) : Z := queue_size q.

(** ** The free list and the chains *)
#[local] Arguments Z.testbit : simpl never.
(** The descriptors [l] are linked from [h] on. *)
Fixpoint linked (ds : list Descriptor) (h : Z) (l : list Z) : Prop :=
  match l with
  | [] => True
  | i :: l => h = i ∧ ∃ d, ds !! Z.to_nat i = Some d ∧ linked ds (d_next d) l
  end.
(** The chain a device follows from [h] on: the descriptors up to the first
    without [NEXT]. *)
Fixpoint chain_at (fuel : nat) (ds : list Descriptor) (h : Z) : option (list (Z * Descriptor)) :=
  match fuel with
  | O => None
  | S fuel =>
      d ← ds !! Z.to_nat h;
      if Z.testbit (d_flags d) 0 then rest ← chain_at fuel ds (d_next d); Some ((h, d) :: rest)
      else Some [(h, d)]
  end.
(** The descriptors [l] form such a chain. *)
Fixpoint chained (ds : list Descriptor) (h : Z) (l : list (Z * Descriptor)) : Prop :=
  match l with
  | [] => False
  | (i, d) :: l =>
      h = i ∧ ds !! Z.to_nat i = Some d ∧
      match l with
      | [] => Z.testbit (d_flags d) 0 = false
      | _ => Z.testbit (d_flags d) 0 = true ∧ chained ds (d_next d) l
      end
  end.
Definition chain_head (l : list (Z * Descriptor)) : Z := default 0 (head l.*1).

(** The queue with free list [free] and the chains [out] at the device: every
    descriptor is in exactly one of them. *)
Record vq_rep (q : VirtQueue) (free : list Z) (out : list (list (Z * Descriptor))) : Prop := {
  rep_size : ∃ k, 0 ≤ k ≤ 5 ∧ queue_size q = 2 ^ k;
  rep_desc : len (vq_desc q) = queue_size q;
  rep_rings : len (av_ring (vq_avail q)) = 32 ∧ len (us_ring (vq_used q)) = 32;
  rep_all : free ++ (concat out).*1 ≡ₚ seqZ 0 (queue_size q);
  rep_free : linked (vq_desc q) (free_head q) free;
  rep_out : Forall (λ l, chained (vq_desc q) (chain_head l) l) out;
  rep_num : num_used q = len (concat out);
  rep_avail : av_idx (vq_avail q) = avail_idx q ∧ 0 ≤ avail_idx q < 2 ^ 16;
  rep_used : 0 ≤ last_used_idx q < 2 ^ 16;
}.

Lemma chain_at_chained ds h l fuel :
  chained ds h l → (length l ≤ fuel)%nat → chain_at fuel ds h = Some l.
Proof.
  revert h fuel. induction l as [|[i d] l IH]; intros h fuel Hc Hf; [done|].
  destruct fuel as [|fuel]; cbn in Hf; [lia|]. destruct Hc as (-> & Hd & Hc). cbn. rewrite Hd. cbn.
  destruct l as [|p l]; [by rewrite Hc|]. destruct Hc as [-> Hc]. rewrite (IH _ fuel Hc) by (cbn in *; lia). done.
Qed.
Lemma linked_ext ds ds' h l :
  (∀ i, i ∈ l → ds' !! Z.to_nat i = ds !! Z.to_nat i) → linked ds h l → linked ds' h l.
Proof.
  revert h. induction l as [|i l IH]; intros h Hds; [done|]. cbn. intros (-> & d & Hd & Hl). split; [done|].
  exists d. rewrite Hds by set_solver. split; [done|]. apply IH; [set_solver|done].
Qed.
Lemma chained_ext ds ds' h l :
  (∀ i, i ∈ l.*1 → ds' !! Z.to_nat i = ds !! Z.to_nat i) → chained ds h l → chained ds' h l.
Proof.
  revert h. induction l as [|[i d] l IH]; intros h Hds; [done|]. cbn. intros (-> & Hd & Hl). split; [done|].
  rewrite Hds by (cbn; set_solver). split; [done|]. destruct l as [|p l]; [done|]. destruct Hl as [-> Hl]. split; [done|].
  apply IH; [|done]. intros j Hj. apply Hds. cbn in *. set_solver.
Qed.
Lemma chained_nonempty ds h l : chained ds h l → chain_head l = h ∧ l ≠ [].
Proof. destruct l as [|[i d] l]; [done|]. intros (-> & _). done. Qed.

(** ** Adding buffers *)
(** The descriptors [l] hold the buffers of [fbs], in their order, and each
    points to the next. *)
Fixpoint filled (ds : list Descriptor) (l : list Z) (fbs : list (Z * Z * Z)) : Prop :=
  match l, fbs with
  | [], [] => True
  | i :: l, (flags, pa, n) :: fbs =>
      (∃ d, ds !! Z.to_nat i = Some d ∧ d_addr d = pa ∧ d_len d = n ∧ d_flags d = flags ∧
         match l with [] => True | j :: _ => d_next d = j end) ∧
      filled ds l fbs
  | _, _ => False
  end.
Lemma filled_ext ds ds' l fbs :
  (∀ i, i ∈ l → ds' !! Z.to_nat i = ds !! Z.to_nat i) → filled ds l fbs → filled ds' l fbs.
Proof.
  revert fbs. induction l as [|i l IH]; intros [|[[f pa] n] fbs] Hds; try done. cbn. intros [(d & Hd & Hr) Hl].
  split; [|apply IH; [set_solver|done]]. exists d. rewrite Hds by set_solver. done.
Qed.
Lemma Z_to_nat_ne (i j : Z) : i ≠ j → 0 ≤ i → 0 ≤ j → Z.to_nat i ≠ Z.to_nat j.
Proof. lia. Qed.

(** What the passes of [add] write for the buffers [fbs]. *)
Definition phys_of (v2p : Z → outcome Z) (fb : Z * buf) (p : Z * Z * Z) : Prop :=
  v2p (b_ptr fb.2) = Ok p.1.2 ∧ p.1.1 = fb.1 ∧ p.2 = wrap32 (b_len fb.2).

Lemma take_descriptor_run v2p last fb p q i l d :
  phys_of v2p fb p → free_head q = i → 0 ≤ i → vq_desc q !! Z.to_nat i = Some d →
  take_descriptor v2p last fb q =
    Ok (i, q_set_free_head (d_next d)
      (q_set_desc (<[Z.to_nat i := mkDescriptor p.1.2 p.2 p.1.1 (d_next d)]> (vq_desc q)) q)) ∧
  (linked (vq_desc q) i (i :: l) → linked (vq_desc q) (d_next d) l).
Proof.
  intros (Hp & Hf & Hn) Hi Hi0 Hd. split.
  - unfold take_descriptor, bind at 1, get, bind at 1. rewrite Hi. unfold idx at 1. rewrite Hd. cbn [lift].
    unfold bind at 1, Descriptor_set_buf. rewrite Hp. cbn [obind lift d_addr d_len d_next fst snd]. unfold set_idx, bind at 1.
    rewrite (proj2 (Z.ltb_lt _ _)) by (apply lookup_lt_Some in Hd; unfold len; lia).
    cbn. destruct p as [[? ?] ?]. cbn in *. by subst.
  - cbn. intros (_ & d' & Hd' & Hl). by simplify_eq.
Qed.

Lemma take_all v2p fbs ps last q used free' :
  Forall2 (phys_of v2p) fbs ps → length used = length fbs → NoDup (used ++ free') →
  Forall (λ i, 0 ≤ i) (used ++ free') → linked (vq_desc q) (free_head q) (used ++ free') →
  ∃ ds' h', fold_m (take_descriptor v2p) fbs last q =
      Ok (default last (list.last used), q_set_free_head h' (q_set_desc ds' q)) ∧
    linked ds' h' free' ∧ length ds' = length (vq_desc q) ∧ filled ds' used ps ∧
    (∀ i, i ∉ used → 0 ≤ i → ds' !! Z.to_nat i = vq_desc q !! Z.to_nat i).
Proof.
  intros Hps. revert last q used. induction Hps as [|fb p fbs ps Hp Hps IH]; intros last q used Hlen Hnd Hpos Hl.
  { destruct used; [|done]. cbn. exists (vq_desc q), (free_head q). split_and!; try done. by destruct q. }
  destruct used as [|i used]; [done|]. injection Hlen as Hlen. assert (Hl' := Hl). destruct Hl as (Hi & d & Hd & Hl).
  apply NoDup_cons in Hnd as [Hni Hnd]. apply Forall_cons in Hpos as [Hi0 Hpos].
  destruct (take_descriptor_run v2p last fb p q i (used ++ free') d Hp Hi Hi0 Hd) as [Hrun _].
  set (ds1 := <[_ := _]> (vq_desc q)) in Hrun. set (q1 := q_set_free_head _ _) in Hrun.
  assert (Hout : ∀ j, j ≠ i → 0 ≤ j → ds1 !! Z.to_nat j = vq_desc q !! Z.to_nat j).
  { intros j Hj Hj0. unfold ds1. apply list_lookup_insert_ne. lia. }
  assert (Hne : ∀ j, j ∈ used ++ free' → j ≠ i ∧ 0 ≤ j).
  { intros j Hj. split; [set_solver|]. rewrite Forall_forall in Hpos. by apply Hpos. }
  destruct (IH i q1 used Hlen Hnd Hpos) as (ds' & h' & Hr & Hfr & Hln & Hfl & Hoth).
  { unfold q1. cbn. apply linked_ext with (ds := vq_desc q); [|done]. intros j Hj. by apply Hout; apply Hne. }
  exists ds', h'. cbn [fold_m]. rewrite (bind_run _ _ _ _ _ Hrun), Hr.
  split_and!; [|done|rewrite Hln; apply length_insert| |].
  - do 2 f_equal. destruct used; [done|]. cbn [list.last default]. destruct (list.last (z :: used)) eqn:E; [done|].
    by apply last_None in E.
  - cbn. destruct p as [[f pa] n]. split; [|done]. exists (mkDescriptor pa n f (d_next d)). split_and!; try done.
    + rewrite Hoth by (done || set_solver). unfold q1; cbn. unfold ds1. apply list_lookup_insert_eq.
      by apply lookup_lt_Some in Hd.
    + destruct used as [|j used]; [done|]. cbn in Hl |- *. naive_solver.
  - intros j Hj Hj0. rewrite Hoth by (done || set_solver). apply Hout; [set_solver|done].
Qed.

(** What the device sees of a descriptor: where the buffer is, how long, and
    whether the device writes it. *)
Definition dview (d : Descriptor) : Z * Z * bool := (d_addr d, d_len d, Z.testbit (d_flags d) 1).
Definition fview (p : Z * Z * Z) : Z * Z * bool := (p.1.2, p.2, Z.testbit p.1.1 1).
Definition clear_next (d : Descriptor) : Descriptor :=
  mkDescriptor (d_addr d) (d_len d) (Z.ldiff (d_flags d) DescFlags_NEXT) (d_next d).
Lemma clear_next_bits d :
  Z.testbit (d_flags (clear_next d)) 0 = false ∧ dview (clear_next d) = dview d.
Proof.
  unfold dview, clear_next; cbn. rewrite !Z.ldiff_spec. split; [apply andb_false_r|].
  change (Z.testbit DescFlags_NEXT 1) with false. by rewrite andb_true_r.
Qed.

Lemma filled_chained ds used ps k dk :
  filled ds used ps → NoDup used → Forall (λ i, 0 ≤ i) used → Forall (λ p, Z.testbit p.1.1 0 = true) ps →
  list.last used = Some k → ds !! Z.to_nat k = Some dk →
  ∃ l, chained (<[Z.to_nat k := clear_next dk]> ds) (default 0 (head used)) l ∧ l.*1 = used ∧
    dview <$> l.*2 = fview <$> ps.
Proof.
  revert ps. induction used as [|i used IH]; intros ps Hf Hnd Hpos Hb Hk Hdk; [done|].
  destruct ps as [|[[f pa] n] ps]; [done|]. destruct Hf as [(d & Hd & <- & <- & <- & Hnx) Hf].
  apply NoDup_cons in Hnd as [Hi Hnd]. apply Forall_cons in Hpos as [Hi0 Hpos]. apply Forall_cons in Hb as [Hb0 Hb].
  destruct used as [|j used].
  - injection Hk as <-. simplify_eq. destruct ps; [|done]. exists [(i, clear_next d)].
    destruct (clear_next_bits d) as [Hc Hv]. cbn. split_and!; try done.
    + apply list_lookup_insert_eq. by apply lookup_lt_Some in Hd.
    + by rewrite Hv.
  - assert (Hki : k ≠ i ∧ 0 ≤ k).
    { assert (k ∈ j :: used) as Hin by (by apply last_Some_elem_of). split; [set_solver|].
      rewrite Forall_forall in Hpos. by apply Hpos. }
    destruct (IH ps Hf Hnd Hpos Hb Hk Hdk) as (l & Hc & Hl1 & Hl2). exists ((i, d) :: l).
    destruct l as [|p l]; [done|]. cbn -[chained]. split_and!; [|by f_equal|].
    + cbn in Hnx |- *. split_and!; [done| |done|by rewrite Hnx]. rewrite list_lookup_insert_ne by lia. done.
    + cbn in Hl2 |- *. rewrite Hl2. done.
Qed.

Lemma rep_range q free out i : vq_rep q free out → i ∈ free ++ (concat out).*1 → 0 ≤ i < queue_size q.
Proof. intros Hr. rewrite (rep_all _ _ _ Hr), elem_of_seqZ. lia. Qed.
Lemma rep_NoDup q free out : vq_rep q free out → NoDup (free ++ (concat out).*1).
Proof. intros Hr. rewrite (rep_all _ _ _ Hr). apply NoDup_seqZ. Qed.
Lemma rep_bounds q free out : vq_rep q free out → 1 ≤ queue_size q ≤ 32.
Proof.
  intros Hr. destruct (rep_size _ _ _ Hr) as (k & Hk & ->).
  pose proof (Z.pow_le_mono_r 2 0 k). pose proof (Z.pow_le_mono_r 2 k 5). lia.
Qed.
Lemma rep_free_len q free out : vq_rep q free out → len free = queue_size q - num_used q.
Proof.
  intros Hr. pose proof (rep_bounds _ _ _ Hr). rewrite (rep_num _ _ _ Hr). unfold len.
  pose proof (Permutation_length (rep_all _ _ _ Hr)) as Hp. rewrite length_app, length_fmap, length_seqZ in Hp. lia.
Qed.
(** A ring index masked by the size of the queue is a slot of the ring. *)
Lemma ring_slot q free out x : vq_rep q free out → 0 ≤ x →
  Z.land x (wrap16 (queue_size q - 1)) = x mod queue_size q ∧ 0 ≤ x mod queue_size q < 32.
Proof.
  intros Hr Hx. pose proof (rep_bounds _ _ _ Hr). destruct (rep_size _ _ _ Hr) as (k & Hk & Hq). rewrite Hq in *.
  unfold wrap16. rewrite Z.mod_small by lia. rewrite land_mask by lia.
  pose proof (Z.mod_pos_bound x (2 ^ k)). lia.
Qed.

Definition tagged (ins outs : list buf) : list (Z * buf) :=
  ((λ b, (DescFlags_NEXT, b)) <$> ins) ++ ((λ b, (Z.lor DescFlags_NEXT DescFlags_WRITE, b)) <$> outs).
Definition avail_push (head : Z) (q : VirtQueue) : AvailRing :=
  let a := vq_avail q in
  mkAvail (av_flags a) (wrap16 (avail_idx q + 1))
    (<[Z.to_nat (avail_idx q mod queue_size q) := head]> (av_ring a)) (av_used_event a).

Lemma tagged_next v2p ins outs ps :
  Forall2 (phys_of v2p) (tagged ins outs) ps → Forall (λ p, Z.testbit p.1.1 0 = true) ps.
Proof.
  intros Hps. apply Forall_forall. intros p (i & Hi)%list_elem_of_lookup.
  destruct (Forall2_lookup_r _ _ _ _ _ Hps Hi) as (fb & Hfb & (_ & -> & _)). unfold tagged in Hfb.
  apply list_elem_of_lookup_2 in Hfb. rewrite elem_of_app, !list_elem_of_fmap in Hfb.
  by destruct Hfb as [(b & -> & _)|(b & -> & _)].
Qed.

Lemma bind_lift_eq {S A B} (m : outcome A) (k : A → M S B) s a : m = Ok a → bind (lift m) k s = k a s.
Proof. by intros ->. Qed.

(** The passes of both loops, and the chain after [NEXT] is cleared on the
    last. *)
Lemma take_chain v2p q out ins outs ps used free' :
  vq_rep q (used ++ free') out → Forall2 (phys_of v2p) (tagged ins outs) ps → used ≠ [] →
  length used = length (ins ++ outs) →
  ∃ ds h' l k dk, fold_m (take_descriptor v2p) (tagged ins outs) (free_head q) q =
      Ok (k, q_set_free_head h' (q_set_desc ds q)) ∧
    ds !! Z.to_nat k = Some dk ∧ 0 ≤ k ∧
    let ds' := <[Z.to_nat k := clear_next dk]> ds in
    linked ds' h' free' ∧ length ds' = length (vq_desc q) ∧ chained ds' (chain_head l) l ∧
    chain_head l = free_head q ∧ l.*1 = used ∧ dview <$> l.*2 = fview <$> ps ∧
    (∀ i, i ∉ used → 0 ≤ i → ds' !! Z.to_nat i = vq_desc q !! Z.to_nat i).
Proof.
  intros Hr Hps Hne Hlen. assert (Hnd := rep_NoDup _ _ _ Hr). apply NoDup_app in Hnd as (Hnd & _ & _).
  assert (Hpos : Forall (λ i, 0 ≤ i) (used ++ free')).
  { apply Forall_forall. intros i Hi. eapply (rep_range _ _ _ i Hr). set_solver. }
  assert (Hlu : length used = length (tagged ins outs)) by (unfold tagged; by rewrite length_app, !length_fmap, Hlen, length_app).
  destruct (take_all v2p (tagged ins outs) ps (free_head q) q used free') as (ds & h' & Hrun & Hfr & Hln & Hfi & Hoth);
    try done; [exact (rep_free _ _ _ Hr)|].
  destruct (list.last used) as [k|] eqn:Hk; [|by apply last_None in Hk].
  assert (Hkin : k ∈ used) by (by apply last_Some_elem_of).
  destruct (rep_range _ _ _ k Hr) as [Hk0 Hk1]; [set_solver|].
  assert (∃ dk, ds !! Z.to_nat k = Some dk) as [dk Hdk].
  { apply lookup_lt_is_Some_2. rewrite Hln. pose proof (rep_desc _ _ _ Hr). unfold len in *. lia. }
  rewrite Forall_app in Hpos. rewrite NoDup_app in Hnd.
  destruct (filled_chained ds used ps k dk) as (l & Hc & Hl1 & Hl2); try tauto; [by eapply tagged_next|].
  destruct (chained_nonempty _ _ _ Hc) as [Hh _]. exists ds, h', l, k, dk. cbv zeta. split_and!; try done.
  - apply linked_ext with (ds := ds); [|done]. intros i Hi. apply list_lookup_insert_ne.
    assert (i ≠ k) by (intros ->; destruct Hnd as (_ & Hd & _); by apply (Hd k)).
    destruct Hpos as [_ Hpos]. rewrite Forall_forall in Hpos. specialize (Hpos i Hi). lia.
  - by rewrite length_insert.
  - by rewrite Hh.
  - unfold chain_head. rewrite Hl1. pose proof (rep_free _ _ _ Hr) as Hf. destruct used; [done|]. by destruct Hf as [-> _].
  - intros i Hi Hi0. rewrite list_lookup_insert_ne by (intros ?; apply Hi; replace i with k by lia; done). by apply Hoth.
Qed.

Lemma VirtQueue_add_run v2p q out ins outs ps used free' :
  vq_rep q (used ++ free') out → Forall2 (phys_of v2p) (tagged ins outs) ps → used ≠ [] →
  length used = length (ins ++ outs) →
  ∃ ds' h' l, VirtQueue_add v2p ins outs q = Ok (ok (chain_head l),
      q_set_avail (avail_push (chain_head l) q) (wrap16 (avail_idx q + 1))
        (q_set_num_used (num_used q + len used) (q_set_free_head h' (q_set_desc ds' q)))) ∧
    linked ds' h' free' ∧ length ds' = length (vq_desc q) ∧ chained ds' (chain_head l) l ∧
    l.*1 = used ∧ dview <$> l.*2 = fview <$> ps ∧
    (∀ i, i ∉ used → 0 ≤ i → ds' !! Z.to_nat i = vq_desc q !! Z.to_nat i).
Proof.
  intros Hr Hps Hne Hlen. pose proof (rep_bounds _ _ _ Hr) as Hb. pose proof (rep_free_len _ _ _ Hr) as Hfl.
  assert (Hnu : 0 ≤ num_used q) by (rewrite (rep_num _ _ _ Hr); apply len_nonneg).
  destruct (take_chain v2p q out ins outs ps used free') as (ds & h' & l & k & dk & Hrun & Hdk & Hk0 & Hfr & Hln & Hc & Hhd & Hrest);
    try done.
  exists (<[Z.to_nat k := clear_next dk]> ds), h', l. split; [|split_and!; try done; apply Hrest].
  assert (Hli : len ins + len outs = len used) by (unfold len; rewrite Hlen, length_app; lia).
  assert (len used ≠ 0) by (unfold len; destruct used; [done|cbn; lia]).
  assert (len (used ++ free') = len used + len free') by (unfold len; rewrite length_app; lia).
  pose proof (len_nonneg ins). pose proof (len_nonneg outs). pose proof (len_nonneg free').
  unfold VirtQueue_add, bind at 1, get.
  replace ((len ins =? 0) && (len outs =? 0)) with false by (symmetry; apply andb_false_iff; rewrite !Z.eqb_neq; lia).
  rewrite !uadd_small by (rewrite ?uadd_small; lia). rewrite Hli, (proj2 (Z.ltb_ge _ _)) by lia.
  unfold tagged in Hrun. rewrite fold_m_app in Hrun. apply bind_Ok in Hrun as (last1 & q1 & Hr1 & Hr2).
  rewrite (bind_run _ _ _ _ _ Hr1), (bind_run _ _ _ _ _ Hr2). unfold bind at 1, get.
  rewrite (bind_lift_eq _ _ _ dk) by (cbn; unfold idx; by rewrite Hdk).
  rewrite (bind_lift_eq _ _ _ (<[Z.to_nat k := clear_next dk]> ds)).
  2: { cbn. unfold set_idx. rewrite (proj2 (Z.ltb_lt _ _)); [done|]. apply lookup_lt_Some in Hdk. unfold len. lia. }
  unfold bind at 1, put, bind at 1, get. cbn [queue_size avail_idx vq_avail q_set_num_used q_set_desc q_set_free_head num_used].
  destruct (ring_slot _ _ _ (avail_idx q) Hr) as [Hs Hs2]; [apply (rep_avail _ _ _ Hr)|]. rewrite Hs.
  rewrite (bind_lift_eq _ _ _ (<[Z.to_nat (avail_idx q mod queue_size q) := free_head q]> (av_ring (vq_avail q)))).
  2: { unfold set_idx. destruct (rep_rings _ _ _ Hr) as [-> _]. by rewrite (proj2 (Z.ltb_lt _ _)) by lia. }
  unfold bind, put, ret. rewrite Hhd. assert (Hw : wrap16 (len used) = len used) by (apply Z.mod_small; lia).
  rewrite Hw. assert (Hw2 : wrap16 (num_used q + len used) = num_used q + len used) by (apply Z.mod_small; lia).
  rewrite Hw2. done.
Qed.

Lemma rep_out_ext q ds' used free' out :
  vq_rep q (used ++ free') out → (∀ i, i ∉ used → 0 ≤ i → ds' !! Z.to_nat i = vq_desc q !! Z.to_nat i) →
  Forall (λ l, chained ds' (chain_head l) l) out.
Proof.
  intros Hr Hds. pose proof (rep_out _ _ _ Hr) as Ho. rewrite Forall_forall in Ho |- *. intros l Hl.
  apply chained_ext with (ds := vq_desc q); [|by apply Ho]. intros i Hi.
  assert (Hin : i ∈ (concat out).*1).
  { apply list_elem_of_fmap in Hi as (p & -> & Hp). apply list_elem_of_fmap. exists p. split; [done|].
    apply list_elem_of_In, in_concat. exists l. by rewrite <- !list_elem_of_In. }
  assert (Hnd := rep_NoDup _ _ _ Hr). apply NoDup_app in Hnd as (_ & Hd & _). apply Hds; [|].
  - intros Hu. apply (Hd i); [set_solver|done].
  - apply (rep_range _ _ _ i Hr). set_solver.
Qed.

Lemma VirtQueue_add_ok v2p q free out ins outs ps :
  vq_rep q free out → Forall2 (phys_of v2p) (tagged ins outs) ps → ins ++ outs ≠ [] →
  len ins + len outs ≤ len free →
  ∃ q' l free', VirtQueue_add v2p ins outs q = Ok (ok (chain_head l), q') ∧ vq_rep q' free' (l :: out) ∧
    len free' = len free - (len ins + len outs) ∧ dview <$> l.*2 = fview <$> ps ∧ vq_avail q' = avail_push (chain_head l) q ∧
    avail_idx q' = wrap16 (avail_idx q + 1) ∧ vq_used q' = vq_used q ∧
    last_used_idx q' = last_used_idx q ∧ queue_size q' = queue_size q ∧ l.*1 ++ free' = free.
Proof.
  intros Hr Hps Hne Hle. set (n := length (ins ++ outs)). rewrite <- (take_drop n free) in Hr.
  set (used := take n free) in *. set (free' := drop n free) in *.
  assert (Hlen : length used = n) by (unfold used, n, len in *; rewrite length_take, length_app; lia).
  assert (used ≠ []) by (destruct used; [cbn in Hlen; unfold n in Hlen; destruct (ins ++ outs); done|done]).
  destruct (VirtQueue_add_run v2p q out ins outs ps used free') as (ds' & h' & l & Hrun & Hfr & Hln & Hc & Hl1 & Hl2 & Hoth); try done.
  eexists _, l, free'. split; [exact Hrun|]. cbn [vq_avail avail_idx vq_used last_used_idx queue_size q_set_avail q_set_num_used q_set_free_head q_set_desc].
  split_and!; try done; [|unfold free', n, len; rewrite length_drop, length_app; unfold len in Hle; lia|rewrite Hl1; apply take_drop].
  destruct Hr as [Hsz Hd Hri Hal Hf Ho Hnu Hav Hus]. split; cbn -[concat]; try done.
  - by unfold len in *; rewrite Hln.
  - unfold len in *. by rewrite length_insert.
  - cbn [concat]. rewrite fmap_app, Hl1. rewrite <- Hal. solve_Permutation.
  - constructor; [done|]. eapply rep_out_ext; [|exact Hoth]. by split.
  - rewrite Hnu. cbn [concat]. unfold len. rewrite length_app, <- Hl1, length_fmap. lia.
  - split; [done|]. apply Z.mod_pos_bound. lia.
Qed.

(** ** Taking back a chain *)
Definition with_next (o : Z) (d : Descriptor) : Descriptor := mkDescriptor (d_addr d) (d_len d) (d_flags d) o.

Lemma recycle_run o l : ∀ h q fuel,
  chained (vq_desc q) h l → (length l ≤ fuel)%nat → len l ≤ num_used q < 2 ^ 16 → Forall (λ i, 0 ≤ i) l.*1 →
  ∃ k dk, list.last l = Some (k, dk) ∧ recycle_loop fuel o h q =
    Ok (tt, q_set_desc (<[Z.to_nat k := with_next o dk]> (vq_desc q)) (q_set_num_used (num_used q - len l) q)).
Proof.
  induction l as [|[i d] l IH]; intros h q fuel Hc Hf Hn Hp; [done|]. destruct Hc as (-> & Hd & Hc).
  destruct fuel as [|fuel]; cbn [length] in Hf; [lia|]. cbn [fmap list_fmap] in Hp. apply Forall_cons in Hp as [Hi0 Hp].
  assert (Hlen : len ((i, d) :: l) = 1 + len l) by (unfold len; cbn; lia). rewrite Hlen in *. pose proof (len_nonneg l).
  cbn [recycle_loop]. unfold bind at 1, get. rewrite (bind_lift_eq _ _ _ d) by (unfold idx; by rewrite Hd).
  assert (Hw : wrap16 (num_used q - 1) = num_used q - 1) by (apply Z.mod_small; lia). rewrite Hw.
  destruct l as [|p l].
  - rewrite Hc. exists i, d. split; [done|]. rewrite (bind_lift_eq _ _ _ (<[Z.to_nat i := with_next o d]> (vq_desc q))).
    + unfold put. unfold len. cbn. by rewrite Z.sub_0_r || done.
    + unfold set_idx. cbn. rewrite (proj2 (Z.ltb_lt _ _)); [done|]. apply lookup_lt_Some in Hd. unfold len. lia.
  - destruct Hc as [-> Hc]. unfold bind at 1, put. set (q1 := q_set_num_used _ q).
    destruct (IH (d_next d) q1 fuel) as (k & dk & Hk & Hrun); [done|lia| |done|].
    { unfold q1; cbn. lia. }
    exists k, dk. split; [done|]. rewrite Hrun. unfold q1. cbn. do 2 f_equal. unfold q_set_desc, q_set_num_used. cbn. f_equal. lia.
Qed.

Lemma chained_linked ds h l o free k dk :
  chained ds h l → NoDup (l.*1 ++ free) → Forall (λ i, 0 ≤ i) (l.*1 ++ free) → linked ds o free →
  list.last l = Some (k, dk) → linked (<[Z.to_nat k := with_next o dk]> ds) h (l.*1 ++ free).
Proof.
  revert h. induction l as [|[i d] l IH]; intros h Hc Hnd Hp Hfr Hk; [done|].
  destruct Hc as (-> & Hd & Hc). cbn [fmap list_fmap app] in *. apply NoDup_cons in Hnd as [Hi Hnd].
  apply Forall_cons in Hp as [Hi0 Hp]. split; [done|]. destruct l as [|p l].
  - injection Hk as -> ->. exists (with_next o dk). split; [apply list_lookup_insert_eq; by apply lookup_lt_Some in Hd|].
    cbn. apply linked_ext with (ds := ds); [|done]. intros j Hj. apply list_lookup_insert_ne.
    rewrite Forall_forall in Hp. specialize (Hp j Hj). cbn in Hi. assert (j ≠ k) by (intros ->; by apply Hi). cbn in *. lia.
  - destruct Hc as [_ Hc]. assert (Hkin : k ∈ (p :: l).*1).
    { apply list_elem_of_fmap. exists (k, dk). split; [done|]. by apply last_Some_elem_of. }
    exists d. split; [|by apply IH]. rewrite list_lookup_insert_ne; [done|].
    rewrite Forall_forall in Hp. assert (0 ≤ k) by (apply Hp; cbn [fst] in *; set_solver).
    assert (k ≠ i) by (intros ->; apply Hi; cbn [fst] in *; set_solver). cbn in *. lia.
Qed.

Lemma rep_split q free o1 l o2 : vq_rep q free (o1 ++ l :: o2) →
  NoDup (l.*1 ++ free) ∧ Forall (λ i, 0 ≤ i) (l.*1 ++ free) ∧
  (∀ l' i, l' ∈ o1 ++ o2 → i ∈ l'.*1 → i ∉ l.*1) ∧ len l ≤ num_used q < 2 ^ 16.
Proof.
  intros Hr. pose proof (rep_NoDup _ _ _ Hr) as Hnd. pose proof (rep_bounds _ _ _ Hr) as Hb.
  pose proof (rep_free_len _ _ _ Hr) as Hfl. pose proof (len_nonneg free).
  assert (Hperm : free ++ (concat (o1 ++ l :: o2)).*1 ≡ₚ (l.*1 ++ free) ++ (concat (o1 ++ o2)).*1).
  { rewrite !concat_app, !fmap_app. cbn [concat]. rewrite fmap_app. solve_Permutation. }
  rewrite Hperm in Hnd. apply NoDup_app in Hnd as (Hnd & Hd & _). split_and!.
  - done.
  - apply Forall_forall. intros i Hi. apply (rep_range _ _ _ i Hr). rewrite Hperm. set_solver.
  - intros l' i Hl' Hi Hil. apply (Hd i); [set_solver|]. apply list_elem_of_fmap in Hi as (p & -> & Hp).
    apply list_elem_of_fmap. exists p. split; [done|]. apply list_elem_of_In, in_concat. exists l'. by rewrite <- !list_elem_of_In.
  - rewrite (rep_num _ _ _ Hr). unfold len. rewrite concat_app. cbn [concat]. rewrite !length_app. lia.
  - lia.
Qed.

Lemma VirtQueue_pop_used_ok q free o1 l o2 e :
  vq_rep q free (o1 ++ l :: o2) → VirtQueue_can_pop q = true →
  us_ring (vq_used q) !! Z.to_nat (last_used_idx q mod queue_size q) = Some e → wrap16 (ue_id e) = chain_head l →
  ∃ q', VirtQueue_pop_used q = Ok (ok (chain_head l, ue_len e), q') ∧ vq_rep q' (l.*1 ++ free) (o1 ++ o2) ∧
    last_used_idx q' = wrap16 (last_used_idx q + 1) ∧ vq_used q' = vq_used q ∧ vq_avail q' = vq_avail q ∧
    avail_idx q' = avail_idx q ∧ queue_size q' = queue_size q.
Proof.
  intros Hr Hp He Hid. destruct (rep_split _ _ _ _ _ Hr) as (Hnd & Hpos & Hdis & Hn).
  assert (Hc : chained (vq_desc q) (chain_head l) l) by (pose proof (rep_out _ _ _ Hr) as Ho; decompose_Forall_hyps; done).
  set (q1 := q_set_free_head (chain_head l) q).
  destruct (recycle_run (free_head q) l (chain_head l) q1 (S (length (vq_desc q)))) as (k & dk & Hk & Hrun); [done| |done| |].
  { pose proof (rep_bounds _ _ _ Hr). pose proof (rep_desc _ _ _ Hr). pose proof (rep_free_len _ _ _ Hr).
    pose proof (len_nonneg free). unfold len in *. lia. }
  { by apply Forall_app in Hpos as [? _]. }
  eexists. split.
  { unfold VirtQueue_pop_used, bind at 1, get. rewrite Hp. cbn [negb].
    destruct (ring_slot _ _ _ (last_used_idx q) Hr) as [-> _]; [apply (rep_used _ _ _ Hr)|].
    rewrite (bind_lift_eq _ _ _ e) by (unfold idx; by rewrite He). rewrite Hid.
    assert (Hrec : VirtQueue_recycle_descriptors (chain_head l) q = recycle_loop (S (length (vq_desc q))) (free_head q) (chain_head l) q1) by done.
    rewrite (bind_run _ _ q tt _) by (rewrite Hrec; exact Hrun). done. }
  cbn. split_and!; try done. assert (Hr' := Hr). destruct Hr as [Hsz Hd Hri Hal Hf Ho Hnu Hav Hus]. split; cbn; try done.
  - unfold len in *. by rewrite length_insert.
  - rewrite <- Hal, !concat_app, !fmap_app. cbn [concat]. rewrite fmap_app. solve_Permutation.
  - by apply chained_linked.
  - apply Forall_forall. intros l' Hl'. rewrite Forall_forall in Ho. apply chained_ext with (ds := vq_desc q).
    2: { apply Ho. set_solver. }
    intros i Hi. assert (i ∉ l.*1) by (by eapply Hdis). assert (Hkl : k ∈ l.*1).
    { apply list_elem_of_fmap. exists (k, dk). split; [done|]. by apply last_Some_elem_of. }
    apply list_lookup_insert_ne. apply Forall_app in Hpos as [Hpos _]. rewrite Forall_forall in Hpos. specialize (Hpos k Hkl).
    assert (0 ≤ i).
    { apply (rep_range q free (o1 ++ l :: o2) i); [done|]. apply elem_of_app. right.
      apply list_elem_of_fmap in Hi as (p & -> & Hp'). apply list_elem_of_fmap. exists p. split; [done|].
      apply list_elem_of_In, in_concat. exists l'. rewrite <- !list_elem_of_In. split; [set_solver|done]. }
    assert (i ≠ k) by congruence. lia.
  - rewrite Hnu. rewrite !concat_app. cbn [concat]. unfold len. rewrite !length_app. lia.
  - apply Z.mod_pos_bound. lia.
Qed.

(** ** The queue as a pool of descriptors *)
(** What a driver may rely on: how many descriptors are free, and the tokens at
    the device with their buffers. *)
Record pool : Type := mkPool { p_free : Z; p_out : list (Z * list (Z * Z * bool)) }.
Definition chain_view (l : list (Z * Descriptor)) : Z * list (Z * Z * bool) := (chain_head l, dview <$> l.*2).
Definition vq_pool (q : VirtQueue) (p : pool) : Prop :=
  ∃ free out, vq_rep q free out ∧ p_free p = len free ∧ p_out p = chain_view <$> out.

Lemma rep_chain_head q free out l : vq_rep q free out → l ∈ out → chain_head l ∈ l.*1 ∧ l ≠ [].
Proof.
  intros Hr Hl. pose proof (rep_out _ _ _ Hr) as Ho. rewrite Forall_forall in Ho. specialize (Ho l Hl).
  destruct l as [|[i d] l]; [done|]. cbn. split; [set_solver|done].
Qed.
Lemma rep_token_fresh q free l out : vq_rep q free (l :: out) → chain_head l ∉ (chain_view <$> out).*1.
Proof.
  intros Hr Hin. destruct (rep_split _ _ [] l out Hr) as (_ & _ & Hd & _).
  apply list_elem_of_fmap in Hin as (p & Hp & Hin). apply list_elem_of_fmap in Hin as (l' & -> & Hl'). cbn in Hp.
  apply (Hd l' (chain_head l')); [done| |].
  - apply (rep_chain_head _ _ _ l' Hr). set_solver.
  - rewrite <- Hp. apply (rep_chain_head _ _ _ l Hr). set_solver.
Qed.

(** C12. The queue is a pool of descriptors.  [add] refuses an empty request and one
    that needs more descriptors than are free, changing nothing; otherwise it
    hands out a token no request in flight has, with a chain that describes
    exactly the buffers of the request, in order, and announces it in the
    available ring.  [pop_used] reports [NotReady] when the device has nothing,
    and otherwise gives the chain the device names back to the pool, all other
    requests unchanged. *)
Theorem VirtQueue_refines_pool v2p q p :
  vq_pool q p →
  (∀ ins outs ps, Forall2 (phys_of v2p) (tagged ins outs) ps →
     if decide (ins = [] ∧ outs = []) then VirtQueue_add v2p ins outs q = Ok (err InvalidParam, q)
     else if decide (p_free p < len ins + len outs) then
       len ins + len outs < 2 ^ 63 → VirtQueue_add v2p ins outs q = Ok (err BufferTooSmall, q)
     else ∃ q' tok, VirtQueue_add v2p ins outs q = Ok (ok tok, q') ∧ tok ∉ (p_out p).*1 ∧
       vq_pool q' (mkPool (p_free p - (len ins + len outs)) ((tok, fview <$> ps) :: p_out p)) ∧
       vq_avail q' = avail_push tok q ∧ vq_used q' = vq_used q) ∧
  (if VirtQueue_can_pop q then
     ∀ e o1 bufs o2, us_ring (vq_used q) !! Z.to_nat (last_used_idx q mod queue_size q) = Some e →
       p_out p = o1 ++ (wrap16 (ue_id e), bufs) :: o2 →
       ∃ q', VirtQueue_pop_used q = Ok (ok (wrap16 (ue_id e), ue_len e), q') ∧
         vq_pool q' (mkPool (p_free p + len bufs) (o1 ++ o2)) ∧
         last_used_idx q' = wrap16 (last_used_idx q + 1) ∧ vq_used q' = vq_used q
   else VirtQueue_pop_used q = Ok (err NotReady, q)).
Proof.
  intros (free & out & Hr & Hf & Ho). split.
  - intros ins outs ps Hps. pose proof (rep_free_len _ _ _ Hr) as Hfl. rewrite Hf.
    assert (Hnu : 0 ≤ num_used q) by (rewrite (rep_num _ _ _ Hr); apply len_nonneg).
    pose proof (rep_bounds _ _ _ Hr). pose proof (len_nonneg ins). pose proof (len_nonneg outs). pose proof (len_nonneg free).
    destruct (decide _) as [[-> ->]|Hne]; [done|]. destruct (decide _) as [Hlt|Hge].
    + intros Hsm. unfold VirtQueue_add, bind at 1, get.
      replace ((len ins =? 0) && (len outs =? 0)) with false.
      2: { symmetry. apply andb_false_iff. rewrite !Z.eqb_neq. destruct ins, outs; unfold len; cbn; naive_solver lia. }
      rewrite !uadd_small by (rewrite ?uadd_small; lia). by rewrite (proj2 (Z.ltb_lt _ _)) by lia.
    + destruct (VirtQueue_add_ok v2p q free out ins outs ps) as (q' & l & free' & Hrun & Hr' & Hfr & Hv & Hav & _ & Hus & _);
        [done|done| |lia|].
      { intros [-> ->]%app_eq_nil. by apply Hne. }
      exists q', (chain_head l). rewrite Ho. split_and!; try done; [by eapply rep_token_fresh|].
      exists free', (l :: out). split_and!; [done|done|]. cbn. unfold chain_view at 1. by rewrite <- Hv.
  - destruct (VirtQueue_can_pop q) eqn:Hcp; [|by unfold VirtQueue_pop_used, bind, get; rewrite Hcp].
    intros e o1 bufs o2 He Hsplit. rewrite Ho in Hsplit. apply fmap_app_inv in Hsplit as (c1 & c2 & -> & Hc2 & ->).
    symmetry in Hc2. apply fmap_cons_inv in Hc2 as (l & c2' & Hl & -> & ->). injection Hl as Hl ->.
    destruct (VirtQueue_pop_used_ok q free c1 l c2' e) as (q' & Hrun & Hr' & Hlu & Hus & _); try done.
    exists q'. rewrite Hl. split_and!; try done. exists (l.*1 ++ free), (c1 ++ c2'). split_and!; [done| |by rewrite fmap_app].
    cbn. rewrite Hf. unfold len. rewrite length_app, !length_fmap. lia.
Qed.

(** A fresh queue of two descriptors. *)
Definition queue2 : VirtQueue :=
  mkVirtQueue (mkDMA 0x80400000 2) [mkDescriptor 0 0 0 1; mkDescriptor 0 0 0 0] (mkAvail 0 0 (replicate 32 0) 0)
    (mkUsed 0 0 (replicate 32 (mkUsedElem 0 0)) 0) 0 2 0 0 0 0.
Lemma VirtQueue_refines_pool_witness : ∃ q' tok,
  VirtQueue_add Ok [mkBuf 100 8] [mkBuf 200 4] queue2 = Ok (ok tok, q') ∧
  vq_pool q' (mkPool 0 [(tok, [(100, 8, false); (200, 4, true)])]).
Proof.
  assert (Hq : vq_pool queue2 (mkPool 2 [])).
  { exists [0; 1], []. split_and!; [|done|done]. split; cbn; try done; [by exists 1|].
    split; [done|]. eexists. split; [done|]. split; [done|]. by eexists. }
  destruct (VirtQueue_refines_pool Ok queue2 (mkPool 2 []) Hq) as [Hadd _].
  destruct (Hadd [mkBuf 100 8] [mkBuf 200 4] [(1, 100, 8); (3, 200, 4)]) as (q' & tok & Hr & _ & Hp & _).
  { repeat constructor. }
  exists q', tok. split; [exact Hr|exact Hp].
Defined.

(** ** Creating a queue *)
Lemma link_descriptors_run n : ∀ i ds,
  0 ≤ i → i + Z.of_nat n < len ds → len ds ≤ 32 →
  ∃ ds', link_descriptors n i ds = Ok ds' ∧ length ds' = length ds ∧
    (∀ j d, ds' !! j = Some d → i ≤ Z.of_nat j < i + Z.of_nat n → d_next d = Z.of_nat j + 1) ∧
    (∀ j, ¬ (i ≤ Z.of_nat j < i + Z.of_nat n) → ds' !! j = ds !! j).
Proof.
  induction n as [|n IH]; intros i ds Hi Hn Hl; [exists ds; split_and!; naive_solver lia|].
  destruct (lookup_lt_is_Some_2 ds (Z.to_nat i)) as [d Hd]; [unfold len in *; lia|].
  cbn [link_descriptors]. unfold idx at 1. rewrite Hd. cbn [obind].
  unfold set_idx at 1. rewrite (proj2 (Z.ltb_lt _ _)) by lia. cbn [obind].
  set (ds1 := <[_ := _]> ds). assert (Hl1 : length ds1 = length ds) by apply length_insert.
  destruct (IH (i + 1) ds1) as (ds' & Hr & Hlen & Hin & Hout); [lia|unfold len in *; lia|unfold len in *; lia|].
  exists ds'. split_and!; [done|lia| |].
  - intros j d' Hj Hji. destruct (decide (j = Z.to_nat i)) as [->|Hne]; [|apply (Hin j); [done|lia]].
    rewrite Hout in Hj by lia. unfold ds1 in Hj. rewrite list_lookup_insert_eq in Hj by (by apply lookup_lt_Some in Hd).
    injection Hj as <-. cbn. unfold wrap16. rewrite Z.mod_small by lia. lia.
  - intros j Hj. rewrite Hout by lia. unfold ds1. apply list_lookup_insert_ne. lia.
Qed.
Lemma linked_seqZ ds n : ∀ i, 0 ≤ i → i + Z.of_nat n ≤ len ds →
  (∀ j d, ds !! j = Some d → i ≤ Z.of_nat j → Z.of_nat j < i + Z.of_nat n - 1 → d_next d = Z.of_nat j + 1) →
  linked ds i (seqZ i (Z.of_nat n)).
Proof.
  induction n as [|n IH]; intros i Hi Hn Hnx; [done|]. rewrite seqZ_cons by lia. cbn [linked]. split; [done|].
  destruct (lookup_lt_is_Some_2 ds (Z.to_nat i)) as [d Hd]; [unfold len in *; lia|]. exists d. split; [done|].
  destruct n as [|n]; [done|]. rewrite (Hnx _ _ Hd) by lia. replace (Z.of_nat (Z.to_nat i) + 1) with (Z.succ i) by lia.
  replace (Z.pred (Z.of_nat (S (S n)))) with (Z.of_nat (S n)) by lia. apply IH; [lia|lia|]. intros j d' Hj ??. apply (Hnx j); [done|lia|lia].
Qed.

(** The size is a power of two of at most 32, the length of the rings. *)
Lemma pow2_is_power_of_two k : 0 ≤ k → is_power_of_two (2 ^ k) = true.
Proof.
  intros Hk. unfold is_power_of_two. pose proof (Z.pow_pos_nonneg 2 k ltac:(lia) Hk). rewrite (proj2 (Z.ltb_lt _ _)) by lia.
  rewrite land_mask by done. by rewrite Z.mod_same by lia.
Qed.

Section new.
Context {H : Type} `{!Mmio H, !Hal H}.
Lemma hal_num_zero (h : H) va n : (∀ a, va ≤ a < va + Z.of_nat n → hal_load h a = 0) → hal_num h va n = 0.
Proof.
  intros Hz. unfold hal_num. assert (Hl : (λ i, hal_load h (va + Z.of_nat i)) <$> seq 0 n = replicate n 0).
  { apply list_eq. intros i. destruct (decide (i < n)%nat).
    - rewrite list_lookup_fmap, lookup_seq_lt by done. cbn. rewrite lookup_replicate_2 by done. f_equal. apply Hz. lia.
    - rewrite !lookup_ge_None_2; [done| |]; rewrite ?length_replicate, ?length_fmap, ?length_seq; lia. }
  rewrite Hl. clear. induction n; [done|]. cbn. by rewrite IHn.
Qed.

(** The queues of at most 32 descriptors take two pages. *)
Lemma VirtQueueLayout_small k : 0 ≤ k ≤ 5 → VirtQueueLayout_new (2 ^ k) = Ok (mkLayout (16 * 2 ^ k) 4096 8192).
Proof.
  intros Hk. assert (Hc : k ∈ seqZ 0 6) by (apply elem_of_seqZ; lia). change (seqZ 0 6) with [0;1;2;3;4;5] in Hc.
  repeat (apply elem_of_cons in Hc as [->|Hc]; [by vm_compute|]). by apply elem_of_nil in Hc.
Qed.
(** Two pages that are zero: a queue with all its descriptors free. *)
Lemma VirtQueue_new_ok qidx k paddr va (h1 h2 h3 h4 h : H) mx :
  let size := 2 ^ k in
  0 ≤ k ≤ 5 → VirtIOHeader_queue_used (wrap32 qidx) h = Ok (false, h1) →
  VirtIOHeader_max_queue_size h1 = Ok (mx, h2) → size ≤ mx →
  hal_dma_alloc 2 h2 = Ok (paddr, h3) → 0 < paddr < 2 ^ 32 →
  VirtIOHeader_queue_set (wrap32 qidx) size VIRTIO_PAGE_SIZE (Z.shiftr paddr 12) h3 = Ok (tt, h4) →
  hal_phys_to_virt h4 paddr = Ok va → 0 ≤ va < 2 ^ 63 → (∀ a, va ≤ a < va + 8192 → hal_load h4 a = 0) →
  ∃ q, VirtQueue_new qidx size h = Ok (ok q, h4) ∧ vq_rep q (seqZ 0 size) [] ∧
    queue_size q = size ∧ avail_idx q = 0 ∧ last_used_idx q = 0 ∧ us_idx (vq_used q) = 0.
Proof.
  intros size Hk Hu Hm Hmx Hd Hp Hs Hva Hva0 Hz. assert (Hlay := VirtQueueLayout_small k Hk). fold size in Hlay.
  pose proof (Z.pow_le_mono_r 2 0 k). pose proof (Z.pow_le_mono_r 2 k 5). assert (Hsz : 1 ≤ size ≤ 32) by (unfold size; lia).
  set (ds := (λ i, cast_Descriptor h4 (va + 16 * Z.of_nat i)) <$> seq 0 (Z.to_nat size)).
  assert (Hlds : len ds = size) by (unfold ds, len; rewrite length_fmap, length_seq; lia).
  assert (Hw : wrap16 (size - 1) = size - 1) by (apply Z.mod_small; lia).
  destruct (link_descriptors_run (Z.to_nat (size - 1)) 0 ds) as (ds' & Hl & Hlen & Hin & Hout); [lia..|].
  assert (Hwp : wrap32 paddr = paddr) by (apply Z.mod_small; lia).
  eexists. split.
  { unfold VirtQueue_new. rewrite (bind_run _ _ _ _ _ Hu). unfold size at 1. rewrite pow2_is_power_of_two by lia. cbn [negb].
    rewrite (bind_run _ _ _ _ _ Hm), (proj2 (Z.ltb_ge _ _)) by lia. rewrite (bind_lift_eq _ _ _ _ Hlay).
    rewrite (bind_run _ _ _ (ok (mkDMA paddr 2)) h3).
    2: { unfold DMA_new. change (layout_size _ / VIRTIO_PAGE_SIZE) with 2. rewrite (bind_run _ _ _ _ _ Hd), (proj2 (Z.eqb_neq _ _)) by lia.
         by rewrite Hwp. }
    change (DMA_pfn _) with (Z.shiftr paddr 12). rewrite (bind_run _ _ _ _ _ Hs).
    rewrite (bind_run _ _ h4 va h4) by (unfold DMA_vaddr, phys_to_virt; cbn; by rewrite Hva).
    unfold bind at 1, get. rewrite Hw. rewrite (bind_lift_eq _ _ _ _ Hl). done. }
  assert (Hzero : ∀ o n, 0 ≤ o → o + Z.of_nat n ≤ 8192 → hal_num h4 (va + o) n = 0) by (intros; apply hal_num_zero; intros; apply Hz; lia).
  cbn [avail_offset used_offset]. rewrite (uadd_small va 4096), (uadd_small va (16 * size)) by lia.
  split; [|split_and!; try done; cbn [vq_used cast_UsedRing us_idx]; rewrite <- Z.add_assoc; apply Hzero; lia].
  split; cbn [vq_desc queue_size vq_avail vq_used num_used free_head avail_idx last_used_idx cast_AvailRing cast_UsedRing
    av_ring us_ring av_idx us_idx concat fmap list_fmap].
  - by exists k.
  - unfold len in *. rewrite Hlen. done.
  - unfold len. split; by rewrite length_fmap, length_seq.
  - by rewrite app_nil_r.
  - replace size with (Z.of_nat (Z.to_nat size)) at 1 by lia. apply linked_seqZ; [done|unfold len in *; lia|].
    intros j d Hj ??. apply (Hin j); [done|lia].
  - constructor.
  - done.
  - rewrite <- Z.add_assoc, Hzero by lia. done.
  - lia.
Qed.
End new.

(** The structures of a queue do not overlap, fit in the memory asked for, and
    lie where a legacy device of the same size expects them: although
    [align_up] adds a page to a size that is already a multiple of the page
    size, no queue has such a size. *)
Theorem VirtQueueLayout_matches_device k :
  0 ≤ k ≤ 15 →
  let n := 2 ^ k in
  let up x := (x + 4095) / 4096 * 4096 in
  VirtQueueLayout_new n = Ok (mkLayout (16 * n) (up (16 * n + 2 * (3 + n))) (up (16 * n + 2 * (3 + n)) + up (6 + 8 * n))) ∧
  16 * n + 2 * (3 + n) ≤ up (16 * n + 2 * (3 + n)) ∧ align_up 4096 = 8192.
Proof.
  intros Hk n up. split_and!; [| |done].
  2: { unfold up. generalize (16 * n + 2 * (3 + n)). intros x. pose proof (Z.mod_pos_bound (x + 4095) 4096).
       pose proof (Z_div_mod_eq_full (x + 4095) 4096). lia. }
  assert (Hc : k ∈ seqZ 0 16) by (apply elem_of_seqZ; lia). revert n up. change (seqZ 0 16) with [0;1;2;3;4;5;6;7;8;9;10;11;12;13;14;15] in Hc.
  repeat (apply elem_of_cons in Hc as [->|Hc]; [by vm_compute|]). by apply elem_of_nil in Hc.
Qed.
Lemma VirtQueueLayout_matches_device_witness :
  VirtQueueLayout_new 16 = Ok (mkLayout 256 4096 8192).
Proof. apply (VirtQueueLayout_matches_device 4). lia. Defined.

(** The registers are where the legacy interface of the standard has them, and
    the configuration space follows the registers. *)
Lemma VirtIOHeader_offsets :
  offset_of <$> [Reg.magic; Reg.version; Reg.device_id; Reg.vendor_id; Reg.device_features; Reg.device_features_sel;
    Reg.driver_features; Reg.driver_features_sel; Reg.guest_page_size; Reg.queue_sel; Reg.queue_num_max;
    Reg.queue_num; Reg.queue_align; Reg.queue_pfn; Reg.queue_notify; Reg.interrupt_status; Reg.interrupt_ack; Reg.status] =
  [0x0; 0x4; 0x8; 0xc; 0x10; 0x14; 0x20; 0x24; 0x28; 0x30; 0x34; 0x38; 0x3c; 0x40; 0x50; 0x60; 0x64; 0x70] ∧
  offset_of Reg.config_generation + 4 = CONFIG_SPACE_OFFSET.
Proof. done. Qed.
