(* ===== verification/VirtioBlk.v ===== *)
(** * The block driver ([virtio-drivers/src/blk.rs])

    [VirtIOBlk] puts a request into its virtqueue as a chain of three
    descriptors (the request header, the block, the status byte), notifies the
    device, polls the used ring until the device has answered and takes the
    chain back.  The device is the interface [VirtioDevice]: it shares the queue
    and the memory with the driver and moves whenever the driver polls. *)

From S2P Require Import Prelude PhysMem VirtQueue.

(** ** Memory shared with the device *)
(** Bytes by physical address. *)
Abbreviation bmem := (gmap Z Z).
Definition ram_load (r : bmem) (a : Z) (n : nat) : list Z := (λ i, default 0 (r !! (a + Z.of_nat i))) <$> seq 0 n.
Fixpoint ram_store (r : bmem) (a : Z) (bs : list Z) : bmem :=
  match bs with
  | [] => r
  | b :: bs => ram_store (<[a := b]> r) (a + 1) bs
  end.
(** The part of a queue the device reads and writes. *)
Record shared : Type := mkShared { sh_desc : list Descriptor; sh_avail : AvailRing; sh_used : UsedRing; sh_ram : bmem }.

(** A device: its registers, and what it does to a queue and the memory between
    two polls of the driver. *)
Class VirtioDevice (D : Type) : Type := {
  dev_mmio :: Mmio D;
  dev_hal :: Hal D;
  dev_step : Z → D → shared → D * shared;
}.

(** The machine the driver runs on: the device, the memory and the driver's
    own data. *)
Record machine (D B : Type) : Type := mkMachine { m_dev : D; m_ram : bmem; m_drv : B }.
Arguments mkMachine {D B} m_dev m_ram m_drv.
Arguments m_dev {D B} m.
Arguments m_ram {D B} m.
Arguments m_drv {D B} m.

Section driver.
Context {D B : Type} `{VirtioDevice D}.
Implicit Types m : machine D B.

Definition dev_ : lens (machine D B) D := Lens m_dev (λ d m, mkMachine d (m_ram m) (m_drv m)).
Definition store_at (a : Z) (bs : list Z) : M (machine D B) unit :=
  modify (λ m, mkMachine (m_dev m) (ram_store (m_ram m) a bs) (m_drv m)).
Definition load_at (a : Z) (n : nat) : M (machine D B) (list Z) := λ m, Ok (ram_load (m_ram m) a n, m).

(** An operation of the queue [qv] of the driver. *)
Definition on_queue {A} (qv : lens B VirtQueue) (f : (Z → outcome Z) → M VirtQueue A) : M (machine D B) A := λ m,
  match f (hal_virt_to_phys (m_dev m)) (view qv (m_drv m)) with
  | Ok (a, q) => Ok (a, mkMachine (m_dev m) (m_ram m) (update qv q (m_drv m)))
  | Fault f => Fault f
  end.
(** The device moves. *)
Definition dev_moves (qv : lens B VirtQueue) (qi : Z) (m : machine D B) : machine D B :=
  let q := view qv (m_drv m) in
  let '(d, sh) := dev_step qi (m_dev m) (mkShared (vq_desc q) (vq_avail q) (vq_used q) (m_ram m)) in
  let q' := mkVirtQueue (vq_dma q) (sh_desc sh) (sh_avail sh) (sh_used sh) (queue_idx q) (queue_size q)
              (num_used q) (free_head q) (avail_idx q) (last_used_idx q) in
  mkMachine d (sh_ram sh) (update qv q' (m_drv m)).
(** [virtio-drivers/blk.rs:66-68] VirtIOBlk::read_block. The loop that polls the
    queue; the device may move at each turn. *)
Fixpoint spin_until_used (fuel : nat) (qv : lens B VirtQueue) (qi : Z) : M (machine D B) unit := λ m,
  if VirtQueue_can_pop (view qv (m_drv m)) then Ok (tt, m)
  else match fuel with
       | O => Fault Fuel
       | S fuel => spin_until_used fuel qv qi (dev_moves qv qi m)
       end.
End driver.

(** ** Requests *)
(** [virtio-drivers/blk.rs:232-238] ReqType *)
Inductive ReqType : Type := In_ | Out | Flush | Discard | WriteZeroes.
Definition ReqType_discriminant (t : ReqType) : Z :=
  match t with In_ => 0 | Out => 1 | Flush => 4 | Discard => 11 | WriteZeroes => 13 end.
(** [virtio-drivers/blk.rs:210-214] BlkReq *)
Record BlkReq : Type := mkBlkReq { type_ : ReqType; reserved : Z; sector : Z }.
(** Its bytes ([AsBuf]): the struct is [repr(C)]. *)
Definition BlkReq_bytes (r : BlkReq) : list Z :=
  Z_to_little_endian 4 8 (ReqType_discriminant (type_ r)) ++ Z_to_little_endian 4 8 (reserved r) ++
  Z_to_little_endian 8 8 (sector r).
(** [virtio-drivers/blk.rs:243-252] RespStatus *)
Inductive RespStatus : Type := RespOk | IoErr | Unsupported | _NotReady.
Definition RespStatus_discriminant (s : RespStatus) : Z :=
  match s with RespOk => 0 | IoErr => 1 | Unsupported => 2 | _NotReady => 3 end.
(** [virtio-drivers/blk.rs:219-221] BlkResp *)
Record BlkResp : Type := mkBlkResp { resp_status : RespStatus }.
(** [virtio-drivers/blk.rs:225-227] BlkResp::status *)
Definition BlkResp_status (r : BlkResp) : RespStatus := resp_status r.
Definition BlkResp_bytes (r : BlkResp) : list Z := [RespStatus_discriminant (resp_status r)].
(** [virtio-drivers/blk.rs:254-260] Default for BlkResp *)
Definition BlkResp_default : BlkResp := mkBlkResp _NotReady.
(** [virtio-drivers/blk.rs:262-262] BLK_SIZE *)
Definition BLK_SIZE : Z := 512.

(** [virtio-drivers/blk.rs:265-310] BlkFeature. The bits of the flags. *)
Definition BlkFeature_bits : list Z :=
  [0; 1; 2; 4; 5; 6; 7; 9; 10; 11; 13; 14; 24; 27; 28; 29; 30; 32; 33; 34; 35; 36; 37; 38].
Definition BlkFeature_all : Z := foldr (λ b m, Z.lor (2 ^ b) m) 0 BlkFeature_bits.
(** [from_bits_truncate] and the negotiation of [new]. *)
Definition BlkFeature_from_bits_truncate (x : Z) : Z := Z.land x BlkFeature_all.
Definition BlkFeature_empty : Z := 0.

(** [virtio-drivers/blk.rs:13-17] VirtIOBlk *)
Record VirtIOBlk : Type := mkVirtIOBlk { blk_queue : VirtQueue; blk_capacity : Z }.
Definition blk_queue_ : lens VirtIOBlk VirtQueue := Lens blk_queue (λ q b, mkVirtIOBlk q (blk_capacity b)).
(** [virtio-drivers/blk.rs:192-206] BlkConfig. The sizes of the fields, in order;
    the capacity comes first. *)
Definition BlkConfig_sizes : list Z := [8; 4; 4; 2; 1; 1; 4; 1; 1; 2; 4].
Definition BlkConfig_capacity : Z := 0.

Section blk.
Context {D : Type} `{VirtioDevice D}.

(** [virtio-drivers/blk.rs:21-48] VirtIOBlk::new. The capacity is the first
    word of the configuration space. *)
Definition VirtIOBlk_new : M D (Result VirtIOBlk VirtioError) :=
  VirtIOHeader_begin_init (λ features,
    let features := BlkFeature_from_bits_truncate features in
    Z.land features BlkFeature_empty) ;;
  let* queue := VirtQueue_new 0 16 in
  match queue with
  | err e => ret (err e)
  | ok queue =>
      VirtIOHeader_finish_init ;;
      let* capacity := (λ d, Ok (mmio_read (CONFIG_SPACE_OFFSET + BlkConfig_capacity) d)) in
      ret (ok (mkVirtIOBlk queue (wrap64 capacity)))
  end.

Abbreviation BM := (M (machine D VirtIOBlk)).
(** [virtio-drivers/blk.rs:51-53] VirtIOBlk::ack_interrupt *)
Definition VirtIOBlk_ack_interrupt : BM bool := zoom dev_ VirtIOHeader_ack_interrupt.

(** The request of [read_block] and [read_block_nb]: [req] and [resp] are the
    addresses of the two structures. *)
(** [virtio-drivers/blk.rs:104-119] VirtIOBlk::read_block_nb. From a response the
    caller has initialised. *)
Definition VirtIOBlk_read_block_nb (req resp block_id : Z) (b : buf) : BM (Result Z VirtioError) :=
  lift (assert_ (b_len b =? BLK_SIZE)) ;;
  store_at req (BlkReq_bytes (mkBlkReq In_ 0 block_id)) ;;
  let* token := on_queue blk_queue_ (λ v2p, VirtQueue_add v2p [mkBuf req 16] [b; mkBuf resp 1]) in
  match token with
  | err e => ret (err e)
  | ok token => zoom dev_ (VirtIOHeader_notify 0) ;; ret (ok token)
  end.
(** [virtio-drivers/blk.rs:159-174] VirtIOBlk::write_block_nb *)
Definition VirtIOBlk_write_block_nb (req resp block_id : Z) (b : buf) : BM (Result Z VirtioError) :=
  lift (assert_ (b_len b =? BLK_SIZE)) ;;
  store_at req (BlkReq_bytes (mkBlkReq Out 0 block_id)) ;;
  let* token := on_queue blk_queue_ (λ v2p, VirtQueue_add v2p [mkBuf req 16; b] [mkBuf resp 1]) in
  match token with
  | err e => ret (err e)
  | ok token => zoom dev_ (VirtIOHeader_notify 0) ;; ret (ok token)
  end.

(** The end of [read_block] and [write_block]: polling, taking the chain back,
    and the status. *)
(** [virtio-drivers/blk.rs:66-73] VirtIOBlk::read_block. The lines are the same
    in [write_block]. *)
Definition blk_finish (fuel : nat) (resp : Z) : BM (Result unit VirtioError) :=
  spin_until_used fuel blk_queue_ 0 ;;
  let* r := on_queue blk_queue_ (λ _, VirtQueue_pop_used) in
  match r with
  | err e => ret (err e)
  | ok _ =>
      let* st := load_at resp 1 in
      ret (if decide (st = BlkResp_bytes (mkBlkResp RespOk)) then ok tt else err IoError)
  end.
(** [virtio-drivers/blk.rs:56-74] VirtIOBlk::read_block *)
Definition VirtIOBlk_read_block (fuel : nat) (req resp block_id : Z) (b : buf) : BM (Result unit VirtioError) :=
  lift (assert_ (b_len b =? BLK_SIZE)) ;;
  store_at req (BlkReq_bytes (mkBlkReq In_ 0 block_id)) ;;
  store_at resp (BlkResp_bytes BlkResp_default) ;;
  let* r := on_queue blk_queue_ (λ v2p, VirtQueue_add v2p [mkBuf req 16] [b; mkBuf resp 1]) in
  match r with
  | err e => ret (err e)
  | ok _ => zoom dev_ (VirtIOHeader_notify 0) ;; blk_finish fuel resp
  end.
(** [virtio-drivers/blk.rs:122-140] VirtIOBlk::write_block *)
Definition VirtIOBlk_write_block (fuel : nat) (req resp block_id : Z) (b : buf) : BM (Result unit VirtioError) :=
  lift (assert_ (b_len b =? BLK_SIZE)) ;;
  store_at req (BlkReq_bytes (mkBlkReq Out 0 block_id)) ;;
  store_at resp (BlkResp_bytes BlkResp_default) ;;
  let* r := on_queue blk_queue_ (λ v2p, VirtQueue_add v2p [mkBuf req 16; b] [mkBuf resp 1]) in
  match r with
  | err e => ret (err e)
  | ok _ => zoom dev_ (VirtIOHeader_notify 0) ;; blk_finish fuel resp
  end.
(** [virtio-drivers/blk.rs:179-181] VirtIOBlk::pop_used *)
Definition VirtIOBlk_pop_used : BM (Result Z VirtioError) :=
  let* r := on_queue blk_queue_ (λ _, VirtQueue_pop_used) in
  ret (match r with ok p => ok p.1 | err e => err e end).
(** [virtio-drivers/blk.rs:185-187] VirtIOBlk::virt_queue_size *)
Definition VirtIOBlk_virt_queue_size (b : VirtIOBlk) : Z := VirtQueue_size (blk_queue b).
End blk.

(** ** Facts about the memory *)
Lemma ram_store_lookup bs : ∀ r a x,
  ram_store r a bs !! x = if decide (a ≤ x < a + len bs) then bs !! Z.to_nat (x - a) else r !! x.
Proof.
  induction bs as [|b bs IH]; intros r a x.
  { cbn. rewrite decide_False by (unfold len; cbn; lia). done. }
  cbn [ram_store]. rewrite IH. assert (Hl : len (b :: bs) = 1 + len bs) by (unfold len; cbn; lia). pose proof (len_nonneg bs).
  rewrite Hl. destruct (decide (x = a)) as [->|Hx].
  - case_decide; [lia|]. case_decide; [|lia]. rewrite lookup_insert_eq.
    by replace (Z.to_nat (a - a)) with O by lia.
  - rewrite lookup_insert_ne by done. destruct (decide (a + 1 ≤ x < a + 1 + len bs)).
    + rewrite decide_True by lia. by replace (Z.to_nat (x - a)) with (S (Z.to_nat (x - (a + 1)))) by lia.
    + by rewrite decide_False by lia.
Qed.
Lemma length_ram_load r a n : length (ram_load r a n) = n.
Proof. unfold ram_load. by rewrite length_fmap, length_seq. Qed.
Lemma ram_load_ext r r' a n :
  (∀ x, a ≤ x < a + Z.of_nat n → r' !! x = r !! x) → ram_load r' a n = ram_load r a n.
Proof.
  intros Hx. apply list_fmap_ext. intros i j Hj. apply lookup_seq in Hj as [-> Hi]. f_equal. apply Hx. lia.
Qed.
Lemma ram_load_store_eq r a bs : ram_load (ram_store r a bs) a (length bs) = bs.
Proof.
  apply list_eq. intros i. destruct (decide (i < length bs)%nat) as [Hi|Hi].
  - unfold ram_load. rewrite list_lookup_fmap, lookup_seq_lt by done. cbn [fmap option_fmap option_map].
    rewrite ram_store_lookup, decide_True by (unfold len; lia). replace (Z.to_nat _) with i by lia.
    destruct (lookup_lt_is_Some_2 bs i Hi) as [b Hb]. by rewrite Hb.
  - rewrite !lookup_ge_None_2; [done|lia|rewrite length_ram_load; lia].
Qed.
Lemma ram_load_store_ne r a bs b n :
  b + Z.of_nat n ≤ a ∨ a + len bs ≤ b → ram_load (ram_store r a bs) b n = ram_load r b n.
Proof. intros Hd. apply ram_load_ext. intros x Hx. rewrite ram_store_lookup, decide_False by lia. done. Qed.
Lemma ram_load_app r a n m : ram_load r a (n + m) = ram_load r a n ++ ram_load r (a + Z.of_nat n) m.
Proof.
  unfold ram_load. rewrite seq_app, fmap_app. f_equal. apply list_eq. intros i. rewrite !list_lookup_fmap.
  destruct (decide (i < m)%nat).
  - rewrite !lookup_seq_lt by done. cbn. by replace (a + Z.of_nat (n + i)) with (a + Z.of_nat n + Z.of_nat i) by lia.
  - rewrite !lookup_ge_None_2 by (rewrite length_seq; lia). done.
Qed.

(** ** The block device of the standard *)
Inductive request : Type :=
| RdReq (sec data st : Z)
| WrReq (sec : Z) (data : list Z) (st : Z).
Definition req_sector (rq : request) : Z := match rq with RdReq s _ _ | WrReq s _ _ => s end.
Definition ram_num (r : bmem) (a : Z) (n : nat) : Z := little_endian_to_Z 8 (ram_load r a n).
(** A chain of a header, one block and a status byte, and what it asks for. *)
Definition blk_request (r : bmem) (l : list (Z * Z * bool)) : option request :=
  match l with
  | [(h, hl, hw); (b, bl, w); (s, sl, sw)] =>
      let ty := ram_num r h 4 in let sec := ram_num r (h + 8) 8 in
      if negb ((hl =? 16) && (bl =? 512) && (sl =? 1)) || hw || negb sw then None
      else if (ty =? 0) && w then Some (RdReq sec b s)
      else if (ty =? 1) && negb w then Some (WrReq sec (ram_load r b 512) s) else None
  | _ => None
  end.
Lemma blk_request_block r l sec data st : blk_request r l = Some (WrReq sec data st) → len data = 512.
Proof.
  unfold blk_request. destruct l as [|[[h hl] hw] [|[[b bl] w] [|[[s sl] sw] [|]]]]; try discriminate. cbv zeta.
  destruct (_ || _ || _); [discriminate|]. destruct (_ && w); [discriminate|]. destruct (_ && _); [|discriminate].
  remember (ram_load r b 512) as d eqn:Hd. intros [= _ <- _]. rewrite Hd. unfold len. by rewrite length_ram_load.
Qed.
Definition serve_ram (rq : request) (disk : list (list Z)) (r : bmem) : bmem :=
  match rq with
  | RdReq sec b s => ram_store (ram_store r b (default [] (disk !! Z.to_nat sec))) s [0]
  | WrReq _ _ s => ram_store r s [0]
  end.
Definition serve_disk (rq : request) (disk : list (list Z)) : list (list Z) :=
  match rq with RdReq _ _ _ => disk | WrReq sec data _ => <[Z.to_nat sec := data]> disk end.
(** The used ring with one more element. *)
Definition used_push (u : UsedRing) (n : Z) (e : UsedElem) : UsedRing :=
  mkUsed (us_flags u) (wrap16 (us_idx u + 1)) (<[Z.to_nat (us_idx u mod n) := e]> (us_ring u)) (us_avail_event u).

(** The device moves [k] times on its queue [qi]. *)
Fixpoint dev_run {D} `{VirtioDevice D} (qi : Z) (k : nat) (p : D * shared) : D * shared :=
  match k with
  | O => p
  | S k => dev_run qi k (dev_step qi p.1 p.2)
  end.

(** The device of the standard: [ready n a u d] says that [d] has an idle queue
    of [n] descriptors of which it has seen the available index [a] and for
    which it has written the used index [u].  Notified of a further chain that
    is a request for a sector it has, it executes the request and returns the
    chain, within [bound] moves. *)
Class VirtioBlkLaws (D : Type) `{VirtioDevice D} (sectors : D → list (list Z))
    (ready : Z → Z → Z → D → Prop) (bound : nat) : Prop := {
  law_sector n a u d b : ready n a u d → b ∈ sectors d → len b = 512;
  law_capacity n a u d : ready n a u d → len (sectors d) < 2 ^ 64;
  law_serve n a u d sh hd l rq :
    ready n a u d → av_idx (sh_avail sh) = wrap16 (a + 1) →
    av_ring (sh_avail sh) !! Z.to_nat (a mod n) = Some hd → us_idx (sh_used sh) = u →
    chain_at (Z.to_nat n) (sh_desc sh) hd = Some l → blk_request (sh_ram sh) (dview <$> l.*2) = Some rq →
    0 ≤ req_sector rq < len (sectors d) →
    ∃ k d' e, (k ≤ bound)%nat ∧ ue_id e = hd ∧
      dev_run 0 k (mmio_write (offset_of Reg.queue_notify) 0 d, sh) =
        (d', mkShared (sh_desc sh) (sh_avail sh) (used_push (sh_used sh) n e) (serve_ram rq (sectors d) (sh_ram sh))) ∧
      (∀ j, (j < k)%nat → us_idx (sh_used (dev_run 0 j (mmio_write (offset_of Reg.queue_notify) 0 d, sh)).2) = u) ∧
      ready n (wrap16 (a + 1)) (wrap16 (u + 1)) d' ∧ sectors d' = serve_disk rq (sectors d);
}.

(** ** Polling *)
Section spin.
Context {D B : Type} `{VirtioDevice D} (qv : lens B VirtQueue) (qi : Z).
Context (view_update : ∀ q b, view qv (update qv q b) = q)
  (update_update : ∀ q q' b, update qv q' (update qv q b) = update qv q' b).

Definition q_shared (q : VirtQueue) (r : bmem) : shared := mkShared (vq_desc q) (vq_avail q) (vq_used q) r.
Definition q_with (q : VirtQueue) (sh : shared) : VirtQueue :=
  mkVirtQueue (vq_dma q) (sh_desc sh) (sh_avail sh) (sh_used sh) (queue_idx q) (queue_size q)
    (num_used q) (free_head q) (avail_idx q) (last_used_idx q).
Definition m_with (m : machine D B) (p : D * shared) : machine D B :=
  mkMachine p.1 (sh_ram p.2) (update qv (q_with (view qv (m_drv m)) p.2) (m_drv m)).

Lemma dev_moves_with m p : dev_moves qv qi (m_with m p) = m_with m (dev_step qi p.1 p.2).
Proof.
  destruct p as [d [ds a u r]]. unfold dev_moves, m_with. cbn. rewrite view_update. cbn.
  destruct (dev_step qi d _) as [d' sh']. cbn. by rewrite update_update.
Qed.
(** The device answers at its [k]th move. *)
Lemma spin_run k : ∀ fuel m p, (k ≤ fuel)%nat →
  (∀ j, (j < k)%nat → us_idx (sh_used (dev_run qi j p).2) = last_used_idx (view qv (m_drv m))) →
  us_idx (sh_used (dev_run qi k p).2) ≠ last_used_idx (view qv (m_drv m)) →
  spin_until_used fuel qv qi (m_with m p) = Ok (tt, m_with m (dev_run qi k p)).
Proof.
  induction k as [|k IH]; intros fuel m p Hf Hj Hk.
  - assert (Hc : VirtQueue_can_pop (view qv (m_drv (m_with m p))) = true).
    { unfold VirtQueue_can_pop, m_with. cbn. rewrite view_update. cbn. apply negb_true_iff, Z.eqb_neq. cbn in Hk. congruence. }
    destruct fuel; cbn [spin_until_used]; by rewrite Hc.
  - destruct fuel as [|fuel]; [lia|]. assert (Hc : VirtQueue_can_pop (view qv (m_drv (m_with m p))) = false).
    { unfold VirtQueue_can_pop, m_with. cbn. rewrite view_update. cbn. apply negb_false_iff, Z.eqb_eq.
      rewrite <- (Hj O) by lia. done. }
    cbn [spin_until_used]. rewrite Hc, dev_moves_with. apply IH; [lia| |done]. intros j Hjk. apply (Hj (S j)). lia.
Qed.

(** ** One request *)
(** A queue of [n] descriptors with no request in flight. *)
Definition q_idle (n : Z) (q : VirtQueue) : Prop :=
  ∃ free, vq_rep q free [] ∧ queue_size q = n ∧ us_idx (vq_used q) = last_used_idx q.

Lemma wrap16_succ_ne x : 0 ≤ x < 2 ^ 16 → wrap16 (x + 1) ≠ x.
Proof.
  intros Hx. unfold wrap16. destruct (decide (x + 1 = 2 ^ 16)) as [He|]; [rewrite He, Z.mod_same; lia|].
  rewrite Z.mod_small by lia. lia.
Qed.
Lemma rep_q_with q free out sh :
  vq_rep q free out → sh_desc sh = vq_desc q → sh_avail sh = vq_avail q → len (us_ring (sh_used sh)) = 32 →
  vq_rep (q_with q sh) free out.
Proof. intros [Hsz Hd [? ?] Hal Hf Ho Hnu Hav Hus] Hds Ha Hu. split; cbn; rewrite ?Hds, ?Ha; done. Qed.

(** What the device makes of a chain with the views [v], offered to it as the
    next one of an idle queue, within [bound] moves after the notification: it
    returns the chain, with [P] of its new state, the memory and the length. *)
Definition serves (bound : nat) (n : Z) (q : VirtQueue) (d : D) (r : bmem) (v : list (Z * Z * bool))
    (P : D → bmem → Z → Prop) : Prop :=
  ∀ sh hd l, av_idx (sh_avail sh) = wrap16 (avail_idx q + 1) →
    av_ring (sh_avail sh) !! Z.to_nat (avail_idx q mod n) = Some hd → us_idx (sh_used sh) = last_used_idx q →
    chain_at (Z.to_nat n) (sh_desc sh) hd = Some l → dview <$> l.*2 = v → sh_ram sh = r →
    let p0 := (mmio_write (offset_of Reg.queue_notify) qi d, sh) in
    ∃ k d' e r', (k ≤ bound)%nat ∧ ue_id e = hd ∧
      dev_run qi k p0 = (d', mkShared (sh_desc sh) (sh_avail sh) (used_push (sh_used sh) n e) r') ∧
      (∀ j, (j < k)%nat → us_idx (sh_used (dev_run qi j p0).2) = last_used_idx q) ∧ P d' r' (ue_len e).

(** A request on an idle queue of a device that serves it: it is added, the
    device notified and polled, and the chain taken back. *)
Lemma exchange bound n fuel (m : machine D B) ins outs ps P :
  q_idle n (view qv (m_drv m)) → Forall2 (phys_of (hal_virt_to_phys (m_dev m))) (tagged ins outs) ps → ins ++ outs ≠ [] →
  len ins + len outs ≤ n → (bound ≤ fuel)%nat →
  serves bound n (view qv (m_drv m)) (m_dev m) (m_ram m) (fview <$> ps) P →
  ∃ tok m1 m2 p m2' m3, on_queue qv (λ v2p, VirtQueue_add v2p ins outs) m = Ok (ok tok, m1) ∧
    zoom dev_ (VirtIOHeader_notify qi) m1 = Ok (tt, m2) ∧
    spin_until_used fuel qv qi m2 = Ok (tt, m2') ∧
    on_queue qv (λ _, VirtQueue_pop_used) m2' = Ok (ok p, m3) ∧
    (∃ q3, m_drv m3 = update qv q3 (m_drv m) ∧ q_idle n q3 ∧
       avail_idx q3 = wrap16 (avail_idx (view qv (m_drv m)) + 1) ∧
       last_used_idx q3 = wrap16 (last_used_idx (view qv (m_drv m)) + 1)) ∧
    P (m_dev m3) (m_ram m3) p.2.
Proof.
  destruct m as [d r b]. intros (free & Hr & Hsz & Hus) Hps Hne Hle Hfuel Hserve. cbn [m_dev m_ram m_drv] in *.
  set (q := view qv b) in *. pose proof (rep_bounds _ _ _ Hr) as Hn. rewrite Hsz in Hn.
  destruct (VirtQueue_add_ok (hal_virt_to_phys d) q free [] ins outs ps) as (q' & l & free' & Hadd & Hr' & _ & Hv & Hav & Hai & Hus' & Hlu & Hsz' & _);
    try done.
  { pose proof (rep_free_len _ _ _ Hr) as Hf. rewrite (rep_num _ _ _ Hr) in Hf. unfold len in *. cbn in Hf. lia. }
  assert (Hc : chain_at (Z.to_nat n) (vq_desc q') (chain_head l) = Some l).
  { pose proof (rep_out _ _ _ Hr') as Ho. apply Forall_cons in Ho as [Ho _]. apply chain_at_chained; [done|].
    pose proof (rep_free_len _ _ _ Hr') as Hf. rewrite (rep_num _ _ _ Hr') in Hf. cbn in Hf. rewrite app_nil_r in Hf.
    pose proof (len_nonneg free'). unfold len in *. lia. }
  destruct (rep_rings _ _ _ Hr) as [Hra Hru]. pose proof (rep_avail _ _ _ Hr) as [_ Hai0]. pose proof (rep_used _ _ _ Hr) as Hlu0.
  assert (Hslot : ∀ x, 0 ≤ x → 0 ≤ x mod n < 32) by (intros x Hx; pose proof (Z.mod_pos_bound x n); lia).
  destruct (Hserve (q_shared q' r) (chain_head l) l) as (k & d' & e & r' & Hk & He & Hrun & Hj & HP); [..|done|].
  { cbn. by rewrite Hav. }
  { cbn. rewrite Hav. unfold avail_push. cbn. rewrite Hsz. apply list_lookup_insert_eq. pose proof (Hslot (avail_idx q)). unfold len in *. lia. }
  { cbn. by rewrite Hus'. }
  { done. }
  { done. }
  set (sh' := mkShared _ _ _ _) in Hrun. set (d0 := mmio_write _ _ d) in *. set (m2 := mkMachine d0 r (update qv q' b)).
  assert (Hm2 : m_with m2 (d0, q_shared q' r) = m2).
  { unfold m_with, m2. cbn. rewrite view_update, update_update. by destruct q'. }
  assert (Hv2 : view qv (m_drv m2) = q') by (cbn; by rewrite view_update).
  set (q2 := q_with q' sh'). assert (Hr2 : vq_rep q2 free' [l]).
  { apply rep_q_with; [done|done|done|]. cbn. unfold len in *. rewrite length_insert, Hus'. done. }
  destruct (VirtQueue_pop_used_ok q2 free' [] l [] e) as (q3 & Hpop & Hr3 & Hlu3 & Hus3 & Hav3 & Hai3 & Hsz3); [done| | | |].
  { unfold VirtQueue_can_pop. cbn. rewrite Hus', Hus, Hlu. apply negb_true_iff, Z.eqb_neq. pose proof (wrap16_succ_ne (last_used_idx q)). lia. }
  { cbn. rewrite Hsz', Hsz, Hlu, Hus', Hus. apply list_lookup_insert_eq. pose proof (Hslot (last_used_idx q)). unfold len in *. lia. }
  { rewrite He. apply Z.mod_small. destruct (rep_chain_head _ _ _ l Hr' ltac:(set_solver)) as [Hin _].
    pose proof (rep_bounds _ _ _ Hr'). pose proof (rep_range _ _ _ (chain_head l) Hr'). cbn in *. rewrite app_nil_r in *. set_solver by lia. }
  eexists (chain_head l), _, m2, _, (m_with m2 (d', sh')), (mkMachine d' r' (update qv q3 b)). split_and!.
  - unfold on_queue. cbn [m_dev m_drv m_ram]. fold q. by rewrite Hadd.
  - done.
  - rewrite <- Hm2 at 1. rewrite <- Hrun. apply spin_run; [lia| |].
    + intros j Hjk. rewrite Hv2, Hlu. by apply Hj.
    + rewrite Hrun, Hv2. cbn. rewrite Hus', Hus, Hlu. pose proof (wrap16_succ_ne (last_used_idx q)). lia.
  - unfold on_queue, m_with. cbn [m_dev m_drv m_ram fst snd sh_ram sh']. rewrite view_update, Hv2. fold q2. rewrite Hpop.
    unfold m2. cbn [m_drv]. by rewrite !update_update.
  - exists q3. split; [done|]. split; [exists (l.*1 ++ free'); rewrite Hsz3, Hus3, Hlu3|rewrite Hlu3, Hai3].
    + cbn. rewrite Hsz', Hus', Hus, Hlu. done.
    + cbn. by rewrite Hlu, Hai.
  - exact HP.
Qed.
End spin.

Section exchange.
Context {D : Type} `{VirtioDevice D} (sectors : D → list (list Z)) (ready : Z → Z → Z → D → Prop) (bound : nat).
Context {HL : VirtioBlkLaws D sectors ready bound}.
Implicit Types m : machine D VirtIOBlk.

(** The driver has no request in flight. *)
Definition blk_ok (m : machine D VirtIOBlk) : Prop :=
  let q := blk_queue (m_drv m) in q_idle 16 q ∧ ready 16 (avail_idx q) (last_used_idx q) (m_dev m).

Lemma blk_exchange fuel m ins outs ps rq :
  blk_ok m → Forall2 (phys_of (hal_virt_to_phys (m_dev m))) (tagged ins outs) ps → ins ++ outs ≠ [] →
  len ins + len outs ≤ 16 → blk_request (m_ram m) (fview <$> ps) = Some rq →
  0 ≤ req_sector rq < len (sectors (m_dev m)) → (bound ≤ fuel)%nat →
  ∃ tok m1 m2 p m3, on_queue blk_queue_ (λ v2p, VirtQueue_add v2p ins outs) m = Ok (ok tok, m1) ∧
    zoom dev_ (VirtIOHeader_notify 0) m1 = Ok (tt, m2) ∧
    (∃ m2', spin_until_used fuel blk_queue_ 0 m2 = Ok (tt, m2') ∧
       on_queue blk_queue_ (λ _, VirtQueue_pop_used) m2' = Ok (ok p, m3)) ∧
    blk_ok m3 ∧ m_ram m3 = serve_ram rq (sectors (m_dev m)) (m_ram m) ∧
    sectors (m_dev m3) = serve_disk rq (sectors (m_dev m)).
Proof.
  intros [Hidle Hrdy] Hps Hne Hle Hrq Hsec Hfuel. set (q := blk_queue (m_drv m)) in *.
  destruct (exchange blk_queue_ 0 ltac:(done) ltac:(done) bound 16 fuel m ins outs ps
    (λ d' r' _, ready 16 (wrap16 (avail_idx q + 1)) (wrap16 (last_used_idx q + 1)) d' ∧
       sectors d' = serve_disk rq (sectors (m_dev m)) ∧ r' = serve_ram rq (sectors (m_dev m)) (m_ram m)))
    as (tok & m1 & m2 & p & m2' & m3 & Ha & Hn & Hs & Hp & (q3 & Hd3 & Hi3 & Ha3 & Hl3) & Hr3 & Hs3 & Hram3); try done.
  { intros sh hd l H1 H2 H3 H4 H5 H6.
    destruct (law_serve 16 (avail_idx q) (last_used_idx q) (m_dev m) sh hd l rq) as (k & d' & e & Hk & He & Hrun & Hj & Hr' & Hs');
      try done. { by rewrite H5, H6. }
    exists k, d', e, (serve_ram rq (sectors (m_dev m)) (m_ram m)). rewrite <- H6. split_and!; done. }
  exists tok, m1, m2, p, m3. split_and!; try done; [by exists m2'|]. unfold blk_ok. rewrite Hd3. cbn. by rewrite Ha3, Hl3.
Qed.
End exchange.

(** ** Reading and writing a block *)
Definition sep (a n b k : Z) : Prop := a + n ≤ b ∨ b + k ≤ a.

Lemma length_BlkReq_bytes r : length (BlkReq_bytes r) = 16%nat.
Proof.
  unfold BlkReq_bytes. rewrite !length_app.
  pose proof (length_Z_to_little_endian 4 8 (ReqType_discriminant (type_ r))). pose proof (length_Z_to_little_endian 4 8 (reserved r)).
  pose proof (length_Z_to_little_endian 8 8 (sector r)). lia.
Qed.
(** The fields a device reads back from the request. *)
Lemma BlkReq_fields r a rq bs b :
  sep a 16 b (len bs) → 0 ≤ sector rq < 2 ^ 64 →
  let r' := ram_store (ram_store r a (BlkReq_bytes rq)) b bs in
  ram_num r' a 4 = ReqType_discriminant (type_ rq) ∧ ram_num r' (a + 8) 8 = sector rq.
Proof.
  intros Hs Hr r'. assert (Hl : ram_load r' a 16 = BlkReq_bytes rq).
  { unfold r'. rewrite ram_load_store_ne by (unfold sep in Hs; lia).
    replace 16%nat with (length (BlkReq_bytes rq)) by apply length_BlkReq_bytes. apply ram_load_store_eq. }
  change 16%nat with (4 + (4 + 8))%nat in Hl. rewrite !ram_load_app in Hl. unfold BlkReq_bytes in Hl.
  pose proof (length_Z_to_little_endian 4 8 (ReqType_discriminant (type_ rq))) as L1. pose proof (length_Z_to_little_endian 4 8 (reserved rq)) as L2.
  apply app_inj_1 in Hl as [H1 Hl]; [|rewrite length_ram_load; lia]. apply app_inj_1 in Hl as [_ H2]; [|rewrite length_ram_load; lia].
  unfold ram_num. split.
  - rewrite H1, little_endian_to_Z_to_little_endian by lia. apply Z.mod_small. by destruct (type_ rq).
  - replace (a + 8) with (a + Z.of_nat 4 + Z.of_nat 4) by lia. rewrite H2, little_endian_to_Z_to_little_endian by lia.
    apply Z.mod_small. lia.
Qed.

Section block.
Context {D : Type} `{VirtioDevice D} (sectors : D → list (list Z)) (ready : Z → Z → Z → D → Prop) (bound : nat).
Context {HL : VirtioBlkLaws D sectors ready bound}.
(** The two structures and the block lie apart in memory the kernel maps
    identically. *)
Context (req resp bufa : Z) (Hsep : sep req 16 resp 1 ∧ sep req 16 bufa 512 ∧ sep resp 1 bufa 512).
Context (identity : ∀ n a u d p, ready n a u d → p ∈ [req; resp; bufa] → hal_virt_to_phys d p = Ok p).
Implicit Types m : machine D VirtIOBlk.
#[local] Notation ok_ := (blk_ok ready).

Lemma blk_ok_ram m r : ok_ m → ok_ (mkMachine (m_dev m) r (m_drv m)).
Proof. done. Qed.
Lemma blk_ok_phys m f p n :
  ok_ m → p = req ∨ p = resp ∨ p = bufa → 0 ≤ n < 2 ^ 32 → phys_of (hal_virt_to_phys (m_dev m)) (f, mkBuf p n) (f, p, n).
Proof.
  intros (_ & Hr) Hp Hn. split_and!; [|done|by symmetry; apply Z.mod_small].
  eapply identity; [exact Hr|]. rewrite !elem_of_cons. tauto.
Qed.
Lemma blk_ok_phys3 m l ps :
  ok_ m → l = (λ p : Z * Z * Z, (p.1.1, mkBuf p.1.2 p.2)) <$> ps →
  Forall (λ p : Z * Z * Z, (p.1.2 = req ∨ p.1.2 = resp ∨ p.1.2 = bufa) ∧ 0 ≤ p.2 < 2 ^ 32) ps →
  Forall2 (phys_of (hal_virt_to_phys (m_dev m))) l ps.
Proof.
  intros Hok -> Hps. induction Hps as [|[[f p] n] ps [Hp Hn] Hps IH]; constructor; [|done].
  by apply blk_ok_phys.
Qed.

Lemma blk_finish_ok fuel m2 m2' p m3 :
  spin_until_used fuel blk_queue_ 0 m2 = Ok (tt, m2') →
  on_queue blk_queue_ (λ _, VirtQueue_pop_used) m2' = Ok (ok p, m3) → ram_load (m_ram m3) resp 1 = [0] →
  blk_finish fuel resp m2 = Ok (ok tt, m3).
Proof.
  intros Hs Hp Hst. unfold blk_finish. rewrite (bind_run _ _ _ _ _ Hs), (bind_run _ _ _ _ _ Hp).
  unfold bind, load_at. rewrite Hst. done.
Qed.

(** The machine after the request and the response are written. *)
Definition prepared (t : ReqType) (i : Z) m : machine D VirtIOBlk :=
  mkMachine (m_dev m) (ram_store (ram_store (m_ram m) req (BlkReq_bytes (mkBlkReq t 0 i))) resp [3]) (m_drv m).
Lemma read_block_prefix fuel i m :
  VirtIOBlk_read_block fuel req resp i (mkBuf bufa 512) m =
  (let* r := on_queue blk_queue_ (λ v2p, VirtQueue_add v2p [mkBuf req 16] [mkBuf bufa 512; mkBuf resp 1]) in
   match r with
   | err e => ret (err e)
   | ok _ => zoom dev_ (VirtIOHeader_notify 0) ;; blk_finish fuel resp
   end) (prepared In_ i m).
Proof. reflexivity. Qed.
Lemma write_block_prefix fuel i m :
  VirtIOBlk_write_block fuel req resp i (mkBuf bufa 512) m =
  (let* r := on_queue blk_queue_ (λ v2p, VirtQueue_add v2p [mkBuf req 16; mkBuf bufa 512] [mkBuf resp 1]) in
   match r with
   | err e => ret (err e)
   | ok _ => zoom dev_ (VirtIOHeader_notify 0) ;; blk_finish fuel resp
   end) (prepared Out i m).
Proof. reflexivity. Qed.

Lemma VirtIOBlk_read_block_ok fuel m i b :
  ok_ m → (bound ≤ fuel)%nat → 0 ≤ i → sectors (m_dev m) !! Z.to_nat i = Some b →
  ∃ m', VirtIOBlk_read_block fuel req resp i (mkBuf bufa 512) m = Ok (ok tt, m') ∧ ok_ m' ∧
    sectors (m_dev m') = sectors (m_dev m) ∧ ram_load (m_ram m') bufa 512 = b.
Proof.
  intros Hok Hf Hi Hb. destruct Hsep as (S1 & S2 & S3). assert (Hlt := lookup_lt_Some _ _ _ Hb).
  assert (Hlen : len b = 512 ∧ len (sectors (m_dev m)) < 2 ^ 64).
  { destruct Hok as (_ & Hr). split; [|by eapply law_capacity].
    eapply law_sector; [done|]. by eapply list_elem_of_lookup_2. }
  set (r0 := ram_store (ram_store (m_ram m) req (BlkReq_bytes (mkBlkReq In_ 0 i))) resp [3]).
  destruct (BlkReq_fields (m_ram m) req (mkBlkReq In_ 0 i) [3] resp) as [Hty Hse]; [done|cbn; unfold len in *; lia|].
  fold r0 in Hty, Hse. set (m0 := mkMachine (m_dev m) r0 (m_drv m)).
  destruct (blk_exchange sectors ready bound fuel m0 [mkBuf req 16] [mkBuf bufa 512; mkBuf resp 1]
    [(1, req, 16); (3, bufa, 512); (3, resp, 1)] (RdReq i bufa resp)) as (tok & m1 & m2 & p & m3 & Ha & Hn & (m2' & Hsp & Hpo) & Hok3 & Hram & Hsec);
    try done.
  { apply (blk_ok_phys3 m); [done|done|]. repeat apply List.Forall_cons; try apply List.Forall_nil; cbn; split; (tauto || lia). }
  { cbn in Hty, Hse |- *. by rewrite Hty, Hse. }
  { cbn. unfold len in *. lia. }
  assert (Hrm : m_ram m3 = ram_store (ram_store r0 bufa b) resp [0]) by (rewrite Hram; cbn; by rewrite Hb).
  exists m3. split_and!; try done.
  - rewrite read_block_prefix. unfold prepared. fold r0 m0. rewrite (bind_run _ _ _ _ _ Ha), (bind_run _ _ _ _ _ Hn).
    eapply blk_finish_ok; [done..|]. rewrite Hrm. exact (ram_load_store_eq _ resp [0]).
  - rewrite Hrm, ram_load_store_ne by (unfold sep in S3; unfold len; cbn; lia).
    replace 512%nat with (length b) by (unfold len in *; lia). apply ram_load_store_eq.
Qed.

Lemma VirtIOBlk_write_block_ok fuel m i :
  ok_ m → (bound ≤ fuel)%nat → 0 ≤ i < len (sectors (m_dev m)) →
  ∃ m', VirtIOBlk_write_block fuel req resp i (mkBuf bufa 512) m = Ok (ok tt, m') ∧ ok_ m' ∧
    sectors (m_dev m') = <[Z.to_nat i := ram_load (m_ram m) bufa 512]> (sectors (m_dev m)).
Proof.
  intros Hok Hf Hi. destruct Hsep as (S1 & S2 & S3).
  assert (Hcap : len (sectors (m_dev m)) < 2 ^ 64) by (destruct Hok as (_ & Hr); by eapply law_capacity).
  set (r0 := ram_store (ram_store (m_ram m) req (BlkReq_bytes (mkBlkReq Out 0 i))) resp [3]).
  destruct (BlkReq_fields (m_ram m) req (mkBlkReq Out 0 i) [3] resp) as [Hty Hse]; [done|cbn; lia|].
  fold r0 in Hty, Hse. set (m0 := mkMachine (m_dev m) r0 (m_drv m)).
  assert (Hdata : ram_load r0 bufa 512 = ram_load (m_ram m) bufa 512).
  { unfold r0. rewrite !ram_load_store_ne; [done| |].
    - unfold sep in *. assert (len (BlkReq_bytes (mkBlkReq Out 0 i)) = 16) by (unfold len; by rewrite length_BlkReq_bytes). lia.
    - unfold sep, len in *. cbn. lia. }
  destruct (blk_exchange sectors ready bound fuel m0 [mkBuf req 16; mkBuf bufa 512] [mkBuf resp 1]
    [(1, req, 16); (1, bufa, 512); (3, resp, 1)] (WrReq i (ram_load r0 bufa 512) resp))
    as (tok & m1 & m2 & p & m3 & Ha & Hn & (m2' & Hsp & Hpo) & Hok3 & Hram & Hsec); try done.
  { apply (blk_ok_phys3 m); [done|done|]. repeat apply List.Forall_cons; try apply List.Forall_nil; cbn; split; (tauto || lia). }
  { cbn in Hty, Hse |- *. by rewrite Hty, Hse. }
  exists m3. split_and!; [|done|by rewrite Hsec, <- Hdata].
  rewrite write_block_prefix. unfold prepared. fold r0 m0. rewrite (bind_run _ _ _ _ _ Ha), (bind_run _ _ _ _ _ Hn).
  eapply blk_finish_ok; [done..|]. rewrite Hram. exact (ram_load_store_eq _ resp [0]).
Qed.
End block.

(** ** Creating the driver *)
(** A device that accepts a queue of sixteen descriptors in memory that is zero
    gives a driver with no request in flight. *)
Lemma VirtIOBlk_new_ok {D} `{VirtioDevice D} (ready : Z → Z → Z → D → Prop) (d d0 d1 d2 d3 d4 d5 d6 : D) mx paddr va cap :
  VirtIOHeader_begin_init (λ f, Z.land (BlkFeature_from_bits_truncate f) BlkFeature_empty) d = Ok (tt, d0) →
  VirtIOHeader_queue_used 0 d0 = Ok (false, d1) → VirtIOHeader_max_queue_size d1 = Ok (mx, d2) → 16 ≤ mx →
  hal_dma_alloc 2 d2 = Ok (paddr, d3) → 0 < paddr < 2 ^ 32 →
  VirtIOHeader_queue_set 0 16 VIRTIO_PAGE_SIZE (Z.shiftr paddr 12) d3 = Ok (tt, d4) →
  hal_phys_to_virt d4 paddr = Ok va → 0 ≤ va < 2 ^ 63 → (∀ a, va ≤ a < va + 8192 → hal_load d4 a = 0) →
  VirtIOHeader_finish_init d4 = Ok (tt, d5) → mmio_read CONFIG_SPACE_OFFSET d5 = (cap, d6) → ready 16 0 0 d6 →
  ∃ b, VirtIOBlk_new d = Ok (ok b, d6) ∧ (∀ r, blk_ok ready (mkMachine d6 r b)) ∧ blk_capacity b = wrap64 cap.
Proof.
  intros Hb Hu Hm Hmx Hd Hp Hs Hva Hva0 Hz Hf Hc Hr.
  destruct (VirtQueue_new_ok 0 4 paddr va d1 d2 d3 d4 d0 mx) as (q & Hq & Hrep & Hsz & Hai & Hlu & Hui); try done.
  exists (mkVirtIOBlk q (wrap64 cap)). split_and!; [|intros r; split; cbn; [exists (seqZ 0 16); by rewrite Hlu|by rewrite Hai, Hlu]|done].
  unfold VirtIOBlk_new. rewrite (bind_run _ _ _ _ _ Hb), (bind_run _ _ _ _ _ Hq), (bind_run _ _ _ _ _ Hf).
  unfold bind, ret. change (CONFIG_SPACE_OFFSET + BlkConfig_capacity) with CONFIG_SPACE_OFFSET. by rewrite Hc.
Qed.

(** A block written through the driver is read back, and no other block
    changes: on an idle queue, whatever its indices, both requests are taken,
    answered by the device and return [Ok], and leave the queue idle. *)
Theorem VirtIOBlk_write_read {D} `{VirtioDevice D} sectors ready bound `{!VirtioBlkLaws D sectors ready bound}
    req resp bufa fuel i j (m : machine D VirtIOBlk) b data :
  sep req 16 resp 1 ∧ sep req 16 bufa 512 ∧ sep resp 1 bufa 512 →
  (∀ n a u d p, ready n a u d → p ∈ [req; resp; bufa] → hal_virt_to_phys d p = Ok p) →
  blk_ok ready m → (bound ≤ fuel)%nat → 0 ≤ i < len (sectors (m_dev m)) → 0 ≤ j →
  sectors (m_dev m) !! Z.to_nat j = Some b → ram_load (m_ram m) bufa 512 = data →
  ∃ m1 m2, VirtIOBlk_write_block fuel req resp i (mkBuf bufa 512) m = Ok (ok tt, m1) ∧
    VirtIOBlk_read_block fuel req resp j (mkBuf bufa 512) m1 = Ok (ok tt, m2) ∧ blk_ok ready m2 ∧
    ram_load (m_ram m2) bufa 512 = (if decide (i = j) then data else b) ∧
    sectors (m_dev m2) = <[Z.to_nat i := data]> (sectors (m_dev m)).
Proof.
  intros Hs Hid Hok Hf Hi Hj Hb <-.
  destruct (VirtIOBlk_write_block_ok sectors ready bound req resp bufa Hs Hid fuel m i Hok Hf Hi) as (m1 & Hw & Hok1 & Hs1).
  destruct (VirtIOBlk_read_block_ok sectors ready bound req resp bufa Hs Hid fuel m1 j
    (if decide (i = j) then ram_load (m_ram m) bufa 512 else b) Hok1 Hf Hj) as (m2 & Hr & Hok2 & Hs2 & Hd).
  { rewrite Hs1. destruct (decide (i = j)) as [<-|Hne].
    - apply list_lookup_insert_eq. unfold len in Hi. lia.
    - rewrite list_lookup_insert_ne by lia. done. }
  exists m1, m2. split_and!; try done. congruence.
Qed.

(** ** A device *)
(** A disk that answers at its first move after a notification. *)
Record sdisk : Type := mkSdisk {
  sd_sectors : list (list Z); sd_num : Z; sd_pfn : Z; sd_seen : Z; sd_notified : bool }.
#[export] Instance sdisk_Mmio : Mmio sdisk := {|
  mmio_read a d :=
    (if a =? offset_of Reg.queue_num_max then 1024 else if a =? offset_of Reg.queue_pfn then sd_pfn d
     else if a =? CONFIG_SPACE_OFFSET then len (sd_sectors d) else 0, d);
  mmio_write a v d :=
    if a =? offset_of Reg.queue_num then mkSdisk (sd_sectors d) v (sd_pfn d) (sd_seen d) (sd_notified d)
    else if a =? offset_of Reg.queue_pfn then mkSdisk (sd_sectors d) (sd_num d) v 0 false
    else if a =? offset_of Reg.queue_notify then mkSdisk (sd_sectors d) (sd_num d) (sd_pfn d) (sd_seen d) true
    else d |}.
#[export] Instance sdisk_Hal : Hal sdisk := {|
  hal_dma_alloc _ := ret 0x80400000; hal_dma_dealloc _ _ := ret 0;
  hal_phys_to_virt _ := Ok; hal_virt_to_phys _ := Ok; hal_load _ _ := 0 |}.
Definition sdisk_step (d : sdisk) (sh : shared) : sdisk * shared :=
  if sd_notified d && negb (av_idx (sh_avail sh) =? sd_seen d) then
    match (hd ← av_ring (sh_avail sh) !! Z.to_nat (sd_seen d mod sd_num d);
           l ← chain_at (Z.to_nat (sd_num d)) (sh_desc sh) hd;
           rq ← blk_request (sh_ram sh) (dview <$> l.*2); Some (hd, rq)) with
    | Some (hd, rq) =>
        (mkSdisk (serve_disk rq (sd_sectors d)) (sd_num d) (sd_pfn d) (wrap16 (sd_seen d + 1)) false,
         mkShared (sh_desc sh) (sh_avail sh) (used_push (sh_used sh) (sd_num d) (mkUsedElem hd 1))
           (serve_ram rq (sd_sectors d) (sh_ram sh)))
    | None => (d, sh)
    end
  else (d, sh).
#[export] Instance sdisk_device : VirtioDevice sdisk := {| dev_step _ := sdisk_step |}.
Definition sdisk_ready (n a u : Z) (d : sdisk) : Prop :=
  sd_num d = n ∧ sd_seen d = a ∧ 0 ≤ a < 2 ^ 16 ∧ Forall (λ b, len b = 512) (sd_sectors d) ∧ len (sd_sectors d) < 2 ^ 64.
#[export] Instance sdisk_laws : VirtioBlkLaws sdisk sd_sectors sdisk_ready 1.
Proof.
  split.
  - intros n a u d b (_ & _ & _ & Hb & _). rewrite Forall_forall in Hb. apply Hb.
  - by intros n a u d (_ & _ & _ & _ & Hl).
  - intros n a u d sh hd l rq (Hn & Ha & Ha0 & Hb & Hl) Hav Hring Hus Hc Hrq Hs.
    set (d1 := mmio_write _ 0 d). assert (Hd1 : d1 = mkSdisk (sd_sectors d) n (sd_pfn d) a true) by (destruct d; cbn in *; by subst).
    assert (Hstep : sdisk_step d1 sh = (mkSdisk (serve_disk rq (sd_sectors d)) n (sd_pfn d) (wrap16 (a + 1)) false,
      mkShared (sh_desc sh) (sh_avail sh) (used_push (sh_used sh) n (mkUsedElem hd 1)) (serve_ram rq (sd_sectors d) (sh_ram sh)))).
    { unfold sdisk_step. rewrite Hd1. cbn [sd_notified sd_seen sd_num sd_sectors sd_pfn andb]. rewrite Hav.
      rewrite (proj2 (Z.eqb_neq _ _)) by (apply wrap16_succ_ne; lia). cbn [negb]. rewrite Hring. cbn [mbind option_bind].
      rewrite Hc. cbn [mbind option_bind]. rewrite Hrq. done. }
    eexists 1%nat, _, (mkUsedElem hd 1). split_and!; [done|done|exact Hstep| | |done].
    + intros j Hj. by replace j with O by lia.
    + split; [done|]. split; [done|]. split; [apply Z.mod_pos_bound; lia|]. split.
      * destruct rq; [done|]. cbn in *. apply Forall_insert; [done|].
        by eapply blk_request_block.
      * destruct rq; [done|]. cbn. unfold len. by rewrite length_insert.
Qed.

(** The driver on a disk of two blocks. *)
Definition sdisk2 : sdisk := mkSdisk [replicate 512 1; replicate 512 2] 0 0 0 false.
Lemma sdisk2_new : ∃ b d, VirtIOBlk_new sdisk2 = Ok (ok b, d) ∧ sd_sectors d = sd_sectors sdisk2 ∧
  ∀ r, blk_ok sdisk_ready (mkMachine d r b).
Proof.
  destruct (VirtIOBlk_new_ok sdisk_ready sdisk2 sdisk2 sdisk2 sdisk2 sdisk2
    (mkSdisk (sd_sectors sdisk2) 16 0x80400 0 false) (mkSdisk (sd_sectors sdisk2) 16 0x80400 0 false)
    (mkSdisk (sd_sectors sdisk2) 16 0x80400 0 false) 1024 0x80400000 0x80400000 2) as (b & Hb & Hok & _); try reflexivity; try lia.
  { split_and!; [done|done|lia|done| |done]. repeat constructor. }
  exists b, (mkSdisk (sd_sectors sdisk2) 16 0x80400 0 false). split; [exact Hb|]. split; [reflexivity|exact Hok].
Qed.
Lemma VirtIOBlk_write_read_witness : ∃ b d m1 m2,
  VirtIOBlk_new sdisk2 = Ok (ok b, d) ∧
  let m := mkMachine d (ram_store ∅ 8192 (replicate 512 7)) b in
  VirtIOBlk_write_block 1 4096 4112 0 (mkBuf 8192 512) m = Ok (ok tt, m1) ∧
  VirtIOBlk_read_block 1 4096 4112 1 (mkBuf 8192 512) m1 = Ok (ok tt, m2) ∧
  ram_load (m_ram m2) 8192 512 = replicate 512 2 ∧ sd_sectors (m_dev m2) = [replicate 512 7; replicate 512 2].
Proof.
  destruct sdisk2_new as (b & d & Hnew & Hsec & Hok).
  destruct (VirtIOBlk_write_read sd_sectors sdisk_ready 1 4096 4112 8192 1 0 1
    (mkMachine d (ram_store ∅ 8192 (replicate 512 7)) b) (replicate 512 2) (replicate 512 7)) as (m1 & m2 & Hw & Hr & _ & Hd & Hs).
  - unfold sep. lia.
  - done.
  - apply Hok.
  - done.
  - cbn [m_dev]. rewrite Hsec. unfold sdisk2, len. cbn [sd_sectors length]. lia.
  - lia.
  - cbn [m_dev]. by rewrite Hsec.
  - exact (ram_load_store_eq ∅ 8192 (replicate 512 7)).
  - exists b, d, m1, m2. cbn [m_dev] in Hs. rewrite Hsec in Hs.
    split; [exact Hnew|]. cbv zeta. split; [exact Hw|]. split; [exact Hr|]. split; [exact Hd|exact Hs].
Defined.
