(* ===== verification/VirtioServe.v ===== *)
(** * Requests on a virtqueue, and devices that serve them

    The network, console and graphics drivers put one chain at a time into a
    queue, notify the device, poll until it has answered and take the chain
    back ([transact]).  [ServingLaws] is what they rely on: the device applies
    its service function to the chain it is notified of, within a bounded
    number of its moves.  [server] is a device with any service function. *)

From S2P Require Import Prelude PhysMem VirtQueue VirtioBlk.

(** ** A request *)
(** [virtio-drivers/net.rs:89-94] VirtIONet::send. Adding the chain, notifying
    the device, polling and taking the chain back; [VirtIONet::recv],
    [VirtIOConsole::send], [VirtIOGpu::request] and [VirtIOGpu::cursor_request]
    have the same lines. *)
Definition transact {D B} `{VirtioDevice D} (fuel : nat) (qv : lens B VirtQueue) (qi : Z) (ins outs : list buf) :
    M (machine D B) (Result (Z * Z) VirtioError) :=
  let* r := on_queue qv (λ v2p, VirtQueue_add v2p ins outs) in
  match r with
  | err e => ret (err e)
  | ok _ =>
      zoom dev_ (VirtIOHeader_notify qi) ;;
      spin_until_used fuel qv qi ;;
      on_queue qv (λ _, VirtQueue_pop_used)
  end.

(** [n] bytes of the configuration space. *)
Fixpoint read_config {D} `{Mmio D} (at_ : Z) (n : nat) : M D (list Z) :=
  match n with
  | O => ret []
  | S n =>
      let* b := (λ d, Ok (mmio_read (CONFIG_SPACE_OFFSET + at_) d)) in
      let* bs := read_config (at_ + 1) n in
      ret (wrap8 b :: bs)
  end.

(** ** What a driver relies on *)
(** A service: the chain's views, the state and the memory to the new state, the
    new memory and the number of bytes written. *)
Abbreviation service S := (Z → list (Z * Z * bool) → S → bmem → option (S * bmem * Z)).
(** [ready qi n a u d]: the queue [qi] of the device has [n] descriptors, and the
    device has seen the available index [a] and written the used index [u]. *)
Class ServingLaws (D S : Type) `{VirtioDevice D} (serve : service S) (state : D → S)
    (ready : Z → Z → Z → Z → D → Prop) (mapped : Z → Prop) (bound : nat) : Prop := {
  law_served qi n a u d sh hd l s' r' ln :
    ready qi n a u d → av_idx (sh_avail sh) = wrap16 (a + 1) →
    av_ring (sh_avail sh) !! Z.to_nat (a mod n) = Some hd → us_idx (sh_used sh) = u →
    chain_at (Z.to_nat n) (sh_desc sh) hd = Some l →
    serve qi (dview <$> l.*2) (state d) (sh_ram sh) = Some (s', r', ln) →
    let p0 := (mmio_write (offset_of Reg.queue_notify) qi d, sh) in
    ∃ k d', (k ≤ bound)%nat ∧
      dev_run qi k p0 = (d', mkShared (sh_desc sh) (sh_avail sh) (used_push (sh_used sh) n (mkUsedElem hd ln)) r') ∧
      (∀ j, (j < k)%nat → us_idx (sh_used (dev_run qi j p0).2) = u) ∧
      state d' = s' ∧ ready qi n (wrap16 (a + 1)) (wrap16 (u + 1)) d' ∧
      (∀ qj n' a' u', qj ≠ qi → ready qj n' a' u' d → ready qj n' a' u' d');
  law_identity qi n a u d p : ready qi n a u d → mapped p → hal_virt_to_phys d p = Ok p;
}.

Section transact.
Context {D S B : Type} `{VirtioDevice D} (serve : service S) (state : D → S)
  (ready : Z → Z → Z → Z → D → Prop) (mapped : Z → Prop) (bound : nat).
Context {HL : ServingLaws D S serve state ready mapped bound}.

(** The queue [q] is idle, and so is the device's side of it. *)
Definition q_ready (qi n : Z) (q : VirtQueue) (d : D) : Prop :=
  q_idle n q ∧ ready qi n (avail_idx q) (last_used_idx q) d.

(** The buffers of a chain, by address and length. *)
Definition bufs_view (ins outs : list buf) : list (Z * Z * bool) :=
  ((λ b, (b_ptr b, b_len b, false)) <$> ins) ++ ((λ b, (b_ptr b, b_len b, true)) <$> outs).
Definition buf_ok (b : buf) : Prop := mapped (b_ptr b) ∧ 0 ≤ b_len b < 2 ^ 32.

Lemma phys_tagged qi n a u d f (l : list buf) :
  ready qi n a u d → Forall buf_ok l →
  Forall2 (phys_of (hal_virt_to_phys d)) ((λ b, (f, b)) <$> l) ((λ b, (f, b_ptr b, b_len b)) <$> l).
Proof.
  intros Hr Hl. induction Hl as [|b l [Hm Hn] Hl IH]; cbn; constructor; [|done].
  split_and!; [by eapply law_identity|done|by symmetry; apply Z.mod_small].
Qed.

(** A request the device serves is carried out, and both queues are idle
    again. *)
Lemma transact_served (qv : lens B VirtQueue) qi n fuel (m : machine D B) ins outs s' r' ln :
  (∀ q b, view qv (update qv q b) = q) → (∀ q q' b, update qv q' (update qv q b) = update qv q' b) →
  q_ready qi n (view qv (m_drv m)) (m_dev m) → (bound ≤ fuel)%nat → ins ++ outs ≠ [] → len ins + len outs ≤ n →
  Forall buf_ok (ins ++ outs) → serve qi (bufs_view ins outs) (state (m_dev m)) (m_ram m) = Some (s', r', ln) →
  ∃ tok q' m', transact fuel qv qi ins outs m = Ok (ok (tok, ln), m') ∧
    m_drv m' = update qv q' (m_drv m) ∧ q_ready qi n q' (m_dev m') ∧ state (m_dev m') = s' ∧ m_ram m' = r' ∧
    (∀ qj n' q'', qj ≠ qi → q_ready qj n' q'' (m_dev m) → q_ready qj n' q'' (m_dev m')).
Proof.
  intros Hvu Huu [Hidle Hrdy] Hf Hne Hle Hb Hserve. set (q := view qv (m_drv m)) in *. apply Forall_app in Hb as [Hbi Hbo].
  set (ps := ((λ b, (DescFlags_NEXT, b_ptr b, b_len b)) <$> ins) ++ ((λ b, (Z.lor DescFlags_NEXT DescFlags_WRITE, b_ptr b, b_len b)) <$> outs)).
  assert (Hv : fview <$> ps = bufs_view ins outs) by (unfold ps, bufs_view; rewrite fmap_app, <- !list_fmap_compose; done).
  destruct (exchange qv qi Hvu Huu bound n fuel m ins outs ps (λ d' r ln', ln' = ln ∧ r = r' ∧ state d' = s' ∧
      ready qi n (wrap16 (avail_idx q + 1)) (wrap16 (last_used_idx q + 1)) d' ∧
      (∀ qj n' a' u', qj ≠ qi → ready qj n' a' u' (m_dev m) → ready qj n' a' u' d')))
    as (tok & m1 & m2 & [tk ln'] & m2' & m3 & Ha & Hn & Hs & Hp & (q3 & Hd3 & Hi3 & Ha3 & Hl3) & Hln & Hr3 & Hs3 & Hrd3 & Hot3); try done.
  { unfold tagged, ps. apply Forall2_app; by eapply phys_tagged. }
  { intros sh hd l H1 H2 H3 H4 H5 H6. rewrite Hv in H5. rewrite <- H5, <- H6 in Hserve.
    destruct (law_served qi n _ _ _ sh hd l s' r' ln Hrdy H1 H2 H3 H4 Hserve) as (k & d' & Hk & Hrun & Hj & Hst & Hrd & Hot).
    exists k, d', (mkUsedElem hd ln), r'. split_and!; done. }
  cbn in Hln. subst ln'. exists tk, q3, m3. split_and!; try done.
  - unfold transact. by rewrite (bind_run _ _ _ _ _ Ha), (bind_run _ _ _ _ _ Hn), (bind_run _ _ _ _ _ Hs), Hp.
  - unfold q_ready. by rewrite Ha3, Hl3.
  - intros qj n' q'' Hne' [Hi Hr]. split; [done|]. by apply Hot3.
Qed.
End transact.

(** ** A device *)
(** A device with queues of at most 32 descriptors that applies the service to
    the chains it finds, one at a move; its memory is handed out upwards. *)
Record server (S : Type) : Type := mkServer {
  sv_state : S; sv_num : gmap Z Z; sv_pfn : gmap Z Z; sv_seen : gmap Z Z;
  sv_sel : Z; sv_irq : Z; sv_config : list Z; sv_brk : Z }.
Arguments mkServer {S}.
Arguments sv_state {S}.
Arguments sv_num {S}.
Arguments sv_pfn {S}.
Arguments sv_seen {S}.
Arguments sv_sel {S}.
Arguments sv_irq {S}.
Arguments sv_config {S}.
Arguments sv_brk {S}.

Section server.
Context {S : Type} (serve : service S).
Implicit Types d : server S.

Definition server_Mmio : Mmio (server S) := {|
  mmio_read a d :=
    (if a =? offset_of Reg.queue_num_max then 32
     else if a =? offset_of Reg.queue_pfn then default 0 (sv_pfn d !! sv_sel d)
     else if a =? offset_of Reg.interrupt_status then sv_irq d
     else if CONFIG_SPACE_OFFSET <=? a then default 0 (sv_config d !! Z.to_nat (a - CONFIG_SPACE_OFFSET)) else 0, d);
  mmio_write a v d :=
    let '(mkServer s nu pf se sl iq co br) := d in
    if a =? offset_of Reg.queue_sel then mkServer s nu pf se v iq co br
    else if a =? offset_of Reg.queue_num then mkServer s (<[sl := v]> nu) pf (<[sl := 0]> se) sl iq co br
    else if a =? offset_of Reg.queue_pfn then mkServer s nu (<[sl := v]> pf) se sl iq co br
    else if a =? offset_of Reg.interrupt_ack then mkServer s nu pf se sl (Z.ldiff iq v) co br
    else d |}.
Definition server_Hal : Hal (server S) := {|
  hal_dma_alloc pages d :=
    let '(mkServer s nu pf se sl iq co br) := d in Ok (br, mkServer s nu pf se sl iq co (br + 4096 * pages));
  hal_dma_dealloc _ _ := ret 0;
  hal_phys_to_virt _ := Ok; hal_virt_to_phys _ := Ok; hal_load _ _ := 0 |}.
Definition server_step (qi : Z) (d : server S) (sh : shared) : server S * shared :=
  let '(mkServer s nu pf se sl iq co br) := d in
  let seen := default 0 (se !! qi) in let num := default 0 (nu !! qi) in
  if av_idx (sh_avail sh) =? seen then (d, sh)
  else match (hd ← av_ring (sh_avail sh) !! Z.to_nat (seen mod num);
              l ← chain_at (Z.to_nat num) (sh_desc sh) hd;
              x ← serve qi (dview <$> l.*2) s (sh_ram sh); Some (hd, x)) with
       | Some (hd, (s', r', ln)) =>
           (mkServer s' nu pf (<[qi := wrap16 (seen + 1)]> se) sl (Z.lor iq 1) co br,
            mkShared (sh_desc sh) (sh_avail sh) (used_push (sh_used sh) num (mkUsedElem hd ln)) r')
       | None => (d, sh)
       end.
Definition server_device : VirtioDevice (server S) :=
  {| dev_mmio := server_Mmio; dev_hal := server_Hal; dev_step := server_step |}.
Definition server_ready (qi n a u : Z) (d : server S) : Prop :=
  sv_num d !! qi = Some n ∧ sv_seen d !! qi = Some a ∧ 0 ≤ a < 2 ^ 16.

#[local] Existing Instance server_device.
(** One move serves the chain; it leaves the memory allocator alone. *)
Lemma server_served qi n a d sh hd l s' r' ln :
  sv_num d !! qi = Some n → sv_seen d !! qi = Some a → 0 ≤ a < 2 ^ 16 →
  av_idx (sh_avail sh) = wrap16 (a + 1) → av_ring (sh_avail sh) !! Z.to_nat (a mod n) = Some hd →
  chain_at (Z.to_nat n) (sh_desc sh) hd = Some l → serve qi (dview <$> l.*2) (sv_state d) (sh_ram sh) = Some (s', r', ln) →
  dev_run qi 1 (mmio_write (offset_of Reg.queue_notify) qi d, sh) =
    (mkServer s' (sv_num d) (sv_pfn d) (<[qi := wrap16 (a + 1)]> (sv_seen d)) (sv_sel d) (Z.lor (sv_irq d) 1) (sv_config d) (sv_brk d),
     mkShared (sh_desc sh) (sh_avail sh) (used_push (sh_used sh) n (mkUsedElem hd ln)) r').
Proof.
  destruct d as [s nu pf se sl iq co br]. cbn [sv_num sv_seen sv_state]. intros Hn Hs Ha Hav Hring Hc Hserve.
  cbn [dev_run fst snd dev_step server_device]. change (mmio_write _ qi _) with (mkServer s nu pf se sl iq co br).
  unfold server_step. rewrite Hs, Hn. cbn [default id]. rewrite Hav, (proj2 (Z.eqb_neq _ _)) by (apply wrap16_succ_ne; lia).
  rewrite Hring. cbn [mbind option_bind]. rewrite Hc. cbn [mbind option_bind]. by rewrite Hserve.
Qed.
(** The device with its allocator in a state where [P] holds. *)
Definition server_ready_at (P : Z → Prop) (qi n a u : Z) (d : server S) : Prop := server_ready qi n a u d ∧ P (sv_brk d).
Lemma server_laws_at P : ServingLaws (server S) S serve sv_state (server_ready_at P) (λ _, True) 1.
Proof.
  split; [|done]. intros qi n a u d sh hd l s' r' ln ((Hn & Hs & Ha) & HP) Hav Hring Hus Hc Hserve.
  eexists 1%nat, _. split; [done|]. split; [by eapply server_served|]. split; [intros j Hj; by replace j with O by lia|].
  split; [done|]. assert (Hw : 0 ≤ wrap16 (a + 1) < 2 ^ 16) by (apply Z.mod_pos_bound; lia). split.
  - split; [split_and!; [done|apply lookup_insert_eq|lia..]|done].
  - intros qj n' a' u' Hq ((Hn' & Hs' & Ha') & HP'). split; [|done]. split_and!; try done; [|lia..]. cbn. by rewrite lookup_insert_ne.
Qed.
Lemma server_laws : ServingLaws (server S) S serve sv_state server_ready (λ _, True) 1.
Proof.
  split; [|done]. intros qi n a u d sh hd l s' r' ln (Hn & Hs & Ha) Hav Hring Hus Hc Hserve.
  destruct (server_laws_at (λ _, True)) as [Hlaw _].
  destruct (Hlaw qi n a u d sh hd l s' r' ln) as (k & d' & Hk & Hrun & Hj & Hst & [Hr _] & Hot); [by split|done..|].
  exists k, d'. split_and!; [done..|]. intros qj n' a' u' Hq Hr'. by apply (Hot qj n' a' u').
Qed.

(** A queue the driver has not yet set up is created with all its descriptors
    free. *)
Lemma server_queue_new k qi s nu pf se sl iq co br :
  0 ≤ k ≤ 5 → 0 ≤ qi < 2 ^ 32 → pf !! qi = None → 0 < br < 2 ^ 32 →
  ∃ q, VirtQueue_new qi (2 ^ k) (mkServer s nu pf se sl iq co br) =
      Ok (ok q, mkServer s (<[qi := 2 ^ k]> nu) (<[qi := Z.shiftr br 12]> pf) (<[qi := 0]> se) qi iq co (br + 8192)) ∧
    vq_rep q (seqZ 0 (2 ^ k)) [] ∧ queue_size q = 2 ^ k ∧ avail_idx q = 0 ∧ last_used_idx q = 0 ∧ us_idx (vq_used q) = 0.
Proof.
  intros Hk Hqi Hpf Hbr. assert (Hw : wrap32 qi = qi) by (by apply Z.mod_small).
  eapply (VirtQueue_new_ok qi k br br (mkServer s nu pf se qi iq co br) (mkServer s nu pf se qi iq co br)
    (mkServer s nu pf se qi iq co (br + 8192)) _ _ 32); rewrite ?Hw; try done; try lia.
  - transitivity (Ok (negb (default 0 (pf !! qi) =? 0), mkServer s nu pf se qi iq co br)); [reflexivity|by rewrite Hpf].
  - change 32 with (2 ^ 5). apply Z.pow_le_mono_r; lia.
Qed.
End server.
