(* ===== verification/VirtioNet.v ===== *)
(** * The network driver ([virtio-drivers/src/net.rs])

    [VirtIONet] sends and receives one frame at a time: a chain of a header and
    the frame in the transmit or the receive queue.  The theorem is proved
    against a device with the service [net_serve] of the standard. *)

From S2P Require Import Prelude PhysMem VirtQueue VirtioBlk VirtioServe.

(** ** Constants and data *)
(** [virtio-drivers/net.rs:99-158] Features. The bits of the flags. *)
Definition NetFeatures_bits : list Z :=
  [0; 1; 2; 3; 5; 6; 7; 8; 9; 10; 11; 12; 13; 14; 15; 16; 17; 18; 19; 20; 21; 22; 23; 28; 29; 32].
Definition NetFeatures_all : Z := foldr (λ b m, Z.lor (2 ^ b) m) 0 NetFeatures_bits.
Definition NetFeatures_MAC : Z := 2 ^ 5.
Definition NetFeatures_STATUS : Z := 2 ^ 16.
(** [virtio-drivers/net.rs:176-179] Config. The offsets of the fields. *)
Definition NetConfig_mac : Z := 0.
Definition NetConfig_status : Z := 6.
(** [virtio-drivers/net.rs:181-181] EthernetAddress. Six bytes. *)
Definition EthernetAddress : Type := list Z.
(** [virtio-drivers/net.rs:186-194] Header. The sizes of the fields, in order. *)
Definition NetHeader_sizes : list Z := [1; 1; 2; 2; 2; 2].
Definition size_of_NetHeader : Z := foldr Z.add 0 NetHeader_sizes.
(** [virtio-drivers/net.rs:216-216] QUEUE_RECEIVE *)
Definition QUEUE_RECEIVE : Z := 0.
(** [virtio-drivers/net.rs:217-217] QUEUE_TRANSMIT *)
Definition QUEUE_TRANSMIT : Z := 1.
(** [virtio-drivers/net.rs:16-21] VirtIONet *)
Record VirtIONet : Type := mkVirtIONet { net_mac : EthernetAddress; recv_queue : VirtQueue; send_queue : VirtQueue }.
Definition recv_queue_ : lens VirtIONet VirtQueue := Lens recv_queue (λ q n, mkVirtIONet (net_mac n) q (send_queue n)).
Definition send_queue_ : lens VirtIONet VirtQueue := Lens send_queue (λ q n, mkVirtIONet (net_mac n) (recv_queue n) q).

(** ** Operations *)
Section net.
Context {D : Type} `{VirtioDevice D}.

(** [virtio-drivers/net.rs:25-49] VirtIONet::new. When the second queue fails the
    first is dropped, and with it the memory it lies in. *)
Definition VirtIONet_new : M D (Result VirtIONet VirtioError) :=
  VirtIOHeader_begin_init (λ features,
    let features := Z.land features NetFeatures_all in
    let supported_features := Z.lor NetFeatures_MAC NetFeatures_STATUS in
    Z.land features supported_features) ;;
  let* mac := read_config NetConfig_mac 6 in
  let queue_num := 2 in
  let* recv_queue := VirtQueue_new QUEUE_RECEIVE queue_num in
  match recv_queue with
  | err e => ret (err e)
  | ok recv_queue =>
      let* send_queue := VirtQueue_new QUEUE_TRANSMIT queue_num in
      match send_queue with
      | err e => DMA_drop (vq_dma recv_queue) ;; ret (err e)
      | ok send_queue =>
          VirtIOHeader_finish_init ;;
          ret (ok (mkVirtIONet mac recv_queue send_queue))
      end
  end.

Abbreviation NM := (M (machine D VirtIONet)).
(** [virtio-drivers/net.rs:52-54] VirtIONet::ack_interrupt *)
Definition VirtIONet_ack_interrupt : NM bool := zoom dev_ VirtIOHeader_ack_interrupt.
(** [virtio-drivers/net.rs:57-59] VirtIONet::mac *)
Definition VirtIONet_mac (n : VirtIONet) : EthernetAddress := net_mac n.
(** [virtio-drivers/net.rs:62-64] VirtIONet::can_send *)
Definition VirtIONet_can_send (n : VirtIONet) : bool := 2 <=? VirtQueue_available_desc (send_queue n).
(** [virtio-drivers/net.rs:67-69] VirtIONet::can_recv *)
Definition VirtIONet_can_recv (n : VirtIONet) : bool := VirtQueue_can_pop (recv_queue n).
(** [virtio-drivers/net.rs:72-84] VirtIONet::recv. [header] is the address of the
    header on the stack. *)
Definition VirtIONet_recv (fuel : nat) (header : Z) (b : buf) : NM (Result Z VirtioError) :=
  let* r := transact fuel recv_queue_ QUEUE_RECEIVE [] [mkBuf header size_of_NetHeader; b] in
  match r with
  | err e => ret (err e)
  | ok (_, len) => ret (ok (len -u size_of_NetHeader))
  end.
(** [virtio-drivers/net.rs:87-96] VirtIONet::send *)
Definition VirtIONet_send (fuel : nat) (header : Z) (b : buf) : NM (Result unit VirtioError) :=
  store_at header (replicate (Z.to_nat size_of_NetHeader) 0) ;;
  let* r := transact fuel send_queue_ QUEUE_TRANSMIT [mkBuf header size_of_NetHeader; b] [] in
  match r with
  | err e => ret (err e)
  | ok _ => ret (ok tt)
  end.
End net.

(** ** The network device of the standard *)
(** The frames it has put on the wire and the frames that wait for a buffer. *)
Record wire : Type := mkWire { w_sent : list (list Z); w_incoming : list (list Z) }.
(** A transmit chain is a readable header that asks for nothing and the frame; a
    receive chain is room for a header and for the frame, and the device says
    how many bytes it has written. *)
Definition net_serve : service wire := λ qi l s r,
  match l with
  | [(h, hl, w); (b, n, w')] =>
      if negb (hl =? 10) then None
      else if (qi =? 1) && negb w && negb w' && bool_decide (ram_load r h 10 = replicate 10 0) then
        Some (mkWire (w_sent s ++ [ram_load r b (Z.to_nat n)]) (w_incoming s), r, 0)
      else if (qi =? 0) && w && w' then
        match w_incoming s with
        | f :: rest =>
            if len f <=? n then
              Some (mkWire (w_sent s) rest, ram_store (ram_store r h (replicate 10 0)) b f, 10 + len f)
            else None
        | [] => None
        end
      else None
  | _ => None
  end.

Section proofs.
Context {D : Type} `{VirtioDevice D} (state : D → wire)
  (ready : Z → Z → Z → Z → D → Prop) (mapped : Z → Prop) (bound : nat).
Context {HL : ServingLaws D wire net_serve state ready mapped bound}.

(** Neither queue has a frame in flight. *)
Definition net_ok (m : machine D VirtIONet) : Prop :=
  q_ready ready QUEUE_RECEIVE 2 (recv_queue (m_drv m)) (m_dev m) ∧
  q_ready ready QUEUE_TRANSMIT 2 (send_queue (m_drv m)) (m_dev m).

Lemma net_ok_can_send m : net_ok m → VirtIONet_can_send (m_drv m) = true ∧ VirtIONet_can_recv (m_drv m) = false.
Proof.
  intros [[(free & Hr & Hs & Hu) _] [(free' & Hr' & Hs' & _) _]].
  unfold VirtIONet_can_send, VirtIONet_can_recv, VirtQueue_available_desc, VirtQueue_can_pop.
  rewrite (rep_num _ _ _ Hr'), Hs', Hu, Z.eqb_refl. done.
Qed.

Lemma VirtIONet_send_ok fuel header p data m :
  net_ok m → (bound ≤ fuel)%nat → mapped header → mapped p → len data < 2 ^ 32 →
  sep header 10 p (len data) → ram_load (m_ram m) p (length data) = data →
  ∃ m', VirtIONet_send fuel header (mkBuf p (len data)) m = Ok (ok tt, m') ∧ net_ok m' ∧
    net_mac (m_drv m') = net_mac (m_drv m) ∧
    state (m_dev m') = mkWire (w_sent (state (m_dev m)) ++ [data]) (w_incoming (state (m_dev m))).
Proof.
  intros [Hr Hs] Hf Hh Hp Hl Hsep Hd. pose proof (len_nonneg data). set (m0 := mkMachine (m_dev m) (ram_store (m_ram m) header (replicate 10 0)) (m_drv m)).
  assert (Hd0 : ram_load (m_ram m0) p (length data) = data).
  { unfold m0. cbn [m_ram]. rewrite ram_load_store_ne; [done|]. unfold sep, len in *. rewrite length_replicate. lia. }
  destruct (transact_served net_serve state ready mapped bound send_queue_ QUEUE_TRANSMIT 2 fuel m0
    [mkBuf header size_of_NetHeader; mkBuf p (len data)] []
    (mkWire (w_sent (state (m_dev m)) ++ [data]) (w_incoming (state (m_dev m)))) (m_ram m0) 0) as (tok & q' & m' & Ht & Hdr & Hq & Hst & Hram & Hot); try done.
  { repeat constructor; cbn; (done || lia). }
  { cbn -[ram_load m_ram m0 replicate len]. unfold len at 1. rewrite Nat2Z.id, Hd0. rewrite bool_decide_true; [done|]. exact (ram_load_store_eq _ header (replicate 10 0)). }
  exists m'. split; [|split; [|split; [by rewrite Hdr|done]]].
  - unfold VirtIONet_send. rewrite (bind_run _ _ m tt m0) by done. by rewrite (bind_run _ _ _ _ _ Ht).
  - unfold net_ok. rewrite Hdr. cbn. split; [by apply (Hot QUEUE_RECEIVE 2)|done].
Qed.

Lemma VirtIONet_recv_ok fuel header p n f rest m :
  net_ok m → (bound ≤ fuel)%nat → mapped header → mapped p → n < 2 ^ 32 → len f ≤ n →
  w_incoming (state (m_dev m)) = f :: rest →
  ∃ m', VirtIONet_recv fuel header (mkBuf p n) m = Ok (ok (len f), m') ∧ net_ok m' ∧
    net_mac (m_drv m') = net_mac (m_drv m) ∧ ram_load (m_ram m') p (length f) = f ∧
    state (m_dev m') = mkWire (w_sent (state (m_dev m))) rest.
Proof.
  intros [Hr Hs] Hf Hh Hp Hn Hl Hin. pose proof (len_nonneg f).
  destruct (transact_served net_serve state ready mapped bound recv_queue_ QUEUE_RECEIVE 2 fuel m
    [] [mkBuf header size_of_NetHeader; mkBuf p n] (mkWire (w_sent (state (m_dev m))) rest)
    (ram_store (ram_store (m_ram m) header (replicate 10 0)) p f) (10 + len f)) as (tok & q' & m' & Ht & Hdr & Hq & Hst & Hram & Hot); try done.
  { repeat constructor; cbn; (done || lia). }
  { cbn -[ram_store len]. rewrite Hin, (proj2 (Z.leb_le _ _)) by done. done. }
  exists m'. split_and!; [|split| | |done].
  - unfold VirtIONet_recv. rewrite (bind_run _ _ _ _ _ Ht). unfold ret. rewrite usub_small by (cbn; lia). cbn. do 3 f_equal. lia.
  - by rewrite Hdr.
  - rewrite Hdr. cbn. by apply (Hot QUEUE_TRANSMIT 2).
  - by rewrite Hdr.
  - rewrite Hram. apply ram_load_store_eq.
Qed.
End proofs.

(** C20. The network driver sends and receives frames whole and in order: from
    an idle driver, [send] puts exactly the caller's bytes on the wire after the
    frames sent before, and [recv] returns the length of the next frame the
    device has received and leaves its bytes in the caller's buffer; both leave
    the driver idle, so that it can send again. *)
Theorem VirtIONet_transfers {D} `{VirtioDevice D} state ready mapped bound `{!ServingLaws D wire net_serve state ready mapped bound}
    fuel header p q n data f rest (m : machine D VirtIONet) :
  net_ok ready m → (bound ≤ fuel)%nat → mapped header → mapped p → mapped q → len data < 2 ^ 32 → n < 2 ^ 32 → len f ≤ n →
  sep header 10 p (len data) → ram_load (m_ram m) p (length data) = data → w_incoming (state (m_dev m)) = f :: rest →
  ∃ m1 m2, VirtIONet_send fuel header (mkBuf p (len data)) m = Ok (ok tt, m1) ∧
    VirtIONet_recv fuel header (mkBuf q n) m1 = Ok (ok (len f), m2) ∧
    ram_load (m_ram m2) q (length f) = f ∧
    state (m_dev m2) = mkWire (w_sent (state (m_dev m)) ++ [data]) rest ∧
    net_ok ready m2 ∧ VirtIONet_can_send (m_drv m2) = true ∧ VirtIONet_mac (m_drv m2) = VirtIONet_mac (m_drv m).
Proof.
  intros Hok Hf Hh Hp Hq Hl Hn Hfn Hsep Hd Hin.
  destruct (VirtIONet_send_ok state ready mapped bound fuel header p data m) as (m1 & Hs & Hok1 & Hm1 & Hst1); try done.
  destruct (VirtIONet_recv_ok state ready mapped bound fuel header q n f rest m1) as (m2 & Hr & Hok2 & Hm2 & Hb & Hst2); try done.
  { by rewrite Hst1. }
  exists m1, m2. split_and!; try done; [by rewrite Hst2, Hst1|by apply (net_ok_can_send ready)|unfold VirtIONet_mac; congruence].
Qed.

(** ** A driver on a device *)
(** A device with one frame waiting. *)
Definition wire1 : server wire := mkServer (mkWire [] [[5; 6; 7]]) ∅ ∅ ∅ 0 0 [2; 0; 0; 0; 0; 1; 1; 0] 0x80400000.
#[local] Instance wire_device : VirtioDevice (server wire) := server_device net_serve.
#[local] Instance wire_laws : ServingLaws (server wire) wire net_serve sv_state server_ready (λ _, True) 1 := server_laws net_serve.

Lemma wire1_new : ∃ d n, VirtIONet_new wire1 = Ok (ok n, d) ∧ VirtIONet_mac n = [2; 0; 0; 0; 0; 1] ∧
  sv_state d = sv_state wire1 ∧ ∀ r, net_ok server_ready (mkMachine d r n).
Proof.
  destruct (server_queue_new net_serve 1 0 (sv_state wire1) ∅ ∅ ∅ 0 0 (sv_config wire1) 0x80400000)
    as (q0 & H0 & R0 & S0 & A0 & L0 & U0); [lia..|by vm_compute|lia|].
  destruct (server_queue_new net_serve 1 1 (sv_state wire1) {[0 := 2]} {[0 := 0x80400]} {[0 := 0]} 0 0 (sv_config wire1) 0x80402000)
    as (q1 & H1 & R1 & S1 & A1 & L1 & U1); [lia..|by vm_compute|lia|].
  exists (mkServer (sv_state wire1) {[1 := 2; 0 := 2]} {[1 := 0x80402; 0 := 0x80400]} {[1 := 0; 0 := 0]} 1 0 (sv_config wire1) 0x80404000),
    (mkVirtIONet [2; 0; 0; 0; 0; 1] q0 q1). split_and!; [|done|done|].
  - unfold VirtIONet_new. rewrite (bind_run _ _ wire1 tt wire1) by done. rewrite (bind_run _ _ wire1 [2; 0; 0; 0; 0; 1] wire1) by done.
    rewrite (bind_run _ _ _ _ _ H0). cbv zeta. change (<[0:=2 ^ 1]> ∅) with ({[0 := 2]} : gmap Z Z).
    change (Z.shiftr 0x80400000 12) with 0x80400. change (0x80400000 + 8192) with 0x80402000.
    rewrite (bind_run _ _ _ _ _ H1). reflexivity.
  - intros r. change (2 ^ 1) with 2 in S0, S1. split; (split; [eexists; split; [eassumption|cbn; split; congruence]|]); cbn; rewrite ?A0, ?A1; done.
Qed.

Lemma VirtIONet_transfers_witness : ∃ n d m1 m2,
  VirtIONet_new wire1 = Ok (ok n, d) ∧
  let m := mkMachine d (ram_store ∅ 8192 [1; 2]) n in
  VirtIONet_send 1 4096 (mkBuf 8192 2) m = Ok (ok tt, m1) ∧
  VirtIONet_recv 1 4096 (mkBuf 12288 1500) m1 = Ok (ok 3, m2) ∧ ram_load (m_ram m2) 12288 3 = [5; 6; 7] ∧
  w_sent (sv_state (m_dev m2)) = [[1; 2]].
Proof.
  destruct wire1_new as (d & n & Hnew & _ & Hst & Hok).
  destruct (VirtIONet_transfers sv_state server_ready (λ _, True) 1 1 4096 8192 12288 1500 [1; 2] [5; 6; 7] []
    (mkMachine d (ram_store ∅ 8192 [1; 2]) n)) as (m1 & m2 & Hs & Hr & Hb & Hw & _).
  - apply Hok.
  - lia.
  - exact I.
  - exact I.
  - exact I.
  - by cbn.
  - lia.
  - by cbn.
  - unfold sep. cbn. lia.
  - exact (ram_load_store_eq ∅ 8192 [1; 2]).
  - cbn [m_dev]. by rewrite Hst.
  - exists n, d, m1, m2. split; [exact Hnew|]. split; [exact Hs|]. split; [exact Hr|]. split; [exact Hb|].
    rewrite Hw. cbn [m_dev]. by rewrite Hst.
Defined.
