(* ===== verification/VirtioInput.v ===== *)
(** * The input driver ([virtio-drivers/src/input.rs])

    [VirtIOInput] keeps the 32 buffers of its event queue at the device; the
    device fills one per event.  [pop_pending_event] takes a filled buffer back,
    offers it again and returns the event in it. *)

From S2P Require Import Prelude PhysMem VirtQueue VirtioBlk VirtioServe.

(** ** Constants and data *)
(** [virtio-drivers/input.rs:138-147] InputEvent *)
Record InputEvent : Type := mkInputEvent { event_type : Z; code : Z; value : Z }.
#[export] Instance InputEvent_eq_dec : EqDecision InputEvent.
Proof. solve_decision. Defined.
(** The struct is [repr(C)]. *)
Definition size_of_InputEvent : Z := 8.
Definition InputEvent_of (bs : list Z) : InputEvent :=
  mkInputEvent (little_endian_to_Z 8 (take 2 bs)) (little_endian_to_Z 8 (take 2 (drop 2 bs)))
    (little_endian_to_Z 8 (take 4 (drop 4 bs))).
Definition InputEvent_bytes (e : InputEvent) : list Z :=
  Z_to_little_endian 2 8 (event_type e) ++ Z_to_little_endian 2 8 (code e) ++ Z_to_little_endian 4 8 (value e).
(** [virtio-drivers/input.rs:151-169] Feature. The bits of the flags. *)
Definition InputFeature_bits : list Z := [24; 27; 28; 29; 30; 32; 33; 34; 35; 36; 37; 38].
Definition InputFeature_all : Z := foldr (λ b m, Z.lor (2 ^ b) m) 0 InputFeature_bits.
(** [virtio-drivers/input.rs:171-171] QUEUE_EVENT *)
Definition QUEUE_EVENT : Z := 0.
(** [virtio-drivers/input.rs:172-172] QUEUE_STATUS *)
Definition QUEUE_STATUS : Z := 1.
(** [virtio-drivers/input.rs:175-175] QUEUE_SIZE *)
Definition QUEUE_SIZE : Z := 32.
(** [virtio-drivers/input.rs:86-106] InputConfigSelect *)
Inductive InputConfigSelect : Type := IdName | IdSerial | IdDevids | PropBits | EvBits | AbsInfo.
Definition InputConfigSelect_discriminant (s : InputConfigSelect) : Z :=
  match s with IdName => 1 | IdSerial => 2 | IdDevids => 3 | PropBits => 0x10 | EvBits => 0x11 | AbsInfo => 0x12 end.
(** [virtio-drivers/input.rs:109-115] Config. The offsets of the fields. *)
Definition InputConfig_select : Z := 0.
Definition InputConfig_subsel : Z := 1.
Definition InputConfig_size : Z := 2.
Definition InputConfig_data : Z := 8.
(** [virtio-drivers/input.rs:12-17] VirtIOInput. [event_buf] is the address of the
    array. *)
Record VirtIOInput : Type := mkVirtIOInput { event_queue : VirtQueue; status_queue : VirtQueue; event_buf : Z }.
Definition event_queue_ : lens VirtIOInput VirtQueue :=
  Lens event_queue (λ q i, mkVirtIOInput q (status_queue i) (event_buf i)).

(** ** Operations *)
Section input.
Context {D : Type} `{VirtioDevice D}.

Definition event_at (event_buf i : Z) : buf := mkBuf (event_buf + size_of_InputEvent * i) size_of_InputEvent.
(** [virtio-drivers/input.rs:33-36] VirtIOInput::new. The loop over the events
    from [i] on. *)
Fixpoint add_events (v2p : Z → outcome Z) (event_buf : Z) (n : nat) (i : Z) : M VirtQueue (Result unit VirtioError) :=
  match n with
  | O => ret (ok tt)
  | S n =>
      let* token := VirtQueue_add v2p [] [event_at event_buf i] in
      match token with
      | err e => ret (err e)
      | ok token => lift (assert_ (token =? wrap16 i)) ;; add_events v2p event_buf n (i + 1)
      end
  end.
(** [virtio-drivers/input.rs:21-46] VirtIOInput::new. The array has been allocated
    at [event_buf]; what is dropped on an error is dropped in reverse order. *)
Definition VirtIOInput_new (event_buf : Z) : M (machine D unit) (Result VirtIOInput VirtioError) :=
  store_at event_buf (replicate (Z.to_nat (size_of_InputEvent * QUEUE_SIZE)) 0) ;;
  zoom dev_ (VirtIOHeader_begin_init (λ features, Z.land (Z.land features InputFeature_all) 0)) ;;
  let* event_queue := zoom dev_ (VirtQueue_new QUEUE_EVENT (wrap16 QUEUE_SIZE)) in
  match event_queue with
  | err e => ret (err e)
  | ok event_queue =>
      let* status_queue := zoom dev_ (VirtQueue_new QUEUE_STATUS (wrap16 QUEUE_SIZE)) in
      match status_queue with
      | err e => zoom dev_ (DMA_drop (vq_dma event_queue)) ;; ret (err e)
      | ok status_queue =>
          let* m := get in
          let* p := lift (add_events (hal_virt_to_phys (m_dev m)) event_buf (Z.to_nat QUEUE_SIZE) 0 event_queue) in
          match p with
          | (err e, event_queue) =>
              zoom dev_ (DMA_drop (vq_dma status_queue)) ;; zoom dev_ (DMA_drop (vq_dma event_queue)) ;; ret (err e)
          | (ok _, event_queue) =>
              zoom dev_ VirtIOHeader_finish_init ;;
              ret (ok (mkVirtIOInput event_queue status_queue event_buf))
          end
      end
  end.

Abbreviation IM := (M (machine D VirtIOInput)).
(** [virtio-drivers/input.rs:49-51] VirtIOInput::ack_interrupt *)
Definition VirtIOInput_ack_interrupt : IM bool := zoom dev_ VirtIOHeader_ack_interrupt.
(** [virtio-drivers/input.rs:54-63] VirtIOInput::pop_pending_event. The buffer is
    the device's again once it is in the queue: the device moves [moves] times
    before the event is copied. *)
Definition VirtIOInput_pop_pending_event (moves : nat) : IM (option InputEvent) :=
  let* r := on_queue event_queue_ (λ _, VirtQueue_pop_used) in
  match r with
  | err _ => ret None
  | ok (token, _) =>
      let* m := get in
      lift (if token <? QUEUE_SIZE then Ok tt else Fault OutOfBounds) ;;
      let event := event_at (event_buf (m_drv m)) token in
      let* r := on_queue event_queue_ (λ v2p, VirtQueue_add v2p [] [event]) in
      match r with
      | err _ => ret None
      | ok _ =>
          modify (Nat.iter moves (dev_moves event_queue_ QUEUE_EVENT)) ;;
          let* bs := load_at (b_ptr event) (Z.to_nat size_of_InputEvent) in
          ret (Some (InputEvent_of bs))
      end
  end.
(** [virtio-drivers/input.rs:67-80] VirtIOInput::query_config_select. The new
    contents of [out] with the size. *)
Definition VirtIOInput_query_config_select (select : InputConfigSelect) (subsel : Z) (out : list Z) : IM (Z * list Z) :=
  zoom dev_ (λ d, Ok (tt, mmio_write (CONFIG_SPACE_OFFSET + InputConfig_select) (InputConfigSelect_discriminant select) d)) ;;
  zoom dev_ (λ d, Ok (tt, mmio_write (CONFIG_SPACE_OFFSET + InputConfig_subsel) subsel d)) ;;
  let* size := zoom dev_ (λ d, Ok (mmio_read (CONFIG_SPACE_OFFSET + InputConfig_size) d)) in
  let size := wrap8 size in
  let* data := zoom dev_ (read_config InputConfig_data 128) in
  let* data := lift (slice data 0 size) in
  let* out := lift (copy_into out 0 size data) in
  ret (size, out).
End input.

(** ** The buffers at the device *)
(** Every descriptor is at the device, as a chain of its own with the event
    buffer of the same index. *)
Definition event_chain (event_buf : Z) (l : list (Z * Descriptor)) : Prop :=
  ∃ i d, l = [(i, d)] ∧ dview d = (event_buf + 8 * i, 8, true).
Definition events_out (event_buf : Z) (q : VirtQueue) : Prop :=
  ∃ out, vq_rep q [] out ∧ Forall (event_chain event_buf) out ∧ queue_size q = QUEUE_SIZE.

Section events.
Context (v2p : Z → outcome Z) (eb : Z) (identity : ∀ i, 0 ≤ i < QUEUE_SIZE → v2p (eb + 8 * i) = Ok (eb + 8 * i)).

(** The buffer of the first free descriptor is added as its chain. *)
Lemma add_event q i free out :
  vq_rep q (i :: free) out → queue_size q = QUEUE_SIZE →
  ∃ q' d, VirtQueue_add v2p [] [event_at eb i] q = Ok (ok i, q') ∧ vq_rep q' free ([(i, d)] :: out) ∧ dview d = (eb + 8 * i, 8, true) ∧
    queue_size q' = QUEUE_SIZE ∧ vq_used q' = vq_used q ∧ last_used_idx q' = last_used_idx q ∧
    avail_idx q' = wrap16 (avail_idx q + 1) ∧ vq_avail q' = avail_push i q.
Proof.
  intros Hr Hs. assert (Hi : 0 ≤ i < QUEUE_SIZE) by (rewrite <- Hs; apply (rep_range _ _ _ i Hr); set_solver).
  destruct (VirtQueue_add_ok v2p q (i :: free) out [] [event_at eb i] [(3, eb + 8 * i, 8)])
    as (q' & l & free' & Hadd & Hr' & Hlf & Hv & Hav & Hai & Hus & Hlu & Hsz & Hfree); try done.
  { constructor; [|constructor]. split_and!; [by apply identity|done|done]. }
  { unfold len. cbn. lia. }
  assert (Hll : length l = 1%nat) by (apply (f_equal length) in Hv; by rewrite !length_fmap in Hv).
  destruct l as [|[j d] [|]]; try done. cbn in Hfree. injection Hfree as -> ->. change ([dview d] = [(eb + 8 * i, 8, true)]) in Hv.
  exists q', d. split_and!; try done; congruence.
Qed.

(** The assertion of [new] never fails: token [i] is given to event [i]. *)
Lemma add_events_ok n : ∀ i q out, 0 ≤ i → i + Z.of_nat n = QUEUE_SIZE →
  vq_rep q (seqZ i (Z.of_nat n)) out → Forall (event_chain eb) out → queue_size q = QUEUE_SIZE →
  ∃ q', add_events v2p eb n i q = Ok (ok tt, q') ∧ events_out eb q' ∧ vq_used q' = vq_used q ∧ last_used_idx q' = last_used_idx q ∧
    avail_idx q' = wrap16 (avail_idx q + Z.of_nat n).
Proof.
  induction n as [|n IH]; intros i q out Hi Hn Hr Hout Hs.
  { exists q. split_and!; try done; [by exists out|]. rewrite Z.add_0_r. symmetry. apply Z.mod_small. apply (rep_avail _ _ _ Hr). }
  rewrite seqZ_cons in Hr by lia. destruct (add_event q i _ out Hr Hs) as (q1 & dd & Ha & Hr1 & Hl & Hs1 & Hu1 & Hlu1 & Hai1 & _).
  destruct (IH (i + 1) q1 ([(i, dd)] :: out)) as (q' & Hq' & Ho & Hu & Hlu & Hai); [lia|lia| |constructor; [by exists i, dd|done]|done|].
  { by replace (Z.of_nat n) with (Z.pred (Z.of_nat (S n))) by lia. }
  exists q'. split_and!; [|done|congruence..|rewrite Hai, Hai1; unfold wrap16; rewrite Z.add_mod_idemp_l by lia; f_equal; lia]. cbn [add_events]. rewrite (bind_run _ _ _ _ _ Ha).
  assert (Hw : wrap16 i = i) by (apply Z.mod_small; unfold QUEUE_SIZE in *; lia).
  rewrite Hw, Z.eqb_refl. exact Hq'.
Qed.
End events.

(** ** Popping events *)
Section pop.
Context {D : Type} `{VirtioDevice D} (eb : Z).
Implicit Types m : machine D VirtIOInput.

(** The device has returned the chains [es], of which none has been taken. *)
Definition returned (q : VirtQueue) (es : list UsedElem) : Prop :=
  us_idx (vq_used q) = wrap16 (last_used_idx q + len es) ∧ len es ≤ queue_size q ∧
  Forall (λ e, 0 ≤ ue_id e < queue_size q) es ∧
  ∀ j e, es !! j = Some e → us_ring (vq_used q) !! Z.to_nat ((last_used_idx q + Z.of_nat j) mod queue_size q) = Some e.
Definition input_ok m : Prop :=
  event_buf (m_drv m) = eb ∧ events_out eb (event_queue (m_drv m)) ∧
  ∀ i, 0 ≤ i < QUEUE_SIZE → hal_virt_to_phys (m_dev m) (eb + 8 * i) = Ok (eb + 8 * i).
(** The event in the buffer [i]. *)
Definition event_in (r : bmem) (i : Z) : InputEvent := InputEvent_of (ram_load r (eb + 8 * i) 8).

Lemma event_chain_find q out i :
  vq_rep q [] out → Forall (event_chain eb) out → 0 ≤ i < queue_size q → ∃ d, [(i, d)] ∈ out.
Proof.
  intros Hr Hc Hi. assert (Hin : i ∈ (concat out).*1).
  { pose proof (rep_all _ _ _ Hr) as Hall. cbn [app] in Hall. rewrite Hall. apply elem_of_seqZ. lia. }
  apply list_elem_of_fmap in Hin as ([i' d] & -> & Hin). exists d. apply list_elem_of_In, in_concat in Hin as (l & Hl & Hin).
  apply list_elem_of_In in Hl, Hin. rewrite Forall_forall in Hc. destruct (Hc _ Hl) as (j & d' & -> & _).
  apply list_elem_of_singleton in Hin as [= -> ->]. done.
Qed.

Lemma wrap16_ahead x k : 0 ≤ x < 2 ^ 16 → 0 < k < 2 ^ 16 → wrap16 (x + k) ≠ x.
Proof.
  intros Hx Hk. unfold wrap16. destruct (decide (x + k < 2 ^ 16)); [rewrite Z.mod_small by lia; lia|].
  replace (x + k) with (x + k - 2 ^ 16 + 1 * 2 ^ 16) by ring. rewrite Z.mod_add, Z.mod_small by lia. lia.
Qed.
Lemma wrap16_mod32 x j : (wrap16 x + j) mod 32 = (x + j) mod 32.
Proof.
  unfold wrap16. rewrite (Z.div_mod x (2 ^ 16)) at 2 by lia.
  replace (2 ^ 16 * (x / 2 ^ 16) + x mod 2 ^ 16 + j) with (x mod 2 ^ 16 + j + 2048 * (x / 2 ^ 16) * 32) by ring. by rewrite Z.mod_add.
Qed.
Lemma returned_next q e es q' :
  returned q (e :: es) → queue_size q = 32 → queue_size q' = 32 → vq_used q' = vq_used q →
  last_used_idx q' = wrap16 (last_used_idx q + 1) → returned q' es.
Proof.
  intros (Hu & Hl & Hid & Hring) Hs Hs' Hus Hlu. assert (Hle : len (e :: es) = 1 + len es) by (unfold len; cbn; lia).
  unfold returned. rewrite Hus, Hlu, Hs', Hu, Hle. rewrite Hs, Hle in *. split_and!.
  - unfold wrap16. rewrite Z.add_mod_idemp_l by lia. f_equal. lia.
  - lia.
  - by apply Forall_cons in Hid as [_ Hid].
  - intros j e' Hj. rewrite wrap16_mod32, <- (Hring (S j) e') by done. do 3 f_equal. lia.
Qed.

Lemma pop_none m moves :
  input_ok m → returned (event_queue (m_drv m)) [] → VirtIOInput_pop_pending_event moves m = Ok (None, m).
Proof.
  intros (_ & (out & Hr & _) & _) (Hu & _). destruct m as [d r [q sq a]]. cbn [m_drv event_queue] in *.
  assert (Hp : VirtQueue_pop_used q = Ok (err NotReady, q)).
  { unfold VirtQueue_pop_used, bind, get, VirtQueue_can_pop. pose proof (rep_used _ _ _ Hr).
    rewrite Hu, Z.add_0_r. unfold wrap16. by rewrite Z.mod_small, Z.eqb_refl by lia. }
  unfold VirtIOInput_pop_pending_event. rewrite (bind_run _ _ _ (err NotReady) (mkMachine d r (mkVirtIOInput q sq a))); [done|].
  unfold on_queue. cbn [m_drv m_dev m_ram view event_queue_ event_queue]. by rewrite Hp.
Qed.

(** A pop takes the next buffer the device has returned and offers it again; the
    event is what the buffer holds once the device has moved. *)
Lemma pop_offers m e es :
  let q := event_queue (m_drv m) in
  let i := ue_id e in
  input_ok m → returned q (e :: es) →
  ∃ m1 dd, let q1 := event_queue (m_drv m1) in
    (∀ moves, let m2 := Nat.iter moves (dev_moves event_queue_ QUEUE_EVENT) m1 in
       VirtIOInput_pop_pending_event moves m = Ok (Some (event_in (m_ram m2) i), m2)) ∧
    input_ok m1 ∧ returned q1 es ∧ m_ram m1 = m_ram m ∧ m_dev m1 = m_dev m ∧
    chain_at 32 (vq_desc q1) i = Some [(i, dd)] ∧ dview dd = (eb + 8 * i, 8, true) ∧
    av_idx (vq_avail q1) = wrap16 (avail_idx q + 1) ∧ av_ring (vq_avail q1) !! Z.to_nat (avail_idx q mod 32) = Some i.
Proof.
  destruct m as [d r [q sq a]]. intros q_ i (Ha & (out & Hr & Hc & Hs) & Hid) Hret. cbn [m_drv m_dev m_ram event_queue event_buf] in *. subst a q_.
  assert (Hret' := Hret). destruct Hret' as (Hu & Hl & Hids & Hring). apply Forall_cons in Hids as [Hi _]. fold i in Hi.
  destruct (event_chain_find q out i Hr Hc Hi) as [dd Hin]. apply list_elem_of_split in Hin as (o1 & o2 & ->).
  assert (Hlen : len (e :: es) = 1 + len es) by (unfold len; cbn; lia). pose proof (len_nonneg es). pose proof (rep_used _ _ _ Hr).
  unfold QUEUE_SIZE in *. destruct (VirtQueue_pop_used_ok q [] o1 [(i, dd)] o2 e Hr) as (q1 & Hp & Hr1 & Hlu1 & Hus1 & Hav1 & Hai1 & Hsz1).
  { unfold VirtQueue_can_pop. rewrite Hu. apply negb_true_iff, Z.eqb_neq. pose proof (wrap16_ahead (last_used_idx q) (len (e :: es))). lia. }
  { rewrite <- (Hring O e) by done. do 3 f_equal. lia. }
  { rewrite Hs in Hi. unfold wrap16. rewrite Z.mod_small by (unfold i in Hi; lia). done. }
  destruct (add_event (hal_virt_to_phys d) eb Hid q1 i [] (o1 ++ o2) Hr1) as (q2 & d2 & Hadd & Hr2 & Hl2 & Hs2 & Hus2 & Hlu2 & Hai2 & Hav2).
  { by rewrite Hsz1. }
  exists (mkMachine d r (mkVirtIOInput q2 sq eb)), d2. cbn [m_drv event_queue m_ram m_dev]. rewrite Hav2. unfold avail_push. cbn [av_idx av_ring].
  rewrite Hai1, Hav1, Hsz1, Hs. split_and!; try done.
  - intros moves. unfold VirtIOInput_pop_pending_event.
    rewrite (bind_run _ _ _ (ok (i, ue_len e)) (mkMachine d r (mkVirtIOInput q1 sq eb))) by (unfold on_queue; cbn -[VirtQueue_pop_used]; by rewrite Hp).
    unfold bind at 1, get. rewrite (bind_run _ _ _ tt (mkMachine d r (mkVirtIOInput q1 sq eb))).
    2: { rewrite (proj2 (Z.ltb_lt _ _)) by (unfold QUEUE_SIZE; lia). done. }
    rewrite (bind_run _ _ _ (ok i) (mkMachine d r (mkVirtIOInput q2 sq eb))) by (unfold on_queue; cbn -[VirtQueue_add event_at]; by rewrite Hadd).
    done.
  - split_and!; [done| |done]. exists ([(i, d2)] :: o1 ++ o2). split_and!; [done| |done]. constructor; [by exists i, d2|].
    apply Forall_app in Hc as [? Hc]. apply Forall_cons in Hc as [_ ?]. by apply Forall_app.
  - eapply returned_next; [exact Hret|done|done|congruence..].
  - pose proof (rep_out _ _ _ Hr2) as Ho. apply Forall_cons in Ho as [Ho _]. apply chain_at_chained; [done|cbn; lia].
  - apply list_lookup_insert_eq. destruct (rep_rings _ _ _ Hr) as [Hra _]. pose proof (Z.mod_pos_bound (avail_idx q) 32). unfold len in Hra. lia.
Qed.
(** While the device does not move, a pop returns the event of the buffer. *)
Lemma pop_one m e es :
  input_ok m → returned (event_queue (m_drv m)) (e :: es) →
  ∃ m', VirtIOInput_pop_pending_event 0 m = Ok (Some (event_in (m_ram m) (ue_id e)), m') ∧ input_ok m' ∧
    returned (event_queue (m_drv m')) es ∧ m_ram m' = m_ram m.
Proof.
  intros Hok Hret. destruct (pop_offers m e es Hok Hret) as (m1 & dd & Hp & Hok1 & Hret1 & Hram & _).
  exists m1. split_and!; try done. rewrite (Hp O). cbn [Nat.iter]. by rewrite <- Hram.
Qed.

(** The device returns another chain. *)
Lemma returned_push q es e sh :
  returned q es → queue_size q = 32 → len es < 32 → 0 ≤ ue_id e < 32 → 0 ≤ last_used_idx q → len (us_ring (vq_used q)) = 32 →
  sh_used sh = used_push (vq_used q) 32 e → returned (q_with q sh) (es ++ [e]).
Proof.
  intros (Hu & Hl & Hid & Hring) Hs Hlt He Hlast Hlen Hsh. assert (Hle : len (es ++ [e]) = len es + 1) by (unfold len; rewrite length_app; cbn; lia).
  assert (Hm : us_idx (vq_used q) mod 32 = (last_used_idx q + len es) mod 32).
  { rewrite Hu. replace (wrap16 (last_used_idx q + len es)) with (wrap16 (last_used_idx q + len es) + 0) by lia. rewrite wrap16_mod32. f_equal. lia. }
  unfold returned. cbn [q_with vq_used queue_size last_used_idx]. rewrite Hsh. unfold used_push. cbn [us_idx us_ring]. rewrite Hle, Hs in *. split_and!.
  - rewrite Hu. unfold wrap16. rewrite Z.add_mod_idemp_l by lia. f_equal. lia.
  - lia.
  - apply Forall_app. split; [done|]. by constructor.
  - intros j e1 Hj. rewrite Hm. pose proof (Z.mod_pos_bound (last_used_idx q + len es) 32). pose proof (Z.mod_pos_bound (last_used_idx q + Z.of_nat j) 32).
    apply lookup_app_Some in Hj as [Hj|[Hge Hj]].
    + pose proof (lookup_lt_Some _ _ _ Hj). rewrite list_lookup_insert_ne; [by apply Hring|]. intros Heq. apply Z2Nat.inj in Heq; [|lia..].
      pose proof (Z.div_mod (last_used_idx q + len es) 32). pose proof (Z.div_mod (last_used_idx q + Z.of_nat j) 32). unfold len in *. lia.
    + apply list_lookup_singleton_Some in Hj as [Hj ->]. replace (Z.of_nat j) with (len es) by (unfold len in *; lia).
      apply list_lookup_insert_eq. unfold len in *. lia.
Qed.

(** [n] pops, while the device does not move. *)
Fixpoint pops (n : nat) : M (machine D VirtIOInput) (list (option InputEvent)) :=
  match n with
  | O => ret []
  | S n => let* e := VirtIOInput_pop_pending_event 0 in let* es := pops n in ret (e :: es)
  end.
Lemma pops_run es : ∀ m, input_ok m → returned (event_queue (m_drv m)) es →
  ∃ m', pops (S (length es)) m = Ok (((λ e, Some (event_in (m_ram m) (ue_id e))) <$> es) ++ [None], m') ∧ input_ok m' ∧
    returned (event_queue (m_drv m')) [].
Proof.
  induction es as [|e es IH]; intros m Hok Hret.
  - exists m. split_and!; try done. cbn. by rewrite (bind_run _ _ _ _ _ (pop_none m 0 Hok Hret)).
  - destruct (pop_one m e es Hok Hret) as (m1 & Hp & Hok1 & Hret1 & Hram). destruct (IH m1 Hok1 Hret1) as (m' & Hps & Hok' & Hret').
    exists m'. split_and!; try done. change (pops (S (length (e :: es)))) with
      (let* e := VirtIOInput_pop_pending_event 0 in let* es := pops (S (length es)) in ret (e :: es)).
    rewrite (bind_run _ _ _ _ _ Hp), (bind_run _ _ _ _ _ Hps), Hram. done.
Qed.
End pop.

(** C32. The input driver delivers the device's events: [new] gives every event
    buffer to the device under its own index, so that its assertion never
    fails, and with the buffers the device has returned, [pop_pending_event]
    returns their events in the order of the device, then [None], and every
    buffer is at the device again - as long as the device does not use a buffer
    that has just been offered before the event in it is copied. *)
Theorem VirtIOInput_pops_events {D} `{VirtioDevice D} eb q0 (m : machine D VirtIOInput) es :
  vq_rep q0 (seqZ 0 QUEUE_SIZE) [] → queue_size q0 = QUEUE_SIZE → event_buf (m_drv m) = eb →
  (∀ i, 0 ≤ i < QUEUE_SIZE → hal_virt_to_phys (m_dev m) (eb + 8 * i) = Ok (eb + 8 * i)) →
  (∃ q, add_events (hal_virt_to_phys (m_dev m)) eb (Z.to_nat QUEUE_SIZE) 0 q0 = Ok (ok tt, q) ∧ events_out eb q) ∧
  (events_out eb (event_queue (m_drv m)) → returned (event_queue (m_drv m)) es →
   ∃ m', pops (S (length es)) m = Ok (((λ e, Some (event_in eb (m_ram m) (ue_id e))) <$> es) ++ [None], m') ∧
     events_out eb (event_queue (m_drv m'))).
Proof.
  intros Hr Hs He Hid. split.
  - destruct (add_events_ok (hal_virt_to_phys (m_dev m)) eb Hid (Z.to_nat QUEUE_SIZE) 0 q0 []) as (q & Ha & Ho & _); try done. by exists q.
  - intros Ho Hret. destruct (pops_run eb es m) as (m' & Hp & (_ & Ho' & _) & _); [by split_and!|done|]. by exists m'.
Qed.

(** ** A keyboard *)
(** A device with the events that wait for a buffer. *)
Definition key_serve : service (list InputEvent) := λ qi l s r,
  match l, s with
  | [(b, n, true)], e :: rest => if (qi =? 0) && (n =? 8) then Some (rest, ram_store r b (InputEvent_bytes e), 8) else None
  | _, _ => None
  end.
#[local] Instance keyboard_device : VirtioDevice (server (list InputEvent)) := server_device key_serve.
Definition key (v : Z) : InputEvent := mkInputEvent 1 30 v.
Definition event_ok (e : InputEvent) : Prop := 0 ≤ event_type e < 2 ^ 16 ∧ 0 ≤ code e < 2 ^ 16 ∧ 0 ≤ value e < 2 ^ 32.
Lemma event_roundtrip e : event_ok e → InputEvent_of (InputEvent_bytes e) = e.
Proof.
  destruct e as [t c v]. intros (Ht & Hc & Hv). unfold InputEvent_of, InputEvent_bytes. cbn [event_type code value] in *.
  assert (Hl : ∀ n x, 0 ≤ n → length (Z_to_little_endian n 8 x) = Z.to_nat n) by (intros n x Hn; pose proof (length_Z_to_little_endian n 8 x Hn); lia).
  rewrite take_app_length' by (by rewrite Hl by lia). rewrite drop_app_length' by (by rewrite Hl by lia).
  rewrite take_app_length' by (by rewrite Hl by lia).
  rewrite (app_assoc (Z_to_little_endian 2 8 t)), drop_app_length' by (by rewrite length_app, !Hl by lia).
  rewrite take_ge by (by rewrite Hl by lia). rewrite !little_endian_to_Z_to_little_endian by lia.
  f_equal; apply Z.mod_small; lia.
Qed.

(** C38. [pop_pending_event] can lose an event: it offers the buffer to the device
    before it copies the event out of it.  In every state where the device has
    used all buffers it was given, the next one returned holds the event in the
    buffer of [e] and the event [e'] waits, a move of the device in between makes
    the driver return [e'] in its place; the event of [e] is overwritten, and [e']
    is returned to the driver once more, behind those in the buffers [es].  If the
    device does not move, the driver returns the event. *)
Theorem pop_pending_event_races eb (m : machine (server (list InputEvent)) VirtIOInput) e es e' rest :
  let q := event_queue (m_drv m) in
  input_ok eb m → returned q (e :: es) → event_ok e' → sv_state (m_dev m) = e' :: rest →
  sv_num (m_dev m) !! QUEUE_EVENT = Some QUEUE_SIZE → sv_seen (m_dev m) !! QUEUE_EVENT = Some (avail_idx q) →
  (∃ m1, VirtIOInput_pop_pending_event 0 m = Ok (Some (event_in eb (m_ram m) (ue_id e)), m1)) ∧
  (∃ m2, VirtIOInput_pop_pending_event 1 m = Ok (Some e', m2) ∧ sv_state (m_dev m2) = rest ∧
     returned (event_queue (m_drv m2)) (es ++ [mkUsedElem (ue_id e) 8]) ∧ event_in eb (m_ram m2) (ue_id e) = e').
Proof.
  intros q Hok Hret He' Hst Hnum Hseen. split; [destruct (pop_one eb m e es Hok Hret) as (m1 & Hp & _); by exists m1|].
  destruct (pop_offers eb m e es Hok Hret) as (m1 & dd & Hp & Hok1 & Hret1 & Hram & Hdev & Hch & Hdv & Hai & Har).
  fold q in Hai, Har. set (q1 := event_queue (m_drv m1)) in *. set (i := ue_id e) in *. set (r2 := ram_store (m_ram m1) (eb + 8 * i) (InputEvent_bytes e')).
  destruct Hok as (_ & (o & Hr & _ & Hs) & _). destruct Hok1 as (_ & (o1 & Hr1 & _ & Hs1) & _). fold q in Hr, Hs. fold q1 in Hr1, Hs1.
  set (sh2 := mkShared (vq_desc q1) (vq_avail q1) (used_push (vq_used q1) 32 (mkUsedElem i 8)) r2).
  assert (Hstep : ∃ d2, server_step key_serve QUEUE_EVENT (m_dev m1) (mkShared (vq_desc q1) (vq_avail q1) (vq_used q1) (m_ram m1)) = (d2, sh2) ∧ sv_state d2 = rest).
  { rewrite Hdev. destruct (m_dev m) as [s nu pf se sl iq co br]. cbn [sv_state sv_num sv_seen] in *. subst s. unfold server_step. rewrite Hnum, Hseen.
    cbn [default id sh_avail sh_desc sh_ram sh_used]. rewrite Hai, (proj2 (Z.eqb_neq _ _)) by (apply wrap16_succ_ne; apply (rep_avail _ _ _ Hr)).
    unfold QUEUE_SIZE. rewrite Har. cbn [mbind option_bind]. change (Z.to_nat 32) with 32%nat. rewrite Hch. cbn [mbind option_bind fmap list_fmap snd]. rewrite Hdv.
    eexists. split; [reflexivity|done]. }
  destruct Hstep as (d2 & Hstep & Hrest).
  assert (Hm2 : dev_moves event_queue_ QUEUE_EVENT m1 = mkMachine d2 r2 (update event_queue_ (q_with q1 sh2) (m_drv m1))).
  { unfold dev_moves. change (view event_queue_ (m_drv m1)) with q1. change (dev_step QUEUE_EVENT) with (server_step key_serve QUEUE_EVENT). by rewrite Hstep. }
  assert (Hev : event_in eb r2 i = e').
  { unfold event_in, r2. change 8%nat with (length (InputEvent_bytes e')). rewrite ram_load_store_eq. by apply event_roundtrip. }
  assert (Hp1 := Hp 1%nat). cbv zeta in Hp1. change (Nat.iter 1 (dev_moves event_queue_ QUEUE_EVENT) m1) with (dev_moves event_queue_ QUEUE_EVENT m1) in Hp1.
  rewrite Hm2 in Hp1. cbn [m_ram] in Hp1. rewrite Hev in Hp1. eexists. split; [exact Hp1|].
  split_and!; [done| |done]. cbn [m_drv event_queue_ update event_queue]. destruct Hret as (_ & Hl & Hids & _). apply Forall_cons in Hids as [Hi _].
  destruct (rep_rings _ _ _ Hr1) as [_ Hus1]. pose proof (rep_used _ _ _ Hr1). unfold QUEUE_SIZE in *. rewrite Hs in Hi, Hl.
  assert (len (e :: es) = 1 + len es) by (unfold len; cbn; lia). apply returned_push; [exact Hret1|exact Hs1|lia|exact Hi|lia|exact Hus1|done].
Qed.
(** A keyboard whose buffers have all been used, the sixth returned with one key,
    and another key waiting. *)
Lemma pop_pending_event_races_witness : ∃ m m2 : machine (server (list InputEvent)) VirtIOInput,
  event_in 0x1000 (m_ram m) 5 = key 7 ∧ VirtIOInput_pop_pending_event 1 m = Ok (Some (key 8), m2).
Proof.
  destruct (server_queue_new key_serve 5 0 [] ∅ ∅ ∅ 0 0 [] 0x80400000) as (q0 & _ & Hr & Hs & Hav & Hl & Hu); [lia..|done|lia|].
  destruct (add_events_ok Ok 0x1000 ltac:(done) 32 0 q0 []) as (q & Ha & (out & Hro & Hc & Hsz) & Hus & Hlu & Hai); [done..|].
  set (sh := mkShared (vq_desc q) (vq_avail q) (used_push (vq_used q) 32 (mkUsedElem 5 8)) ∅). set (q2 := q_with q sh).
  set (d := mkServer [key 8] {[0 := 32]} ∅ {[0 := 32]} 0 0 [] 0x80400000 : server (list InputEvent)).
  set (m := mkMachine d (ram_store ∅ 0x1028 (InputEvent_bytes (key 7))) (mkVirtIOInput q2 q0 0x1000)).
  destruct (rep_rings _ _ _ Hro) as [_ Hring].
  destruct (pop_pending_event_races 0x1000 m (mkUsedElem 5 8) [] (key 8) []) as [_ (m2 & Hp & _)].
  - split_and!; [done| |done]. exists out. split_and!; [|done|done]. apply rep_q_with; [done|done|done|]. cbn. unfold len in *. by rewrite length_insert.
  - unfold returned, m, q2, sh. cbn. rewrite Hus, Hlu, Hu, Hl, Hsz. split_and!; [done|done|repeat constructor; done|].
    intros [|j] e [= <-]. apply list_lookup_insert_eq. rewrite <- Hus. clear -Hring. unfold len in Hring. change (Z.to_nat _) with 0%nat. lia.
  - done.
  - done.
  - done.
  - cbn. by rewrite Hai, Hav.
  - exists m, m2. split; [vm_compute; reflexivity|exact Hp].
Defined.

Lemma VirtIOInput_pops_events_witness : ∃ (m : machine (server (list InputEvent)) VirtIOInput) q0 q m',
  add_events (hal_virt_to_phys (m_dev m)) 0x1000 32 0 q0 = Ok (ok tt, q) ∧
  pops 2 m = Ok ([Some (key 7); None], m') ∧ events_out 0x1000 (event_queue (m_drv m')).
Proof.
  set (d := mkServer [] ∅ ∅ ∅ 0 0 [] 0x80400000 : server (list InputEvent)).
  destruct (server_queue_new key_serve 5 0 [] ∅ ∅ ∅ 0 0 [] 0x80400000) as (q0 & _ & Hr & Hs & _ & Hl & Hu); [lia..|done|lia|].
  destruct (add_events_ok Ok 0x1000 ltac:(done) 32 0 q0 []) as (q & Ha & (out & Hro & Hc & Hsz) & Hus & Hlu & _); [done..|].
  set (sh := mkShared (vq_desc q) (vq_avail q) (used_push (vq_used q) 32 (mkUsedElem 5 8)) ∅). set (q2 := q_with q sh).
  set (m := mkMachine d (ram_store ∅ 0x1028 (InputEvent_bytes (key 7))) (mkVirtIOInput q2 q0 0x1000)).
  destruct (rep_rings _ _ _ Hro) as [_ Hring].
  destruct (VirtIOInput_pops_events 0x1000 q0 m [mkUsedElem 5 8]) as [(q' & Hq' & _) Hp].
  - exact Hr.
  - exact Hs.
  - done.
  - done.
  - destruct Hp as (m' & Hp & Ho).
    + exists out. split_and!; [|done|done]. apply rep_q_with; [done|done|done|]. cbn. unfold len in *. by rewrite length_insert.
    + unfold returned, q2, sh. cbn. rewrite Hus, Hlu, Hu, Hl, Hsz. split_and!; [done|done|repeat constructor; done|].
      intros [|j] e [= <-]. apply list_lookup_insert_eq. rewrite <- Hus. clear -Hring. unfold len in Hring. change (Z.to_nat _) with 0%nat. lia.
    + exists m, q0, q', m'. split; [exact Hq'|]. split; [exact Hp|exact Ho].
Defined.
