(* ===== verification/VirtioConsole.v ===== *)
(** * The console driver ([virtio-drivers/src/console.rs])

    [VirtIOConsole] keeps one page at the device as the receive buffer:
    [ack_interrupt] takes it back when the device has filled it, [recv] hands
    out its characters and offers it again with the last one; [send] transmits
    one character. *)

From S2P Require Import Prelude PhysMem VirtQueue VirtioBlk VirtioServe.

(** ** Constants and data *)
(** [virtio-drivers/console.rs:8-8] QUEUE_RECEIVEQ_PORT_0 *)
Definition QUEUE_RECEIVEQ_PORT_0 : Z := 0.
(** [virtio-drivers/console.rs:9-9] QUEUE_TRANSMITQ_PORT_0 *)
Definition QUEUE_TRANSMITQ_PORT_0 : Z := 1.
(** [virtio-drivers/console.rs:118-138] Features. The bits of the flags. *)
Definition ConsoleFeatures_bits : list Z := [0; 1; 2; 24; 27; 28; 29; 30; 32; 33; 34; 35; 36; 37; 38].
Definition ConsoleFeatures_all : Z := foldr (λ b m, Z.lor (2 ^ b) m) 0 ConsoleFeatures_bits.
(** [virtio-drivers/console.rs:13-21] VirtIOConsole *)
Record VirtIOConsole : Type := mkVirtIOConsole {
  receiveq : VirtQueue; transmitq : VirtQueue; queue_buf_dma : DMA; queue_buf_rx : buf; cursor : Z; pending_len : Z }.
Definition receiveq_ : lens VirtIOConsole VirtQueue :=
  Lens receiveq (λ q c, mkVirtIOConsole q (transmitq c) (queue_buf_dma c) (queue_buf_rx c) (cursor c) (pending_len c)).
Definition transmitq_ : lens VirtIOConsole VirtQueue :=
  Lens transmitq (λ q c, mkVirtIOConsole (receiveq c) q (queue_buf_dma c) (queue_buf_rx c) (cursor c) (pending_len c)).
Definition set_pending (cur len : Z) (c : VirtIOConsole) : VirtIOConsole :=
  mkVirtIOConsole (receiveq c) (transmitq c) (queue_buf_dma c) (queue_buf_rx c) cur len.

(** ** Operations *)
Section console.
Context {D : Type} `{VirtioDevice D}.

Abbreviation CM := (M (machine D VirtIOConsole)).
Definition modify_drv (f : VirtIOConsole → VirtIOConsole) : CM unit :=
  modify (λ m, mkMachine (m_dev m) (m_ram m) (f (m_drv m))).
(** [virtio-drivers/console.rs:51-54] VirtIOConsole::poll_retrieve *)
Definition VirtIOConsole_poll_retrieve : CM (Result unit VirtioError) :=
  let* m := get in
  let* r := on_queue receiveq_ (λ v2p, VirtQueue_add v2p [] [queue_buf_rx (m_drv m)]) in
  match r with
  | err e => ret (err e)
  | ok _ => ret (ok tt)
  end.
(** The fields of a console are dropped in their order. *)
Definition VirtIOConsole_drop (c : VirtIOConsole) : M D unit :=
  DMA_drop (vq_dma (receiveq c)) ;; DMA_drop (vq_dma (transmitq c)) ;; DMA_drop (queue_buf_dma c).
(** [virtio-drivers/console.rs:25-50] VirtIOConsole::new. On an error the queues and
    the buffer made so far are dropped, the last one first; [r] is the memory. *)
Definition VirtIOConsole_new (r : bmem) : M D (Result VirtIOConsole VirtioError) :=
  VirtIOHeader_begin_init (λ features, Z.land (Z.land features ConsoleFeatures_all) 0) ;;
  let* receiveq := VirtQueue_new QUEUE_RECEIVEQ_PORT_0 2 in
  match receiveq with
  | err e => ret (err e)
  | ok receiveq =>
      let* transmitq := VirtQueue_new QUEUE_TRANSMITQ_PORT_0 2 in
      match transmitq with
      | err e => DMA_drop (vq_dma receiveq) ;; ret (err e)
      | ok transmitq =>
          let* queue_buf_dma := DMA_new 1 in
          match queue_buf_dma with
          | err e => DMA_drop (vq_dma transmitq) ;; DMA_drop (vq_dma receiveq) ;; ret (err e)
          | ok queue_buf_dma =>
              let* queue_buf_rx := DMA_as_buf queue_buf_dma in
              VirtIOHeader_finish_init ;;
              let* d := get in
              let c := mkVirtIOConsole receiveq transmitq queue_buf_dma (mkBuf queue_buf_rx.1 queue_buf_rx.2) 0 0 in
              let* p := lift (VirtIOConsole_poll_retrieve (mkMachine d r c)) in
              match p with
              | (err e, m) => put (m_dev m) ;; VirtIOConsole_drop (m_drv m) ;; ret (err e)
              | (ok _, m) => put (m_dev m) ;; ret (ok (m_drv m))
              end
          end
      end
  end.
(** [virtio-drivers/console.rs:62-68] VirtIOConsole::ack_interrupt. The loop; its
    second pass leaves it or fails its assertion. *)
Fixpoint retrieve_loop (fuel : nat) (flag : bool) : CM bool :=
  match fuel with
  | O => throw Fuel
  | S fuel =>
      let* r := on_queue receiveq_ (λ _, VirtQueue_pop_used) in
      match r with
      | err _ => ret flag
      | ok (_token, len) =>
          lift (assert_ (negb flag)) ;;
          lift (assert_ (negb (len =? 0))) ;;
          modify_drv (set_pending 0 len) ;;
          retrieve_loop fuel true
      end
  end.
(** [virtio-drivers/console.rs:56-70] VirtIOConsole::ack_interrupt *)
Definition VirtIOConsole_ack_interrupt : CM (Result bool VirtioError) :=
  let* ack := zoom dev_ VirtIOHeader_ack_interrupt in
  if negb ack then ret (ok false) else
  let* flag := retrieve_loop 2 false in
  ret (ok flag).
(** [virtio-drivers/console.rs:73-85] VirtIOConsole::recv *)
Definition VirtIOConsole_recv (pop : bool) : CM (Result (option Z) VirtioError) :=
  let* m := get in
  let c := m_drv m in
  if cursor c =? pending_len c then ret (ok None) else
  lift (if cursor c <? b_len (queue_buf_rx c) then Ok tt else Fault OutOfBounds) ;;
  let* bs := load_at (b_ptr (queue_buf_rx c) + cursor c) 1 in
  let ch := default 0 (head bs) in
  if pop then
    modify_drv (set_pending (cursor c +u 1) (pending_len c)) ;;
    if cursor c +u 1 =? pending_len c then
      let* r := VirtIOConsole_poll_retrieve in
      match r with
      | err e => ret (err e)
      | ok _ => ret (ok (Some ch))
      end
    else ret (ok (Some ch))
  else ret (ok (Some ch)).
(** [virtio-drivers/console.rs:87-96] VirtIOConsole::send. [p] is the address of the
    character on the stack. *)
Definition VirtIOConsole_send (fuel : nat) (p chr : Z) : CM (Result unit VirtioError) :=
  store_at p [chr] ;;
  let* r := transact fuel transmitq_ QUEUE_TRANSMITQ_PORT_0 [mkBuf p 1] [] in
  match r with
  | err e => ret (err e)
  | ok _ => ret (ok tt)
  end.
End console.

(** ** The receive buffer *)
Section stream.
Context {D : Type} `{VirtioDevice D} (b : buf) (rx_small : 0 ≤ b_len b < 2 ^ 32).
Context (identity : ∀ d : D, hal_virt_to_phys d (b_ptr b) = Ok (b_ptr b)).
Implicit Types m : machine D VirtIOConsole.

(** The receive buffer is at the device, as the chain that starts at [i]. *)
Definition rx_out (q : VirtQueue) (i : Z) : Prop :=
  ∃ free d, vq_rep q free [[(i, d)]] ∧ dview d = (b_ptr b, b_len b, true) ∧ queue_size q = 2.
(** The console with the characters [pend] that the device has delivered and the
    driver has not read: the device has the empty buffer, it has returned the
    buffer, or the driver has it. *)
Inductive rx_state (q : VirtQueue) (cur pl : Z) (r : bmem) : list Z → Prop :=
| rx_empty i : rx_out q i → us_idx (vq_used q) = last_used_idx q → cur = pl → rx_state q cur pl r []
| rx_returned i e pend : rx_out q i → us_idx (vq_used q) = wrap16 (last_used_idx q + 1) →
    us_ring (vq_used q) !! Z.to_nat (last_used_idx q mod 2) = Some e → wrap16 (ue_id e) = i → ue_len e = len pend →
    pend ≠ [] → len pend ≤ b_len b → ram_load r (b_ptr b) (length pend) = pend → cur = pl → rx_state q cur pl r pend
| rx_held pend : q_idle 2 q → 0 ≤ cur < pl → pl ≤ b_len b →
    ram_load r (b_ptr b + cur) (Z.to_nat (pl - cur)) = pend → rx_state q cur pl r pend.
Definition console_ok m (pend : list Z) : Prop :=
  let c := m_drv m in queue_buf_rx c = b ∧ rx_state (receiveq c) (cursor c) (pending_len c) (m_ram m) pend.

(** Offering the empty buffer. *)
Lemma poll_retrieve_ok m :
  queue_buf_rx (m_drv m) = b → q_idle 2 (receiveq (m_drv m)) →
  ∃ q', VirtIOConsole_poll_retrieve m = Ok (ok tt, mkMachine (m_dev m) (m_ram m) (update receiveq_ q' (m_drv m))) ∧
    (∃ i, rx_out q' i) ∧ us_idx (vq_used q') = last_used_idx q'.
Proof.
  destruct m as [d r c]. cbn [m_drv m_dev m_ram]. intros Hb (free & Hr & Hs & Hu).
  assert (Hlf : len free = 2) by (rewrite (rep_free_len _ _ _ Hr), (rep_num _ _ _ Hr), Hs; done).
  destruct (VirtQueue_add_ok (hal_virt_to_phys d) (receiveq c) free [] [] [b] [(3, b_ptr b, b_len b)])
    as (q' & l & free' & Ha & Hr' & _ & Hv & _ & _ & Hus & Hlu & Hsz & _); try done; [|unfold len in *; cbn in *; lia|].
  { constructor; [|constructor]. split_and!; [apply identity|done|by symmetry; apply Z.mod_small]. }
  assert (Hll : length l = 1%nat) by (apply (f_equal length) in Hv; by rewrite !length_fmap in Hv).
  destruct l as [|[i dd] [|]]; try done. change ([dview dd] = [(b_ptr b, b_len b, true)]) in Hv.
  exists q'. split_and!; [|exists i, free', dd; split_and!; [done|congruence..]|congruence].
  unfold VirtIOConsole_poll_retrieve, bind at 1, get. cbn [m_drv]. rewrite Hb.
  rewrite (bind_run _ _ _ (ok (chain_head [(i, dd)])) (mkMachine d r (update receiveq_ q' c))); [done|].
  unfold on_queue. cbn [m_drv m_dev m_ram view receiveq_]. by rewrite Ha.
Qed.

(** The loop of [ack_interrupt] when there is nothing to take. *)
Lemma retrieve_none fuel flag m :
  us_idx (vq_used (receiveq (m_drv m))) = last_used_idx (receiveq (m_drv m)) → retrieve_loop (S fuel) flag m = Ok (flag, m).
Proof.
  intros Hu. cbn [retrieve_loop]. rewrite (bind_run _ _ _ (err NotReady) m); [done|].
  unfold on_queue. cbn [view receiveq_]. unfold VirtQueue_pop_used, bind, get, VirtQueue_can_pop. rewrite Hu, Z.eqb_refl.
  by destruct m as [d r []].
Qed.
(** It takes the buffer the device has returned. *)
Lemma retrieve_returned m (pend : list Z) i e :
  queue_buf_rx (m_drv m) = b → let q := receiveq (m_drv m) in
  rx_out q i → us_idx (vq_used q) = wrap16 (last_used_idx q + 1) →
  us_ring (vq_used q) !! Z.to_nat (last_used_idx q mod 2) = Some e → wrap16 (ue_id e) = i → ue_len e = len pend → pend ≠ [] →
  ∃ q', retrieve_loop 2 false m = Ok (true, mkMachine (m_dev m) (m_ram m) (set_pending 0 (len pend) (update receiveq_ q' (m_drv m)))) ∧
    q_idle 2 q'.
Proof.
  destruct m as [d r c]. cbn [m_drv m_dev m_ram]. set (q := receiveq c). intros Hb (free & dd & Hr & _ & Hs) Hu He Hid Hl Hne.
  pose proof (rep_used _ _ _ Hr). destruct (VirtQueue_pop_used_ok q free [] [(i, dd)] [] e Hr) as (q' & Hp & Hr' & Hlu & Hus & _ & _ & Hsz).
  { unfold VirtQueue_can_pop. rewrite Hu. apply negb_true_iff, Z.eqb_neq. pose proof (wrap16_succ_ne (last_used_idx q)). lia. }
  { by rewrite Hs. }
  { done. }
  assert (Hi : q_idle 2 q') by (exists (i :: free); split_and!; [done|congruence..]).
  exists q'. split; [|done]. set (m1 := mkMachine d r (update receiveq_ q' c)).
  assert (Hlen : (len pend =? 0) = false) by (apply Z.eqb_neq; unfold len; destruct pend; [done|cbn; lia]).
  cbn [retrieve_loop]. rewrite (bind_run _ _ _ (ok (i, len pend)) m1).
  2: { unfold on_queue. cbn [m_drv m_dev m_ram view receiveq_]. fold q. by rewrite Hp, Hl. }
  cbn [negb]. rewrite Hlen. unfold bind at 1, lift at 1, assert_. unfold bind at 1, lift, assert_. cbn [negb].
  unfold bind at 1, modify_drv, modify. cbn [m_drv m_dev m_ram m1].
  apply (retrieve_none 0 true). cbn. congruence.
Qed.
(** Everything delivered can be read: the driver has the buffer if there is
    anything in it. *)
Definition readable m (pend : list Z) : Prop := console_ok m pend ∧ (pend = [] ∨ cursor (m_drv m) ≠ pending_len (m_drv m)).

Lemma ack_interrupt_ok m pend :
  console_ok m pend →
  ∃ fl m', VirtIOConsole_ack_interrupt m = Ok (ok fl, m') ∧ console_ok m' pend ∧
    ((mmio_read (offset_of Reg.interrupt_status) (m_dev m)).1 ≠ 0 → readable m' pend).
Proof.
  destruct m as [d r c]. intros [Hb Hst]. cbn [m_drv m_dev m_ram] in *. unfold VirtIOConsole_ack_interrupt.
  set (v := (mmio_read (offset_of Reg.interrupt_status) d).1).
  set (d1 := (mmio_read (offset_of Reg.interrupt_status) d).2).
  set (d' := if v =? 0 then d1 else mmio_write (offset_of Reg.interrupt_ack) v d1).
  assert (Hack : VirtIOHeader_ack_interrupt d = Ok (negb (v =? 0), d')).
  { unfold VirtIOHeader_ack_interrupt, read_reg, write_reg, bind, d', v, d1. destruct (mmio_read _ d) as [x dx]. cbn. by destruct (x =? 0). }
  rewrite (bind_run _ _ _ (negb (v =? 0)) (mkMachine d' r c)) by (unfold zoom; cbn [view dev_ m_dev]; by rewrite Hack).
  destruct (v =? 0) eqn:Hv; cbn [negb].
  { apply Z.eqb_eq in Hv. eexists _, _. split; [done|]. split; [done|]. done. }
  destruct Hst as [i Ho Hu Hc|i e pend Ho Hu He Hid Hl Hne Hle Hram Hc|pend Hi Hcur Hle Hram].
  - rewrite (bind_run _ _ _ false (mkMachine d' r c)) by (by apply retrieve_none).
    eexists _, _. split; [done|]. assert (console_ok (mkMachine d' r c) []) by (split; [done|by eapply rx_empty]).
    split; [done|]. intros _. split; [done|by left].
  - destruct (retrieve_returned (mkMachine d' r c) pend i e) as (q' & Hret & Hq'); try done.
    rewrite (bind_run _ _ _ _ _ Hret). eexists _, _. split; [done|].
    assert (0 < len pend) by (unfold len; destruct pend; [done|cbn; lia]).
    assert (Hok : console_ok (mkMachine d' r (set_pending 0 (len pend) (update receiveq_ q' c))) pend).
    { split; [done|]. cbn. eapply rx_held; [done|lia|lia|]. rewrite Z.add_0_r, Z.sub_0_r. unfold len. by rewrite Nat2Z.id. }
    split; [exact Hok|]. intros _. split; [exact Hok|right]. cbn. lia.
  - rewrite (bind_run _ _ _ false (mkMachine d' r c)) by (apply retrieve_none; destruct Hi as (? & ? & ? & ?); done).
    assert (console_ok (mkMachine d' r c) pend) by (split; [done|by apply rx_held]).
    eexists _, _. split; [done|]. split; [done|]. intros _. split; [done|]. right. cbn. lia.
Qed.

Lemma ram_load_cons r x n : ram_load r x (S n) = default 0 (r !! x) :: ram_load r (x + 1) n.
Proof. change (S n) with (1 + n)%nat. rewrite ram_load_app. unfold ram_load at 1. cbn. by rewrite Z.add_0_r. Qed.

(** [recv] returns the next character, if the driver has any. *)
Lemma recv_held m p :
  console_ok m p → cursor (m_drv m) ≠ pending_len (m_drv m) →
  ∃ ch rest, p = ch :: rest ∧ VirtIOConsole_recv false m = Ok (ok (Some ch), m) ∧
    ∃ m', VirtIOConsole_recv true m = Ok (ok (Some ch), m') ∧ readable m' rest.
Proof.
  destruct m as [d r c]. intros [Hb Hst] Hne. cbn [m_drv m_dev m_ram] in *.
  destruct Hst as [| |pend Hi Hcur Hle Hram]; [done..|]. destruct (Z.to_nat (pending_len c - cursor c)) as [|n] eqn:Hn; [lia|].
  rewrite ram_load_cons in Hram. eexists _, _. split; [symmetry; exact Hram|]. clear pend Hram. set (rest := ram_load r (_ + 1) n).
  assert (Hpre : ∀ p, VirtIOConsole_recv p (mkMachine d r c) = (if p then
    modify_drv (set_pending (cursor c + 1) (pending_len c)) ;;
    if cursor c + 1 =? pending_len c then
      let* x := VirtIOConsole_poll_retrieve in
      match x with err e => ret (err e) | ok _ => ret (ok (Some (default 0 (r !! (b_ptr b + cursor c))))) end
    else ret (ok (Some (default 0 (r !! (b_ptr b + cursor c)))))
    else ret (ok (Some (default 0 (r !! (b_ptr b + cursor c)))))) (mkMachine d r c)).
  { intros p. unfold VirtIOConsole_recv, bind at 1, get. cbn [m_drv]. rewrite (proj2 (Z.eqb_neq _ _)) by done.
    rewrite Hb, (proj2 (Z.ltb_lt _ _)) by lia. unfold bind at 1, lift. unfold bind at 1, load_at. cbn [m_ram].
    rewrite ram_load_cons. cbn [head default id]. rewrite uadd_small by lia. done. }
  rewrite !Hpre. split; [done|]. cbv iota. unfold bind at 1, modify_drv, modify. cbn [m_drv m_dev m_ram].
  destruct (Z.eqb_spec (cursor c + 1) (pending_len c)) as [He|He].
  - destruct (poll_retrieve_ok (mkMachine d r (set_pending (cursor c + 1) (pending_len c) c))) as (q' & Hq & [i Ho] & Hu); [done..|].
    eexists. rewrite (bind_run _ _ _ _ _ Hq). split; [done|]. assert (n = O) as -> by lia. unfold rest.
    split; [|by left]. split; [done|]. cbn. eapply rx_empty; [exact Ho|done..].
  - eexists. split; [done|]. split; [|right; done]. split; [done|]. cbn. apply rx_held; [done|lia|lia|].
    unfold rest. rewrite Z.add_assoc. f_equal. lia.
Qed.
(** The device writes [bs] into the buffer it has as the chain [i] and returns
    it. *)
Definition delivered (i : Z) (bs : list Z) (d' : D) m : machine D VirtIOConsole :=
  let q := receiveq (m_drv m) in
  mkMachine d' (ram_store (m_ram m) (b_ptr b) bs)
    (update receiveq_ (q_set_used (used_push (vq_used q) 2 (mkUsedElem i (len bs))) q) (m_drv m)).
Lemma delivered_ok m i bs d' pend :
  console_ok m pend → rx_out (receiveq (m_drv m)) i → us_idx (vq_used (receiveq (m_drv m))) = last_used_idx (receiveq (m_drv m)) →
  bs ≠ [] → len bs ≤ b_len b → pend = [] ∧ console_ok (delivered i bs d' m) bs.
Proof.
  intros [Hb Hst] Ho Hu Hne Hl. destruct m as [d r c]. cbn [m_drv m_ram] in *. destruct Ho as (free & dd & Hr & Hv & Hs).
  pose proof (rep_used _ _ _ Hr). assert (Hcur : cursor c = pending_len c ∧ pend = []).
  { destruct Hst as [| |p (free' & Hr' & _) Hcur]; [done| |].
    - pose proof (wrap16_succ_ne (last_used_idx (receiveq c))). lia.
    - pose proof (rep_num _ _ _ Hr). pose proof (rep_num _ _ _ Hr'). unfold len in *. cbn in *. lia. }
  destruct Hcur as [Hcur ->]. split; [done|]. split; [done|]. unfold delivered. cbn [m_drv m_ram receiveq receiveq_ update cursor pending_len].
  destruct (rep_rings _ _ _ Hr) as [_ Hrl]. assert (Hi : 0 ≤ i < 2) by (rewrite <- Hs; apply (rep_range _ _ _ i Hr); set_solver).
  eapply (rx_returned _ _ _ _ i (mkUsedElem i (len bs))); cbn [q_set_used vq_used used_push us_idx us_ring last_used_idx ue_len ue_id]; try done.
  - exists free, dd. split_and!; [|done|done].
    apply (rep_q_with _ _ _ (mkShared (vq_desc (receiveq c)) (vq_avail (receiveq c)) (used_push (vq_used (receiveq c)) 2 (mkUsedElem i (len bs))) r)); try done.
    cbn. unfold len in *. by rewrite length_insert.
  - by rewrite Hu.
  - rewrite Hu. apply list_lookup_insert_eq. pose proof (Z.mod_pos_bound (last_used_idx (receiveq c)) 2). unfold len in *. lia.
  - apply Z.mod_small. lia.
  - apply ram_load_store_eq.
Qed.

(** A run of the driver and the device from [m0]: the characters delivered, the
    characters [recv] has popped, and the console then. *)
Inductive console_run (m0 : machine D VirtIOConsole) : list Z → list Z → machine D VirtIOConsole → Prop :=
| run_start : console_run m0 [] [] m0
| run_deliver dl rd m i bs d' :
    console_run m0 dl rd m → rx_out (receiveq (m_drv m)) i →
    us_idx (vq_used (receiveq (m_drv m))) = last_used_idx (receiveq (m_drv m)) → bs ≠ [] → len bs ≤ b_len b →
    console_run m0 (dl ++ bs) rd (delivered i bs d' m)
| run_ack dl rd m x m' : console_run m0 dl rd m → VirtIOConsole_ack_interrupt m = Ok (x, m') → console_run m0 dl rd m'
| run_peek dl rd m x m' : console_run m0 dl rd m → VirtIOConsole_recv false m = Ok (x, m') → console_run m0 dl rd m'
| run_recv dl rd m x m' : console_run m0 dl rd m → VirtIOConsole_recv true m = Ok (x, m') →
    console_run m0 dl (match x with ok (Some ch) => rd ++ [ch] | _ => rd end) m'.

Lemma recv_empty m pop : cursor (m_drv m) = pending_len (m_drv m) → VirtIOConsole_recv pop m = Ok (ok None, m).
Proof. intros Hc. unfold VirtIOConsole_recv, bind, get. by rewrite Hc, Z.eqb_refl. Qed.

Lemma console_run_ok m0 dl rd m : console_ok m0 [] → console_run m0 dl rd m → ∃ pend, dl = rd ++ pend ∧ console_ok m pend.
Proof.
  intros H0 Hrun. induction Hrun as [|dl rd m i bs d' _ (pend & Hdl & Hok) Ho Hu Hne Hl|dl rd m x m' _ (pend & Hdl & Hok) Hx
    |dl rd m x m' _ (pend & Hdl & Hok) Hx|dl rd m x m' _ (pend & Hdl & Hok) Hx].
  - by exists [].
  - destruct (delivered_ok m i bs d' pend) as [-> Hd]; try done. exists bs. by rewrite Hdl, app_nil_r.
  - destruct (ack_interrupt_ok m pend Hok) as (fl & m'' & Ha & Hok' & _). rewrite Hx in Ha. injection Ha as -> ->. by exists pend.
  - exists pend. split; [done|]. destruct (decide (cursor (m_drv m) = pending_len (m_drv m))) as [Hc|Hc].
    + rewrite (recv_empty m false Hc) in Hx. injection Hx as <- <-. done.
    + destruct (recv_held m pend Hok Hc) as (ch & rest & -> & Hp & _). rewrite Hp in Hx. injection Hx as <- <-. done.
  - destruct (decide (cursor (m_drv m) = pending_len (m_drv m))) as [Hc|Hc].
    + rewrite (recv_empty m true Hc) in Hx. injection Hx as <- <-. by exists pend.
    + destruct (recv_held m pend Hok Hc) as (ch & rest & -> & _ & m1 & Hp & Hr & _). rewrite Hp in Hx. injection Hx as <- <-.
      exists rest. by rewrite Hdl, <- app_assoc.
Qed.

(** [n] characters are asked for. *)
Fixpoint recv_n (n : nat) : M (machine D VirtIOConsole) (list (Result (option Z) VirtioError)) :=
  match n with
  | O => ret []
  | S n => let* x := VirtIOConsole_recv true in let* xs := recv_n n in ret (x :: xs)
  end.
Lemma recv_n_readable pend : ∀ m, readable m pend →
  ∃ m', recv_n (S (length pend)) m = Ok ((ok ∘ Some <$> pend) ++ [ok None], m').
Proof.
  induction pend as [|ch pend IH]; intros m [Hok Hr].
  - exists m. cbn. rewrite (bind_run _ _ _ (ok None) m); [done|]. destruct (decide (cursor (m_drv m) = pending_len (m_drv m))) as [Hc|Hc]; [by apply recv_empty|].
    by destruct (recv_held m [] Hok Hc) as (? & ? & ? & _).
  - destruct Hr as [|Hc]; [done|]. destruct (recv_held m (ch :: pend) Hok Hc) as (ch' & rest & [= <- <-] & _ & m1 & Hp & Hr1).
    destruct (IH m1 Hr1) as (m' & Hm'). exists m'. change (recv_n (S (length (ch :: pend)))) with
      (let* x := VirtIOConsole_recv true in let* xs := recv_n (S (length pend)) in ret (x :: xs)).
    by rewrite (bind_run _ _ _ _ _ Hp), (bind_run _ _ _ _ _ Hm').
Qed.
End stream.

(** C21. The console driver hands out the characters of the device in order, each
    once: in every run of [ack_interrupt], [recv] and a device that returns the
    receive buffer with at least one character and no more than it holds, what
    [recv] has popped is a prefix of what the device has delivered.  No call
    panics or fails, and when the interrupt is raised, acknowledging it and
    popping yields the rest. *)
Theorem VirtIOConsole_stream {D} `{VirtioDevice D} b (m0 m : machine D VirtIOConsole) dl rd :
  0 ≤ b_len b < 2 ^ 32 → (∀ d : D, hal_virt_to_phys d (b_ptr b) = Ok (b_ptr b)) → console_ok b m0 [] → console_run b m0 dl rd m →
  ∃ pend, dl = rd ++ pend ∧
    (∀ pop, ∃ x m', VirtIOConsole_recv pop m = Ok (ok x, m')) ∧
    (∃ fl m', VirtIOConsole_ack_interrupt m = Ok (ok fl, m') ∧
       ((mmio_read (offset_of Reg.interrupt_status) (m_dev m)).1 ≠ 0 →
        ∃ m'', recv_n (S (length pend)) m' = Ok ((ok ∘ Some <$> pend) ++ [ok None], m''))).
Proof.
  intros Hb Hid H0 Hrun. destruct (console_run_ok b Hb Hid m0 dl rd m H0 Hrun) as (pend & Hdl & Hok). exists pend. split_and!; [done| |].
  - intros pop. destruct (decide (cursor (m_drv m) = pending_len (m_drv m))) as [Hc|Hc]; [eexists _, _; by apply recv_empty|].
    destruct (recv_held b Hb Hid m pend Hok Hc) as (ch & rest & _ & Hp & m' & Hp' & _). destruct pop; eauto.
  - destruct (ack_interrupt_ok b m pend Hok) as (fl & m' & Ha & _ & Hr). exists fl, m'. split; [done|].
    intros Hi. by apply (recv_n_readable b Hb Hid), Hr.
Qed.

(** ** Sending *)
(** The console of the standard: the characters shown. *)
Definition console_serve : service (list Z) := λ qi l s r,
  match l with
  | [(p, n, false)] => if qi =? 1 then Some (s ++ ram_load r p (Z.to_nat n), r, 0) else None
  | _ => None
  end.
Lemma VirtIOConsole_send_ok {D} `{VirtioDevice D} state ready mapped bound `{!ServingLaws D (list Z) console_serve state ready mapped bound}
    fuel p chr (m : machine D VirtIOConsole) :
  q_ready ready QUEUE_TRANSMITQ_PORT_0 2 (transmitq (m_drv m)) (m_dev m) → (bound ≤ fuel)%nat → mapped p →
  ∃ q' m', VirtIOConsole_send fuel p chr m = Ok (ok tt, m') ∧ state (m_dev m') = state (m_dev m) ++ [chr] ∧
    m_drv m' = update transmitq_ q' (m_drv m) ∧ m_ram m' = ram_store (m_ram m) p [chr] ∧
    q_ready ready QUEUE_TRANSMITQ_PORT_0 2 q' (m_dev m').
Proof.
  intros Hq Hf Hp. set (m1 := mkMachine (m_dev m) (ram_store (m_ram m) p [chr]) (m_drv m)).
  destruct (transact_served console_serve state ready mapped bound transmitq_ QUEUE_TRANSMITQ_PORT_0 2 fuel m1 [mkBuf p 1] []
    (state (m_dev m) ++ [chr]) (m_ram m1) 0) as (tok & q' & m' & Ht & Hd & Hq' & Hs & Hr & _); try done.
  { repeat constructor; cbn; (done || lia). }
  { cbn -[ram_load m_ram m1]. do 3 f_equal. f_equal. exact (ram_load_store_eq _ p [chr]). }
  exists q', m'. split_and!; try done. unfold VirtIOConsole_send. rewrite (bind_run _ _ m tt m1) by done.
  by rewrite (bind_run _ _ _ _ _ Ht).
Qed.

(** ** A console on a device *)
#[local] Instance tty_device : VirtioDevice (server (list Z)) := server_device console_serve.
Definition tty (iq : Z) : server (list Z) := mkServer [] ∅ ∅ ∅ 0 iq [] 0x80400000.
Definition tty_buf : buf := mkBuf 0x80404000 4096.
Lemma tty_new r : ∃ c d, VirtIOConsole_new r (tty 1) = Ok (ok c, d) ∧ sv_irq d = 1 ∧ console_ok tty_buf (mkMachine d r c) [] ∧
  ∃ i, rx_out tty_buf (receiveq c) i ∧ us_idx (vq_used (receiveq c)) = last_used_idx (receiveq c).
Proof.
  destruct (server_queue_new console_serve 1 0 [] ∅ ∅ ∅ 0 1 [] 0x80400000) as (q0 & H0 & R0 & S0 & A0 & L0 & U0); [lia..|by vm_compute|lia|].
  destruct (server_queue_new console_serve 1 1 [] {[0 := 2]} {[0 := 0x80400]} {[0 := 0]} 0 1 [] 0x80402000)
    as (q1 & H1 & R1 & S1 & A1 & L1 & U1); [lia..|by vm_compute|lia|].
  set (d := mkServer ([] : list Z) {[1 := 2; 0 := 2]} {[1 := 0x80402; 0 := 0x80400]} {[1 := 0; 0 := 0]} 1 1 [] 0x80405000).
  set (c := mkVirtIOConsole q0 q1 (mkDMA 0x80404000 1) tty_buf 0 0).
  destruct (poll_retrieve_ok tty_buf ltac:(cbn; lia) ltac:(done) (mkMachine d r c)) as (q' & Hp & [i Ho] & Hu).
  { done. }
  { exists (seqZ 0 (2 ^ 1)). cbn. by rewrite L0. }
  exists (update receiveq_ q' c), d. split; [|split; [done|split; [split; [done|by eapply rx_empty]|by exists i]]].
  unfold VirtIOConsole_new. rewrite (bind_run _ _ (tty 1) tt (tty 1)) by done. rewrite (bind_run _ _ _ _ _ H0).
  change (<[0:=2 ^ 1]> ∅) with ({[0 := 2]} : gmap Z Z). change (Z.shiftr 0x80400000 12) with 0x80400. change (0x80400000 + 8192) with 0x80402000.
  rewrite (bind_run _ _ _ _ _ H1). rewrite (bind_run _ _ _ (ok (mkDMA 0x80404000 1)) d) by done.
  rewrite (bind_run _ _ d (0x80404000, 4096) d) by done. rewrite (bind_run _ _ d tt d) by done. unfold bind at 1, get.
  cbv zeta. cbn [fst snd]. fold tty_buf c. rewrite Hp. done.
Qed.
Lemma VirtIOConsole_stream_witness : ∃ c d i fl m' m'',
  VirtIOConsole_new ∅ (tty 1) = Ok (ok c, d) ∧
  let m := delivered tty_buf i [104; 105] d (mkMachine d ∅ c) in
  VirtIOConsole_ack_interrupt m = Ok (ok fl, m') ∧
  recv_n 3 m' = Ok ([ok (Some 104); ok (Some 105); ok None], m'').
Proof.
  destruct (tty_new ∅) as (c & d & Hnew & Hirq & Hok & i & Ho & Hu).
  destruct (VirtIOConsole_stream tty_buf (mkMachine d ∅ c) (delivered tty_buf i [104; 105] d (mkMachine d ∅ c)) [104; 105] [])
    as (pend & Hp & _ & fl & m' & Ha & Hr).
  - cbn. lia.
  - done.
  - exact Hok.
  - apply (run_deliver tty_buf _ [] []); [constructor|exact Ho|exact Hu|done|done].
  - cbn in Hp. subst pend. destruct Hr as (m'' & Hr).
    { change (sv_irq d ≠ 0). by rewrite Hirq. }
    exists c, d, i, fl, m', m''. split; [exact Hnew|]. split; [exact Ha|exact Hr].
Defined.
