(* ===== verification/VirtioGpu.v ===== *)
(** * The graphics driver ([virtio-drivers/src/gpu.rs])

    [VirtIOGpu] writes a command into its send page, passes both its pages to
    the device in the control queue and reads the response from the receive
    page; cursor commands go through the cursor queue.  The theorem is proved
    against the two-dimensional device [gpu] of the standard. *)

From S2P Require Import Prelude PhysMem VirtQueue VirtioBlk VirtioServe.

(** ** Structures in memory *)
(** A [repr(C)] struct without padding: the sizes and the values of its fields. *)
Definition encode (fs : list (Z * Z)) : list Z := concat ((λ p, Z_to_little_endian p.1 8 p.2) <$> fs).
(** The fields of given sizes at the start of some bytes. *)
Fixpoint decode (sizes : list Z) (bs : list Z) : list Z :=
  match sizes with
  | [] => []
  | n :: sizes => little_endian_to_Z 8 (take (Z.to_nat n) bs) :: decode sizes (drop (Z.to_nat n) bs)
  end.
Definition u32f (v : Z) : Z * Z := (4, v).
Definition u64f (v : Z) : Z * Z := (8, v).

Module Command.
(** [virtio-drivers/gpu.rs:331-356] Command *)
Inductive Command : Type :=
| GetDisplayInfo | ResourceCreate2d | ResourceUnref | SetScanout | ResourceFlush | TransferToHost2d
| ResourceAttachBacking | ResourceDetachBacking | GetCapsetInfo | GetCapset | GetEdid
| UpdateCursor | MoveCursor
| OkNodata | OkDisplayInfo | OkCapsetInfo | OkCapset | OkEdid
| ErrUnspec | ErrOutOfMemory | ErrInvalidScanoutId.
End Command.
Definition Command_discriminant (c : Command.Command) : Z :=
  match c with
  | Command.GetDisplayInfo => 0x100 | Command.ResourceCreate2d => 0x101 | Command.ResourceUnref => 0x102
  | Command.SetScanout => 0x103 | Command.ResourceFlush => 0x104 | Command.TransferToHost2d => 0x105
  | Command.ResourceAttachBacking => 0x106 | Command.ResourceDetachBacking => 0x107 | Command.GetCapsetInfo => 0x108
  | Command.GetCapset => 0x109 | Command.GetEdid => 0x10a
  | Command.UpdateCursor => 0x300 | Command.MoveCursor => 0x301
  | Command.OkNodata => 0x1100 | Command.OkDisplayInfo => 0x1101 | Command.OkCapsetInfo => 0x1102
  | Command.OkCapset => 0x1103 | Command.OkEdid => 0x1104
  | Command.ErrUnspec => 0x1200 | Command.ErrOutOfMemory => 0x1201 | Command.ErrInvalidScanoutId => 0x1202
  end.
(** [virtio-drivers/gpu.rs:362-368] CtrlHeader. The type is kept as the number in
    memory: a device may answer with one that is not a [Command]. *)
Record CtrlHeader : Type := mkCtrlHeader { hdr_type : Z; hdr_flags : Z; fence_id : Z; ctx_id : Z; hdr_padding : Z }.
Definition CtrlHeader_fields (h : CtrlHeader) : list (Z * Z) :=
  [u32f (hdr_type h); u32f (hdr_flags h); u64f (fence_id h); u32f (ctx_id h); u32f (hdr_padding h)].
Definition CtrlHeader_of (v : list Z) : CtrlHeader :=
  mkCtrlHeader (nth 0 v 0) (nth 1 v 0) (nth 2 v 0) (nth 3 v 0) (nth 4 v 0).
(** [virtio-drivers/gpu.rs:371-379] CtrlHeader::with_type *)
Definition CtrlHeader_with_type (hdr_type : Command.Command) : CtrlHeader :=
  mkCtrlHeader (Command_discriminant hdr_type) 0 0 0 0.
(** [virtio-drivers/gpu.rs:382-388] CtrlHeader::check_type *)
Definition CtrlHeader_check_type (h : CtrlHeader) (expected : Command.Command) : Result unit VirtioError :=
  if hdr_type h =? Command_discriminant expected then ok tt else err IoError.
(** [virtio-drivers/gpu.rs:393-398] Rect *)
Record Rect : Type := mkRect { rect_x : Z; rect_y : Z; rect_width : Z; rect_height : Z }.
Definition Rect_fields (r : Rect) : list (Z * Z) :=
  [u32f (rect_x r); u32f (rect_y r); u32f (rect_width r); u32f (rect_height r)].
Definition Rect_default : Rect := mkRect 0 0 0 0.
(** [virtio-drivers/gpu.rs:402-407] RespDisplayInfo *)
Record RespDisplayInfo : Type := mkRespDisplayInfo { di_header : CtrlHeader; di_rect : Rect; di_enabled : Z; di_flags : Z }.
Definition CtrlHeader_sizes : list Z := [4; 4; 8; 4; 4].
Definition RespDisplayInfo_sizes : list Z := CtrlHeader_sizes ++ [4; 4; 4; 4; 4; 4].
Definition RespDisplayInfo_of (v : list Z) : RespDisplayInfo :=
  mkRespDisplayInfo (CtrlHeader_of v) (mkRect (nth 5 v 0) (nth 6 v 0) (nth 7 v 0) (nth 8 v 0)) (nth 9 v 0) (nth 10 v 0).
(** [virtio-drivers/gpu.rs:421-423] Format *)
Inductive Format : Type := B8G8R8A8UNORM.
Definition Format_discriminant (f : Format) : Z := match f with B8G8R8A8UNORM => 1 end.
(** [virtio-drivers/gpu.rs:411-417] ResourceCreate2D *)
Definition ResourceCreate2D_fields (header : CtrlHeader) (resource_id : Z) (format : Format) (width height : Z) : list (Z * Z) :=
  CtrlHeader_fields header ++ [u32f resource_id; u32f (Format_discriminant format); u32f width; u32f height].
(** [virtio-drivers/gpu.rs:427-434] ResourceAttachBacking *)
Definition ResourceAttachBacking_fields (header : CtrlHeader) (resource_id nr_entries addr length _padding : Z) : list (Z * Z) :=
  CtrlHeader_fields header ++ [u32f resource_id; u32f nr_entries; u64f addr; u32f length; u32f _padding].
(** [virtio-drivers/gpu.rs:438-443] SetScanout *)
Definition SetScanout_fields (header : CtrlHeader) (rect : Rect) (scanout_id resource_id : Z) : list (Z * Z) :=
  CtrlHeader_fields header ++ Rect_fields rect ++ [u32f scanout_id; u32f resource_id].
(** [virtio-drivers/gpu.rs:447-453] TransferToHost2D *)
Definition TransferToHost2D_fields (header : CtrlHeader) (rect : Rect) (offset resource_id _padding : Z) : list (Z * Z) :=
  CtrlHeader_fields header ++ Rect_fields rect ++ [u64f offset; u32f resource_id; u32f _padding].
(** [virtio-drivers/gpu.rs:457-462] ResourceFlush *)
Definition ResourceFlush_fields (header : CtrlHeader) (rect : Rect) (resource_id _padding : Z) : list (Z * Z) :=
  CtrlHeader_fields header ++ Rect_fields rect ++ [u32f resource_id; u32f _padding].
(** [virtio-drivers/gpu.rs:466-471] CursorPos *)
Definition CursorPos_fields (scanout_id x y _padding : Z) : list (Z * Z) := [u32f scanout_id; u32f x; u32f y; u32f _padding].
(** [virtio-drivers/gpu.rs:475-482] UpdateCursor *)
Definition UpdateCursor_fields (header : CtrlHeader) (pos : list (Z * Z)) (resource_id hot_x hot_y _padding : Z) : list (Z * Z) :=
  CtrlHeader_fields header ++ pos ++ [u32f resource_id; u32f hot_x; u32f hot_y; u32f _padding].

(** ** Constants *)
(** [virtio-drivers/gpu.rs:304-327] Features. The bits of the flags. *)
Definition GpuFeatures_bits : list Z := [0; 1; 24; 27; 28; 29; 30; 32; 33; 34; 35; 36; 37; 38].
Definition GpuFeatures_all : Z := foldr (λ b m, Z.lor (2 ^ b) m) 0 GpuFeatures_bits.
(** [virtio-drivers/gpu.rs:484-484] QUEUE_TRANSMIT *)
Definition GPU_QUEUE_TRANSMIT : Z := 0.
(** [virtio-drivers/gpu.rs:485-485] QUEUE_CURSOR *)
Definition QUEUE_CURSOR : Z := 1.
(** [virtio-drivers/gpu.rs:487-487] SCANOUT_ID *)
Definition SCANOUT_ID : Z := 0.
(** [virtio-drivers/gpu.rs:488-488] RESOURCE_ID_FB *)
Definition RESOURCE_ID_FB : Z := 0xbabe.
(** [virtio-drivers/gpu.rs:489-489] RESOURCE_ID_CURSOR *)
Definition RESOURCE_ID_CURSOR : Z := 0xdade.
(** [virtio-drivers/gpu.rs:491-496] CURSOR_RECT *)
Definition CURSOR_RECT : Rect := mkRect 0 0 64 64.

(** [virtio-drivers/gpu.rs:15-32] VirtIOGpu *)
Record VirtIOGpu : Type := mkVirtIOGpu {
  gpu_rect : Rect;
  frame_buffer_dma : option DMA;
  cursor_buffer_dma : option DMA;
  control_queue : VirtQueue;
  cursor_queue : VirtQueue;
  gpu_buf_dma : DMA;
  queue_buf_send : buf;
  queue_buf_recv : buf;
}.
Definition gpu_set_rect (r : Rect) (g : VirtIOGpu) : VirtIOGpu :=
  mkVirtIOGpu r (frame_buffer_dma g) (cursor_buffer_dma g) (control_queue g) (cursor_queue g) (gpu_buf_dma g) (queue_buf_send g) (queue_buf_recv g).
Definition gpu_set_frame_buffer (d : option DMA) (g : VirtIOGpu) : VirtIOGpu :=
  mkVirtIOGpu (gpu_rect g) d (cursor_buffer_dma g) (control_queue g) (cursor_queue g) (gpu_buf_dma g) (queue_buf_send g) (queue_buf_recv g).
Definition gpu_set_cursor_buffer (d : option DMA) (g : VirtIOGpu) : VirtIOGpu :=
  mkVirtIOGpu (gpu_rect g) (frame_buffer_dma g) d (control_queue g) (cursor_queue g) (gpu_buf_dma g) (queue_buf_send g) (queue_buf_recv g).
Definition control_queue_ : lens VirtIOGpu VirtQueue := Lens control_queue (λ q g,
  mkVirtIOGpu (gpu_rect g) (frame_buffer_dma g) (cursor_buffer_dma g) q (cursor_queue g) (gpu_buf_dma g) (queue_buf_send g) (queue_buf_recv g)).
Definition cursor_queue_ : lens VirtIOGpu VirtQueue := Lens cursor_queue (λ q g,
  mkVirtIOGpu (gpu_rect g) (frame_buffer_dma g) (cursor_buffer_dma g) (control_queue g) q (gpu_buf_dma g) (queue_buf_send g) (queue_buf_recv g)).

(** ** Operations *)
(** The operator [?]. *)
Definition and_then {S A B E} (c : M S (Result A E)) (k : A → M S (Result B E)) : M S (Result B E) :=
  let* r := c in
  match r with
  | err e => ret (err e)
  | ok a => k a
  end.
#[local] Notation "'let?' x := e 'in' k" := (and_then e (λ x, k)) (at level 10, x name, e at level 100, k at level 200).

Section gpu.
Context {D : Type} `{VirtioDevice D}.

(** [virtio-drivers/gpu.rs:36-68] VirtIOGpu::new *)
Definition VirtIOGpu_new : M D (Result VirtIOGpu VirtioError) :=
  VirtIOHeader_begin_init (λ features, Z.land (Z.land features GpuFeatures_all) 0) ;;
  let? control_queue := VirtQueue_new GPU_QUEUE_TRANSMIT 2 in
  let* cursor_queue := VirtQueue_new QUEUE_CURSOR 2 in
  match cursor_queue with
  | err e => DMA_drop (vq_dma control_queue) ;; ret (err e)
  | ok cursor_queue =>
      let* queue_buf_dma := DMA_new 2 in
      match queue_buf_dma with
      | err e => DMA_drop (vq_dma cursor_queue) ;; DMA_drop (vq_dma control_queue) ;; ret (err e)
      | ok queue_buf_dma =>
          let* b := DMA_as_buf queue_buf_dma in
          let queue_buf_send := mkBuf b.1 VIRTIO_PAGE_SIZE in
          let queue_buf_recv := mkBuf (b.1 + VIRTIO_PAGE_SIZE) (b.2 - VIRTIO_PAGE_SIZE) in
          VirtIOHeader_finish_init ;;
          ret (ok (mkVirtIOGpu Rect_default None None control_queue cursor_queue queue_buf_dma queue_buf_send queue_buf_recv))
      end
  end.

Abbreviation GM := (M (machine D VirtIOGpu)).
Definition modify_gpu (f : VirtIOGpu → VirtIOGpu) : GM unit := modify (λ m, mkMachine (m_dev m) (m_ram m) (f (m_drv m))).
(** A value of type [DMA] of the caller, dropped when [c] fails. *)
Definition owning {A} (dma : DMA) (c : GM (Result A VirtioError)) : GM (Result A VirtioError) :=
  let* r := c in
  match r with
  | err e => zoom dev_ (DMA_drop dma) ;; ret (err e)
  | ok a => ret (ok a)
  end.
(** The old value of a field that is assigned to is dropped. *)
Definition drop_option (o : option DMA) : GM unit :=
  match o with Some dma => zoom dev_ (DMA_drop dma) | None => ret tt end.

(** [virtio-drivers/gpu.rs:71-73] VirtIOGpu::ack_interrupt *)
Definition VirtIOGpu_ack_interrupt : GM bool := zoom dev_ VirtIOHeader_ack_interrupt.
(** [virtio-drivers/gpu.rs:76-78] VirtIOGpu::resolution *)
Definition VirtIOGpu_resolution (g : VirtIOGpu) : Z * Z := (rect_width (gpu_rect g), rect_height (gpu_rect g)).
(** [virtio-drivers/gpu.rs:160-172] VirtIOGpu::request. The response as its fields. *)
Definition VirtIOGpu_request (fuel : nat) (req : list (Z * Z)) (rsp : list Z) : GM (Result (list Z) VirtioError) :=
  let* m := get in
  let g := m_drv m in
  store_at (b_ptr (queue_buf_send g)) (encode req) ;;
  let? _ := transact fuel control_queue_ GPU_QUEUE_TRANSMIT [queue_buf_send g] [queue_buf_recv g] in
  let* bs := load_at (b_ptr (queue_buf_recv g)) (Z.to_nat (foldr Z.add 0 rsp)) in
  ret (ok (decode rsp bs)).
(** [virtio-drivers/gpu.rs:175-186] VirtIOGpu::cursor_request *)
Definition VirtIOGpu_cursor_request (fuel : nat) (req : list (Z * Z)) : GM (Result unit VirtioError) :=
  let* m := get in
  let g := m_drv m in
  store_at (b_ptr (queue_buf_send g)) (encode req) ;;
  let? _ := transact fuel cursor_queue_ QUEUE_CURSOR [queue_buf_send g] [] in
  ret (ok tt).
(** [virtio-drivers/gpu.rs:188-192] VirtIOGpu::get_display_info *)
Definition VirtIOGpu_get_display_info (fuel : nat) : GM (Result RespDisplayInfo VirtioError) :=
  let? v := VirtIOGpu_request fuel (CtrlHeader_fields (CtrlHeader_with_type Command.GetDisplayInfo)) RespDisplayInfo_sizes in
  let info := RespDisplayInfo_of v in
  let? _ := ret (CtrlHeader_check_type (di_header info) Command.OkDisplayInfo) in
  ret (ok info).
(** [virtio-drivers/gpu.rs:194-203] VirtIOGpu::resource_create_2d *)
Definition VirtIOGpu_resource_create_2d (fuel : nat) (resource_id width height : Z) : GM (Result unit VirtioError) :=
  let? rsp := VirtIOGpu_request fuel (ResourceCreate2D_fields (CtrlHeader_with_type Command.ResourceCreate2d)
                resource_id B8G8R8A8UNORM width height) CtrlHeader_sizes in
  ret (CtrlHeader_check_type (CtrlHeader_of rsp) Command.OkNodata).
(** [virtio-drivers/gpu.rs:205-213] VirtIOGpu::set_scanout *)
Definition VirtIOGpu_set_scanout (fuel : nat) (rect : Rect) (scanout_id resource_id : Z) : GM (Result unit VirtioError) :=
  let? rsp := VirtIOGpu_request fuel (SetScanout_fields (CtrlHeader_with_type Command.SetScanout) rect scanout_id resource_id)
                CtrlHeader_sizes in
  ret (CtrlHeader_check_type (CtrlHeader_of rsp) Command.OkNodata).
(** [virtio-drivers/gpu.rs:215-223] VirtIOGpu::resource_flush *)
Definition VirtIOGpu_resource_flush (fuel : nat) (rect : Rect) (resource_id : Z) : GM (Result unit VirtioError) :=
  let? rsp := VirtIOGpu_request fuel (ResourceFlush_fields (CtrlHeader_with_type Command.ResourceFlush) rect resource_id 0)
                CtrlHeader_sizes in
  ret (CtrlHeader_check_type (CtrlHeader_of rsp) Command.OkNodata).
(** [virtio-drivers/gpu.rs:225-234] VirtIOGpu::transfer_to_host_2d *)
Definition VirtIOGpu_transfer_to_host_2d (fuel : nat) (rect : Rect) (offset resource_id : Z) : GM (Result unit VirtioError) :=
  let? rsp := VirtIOGpu_request fuel (TransferToHost2D_fields (CtrlHeader_with_type Command.TransferToHost2d)
                rect offset resource_id 0) CtrlHeader_sizes in
  ret (CtrlHeader_check_type (CtrlHeader_of rsp) Command.OkNodata).
(** [virtio-drivers/gpu.rs:236-246] VirtIOGpu::resource_attach_backing *)
Definition VirtIOGpu_resource_attach_backing (fuel : nat) (resource_id paddr length : Z) : GM (Result unit VirtioError) :=
  let? rsp := VirtIOGpu_request fuel (ResourceAttachBacking_fields (CtrlHeader_with_type Command.ResourceAttachBacking)
                resource_id 1 paddr length 0) CtrlHeader_sizes in
  ret (CtrlHeader_check_type (CtrlHeader_of rsp) Command.OkNodata).
(** [virtio-drivers/gpu.rs:248-275] VirtIOGpu::update_cursor *)
Definition VirtIOGpu_update_cursor (fuel : nat) (resource_id scanout_id pos_x pos_y hot_x hot_y : Z) (is_move : bool) :
    GM (Result unit VirtioError) :=
  VirtIOGpu_cursor_request fuel (UpdateCursor_fields
    (if is_move then CtrlHeader_with_type Command.MoveCursor else CtrlHeader_with_type Command.UpdateCursor)
    (CursorPos_fields scanout_id pos_x pos_y 0) resource_id hot_x hot_y 0).

(** [virtio-drivers/gpu.rs:81-107] VirtIOGpu::setup_framebuffer. The address and the
    length of the buffer. *)
Definition VirtIOGpu_setup_framebuffer (fuel : nat) : GM (Result (Z * Z) VirtioError) :=
  let? display_info := VirtIOGpu_get_display_info fuel in
  modify_gpu (gpu_set_rect (di_rect display_info)) ;;
  let? _ := VirtIOGpu_resource_create_2d fuel RESOURCE_ID_FB (rect_width (di_rect display_info)) (rect_height (di_rect display_info)) in
  let size := wrap32 (wrap32 (rect_width (di_rect display_info) * rect_height (di_rect display_info)) * 4) in
  let? fb_dma := zoom dev_ (DMA_new (pages size)) in
  let? _ := owning fb_dma (VirtIOGpu_resource_attach_backing fuel RESOURCE_ID_FB (dma_paddr fb_dma) size) in
  let? _ := owning fb_dma (VirtIOGpu_set_scanout fuel (di_rect display_info) SCANOUT_ID RESOURCE_ID_FB) in
  let* b := zoom dev_ (DMA_as_buf fb_dma) in
  let* m := get in
  drop_option (frame_buffer_dma (m_drv m)) ;;
  modify_gpu (gpu_set_frame_buffer (Some fb_dma)) ;;
  ret (ok b).
(** [virtio-drivers/gpu.rs:110-116] VirtIOGpu::flush *)
Definition VirtIOGpu_flush (fuel : nat) : GM (Result unit VirtioError) :=
  let* m := get in
  let? _ := VirtIOGpu_transfer_to_host_2d fuel (gpu_rect (m_drv m)) 0 RESOURCE_ID_FB in
  let* m := get in
  let? _ := VirtIOGpu_resource_flush fuel (gpu_rect (m_drv m)) RESOURCE_ID_FB in
  ret (ok tt).
(** [virtio-drivers/gpu.rs:119-149] VirtIOGpu::setup_cursor *)
Definition VirtIOGpu_setup_cursor (fuel : nat) (cursor_image : list Z) (pos_x pos_y hot_x hot_y : Z) : GM (Result unit VirtioError) :=
  let size := wrap32 (wrap32 (rect_width CURSOR_RECT * rect_height CURSOR_RECT) * 4) in
  if negb (len cursor_image =? size) then ret (err InvalidParam) else
  let? cb_dma := zoom dev_ (DMA_new (pages size)) in
  let* b := zoom dev_ (DMA_as_buf cb_dma) in
  lift (if b.2 =? len cursor_image then Ok tt else Fault OutOfBounds) ;;
  store_at b.1 cursor_image ;;
  let? _ := owning cb_dma (
    let? _ := VirtIOGpu_resource_create_2d fuel RESOURCE_ID_CURSOR (rect_width CURSOR_RECT) (rect_height CURSOR_RECT) in
    let? _ := VirtIOGpu_resource_attach_backing fuel RESOURCE_ID_CURSOR (dma_paddr cb_dma) size in
    let? _ := VirtIOGpu_transfer_to_host_2d fuel CURSOR_RECT 0 RESOURCE_ID_CURSOR in
    VirtIOGpu_update_cursor fuel RESOURCE_ID_CURSOR SCANOUT_ID pos_x pos_y hot_x hot_y false) in
  let* m := get in
  drop_option (cursor_buffer_dma (m_drv m)) ;;
  modify_gpu (gpu_set_cursor_buffer (Some cb_dma)) ;;
  ret (ok tt).
(** [virtio-drivers/gpu.rs:152-155] VirtIOGpu::move_cursor *)
Definition VirtIOGpu_move_cursor (fuel : nat) (pos_x pos_y : Z) : GM (Result unit VirtioError) :=
  let? _ := VirtIOGpu_update_cursor fuel RESOURCE_ID_CURSOR SCANOUT_ID pos_x pos_y 0 0 true in
  ret (ok tt).
End gpu.

(** ** Encoding *)
Definition field_ok (p : Z * Z) : Prop := 0 ≤ p.1 ∧ 0 ≤ p.2 < 2 ^ (8 * p.1).
Lemma decode_encode fs tail : Forall field_ok fs → decode fs.*1 (encode fs ++ tail) = fs.*2.
Proof.
  unfold encode. intros Hfs. induction Hfs as [|[n v] fs [Hn Hv] Hfs IH]; [done|]. cbn [fmap list_fmap concat decode fst snd] in *.
  pose proof (length_Z_to_little_endian n 8 v Hn). rewrite <- app_assoc.
  replace (Z.to_nat n) with (length (Z_to_little_endian n 8 v)) by lia. rewrite take_app_length, drop_app_length, IH. f_equal.
  rewrite little_endian_to_Z_to_little_endian by lia. apply Z.mod_small. by replace (n * 8) with (8 * n) by lia.
Qed.
Lemma length_encode fs : Forall field_ok fs → len (encode fs) = foldr Z.add 0 fs.*1.
Proof.
  unfold encode. intros Hfs. induction Hfs as [|[n v] fs [Hn Hv] Hfs IH]; [done|]. cbn [fmap list_fmap concat foldr fst snd] in *.
  unfold len in *. rewrite length_app. pose proof (length_Z_to_little_endian n 8 v Hn). cbn [foldr]. lia.
Qed.
Lemma encode_app f g : encode (f ++ g) = encode f ++ encode g.
Proof. unfold encode. by rewrite fmap_app, concat_app. Qed.
(** The fields after the header. *)
Lemma decode_body h body tail :
  Forall field_ok (CtrlHeader_fields h) → Forall field_ok body →
  decode CtrlHeader_sizes (encode (CtrlHeader_fields h ++ body) ++ tail) = (CtrlHeader_fields h).*2 ∧
  decode body.*1 (drop 24 (encode (CtrlHeader_fields h ++ body) ++ tail)) = body.*2.
Proof.
  intros Hh Hb. pose proof (length_encode _ Hh) as Hl. change (foldr Z.add 0 _) with 24 in Hl. rewrite encode_app, <- app_assoc. split.
  - by apply (decode_encode (CtrlHeader_fields h)).
  - replace 24%nat with (length (encode (CtrlHeader_fields h))) by (unfold len in Hl; lia). rewrite drop_app_length. by apply decode_encode.
Qed.

(** ** The graphics device of the standard *)
Record resource : Type := mkResource { res_width : Z; res_height : Z; res_backing : option (Z * Z); res_host : list Z }.
(** The display, the resources, the resource that is shown, what the screen
    shows, and the resource and the position of the pointer. *)
Record gpu : Type := mkGpu {
  g_width : Z; g_height : Z; g_resources : gmap Z resource; g_scanout : option Z; g_screen : list Z; g_cursor : option (Z * Z * Z) }.
Definition g_set_resource (id : Z) (rs : resource) (s : gpu) : gpu :=
  mkGpu (g_width s) (g_height s) (<[id := rs]> (g_resources s)) (g_scanout s) (g_screen s) (g_cursor s).
Definition nodata : list Z := encode (CtrlHeader_fields (CtrlHeader_with_type Command.OkNodata)).
Definition unspec : list Z := encode (CtrlHeader_fields (CtrlHeader_with_type Command.ErrUnspec)).
(** The response to a command, from its bytes.  A transfer is of a whole
    resource; the display information has room for fifteen further displays. *)
Definition gpu_command (r : bmem) (s : gpu) (bs : list Z) : gpu * list Z :=
  let body := drop 24 bs in
  match nth 0 (decode CtrlHeader_sizes bs) 0 with
  | 0x100 =>
      (s, encode (CtrlHeader_fields (CtrlHeader_with_type Command.OkDisplayInfo) ++
                  Rect_fields (mkRect 0 0 (g_width s) (g_height s)) ++ [u32f 1; u32f 0]) ++ replicate 360 0)
  | 0x101 =>
      match decode [4; 4; 4; 4] body with
      | [id; 1; w; h] =>
          match g_resources s !! id with
          | None => (g_set_resource id (mkResource w h None []) s, nodata)
          | Some _ => (s, unspec)
          end
      | _ => (s, unspec)
      end
  | 0x106 =>
      match decode [4; 4; 8; 4; 4] body with
      | [id; 1; addr; n; _] =>
          match g_resources s !! id with
          | Some (mkResource w h None host) => (g_set_resource id (mkResource w h (Some (addr, n)) host) s, nodata)
          | _ => (s, unspec)
          end
      | _ => (s, unspec)
      end
  | 0x103 =>
      match decode [4; 4; 4; 4; 4; 4] body with
      | [x; y; w; h; 0; id] =>
          match g_resources s !! id with
          | Some rs =>
              if (x + w <=? res_width rs) && (y + h <=? res_height rs) then
                (mkGpu (g_width s) (g_height s) (g_resources s) (Some id) (g_screen s) (g_cursor s), nodata)
              else (s, unspec)
          | None => (s, unspec)
          end
      | _ => (s, unspec)
      end
  | 0x105 =>
      match decode [4; 4; 4; 4; 8; 4; 4] body with
      | [0; 0; w; h; 0; id; _] =>
          match g_resources s !! id with
          | Some (mkResource w' h' (Some (addr, n)) _) =>
              if (w =? w') && (h =? h') && (w * h * 4 <=? n) then
                (g_set_resource id (mkResource w h (Some (addr, n)) (ram_load r addr (Z.to_nat (w * h * 4)))) s, nodata)
              else (s, unspec)
          | _ => (s, unspec)
          end
      | _ => (s, unspec)
      end
  | 0x104 =>
      match decode [4; 4; 4; 4; 4; 4] body with
      | [x; y; w; h; id; _] =>
          match g_resources s !! id with
          | Some rs =>
              (if decide (g_scanout s = Some id) then
                 mkGpu (g_width s) (g_height s) (g_resources s) (g_scanout s) (res_host rs) (g_cursor s)
               else s, nodata)
          | None => (s, unspec)
          end
      | _ => (s, unspec)
      end
  | _ => (s, unspec)
  end.
Definition gpu_serve : service gpu := λ qi l s r,
  match l with
  | [(a, 4096, false); (b, 4096, true)] =>
      if qi =? 0 then let '(s', rsp) := gpu_command r s (ram_load r a 64) in Some (s', ram_store r b rsp, len rsp) else None
  | [(a, 4096, false)] =>
      if qi =? 1 then
        match decode [4; 4; 4; 4; 4; 4; 4; 4] (ram_load r (a + 24) 32) with
        | [0; x; y; _; id; _; _; _] =>
            Some (mkGpu (g_width s) (g_height s) (g_resources s) (g_scanout s) (g_screen s) (Some (id, x, y)), r, 0)
        | _ => Some (s, r, 0)
        end
      else None
  | _ => None
  end.

Lemma with_type_ok c : Forall field_ok (CtrlHeader_fields (CtrlHeader_with_type c)).
Proof. destruct c; repeat constructor; done. Qed.
(** What the device reads from a command with the fields [body]. *)
Lemma command_read c body tail :
  Forall field_ok body → let bs := encode (CtrlHeader_fields (CtrlHeader_with_type c) ++ body) ++ tail in
  nth 0 (decode CtrlHeader_sizes bs) 0 = Command_discriminant c ∧ decode body.*1 (drop 24 bs) = body.*2.
Proof. intros Hb bs. destruct (decode_body (CtrlHeader_with_type c) body tail (with_type_ok c) Hb) as [H1 H2]. unfold bs. by rewrite H1, H2. Qed.
Definition is_u32 (x : Z) : Prop := 0 ≤ x < 2 ^ 32.
Ltac solve_fields := repeat (apply List.Forall_cons; [split; cbn; unfold is_u32, RESOURCE_ID_FB, RESOURCE_ID_CURSOR, SCANOUT_ID in *; (lia || done)|]); apply List.Forall_nil.

(** The commands of [setup_framebuffer] and [flush]. *)
Lemma command_display r s tail :
  gpu_command r s (encode (CtrlHeader_fields (CtrlHeader_with_type Command.GetDisplayInfo)) ++ tail) =
  (s, encode (CtrlHeader_fields (CtrlHeader_with_type Command.OkDisplayInfo) ++
              Rect_fields (mkRect 0 0 (g_width s) (g_height s)) ++ [u32f 1; u32f 0]) ++ replicate 360 0).
Proof.
  rewrite <- (app_nil_r (CtrlHeader_fields (CtrlHeader_with_type Command.GetDisplayInfo))).
  destruct (command_read Command.GetDisplayInfo [] tail) as [Hty _]; [constructor|]. unfold gpu_command. by rewrite Hty.
Qed.
Lemma command_create r s id w h tail :
  is_u32 id → is_u32 w → is_u32 h → g_resources s !! id = None →
  gpu_command r s (encode (ResourceCreate2D_fields (CtrlHeader_with_type Command.ResourceCreate2d) id B8G8R8A8UNORM w h) ++ tail) =
  (g_set_resource id (mkResource w h None []) s, nodata).
Proof.
  intros ? ? ? Hn. destruct (command_read Command.ResourceCreate2d [u32f id; u32f 1; u32f w; u32f h] tail) as [Hty Hbd]; [solve_fields|].
  unfold gpu_command, ResourceCreate2D_fields. cbn [Format_discriminant]. rewrite Hty. cbn [Command_discriminant]. cbn [fmap list_fmap fst snd u32f u64f] in Hbd. rewrite Hbd. by rewrite Hn.
Qed.
Lemma command_attach r s id w h host addr n tail :
  is_u32 id → 0 ≤ addr < 2 ^ 64 → is_u32 n → g_resources s !! id = Some (mkResource w h None host) →
  gpu_command r s (encode (ResourceAttachBacking_fields (CtrlHeader_with_type Command.ResourceAttachBacking) id 1 addr n 0) ++ tail) =
  (g_set_resource id (mkResource w h (Some (addr, n)) host) s, nodata).
Proof.
  intros ? ? ? Hn. destruct (command_read Command.ResourceAttachBacking [u32f id; u32f 1; u64f addr; u32f n; u32f 0] tail) as [Hty Hbd]; [solve_fields|].
  unfold gpu_command, ResourceAttachBacking_fields. rewrite Hty. cbn [Command_discriminant]. cbn [fmap list_fmap fst snd u32f u64f] in Hbd. rewrite Hbd. by rewrite Hn.
Qed.
Lemma command_scanout r s id w h back host tail :
  is_u32 id → is_u32 w → is_u32 h → g_resources s !! id = Some (mkResource w h back host) →
  gpu_command r s (encode (SetScanout_fields (CtrlHeader_with_type Command.SetScanout) (mkRect 0 0 w h) 0 id) ++ tail) =
  (mkGpu (g_width s) (g_height s) (g_resources s) (Some id) (g_screen s) (g_cursor s), nodata).
Proof.
  intros ? ? ? Hn. destruct (command_read Command.SetScanout [u32f 0; u32f 0; u32f w; u32f h; u32f 0; u32f id] tail) as [Hty Hbd]; [solve_fields|].
  unfold gpu_command, SetScanout_fields. cbn [Rect_fields rect_x rect_y rect_width rect_height app]. rewrite Hty. cbn [Command_discriminant].
  cbn [fmap list_fmap fst snd u32f u64f] in Hbd. rewrite Hbd, Hn. cbn [res_width res_height].
  by rewrite !Z.add_0_l, !(proj2 (Z.leb_le _ _)) by lia.
Qed.
Lemma command_transfer r s id w h addr n host tail :
  is_u32 id → is_u32 w → is_u32 h → w * h * 4 ≤ n → g_resources s !! id = Some (mkResource w h (Some (addr, n)) host) →
  gpu_command r s (encode (TransferToHost2D_fields (CtrlHeader_with_type Command.TransferToHost2d) (mkRect 0 0 w h) 0 id 0) ++ tail) =
  (g_set_resource id (mkResource w h (Some (addr, n)) (ram_load r addr (Z.to_nat (w * h * 4)))) s, nodata).
Proof.
  intros ? ? ? Hle Hn. destruct (command_read Command.TransferToHost2d [u32f 0; u32f 0; u32f w; u32f h; u64f 0; u32f id; u32f 0] tail) as [Hty Hbd]; [solve_fields|].
  unfold gpu_command, TransferToHost2D_fields. cbn [Rect_fields rect_x rect_y rect_width rect_height app]. rewrite Hty. cbn [Command_discriminant].
  cbn [fmap list_fmap fst snd u32f u64f] in Hbd. rewrite Hbd, Hn, !Z.eqb_refl, (proj2 (Z.leb_le _ _)) by lia. done.
Qed.
Lemma command_flush r s id w h rs tail :
  is_u32 id → is_u32 w → is_u32 h → g_resources s !! id = Some rs → g_scanout s = Some id →
  gpu_command r s (encode (ResourceFlush_fields (CtrlHeader_with_type Command.ResourceFlush) (mkRect 0 0 w h) id 0) ++ tail) =
  (mkGpu (g_width s) (g_height s) (g_resources s) (g_scanout s) (res_host rs) (g_cursor s), nodata).
Proof.
  intros ? ? ? Hn Hsc. destruct (command_read Command.ResourceFlush [u32f 0; u32f 0; u32f w; u32f h; u32f id; u32f 0] tail) as [Hty Hbd]; [solve_fields|].
  unfold gpu_command, ResourceFlush_fields. cbn [Rect_fields rect_x rect_y rect_width rect_height app]. rewrite Hty. cbn [Command_discriminant].
  cbn [fmap list_fmap fst snd u32f u64f] in Hbd. rewrite Hbd, Hn. by rewrite decide_True.
Qed.

(** ** A request *)
Section request.
Context {D : Type} `{VirtioDevice D} (state : D → gpu)
  (ready : Z → Z → Z → Z → D → Prop) (mapped : Z → Prop) (bound : nat).
Context {HL : ServingLaws D gpu gpu_serve state ready mapped bound}.
Context (sp rp : Z) (sp_mapped : mapped sp) (rp_mapped : mapped rp) (pages_apart : sep sp 4096 rp 4096).
Implicit Types m : machine D VirtIOGpu.

(** No request in flight, and the two pages of the driver. *)
Definition gpu_ok m : Prop :=
  let g := m_drv m in
  q_ready ready GPU_QUEUE_TRANSMIT 2 (control_queue g) (m_dev m) ∧ q_ready ready QUEUE_CURSOR 2 (cursor_queue g) (m_dev m) ∧
  queue_buf_send g = mkBuf sp 4096 ∧ queue_buf_recv g = mkBuf rp 4096.
(** What a request leaves: the driver but for its queues, and the memory but for
    the two pages. *)
Definition gpu_kept m m' : Prop :=
  gpu_rect (m_drv m') = gpu_rect (m_drv m) ∧ frame_buffer_dma (m_drv m') = frame_buffer_dma (m_drv m) ∧
  cursor_buffer_dma (m_drv m') = cursor_buffer_dma (m_drv m) ∧
  ∀ x n, sep x (Z.of_nat n) sp 4096 → sep x (Z.of_nat n) rp 4096 → ram_load (m_ram m') x n = ram_load (m_ram m) x n.
Lemma gpu_kept_trans m1 m2 m3 : gpu_kept m1 m2 → gpu_kept m2 m3 → gpu_kept m1 m3.
Proof. intros (? & ? & ? & R1) (? & ? & ? & R2). split_and!; [congruence..|]. intros x n Hs Hr. by rewrite R2, R1. Qed.

Lemma request_ok fuel req rsp m s' bs :
  gpu_ok m → (bound ≤ fuel)%nat → Forall field_ok req → foldr Z.add 0 req.*1 ≤ 64 → 0 ≤ foldr Z.add 0 rsp →
  (∀ tail, gpu_command (ram_store (m_ram m) sp (encode req)) (state (m_dev m)) (encode req ++ tail) = (s', bs)) →
  foldr Z.add 0 rsp ≤ len bs ≤ 4096 →
  ∃ m', VirtIOGpu_request fuel req rsp m = Ok (ok (decode rsp (take (Z.to_nat (foldr Z.add 0 rsp)) bs)), m') ∧
    gpu_ok m' ∧ gpu_kept m m' ∧ state (m_dev m') = s'.
Proof.
  intros (Hc & Hcur & Hs & Hr) Hf Hreq Hlen Hrsp Hcmd Hbs. pose proof (length_encode req Hreq) as Hle.
  set (m0 := mkMachine (m_dev m) (ram_store (m_ram m) sp (encode req)) (m_drv m)).
  assert (Hld : ram_load (m_ram m0) sp 64 = encode req ++ ram_load (m_ram m0) (sp + len (encode req)) (64 - length (encode req))).
  { replace 64%nat with (length (encode req) + (64 - length (encode req)))%nat at 1 by (unfold len in *; lia).
    rewrite ram_load_app. f_equal. apply ram_load_store_eq. }
  destruct (transact_served gpu_serve state ready mapped bound control_queue_ GPU_QUEUE_TRANSMIT 2 fuel m0 [mkBuf sp 4096] [mkBuf rp 4096]
    s' (ram_store (m_ram m0) rp bs) (len bs)) as (tok & q' & m' & Ht & Hd & Hq' & Hst & Hram & Hot); try done.
  { repeat constructor; cbn; (done || lia). }
  { unfold bufs_view, gpu_serve. cbn [fmap list_fmap app b_ptr b_len]. change (GPU_QUEUE_TRANSMIT =? 0) with true. cbv iota.
    rewrite Hld. unfold m0 at 1. cbn [m_ram m_dev]. by rewrite Hcmd. }
  exists m'. split_and!; try done.
  - unfold VirtIOGpu_request, bind at 1, get. rewrite Hs, Hr. cbn [b_ptr]. rewrite (bind_run _ _ m tt m0) by done.
    unfold and_then at 1. rewrite (bind_run _ _ _ _ _ Ht). unfold bind, load_at, ret. rewrite Hram. do 4 f_equal.
    rewrite <- (ram_load_store_eq (m_ram m0) rp bs) at 2.
    replace (length bs) with (Z.to_nat (foldr Z.add 0%Z rsp) + (length bs - Z.to_nat (foldr Z.add 0%Z rsp)))%nat by (unfold len in Hbs; lia).
    rewrite ram_load_app. rewrite take_app_length'; [done|symmetry; apply length_ram_load].
  - unfold gpu_ok. rewrite Hd. cbn. split_and!; try done. by apply (Hot QUEUE_CURSOR 2).
  - split_and!; [by rewrite Hd..|]. intros x n Hxs Hxr. unfold sep in *. rewrite Hram. unfold m0. cbn [m_ram]. rewrite !ram_load_store_ne; [done|lia..].
Qed.

Abbreviation nodata_request fuel req :=
  (and_then (VirtIOGpu_request fuel req CtrlHeader_sizes) (λ rsp, ret (CtrlHeader_check_type (CtrlHeader_of rsp) Command.OkNodata))).
Lemma nodata_request_ok fuel req m s' :
  gpu_ok m → (bound ≤ fuel)%nat → Forall field_ok req → foldr Z.add 0 req.*1 ≤ 64 →
  (∀ tail, gpu_command (ram_store (m_ram m) sp (encode req)) (state (m_dev m)) (encode req ++ tail) = (s', nodata)) →
  ∃ m', nodata_request fuel req m = Ok (ok tt, m') ∧ gpu_ok m' ∧ gpu_kept m m' ∧ state (m_dev m') = s'.
Proof.
  intros Hok Hf Hreq Hl Hc. destruct (request_ok fuel req CtrlHeader_sizes m s' nodata) as (m' & Hr & Hok' & Hk & Hs); try done.
  exists m'. split_and!; try done. unfold and_then. by rewrite (bind_run _ _ _ _ _ Hr).
Qed.
Lemma get_display_info_ok fuel m :
  gpu_ok m → (bound ≤ fuel)%nat → let s := state (m_dev m) in is_u32 (g_width s) → is_u32 (g_height s) →
  ∃ m' hd en fl, VirtIOGpu_get_display_info fuel m = Ok (ok (mkRespDisplayInfo hd (mkRect 0 0 (g_width s) (g_height s)) en fl), m') ∧
    gpu_ok m' ∧ gpu_kept m m' ∧ state (m_dev m') = s.
Proof.
  intros Hok Hf s Hw Hh.
  set (fs := CtrlHeader_fields (CtrlHeader_with_type Command.OkDisplayInfo) ++ Rect_fields (mkRect 0 0 (g_width s) (g_height s)) ++ [u32f 1; u32f 0]).
  assert (Hfs : Forall field_ok fs) by (unfold fs; apply Forall_app; split; [apply with_type_ok|solve_fields]).
  pose proof (length_encode fs Hfs) as Hl. change (foldr Z.add 0 _) with 48 in Hl.
  destruct (request_ok fuel (CtrlHeader_fields (CtrlHeader_with_type Command.GetDisplayInfo)) RespDisplayInfo_sizes m s (encode fs ++ replicate 360 0))
    as (m' & Hr & Hok' & Hk & Hs); [done|done|apply with_type_ok|done|done|intros tail; apply command_display| |].
  { change (foldr Z.add 0 RespDisplayInfo_sizes) with 48. unfold len in *. rewrite length_app, length_replicate. lia. }
  change (Z.to_nat (foldr Z.add 0 RespDisplayInfo_sizes)) with 48%nat in Hr.
  rewrite take_app_length' in Hr by (unfold len in Hl; lia). change RespDisplayInfo_sizes with fs.*1 in Hr at 2.
  rewrite <- (app_nil_r (encode fs)), decode_encode in Hr by done.
  exists m'. do 3 eexists. split_and!; try done. unfold VirtIOGpu_get_display_info, and_then at 1. rewrite (bind_run _ _ _ _ _ Hr). reflexivity.
Qed.
End request.

(** ** The frame buffer *)
Lemma and_then_run {S A B E} (c : M S (Result A E)) (k : A → M S (Result B E)) s a s' :
  c s = Ok (ok a, s') → and_then c k s = k a s'.
Proof. intros Hc. unfold and_then. by rewrite (bind_run _ _ _ _ _ Hc). Qed.
Lemma owning_run {D} `{VirtioDevice D} {A} dma (c : M (machine D VirtIOGpu) (Result A VirtioError)) s a s' :
  c s = Ok (ok a, s') → owning dma c s = Ok (ok a, s').
Proof. intros Hc. unfold owning. by rewrite (bind_run _ _ _ _ _ Hc). Qed.
Lemma pages_covers size : 0 ≤ size < 2 ^ 32 → 0 ≤ pages size < 2 ^ 21 ∧ size ≤ 4096 * pages size.
Proof.
  intros Hs. unfold pages. change VIRTIO_PAGE_SIZE with 4096. rewrite uadd_small, usub_small by lia.
  pose proof (Z.div_mod (size + 4096 - 1) 4096). pose proof (Z.mod_pos_bound (size + 4096 - 1) 4096).
  split; [split; [apply Z.div_pos; lia|apply Z.div_lt_upper_bound; lia]|lia].
Qed.

Section framebuffer.
Context {D : Type} `{VirtioDevice D} (state : D → gpu).
(** The device before and after the allocation of the frame buffer. *)
Context (ready ready' : Z → Z → Z → Z → D → Prop) (mapped : Z → Prop) (bound : nat).
Context {HL : ServingLaws D gpu gpu_serve state ready mapped bound} {HL' : ServingLaws D gpu gpu_serve state ready' mapped bound}.
Context (sp rp : Z) (sp_mapped : mapped sp) (rp_mapped : mapped rp) (pages_apart : sep sp 4096 rp 4096).
Context (phys_identity : ∀ qi n a u d p, ready' qi n a u d → hal_phys_to_virt d p = Ok p).
Implicit Types m : machine D VirtIOGpu.

(** The allocator gives [np] pages apart from those of the driver. *)
Definition allocates (np : Z) : Prop := ∀ d a u a' u',
  ready GPU_QUEUE_TRANSMIT 2 a u d → ready QUEUE_CURSOR 2 a' u' d →
  ∃ pa d', hal_dma_alloc np d = Ok (pa, d') ∧ 0 < pa < 2 ^ 32 ∧ sep pa (4096 * np) sp 4096 ∧ sep pa (4096 * np) rp 4096 ∧
    state d' = state d ∧ ready' GPU_QUEUE_TRANSMIT 2 a u d' ∧ ready' QUEUE_CURSOR 2 a' u' d'.
(** The frame buffer is set up: the resource has the pages at [pa] as its backing
    and is the one that is shown. *)
Definition fb_ok (w h pa : Z) m : Prop :=
  gpu_ok ready' sp rp m ∧ gpu_rect (m_drv m) = mkRect 0 0 w h ∧ g_scanout (state (m_dev m)) = Some RESOURCE_ID_FB ∧
  ∃ host, g_resources (state (m_dev m)) !! RESOURCE_ID_FB = Some (mkResource w h (Some (pa, w * h * 4)) host).

Lemma DMA_new_ok m np :
  gpu_ok ready sp rp m → allocates np → 0 ≤ np < 2 ^ 32 →
  ∃ pa d', zoom dev_ (DMA_new np) m = Ok (ok (mkDMA pa np), mkMachine d' (m_ram m) (m_drv m)) ∧ 0 < pa < 2 ^ 32 ∧
    sep pa (4096 * np) sp 4096 ∧ sep pa (4096 * np) rp 4096 ∧
    state d' = state (m_dev m) ∧ gpu_ok ready' sp rp (mkMachine d' (m_ram m) (m_drv m)).
Proof.
  intros ([Hi1 Hr1] & [Hi2 Hr2] & Hs & Hr) Hal Hnp. destruct (Hal _ _ _ _ _ Hr1 Hr2) as (pa & d' & Ha & Hpa & S1 & S2 & Hst & Hr1' & Hr2').
  exists pa, d'. split_and!; try done; try lia. unfold zoom, DMA_new. cbn [view dev_ update]. rewrite (bind_run _ _ _ _ _ Ha), (proj2 (Z.eqb_neq _ _)) by lia.
  unfold ret. assert (Hw : wrap32 pa = pa ∧ wrap32 np = np) by (split; apply Z.mod_small; lia). destruct Hw as [-> ->]. done.
Qed.

(** The four requests of [setup_framebuffer], each on the state it finds. *)
Lemma create_ok fuel m s w h :
  gpu_ok ready sp rp m → (bound ≤ fuel)%nat → state (m_dev m) = s → is_u32 w → is_u32 h → g_resources s !! RESOURCE_ID_FB = None →
  ∃ m', VirtIOGpu_resource_create_2d fuel RESOURCE_ID_FB w h m = Ok (ok tt, m') ∧ gpu_ok ready sp rp m' ∧ gpu_kept sp rp m m' ∧
    state (m_dev m') = g_set_resource RESOURCE_ID_FB (mkResource w h None []) s.
Proof.
  intros Hok Hf <- Hw Hh Hn. apply (nodata_request_ok state ready mapped bound sp rp); try done.
  - apply Forall_app. split; [apply with_type_ok|solve_fields].
  - intros tail. by apply command_create.
Qed.
Lemma attach_ok fuel m s w h pa n :
  gpu_ok ready' sp rp m → (bound ≤ fuel)%nat → state (m_dev m) = s → is_u32 pa → is_u32 n →
  g_resources s !! RESOURCE_ID_FB = Some (mkResource w h None []) →
  ∃ m', VirtIOGpu_resource_attach_backing fuel RESOURCE_ID_FB pa n m = Ok (ok tt, m') ∧ gpu_ok ready' sp rp m' ∧ gpu_kept sp rp m m' ∧
    state (m_dev m') = g_set_resource RESOURCE_ID_FB (mkResource w h (Some (pa, n)) []) s.
Proof.
  intros Hok Hf <- Hpa Hn Hr. apply (nodata_request_ok state ready' mapped bound sp rp); try done.
  - apply Forall_app. split; [apply with_type_ok|solve_fields].
  - intros tail. apply command_attach; [done|unfold is_u32 in *; lia|done|done].
Qed.
Lemma scanout_ok fuel m s w h back host :
  gpu_ok ready' sp rp m → (bound ≤ fuel)%nat → state (m_dev m) = s → is_u32 w → is_u32 h →
  g_resources s !! RESOURCE_ID_FB = Some (mkResource w h back host) →
  ∃ m', VirtIOGpu_set_scanout fuel (mkRect 0 0 w h) SCANOUT_ID RESOURCE_ID_FB m = Ok (ok tt, m') ∧ gpu_ok ready' sp rp m' ∧ gpu_kept sp rp m m' ∧
    state (m_dev m') = mkGpu (g_width s) (g_height s) (g_resources s) (Some RESOURCE_ID_FB) (g_screen s) (g_cursor s).
Proof.
  intros Hok Hf <- Hw Hh Hr. apply (nodata_request_ok state ready' mapped bound sp rp); try done.
  - apply Forall_app. split; [apply with_type_ok|solve_fields].
  - intros tail. by eapply command_scanout.
Qed.

Lemma setup_framebuffer_ok fuel m w h :
  gpu_ok ready sp rp m → (bound ≤ fuel)%nat → let s := state (m_dev m) in
  g_width s = w → g_height s = h → is_u32 w → is_u32 h → w * h * 4 < 2 ^ 32 → g_resources s !! RESOURCE_ID_FB = None →
  frame_buffer_dma (m_drv m) = None → allocates (pages (w * h * 4)) →
  ∃ pa m1, VirtIOGpu_setup_framebuffer fuel m = Ok (ok (pa, 4096 * pages (w * h * 4)), m1) ∧ fb_ok w h pa m1 ∧
    sep pa (4096 * pages (w * h * 4)) sp 4096 ∧ sep pa (4096 * pages (w * h * 4)) rp 4096.
Proof.
  intros Hok Hf s Hgw Hgh Hw Hh Hsz Hfb Hfd Hal. assert (H0 : 0 ≤ w * h) by (unfold is_u32 in *; nia).
  destruct (pages_covers (w * h * 4)) as [Hnp Hcov]; [lia|]. set (np := pages (w * h * 4)) in *.
  assert (Hwrap : wrap32 (wrap32 (w * h) * 4) = w * h * 4) by (unfold wrap32; rewrite (Z.mod_small (w * h)), Z.mod_small by lia; done).
  destruct (get_display_info_ok state ready mapped bound sp rp sp_mapped rp_mapped pages_apart fuel m Hok Hf) as (m1 & hd & en & fl & D1 & Hok1 & K1 & S1);
    [by fold s; rewrite Hgw|by fold s; rewrite Hgh|]. fold s in D1, S1. rewrite Hgw, Hgh in D1.
  set (m1' := mkMachine (m_dev m1) (m_ram m1) (gpu_set_rect (mkRect 0 0 w h) (m_drv m1))).
  destruct (create_ok fuel m1' s w h) as (m2 & D2 & Hok2 & K2 & S2); try done.
  destruct (DMA_new_ok m2 np Hok2 Hal) as (pa & d3 & D3 & Hpa & A1 & A2 & S3 & Hok3); [lia|]. set (m3 := mkMachine d3 (m_ram m2) (m_drv m2)) in *.
  rewrite S2 in S3. destruct (attach_ok fuel m3 _ w h pa (w * h * 4) Hok3 Hf S3) as (m4 & D4 & Hok4 & K4 & S4); [unfold is_u32; lia|unfold is_u32; lia|apply lookup_insert_eq|].
  destruct (scanout_ok fuel m4 _ w h (Some (pa, w * h * 4)) [] Hok4 Hf S4 Hw Hh) as (m5 & D5 & Hok5 & K5 & S5); [apply lookup_insert_eq|].
  destruct K1 as (_ & F1 & _), K2 as (R2 & F2 & _), K4 as (R4 & F4 & _), K5 as (R5 & F5 & _).
  exists pa, (mkMachine (m_dev m5) (m_ram m5) (gpu_set_frame_buffer (Some (mkDMA pa np)) (m_drv m5))). split_and!; try done.
  - unfold VirtIOGpu_setup_framebuffer. rewrite (and_then_run _ _ _ _ _ D1). cbn [di_rect rect_width rect_height].
    rewrite (bind_run _ _ m1 tt m1') by done. rewrite (and_then_run _ _ _ _ _ D2). cbv zeta. rewrite Hwrap. fold np.
    rewrite (and_then_run _ _ _ _ _ D3), (and_then_run _ _ _ _ _ (owning_run _ _ _ _ _ D4)), (and_then_run _ _ _ _ _ (owning_run _ _ _ _ _ D5)).
    rewrite (bind_run _ _ m5 (pa, 4096 * np) m5).
    2: { unfold zoom, DMA_as_buf, DMA_vaddr, phys_to_virt, bind, lift. cbn [view dev_ update dma_paddr dma_pages].
         destruct Hok5 as ([_ Hr] & _). rewrite (phys_identity _ _ _ _ _ pa Hr). unfold ret, umul, VIRTIO_PAGE_SIZE. rewrite wrap64_small by lia. by destruct m5. }
    unfold bind at 1, get. rewrite F5, F4. cbn [m_drv m3]. rewrite F2. cbn [m_drv m1' gpu_set_rect frame_buffer_dma]. rewrite F1, Hfd. done.
  - split; [done|]. cbn. rewrite R5, R4. cbn. rewrite R2, S5. split_and!; [done..|]. exists []. apply lookup_insert_eq.
Qed.

(** The two requests of [flush]. *)
Lemma transfer_ok fuel m s w h pa n host :
  gpu_ok ready' sp rp m → (bound ≤ fuel)%nat → state (m_dev m) = s → is_u32 w → is_u32 h → 0 ≤ w * h → w * h * 4 ≤ n →
  g_resources s !! RESOURCE_ID_FB = Some (mkResource w h (Some (pa, n)) host) → sep pa (w * h * 4) sp 4096 →
  ∃ m', VirtIOGpu_transfer_to_host_2d fuel (mkRect 0 0 w h) 0 RESOURCE_ID_FB m = Ok (ok tt, m') ∧ gpu_ok ready' sp rp m' ∧ gpu_kept sp rp m m' ∧
    state (m_dev m') = g_set_resource RESOURCE_ID_FB (mkResource w h (Some (pa, n)) (ram_load (m_ram m) pa (Z.to_nat (w * h * 4)))) s.
Proof.
  intros Hok Hf <- Hw Hh H0 Hn Hr Ha. apply (nodata_request_ok state ready' mapped bound sp rp); try done.
  - apply Forall_app. split; [apply with_type_ok|solve_fields].
  - intros tail. rewrite (command_transfer _ _ _ w h pa n host) by (done || lia). do 3 f_equal. rewrite ram_load_store_ne; [done|].
    rewrite length_encode by (apply Forall_app; split; [apply with_type_ok|solve_fields]). cbn. unfold sep in Ha. lia.
Qed.
Lemma resource_flush_ok fuel m s w h rs :
  gpu_ok ready' sp rp m → (bound ≤ fuel)%nat → state (m_dev m) = s → is_u32 w → is_u32 h →
  g_resources s !! RESOURCE_ID_FB = Some rs → g_scanout s = Some RESOURCE_ID_FB →
  ∃ m', VirtIOGpu_resource_flush fuel (mkRect 0 0 w h) RESOURCE_ID_FB m = Ok (ok tt, m') ∧ gpu_ok ready' sp rp m' ∧ gpu_kept sp rp m m' ∧
    state (m_dev m') = mkGpu (g_width s) (g_height s) (g_resources s) (g_scanout s) (res_host rs) (g_cursor s).
Proof.
  intros Hok Hf <- Hw Hh Hr Hsc. apply (nodata_request_ok state ready' mapped bound sp rp); try done.
  - apply Forall_app. split; [apply with_type_ok|solve_fields].
  - intros tail. by apply command_flush.
Qed.

(** Pixels written to the frame buffer are on the screen after a flush. *)
Lemma flush_ok fuel m w h pa px :
  fb_ok w h pa m → (bound ≤ fuel)%nat → is_u32 w → is_u32 h → 0 ≤ w * h →
  sep pa (w * h * 4) sp 4096 → ram_load (m_ram m) pa (Z.to_nat (w * h * 4)) = px →
  ∃ m', VirtIOGpu_flush fuel m = Ok (ok tt, m') ∧ g_screen (state (m_dev m')) = px ∧ fb_ok w h pa m'.
Proof.
  intros (Hok & Hrect & Hsc & host & Hres) Hf Hw Hh H0 A1 Hpx.
  destruct (transfer_ok fuel m _ w h pa (w * h * 4) host Hok Hf eq_refl) as (m1 & D1 & Hok1 & (R1 & _) & S1); try done.
  rewrite Hpx in S1. destruct (resource_flush_ok fuel m1 _ w h (mkResource w h (Some (pa, w * h * 4)) px) Hok1 Hf S1 Hw Hh)
    as (m2 & D2 & Hok2 & (R2 & _) & S2); [apply lookup_insert_eq|done|].
  exists m2. split_and!; [|by rewrite S2|].
  - unfold VirtIOGpu_flush, bind at 1, get. rewrite Hrect, (and_then_run _ _ _ _ _ D1). unfold bind at 1.
    rewrite R1, Hrect. by rewrite (and_then_run _ _ _ _ _ D2).
  - split_and!; [done|by rewrite R2, R1|by rewrite S2|]. exists px. rewrite S2. apply lookup_insert_eq.
Qed.
End framebuffer.

(** C19. The graphics driver shows what is drawn: on a device with a display of
    [w] by [h] pixels, [setup_framebuffer] returns a buffer that holds them, and
    whatever pixels are written into it are on the screen once [flush] has
    returned, which it does without an error. *)
Theorem VirtIOGpu_shows_framebuffer {D} `{VirtioDevice D} state ready ready' mapped bound sp rp
    `{!ServingLaws D gpu gpu_serve state ready mapped bound} `{!ServingLaws D gpu gpu_serve state ready' mapped bound}
    fuel (m : machine D VirtIOGpu) w h :
  mapped sp → mapped rp → sep sp 4096 rp 4096 → (∀ qi n a u d p, ready' qi n a u d → hal_phys_to_virt d p = Ok p) →
  gpu_ok ready sp rp m → (bound ≤ fuel)%nat → g_width (state (m_dev m)) = w → g_height (state (m_dev m)) = h →
  is_u32 w → is_u32 h → w * h * 4 < 2 ^ 32 → g_resources (state (m_dev m)) !! RESOURCE_ID_FB = None →
  frame_buffer_dma (m_drv m) = None → allocates state ready ready' sp rp (pages (w * h * 4)) →
  ∃ va n m1, VirtIOGpu_setup_framebuffer fuel m = Ok (ok (va, n), m1) ∧ w * h * 4 ≤ n ∧
    VirtIOGpu_resolution (m_drv m1) = (w, h) ∧
    ∀ px, len px = w * h * 4 →
    ∃ m2, VirtIOGpu_flush fuel (mkMachine (m_dev m1) (ram_store (m_ram m1) va px) (m_drv m1)) = Ok (ok tt, m2) ∧
      g_screen (state (m_dev m2)) = px.
Proof.
  intros Hsp Hrp Hsep Hid Hok Hf Hgw Hgh Hw Hh Hsz Hfb Hfd Hal. assert (H0 : 0 ≤ w * h) by (unfold is_u32 in *; nia).
  destruct (setup_framebuffer_ok state ready ready' mapped bound sp rp Hsp Hrp Hsep Hid fuel m w h)
    as (pa & m1 & Hs & Hfbok & A1 & A2); try done.
  destruct (pages_covers (w * h * 4)) as [_ Hcov]; [lia|]. exists pa, (4096 * pages (w * h * 4)), m1. split_and!; [done|done| |].
  { destruct Hfbok as (_ & Hr & _). unfold VirtIOGpu_resolution. by rewrite Hr. }
  intros px Hpx. destruct (flush_ok state ready' mapped bound sp rp Hsp Hrp Hsep fuel
    (mkMachine (m_dev m1) (ram_store (m_ram m1) pa px) (m_drv m1)) w h pa px) as (m2 & Hfl & Hscr & _); try done.
  - unfold sep in *. lia.
  - cbn. rewrite <- Hpx. unfold len. rewrite Nat2Z.id. apply ram_load_store_eq.
  - by exists m2.
Qed.

(** ** The pointer *)
Lemma move_cursor_ok {D} `{VirtioDevice D} state ready mapped bound sp rp `{!ServingLaws D gpu gpu_serve state ready mapped bound}
    fuel (m : machine D VirtIOGpu) x y :
  mapped sp → gpu_ok ready sp rp m → (bound ≤ fuel)%nat → is_u32 x → is_u32 y → let s := state (m_dev m) in
  ∃ m', VirtIOGpu_move_cursor fuel x y m = Ok (ok tt, m') ∧ gpu_ok ready sp rp m' ∧
    state (m_dev m') = mkGpu (g_width s) (g_height s) (g_resources s) (g_scanout s) (g_screen s) (Some (RESOURCE_ID_CURSOR, x, y)).
Proof.
  intros Hsp (Hc & Hcur & Hs & Hr) Hf Hx Hy s. set (body := [u32f SCANOUT_ID; u32f x; u32f y; u32f 0; u32f RESOURCE_ID_CURSOR; u32f 0; u32f 0; u32f 0]).
  set (req := CtrlHeader_fields (CtrlHeader_with_type Command.MoveCursor) ++ body). assert (Hb : Forall field_ok body) by solve_fields.
  pose proof (length_encode _ (with_type_ok Command.MoveCursor)) as L1. change (foldr Z.add 0 _) with 24 in L1.
  pose proof (length_encode body Hb) as L2. change (foldr Z.add 0 _) with 32 in L2.
  set (m0 := mkMachine (m_dev m) (ram_store (m_ram m) sp (encode req)) (m_drv m)).
  assert (Hld : ram_load (m_ram m0) (sp + 24) 32 = encode body).
  { assert (Hl : ram_load (m_ram m0) sp (24 + 32) = encode req).
    { replace (24 + 32)%nat with (length (encode req)) by (unfold req, len in *; rewrite encode_app, length_app; lia). apply ram_load_store_eq. }
    rewrite ram_load_app in Hl. unfold req in Hl. rewrite encode_app in Hl. apply app_inj_1 in Hl as [_ Hl]; [exact Hl|].
    rewrite length_ram_load. unfold len in L1. lia. }
  destruct (transact_served gpu_serve state ready mapped bound cursor_queue_ QUEUE_CURSOR 2 fuel m0 [mkBuf sp 4096] []
    (mkGpu (g_width s) (g_height s) (g_resources s) (g_scanout s) (g_screen s) (Some (RESOURCE_ID_CURSOR, x, y))) (m_ram m0) 0)
    as (tok & q' & m' & Ht & Hd & Hq' & Hst & Hram & Hot); try done.
  { repeat constructor; cbn; (done || lia). }
  { unfold bufs_view, gpu_serve. cbn [fmap list_fmap app b_ptr b_len]. change (QUEUE_CURSOR =? 1) with true. cbv iota.
    rewrite Hld, <- (app_nil_r (encode body)). change [4; 4; 4; 4; 4; 4; 4; 4] with body.*1. by rewrite decode_encode by done. }
  exists m'. split_and!; [|unfold gpu_ok; rewrite Hd; cbn; split_and!; [by apply (Hot GPU_QUEUE_TRANSMIT 2)|done..]|done].
  unfold VirtIOGpu_move_cursor, VirtIOGpu_update_cursor, VirtIOGpu_cursor_request. unfold and_then at 1, bind at 2, get.
  rewrite (bind_run _ _ m (ok tt) m'); [done|]. rewrite Hs. cbn [b_ptr].
  rewrite (bind_run _ _ m tt m0) by done. by rewrite (and_then_run _ _ _ _ _ Ht).
Qed.

(** ** A driver on a device *)
#[local] Instance gpu_device : VirtioDevice (server gpu) := server_device gpu_serve.
(** A display of two by two pixels. *)
Definition screen2 : server gpu := mkServer (mkGpu 2 2 ∅ None [] None) ∅ ∅ ∅ 0 0 [] 0x80400000.
Lemma screen2_new : ∃ g d, VirtIOGpu_new screen2 = Ok (ok g, d) ∧ sv_state d = sv_state screen2 ∧ frame_buffer_dma g = None ∧
  ∀ r, gpu_ok (server_ready_at (λ b, b = 0x80406000)) 0x80404000 0x80405000 (mkMachine d r g).
Proof.
  destruct (server_queue_new gpu_serve 1 0 (sv_state screen2) ∅ ∅ ∅ 0 0 [] 0x80400000) as (q0 & H0 & R0 & S0 & A0 & L0 & U0); [lia..|by vm_compute|lia|].
  destruct (server_queue_new gpu_serve 1 1 (sv_state screen2) {[0 := 2]} {[0 := 0x80400]} {[0 := 0]} 0 0 [] 0x80402000)
    as (q1 & H1 & R1 & S1 & A1 & L1 & U1); [lia..|by vm_compute|lia|].
  set (d := mkServer (sv_state screen2) {[1 := 2; 0 := 2]} {[1 := 0x80402; 0 := 0x80400]} {[1 := 0; 0 := 0]} 1 0 [] 0x80406000).
  exists (mkVirtIOGpu Rect_default None None q0 q1 (mkDMA 0x80404000 2) (mkBuf 0x80404000 4096) (mkBuf 0x80405000 4096)), d.
  split; [|split; [done|split; [done|]]].
  - unfold VirtIOGpu_new. rewrite (bind_run _ _ screen2 tt screen2) by done. rewrite (and_then_run _ _ _ _ _ H0).
    change (<[0:=2 ^ 1]> ∅) with ({[0 := 2]} : gmap Z Z). change (Z.shiftr 0x80400000 12) with 0x80400. change (0x80400000 + 8192) with 0x80402000.
    rewrite (bind_run _ _ _ _ _ H1). rewrite (bind_run _ _ _ (ok (mkDMA 0x80404000 2)) d) by done.
    rewrite (bind_run _ _ d (0x80404000, 8192) d) by done. reflexivity.
  - intros r. change (2 ^ 1) with 2 in S0, S1. unfold gpu_ok. cbn [m_drv control_queue cursor_queue queue_buf_send queue_buf_recv m_dev].
    split_and!; [split; [by exists (seqZ 0 2); rewrite L0|rewrite A0, L0; by split]|split; [by exists (seqZ 0 2); rewrite L1|rewrite A1, L1; by split]|done|done].
Qed.
Lemma screen2_allocates : allocates sv_state (server_ready_at (λ b, b = 0x80406000)) server_ready 0x80404000 0x80405000 (pages (2 * 2 * 4)).
Proof.
  intros [s nu pf se sl iq co br] a u a' u' [(Hn & Hs & Ha) Hbr] [(Hn' & Hs' & Ha') _]. cbn in *. subst br.
  eexists _, _. split; [done|]. split; [lia|]. split; [right; lia|]. split; [right; lia|]. done.
Qed.
Lemma VirtIOGpu_shows_framebuffer_witness : ∃ g d va n m1 m2,
  VirtIOGpu_new screen2 = Ok (ok g, d) ∧ VirtIOGpu_setup_framebuffer 1 (mkMachine d ∅ g) = Ok (ok (va, n), m1) ∧
  VirtIOGpu_flush 1 (mkMachine (m_dev m1) (ram_store (m_ram m1) va (replicate 16 9)) (m_drv m1)) = Ok (ok tt, m2) ∧
  g_screen (sv_state (m_dev m2)) = replicate 16 9.
Proof.
  destruct screen2_new as (g & d & Hnew & Hst & Hfd & Hok).
  pose proof (server_laws_at gpu_serve (λ b, b = 0x80406000)) as HL. pose proof (server_laws gpu_serve) as HL'.
  destruct (VirtIOGpu_shows_framebuffer sv_state (server_ready_at (λ b, b = 0x80406000)) server_ready (λ _, True) 1 0x80404000 0x80405000 1
    (mkMachine d ∅ g) 2 2) as (va & n & m1 & Hs & _ & _ & Hf).
  - exact I.
  - exact I.
  - left. lia.
  - done.
  - apply Hok.
  - done.
  - cbn [m_dev]. by rewrite Hst.
  - cbn [m_dev]. by rewrite Hst.
  - unfold is_u32. lia.
  - unfold is_u32. lia.
  - lia.
  - cbn [m_dev]. rewrite Hst. by vm_compute.
  - exact Hfd.
  - exact screen2_allocates.
  - destruct (Hf (replicate 16 9)) as (m2 & Hfl & Hscr); [done|].
    exists g, d, va, n, m1, m2. split; [exact Hnew|]. split; [exact Hs|]. split; [exact Hfl|exact Hscr].
Defined.
