(* ===== verification/VirtioBlock.v ===== *)
(** * The block device and its memory ([fs/block_dev/virtio_block.rs])

    The kernel wraps the block driver of the crate [virtio-drivers]
    ([VirtioBlk.v]) into the interface the FAT32 crate wants: [Nuclear], which
    cuts a request into sectors.  [BlkDriver] is what [Nuclear] needs of the
    driver; the driver implements it.  The memory of the driver's queue comes
    from the frame allocator: the four [extern] functions of the crate are
    defined here. *)

From S2P Require Import Prelude Addr PhysMem FrameAlloc PageTable UserMem MemorySet Inode FatItem Fat VirtQueue VirtioBlk.

(** ** The interface of the driver *)
(** Blocks of 512 bytes, by number. *)
Class BlkDriver (D : Type) : Type := {
  vb_error : Type;
  vb_read_block : Z → list Z → M D (Result unit vb_error * list Z);
  vb_write_block : Z → list Z → M D (Result unit vb_error);
}.
(** A block of the disk can be read and written; [blocks] are its contents. *)
Class BlkDriverLaws (D : Type) `{BlkDriver D} (blocks : D → list (list Z)) (vb_ok : D → Prop) : Prop := {
  law_blk_len d b : vb_ok d → b ∈ blocks d → len b = 512;
  law_blk_read d i buf b : vb_ok d → len buf = 512 → 0 ≤ i → blocks d !! Z.to_nat i = Some b →
    ∃ d', vb_read_block i buf d = Ok ((ok tt, b), d') ∧ vb_ok d' ∧ blocks d' = blocks d;
  law_blk_write d i buf : vb_ok d → len buf = 512 → 0 ≤ i < len (blocks d) →
    ∃ d', vb_write_block i buf d = Ok (ok tt, d') ∧ vb_ok d' ∧ blocks d' = <[Z.to_nat i := buf]> (blocks d);
}.

Section nuclear.
Context {D : Type} `{BlkDriver D}.

(** [fs/block_dev/virtio_block.rs:24-29] VirtIOBlock::read_block *)
Definition VirtIOBlock_read_block (block_id : Z) (buf : list Z) : M D (list Z) :=
  let* '(res, buf) := vb_read_block block_id buf in
  lift (unwrap_r res) ;;
  ret buf.
(** [fs/block_dev/virtio_block.rs:30-35] VirtIOBlock::write_block *)
Definition VirtIOBlock_write_block (block_id : Z) (buf : list Z) : M D unit :=
  let* res := vb_write_block block_id buf in
  lift (unwrap_r res).

(** [buf.chunks(512)]: the lengths of the chunks give the chunks. *)
Fixpoint chunks (n : nat) (buf : list Z) : list (list Z) :=
  match n, buf with
  | S n, _ :: _ => take 512 buf :: chunks n (drop 512 buf)
  | _, _ => []
  end.
(** One pass each; the new chunks are collected. *)
(** [fs/block_dev/virtio_block.rs:50-55] Nuclear::read. The loop over the chunks. *)
Fixpoint Nuclear_read_chunks (cs : list (list Z)) (block : Z) : M D (list Z) :=
  match cs with
  | [] => ret []
  | chunk :: cs =>
      let* tmp := VirtIOBlock_read_block block (replicate 512 0) in
      let* c := lift (slice tmp 0 (len chunk)) in
      let* rest := Nuclear_read_chunks cs (block +u 1) in
      ret (c ++ rest)
  end.
(** [fs/block_dev/virtio_block.rs:43-57] Nuclear::read *)
Definition Nuclear_read (buf : list Z) (address number_of_blocks : Z) : M D (Result unit Z * list Z) :=
  let* buf := Nuclear_read_chunks (chunks (length buf) buf) (address / 512) in
  ret (ok tt, buf).
(** [fs/block_dev/virtio_block.rs:60-63] Nuclear::write. The loop. *)
Fixpoint Nuclear_write_chunks (cs : list (list Z)) (block : Z) : M D unit :=
  match cs with
  | [] => ret tt
  | chunk :: cs =>
      VirtIOBlock_write_block block chunk ;;
      Nuclear_write_chunks cs (block +u 1)
  end.
(** [fs/block_dev/virtio_block.rs:58-65] Nuclear::write *)
Definition Nuclear_write (buf : list Z) (address number_of_blocks : Z) : M D (Result unit Z) :=
  Nuclear_write_chunks (chunks (length buf) buf) (address / 512) ;;
  ret (ok tt).
(** [fs/block_dev/virtio_block.rs:41-66] BlockDevice for Nuclear *)
#[export] Instance Nuclear_BlockIO : BlockIO D :=
  {| io_error := Z; io_read := Nuclear_read; io_write := Nuclear_write |}.
End nuclear.

(** A disk that is a list of blocks. *)
#[export] Instance RamDisk : BlkDriver (list (list Z)) :=
  {| vb_error := unit;
     vb_read_block i buf := λ d,
       match d !! Z.to_nat i with Some b => Ok ((ok tt, b), d) | None => Ok ((err tt, buf), d) end;
     vb_write_block i buf := λ d,
       if i <? len d then Ok (ok tt, <[Z.to_nat i := buf]> d) else Ok (err tt, d) |}.
#[export] Instance RamDisk_laws : BlkDriverLaws (list (list Z)) id (Forall (λ b, len b = 512)).
Proof.
  split.
  - intros d b Hd Hb. rewrite Forall_forall in Hd. by apply Hd.
  - intros d i buf b Hd _ _ Hb. exists d. cbn. unfold id in Hb. by rewrite Hb.
  - intros d i buf Hd Hl Hi. exists (<[Z.to_nat i := buf]> d). unfold id in *. cbn.
    rewrite (proj2 (Z.ltb_lt _ _)) by lia. split_and!; [done| |done]. by apply Forall_insert.
Qed.

(** ** Memory for the driver *)
(** The frame allocator and [QUEUE_FRAMES]. *)
Record dma : Type := mkDma { dma_mm : mm; queue_frames : list Z }.
Definition dma_mm_ : lens dma mm := Lens dma_mm (λ m d, mkDma m (queue_frames d)).

(** [fs/block_dev/virtio_block.rs:85-90] virtio_dma_alloc. The passes from [i]
    on. *)
Fixpoint dma_alloc_loop (n : nat) (i ppn_base : Z) : M dma Z :=
  match n with
  | O => ret ppn_base
  | S n =>
      let* frame := zoom dma_mm_ frame_alloc in
      let* ppn := lift (unwrap frame) in
      let ppn_base := if i =? 0 then ppn else ppn_base in
      lift (assert_ (ppn =? ppn_base +u i)) ;;
      modify (λ d, mkDma (dma_mm d) (queue_frames d ++ [ppn])) ;;
      dma_alloc_loop n (i + 1) ppn_base
  end.
(** [fs/block_dev/virtio_block.rs:83-92] virtio_dma_alloc *)
Definition virtio_dma_alloc (pages : Z) : M dma Z :=
  let* ppn_base := dma_alloc_loop (Z.to_nat pages) 0 0 in
  ret (PhysAddr_from_PhysPageNum ppn_base).

(** [fs/block_dev/virtio_block.rs:97-100] virtio_dma_dealloc. The loop. *)
Fixpoint dma_dealloc_loop (n : nat) (ppn : Z) : M dma unit :=
  match n with
  | O => ret tt
  | S n =>
      zoom dma_mm_ (frame_dealloc ppn) ;;
      dma_dealloc_loop n (ppn +u 1)
  end.
(** [fs/block_dev/virtio_block.rs:95-102] virtio_dma_dealloc *)
Definition virtio_dma_dealloc (pa pages : Z) : M dma Z :=
  let* ppn_base := lift (PhysPageNum_from_PhysAddr pa) in
  dma_dealloc_loop (Z.to_nat pages) ppn_base ;;
  ret 0.
(** [fs/block_dev/virtio_block.rs:105-107] virtio_phys_to_virt *)
Definition virtio_phys_to_virt (paddr : Z) : Z := paddr.
(** [fs/block_dev/virtio_block.rs:110-112] virtio_virt_to_phys *)
Definition virtio_virt_to_phys (kernel_space : MemorySet) (m : pmem) (vaddr : Z) : outcome Z :=
  unwrap (PageTable_translate_va m (PageTable_from_token (MemorySet_token kernel_space)) vaddr).

(** ** [Nuclear] keeps the laws the FAT32 crate wants *)
Lemma length_blocks (bl : list (list Z)) : Forall (λ b, len b = 512) bl → len (concat bl) = 512 * len bl.
Proof. induction 1 as [|b bl Hb Hbl IH]; [done|]. unfold len in *. cbn. rewrite length_app. lia. Qed.
Lemma block_subl (bl : list (list Z)) i b :
  Forall (λ b, len b = 512) bl → bl !! i = Some b →
  b = subl (concat bl) (512 * Z.of_nat i) (512 * Z.of_nat i + 512).
Proof.
  intros Hbl. revert i. induction Hbl as [|b0 bl Hb0 Hbl IH]; intros i Hi; [done|]. unfold len in Hb0.
  destruct i as [|i]; cbn in Hi; unfold subl; cbn [concat].
  - injection Hi as ->. change (512 * Z.of_nat 0) with 0. cbn [drop]. rewrite drop_0.
    rewrite take_app_le by lia. by rewrite take_ge by lia.
  - rewrite drop_app_ge by lia. rewrite (IH i Hi) at 1. unfold subl. f_equal; [lia|]. f_equal. lia.
Qed.
Lemma concat_insert (bl : list (list Z)) i b :
  Forall (λ b, len b = 512) bl → len b = 512 → (i < length bl)%nat →
  concat (<[i := b]> bl) = splice (concat bl) (512 * i) b.
Proof.
  intros Hbl Hb. revert i. induction Hbl as [|b0 bl Hb0 Hbl IH]; intros i Hi; [cbn in Hi; lia|]. unfold len in *.
  destruct i as [|i]; unfold splice; cbn [concat].
  - change (512 * 0)%nat with O. cbn. rewrite drop_app_ge by lia. by replace (length b - length b0)%nat with O by lia.
  - change (<[S i:=b]> (b0 :: bl)) with (b0 :: <[i:=b]> bl). cbn [concat]. rewrite IH by (cbn in Hi; lia). unfold splice.
    rewrite take_app_ge, drop_app_ge, <- app_assoc by lia. do 2 f_equal; [f_equal; lia|]. f_equal. f_equal. lia.
Qed.

Section laws.
Context {D : Type} `{BlkDriver D} (blocks : D → list (list Z)) (vb_ok : D → Prop) {HV : BlkDriverLaws D blocks vb_ok}.

Definition disk_bytes (d : D) : list Z := concat (blocks d).
Definition disk_ok (d : D) : Prop := vb_ok d ∧ len (blocks d) < 2 ^ 54.

Lemma blocks_512 d : vb_ok d → Forall (λ b, len b = 512) (blocks d).
Proof. intros Hd. apply Forall_forall. intros b Hb. by apply (law_blk_len d b). Qed.

Lemma read_chunks_run n : ∀ buf i d,
  (length buf ≤ n)%nat → disk_ok d → 0 ≤ i → 512 * i + len buf ≤ len (disk_bytes d) →
  ∃ d', Nuclear_read_chunks (chunks n buf) i d = Ok (subl (disk_bytes d) (512 * i) (512 * i + len buf), d') ∧
    disk_ok d' ∧ disk_bytes d' = disk_bytes d.
Proof.
  induction n as [|n IH]; intros buf i d Hn Hd Hi Hl.
  { destruct buf; [|cbn in Hn; lia]. exists d. rewrite subl_nil by (unfold len; cbn; lia). done. }
  destruct buf as [|x buf]; [exists d; rewrite subl_nil by (unfold len; cbn; lia); done|].
  set (l := x :: buf) in *. change (chunks (S n) l) with (take 512 l :: chunks n (drop 512 l)). cbn [Nuclear_read_chunks].
  destruct Hd as [Hok Hsm]. assert (Hbl := blocks_512 d Hok). assert (Hlb := length_blocks _ Hbl).
  assert (Hl1 : 1 ≤ len l) by (unfold l, len; cbn; lia). unfold disk_bytes in *.
  destruct (lookup_lt_is_Some_2 (blocks d) (Z.to_nat i)) as [b Hb]; [unfold len in *; lia|].
  destruct (law_blk_read d i (replicate 512 0) b) as (d1 & Hr & Hok1 & Hb1); try done.
  unfold VirtIOBlock_read_block. unfold bind at 1. rewrite (bind_run _ _ _ _ _ Hr). cbn [lift unwrap_r bind ret].
  assert (Hbs := block_subl _ _ _ Hbl Hb). rewrite Z2Nat.id in Hbs by lia.
  set (k := len (take 512 l)). assert (Hk : k = Z.min 512 (len l)) by (unfold k, len; rewrite length_take; lia).
  assert (Hsl : slice b 0 k = Ok (subl (concat (blocks d)) (512 * i) (512 * i + k))).
  { apply slice_Ok. assert (len b = 512) by (apply (law_blk_len d); [done|by eapply list_elem_of_lookup_2]).
    split; [lia|]. change (subl (concat (blocks d)) (512 * i) (512 * i + k) = subl b 0 k). rewrite Hbs, subl_subl by lia. f_equal. lia. }
  rewrite (bind_run _ _ d1 _ d1) by (unfold lift; by rewrite Hsl).
  assert (Hdrop : len (drop 512 l) = len l - k) by (unfold len in *; rewrite length_drop; lia).
  destruct (IH (drop 512 l) (i + 1) d1) as (d2 & Hr2 & Hd2 & Hb2).
  { rewrite length_drop. lia. } { split; [done|by rewrite Hb1]. } { lia. }
  { rewrite Hb1, Hdrop. destruct (decide (len l ≤ 512)); lia. }
  rewrite uadd_small by lia. rewrite (bind_run _ _ _ _ _ Hr2), Hb1, Hdrop.
  exists d2. split_and!; [|done|congruence]. unfold ret. do 2 f_equal.
  destruct (decide (len l ≤ 512)).
  - rewrite (subl_nil _ (512 * (i + 1))) by lia. rewrite app_nil_r. f_equal. lia.
  - replace (512 * (i + 1)) with (512 * i + k) by lia. rewrite subl_app by lia. f_equal. lia.
Qed.

Lemma write_chunks_run n : ∀ buf i d m,
  (length buf ≤ n)%nat → disk_ok d → 0 ≤ i → len buf = m * 512 → 512 * i + len buf ≤ len (disk_bytes d) →
  ∃ d', Nuclear_write_chunks (chunks n buf) i d = Ok (tt, d') ∧ disk_ok d' ∧
    disk_bytes d' = splice (disk_bytes d) (Z.to_nat (512 * i)) buf.
Proof.
  induction n as [|n IH]; intros buf i d m Hn Hd Hi Hm Hl.
  { destruct buf; [|cbn in Hn; lia]. exists d. unfold len in Hl. rewrite splice_nil by lia. done. }
  destruct buf as [|x buf]; [exists d; unfold len in Hl; rewrite splice_nil by lia; done|].
  set (l := x :: buf) in *. change (chunks (S n) l) with (take 512 l :: chunks n (drop 512 l)). cbn [Nuclear_write_chunks].
  destruct Hd as [Hok Hsm]. assert (Hbl := blocks_512 d Hok). assert (Hlb := length_blocks _ Hbl).
  assert (Hl1 : 512 ≤ len l) by (unfold l, len in *; cbn in *; lia). unfold disk_bytes in *.
  assert (Ht : len (take 512 l) = 512) by (unfold len in *; rewrite length_take; lia).
  destruct (law_blk_write d i (take 512 l)) as (d1 & Hr & Hok1 & Hb1); [done|done|unfold len in *; lia|].
  unfold VirtIOBlock_write_block. unfold bind at 1. rewrite (bind_run _ _ _ _ _ Hr). cbn [lift unwrap_r].
  assert (Hc1 : concat (blocks d1) = splice (concat (blocks d)) (Z.to_nat (512 * i)) (take 512 l)).
  { rewrite Hb1, concat_insert by (done || unfold len in *; lia). f_equal. lia. }
  assert (Hlc : len (concat (blocks d1)) = len (concat (blocks d))).
  { rewrite Hc1. unfold len in *. apply f_equal, length_splice. lia. }
  assert (Hdrop : len (drop 512 l) = len l - 512) by (unfold len in *; rewrite length_drop; lia).
  destruct (IH (drop 512 l) (i + 1) d1 (m - 1)) as (d2 & Hr2 & Hd2 & Hb2).
  { rewrite length_drop. lia. } { split; [done|]. rewrite Hb1. unfold len in *. by rewrite length_insert. } { lia. } { lia. }
  { rewrite Hlc, Hdrop. lia. }
  rewrite uadd_small by lia. exists d2. rewrite Hr2. split_and!; try done. rewrite Hb2, Hc1.
  replace (Z.to_nat (512 * (i + 1))) with (Z.to_nat (512 * i) + length (take 512 l))%nat by (unfold len in Ht; lia).
  rewrite splice_adj by (unfold len in *; lia). by rewrite take_drop.
Qed.

#[export] Instance Nuclear_laws : BlockIOLaws D disk_bytes disk_ok.
Proof.
  split; unfold BUFFER_SIZE.
  - intros buf a n d Hd Ha H0 Hl _. destruct (read_chunks_run (length buf) buf (a / 512) d) as (d' & Hr & Hd' & Hb'); try done.
    { apply Z.div_pos; lia. } { pose proof (Z.div_mod a 512 ltac:(lia)). lia. }
    replace (512 * (a / 512)) with a in Hr by (pose proof (Z.div_mod a 512 ltac:(lia)); lia).
    exists d'. cbn. unfold Nuclear_read. by rewrite (bind_run _ _ _ _ _ Hr).
  - intros buf a n d Hd Ha H0 Hl Hm. destruct (write_chunks_run (length buf) buf (a / 512) d n) as (d' & Hr & Hd' & Hb'); try done.
    { apply Z.div_pos; lia. } { pose proof (Z.div_mod a 512 ltac:(lia)). lia. }
    replace (512 * (a / 512)) with a in Hb' by (pose proof (Z.div_mod a 512 ltac:(lia)); lia).
    exists d'. cbn. unfold Nuclear_write. by rewrite (bind_run _ _ _ _ _ Hr).
Qed.
End laws.

(** [Nuclear] is the device the FAT32 crate wants: on a driver that reads
    and writes blocks of 512 bytes, a read of any bytes from a sector boundary
    on gives exactly these bytes of the disk, also when the last sector is
    needed only in part; a write of whole sectors changes exactly them. *)
Theorem Nuclear_reads_writes {D} `{BlkDriver D} blocks vb_ok {HV : BlkDriverLaws D blocks vb_ok} d address buf n :
  vb_ok d → len (blocks d) < 2 ^ 54 → 0 ≤ address → address mod 512 = 0 → address + len buf ≤ 512 * len (blocks d) →
  (∃ d', Nuclear_read buf address n d =
     Ok ((ok tt, subl (concat (blocks d)) address (address + len buf)), d') ∧ vb_ok d' ∧
     concat (blocks d') = concat (blocks d)) ∧
  (len buf mod 512 = 0 →
   ∃ d', Nuclear_write buf address n d = Ok (ok tt, d') ∧ vb_ok d' ∧
     concat (blocks d') = splice (concat (blocks d)) (Z.to_nat address) buf).
Proof.
  intros Hd Hs H0 Ha Hl. assert (Hlen := length_blocks _ (blocks_512 blocks vb_ok d Hd)).
  split.
  - destruct (law_io_read (BlockIOLaws := Nuclear_laws blocks vb_ok) buf address (get_needed_sector (len buf)) d)
      as (d' & Hr & [Hok _] & Hb); try done; [unfold disk_bytes; lia|]. by exists d'.
  - intros Hm.
    destruct (law_io_write (BlockIOLaws := Nuclear_laws blocks vb_ok) buf address (len buf / 512) d)
      as (d' & Hr & [Hok _] & Hb); try done; [unfold disk_bytes; lia| |by exists d'].
    unfold BUFFER_SIZE. pose proof (Z.div_mod (len buf) 512 ltac:(lia)). lia.
Qed.
Lemma Nuclear_reads_writes_witness :
  let d := [replicate 512 1; replicate 512 2] in
  (∃ d', Nuclear_read (replicate 700 0) 0 2 d =
     Ok ((ok tt, subl (concat d) 0 (0 + len (replicate 700 0))), d') ∧ Forall (λ b, len b = 512) d' ∧ concat d' = concat d) ∧
  (len (replicate 700 0) mod 512 = 0 →
   ∃ d', Nuclear_write (replicate 700 0) 0 2 d = Ok (ok tt, d') ∧ Forall (λ b, len b = 512) d' ∧
     concat d' = splice (concat d) (Z.to_nat 0) (replicate 700 0)).
Proof.
  intros d. apply (Nuclear_reads_writes id (Forall (λ b, len b = 512)) d 0 (replicate 700 0) 2).
  - repeat constructor.
  - vm_compute. reflexivity.
  - lia.
  - reflexivity.
  - vm_compute. congruence.
Defined.

(** ** The driver of [virtio-drivers] *)
Section virtio_driver.
Context {D : Type} `{VirtioDevice D}.

(** [fs/block_dev/virtio_block.rs:69-77] VirtIOBlock::new *)
Definition VirtIOBlock_new : M D VirtIOBlk :=
  let* r := VirtIOBlk_new in lift (unwrap_r r).

(** The driver with its caller's buffer at [bufa] and its own request and
    response at [req] and [resp]. *)
Definition virtio_driver (fuel : nat) (req resp bufa : Z) : BlkDriver (machine D VirtIOBlk) := {|
  vb_error := VirtioError;
  vb_read_block i b :=
    store_at bufa b ;;
    let* r := VirtIOBlk_read_block fuel req resp i (mkBuf bufa (len b)) in
    let* b := load_at bufa (length b) in
    ret (r, b);
  vb_write_block i b :=
    store_at bufa b ;;
    VirtIOBlk_write_block fuel req resp i (mkBuf bufa (len b)) |}.

Definition with_buffer (bufa : Z) (b : list Z) (m : machine D VirtIOBlk) : machine D VirtIOBlk :=
  mkMachine (m_dev m) (ram_store (m_ram m) bufa b) (m_drv m).
Lemma virtio_driver_read fuel req resp bufa i b m :
  vb_read_block (BlkDriver := virtio_driver fuel req resp bufa) i b m =
  (let* r := VirtIOBlk_read_block fuel req resp i (mkBuf bufa (len b)) in
   let* b := load_at bufa (length b) in ret (r, b)) (with_buffer bufa b m).
Proof. reflexivity. Qed.
Lemma virtio_driver_write fuel req resp bufa i b m :
  vb_write_block (BlkDriver := virtio_driver fuel req resp bufa) i b m =
  VirtIOBlk_write_block fuel req resp i (mkBuf bufa (len b)) (with_buffer bufa b m).
Proof. reflexivity. Qed.

Context (sectors : D → list (list Z)) (ready : Z → Z → Z → D → Prop) (bound : nat).
Context {HL : VirtioBlkLaws D sectors ready bound}.
Context (fuel : nat) (req resp bufa : Z) (Hfuel : (bound ≤ fuel)%nat).
Context (Hsep : sep req 16 resp 1 ∧ sep req 16 bufa 512 ∧ sep resp 1 bufa 512).
Context (identity : ∀ n a u d p, ready n a u d → p ∈ [req; resp; bufa] → hal_virt_to_phys d p = Ok p).

Lemma virtio_driver_laws :
  BlkDriverLaws (machine D VirtIOBlk) (H := virtio_driver fuel req resp bufa) (λ m, sectors (m_dev m)) (blk_ok ready).
Proof.
  split.
  - intros m b (_ & Hr) Hb. by eapply law_sector.
  - intros m i buf b Hok Hl Hi Hb.
    destruct (VirtIOBlk_read_block_ok sectors ready bound req resp bufa Hsep identity fuel (with_buffer bufa buf m) i b)
      as (m' & Hr & Hok' & Hs & Hd); try done.
    exists m'. split; [|done]. rewrite virtio_driver_read, Hl, (bind_run _ _ _ _ _ Hr).
    unfold bind, load_at, ret. replace (length buf) with 512%nat by (unfold len in Hl; lia). by rewrite Hd.
  - intros m i buf Hok Hl Hi.
    destruct (VirtIOBlk_write_block_ok sectors ready bound req resp bufa Hsep identity fuel (with_buffer bufa buf m) i)
      as (m' & Hr & Hok' & Hs); try done.
    exists m'. rewrite virtio_driver_write, Hl, Hr. split_and!; [done|done|].
    rewrite Hs. cbn [with_buffer m_dev m_ram]. f_equal. replace 512%nat with (length buf) by (unfold len in Hl; lia). apply ram_load_store_eq.
Qed.
End virtio_driver.

(** C9. The whole stack under the file system: on an idle driver, a read through
    [Nuclear] of any bytes from a sector boundary on gives these bytes of the
    device's sectors, and a write of whole sectors changes exactly them; every
    sector is a request through the virtqueue, and the driver is idle again. *)
Theorem Nuclear_on_virtio {D} `{VirtioDevice D} sectors ready bound `{!VirtioBlkLaws D sectors ready bound}
    fuel req resp bufa m address buf n :
  (bound ≤ fuel)%nat → sep req 16 resp 1 ∧ sep req 16 bufa 512 ∧ sep resp 1 bufa 512 →
  (∀ n a u d p, ready n a u d → p ∈ [req; resp; bufa] → hal_virt_to_phys d p = Ok p) →
  blk_ok ready m → len (sectors (m_dev m)) < 2 ^ 54 →
  0 ≤ address → address mod 512 = 0 → address + len buf ≤ 512 * len (sectors (m_dev m)) →
  let nuclear := virtio_driver fuel req resp bufa in
  let bytes m := concat (sectors (m_dev m)) in
  (∃ m', Nuclear_read (H := nuclear) buf address n m = Ok ((ok tt, subl (bytes m) address (address + len buf)), m') ∧
     blk_ok ready m' ∧ bytes m' = bytes m) ∧
  (len buf mod 512 = 0 →
   ∃ m', Nuclear_write (H := nuclear) buf address n m = Ok (ok tt, m') ∧
     blk_ok ready m' ∧ bytes m' = splice (bytes m) (Z.to_nat address) buf).
Proof.
  intros Hf Hs Hid Hok Hsm H0 Ha Hl nuclear bytes.
  assert (HV := virtio_driver_laws sectors ready bound fuel req resp bufa Hf Hs Hid).
  assert (Hlen := length_blocks _ (blocks_512 (H := nuclear) (HV := HV) _ _ m Hok)).
  split.
  - destruct (law_io_read (BlockIOLaws := Nuclear_laws (H := nuclear) (HV := HV) _ _) buf address (get_needed_sector (len buf)) m)
      as (m' & Hr & [Hok' _] & Hb); try done; [unfold disk_bytes; lia|]. by exists m'.
  - intros Hm.
    destruct (law_io_write (BlockIOLaws := Nuclear_laws (H := nuclear) (HV := HV) _ _) buf address (len buf / 512) m)
      as (m' & Hr & [Hok' _] & Hb); try done; [unfold disk_bytes; lia| |by exists m'].
    unfold BUFFER_SIZE. pose proof (Z.div_mod (len buf) 512 ltac:(lia)). lia.
Qed.
Lemma Nuclear_on_virtio_witness : ∃ b d m',
  VirtIOBlk_new sdisk2 = Ok (ok b, d) ∧
  Nuclear_read (H := virtio_driver 1 4096 4112 8192) (replicate 700 0) 0 2 (mkMachine d ∅ b) =
    Ok ((ok tt, replicate 512 1 ++ replicate 188 2), m').
Proof.
  destruct sdisk2_new as (b & d & Hnew & Hsec & Hok).
  destruct (Nuclear_on_virtio sd_sectors sdisk_ready 1 1 4096 4112 8192 (mkMachine d ∅ b) 0 (replicate 700 0) 2) as [(m' & Hr & _) _].
  - done.
  - unfold sep. lia.
  - done.
  - apply Hok.
  - cbn [m_dev]. rewrite Hsec. unfold sdisk2, len. cbn [sd_sectors length]. lia.
  - lia.
  - done.
  - cbn [m_dev]. rewrite Hsec. unfold len, sdisk2. rewrite length_replicate. cbn [sd_sectors length]. lia.
  - exists b, d, m'. split; [exact Hnew|]. cbn [m_dev] in Hr. rewrite Hsec in Hr. exact Hr.
Defined.

(** ** The kernel as the driver's environment *)
(** A device the kernel drives: the registers of the hardware, the frames of
    its queues and the kernel's address space. *)
Class VirtioHw (R : Type) : Type := {
  hw_mmio :: Mmio R;
  hw_step : Z → R → shared → R * shared;
}.
Record kdev (R : Type) : Type := mkKdev { kd_regs : R; kd_dma : dma; kd_space : MemorySet }.
Arguments mkKdev {R} kd_regs kd_dma kd_space.
Arguments kd_regs {R} k.
Arguments kd_dma {R} k.
Arguments kd_space {R} k.
Definition kd_dma_ {R} : lens (kdev R) dma := Lens kd_dma (λ d k, mkKdev (kd_regs k) d (kd_space k)).
Section kdev.
Context {R : Type} `{VirtioHw R}.
#[export] Instance kdev_Mmio : Mmio (kdev R) := {|
  mmio_read a k := ((mmio_read a (kd_regs k)).1, mkKdev (mmio_read a (kd_regs k)).2 (kd_dma k) (kd_space k));
  mmio_write a v k := mkKdev (mmio_write a v (kd_regs k)) (kd_dma k) (kd_space k) |}.
#[export] Instance kdev_Hal : Hal (kdev R) := {|
  hal_dma_alloc pages := zoom kd_dma_ (virtio_dma_alloc pages);
  hal_dma_dealloc pa pages := zoom kd_dma_ (virtio_dma_dealloc pa pages);
  hal_phys_to_virt _ pa := Ok (virtio_phys_to_virt pa);
  hal_virt_to_phys k va := virtio_virt_to_phys (kd_space k) (ram (dma_mm (kd_dma k))) va;
  hal_load k va := load_byte (ram (dma_mm (kd_dma k))) va |}.
#[export] Instance kdev_device : VirtioDevice (kdev R) := {|
  dev_step qi k sh := let '(r, sh) := hw_step qi (kd_regs k) sh in (mkKdev r (kd_dma k) (kd_space k), sh) |}.

(** A run of the registers only. *)
Definition lifts {A} (p : M (kdev R) A) (q : M R A) : Prop := ∀ r dm sp,
  p (mkKdev r dm sp) = match q r with Ok (a, r') => Ok (a, mkKdev r' dm sp) | Fault f => Fault f end.
Lemma lifts_read f : lifts (read_reg f) (read_reg f).
Proof. intros r dm sp. unfold read_reg. cbn. by destruct (mmio_read _ r). Qed.
Lemma lifts_write f v : lifts (write_reg f v) (write_reg f v).
Proof. done. Qed.
Lemma lifts_ret {A} (a : A) : lifts (ret a) (ret a).
Proof. done. Qed.
Lemma lifts_bind {A B} (p : M (kdev R) A) q (k : A → M (kdev R) B) k' :
  lifts p q → (∀ a, lifts (k a) (k' a)) → lifts (bind p k) (bind q k').
Proof. intros Hp Hk r dm sp. unfold bind. rewrite Hp. destruct (q r) as [[a r']|]; [apply Hk|done]. Qed.
Lemma lifts_Ok {A} (p : M (kdev R) A) q r dm sp a r' : lifts p q → q r = Ok (a, r') → p (mkKdev r dm sp) = Ok (a, mkKdev r' dm sp).
Proof. intros Hp Hq. by rewrite Hp, Hq. Qed.
End kdev.
Ltac lift_regs :=
  repeat first [apply lifts_read | apply lifts_write | apply lifts_ret | apply lifts_bind; [|intros ?]].

(** Two frames from an allocator that has given nothing back. *)
Lemma virtio_dma_alloc_two c e m qf :
  pmem_wf m → 0 < c → c + 2 ≤ e → (c + 2) * 4096 ≤ 2 ^ 32 →
  virtio_dma_alloc 2 (mkDma (mkMM (mkSFA c e []) m) qf) =
    Ok (4096 * c, mkDma (mkMM (mkSFA (c + 2) e []) (<[c + 1 := zero_page]> (<[c := zero_page]> m))) (qf ++ [c; c + 1])).
Proof.
  intros Hwf Hc He Hb. assert (Hf : ∀ c m qf, 0 < c → c < e → c < 2 ^ 32 → pmem_wf m →
    zoom dma_mm_ frame_alloc (mkDma (mkMM (mkSFA c e []) m) qf) =
    Ok (Some c, mkDma (mkMM (mkSFA (c + 1) e []) (<[c := zero_page]> m)) qf)).
  { clear. intros c m qf H0 H1 H2 Hwf. unfold zoom, frame_alloc, StackFrameAllocator_alloc. cbn -[FrameTracker_new].
    rewrite (proj2 (Z.eqb_neq _ _)) by lia. rewrite uadd_small, usub_small by lia. unfold bind, ret, FrameTracker_new. cbn.
    replace (c + 1 - 1) with c by lia. unfold PhysPageNum_from. rewrite Z.shiftl_1_l, land_mask by done. change (2 ^ PPN_WIDTH_SV39) with (2 ^ 44). rewrite Z.mod_small by lia.
    rewrite FrameTracker_zero by done. done. }
  pose proof zero_page_wf as [Hz1 Hz2]. unfold virtio_dma_alloc. change (Z.to_nat 2) with 2%nat. cbn [dma_alloc_loop].
  unfold bind at 1. rewrite (bind_run _ _ _ _ _ (Hf c m qf ltac:(lia) ltac:(lia) ltac:(lia) Hwf)).
  rewrite (bind_lift_eq _ _ _ c) by done. change (0 =? 0) with true. cbv iota.
  rewrite (bind_lift_eq _ _ _ tt) by (rewrite uadd_small, Z.add_0_r, Z.eqb_refl by lia; done).
  unfold bind at 1, modify. cbn [dma_mm queue_frames].
  rewrite (bind_run _ _ _ _ _ (Hf (c + 1) (<[c := zero_page]> m) _ ltac:(lia) ltac:(lia) ltac:(lia) ltac:(by apply pmem_wf_insert))).
  rewrite (bind_lift_eq _ _ _ (c + 1)) by done. change (0 + 1 =? 0) with false. cbv iota.
  rewrite (bind_lift_eq _ _ _ tt) by (rewrite uadd_small, Z.add_0_l, Z.eqb_refl by lia; done).
  unfold bind, modify, ret. cbn. unfold PhysAddr_from_PhysPageNum. rewrite Z.shiftl_mul_pow2 by done.
  change (2 ^ PAGE_SIZE_BITS) with 4096. rewrite wrap64_small by lia. rewrite <- app_assoc. cbn.
  replace (c + 1 + 1) with (c + 2) by lia. by replace (c * 4096) with (4096 * c) by lia.
Qed.

Lemma load_byte_zero m p a : 0 ≤ a → get_bytes_array m (a / 4096) = zero_page → a / 4096 = p → load_byte m a = 0.
Proof.
  intros Ha Hz _. unfold load_byte. change PAGE_SIZE with 4096. rewrite Hz. unfold zero_page.
  pose proof (Z.mod_pos_bound a 4096). rewrite list_lookup_total_alt, lookup_replicate_2; [done|].
  rewrite page_len_nat. lia.
Qed.

(** The kernel can create its block driver: at a device that accepts a queue,
    with an allocator that has two frames left and has taken none back,
    [VirtIOBlock::new] returns a driver with no request in flight.  The queue
    lies in the next two frames, which are contiguous, cleared, and kept in
    [QUEUE_FRAMES]. *)
Theorem VirtIOBlock_new_ok {R} `{VirtioHw R} (ready : Z → Z → Z → R → Prop) (r r0 r1 r2 r4 r5 r6 : R) mx cap c e m qf sp :
  VirtIOHeader_begin_init (λ f, Z.land (BlkFeature_from_bits_truncate f) BlkFeature_empty) r = Ok (tt, r0) →
  VirtIOHeader_queue_used 0 r0 = Ok (false, r1) → VirtIOHeader_max_queue_size r1 = Ok (mx, r2) → 16 ≤ mx →
  VirtIOHeader_queue_set 0 16 VIRTIO_PAGE_SIZE c r2 = Ok (tt, r4) →
  VirtIOHeader_finish_init r4 = Ok (tt, r5) → mmio_read CONFIG_SPACE_OFFSET r5 = (cap, r6) → ready 16 0 0 r6 →
  pmem_wf m → 0 < c → c + 2 ≤ e → (c + 2) * 4096 ≤ 2 ^ 32 →
  ∃ b k, VirtIOBlock_new (mkKdev r (mkDma (mkMM (mkSFA c e []) m) qf) sp) = Ok (b, k) ∧
    (∀ bm, blk_ok (λ n a u k, ready n a u (kd_regs k)) (mkMachine k bm b)) ∧
    queue_frames (kd_dma k) = qf ++ [c; c + 1] ∧ frame_allocator (dma_mm (kd_dma k)) = mkSFA (c + 2) e [].
Proof.
  intros Hb Hu Hm Hmx Hs Hf Hc Hr Hwf Hc0 He Hlim.
  set (dm := mkDma (mkMM (mkSFA c e []) m) qf). assert (Ha := virtio_dma_alloc_two c e m qf Hwf Hc0 He Hlim).
  set (dm' := mkDma (mkMM (mkSFA (c + 2) e []) _) _) in Ha. fold dm in Ha.
  assert (Hzero : ∀ a, 4096 * c ≤ a < 4096 * c + 8192 → load_byte (ram (dma_mm dm')) a = 0).
  { intros a Hra. eapply load_byte_zero; [lia| |done]. cbn [dm' dma_mm ram].
    destruct (decide (a / 4096 = c + 1)) as [->|Hne]; [by rewrite get_bytes_array_insert_eq|].
    assert (a / 4096 = c) as -> by (pose proof (Z.div_mod a 4096 ltac:(lia)); pose proof (Z.mod_pos_bound a 4096 ltac:(lia)); lia).
    by rewrite get_bytes_array_insert_ne, get_bytes_array_insert_eq by lia. }
  destruct (VirtIOBlk_new_ok (λ n a u (k : kdev R), ready n a u (kd_regs k))
    (mkKdev r dm sp) (mkKdev r0 dm sp) (mkKdev r1 dm sp) (mkKdev r2 dm sp) (mkKdev r2 dm' sp) (mkKdev r4 dm' sp) (mkKdev r5 dm' sp)
    (mkKdev r6 dm' sp) mx (4096 * c) (4096 * c) cap) as (b & Hnew & Hok & _); try done.
  - eapply lifts_Ok; [|exact Hb]. unfold VirtIOHeader_begin_init, VirtIOHeader_read_device_features, VirtIOHeader_write_driver_features.
    lift_regs.
  - eapply lifts_Ok; [|exact Hu]. unfold VirtIOHeader_queue_used, VirtIOHeader_queue_physical_page_number. lift_regs.
  - eapply lifts_Ok; [|exact Hm]. unfold VirtIOHeader_max_queue_size. lift_regs.
  - cbn. unfold zoom. cbn [view kd_dma_ kd_dma update]. rewrite Ha. done.
  - lia.
  - replace (Z.shiftr (4096 * c) 12) with c by (rewrite Z.shiftr_div_pow2 by lia; change (2 ^ 12) with 4096; rewrite Z.mul_comm, Z.div_mul by lia; done).
    eapply lifts_Ok; [|exact Hs]. unfold VirtIOHeader_queue_set. lift_regs.
  - lia.
  - eapply lifts_Ok; [|exact Hf]. unfold VirtIOHeader_finish_init. lift_regs.
  - cbn. by rewrite Hc.
  - exists b, (mkKdev r6 dm' sp). split; [|done]. unfold VirtIOBlock_new. by rewrite (bind_run _ _ _ _ _ Hnew).
Qed.
#[export] Instance sdisk_hw : VirtioHw sdisk := {| hw_step _ := sdisk_step |}.
Lemma VirtIOBlock_new_ok_witness : ∃ b (k : kdev sdisk),
  VirtIOBlock_new (mkKdev sdisk2 (mkDma (mkMM (mkSFA 0x80500 0x80600 []) ∅) []) (mkMS (mkPT 0 []) [])) = Ok (b, k) ∧
  queue_frames (kd_dma k) = [0x80500; 0x80501].
Proof.
  destruct (VirtIOBlock_new_ok sdisk_ready sdisk2 sdisk2 sdisk2 sdisk2
    (mkSdisk (sd_sectors sdisk2) 16 0x80500 0 false) (mkSdisk (sd_sectors sdisk2) 16 0x80500 0 false)
    (mkSdisk (sd_sectors sdisk2) 16 0x80500 0 false) 1024 2 0x80500 0x80600 ∅ [] (mkMS (mkPT 0 []) [])) as (b & k & Hb & _ & Hq & _);
    try reflexivity; try lia.
  - split_and!; [done|done|lia|done| |done]. repeat constructor.
  - apply pmem_wf_empty.
  - exists b, k. split; [exact Hb|exact Hq].
Defined.
