(* ===== verification/Mount.v ===== *)
(** * Mounting the disk ([syscall/fs.rs], [sys_mount])

    The kernel reads the whole FAT32 volume into memory: for each file whose
    long name it can put together it makes an inode with the file's contents
    and enters it into the dentry cache.  [fuel] bounds the loops over chains
    and directory items, [depth] the nesting of directories. *)

From S2P Require Import Prelude Addr PhysMem FrameAlloc PageTable UserMem MemorySet Inode FatItem Fat FatDir FatFile Fd VirtioBlock.

Section mount.
Context {D : Type} `{BlkDriver D}.
Context (fuel : nat).

(** The disk and the file store. *)
Abbreviation MS := (M (D * fstore)).
Definition disk_ : lens (D * fstore) D := Lens fst (λ d s, (d, snd s)).
Definition store_ : lens (D * fstore) fstore := Lens snd (λ x s, (fst s, x)).
Definition mount_println (s : String) : MS unit := zoom store_ (zoom fs_console (print (s ++ [10]))).

(** [Vec::resize(n, 0)] of an empty vector. *)
Definition resized (n : Z) : list Z := replicate (Z.to_nat n) 0.

(** [syscall/fs.rs:275-316] Thread::full_search_mount. A file is found. *)
Definition mount_file (path lfn_name file_path : String) (file : FatFile) : MS unit :=
  mount_println (str "[mount] find file " ++ file_path) ;;
  let* length := lift (FatFile_length file) in
  let* content :=
    if length >? 0 then
      let* '(_, buf) := zoom disk_ (FatFile_read fuel file (resized length)) in ret buf
    else mount_println (str "empty file.") ;; ret (resized length) in
  let* inode := zoom store_ (inode_new (IReg (rf_with_file
    (RegFileINode_new path lfn_name CREATE true true) content))) in
  zoom store_ (GlobalDentryCache_insert file_path inode) ;;
  ret tt.

(** [syscall/fs.rs:264-335] Thread::full_search_mount. An item of a long name,
    put before the parts read so far; gives the parts to go on with.  [sub] is
    the recursive call. *)
Definition mount_lfn (sub : Dir → String → MS unit) (dir : Dir) (path : String) (item : DirectoryItem)
    (lfn_name : String) : MS String :=
  let* l := lift (get_lfn item) in
  let* '(name, ln) := lift (unwrap l) in
  let* name := lift (unwrap (from_utf8 name)) in
  let* part := lift (str_to name ln) in
  let lfn_name := part ++ lfn_name in
  let* file := zoom disk_ (open_file fuel dir lfn_name) in
  let file_path := path ++ lfn_name in
  match file with
  | ok file => mount_file path lfn_name file_path file ;; ret []
  | err _ =>
      let* new_dir := zoom disk_ (cd fuel dir lfn_name) in
      match new_dir with
      | ok new_dir => sub new_dir (path ++ lfn_name ++ str "/") ;; ret []
      | err _ =>
          let* e := lift (unwrap (Item_is_name_end item)) in
          if negb e then ret []
          else mount_println (str "failed on " ++ lfn_name) ;; ret lfn_name
      end
  end.

(** [syscall/fs.rs:261-348] Thread::full_search_mount. The loop over the items. *)
Fixpoint mount_loop (n : nat) (sub : Dir → String → MS unit) (dir : Dir) (path : String) (iter : DirIter)
    (lfn_name : String) : MS unit :=
  match n with
  | O => throw Fuel
  | S n =>
      let* '(item, iter) := zoom disk_ (DirIter_next fuel iter) in
      match item with
      | None => ret tt
      | Some item =>
          let* lfn_name :=
            match item_type item with
            | ItemType_LFN => mount_lfn sub dir path item lfn_name
            | ItemType_File =>
                let* s := lift (unwrap (sfn item)) in
                lift (unwrap (from_utf8 (sfn_name s))) ;;
                ret lfn_name
            | _ => ret lfn_name
            end in
          mount_loop n sub dir path iter lfn_name
      end
  end.
(** [syscall/fs.rs:259-348] Thread::full_search_mount *)
Fixpoint full_search_mount (depth : nat) (dir : Dir) (path : String) : MS unit :=
  match depth with
  | O => throw Fuel
  | S depth =>
      let* iter := zoom disk_ (Dir_iter dir) in
      mount_loop fuel (full_search_mount depth) dir path iter []
  end.
(** [syscall/fs.rs:350-355] Thread::sys_mount *)
Definition mount_volume (depth : nat) : MS Z :=
  let* volume := zoom disk_ Volume_new in
  full_search_mount depth (root_dir volume) (str "/") ;;
  ret 0.
End mount.

(** The disk of the machine, and the bounds. *)
Record disk_env : Type := mkDisk {
  disk_type : Type;
  disk_io :: BlkDriver disk_type;
  the_disk : disk_type;
  mount_fuel : nat;
  mount_depth : nat;
}.
(** The disk is only read: a call of [sys_mount] runs on the disk as it is. *)
Definition sys_mount (e : disk_env) : FS Z :=
  λ s, match mount_volume (mount_fuel e) (mount_depth e) (the_disk e, s) with
       | Ok (r, (_, s')) => Ok (r, s')
       | Fault f => Fault f
       end.
