(* ===== verification/Kernel.v ===== *)
(** * Processes, threads and the state of the kernel ([task/mod.rs],
    [task/context.rs], [trap/context.rs], [timer.rs])

    The state joins memory, the file store, the kernel's address space, the
    processes and the run queue.  An [Arc<Process>] is its key in the process
    store, an [Arc<Thread>] its key in the thread store; a process is dropped
    when no process and no thread refers to it.  The lock of a PCB is taken
    and released inside a handler, and forced open before it is taken again
    or a task is suspended, so it carries no state. *)

From S2P Require Import Prelude Addr PhysMem FrameAlloc PageTable UserMem MemorySet Inode Fd.

(** ** Contexts *)
(** [task/context.rs:7-11] ProcessContext *)
Record ProcessContext : Type := mkContext { ra : Z; sp : Z; s_regs : list Z }.
(** [task/context.rs:14-20] ProcessContext::new *)
Definition ProcessContext_new : ProcessContext := mkContext 0 0 (replicate 12 0).

(** [trap/context.rs:8-21] TrapFrame *)
Record TrapFrame : Type := mkTrapFrame {
  x : list Z;
  sstatus : Z;
  sepc : Z;
  kernel_satp : Z;
  kernel_sp : Z;
  trap_handler : Z;
}.
(** [trap/context.rs:25-27] TrapFrame::set_sp *)
Definition TrapFrame_set_sp (self : TrapFrame) (sp : Z) : TrapFrame :=
  mkTrapFrame (<[2%nat := sp]> (x self)) (sstatus self) (sepc self) (kernel_satp self) (kernel_sp self)
    (trap_handler self).
(** [sstatus0] is the value of the CSR; [set_spp(User)] clears bit 8. *)
(** [trap/context.rs:29-48] TrapFrame::app_init_context *)
Definition TrapFrame_app_init_context (sstatus0 entry sp kernel_satp kernel_sp trap_handler : Z) : TrapFrame :=
  let sstatus := Z.ldiff sstatus0 (Z.shiftl 1 8) in
  let cx := mkTrapFrame (replicate 32 0) sstatus entry kernel_satp kernel_sp trap_handler in
  TrapFrame_set_sp cx sp.

(** A trap frame is the first 296 bytes of its page. *)
Definition size_of_TrapFrame : nat := 296.
Definition TrapFrame_words (t : TrapFrame) : list Z :=
  x t ++ [sstatus t; sepc t; kernel_satp t; kernel_sp t; trap_handler t].
Definition TrapFrame_bytes (t : TrapFrame) : list Z := concat (le64 <$> TrapFrame_words t).
Definition tf_addr (ppn i : Z) : Z := ppn * PAGE_SIZE + 8 * i.
(** The word index of [sepc]. *)
Definition SEPC : Z := 33.
Definition KERNEL_SP : Z := 35.

(** ** Process data *)
(** [task/mod.rs:57-64] ProcessState *)
Inductive ProcessState : Type := READY | RUNNING | ZOMBIE | KILLED | EMPTY.
#[export] Instance ProcessState_eq_dec : EqDecision ProcessState.
Proof. solve_decision. Defined.

(** [task/mod.rs:404-407] Children *)
Record Children : Type := mkChildren { alive : gmap Z Z; zombie : gmap Z Z }.
(** [task/mod.rs:410-415] Children::new *)
Definition Children_new : Children := mkChildren ∅ ∅.
(** [task/mod.rs:416-420] Children::turn_into_zombie *)
Definition Children_turn_into_zombie (self : Children) (pid : Z) : outcome Children :=
  let! proc := unwrap (alive self !! pid) in
  Ok (mkChildren (delete pid (alive self)) (<[pid := proc]> (zombie self))).

(** [task/mod.rs:343-359] PCB *)
Record PCB : Type := mkPCB {
  pid : Z;
  state : ProcessState;
  context : ProcessContext;
  trapframe_ppn : Z;
  memory_set : MemorySet;
  heap_pos : Z;
  mmap_pos : Z;
  parent : option Z;
  children : Children;
  exit_code : Z;
  otime : Z;
  utime : Z;
  ktime : Z;
  cwd : String;
  fd_manager : FdManager;
}.
Definition pcb_set_fds (p : PCB) (x : FdManager) : PCB :=
  mkPCB (pid p) (state p) (context p) (trapframe_ppn p) (memory_set p) (heap_pos p) (mmap_pos p) (parent p)
    (children p) (exit_code p) (otime p) (utime p) (ktime p) (cwd p) x.
Definition pcb_set_mem (p : PCB) (ms : MemorySet) (heap mmap : Z) : PCB :=
  mkPCB (pid p) (state p) (context p) (trapframe_ppn p) ms heap mmap (parent p)
    (children p) (exit_code p) (otime p) (utime p) (ktime p) (cwd p) (fd_manager p).
Definition pcb_set_cwd (p : PCB) (c : String) : PCB :=
  mkPCB (pid p) (state p) (context p) (trapframe_ppn p) (memory_set p) (heap_pos p) (mmap_pos p) (parent p)
    (children p) (exit_code p) (otime p) (utime p) (ktime p) c (fd_manager p).
Definition pcb_set_children (p : PCB) (c : Children) : PCB :=
  mkPCB (pid p) (state p) (context p) (trapframe_ppn p) (memory_set p) (heap_pos p) (mmap_pos p) (parent p)
    c (exit_code p) (otime p) (utime p) (ktime p) (cwd p) (fd_manager p).
Definition pcb_set_exit (p : PCB) (s : ProcessState) (code : Z) : PCB :=
  mkPCB (pid p) s (context p) (trapframe_ppn p) (memory_set p) (heap_pos p) (mmap_pos p) (parent p)
    (children p) code (otime p) (utime p) (ktime p) (cwd p) (fd_manager p).
Definition pcb_set_times (p : PCB) (o u k : Z) : PCB :=
  mkPCB (pid p) (state p) (context p) (trapframe_ppn p) (memory_set p) (heap_pos p) (mmap_pos p) (parent p)
    (children p) (exit_code p) o u k (cwd p) (fd_manager p).

(** [task/mod.rs:329-332] Process *)
Record Process : Type := mkProcess { proc_pid : Z; inner : PCB }.
(** [task/mod.rs:335-340] Process::new *)
Definition Process_new (pcb : PCB) : Process := mkProcess (pid pcb) pcb.

(** [ThreadInner] holds the flag [exit]. *)
(** [task/mod.rs:303-307] Thread *)
Record Thread : Type := mkThread { tid : Z; thread_proc : Z; exit : bool }.
(** [task/mod.rs:310-316] Thread::new *)
Definition Thread_new (procs : Z) : Thread := mkThread 0 procs false.

(** ** The kernel *)
Record kernel : Type := mkKernel {
  k_mm : mm;
  k_fs : fstore;
  kernel_space : MemorySet;     (** [KERNEL_SPACE] *)
  procs : gmap Z Process;
  threads : gmap Z Thread;
  queue : list Z;               (** [TASK_QUEUE]: the threads to run *)
  pid_top : Z;                  (** [PID_ALLOCATOR] *)
  next_key : Z;                 (** the next process or thread *)
  clock : nat → Z;              (** what the [n]th read of the timer gives *)
  clock_reads : nat;
}.
Definition k_set_mm (k : kernel) x := mkKernel x (k_fs k) (kernel_space k) (procs k) (threads k) (queue k) (pid_top k) (next_key k) (clock k) (clock_reads k).
Definition k_set_fs (k : kernel) x := mkKernel (k_mm k) x (kernel_space k) (procs k) (threads k) (queue k) (pid_top k) (next_key k) (clock k) (clock_reads k).
Definition k_set_kernel_space (k : kernel) x := mkKernel (k_mm k) (k_fs k) x (procs k) (threads k) (queue k) (pid_top k) (next_key k) (clock k) (clock_reads k).
Definition k_set_procs (k : kernel) x := mkKernel (k_mm k) (k_fs k) (kernel_space k) x (threads k) (queue k) (pid_top k) (next_key k) (clock k) (clock_reads k).
Definition k_set_threads (k : kernel) x := mkKernel (k_mm k) (k_fs k) (kernel_space k) (procs k) x (queue k) (pid_top k) (next_key k) (clock k) (clock_reads k).
Definition k_set_queue (k : kernel) x := mkKernel (k_mm k) (k_fs k) (kernel_space k) (procs k) (threads k) x (pid_top k) (next_key k) (clock k) (clock_reads k).
Definition k_set_pid_top (k : kernel) x := mkKernel (k_mm k) (k_fs k) (kernel_space k) (procs k) (threads k) (queue k) x (next_key k) (clock k) (clock_reads k).
Definition k_set_next_key (k : kernel) x := mkKernel (k_mm k) (k_fs k) (kernel_space k) (procs k) (threads k) (queue k) (pid_top k) x (clock k) (clock_reads k).
Definition k_set_clock_reads (k : kernel) x := mkKernel (k_mm k) (k_fs k) (kernel_space k) (procs k) (threads k) (queue k) (pid_top k) (next_key k) (clock k) x.

Abbreviation K := (M kernel).
Definition mm_ : lens kernel mm := Lens k_mm (λ x k, k_set_mm k x).
Definition fs_ : lens kernel fstore := Lens k_fs (λ x k, k_set_fs k x).
Definition in_mm {A} (m : M mm A) : K A := zoom mm_ m.
Definition in_fs {A} (m : FS A) : K A := zoom fs_ m.
(** Reading memory. *)
Definition with_ram {A} (f : pmem → outcome A) : K A := let* k := get in lift (f (ram (k_mm k))).
Definition modify_ram (f : pmem → pmem) : K unit :=
  in_mm (modify (λ s, mkMM (frame_allocator s) (f (ram s)))).

(** ** Time *)
Definition time_read : K Z :=
  let* k := get in
  put (k_set_clock_reads k (S (clock_reads k))) ;;
  ret (clock k (clock_reads k)).
(** [timer.rs:7-7] TICKS_PER_SEC *)
Definition TICKS_PER_SEC : Z := 100.
(** [timer.rs:8-8] MSEC_PER_SEC *)
Definition MSEC_PER_SEC : Z := 1000.
(** [timer.rs:9-9] USEC_PER_SEC *)
Definition USEC_PER_SEC : Z := 1000000.
(** [timer.rs:11-13] get_time *)
Definition get_time : K Z := time_read.
(** [timer.rs:15-17] get_time_us *)
Definition get_time_us : K Z := let* t := time_read in ret (t / (CLOCK_FREQ / USEC_PER_SEC)).
(** [timer.rs:18-20] get_time_ms *)
Definition get_time_ms : K Z := let* t := time_read in ret (t / (CLOCK_FREQ / MSEC_PER_SEC)).
(** [timer.rs:21-23] get_time_s *)
Definition get_time_s : K Z := let* t := time_read in ret (t / CLOCK_FREQ).

(** ** Processes and threads in the store *)
Definition proc_get (p : Z) : K Process := let* k := get in lift (unwrap (procs k !! p)).
Definition pcb_get (p : Z) : K PCB := let* pr := proc_get p in ret (inner pr).
Definition pcb_put (p : Z) (pcb : PCB) : K unit :=
  let* pr := proc_get p in
  modify (λ k, k_set_procs k (<[p := mkProcess (proc_pid pr) pcb]> (procs k))).
Definition fresh_key : K Z :=
  let* k := get in put (k_set_next_key k (next_key k + 1)) ;; ret (next_key k).
(** [Arc::new(process)]. *)
Definition proc_arc (pr : Process) : K Z :=
  let* p := fresh_key in
  modify (λ k, k_set_procs k (<[p := pr]> (procs k))) ;;
  ret p.
Definition thread_arc (t : Thread) : K Z :=
  let* id := fresh_key in
  modify (λ k, k_set_threads k (<[id := t]> (threads k))) ;;
  ret id.
Definition thread_get (t : Z) : K Thread := let* k := get in lift (unwrap (threads k !! t)).
Definition thread_set_exit (t : Z) : K unit :=
  let* th := thread_get t in
  modify (λ k, k_set_threads k (<[t := mkThread (tid th) (thread_proc th) true]> (threads k))).

(** ** The queue *)
(** [task/mod.rs:42-44] TaskQueue::push *)
Definition TaskQueue_push (runnable : Z) : K unit := modify (λ k, k_set_queue k (queue k ++ [runnable])).
(** [task/mod.rs:45-47] TaskQueue::len *)
Definition TaskQueue_len : K Z := let* k := get in ret (len (queue k)).
(** [task/mod.rs:48-50] TaskQueue::fetch *)
Definition TaskQueue_fetch : K (option Z) :=
  let* k := get in
  match queue k with
  | [] => ret None
  | r :: q => put (k_set_queue k q) ;; ret (Some r)
  end.

(** [task/mod.rs:394-399] PidAllocator::alloc_pid *)
Definition PidAllocator_alloc_pid : K Z :=
  let* k := get in
  let top := pid_top k +u 1 in
  put (k_set_pid_top k top) ;;
  ret (top -u 1).

(** [task/mod.rs:362-380] PCB::new *)
Definition PCB_new : K PCB :=
  let* ms := in_mm MemorySet_new_bare in
  let* fds := in_fs FdManager_new in
  ret (mkPCB 0 READY ProcessContext_new 0 ms 0 0 None Children_new 0 0 0 0 (str "/") fds).

(** ** Dropping processes *)
Definition child_refs (m : gmap Z Z) (p : Z) : nat := length (filter (λ e, e.2 = p) (map_to_list m)).
Definition refs_from (pcb : PCB) (p : Z) : nat :=
  (if decide (parent pcb = Some p) then 1 else 0) + child_refs (alive (children pcb)) p +
  child_refs (zombie (children pcb)) p.
(** [Arc::strong_count]. *)
Definition strong_count (k : kernel) (p : Z) : nat :=
  sum_list ((λ e, refs_from (inner e.2) p) <$> map_to_list (procs k)) +
  length (filter (λ e, thread_proc e.2 = p) (map_to_list (threads k))).
(** After a reference to [p] went away: drop the process if it was the last
    one, with its memory, and the references it held. *)
Fixpoint proc_release (fuel : nat) (p : Z) : K unit :=
  match fuel with
  | O => ret tt
  | S fuel =>
      let* k := get in
      match procs k !! p with
      | None => ret tt
      | Some pr =>
          if decide (strong_count k p = O) then
            modify (λ k, k_set_procs k (delete p (procs k))) ;;
            in_mm (MemorySet_drop (memory_set (inner pr))) ;;
            for_each (option_list (parent (inner pr)) ++ btree_values (alive (children (inner pr))) ++
                      btree_values (zombie (children (inner pr)))) (proc_release fuel)
          else ret tt
      end
  end.
(** Each drop removes a process. *)
Definition drop_proc_ref (p : Z) : K unit := let* k := get in proc_release (S (size (procs k))) p.
