(* ===== verification/SysProc.v ===== *)
(** * Process system calls ([syscall/process.rs], [task/proc.rs], parts of
    [syscall/mod.rs] and [syscall/fs.rs])

    Handlers take the key [self] of the calling thread.  Addresses that come
    from [translate] are physical, and memory is accessed through them byte
    by byte.  A handler that waits is a function that is called again when
    the task is polled; it returns nothing while it waits. *)

From stdpp Require Import sorting.
From S2P Require Import Prelude Addr PhysMem FrameAlloc PageTable UserMem MemorySet Inode Fd Kernel.

(** ** Helpers of the handlers *)
Definition self_proc (self : Z) : K Z := let* t := thread_get self in ret (thread_proc t).
(** [self.proc.inner.lock()], and assignment through the guard. *)
Definition my_pcb (self : Z) : K PCB := let* p := self_proc self in pcb_get p.
Definition my_pcb_put (self : Z) (pcb : PCB) : K unit := let* p := self_proc self in pcb_put p pcb.
Definition my_token (self : Z) : K Z := let* pcb := my_pcb self in ret (MemorySet_token (memory_set pcb)).

(** A string in user memory; [str_fuel] bounds its length. *)
Definition read_str (str_fuel : nat) (self ptr : Z) : K String :=
  let* token := my_token self in
  with_ram (λ m, translate_str str_fuel m token ptr).

(** [syscall/mod.rs:101-107] Thread::translate *)
Definition Thread_translate (self ptr : Z) : K Z :=
  let* token := my_token self in
  let* pa := with_ram (λ m, unwrap (PageTable_translate_va m (PageTable_from_token token) (VirtAddr_from ptr))) in
  lift (PhysAddr_get_mut pa).

(** The integer of a register that is cast to [isize] or [i32]. *)
Definition as_isize (v : Z) : Z := if v <? 2 ^ 63 then v else v - 2 ^ 64.
Definition as_i32 (v : Z) : Z := let w := v mod 2 ^ 32 in if w <? 2 ^ 31 then w else w - 2 ^ 32.

(** Prefixes and suffixes of strings. *)
Fixpoint strip_prefix (s pre : String) : option String :=
  match pre, s with
  | [], _ => Some s
  | c :: pre, d :: s => if c =? d then strip_prefix s pre else None
  | _ :: _, [] => None
  end.
Definition starts_with (s pre : String) : bool := match strip_prefix s pre with Some _ => true | None => false end.
Definition ends_with (s suf : String) : bool := starts_with (reverse s) (reverse suf).

(** [syscall/fs.rs:81-97] Thread::get_abs_path *)
Definition Thread_get_abs_path (self : Z) (path : String) : K (String * String) :=
  if starts_with path (str "/") then
    ret (str "/", default path (strip_prefix path (str "/")))
  else
    let* pcb := my_pcb self in
    let* rel_path :=
      if starts_with path (str "./") then lift (unwrap (strip_prefix path (str "./"))) else ret path in
    ret (cwd pcb, rel_path).

(** ** [sys_clone] *)
(** [syscall/process.rs:41-81] CloneFlags *)
Definition CloneFlags_all : Z := foldr (λ i, Z.lor (Z.shiftl 1 i)) 0 (seqZ 7 18).
Definition CLONE_SETTLS : Z := Z.shiftl 1 19.
(** [from_bits]: no other bits. *)
Definition CloneFlags_from_bits (bits : Z) : option Z :=
  if Z.ldiff bits CloneFlags_all =? 0 then Some bits else None.
Definition CloneFlags_contains (f g : Z) : bool := Z.land f g =? g.

Section linked.
Context (ld : linker_symbols).
(** The address of [user_loop]. *)
Context (user_loop_addr : Z).

(** The physical page of the trap frame in an address space. *)
Definition trapframe_of (ms : MemorySet) : K Z :=
  let* vpn := lift (VirtPageNum_from_VirtAddr (VirtAddr_from TRAPFRAME)) in
  let* pte := with_ram (λ m, unwrap (MemorySet_translate m ms vpn)) in
  ret (PageTableEntry_ppn pte).

(** [KERNEL_SPACE.lock().insert_framed_area(..)] for the kernel stack. *)
(** [syscall/process.rs:142-146] Thread::sys_clone. The kernel stack. *)
Definition insert_kernel_stack (new_pid : Z) : K unit :=
  let* k := get in
  let* ks := in_mm (MemorySet_insert_framed_area (kernel_space k)
    (VirtAddr_from (TRAMPOLINE -u KERNEL_STACK_SIZE *u (new_pid +u 1)))
    (VirtAddr_from (TRAMPOLINE -u KERNEL_STACK_SIZE *u new_pid))
    (Z.lor MapPermission_R MapPermission_W)) in
  modify (λ k, k_set_kernel_space k ks).

(** [async_task::spawn(user_loop(thread), ..)] and [schedule]. *)
(** [syscall/process.rs:163-165] Thread::sys_clone. The new task. *)
Definition spawn_user_loop (thread : Thread) : K unit :=
  let* t := thread_arc thread in
  TaskQueue_push t.

(** [syscall/process.rs:111-167] Thread::sys_clone *)
Definition sys_clone (self flags stack ptid tls ctid : Z) : K Z :=
  let* proc := self_proc self in
  let* pcb := pcb_get proc in
  let* new_pid := PidAllocator_alloc_pid in
  let* flags := lift (unwrap (CloneFlags_from_bits (Z.land (flags mod 2 ^ 32) (2 ^ 32 - 1 - 0x3f)))) in
  let* new_pcb := PCB_new in
  let* memory_set' := in_mm (MemorySet_from_existed_user ld (memory_set pcb)) in
  in_mm (MemorySet_drop (memory_set new_pcb)) ;;
  let* tf := trapframe_of memory_set' in
  let* new_trapframe := lift (PhysPageNum_get_mut tf) in
  let* old_trapframe := lift (PhysPageNum_get_mut (trapframe_ppn pcb)) in
  modify_ram (λ m, store_bytes m new_trapframe (load_bytes m old_trapframe size_of_TrapFrame)) ;;
  modify_ram (λ m, store_usize m (new_trapframe + 8 * 10) 0) ;;
  modify_ram (λ m, store_usize m (new_trapframe + 8 * KERNEL_SP) (TRAMPOLINE -u KERNEL_STACK_SIZE *u new_pid)) ;;
  insert_kernel_stack new_pid ;;
  (if negb (stack =? 0) then modify_ram (λ m, store_usize m (new_trapframe + 8 * 2) stack) else ret tt) ;;
  (if CloneFlags_contains flags CLONE_SETTLS then modify_ram (λ m, store_usize m (new_trapframe + 8 * 4) tls) else ret tt) ;;
  let context' := mkContext user_loop_addr (TRAMPOLINE -u KERNEL_STACK_SIZE *u new_pid) (s_regs (context pcb)) in
  let new_pcb := mkPCB new_pid READY context' tf memory_set' (heap_pos pcb) (mmap_pos pcb) (Some proc)
    (children new_pcb) (exit_code new_pcb) (otime new_pcb) (utime new_pcb) (ktime new_pcb) (cwd new_pcb)
    (fd_manager pcb) in
  let* new_proc := proc_arc (Process_new new_pcb) in
  let* pcb := pcb_get proc in
  pcb_put proc (pcb_set_children pcb
    (mkChildren (<[new_pid := new_proc]> (alive (children pcb))) (zombie (children pcb)))) ;;
  spawn_user_loop (Thread_new new_proc) ;;
  ret new_pid.

(** ** Exit, process ids *)
(** [sbi.rs:36-39] shutdown *)
Definition shutdown {A} : K A := throw Shutdown.

(** [syscall/process.rs:85-101] Thread::sys_exit *)
Definition sys_exit (self exit_code : Z) : K Z :=
  let* proc := self_proc self in
  let* pcb := pcb_get proc in
  pcb_put proc (pcb_set_exit pcb ZOMBIE exit_code) ;;
  match parent pcb with
  | Some nuclear =>
      let* x := pcb_get nuclear in
      let* c := lift (Children_turn_into_zombie (children x) (pid pcb)) in
      pcb_put nuclear (pcb_set_children x c)
  | None => shutdown
  end ;;
  thread_set_exit self ;;
  ret 0.

(** [syscall/process.rs:103-105] Thread::sys_getpid *)
Definition sys_getpid (self : Z) : K Z :=
  let* p := self_proc self in let* pr := proc_get p in ret (proc_pid pr).
(** [syscall/process.rs:106-108] Thread::sys_getppid *)
Definition sys_getppid (self : Z) : K Z :=
  let* pcb := my_pcb self in
  let* q := lift (unwrap (parent pcb)) in
  let* pr := proc_get q in
  ret (proc_pid pr).

(** ** [sys_waitpid] *)
(** [BTreeMap::first_key_value]. *)
Definition btree_first (m : gmap Z Z) : option (Z * Z) := head (merge_sort key_le (map_to_list m)).

(** Taking a zombie out of the children, and storing its exit code. *)
(** [syscall/process.rs:268-278] Thread::sys_waitpid. A zombie is taken; 284-288 is the same. *)
Definition reap (self : Z) (status zpid zproc : Z) : K unit :=
  let* z := pcb_get zproc in
  (if negb (status =? 0)
   then modify_ram (λ m, store_usize m status (wrap64 (Z.shiftl (exit_code z) 8))) else ret tt) ;;
  let* pcb := my_pcb self in
  my_pcb_put self (pcb_set_children pcb
    (mkChildren (alive (children pcb)) (delete zpid (zombie (children pcb))))) ;;
  drop_proc_ref zproc.

(** [syscall/process.rs:255-281] Thread::sys_waitpid. The loop of the wait for
    any child; the result, or nothing if the task yields. *)
Definition waitpid_any (self status options : Z) : K (option Z) :=
  let* pcb := my_pcb self in
  match btree_first (zombie (children pcb)) with
  | None => if options >? 0 then ret (Some 0) else ret None
  | Some (zpid, zproc) =>
      reap self status zpid zproc ;;
      ret (Some (as_isize zpid))
  end.

(** [syscall/process.rs:243-294] Thread::sys_waitpid *)
Definition sys_waitpid (self wait_pid status options : Z) : K (option Z) :=
  let* pcb := my_pcb self in
  if Z.of_nat (size (alive (children pcb))) + Z.of_nat (size (zombie (children pcb))) =? 0 then
    ret (Some (if options >? 0 then 0 else -1))
  else if wait_pid =? -1 then waitpid_any self status options
  else
    match zombie (children pcb) !! wrap64 wait_pid with
    | Some zproc => reap self status (wrap64 wait_pid) zproc ;; ret (Some 0)
    | None => ret (Some (-1))
    end.

(** ** [sys_exec] *)
(** The value of the CSR [sstatus], and the ELF parser. *)
Context (sstatus0 : Z) (elf_new : list Z → option ElfFile).

(** The two views of the stack pointer: kernel (physical) and user. *)
Record stack_pos : Type := mkStack { stack_k : Z; stack_u : Z }.
(** One word: both pointers go down and [v], which may use the new user
    pointer, is stored. *)
Definition push_word (st : stack_pos) (v : Z → Z) : K stack_pos :=
  let st := mkStack (stack_k st -u 8) (stack_u st -u 8) in
  modify_ram (λ m, store_usize m (stack_k st) (v (stack_u st))) ;;
  ret st.
(** [task/proc.rs:44-55] Thread::exec_from_elf. One argument string: stored
    with its zero byte; its address is added to [pos]. *)
Definition push_arg (acc : stack_pos * list Z) (s : String) : K (stack_pos * list Z) :=
  let '(st, pos) := acc in
  let src := as_bytes (s ++ [0]) in
  let st := mkStack (stack_k st -u len src) (stack_u st -u len src) in
  modify_ram (λ m, store_bytes m (stack_k st) src) ;;
  ret (st, pos ++ [stack_u st]).

(** [task/proc.rs:19-158] Thread::exec_from_elf *)
Definition exec_from_elf (self : Z) (elf_file : ElfFile) (argvs : list String) : K Z :=
  let* '(user_pagetable, heap_pos', user_stack, entry) := in_mm (MemorySet_from_elf ld elf_file) in
  let* nowproc := my_pcb self in
  let* tf := trapframe_of user_pagetable in
  let* fds := in_fs (FdManager_close_on_exec (fd_manager nowproc)) in
  let* pa := with_ram (λ m, unwrap (PageTable_translate_va m
    (PageTable_from_token (MemorySet_token user_pagetable)) (VirtAddr_from (user_stack -u 8)))) in
  let* base := lift (PhysAddr_get_mut pa) in
  let pos_env := [0] in
  let* '(st, pos) := fold_m push_arg argvs (mkStack (base +u 8) user_stack, []) in
  let argc := len argvs in
  let pos := pos ++ [0] in
  let* st := push_word st (λ _, 0) in
  let* st := push_word st (λ _, 0) in
  let* st := push_word st (λ _, 0x1000) in
  let* st := push_word st (λ _, 6) in
  let* st := push_word st (λ u, u) in
  let* st := push_word st (λ _, 25) in
  let* st := fold_m (λ st v, push_word st (λ _, v)) (reverse pos_env) st in
  let* st := fold_m (λ st v, push_word st (λ _, v)) (reverse pos) st in
  let* st := push_word st (λ _, argc) in
  let* k := get in
  let cx := TrapFrame_app_init_context sstatus0 entry (stack_u st) (MemorySet_token (kernel_space k))
              (TRAMPOLINE -u KERNEL_STACK_SIZE *u pid nowproc) 0 in
  let* tf_pa := lift (PhysPageNum_get_mut tf) in
  modify_ram (λ m, store_bytes m tf_pa (TrapFrame_bytes cx)) ;;
  my_pcb_put self (mkPCB (pid nowproc) (state nowproc) (context nowproc) tf user_pagetable
    (VirtAddr_from heap_pos') (VirtAddr_from 0x100000000) (parent nowproc) (children nowproc)
    (exit_code nowproc) (otime nowproc) (utime nowproc) (ktime nowproc) (cwd nowproc) fds) ;;
  in_mm (MemorySet_drop (memory_set nowproc)) ;;
  ret 0.

(** [syscall/process.rs:183-193] Thread::sys_exec. The loop over the argument
    pointers; [arg_fuel] bounds their number, [str_fuel] their lengths. *)
Fixpoint exec_args (arg_fuel str_fuel : nat) (self argv argc : Z) (argvs : list String) : K (list String) :=
  match arg_fuel with
  | O => throw Fuel
  | S arg_fuel =>
      let* pa := Thread_translate self (argv +u argc *u 8) in
      let* argv_i_ptr := with_ram (λ m, Ok (load_usize m pa)) in
      if argv_i_ptr =? 0 then ret argvs
      else
        let* s := read_str str_fuel self argv_i_ptr in
        exec_args arg_fuel str_fuel self argv (argc +u 1) (argvs ++ [s])
  end.

(** [syscall/process.rs:169-237] Thread::sys_exec *)
Definition sys_exec (arg_fuel str_fuel : nat) (self buf argv : Z) : K Z :=
  let* path := read_str str_fuel self buf in
  let* '(dir, n) := Thread_get_abs_path self path in
  let path := dir ++ n in
  let* argvs := exec_args arg_fuel str_fuel self argv 0 [] in
  let '(path, argvs) :=
    if ends_with path (str ".sh") then (str "/busybox", str "busybox" :: str "sh" :: argvs)
    else (path, argvs) in
  let* found := in_fs (GlobalDentryCache_get path) in
  match found with
  | Some i =>
      let* node := in_fs (inode_get i) in
      match elf_new (view file_data node) with
      | Some elf_file => exec_from_elf self elf_file argvs
      | None =>
          in_fs (zoom fs_console (print (str "[execve] " ++ path ++ str " : exec error." ++ [10]))) ;;
          sys_exit self (-1) ;;
          ret (-1)
      end
  | None =>
      in_fs (zoom fs_console (print (str "[execve] " ++ path ++ str " : not found." ++ [10]))) ;;
      sys_exit self (-1) ;;
      ret (-1)
  end.
End linked.
