(* ===== verification/SysFs.v ===== *)
(** * File system calls ([syscall/fs.rs], parts of [syscall/mm.rs])

    Descriptors are indices into the process's array of open files; an index
    outside it is an out-of-bounds panic unless the handler checks it.  User
    buffers are page slices of physical memory.  [sys_read] may suspend the
    task, with the open file locked; what is left to do is its state. *)

From S2P Require Import Prelude Addr PhysMem FrameAlloc PageTable UserMem MemorySet Inode Fd Kernel SysProc.

(** The bytes of a slice, and writing them. *)
Definition slice_read_ram (sl : page_slice) : K (list Z) := with_ram (λ m, Ok (slice_bytes m sl)).
Definition slice_write_ram (sl : page_slice) (bs : list Z) : K unit :=
  modify_ram (λ m, set_bytes_array m (slice_ppn sl)
    (splice (get_bytes_array m (slice_ppn sl)) (Z.to_nat (slice_lo sl)) bs)).
(** [sl[i] = b]. *)
Definition slice_set_ram (sl : page_slice) (i b : Z) : K unit :=
  let* bs := slice_read_ram sl in
  let* bs := lift (set_idx bs i b) in
  slice_write_ram sl bs.

(** [self.proc.inner.lock().fd_manager.fd_array[fd]]. *)
Definition my_fd (self fd : Z) : K Z :=
  let* pcb := my_pcb self in lift (idx (fd_array (fd_manager pcb)) fd).
Definition user_buffers (self buf ln : Z) : K (list page_slice) :=
  let* token := my_token self in
  with_ram (λ m, translated_byte_buffer m token buf ln).

(** ** Paths *)
(** [syscall/fs.rs:59-79] Thread::sys_getcwd *)
Definition sys_getcwd (self buf size : Z) : K Z :=
  let* pcb := my_pcb self in
  let cwd_bytes := as_bytes (cwd pcb) in
  if size <? len cwd_bytes + 1 then ret (-1)
  else
    let* buffers := user_buffers self buf (len cwd_bytes + 1) in
    for_each (imap (λ i b, (Z.of_nat i, b)) cwd_bytes) (λ ib,
      let* b0 := lift (idx buffers 0) in
      slice_set_ram b0 (fst ib) (snd ib)) ;;
    let* b0 := lift (idx buffers 0) in
    slice_set_ram b0 (len cwd_bytes) 0 ;;
    ret (len cwd_bytes + 1).

(** [syscall/fs.rs:600-610] Thread::sys_chdir *)
Definition sys_chdir (str_fuel : nat) (self path : Z) : K Z :=
  let* path := read_str str_fuel self path in
  let* pcb := my_pcb self in
  my_pcb_put self (pcb_set_cwd pcb (cwd pcb ++ path ++ str "/")) ;;
  ret 0.

(** ** Opening and closing *)
(** [syscall/fs.rs:110-115] Thread::sys_openat. The access flags; 136-141 is
    the same expression. *)
Definition openat_access (flags : Z) : bool * bool :=
  (negb (Z.lor (Z.lxor flags (of_bits RDONLY)) (Z.lxor flags (of_bits RDWR)) =? 0),
   negb (Z.lor (Z.lxor flags (of_bits WRONLY)) (Z.lxor flags (of_bits RDWR)) =? 0)).

(** [syscall/fs.rs:99-167] Thread::sys_openat *)
Definition sys_openat (str_fuel : nat) (self dirfd path flags : Z) : K Z :=
  let* path := read_str str_fuel self path in
  let* '(start_dir_path, rel_path) := Thread_get_abs_path self path in
  let abs_path := start_dir_path ++ rel_path in
  let flags := flags mod 2 ^ 32 in
  let* found := in_fs (GlobalDentryCache_get abs_path) in
  let* inode :=
    match found with
    | Some inode => ret inode
    | None =>
        in_fs (zoom fs_console (print (str "CREATING new file." ++ [10]))) ;;
        let* new_inode := in_fs (inode_new (IReg (mkRegFile true true start_dir_path rel_path
          Timespec_default Timespec_default Timespec_default (OpenFlags_new flags) []))) in
        in_fs (GlobalDentryCache_insert abs_path new_inode) ;;
        ret new_inode
    end in
  let '(r, w) := openat_access flags in
  let* open_file := in_fs (open_file_arc (OpenFile_new_from_inode r w inode)) in
  let* pcb := my_pcb self in
  let '(fds, fd) := FdManager_push (fd_manager pcb) open_file in
  my_pcb_put self (pcb_set_fds pcb fds) ;;
  ret (as_isize fd).

(** [syscall/fs.rs:199-207] Thread::sys_close *)
Definition sys_close (self fd : Z) : K Z :=
  let* pcb := my_pcb self in
  if wrap64 fd >=? FdManager_len (fd_manager pcb) then ret (-1)
  else
    let* fds := in_fs (FdManager_close (fd_manager pcb) (wrap64 fd)) in
    my_pcb_put self (pcb_set_fds pcb fds) ;;
    ret 0.

(** [syscall/fs.rs:452-456] Thread::sys_dup *)
Definition sys_dup (self fd : Z) : K Z :=
  let* pcb := my_pcb self in
  let* '(fds, n) := lift (FdManager_dup (fd_manager pcb) (wrap64 fd)) in
  my_pcb_put self (pcb_set_fds pcb fds) ;;
  ret (as_isize n).
(** [syscall/fs.rs:457-462] Thread::sys_dup3 *)
Definition sys_dup3 (self fd new_fd flags : Z) : K Z :=
  let* pcb := my_pcb self in
  let* '(fds, n) := in_fs (FdManager_dup3 (fd_manager pcb) (wrap64 fd) (wrap64 new_fd)) in
  my_pcb_put self (pcb_set_fds pcb fds) ;;
  ret (as_isize n).

(** [pipe] is a physical address. *)
(** [syscall/fs.rs:743-761] Thread::sys_pipe2 *)
Definition sys_pipe2 (self pipe : Z) : K Z :=
  let* pcb := my_pcb self in
  let* pipe_inode := in_fs (inode_new (IPipe PipeINode_new_pipe)) in
  let* r := in_fs (open_file_arc (OpenFile_new_from_inode true false pipe_inode)) in
  let '(fds, read_fd) := FdManager_push (fd_manager pcb) r in
  let* w := in_fs (open_file_arc (OpenFile_new_from_inode false true pipe_inode)) in
  let '(fds, write_fd) := FdManager_push fds w in
  my_pcb_put self (pcb_set_fds pcb fds) ;;
  modify_ram (λ m, store_bytes m pipe (le32 (read_fd mod 2 ^ 32))) ;;
  modify_ram (λ m, store_bytes m (pipe + 4) (le32 (write_fd mod 2 ^ 32))) ;;
  ret 0.

(** ** Writing *)
(** [syscall/fs.rs:220-228] Thread::sys_write. The loop over the buffers. *)
Fixpoint write_buffers (file : Z) (buffers : list page_slice) (sum : Z) : K Z :=
  match buffers with
  | [] => ret sum
  | buffer :: buffers =>
      let* o := in_fs (of_get file) in
      let* bs := slice_read_ram buffer in
      let* res := in_fs (with_inode (of_inode o) (write_at (offset o) bs)) in
      let* write_in := lift (unwrap_r res) in
      in_fs (of_set_offset file (offset o +u write_in)) ;;
      write_buffers file buffers (sum +u write_in)
  end.
(** [syscall/fs.rs:210-230] Thread::sys_write *)
Definition sys_write (self fd buf ln : Z) : K Z :=
  let* file := my_fd self fd in
  in_fs (of_lock file) ;;
  let* o := in_fs (of_get file) in
  if negb (writable o) then in_fs (of_unlock file) ;; ret (-1)
  else
    let* buffers := user_buffers self buf ln in
    let* sum := write_buffers file buffers 0 in
    in_fs (of_unlock file) ;;
    ret (as_isize sum).

(** [iov] is a physical address; results are added as [isize]. *)
(** [syscall/fs.rs:232-242] Thread::sys_writev *)
Definition sys_writev (self fd iov ln : Z) : K Z :=
  fold_m (λ sum i,
    let* buf := with_ram (λ m, Ok (load_usize m (iov + 8 * (i * 2)))) in
    let* size := with_ram (λ m, Ok (load_usize m (iov + 8 * (i * 2 + 1)))) in
    let* n := sys_write self fd buf size in
    ret (as_isize (wrap64 (sum + n)))) (seqZ 0 ln) 0.

(** ** Reading *)
(** What is left of a read: the buffers not yet tried, and the sum. *)
Record read_state : Type := mkRead { rd_file : Z; rd_buffers : list page_slice; rd_sum : Z }.

(** [syscall/fs.rs:370-388] Thread::sys_read. The loop over the buffers, up to
    the end or to a read of nothing, where the task yields. *)
Fixpoint read_buffers (file : Z) (buffers : list page_slice) (sum : Z) : K (Z + read_state) :=
  match buffers with
  | [] =>
      in_fs (of_unlock file) ;;
      ret (inl (as_isize sum))
  | buffer :: buffers =>
      let* o := in_fs (of_get file) in
      let* bs := slice_read_ram buffer in
      let* '(res, bs) := in_fs (with_inode (of_inode o) (read_at (offset o) bs)) in
      slice_write_ram buffer bs ;;
      let* read_in := lift (unwrap_r res) in
      in_fs (of_set_offset file (offset o +u read_in)) ;;
      let sum := sum +u read_in in
      if read_in >? 0 then read_buffers file buffers sum
      else ret (inr (mkRead file buffers sum))
  end.
(** When the task is polled again. *)
Definition sys_read_resume (st : read_state) : K (Z + read_state) :=
  read_buffers (rd_file st) (rd_buffers st) (rd_sum st).
(** [syscall/fs.rs:357-390] Thread::sys_read *)
Definition sys_read (self fd buf ln : Z) : K (Z + read_state) :=
  let* file := my_fd self fd in
  in_fs (of_lock file) ;;
  let* o := in_fs (of_get file) in
  if negb (readable o) then in_fs (of_unlock file) ;; ret (inl (-1))
  else
    let* buffers := user_buffers self buf ln in
    read_buffers file buffers 0.

(** A vector of reads: the part that waits, the index of the next one, the sum. *)
Record readv_state : Type := mkReadv { rv_read : read_state; rv_fd : Z; rv_iov : Z; rv_len : Z; rv_next : Z; rv_sum : Z }.
(** [syscall/fs.rs:245-251] Thread::sys_readv. The passes from [i] on. *)
Fixpoint readv_loop (n : nat) (self fd iov ln i sum : Z) : K (Z + readv_state) :=
  match n with
  | O => ret (inl sum)
  | S n =>
      let* buf := with_ram (λ m, Ok (load_usize m (iov + 8 * (i * 2)))) in
      let* size := with_ram (λ m, Ok (load_usize m (iov + 8 * (i * 2 + 1)))) in
      let* r := sys_read self fd buf size in
      match r with
      | inl v => readv_loop n self fd iov ln (i + 1) (as_isize (wrap64 (sum + v)))
      | inr st => ret (inr (mkReadv st fd iov ln (i + 1) sum))
      end
  end.
(** [syscall/fs.rs:243-253] Thread::sys_readv *)
Definition sys_readv (self fd iov ln : Z) : K (Z + readv_state) :=
  readv_loop (Z.to_nat ln) self fd iov ln 0 0.
Definition sys_readv_resume (self : Z) (st : readv_state) : K (Z + readv_state) :=
  let* r := sys_read_resume (rv_read st) in
  match r with
  | inl v => readv_loop (Z.to_nat (rv_len st - rv_next st)) self (rv_fd st) (rv_iov st) (rv_len st)
               (rv_next st) (as_isize (wrap64 (rv_sum st + v)))
  | inr rd => ret (inr (mkReadv rd (rv_fd st) (rv_iov st) (rv_len st) (rv_next st) (rv_sum st)))
  end.

(** ** [sys_sendfile] *)
(** [syscall/fs.rs:169-196] Thread::sys_sendfile *)
Definition sys_sendfile (self out_fd in_fd offset_ptr count : Z) : K Z :=
  let* inf := my_fd self in_fd in
  in_fs (of_lock inf) ;;
  let* outf := my_fd self out_fd in
  in_fs (of_lock outf) ;;
  let buf := replicate (Z.to_nat count) 0 in
  let* count_in :=
    if offset_ptr =? 0 then
      let* i := in_fs (of_get inf) in
      let* '(res, buf) := in_fs (with_inode (of_inode i) (read_at (offset i) buf)) in
      let* count_in := lift (unwrap_r res) in
      let* o := in_fs (of_get outf) in
      let* src := lift (slice buf 0 count_in) in
      let* res := in_fs (with_inode (of_inode o) (write_at (offset o) src)) in
      lift (unwrap_r res) ;;
      in_fs (of_set_offset inf (offset i +u count_in)) ;;
      in_fs (of_set_offset outf (offset o +u count_in)) ;;
      ret count_in
    else
      let* ptr := Thread_translate self offset_ptr in
      let* off := with_ram (λ m, Ok (load_usize m ptr)) in
      let* i := in_fs (of_get inf) in
      let* '(res, buf) := in_fs (with_inode (of_inode i) (read_at off buf)) in
      let* count_in := lift (unwrap_r res) in
      let* o := in_fs (of_get outf) in
      let* src := lift (slice buf 0 count_in) in
      in_fs (with_inode (of_inode o) (write_at (offset o) src)) ;;
      in_fs (of_set_offset outf (offset o +u count_in)) ;;
      let* off := with_ram (λ m, Ok (load_usize m ptr)) in
      modify_ram (λ m, store_usize m ptr (off +u count_in)) ;;
      ret count_in in
  in_fs (of_unlock outf) ;;
  in_fs (of_unlock inf) ;;
  ret (as_isize count_in).

(** ** File status *)
(** [pad] is what the padding of the structure on the kernel stack holds. *)
Definition stat_of (pad : list Z) (node : inode) : list Z :=
  Stat_bytes pad (Stat_set_size Stat_new (file_size node mod 2 ^ 32)).

(** [syscall/fs.rs:614-643] Thread::sys_fstatat *)
Definition sys_fstatat (pad : list Z) (str_fuel : nat) (self dirfd path buf flags : Z) : K Z :=
  let* path := read_str str_fuel self path in
  let* '(dir, rel) := Thread_get_abs_path self path in
  let abs_path := dir ++ rel in
  let* found := in_fs (GlobalDentryCache_get abs_path) in
  match found with
  | None => ret (-1)
  | Some i =>
      let* node := in_fs (inode_get i) in
      let* token := my_token self in
      in_mm (copy_out token buf (stat_of pad node) size_of_Stat) ;;
      ret 0
  end.

(** [syscall/fs.rs:645-677] Thread::sys_fstat *)
Definition sys_fstat (pad : list Z) (self fd buf : Z) : K Z :=
  let fd := wrap64 fd in
  let* pcb := my_pcb self in
  if fd >=? FdManager_len (fd_manager pcb) then ret (-1)
  else
    let* file := my_fd self fd in
    in_fs (of_lock file) ;;
    let* o := in_fs (of_get file) in
    let* node := in_fs (inode_get (of_inode o)) in
    in_fs (of_unlock file) ;;
    let* token := my_token self in
    in_mm (copy_out token buf (stat_of pad node) size_of_Stat) ;;
    ret 0.

(** ** Directories *)
(** [str::split('/')]. *)
Fixpoint split_slash (cur s : String) : list String :=
  match s with
  | [] => [cur]
  | c :: s => if c =? 47 then cur :: split_slash [] s else split_slash (cur ++ [c]) s
  end.

(** [syscall/fs.rs:562-594] Thread::sys_mkdirat. One pass of the loop: the
    current directory and its name. *)
Definition mkdirat_step (mode : Z) (cur : Z * String) (next_dir_name : String) : K (Z * String) :=
  let '(current_dir, current_dir_name) := cur in
  if decide (next_dir_name = []) then ret cur
  else
    let* node := in_fs (inode_get current_dir) in
    let* next_dir :=
      match find node next_dir_name with
      | ok next_dir => ret next_dir
      | err _ =>
          in_fs (inode_new (IReg (mkRegFile true true current_dir_name current_dir_name
            Timespec_default Timespec_default Timespec_default (OpenFlags_new mode) [])))
      end in
    ret (next_dir, next_dir_name).
(** [syscall/fs.rs:539-596] Thread::sys_mkdirat *)
Definition sys_mkdirat (str_fuel : nat) (self fd path mode : Z) : K Z :=
  let fd := wrap64 fd in
  let mode := mode mod 2 ^ 16 in
  let* path := read_str str_fuel self path in
  let* pcb := my_pcb self in
  if fd >=? FdManager_len (fd_manager pcb) then ret 0
  else
    let* file := my_fd self fd in
    in_fs (of_lock file) ;;
    let* o := in_fs (of_get file) in
    in_fs (of_unlock file) ;;
    fold_m (mkdirat_step mode) (split_slash [] path) (of_inode o, str "/") ;;
    ret 0.

(** [syscall/fs.rs:255-257] Thread::sys_umount *)
Definition sys_umount : K Z := ret 0.
(** The rest of both bodies follows a [return 0]. *)
(** [syscall/fs.rs:392-393] Thread::sys_getdents64 *)
Definition sys_getdents64 (self fd buf ln : Z) : K Z := ret 0.
(** [syscall/fs.rs:700-701] Thread::sys_unlinkat *)
Definition sys_unlinkat (self fd path flags : Z) : K Z := ret 0.

(** ** Descriptor flags and offsets *)
Definition set_close_on_exec (file : Z) (flag : bool) : K Z :=
  in_fs (of_lock file) ;;
  let* o := in_fs (of_get file) in
  let '(o, r) := OpenFile_set_close_on_exec o flag in
  in_fs (of_put file o) ;;
  in_fs (of_unlock file) ;;
  ret r.
(** [syscall/mm.rs:134-153] Thread::sys_fcntl *)
Definition sys_fcntl (self fd cmd arg : Z) : K Z :=
  if cmd =? 2 then
    let* file := my_fd self fd in
    set_close_on_exec file (negb (Z.land arg 1 =? 0))
  else if cmd =? 1030 then
    let* file := my_fd self fd in
    set_close_on_exec file (negb (Z.land arg 1 =? 0)) ;;
    let* pcb := my_pcb self in
    let* '(fds, n) := lift (FdManager_dup (fd_manager pcb) fd) in
    my_pcb_put self (pcb_set_fds pcb fds) ;;
    ret (as_isize n)
  else ret 0.

(** [open_file.lock().offset = off]. *)
Definition locked_set_offset (file off : Z) : K unit :=
  in_fs (of_lock file) ;;
  in_fs (of_set_offset file off) ;;
  in_fs (of_unlock file).
Definition locked_get (file : Z) : K OpenFile :=
  in_fs (of_lock file) ;;
  let* o := in_fs (of_get file) in
  in_fs (of_unlock file) ;;
  ret o.
(** [syscall/mm.rs:154-180] Thread::sys_lseek *)
Definition sys_lseek (self fd off whence : Z) : K Z :=
  let* file := my_fd self fd in
  if whence =? 0 then
    locked_set_offset file off ;;
    ret (as_isize off)
  else if whence =? 1 then
    let* o := locked_get file in
    locked_set_offset file (offset o +u off) ;;
    let* o := locked_get file in
    ret (as_isize (offset o))
  else if whence =? 2 then
    let* o := locked_get file in
    let* node := in_fs (inode_get (of_inode o)) in
    let ln := file_size node in
    locked_set_offset file (ln +u off) ;;
    ret (as_isize (ln +u off))
  else ret (-1).
