(* ===== verification/Syscall.v ===== *)
(** * Memory and time system calls, and the dispatcher ([syscall/mm.rs],
    [syscall/interrupt.rs], [syscall/mod.rs], [signal/sig.rs])

    [syscall] either returns a value or suspends the task with what is left to
    do, a [pending]; [resume] goes on with it when the task is polled. *)

From S2P Require Import Prelude Addr PhysMem FrameAlloc PageTable UserMem MemorySet Inode Fd Kernel SysProc SysFs Mount.

(** ** Memory *)
Definition user_rw : Z := Z.lor (Z.lor MapPermission_R MapPermission_W) MapPermission_U.

(** [syscall/mm.rs:17-68] Thread::sys_brk *)
Definition sys_brk (self _brk : Z) : K Z :=
  let* pcb := my_pcb self in
  let end_ := usize_from_VirtAddr (heap_pos pcb) in
  if _brk =? 0 then ret (as_isize end_)
  else if end_ =? _brk then ret 0
  else if end_ <? _brk then
    let* area := lift (MapArea_new (VirtAddr_from end_) (VirtAddr_from _brk) Framed user_rw) in
    let* ms := in_mm (MemorySet_push (memory_set pcb) area None) in
    my_pcb_put self (pcb_set_mem pcb ms _brk (mmap_pos pcb)) ;;
    ret (as_isize _brk)
  else throw Explicit.

(** [syscall/mm.rs:70-129] Thread::sys_mmap *)
Definition sys_mmap (self start ln prot flag fd off : Z) : K Z :=
  let* pcb := my_pcb self in
  let startva := if start =? 0 then VirtAddr_ceil_align (mmap_pos pcb) else start in
  if fd =? usize_MAX then
    if (start >? 0) && (start <=? VirtAddr_ceil_align (heap_pos pcb)) then ret (as_isize startva)
    else
      let* area := lift (MapArea_new (VirtAddr_from startva) (VirtAddr_from (startva +u ln)) Framed user_rw) in
      let* ms := in_mm (MemorySet_push (memory_set pcb) area None) in
      my_pcb_put self (pcb_set_mem pcb ms (heap_pos pcb) (VirtAddr_from (startva +u ln))) ;;
      ret (as_isize startva)
  else
    let* area := lift (MapArea_new (VirtAddr_from startva) (VirtAddr_from (startva +u ln)) Framed user_rw) in
    let* file := my_fd self fd in
    let* o := locked_get file in
    let* node := in_fs (inode_get (of_inode o)) in
    let* ms := in_mm (MemorySet_push (memory_set pcb) area (Some (view file_data node))) in
    my_pcb_put self (pcb_set_mem pcb ms (heap_pos pcb) (VirtAddr_from (startva +u ln))) ;;
    ret (as_isize startva).

(** [syscall/mm.rs:131-133] Thread::sys_munmap *)
Definition sys_munmap (start ln : Z) : K Z := ret 0.

(** ** Time *)
(** [syscall/interrupt.rs:10-19] utsname *)
Record utsname : Type := mkUtsname {
  sysname : list Z; nodename : list Z; release : list Z; version : list Z; machine : list Z; domainname : list Z;
}.
(** [[0; 65]] with a name copied to its start. *)
Definition uts_field (name : String) : list Z := splice (replicate 65 0) 0 (as_bytes name ++ [0]).
(** [syscall/interrupt.rs:21-52] utsname::new *)
Definition utsname_new : utsname :=
  mkUtsname (uts_field (str "MoOS")) (uts_field (str "localhost")) (uts_field (str "9.9.9"))
    (uts_field (str "9.9.9")) (uts_field (str "riscv64")) (uts_field (str "localhost")).
Definition utsname_bytes (u : utsname) : list Z :=
  sysname u ++ nodename u ++ release u ++ version u ++ machine u ++ domainname u.

(** [syscall/interrupt.rs:56-69] Thread::sys_gettimeofday *)
Definition sys_gettimeofday (self ptr : Z) : K Z :=
  let* t := Thread_translate self ptr in
  let* ts := get_time_us in
  modify_ram (λ m, store_usize m t (ts / 1000000)) ;;
  modify_ram (λ m, store_usize m (t + 8) (ts mod 1000000 *u 1000)) ;;
  ret 0.

(** [syscall/interrupt.rs:79-81] Thread::sys_nanosleep. One test of the wait
    until [ed]. *)
Definition nanosleep_wait (ed : Z) : K (option Z) :=
  let* now := get_time_us in
  if now <? ed then ret None else ret (Some 0).
(** [req] is a physical address; the time to wait for. *)
(** [syscall/interrupt.rs:70-83] Thread::sys_nanosleep *)
Definition sys_nanosleep (req rem : Z) : K Z :=
  let* st := get_time_us in
  let* tv_sec := with_ram (λ m, Ok (load_usize m req)) in
  let* tv_nsec := with_ram (λ m, Ok (load_usize m (req + 8))) in
  ret (st +u tv_sec *u 1000000 +u tv_nsec).

(** [syscall/interrupt.rs:85-93] Thread::sys_times *)
Definition sys_times (self tms : Z) : K Z :=
  let* pcb := my_pcb self in
  modify_ram (λ m, store_usize m tms (utime pcb)) ;;
  modify_ram (λ m, store_usize m (tms + 8) (ktime pcb)) ;;
  modify_ram (λ m, store_usize m (tms + 16) 0) ;;
  modify_ram (λ m, store_usize m (tms + 24) 0) ;;
  ret 0.

(** [syscall/interrupt.rs:104-129] Thread::sys_uname *)
Definition sys_uname (name : Z) : K Z :=
  modify_ram (λ m, store_bytes m name (utsname_bytes utsname_new)) ;;
  ret 0.

(** [signal/sig.rs:6-9] Thread::sys_sigaction *)
Definition sys_sigaction (self signum : Z) : K Z := ret 0.

(** ** Dispatch

    The numbers of the system calls. *)
Abbreviation SYSCALL_GETCWD := 17 (only parsing).
Abbreviation SYSCALL_DUP := 23 (only parsing).
Abbreviation SYSCALL_DUP3 := 24 (only parsing).
Abbreviation SYSCALL_IOCTL := 29 (only parsing).
Abbreviation SYSCALL_FCNTL := 25 (only parsing).
Abbreviation SYSCALL_MKDIRAT := 34 (only parsing).
Abbreviation SYSCALL_UNLINKAT := 35 (only parsing).
Abbreviation SYSCALL_UMOUNT := 39 (only parsing).
Abbreviation SYSCALL_MOUNT := 40 (only parsing).
Abbreviation SYSCALL_FACCESSAT := 48 (only parsing).
Abbreviation SYSCALL_CHDIR := 49 (only parsing).
Abbreviation SYSCALL_OPENAT := 56 (only parsing).
Abbreviation SYSCALL_CLOSE := 57 (only parsing).
Abbreviation SYSCALL_PIPE2 := 59 (only parsing).
Abbreviation SYSCALL_GETDENTS64 := 61 (only parsing).
Abbreviation SYSCALL_LSEEK := 62 (only parsing).
Abbreviation SYSCALL_READ := 63 (only parsing).
Abbreviation SYSCALL_WRITE := 64 (only parsing).
Abbreviation SYSCALL_READV := 65 (only parsing).
Abbreviation SYSCALL_WRITEV := 66 (only parsing).
Abbreviation SYSCALL_SENDFILE := 71 (only parsing).
Abbreviation SYSCALL_PPOLL := 73 (only parsing).
Abbreviation SYSCALL_FSTATAT := 79 (only parsing).
Abbreviation SYSCALL_FSTAT := 80 (only parsing).
Abbreviation SYSCALL_UTIMESTAT := 88 (only parsing).
Abbreviation SYSCALL_EXIT := 93 (only parsing).
Abbreviation SYSCALL_EXIT_GROUP := 94 (only parsing).
Abbreviation SYSCALL_SET_TID_ADDRESS := 96 (only parsing).
Abbreviation SYSCALL_SET_ROBUST_LIST := 99 (only parsing).
Abbreviation SYSCALL_GET_ROBUST_LIST := 100 (only parsing).
Abbreviation SYSCALL_NANOSLEEP := 101 (only parsing).
Abbreviation SYSCALL_CLOCK_GETTIME := 113 (only parsing).
Abbreviation SYSCALL_SYSLOG := 116 (only parsing).
Abbreviation SYSCALL_SCHED_YIELD := 124 (only parsing).
Abbreviation SYSCALL_KILL := 129 (only parsing).
Abbreviation SYSCALL_TGKILL := 131 (only parsing).
Abbreviation SYSCALL_SIGACTION := 134 (only parsing).
Abbreviation SYSCALL_SIGPROCMASK := 135 (only parsing).
Abbreviation SYSCALL_TIMES := 153 (only parsing).
Abbreviation SYSCALL_UNAME := 160 (only parsing).
Abbreviation SYSCALL_GETRLIMIT := 163 (only parsing).
Abbreviation SYSCALL_SETRLIMIT := 164 (only parsing).
Abbreviation SYSCALL_GETTIMEOFDAY := 169 (only parsing).
Abbreviation SYSCALL_GETPID := 172 (only parsing).
Abbreviation SYSCALL_GETPPID := 173 (only parsing).
Abbreviation SYSCALL_GETUID := 174 (only parsing).
Abbreviation SYSCALL_GETEUID := 175 (only parsing).
Abbreviation SYSCALL_GETGID := 176 (only parsing).
Abbreviation SYSCALL_GETEGID := 177 (only parsing).
Abbreviation SYSCALL_GETTID := 178 (only parsing).
Abbreviation SYSCALL_SYSINFO := 179 (only parsing).
Abbreviation SYSCALL_BRK := 214 (only parsing).
Abbreviation SYSCALL_MUNMAP := 215 (only parsing).
Abbreviation SYSCALL_CLONE := 220 (only parsing).
Abbreviation SYSCALL_EXECVE := 221 (only parsing).
Abbreviation SYSCALL_MMAP := 222 (only parsing).
Abbreviation SYSCALL_WAITPID := 260 (only parsing).
Abbreviation SYSCALL_PRLIMIT := 261 (only parsing).

(** What a suspended system call waits for. *)
Inductive pending : Type :=
  | PRead (st : read_state)
  | PReadv (st : readv_state)
  | PWait (status options : Z)
  | PSleep (ed : Z)
  | PYield.

Section linked.
Context (ld : linker_symbols) (user_loop_addr sstatus0 : Z) (elf_new : list Z → option ElfFile).
(** Bounds on the number and length of strings read from user memory, and the
    padding of [Stat]. *)
Context (arg_fuel str_fuel : nat) (pad : list Z).
(** The disk that [sys_mount] reads. *)
Context (disk : disk_env).

(** A call that does not suspend. *)
Definition at_once {A} (m : K Z) : K (Z + A) := let* r := m in ret (inl r).

(** Going on with a suspended call. *)
Definition resume (self : Z) (p : pending) : K (Z + pending) :=
  match p with
  | PRead st =>
      let* r := sys_read_resume st in
      ret (match r with inl v => inl v | inr st => inr (PRead st) end)
  | PReadv st =>
      let* r := sys_readv_resume self st in
      ret (match r with inl v => inl v | inr st => inr (PReadv st) end)
  | PWait status options =>
      let* r := waitpid_any self status options in
      ret (match r with Some v => inl v | None => inr (PWait status options) end)
  | PSleep ed =>
      let* r := nanosleep_wait ed in
      ret (match r with Some v => inl v | None => inr (PSleep ed) end)
  | PYield => ret (inl 0)
  end.

(** [syscall/mod.rs:120-221] Thread::syscall *)
Definition syscall (self syscall_id : Z) (args : list Z) : K (Z + pending) :=
  let arg i := args !!! i in
  let a0 := arg 0%nat in let a1 := arg 1%nat in let a2 := arg 2%nat in
  let a3 := arg 3%nat in let a4 := arg 4%nat in let a5 := arg 5%nat in
  match syscall_id with
  | SYSCALL_WRITE => at_once (sys_write self a0 a1 a2)
  | SYSCALL_WRITEV => at_once (let* iov := Thread_translate self a1 in sys_writev self a0 iov a2)
  | SYSCALL_EXIT => at_once (sys_exit self (as_i32 a0))
  | SYSCALL_EXIT_GROUP => at_once (sys_exit self (as_i32 a0))
  | SYSCALL_NANOSLEEP =>
      let* req := Thread_translate self a0 in
      let* rem := Thread_translate self a1 in
      let* ed := sys_nanosleep req rem in
      resume self (PSleep ed)
  | SYSCALL_READ =>
      let* r := sys_read self a0 a1 a2 in
      ret (match r with inl v => inl v | inr st => inr (PRead st) end)
  | SYSCALL_READV =>
      let* iov := Thread_translate self a1 in
      let* r := sys_readv self a0 iov a2 in
      ret (match r with inl v => inl v | inr st => inr (PReadv st) end)
  | SYSCALL_SCHED_YIELD => ret (inr PYield)
  | SYSCALL_GETTIMEOFDAY => at_once (sys_gettimeofday self a0)
  | SYSCALL_CLOCK_GETTIME => at_once (sys_gettimeofday self a1)
  | SYSCALL_GETPID => at_once (sys_getpid self)
  | SYSCALL_GETPPID => at_once (sys_getppid self)
  | SYSCALL_CLONE => at_once (sys_clone ld user_loop_addr self a0 a1 a2 a3 a4)
  | SYSCALL_EXECVE => at_once (sys_exec ld sstatus0 elf_new arg_fuel str_fuel self a0 a1)
  | SYSCALL_WAITPID =>
      let* status := if a1 =? 0 then ret 0 else Thread_translate self a1 in
      let* r := sys_waitpid self (as_isize a0) status a2 in
      ret (match r with Some v => inl v | None => inr (PWait status a2) end)
  | SYSCALL_TIMES => at_once (let* tms := Thread_translate self a0 in sys_times self tms)
  | SYSCALL_UMOUNT => at_once sys_umount
  | SYSCALL_MOUNT => at_once (in_fs (sys_mount disk))
  | SYSCALL_BRK => at_once (sys_brk self a0)
  | SYSCALL_OPENAT => at_once (sys_openat str_fuel self (as_isize a0) a1 (as_isize a2))
  | SYSCALL_CLOSE => at_once (sys_close self (as_isize a0))
  | SYSCALL_GETCWD => at_once (sys_getcwd self a0 a1)
  | SYSCALL_GETDENTS64 => at_once (let* buf := Thread_translate self a1 in sys_getdents64 self a0 buf a2)
  | SYSCALL_DUP => at_once (sys_dup self (as_isize a0))
  | SYSCALL_DUP3 => at_once (sys_dup3 self (as_isize a0) (as_isize a1) (as_isize a2))
  | SYSCALL_MKDIRAT => at_once (sys_mkdirat str_fuel self (as_isize a0) a1 a2)
  | SYSCALL_CHDIR => at_once (sys_chdir str_fuel self a0)
  | SYSCALL_FSTATAT => at_once (sys_fstatat pad str_fuel self (as_isize a0) a1 a2 a3)
  | SYSCALL_FSTAT => at_once (sys_fstat pad self (as_isize a0) a1)
  | SYSCALL_UNLINKAT => at_once (sys_unlinkat self (as_isize a0) a1 a2)
  | SYSCALL_UNAME => at_once (let* name := Thread_translate self a0 in sys_uname name)
  | SYSCALL_MUNMAP => at_once (sys_munmap a0 a1)
  | SYSCALL_MMAP => at_once (sys_mmap self a0 (a1 mod 2 ^ 32) (as_i32 a2) (as_i32 a3) a4 a5)
  | SYSCALL_PIPE2 => at_once (let* pipe := Thread_translate self a0 in sys_pipe2 self pipe)
  | SYSCALL_IOCTL => ret (inl 0)
  | SYSCALL_FCNTL => at_once (sys_fcntl self a0 a1 a2)
  | SYSCALL_SENDFILE => at_once (sys_sendfile self a0 a1 a2 a3)
  | SYSCALL_SYSLOG => ret (inl 0)
  | SYSCALL_FACCESSAT => ret (inl 0)
  | SYSCALL_PPOLL => ret (inl 1)
  | SYSCALL_SYSINFO => ret (inl 0)
  | SYSCALL_KILL => ret (inl 0)
  | SYSCALL_UTIMESTAT => ret (inl 0)
  | SYSCALL_LSEEK => at_once (sys_lseek self a0 a1 a2)
  | SYSCALL_GETEUID => ret (inl 0)
  | SYSCALL_GETUID => ret (inl 0)
  | SYSCALL_GETGID => ret (inl 0)
  | SYSCALL_GETEGID => ret (inl 0)
  | SYSCALL_SIGACTION => at_once (sys_sigaction self a0)
  | SYSCALL_SIGPROCMASK => ret (inl 0)
  | SYSCALL_SET_ROBUST_LIST => ret (inl 0)
  | SYSCALL_SET_TID_ADDRESS => ret (inl 0)
  | SYSCALL_GETTID => at_once (sys_getpid self)
  | SYSCALL_GETRLIMIT => ret (inl 0)
  | SYSCALL_SETRLIMIT => ret (inl 0)
  | SYSCALL_PRLIMIT => ret (inl 0)
  | _ => at_once (sys_exit self 0)
  end.
End linked.
