(* ===== verification/Machine.v ===== *)
(** * The user loop, the scheduler and boot ([trap/mod.rs], [main.rs],
    [mm/mod.rs])

    A thread runs [user_loop]: it runs user code until a trap and handles the
    trap.  What user code does to the pages it may write and to its registers,
    which the trampoline saves in the trap frame, and which trap it raises are
    inputs.  The main loop takes tasks from the queue and polls them; a task
    that suspends wakes itself and so goes to the end of the queue.  The
    machine is a step relation on configurations. *)

From S2P Require Import Prelude Addr PhysMem FrameAlloc PageTable UserMem MemorySet Inode Fd Kernel SysProc SysFs Syscall Mount.

(** ** Formatting *)
Definition digit (d : Z) : Z := if d <? 10 then 48 + d else 87 + d.
Fixpoint digits (fuel : nat) (base v : Z) (acc : String) : String :=
  match fuel with
  | O => acc
  | S fuel =>
      let acc := digit (v mod base) :: acc in
      if v <? base then acc else digits fuel base (v / base) acc
  end.
(** [{:#x}] and [{}] of a [usize]. *)
Definition fmt_hex (v : Z) : String := str "0x" ++ digits 64 16 v [].
Definition fmt_dec (v : Z) : String := digits 64 10 v [].
Definition println (s : String) : K unit := in_fs (zoom fs_console (print (s ++ [10]))).

(** ** Traps *)
(** The causes [user_loop] tells apart. *)
Inductive trap_cause : Type :=
  | UserEnvCall | StoreFault | StorePageFault | LoadFault | LoadPageFault | IllegalInstruction
  | SupervisorTimer | OtherTrap.
Record trap : Type := mkTrap { cause : trap_cause; stval : Z }.

(** How an iteration of [user_loop] ends. *)
Inductive loop_end : Type :=
  | Again_                    (** the next iteration follows *)
  | Suspend (p : pending)     (** the task waits in a system call *)
  | Finish.                   (** the future is complete *)

Section linked.
Context (ld : linker_symbols) (user_loop_addr sstatus0 : Z) (elf_new : list Z → option ElfFile).
Context (arg_fuel str_fuel : nat) (pad : list Z) (disk : disk_env).

Abbreviation syscall_ := (syscall ld user_loop_addr sstatus0 elf_new arg_fuel str_fuel pad disk).

(** Word [i] of the trap frame of the thread's process. *)
Definition tf_base (self : Z) : K Z := let* pcb := my_pcb self in lift (PhysPageNum_get_mut (trapframe_ppn pcb)).
Definition tf_load (self i : Z) : K Z := let* b := tf_base self in with_ram (λ m, Ok (load_usize m (b + 8 * i))).
Definition tf_store (self i v : Z) : K unit := let* b := tf_base self in modify_ram (λ m, store_usize m (b + 8 * i) v).

(** [trap/mod.rs:68-77] user_loop. Before user code runs: kernel time. *)
Definition user_enter (self : Z) : K unit :=
  let* pcb := my_pcb self in
  let* t1 := get_time_ms in
  let ktime' := ktime pcb +u (t1 -u otime pcb) in
  let* t2 := get_time_ms in
  my_pcb_put self (pcb_set_times pcb t2 (utime pcb) ktime').
(** [trap/mod.rs:95-101] user_loop. After a trap: user time. *)
Definition user_leave (self : Z) : K unit :=
  let* pcb := my_pcb self in
  let* t1 := get_time_ms in
  let utime' := utime pcb +u (t1 -u otime pcb) in
  let* t2 := get_time_ms in
  my_pcb_put self (pcb_set_times pcb t2 utime' (ktime pcb)).

(** [trap/mod.rs:120-129] user_loop. The end of a system call. *)
Definition syscall_return (self result : Z) : K loop_end :=
  tf_store self 10 (wrap64 result) ;;
  let* t := thread_get self in
  ret (if exit t then Finish else Again_).
Definition after_syscall (self : Z) (r : Z + pending) : K loop_end :=
  match r with
  | inl result => syscall_return self result
  | inr p => ret (Suspend p)
  end.

Definition fault_name (c : trap_cause) : String :=
  match c with
  | StoreFault => str "StoreFault"
  | StorePageFault => str "StorePageFault"
  | LoadFault => str "LoadFault"
  | _ => str "LoadPageFault"
  end.

(** [trap/mod.rs:105-190] user_loop. The handling of a trap. *)
Definition handle_trap (self : Z) (tr : trap) : K loop_end :=
  match cause tr with
  | UserEnvCall =>
      let* pc := tf_load self SEPC in
      tf_store self SEPC (pc +u 4) ;;
      let* id := tf_load self 17 in
      let* a0 := tf_load self 10 in
      let* a1 := tf_load self 11 in
      let* a2 := tf_load self 12 in
      let* a3 := tf_load self 13 in
      let* a4 := tf_load self 14 in
      let* a5 := tf_load self 15 in
      let* r := syscall_ self id [a0; a1; a2; a3; a4; a5] in
      after_syscall self r
  | StoreFault | StorePageFault | LoadFault | LoadPageFault =>
      let* pcb := my_pcb self in
      let* pc := tf_load self SEPC in
      println (str "USER TRAP: stval=" ++ fmt_hex (stval tr) ++ str ",pc=" ++ fmt_hex pc ++ str ",pid=" ++
               fmt_dec (pid pcb)) ;;
      println (str "[kernel] PageFault in application, kernel killed it.") ;;
      println (fault_name (cause tr)) ;;
      sys_exit self 0 ;;
      ret Finish
  | IllegalInstruction =>
      println (str "[kernel] IllegalInstruction in application, kernel killed it.") ;;
      ret Again_
  | SupervisorTimer =>
      get_time ;;
      ret Again_
  | OtherTrap => throw Explicit
  end.

(** [trap/mod.rs:61-193] user_loop *)
Definition user_loop_iter (self : Z) (user : pmem → pmem) (tr : trap) : K loop_end :=
  user_enter self ;;
  modify_ram user ;;
  user_leave self ;;
  handle_trap self tr.

(** The task's future is complete: its thread is dropped. *)
Definition thread_drop (self : Z) : K unit :=
  let* t := thread_get self in
  modify (λ k, k_set_threads k (delete self (threads k))) ;;
  drop_proc_ref (thread_proc t).

(** ** What user code may do

    It writes only pages its page table maps as writable user pages, and the
    page of its trap frame, where the trampoline puts its registers. *)
Definition user_page (m : pmem) (root ppn : Z) : Prop :=
  ∃ vpn e, pt_lookup m root vpn = Some e ∧ PageTableEntry_ppn e = ppn ∧
    Z.land (PageTableEntry_flags e) (Z.lor PTEFlags_U PTEFlags_W) = Z.lor PTEFlags_U PTEFlags_W.
Definition user_allowed (pcb : PCB) (m : pmem) (user : pmem → pmem) : Prop :=
  ∀ ppn, get_bytes_array (user m) ppn ≠ get_bytes_array m ppn →
    ppn = trapframe_ppn pcb ∨ user_page m (root_ppn (page_table (memory_set pcb))) ppn.

(** ** The main loop *)
Inductive task : Type :=
  | TUser                   (** at the start of an iteration *)
  | TWait (p : pending).

(** The kernel, where each task stopped, and the task that is polled. *)
Record config : Type := mkConfig {
  kern : kernel;
  tasks : gmap Z task;
  current : option Z;
}.
(** A new thread starts at the beginning of [user_loop]. *)
Definition task_of (c : config) (t : Z) : task := default TUser (tasks c !! t).

(** What follows an iteration, or a poll of a suspended call. *)
Definition after_poll (tasks' : gmap Z task) (t : Z) (e : loop_end) : K config :=
  match e with
  | Again_ => let* k := get in ret (mkConfig k (<[t := TUser]> tasks') (Some t))
  | Suspend p =>
      TaskQueue_push t ;;
      let* k := get in ret (mkConfig k (<[t := TWait p]> tasks') None)
  | Finish =>
      thread_drop t ;;
      let* k := get in ret (mkConfig k (delete t tasks') None)
  end.
Definition run_after (tasks' : gmap Z task) (t : Z) (m : K loop_end) (k : kernel) : outcome config :=
  match (let* e := m in after_poll tasks' t e) k with
  | Ok (c, _) => Ok c
  | Fault f => Fault f
  end.

(** [main.rs:248-256] rust_main. One pass of the main loop: the next task. *)
Definition fetch_step (c : config) : outcome config :=
  match TaskQueue_fetch (kern c) with
  | Ok (Some t, k) => Ok (mkConfig k (tasks c) (Some t))
  | Ok (None, k) => Ok (mkConfig k (tasks c) None)
  | Fault f => Fault f
  end.

Inductive step : config → outcome config → Prop :=
  | step_fetch c :
      current c = None → step c (fetch_step c)
  | step_user c t th pr user tr :
      current c = Some t → task_of c t = TUser →
      threads (kern c) !! t = Some th → procs (kern c) !! thread_proc th = Some pr →
      user_allowed (inner pr) (ram (k_mm (kern c))) user →
      step c (run_after (tasks c) t (user_loop_iter t user tr) (kern c))
  | step_resume c t p :
      current c = Some t → task_of c t = TWait p →
      step c (run_after (tasks c) t (let* r := resume t p in after_syscall t r) (kern c)).

(** Configurations reached in [n] steps without a panic. *)
Inductive reachable (c0 : config) : nat → config → Prop :=
  | reach_refl : reachable c0 O c0
  | reach_step n c c' : reachable c0 n c → step c (Ok c') → reachable c0 (S n) c'.

(** ** Boot *)
(** [main.rs:128-140] insert_file *)
Definition insert_file (path name : String) (content : list Z) : K unit :=
  let* i := in_fs (inode_new (IReg (RegFileINode_new_from_existed path name CREATE true true content))) in
  in_fs (GlobalDentryCache_insert (path ++ str "/" ++ name) i) ;;
  ret tt.

(** [main.rs:83-126] crate_task_from_elf *)
Definition crate_task_from_elf (userbin : list Z) : K unit :=
  let* elf_file := lift (unwrap (elf_new userbin)) in
  let* pid' := PidAllocator_alloc_pid in
  let* task := PCB_new in
  let* '(user_pagetable, heap_pos', user_stack, entry) := in_mm (MemorySet_from_elf ld elf_file) in
  println (str "entry:" ++ fmt_hex entry) ;;
  insert_kernel_stack pid' ;;
  let* tf := trapframe_of user_pagetable in
  in_mm (MemorySet_drop (memory_set task)) ;;
  let* k := get in
  let cx := TrapFrame_app_init_context sstatus0 entry (user_stack -u 8) (MemorySet_token (kernel_space k))
              (TRAMPOLINE -u KERNEL_STACK_SIZE *u pid') 0 in
  let* tf_pa := lift (PhysPageNum_get_mut tf) in
  modify_ram (λ m, store_bytes m tf_pa (TrapFrame_bytes cx)) ;;
  let context' := mkContext 0 (TRAMPOLINE -u KERNEL_STACK_SIZE *u pid') (s_regs (context task)) in
  let* new_proc := proc_arc (Process_new (mkPCB (pid task) (state task) context' tf user_pagetable
    (VirtAddr_from heap_pos') (VirtAddr_from 0x100000000) (parent task) (children task) (exit_code task)
    (otime task) (utime task) (ktime task) (cwd task) (fd_manager task))) in
  spawn_user_loop (Thread_new new_proc).

(** The programs linked into the kernel. *)
(** [main.rs:144-162] load_core_program *)
Definition load_core_program (shell init : list Z) : K unit :=
  insert_file (str "/core") (str "shell") shell ;;
  crate_task_from_elf init ;;
  insert_file (str "/etc") (str "localtime") (as_bytes (str "0000")).

(** [mm/mod.rs:22-27] init *)
Definition mm_init : K unit :=
  in_mm (init_frame_allocator (ekernel ld)) ;;
  let* ks := in_mm (MemorySet_new_kernel ld) in
  modify (λ k, k_set_kernel_space k ks).
End linked.
