(* ===== verification/Trampoline.v ===== *)
(** * The trampoline, the context switch and the entry ([trap/trampoline.S],
    [task/switch.S], [entry.asm])

    The assembly of the kernel is lists of instructions, run on a hart with
    registers, the control registers it uses, and physical memory reached
    through the Sv39 page table [satp] selects.  [user_loop] calls [__restore]
    to run the user program; the trap that ends the run goes to [__alltraps],
    which returns to the caller of [__restore].  Instruction fetches are not
    modelled: the trampoline is mapped at the same address in all address
    spaces. *)

From S2P Require Import Prelude Addr PhysMem FrameAlloc PageTable Kernel Machine.

(** ** The hart *)
Inductive csr : Type := Csstatus | Csepc | Csatp | Csscratch.
Record hart : Type := mkHart {
  regs : list Z;
  c_sstatus : Z;
  c_sepc : Z;
  c_satp : Z;
  c_sscratch : Z;
  h_mem : pmem;
}.
(** [x0] is always zero. *)
Definition get_reg (r : nat) (h : hart) : Z := if decide (r = 0%nat) then 0 else regs h !!! r.
Definition set_regs (l : list Z) (h : hart) : hart :=
  mkHart l (c_sstatus h) (c_sepc h) (c_satp h) (c_sscratch h) (h_mem h).
Definition set_reg (r : nat) (v : Z) (h : hart) : hart :=
  if decide (r = 0%nat) then h else set_regs (<[r := v]> (regs h)) h.
Definition set_mem (m : pmem) (h : hart) : hart :=
  mkHart (regs h) (c_sstatus h) (c_sepc h) (c_satp h) (c_sscratch h) m.
Definition get_csr (c : csr) (h : hart) : Z :=
  match c with Csstatus => c_sstatus h | Csepc => c_sepc h | Csatp => c_satp h | Csscratch => c_sscratch h end.
Definition set_csr (c : csr) (v : Z) (h : hart) : hart :=
  match c with
  | Csstatus => mkHart (regs h) v (c_sepc h) (c_satp h) (c_sscratch h) (h_mem h)
  | Csepc => mkHart (regs h) (c_sstatus h) v (c_satp h) (c_sscratch h) (h_mem h)
  | Csatp => mkHart (regs h) (c_sstatus h) (c_sepc h) v (c_sscratch h) (h_mem h)
  | Csscratch => mkHart (regs h) (c_sstatus h) (c_sepc h) (c_satp h) v (h_mem h)
  end.

(** The page and the word in it that the supervisor reaches at a virtual
    address: the mode of [satp] is Sv39, the address is canonical and aligned,
    and its page is mapped, readable, writable if [w], and not a user page. *)
Definition sv39 (w : bool) (m : pmem) (satp va : Z) : option (Z * Z) :=
  if negb (satp / 2 ^ 60 =? 8) || negb (va mod 8 =? 0) || ((2 ^ 38 <=? va) && (va <? 2 ^ 64 - 2 ^ 38)) then None
  else
    match pt_lookup m (satp mod 2 ^ 44) (va / PAGE_SIZE mod 2 ^ 27) with
    | Some e =>
        if Z.testbit e 1 && (negb w || Z.testbit e 2) && negb (Z.testbit e 4)
        then Some (PageTableEntry_ppn e, va mod PAGE_SIZE / 8) else None
    | None => None
    end.

(** The instructions the assembly uses; the addresses in [La] and [Call] are
    link-time constants. *)
Inductive instr : Type :=
  | Ld (rd : nat) (off : Z) (rs : nat)
  | Sd (rs2 : nat) (off : Z) (rs1 : nat)
  | Csrr (rd : nat) (c : csr)
  | Csrw (c : csr) (rs : nat)
  | Csrrw (rd : nat) (c : csr) (rs : nat)
  | Mv (rd rs : nat)
  | Li (rd : nat) (imm : Z)
  | La (rd : nat) (addr : Z)
  | Addi (rd rs : nat) (imm : Z)
  | Add (rd rs1 rs2 : nat)
  | Slli (rd rs : nat) (sh : Z)
  | Sfence_vma
  | Call (addr back : Z)
  | Ret
  | Sret.
(** Where execution goes on: behind the block, at an address in the same mode, or
    at [sepc] in the mode [sstatus] says. *)
Inductive control : Type := Next | Jump (pc : Z) | Leave.

Definition exec (i : instr) (h : hart) : option (hart * control) :=
  match i with
  | Ld rd off rs =>
      '(p, k) ← sv39 false (h_mem h) (c_satp h) (get_reg rs h +u off);
      Some (set_reg rd (get_pte (h_mem h) p k) h, Next)
  | Sd rs2 off rs1 =>
      '(p, k) ← sv39 true (h_mem h) (c_satp h) (get_reg rs1 h +u off);
      Some (set_mem (set_pte (h_mem h) p k (get_reg rs2 h)) h, Next)
  | Csrr rd c => Some (set_reg rd (get_csr c h) h, Next)
  | Csrw c rs => Some (set_csr c (get_reg rs h) h, Next)
  | Csrrw rd c rs => Some (set_reg rd (get_csr c h) (set_csr c (get_reg rs h) h), Next)
  | Mv rd rs => Some (set_reg rd (get_reg rs h) h, Next)
  | Li rd imm => Some (set_reg rd imm h, Next)
  | La rd addr => Some (set_reg rd addr h, Next)
  | Addi rd rs imm => Some (set_reg rd (get_reg rs h +u imm) h, Next)
  | Add rd rs1 rs2 => Some (set_reg rd (get_reg rs1 h +u get_reg rs2 h) h, Next)
  | Slli rd rs sh => Some (set_reg rd (wrap64 (Z.shiftl (get_reg rs h) sh)) h, Next)
  | Sfence_vma => Some (h, Next)
  | Call addr back => Some (set_reg 1 back h, Jump addr)
  | Ret => Some (h, Jump (get_reg 1 h))
  | Sret => Some (h, Leave)
  end.
Fixpoint run (code : list instr) (h : hart) : option (hart * control) :=
  match code with
  | [] => Some (h, Next)
  | i :: code =>
      '(h, c) ← exec i h;
      match c with Next => run code h | _ => Some (h, c) end
  end.

(** ** The code *)
Definition r_ra : nat := 1.
Definition r_sp : nat := 2.
Definition r_t0 : nat := 5.
Definition r_t1 : nat := 6.
Definition r_t2 : nat := 7.
Definition r_a0 : nat := 10.
Definition r_a1 : nat := 11.
(** [s0] to [s11]. *)
Definition r_s (n : nat) : nat := if (n <? 2)%nat then (8 + n)%nat else (16 + n)%nat.

(** [trap/trampoline.S:2-4] SAVE_GP *)
Definition SAVE_GP (n : nat) : instr := Sd n (Z.of_nat n * 8) r_sp.
(** [trap/trampoline.S:5-7] LOAD_GP *)
Definition LOAD_GP (n : nat) : instr := Ld n (Z.of_nat n * 8) r_sp.

(** [trap/trampoline.S:65-78] __restore. The lines that save the registers a
    called function keeps; they are the same in [__switch]. *)
Definition save_callee (a : nat) : list instr :=
  [Sd r_ra 0 a; Sd r_sp 8 a; Sd (r_s 0) 16 a; Sd (r_s 1) 24 a; Sd (r_s 2) 32 a; Sd (r_s 3) 40 a; Sd (r_s 4) 48 a;
   Sd (r_s 5) 56 a; Sd (r_s 6) 64 a; Sd (r_s 7) 72 a; Sd (r_s 8) 80 a; Sd (r_s 9) 88 a; Sd (r_s 10) 96 a;
   Sd (r_s 11) 104 a].
(** [trap/trampoline.S:46-59] __alltraps. The lines that load them. *)
Definition load_callee (a : nat) : list instr :=
  [Ld r_ra 0 a; Ld r_sp 8 a; Ld (r_s 0) 16 a; Ld (r_s 1) 24 a; Ld (r_s 2) 32 a; Ld (r_s 3) 40 a; Ld (r_s 4) 48 a;
   Ld (r_s 5) 56 a; Ld (r_s 6) 64 a; Ld (r_s 7) 72 a; Ld (r_s 8) 80 a; Ld (r_s 9) 88 a; Ld (r_s 10) 96 a;
   Ld (r_s 11) 104 a].

(** [trap/trampoline.S:13-60] __alltraps *)
Definition __alltraps : list instr :=
  [Csrrw r_sp Csscratch r_sp; Sd 1 (1 * 8) r_sp; Sd 3 (3 * 8) r_sp] ++
  (SAVE_GP <$> seq 5 27) ++
  [Csrr r_t0 Csstatus; Csrr r_t1 Csepc; Sd r_t0 (32 * 8) r_sp; Sd r_t1 (33 * 8) r_sp;
   Csrr r_t2 Csscratch; Sd r_t2 (2 * 8) r_sp;
   Ld r_t0 (34 * 8) r_sp; Ld r_t1 (36 * 8) r_sp; Ld r_sp (35 * 8) r_sp;
   Csrw Csatp r_t0; Sfence_vma] ++
  load_callee r_t1 ++ [Ret].
(** [trap/trampoline.S:62-108] __restore *)
Definition __restore : list instr :=
  save_callee r_a0 ++
  [Csrw Csatp r_a1; Mv r_a1 r_a0; Li r_a0 0xFFFFFFFFFFFFE000; Sfence_vma; Csrw Csscratch r_a0; Mv r_sp r_a0;
   Sd r_a1 (36 * 8) r_sp; Csrr r_a1 Csatp;
   Ld r_t0 (32 * 8) r_sp; Ld r_t1 (33 * 8) r_sp; Csrw Csstatus r_t0; Csrw Csepc r_t1;
   Ld 1 (1 * 8) r_sp; Ld 3 (3 * 8) r_sp] ++
  (LOAD_GP <$> seq 5 27) ++
  [Ld r_sp (2 * 8) r_sp; Sret].
(** [task/switch.S:3-34] __switch *)
Definition __switch : list instr := save_callee r_a0 ++ load_callee r_a1 ++ [Ret].
(** [task/switch.S:55-69] __context_load *)
Definition __context_load : list instr := load_callee r_a1.
(** [task/switch.S:39-69] __context_save. It runs on into [__context_load]. *)
Definition __context_save : list instr := save_callee r_a0 ++ __context_load.
(** [entry.asm:4-16] _start *)
Definition _start (boot_stack rust_main back : Z) : list instr :=
  [Addi r_t0 r_a0 1; Slli r_t0 r_t0 16; La r_sp boot_stack; Add r_sp r_sp r_t0; Call rust_main back].
(** [entry.asm:18-22] boot_stack *)
Definition boot_stack_size : Z := 4096 * 16 * 4.

(** ** Blocks of loads and stores *)
Definition hart_wf (h : hart) : Prop :=
  length (regs h) = 32%nat ∧ Forall is_usize (regs h) ∧ is_usize (c_sstatus h) ∧ is_usize (c_sepc h) ∧
  is_usize (c_satp h) ∧ is_usize (c_sscratch h) ∧ pmem_wf (h_mem h).

(** Two memories that differ at most in the pages [D]. *)
Definition agree (D : list Z) (m m' : pmem) : Prop :=
  ∀ p, p ∉ D → get_bytes_array m' p = get_bytes_array m p.
(** What an address space maps where does not depend on the pages [D]. *)
Definition map_fixed (D : list Z) (m : pmem) (satp : Z) : Prop :=
  ∀ m' w va, agree D m m' → sv39 w m' satp va = sv39 w m satp va.

#[export] Instance agree_equiv D : Equivalence (agree D).
Proof.
  split; unfold agree.
  - by intros m p _.
  - by intros m m' H p Hp; rewrite H.
  - intros m1 m2 m3 H1 H2 p Hp. by rewrite H2, H1.
Qed.

Lemma agree_set_pte D m p i v : p ∈ D → agree D m (set_pte m p i v).
Proof. intros Hp q Hq. apply get_bytes_array_set_pte_ne. congruence. Qed.

Lemma map_fixed_agree D m m' satp : agree D m m' → map_fixed D m satp → map_fixed D m' satp.
Proof. intros Ha Hf m2 w va H2. rewrite (Hf m2 w va) by (by etrans). by rewrite (Hf m' w va). Qed.

(** The page table of an address space outside [D]. *)
Lemma token_satp pt : 0 ≤ root_ppn pt < 2 ^ 44 →
  PageTable_token pt / 2 ^ 60 = 8 ∧ PageTable_token pt mod 2 ^ 44 = root_ppn pt ∧ is_usize (PageTable_token pt).
Proof.
  intros Hr. unfold PageTable_token. change (wrap64 (Z.shiftl 8 60)) with (2 ^ 19 * 2 ^ 44).
  rewrite lor_low_high by lia. split_and!; [|rewrite Z.add_comm, Z.mod_add, Z.mod_small; lia|unfold is_usize; lia].
  change (2 ^ 19 * 2 ^ 44) with (8 * 2 ^ 60). rewrite Z.add_comm, Z.div_add, Z.div_small; lia.
Qed.

Lemma table_fixed D m pt : pt_wf m pt → 0 ≤ root_ppn pt < 2 ^ 44 → (∀ q, q ∈ frames pt → q ∉ D) →
  map_fixed D m (PageTable_token pt).
Proof.
  intros Hwf Hr Hd m' w va Ha. destruct (token_satp pt Hr) as (_ & E & _). unfold sv39. rewrite E.
  rewrite (pt_lookup_local m m' pt); [done|done|]. intros q Hq. apply Ha, Hd, Hq.
Qed.

Lemma run_app c1 c2 h : run (c1 ++ c2) h = '(h, c) ← run c1 h; match c with Next => run c2 h | _ => Some (h, c) end.
Proof.
  revert h. induction c1 as [|i c1 IH]; intros h; [done|]. cbn.
  destruct (exec i h) as [[h' []]|]; cbn; [apply IH|done..].
Qed.

(** The words written by a sequence of stores: place and value. *)
Definition writes (m : pmem) (ws : list ((Z * Z) * Z)) : pmem :=
  foldl (λ m w, set_pte m w.1.1 w.1.2 w.2) m ws.
Definition ok_write (w : (Z * Z) * Z) : Prop := 0 ≤ w.1.2 < 512 ∧ is_usize w.2.

Lemma writes_wf ws : ∀ m, pmem_wf m → Forall ok_write ws → pmem_wf (writes m ws).
Proof.
  induction ws as [|w ws IH]; intros m Hm; [done|]. intros [[Hw _] Hws]%Forall_cons. cbn.
  by apply IH; [apply pmem_wf_set_pte|].
Qed.
Lemma writes_agree D ws : ∀ m, Forall (λ w, w.1.1 ∈ D) ws → agree D m (writes m ws).
Proof.
  induction ws as [|w ws IH]; intros m; [done|]. intros [Hw Hws]%Forall_cons. cbn.
  etrans; [by apply agree_set_pte|by apply IH].
Qed.
Lemma agree_writes D m m1 ws : agree D m m1 → Forall (λ w, w.1.1 ∈ D) ws → agree D m (writes m1 ws).
Proof. intros H1 Hl. transitivity m1; [done|by apply writes_agree]. Qed.
Lemma get_set_pte m p i v q j : pmem_wf m → 0 ≤ i < 512 → is_usize v → 0 ≤ j < 512 →
  get_pte (set_pte m p i v) q j = if decide ((q, j) = (p, i)) then v else get_pte m q j.
Proof.
  intros Hm Hi Hv Hj. case_decide as E; [injection E as -> ->; by apply get_set_pte_eq|].
  destruct (decide (p = q)) as [<-|]; [apply get_set_pte_ne_index; [done..|congruence]|by apply get_set_pte_ne_page].
Qed.

Lemma get_set_pte_if m i v p j : pmem_wf m → 0 ≤ i < 512 → is_usize v → 0 ≤ j < 512 →
  get_pte (set_pte m p i v) p j = if i =? j then v else get_pte m p j.
Proof.
  intros Hm Hi Hv Hj. rewrite get_set_pte by done. destruct (Z.eqb_spec i j) as [->|]; [by rewrite decide_True|].
  rewrite decide_False; [done|congruence].
Qed.

(** Writes to places other than this one. *)
Lemma get_writes_out ws q j : ∀ m, pmem_wf m → Forall ok_write ws → 0 ≤ j < 512 → (q, j) ∉ ws.*1 →
  get_pte (writes m ws) q j = get_pte m q j.
Proof.
  induction ws as [|[[p i] v] ws IH]; intros m Hm; [done|]. intros [[Hi Hv] Hws]%Forall_cons Hj.
  cbn [fmap list_fmap fst]. intros [Hne Hout]%not_elem_of_cons. cbn. rewrite IH; [|by apply pmem_wf_set_pte|done..].
  cbn in *. rewrite get_set_pte by done. by rewrite decide_False.
Qed.
(** Writes to different places: each place holds what was written to it. *)
Lemma get_writes_in ws k p i v : ∀ m, pmem_wf m → Forall ok_write ws → NoDup ws.*1 → ws !! k = Some ((p, i), v) →
  get_pte (writes m ws) p i = v.
Proof.
  revert k. induction ws as [|[[q j] u] ws IH]; intros k m Hm; [done|].
  intros [[Hj Hu] Hws]%Forall_cons [Hout Hnd]%NoDup_cons. destruct k as [|k]; cbn.
  - intros [= -> -> ->]. cbn in *. rewrite get_writes_out by (done || by apply pmem_wf_set_pte). by apply get_set_pte_eq.
  - apply IH; [by apply pmem_wf_set_pte|done..].
Qed.

Lemma sv39_weaken m satp va l : sv39 true m satp va = Some l → sv39 false m satp va = Some l.
Proof.
  unfold sv39. destruct (_ || _); [done|]. destruct (pt_lookup _ _ _) as [e|]; [|done]. cbn [negb orb].
  destruct (Z.testbit e 1), (Z.testbit e 2), (Z.testbit e 4); cbn; done.
Qed.

(** Registers with their word indices, and the code that stores or loads them. *)
Definition stores (b : nat) (l : list (nat * Z)) : list instr := (λ p, Sd p.1 (p.2 * 8) b) <$> l.
Definition loads (b : nat) (l : list (nat * Z)) : list instr := (λ p, Ld p.1 (p.2 * 8) b) <$> l.
Definition stored (f : Z → Z * Z) (h : hart) (l : list (nat * Z)) : list ((Z * Z) * Z) :=
  (λ p, (f p.2, get_reg p.1 h)) <$> l.
Definition loaded (m : pmem) (f : Z → Z * Z) (l : list (nat * Z)) (rs : list Z) : list Z :=
  foldl (λ rs p, <[p.1 := get_pte m (f p.2).1 (f p.2).2]> rs) rs l.

Section blocks.
Context (D : list Z) (m0 : pmem) (satp a : Z) (f : Z → Z * Z).
Hypothesis fixed : map_fixed D m0 satp.

Lemma run_stores b l : ∀ h, c_satp h = satp → get_reg b h = a → agree D m0 (h_mem h) →
  Forall (λ p, sv39 true m0 satp (a +u p.2 * 8) = Some (f p.2) ∧ (f p.2).1 ∈ D) l →
  run (stores b l) h = Some (set_mem (writes (h_mem h) (stored f h l)) h, Next).
Proof.
  induction l as [|[r i] l IH]; intros h Hs Hb Ha; [by destruct h|].
  intros [[Hi Hd] Hl]%Forall_cons. cbn. rewrite Hs, Hb, (fixed (h_mem h)) by done. cbn in Hi, Hd. rewrite Hi.
  cbn. destruct (f i) as [p k] eqn:Ef. cbn in *. set (h' := set_mem _ h).
  change (run _ h') with (run (stores b l) h').
  rewrite IH; [done|done|by rewrite <- Hb|transitivity (h_mem h); [done|by apply agree_set_pte]|done].
Qed.

Lemma run_loads b l : ∀ h, c_satp h = satp → get_reg b h = a → agree D m0 (h_mem h) →
  b ∉ l.*1 → 0%nat ∉ l.*1 →
  Forall (λ p, sv39 false m0 satp (a +u p.2 * 8) = Some (f p.2)) l →
  run (loads b l) h = Some (set_regs (loaded (h_mem h) f l (regs h)) h, Next).
Proof.
  induction l as [|[r i] l IH]; intros h Hs Hb Ha; [by destruct h|]. cbn [fmap list_fmap fst].
  intros [Hbr Hbl]%not_elem_of_cons [H0 H0l]%not_elem_of_cons [Hi Hl]%Forall_cons.
  cbn. rewrite Hs, Hb, (fixed (h_mem h)) by done. cbn in Hi. rewrite Hi. cbn.
  destruct (f i) as [p k] eqn:Ef. cbn. unfold set_reg. rewrite decide_False by done. set (h' := set_regs _ h).
  change (run _ h') with (run (loads b l) h').
  rewrite IH; [done|done| |done..].
  rewrite <- Hb. unfold get_reg, h'. cbn. case_decide; [done|]. by rewrite list_lookup_total_insert_ne.
Qed.
End blocks.

(** ** Trap frames and contexts in memory *)
Definition TrapFrame_at (m : pmem) (p : Z) (tf : TrapFrame) : Prop :=
  length (x tf) = 32%nat ∧ get_pte m p <$> seqZ 0 37 = TrapFrame_words tf.
Definition ProcessContext_words (c : ProcessContext) : list Z := ra c :: sp c :: s_regs c.
(** The words of a context may lie in two pages. *)
Definition Context_at (m : pmem) (f : Z → Z * Z) (c : ProcessContext) : Prop :=
  (λ i, get_pte m (f i).1 (f i).2) <$> seqZ 0 14 = ProcessContext_words c.
(** The registers a called function keeps. *)
Definition callee : list nat := r_ra :: r_sp :: (r_s <$> seq 0 12).
Definition callee_of (rs : list Z) : ProcessContext := mkContext (rs !!! r_ra) (rs !!! r_sp) ((λ n, rs !!! r_s n) <$> seq 0 12).
(** All registers of [from], but [x0] and [tp] as in [to]. *)
Definition all_but_tp (from to : list Z) : list Z := <[4%nat := to !!! 4%nat]> (<[0%nat := to !!! 0%nat]> from).
(** [__restore] leaves the address of its context in the trap frame. *)
Definition tf_set_handler (a : Z) (tf : TrapFrame) : TrapFrame :=
  mkTrapFrame (x tf) (sstatus tf) (sepc tf) (kernel_satp tf) (kernel_sp tf) a.

Lemma list_32 {A} (l : list A) : length l = 32%nat →
  ∃ a0 a1 a2 a3 a4 a5 a6 a7 a8 a9 a10 a11 a12 a13 a14 a15 a16 a17 a18 a19 a20 a21 a22 a23 a24 a25 a26 a27 a28 a29 a30 a31,
    l = [a0; a1; a2; a3; a4; a5; a6; a7; a8; a9; a10; a11; a12; a13; a14; a15; a16; a17; a18; a19; a20; a21; a22; a23;
         a24; a25; a26; a27; a28; a29; a30; a31].
Proof. do 32 (destruct l as [|? l]; [done|]). destruct l; [|done]. intros _. repeat eexists. Qed.

(** The places of a context of a call, and the two address spaces. *)
Definition places (f : Z → Z * Z) : list (Z * Z) := f <$> seqZ 0 14.
Record call_env (m : pmem) (kpt upt : PageTable) (tfp cx : Z) (f : Z → Z * Z) : Prop := {
  env_kwf : pt_wf m kpt;
  env_uwf : pt_wf m upt;
  env_kroot : 0 ≤ root_ppn kpt < 2 ^ 44;
  env_uroot : 0 ≤ root_ppn upt < 2 ^ 44;
  (** the trap frame is mapped for the supervisor in the user's address space *)
  env_tf : ∃ e, pt_lookup m (root_ppn upt) (2 ^ 27 - 2) = Some e ∧ PageTableEntry_ppn e = tfp ∧
    Z.testbit e 1 = true ∧ Z.testbit e 2 = true ∧ Z.testbit e 4 = false;
  (** the context is mapped in the kernel's, its words at different places *)
  env_cx : Forall (λ i, sv39 true m (PageTable_token kpt) (cx +u i * 8) = Some (f i)) (seqZ 0 14);
  env_cx_usize : is_usize cx;
  env_nodup : NoDup (places f);
  env_apart : tfp ∉ (places f).*1;
  (** neither is part of a page table *)
  env_tables : ∀ q, q ∈ frames kpt ++ frames upt → q ≠ tfp ∧ q ∉ (places f).*1;
}.

Lemma TRAPFRAME_sv39 w m pt tfp i :
  0 ≤ root_ppn pt < 2 ^ 44 → 0 ≤ i < 512 →
  (∃ e, pt_lookup m (root_ppn pt) (2 ^ 27 - 2) = Some e ∧ PageTableEntry_ppn e = tfp ∧
    Z.testbit e 1 = true ∧ Z.testbit e 2 = true ∧ Z.testbit e 4 = false) →
  sv39 w m (PageTable_token pt) (0xFFFFFFFFFFFFE000 +u i * 8) = Some (tfp, i).
Proof.
  intros Hr Hi (e & He & <- & H1 & H2 & H4). destruct (token_satp pt Hr) as (E1 & E2 & _).
  rewrite uadd_small by lia. unfold sv39. rewrite E1, E2. change PAGE_SIZE with 4096.
  assert (Ev : (0xFFFFFFFFFFFFE000 + i * 8) / 4096 mod 2 ^ 27 = 2 ^ 27 - 2).
  { change 0xFFFFFFFFFFFFE000 with ((2 ^ 52 - 2) * 4096). rewrite Z.div_add_l, Z.div_small by lia. done. }
  assert (Em : (0xFFFFFFFFFFFFE000 + i * 8) mod 4096 / 8 = i).
  { change 0xFFFFFFFFFFFFE000 with ((2 ^ 52 - 2) * 4096). rewrite Z.add_comm, Z.mod_add, Z.mod_small by lia.
    apply Z.div_mul. lia. }
  rewrite Ev, Em, He, H1, H2, H4. cbn [negb andb orb].
  assert (E8 : (0xFFFFFFFFFFFFE000 + i * 8) mod 8 = 0) by (rewrite Z.mod_add; [done|lia]).
  rewrite E8, (proj2 (Z.ltb_ge _ _)), andb_false_r by lia. cbn. by rewrite orb_true_r.
Qed.

(** The registers in the words of a trap frame, as the code stores and loads them. *)
Definition gp_words : list (nat * Z) := (λ n, (n, Z.of_nat n)) <$> ([1; 3]%nat ++ seq 5 27).
Definition callee_words : list (nat * Z) := zip callee (seqZ 0 14).

Lemma save_callee_stores a : save_callee a = stores a callee_words.
Proof. reflexivity. Qed.
Lemma load_callee_loads a : load_callee a = loads a callee_words.
Proof. reflexivity. Qed.
Lemma __alltraps_blocks : __alltraps =
  [Csrrw r_sp Csscratch r_sp] ++ stores r_sp gp_words ++ [Csrr r_t0 Csstatus; Csrr r_t1 Csepc] ++
  stores r_sp [(r_t0, 32); (r_t1, 33)] ++ [Csrr r_t2 Csscratch] ++ stores r_sp [(r_t2, 2)] ++
  loads r_sp [(r_t0, 34); (r_t1, 36)] ++ [Ld r_sp (35 * 8) r_sp; Csrw Csatp r_t0; Sfence_vma] ++
  loads r_t1 callee_words ++ [Ret].
Proof. reflexivity. Qed.
Lemma __restore_blocks : __restore =
  stores r_a0 callee_words ++
  [Csrw Csatp r_a1; Mv r_a1 r_a0; Li r_a0 0xFFFFFFFFFFFFE000; Sfence_vma; Csrw Csscratch r_a0; Mv r_sp r_a0] ++
  stores r_sp [(r_a1, 36)] ++ [Csrr r_a1 Csatp] ++ loads r_sp [(r_t0, 32); (r_t1, 33)] ++
  [Csrw Csstatus r_t0; Csrw Csepc r_t1] ++ loads r_sp gp_words ++ [Ld r_sp (2 * 8) r_sp; Sret].
Proof. reflexivity. Qed.

(** The next block of a run, and a block that does not touch memory. *)
Lemma run_block c1 c2 h h' r : run c1 h = Some (h', Next) → run c2 h' = r → run (c1 ++ c2) h = r.
Proof. intros E1 E2. by rewrite run_app, E1. Qed.
Ltac block := eapply run_block.
Ltac side := first [done | apply (bool_decide_unpack _); by vm_compute].
Ltac tf_side :=
  first [side | cbn [h_mem set_mem]; repeat (apply agree_writes; [|repeat first [apply Forall_nil_2 | apply Forall_cons_2; [by left|]]]); done].
Ltac small :=
  lazymatch goal with |- run ?c ?h = _ =>
    let v := eval cbv -[sv39 get_pte set_pte writes PageTable_token TRAPFRAME] in (run c h) in exact (eq_refl v)
  end.

(** ** Saving and loading a context *)
Lemma callee_Forall P : (∀ i, 0 ≤ i < 14 → P i) → Forall (λ p : nat * Z, P p.2) callee_words.
Proof.
  intros H. assert (Hl : Forall (λ p : nat * Z, 0 ≤ p.2 < 14) callee_words) by (apply (bool_decide_unpack _); by vm_compute).
  eapply Forall_impl; [exact Hl|]. intros [r i]. apply H.
Qed.
Lemma get_reg_usize h r : hart_wf h → (r < 32)%nat → is_usize (get_reg r h).
Proof.
  intros (Hl & Hr & _) Hlt. unfold get_reg. case_decide; [unfold is_usize; lia|].
  rewrite list_lookup_total_alt. destruct (lookup_lt_is_Some_2 (regs h) r) as [v Hv]; [lia|]. rewrite Hv.
  by apply (Forall_lookup_1 _ _ _ _ Hr Hv).
Qed.
Lemma stored_ok h l g : hart_wf h → Forall (λ p : nat * Z, (p.1 < 32)%nat ∧ 0 ≤ (g p.2).2 < 512) l → Forall ok_write (stored g h l).
Proof.
  intros Hh Hl. apply Forall_fmap. eapply Forall_impl; [exact Hl|]. intros [r i] [Hr Hi]. split; [done|by apply get_reg_usize].
Qed.

(** The context at [a] is mapped, its words at different places in the pages [D],
    which hold no part of the page table. *)
Record ctx_env (D : list Z) (m : pmem) (satp a : Z) (f : Z → Z * Z) : Prop := {
  ctx_fixed : map_fixed D m satp;
  ctx_mapped : Forall (λ i, sv39 true m satp (a +u i * 8) = Some (f i)) (seqZ 0 14);
  ctx_D p : p ∈ (places f).*1 → p ∈ D;
  ctx_nodup : NoDup (places f);
}.
Section context.
Context (D : list Z) (m : pmem) (satp a : Z) (f : Z → Z * Z).
Hypothesis cenv : ctx_env D m satp a f.

Lemma place_in i : 0 ≤ i < 14 → f i ∈ places f.
Proof. intros Hi. apply list_elem_of_fmap. exists i. split; [done|]. apply elem_of_seqZ. lia. Qed.
Lemma place_in_D i : 0 ≤ i < 14 → (f i).1 ∈ D.
Proof. intros Hi. apply (ctx_D _ _ _ _ _ cenv). apply list_elem_of_fmap. exists (f i). split; [done|by apply place_in]. Qed.
Lemma place_range i : 0 ≤ i < 14 → 0 ≤ (f i).2 < 512.
Proof.
  intros Hi. pose proof (ctx_mapped _ _ _ _ _ cenv) as H. rewrite Forall_forall in H.
  specialize (H i ltac:(apply elem_of_seqZ; lia)). unfold sv39 in H. destruct (_ || _); [done|].
  destruct (pt_lookup _ _ _); [|done]. destruct (_ && _ && _); [|done]. injection H as <-. cbn.
  change PAGE_SIZE with 4096. pose proof (Z.mod_pos_bound (a +u i * 8) 4096). split; [apply Z.div_pos; lia|apply Z.div_lt_upper_bound; lia].
Qed.
Lemma save_run h b : c_satp h = satp → get_reg b h = a → agree D m (h_mem h) →
  run (stores b callee_words) h = Some (set_mem (writes (h_mem h) (stored f h callee_words)) h, Next).
Proof.
  intros Hs Hb Ha. apply (run_stores D m (satp) a); [apply cenv|done..|].
  apply (callee_Forall (λ i, sv39 true m (satp) (a +u i * 8) = Some (f i) ∧ (f i).1 ∈ D)). intros i Hi. split; [|by apply place_in_D].
  pose proof (ctx_mapped _ _ _ _ _ cenv) as H. rewrite Forall_forall in H. apply H, elem_of_seqZ. lia.
Qed.
Lemma load_run h b : c_satp h = satp → get_reg b h = a → agree D m (h_mem h) → b ∉ callee → b ≠ 0%nat →
  run (loads b callee_words) h = Some (set_regs (loaded (h_mem h) f callee_words (regs h)) h, Next).
Proof.
  intros Hs Hb Ha Hc H0. apply (run_loads D m (satp) a); [apply cenv|done..| |].
  - cbn. apply (bool_decide_unpack _). vm_compute. done.
  - apply (callee_Forall (λ i, sv39 false m (satp) (a +u i * 8) = Some (f i))). intros i Hi. apply sv39_weaken.
    pose proof (ctx_mapped _ _ _ _ _ cenv) as H. rewrite Forall_forall in H. apply H, elem_of_seqZ. lia.
Qed.
Lemma stored_places h : (stored f h callee_words).*1 = places f.
Proof. reflexivity. Qed.
Lemma saved_ok h : hart_wf h → Forall ok_write (stored f h callee_words).
Proof.
  intros Hh. apply stored_ok; [done|].
  assert (Hl : Forall (λ p : nat * Z, (p.1 < 32)%nat ∧ 0 ≤ p.2 < 14) callee_words) by (apply (bool_decide_unpack _); by vm_compute).
  eapply Forall_impl; [exact Hl|]. intros [r i] [Hr Hi]. split; [done|by apply place_range].
Qed.
Lemma saved_context h m1 : hart_wf h → pmem_wf m1 →
  Context_at (writes m1 (stored f h callee_words)) f (callee_of (regs h)).
Proof.
  intros Hh Hm. pose proof (saved_ok h Hh) as Hok. pose proof (ctx_nodup _ _ _ _ _ cenv) as Hnd.
  rewrite <- (stored_places h) in Hnd. unfold Context_at. apply list_eq. intros k. rewrite list_lookup_fmap.
  destruct (seqZ 0 14 !! k) as [i|] eqn:Hk.
  - apply lookup_seqZ in Hk as [-> Hk]. cbn [fmap option_fmap option_map].
    assert (Hw : stored f h callee_words !! k = Some ((f (Z.of_nat k)), ProcessContext_words (callee_of (regs h)) !!! k)).
    { do 14 (destruct k as [|k]; [reflexivity|]). lia. }
    change (0 + Z.of_nat k) with (Z.of_nat k). destruct (f (Z.of_nat k)) as [p j] eqn:Ef. cbn [fst snd].
    rewrite (get_writes_in _ k p j _ _ Hm Hok Hnd Hw). symmetry. apply list_lookup_lookup_total_lt. cbn. lia.
  - apply lookup_ge_None in Hk. rewrite length_seqZ in Hk. symmetry. apply lookup_ge_None_2. cbn. lia.
Qed.
Lemma saved_agree h m1 : agree D m1 (writes m1 (stored f h callee_words)).
Proof.
  apply writes_agree. apply Forall_fmap. apply (callee_Forall (λ i, (f i).1 ∈ D)). intros i Hi. by apply place_in_D.
Qed.
Lemma saved_elsewhere h m1 q j : hart_wf h → pmem_wf m1 → 0 ≤ j < 512 → (q, j) ∉ places f →
  get_pte (writes m1 (stored f h callee_words)) q j = get_pte m1 q j.
Proof. intros Hh Hm Hj Hq. apply get_writes_out; [done|by apply saved_ok|done|by rewrite stored_places]. Qed.
End context.

(** The pages the code writes. *)
Definition data_pages (tfp : Z) (f : Z → Z * Z) : list Z := tfp :: (places f).*1.

Section call.
Context (m : pmem) (kpt upt : PageTable) (tfp cx : Z) (f : Z → Z * Z).
Hypothesis env : call_env m kpt upt tfp cx f.
#[local] Abbreviation D := (data_pages tfp f).

Lemma kernel_fixed : map_fixed D m (PageTable_token kpt).
Proof.
  apply table_fixed; [apply env..|]. intros q Hq. apply not_elem_of_cons, (env_tables _ _ _ _ _ _ env), elem_of_app. by left.
Qed.
Lemma user_fixed : map_fixed D m (PageTable_token upt).
Proof.
  apply table_fixed; [apply env..|]. intros q Hq. apply not_elem_of_cons, (env_tables _ _ _ _ _ _ env), elem_of_app. by right.
Qed.
Lemma kernel_ctx : ctx_env D m (PageTable_token kpt) cx f.
Proof. split; [apply kernel_fixed|apply env| |apply env]. intros p Hp. by right. Qed.
Lemma tf_sv39 w i : 0 ≤ i < 512 → sv39 w m (PageTable_token upt) (0xFFFFFFFFFFFFE000 +u i * 8) = Some (tfp, i).
Proof. intros Hi. apply TRAPFRAME_sv39; [apply env|done|apply env]. Qed.


(** Blocks on the trap frame; [sp] holds its address. *)
Definition tf_place (i : Z) : Z * Z := (tfp, i).
Lemma tf_store_run h l : c_satp h = PageTable_token upt → get_reg r_sp h = 0xFFFFFFFFFFFFE000 → agree D m (h_mem h) →
  Forall (λ p : nat * Z, 0 ≤ p.2 < 512) l →
  run (stores r_sp l) h = Some (set_mem (writes (h_mem h) (stored tf_place h l)) h, Next).
Proof.
  intros Hs Hb Ha Hl. apply (run_stores D m (PageTable_token upt) 0xFFFFFFFFFFFFE000); [apply user_fixed|done..|].
  eapply Forall_impl; [exact Hl|]. intros [r i] Hi. split; [by apply tf_sv39|]. by left.
Qed.
Lemma tf_load_run h l : c_satp h = PageTable_token upt → get_reg r_sp h = 0xFFFFFFFFFFFFE000 → agree D m (h_mem h) →
  Forall (λ p : nat * Z, 0 ≤ p.2 < 512) l → r_sp ∉ l.*1 → 0%nat ∉ l.*1 →
  run (loads r_sp l) h = Some (set_regs (loaded (h_mem h) tf_place l (regs h)) h, Next).
Proof.
  intros Hs Hb Ha Hl Hsp H0. apply (run_loads D m (PageTable_token upt) 0xFFFFFFFFFFFFE000); [apply user_fixed|done..|].
  eapply Forall_impl; [exact Hl|]. intros [r i] Hi. by apply tf_sv39.
Qed.
Lemma tf_load_step h rd i c : c_satp h = PageTable_token upt → get_reg r_sp h = 0xFFFFFFFFFFFFE000 → agree D m (h_mem h) →
  0 ≤ i < 512 → run (Ld rd (i * 8) r_sp :: c) h = run c (set_reg rd (get_pte (h_mem h) tfp i) h).
Proof. intros Hs Hb Ha Hi. cbn. rewrite Hs, Hb, (user_fixed (h_mem h)), tf_sv39 by done. done. Qed.

Lemma tf_not_place j : (tfp, j) ∉ places f.
Proof.
  intros Hin. apply (env_apart _ _ _ _ _ _ env). apply list_elem_of_fmap. by exists (tfp, j).
Qed.

Lemma saved_frame h : hart_wf h → h_mem h = m →
  let m1 := writes m (stored f h callee_words) in
  agree D m m1 ∧ (∀ j, 0 ≤ j < 512 → get_pte m1 tfp j = get_pte m tfp j) ∧ pmem_wf m1.
Proof.
  intros Hh Hm. assert (Hw : pmem_wf m) by (rewrite <- Hm; apply Hh). split_and!.
  - apply (saved_agree _ _ _ _ _ kernel_ctx).
  - intros j Hj. apply (saved_elsewhere _ _ _ _ _ kernel_ctx); [done..|]. apply tf_not_place.
  - apply writes_wf; [done|by apply (saved_ok _ _ _ _ _ kernel_ctx)].
Qed.

(** ** Into user mode *)
(** The memory [__restore] leaves: its caller's registers in the context, and the
    context's address in the trap frame. *)
Definition restored_mem (h : hart) : pmem :=
  writes (writes (h_mem h) (stored f h callee_words)) [((tfp, 36), cx)].

Lemma restore_run h tf :
  hart_wf h → c_satp h = PageTable_token kpt → get_reg r_a0 h = cx → get_reg r_a1 h = PageTable_token upt →
  h_mem h = m → TrapFrame_at m tfp tf →
  run __restore h =
    Some (mkHart (all_but_tp (x tf) (regs h)) (sstatus tf) (sepc tf) (PageTable_token upt) TRAPFRAME (restored_mem h), Leave).
Proof.
  intros Hh Hs Ha0 Ha1 Hm [Hx Htf]. unfold restored_mem. rewrite __restore_blocks, Hm.
  destruct (saved_frame h Hh Hm) as (Hag & Hm1 & Hw1). block; [apply (save_run _ _ _ _ _ kernel_ctx); [done..|by rewrite Hm]|]. rewrite Hm.
  revert Hag Hm1 Hw1. generalize (writes m (stored f h callee_words)) as m1. intros m1 Hag Hm1 Hw1.
  pose proof (env_cx_usize _ _ _ _ _ _ env) as Hcx. set (m2 := writes m1 [((tfp, 36), cx)]).
  assert (Hag2 : agree D m m2) by (etrans; [exact Hag|apply agree_set_pte; by left]).
  assert (Hget : ∀ j, 0 ≤ j < 512 → j ≠ 36 → get_pte m2 tfp j = get_pte m tfp j).
  { intros j Hj Hne. cbn. rewrite get_set_pte by done. rewrite decide_False by congruence. by apply Hm1. }
  destruct h as [rs st ep sa sc hm]. destruct Hh as [Hl _]. cbn in Hl, Hs, Hm.
  destruct (list_32 rs Hl) as (a0&a1&a2&a3&a4&a5&a6&a7&a8&a9&a10&a11&a12&a13&a14&a15&a16&a17&a18&a19&a20&a21&a22&a23&a24&a25&a26&a27&a28&a29&a30&a31&->).
  change (a10 = cx) in Ha0. change (a11 = PageTable_token upt) in Ha1. subst sa a10 a11 hm.
  block; [small|]. block; [apply tf_store_run; side|].
  change (writes _ (stored tf_place _ _)) with m2. clearbody m2. block; [small|].
  block; [apply tf_load_run; side|].
  block; [small|].
  block; [apply tf_load_run; side|].
  rewrite tf_load_step; [|side..].
  destruct tf as [xs ss se ks kp th]. cbn in Hx.
  destruct (list_32 xs Hx) as (b0&b1&b2&b3&b4&b5&b6&b7&b8&b9&b10&b11&b12&b13&b14&b15&b16&b17&b18&b19&b20&b21&b22&b23&b24&b25&b26&b27&b28&b29&b30&b31&->).
  cbv -[get_pte PageTable_token] in Htf |- *. injection Htf. intros. rewrite !Hget by lia. congruence.
Qed.

Lemma restored_facts h tf : hart_wf h → h_mem h = m → TrapFrame_at m tfp tf →
  TrapFrame_at (restored_mem h) tfp (tf_set_handler cx tf) ∧ Context_at (restored_mem h) f (callee_of (regs h)) ∧
  agree D m (restored_mem h) ∧ pmem_wf (restored_mem h) ∧
  ∀ q j, 0 ≤ j < 512 → q ≠ tfp → (q, j) ∉ places f → get_pte (restored_mem h) q j = get_pte m q j.
Proof.
  intros Hh Hm [Hx Htf]. pose proof (env_cx_usize _ _ _ _ _ _ env) as Hcx.
  destruct (saved_frame h Hh Hm) as (Hag & Hm1 & Hw1). unfold restored_mem. rewrite Hm.
  assert (Hw : pmem_wf m) by (rewrite <- Hm; apply Hh). pose proof (saved_context _ _ _ _ _ kernel_ctx h m Hh Hw) as Hc.
  assert (Hel : ∀ q j, 0 ≤ j < 512 → (q, j) ∉ places f → get_pte (writes m (stored f h callee_words)) q j = get_pte m q j)
    by (intros; by apply (saved_elsewhere _ _ _ _ _ kernel_ctx)).
  revert Hag Hm1 Hw1 Hc Hel. generalize (writes m (stored f h callee_words)) as m1. intros m1 Hag Hm1 Hw1 Hc Hel. cbn [writes foldl fst snd].
  assert (Hget : ∀ q j, 0 ≤ j < 512 → get_pte (set_pte m1 tfp 36 cx) q j = if decide ((q, j) = (tfp, 36)) then cx else get_pte m1 q j)
    by (intros; by apply get_set_pte).
  split_and!.
  - split; [done|]. destruct tf as [xs ss se ks kp th]. cbn in Hx.
    destruct (list_32 xs Hx) as (b0&b1&b2&b3&b4&b5&b6&b7&b8&b9&b10&b11&b12&b13&b14&b15&b16&b17&b18&b19&b20&b21&b22&b23&b24&b25&b26&b27&b28&b29&b30&b31&->).
    assert (Ho : ∀ j, 0 ≤ j < 36 → get_pte (set_pte m1 tfp 36 cx) tfp j = get_pte m tfp j)
      by (intros j Hj; rewrite Hget, decide_False by (lia || (intros [=]; lia)); apply Hm1; lia).
    assert (H36 : get_pte (set_pte m1 tfp 36 cx) tfp 36 = cx) by (rewrite Hget by lia; by rewrite decide_True).
    cbv -[get_pte set_pte] in Htf |- *. injection Htf. intros. rewrite H36, !Ho by lia. congruence.
  - unfold Context_at in *. rewrite <- Hc. apply list_fmap_ext. intros k i Hk. apply lookup_seqZ in Hk as [-> Hk].
    rewrite Hget by (apply (place_range _ _ _ _ _ kernel_ctx); lia). rewrite decide_False; [done|]. intros E.
    apply (tf_not_place 36). rewrite <- E, <- surjective_pairing. apply place_in. lia.
  - etrans; [exact Hag|]. apply agree_set_pte. by left.
  - by apply pmem_wf_set_pte.
  - intros q j Hj Hq Hp. rewrite Hget, decide_False by (done || congruence). by apply Hel.
Qed.

(** ** Back into the kernel *)
Definition tf_writes (l : list (Z * Z)) : list ((Z * Z) * Z) := (λ p, ((tfp, p.1), p.2)) <$> l.
Lemma get_tf_writes l j : ∀ m1, pmem_wf m1 → Forall (λ p, 0 ≤ p.1 < 512 ∧ is_usize p.2) l → 0 ≤ j < 512 →
  get_pte (writes m1 (tf_writes l)) tfp j = foldl (λ v p, if p.1 =? j then p.2 else v) (get_pte m1 tfp j) l.
Proof.
  induction l as [|[i v] l IH]; intros m1 Hm1; [done|]. intros [[Hi Hv] Hl]%Forall_cons Hj. cbn [tf_writes fmap list_fmap writes foldl fst snd] in *.
  rewrite <- (get_set_pte_if m1 i v) by done. apply IH; [by apply pmem_wf_set_pte|done..].
Qed.
Lemma TrapFrame_at_words m1 p tf : TrapFrame_at m1 p tf → get_pte m1 p 34 = kernel_satp tf ∧ get_pte m1 p 36 = trap_handler tf.
Proof.
  intros [Hx Htf]. destruct tf as [xs ss se ks kp th]. cbn in Hx.
  pose proof (f_equal (λ l, l !! 34%nat) Htf) as H34. pose proof (f_equal (λ l, l !! 36%nat) Htf) as H36.
  unfold TrapFrame_words in H34, H36. cbn [x sstatus sepc kernel_satp kernel_sp trap_handler] in *.
  rewrite lookup_app_r in H34, H36 by lia. rewrite Hx in *. cbv -[get_pte] in H34, H36. naive_solver.
Qed.
(** The words [__alltraps] writes into the trap frame, in its order. *)
Definition user_words (h : hart) : list (Z * Z) :=
  ((λ n, (Z.of_nat n, get_reg n h)) <$> ([1; 3]%nat ++ seq 5 27)) ++ [(32, c_sstatus h); (33, c_sepc h); (2, get_reg r_sp h)].
Lemma user_words_ok h : hart_wf h → Forall (λ p, 0 ≤ p.1 < 512 ∧ is_usize p.2) (user_words h).
Proof.
  intros Hh. apply Forall_app. split.
  - apply Forall_fmap. assert (Hl : Forall (λ n, n < 32)%nat ([1; 3]%nat ++ seq 5 27)) by (apply (bool_decide_unpack _); by vm_compute).
    eapply Forall_impl; [exact Hl|]. intros n Hn. cbn in *. split; [lia|by apply get_reg_usize].
  - pose proof (get_reg_usize h r_sp Hh ltac:(unfold r_sp; lia)). destruct Hh as (_ & _ & Hst & Hep & _).
    repeat (apply Forall_cons_2; [split; [by vm_compute|done]|]). done.
Qed.
(** The frame [__alltraps] leaves. *)
Definition trapped_frame (h : hart) (tf : TrapFrame) : TrapFrame :=
  mkTrapFrame (all_but_tp (regs h) (x tf)) (c_sstatus h) (c_sepc h) (kernel_satp tf) (kernel_sp tf) (trap_handler tf).
Lemma user_words_frame h tf : hart_wf h → h_mem h = m → TrapFrame_at m tfp tf →
  TrapFrame_at (writes m (tf_writes (user_words h))) tfp (trapped_frame h tf) ∧
  (∀ q j, 0 ≤ j < 512 → q ≠ tfp → get_pte (writes m (tf_writes (user_words h))) q j = get_pte m q j).
Proof.
  intros Hh Hm [Hx Htf]. pose proof (user_words_ok h Hh) as Hok. assert (Hw : pmem_wf m) by (rewrite <- Hm; apply Hh). split.
  - assert (Hg : ∀ j, 0 ≤ j < 512 → get_pte (writes m (tf_writes (user_words h))) tfp j =
      foldl (λ v p, if p.1 =? j then p.2 else v) (get_pte m tfp j) (user_words h)) by (intros; by apply get_tf_writes).
    revert Hg. generalize (writes m (tf_writes (user_words h))) as m1. intros m1 Hg. destruct Hh as [Hl _].
    destruct tf as [xs ss se ks kp th], h as [rs st ep sa sc hm]. cbn in Hx, Hl.
    destruct (list_32 xs Hx) as (b0&b1&b2&b3&b4&b5&b6&b7&b8&b9&b10&b11&b12&b13&b14&b15&b16&b17&b18&b19&b20&b21&b22&b23&b24&b25&b26&b27&b28&b29&b30&b31&->).
    destruct (list_32 rs Hl) as (a0&a1&a2&a3&a4&a5&a6&a7&a8&a9&a10&a11&a12&a13&a14&a15&a16&a17&a18&a19&a20&a21&a22&a23&a24&a25&a26&a27&a28&a29&a30&a31&->).
    split; [done|]. cbv -[get_pte] in Htf. injection Htf. intros. clear Htf.
    assert (Hg' : get_pte m1 tfp <$> seqZ 0 37 = (λ j, foldl (λ v p, if p.1 =? j then p.2 else v) (get_pte m tfp j)
      (user_words (mkHart [a0; a1; a2; a3; a4; a5; a6; a7; a8; a9; a10; a11; a12; a13; a14; a15; a16; a17; a18; a19; a20; a21; a22; a23; a24; a25; a26; a27; a28; a29; a30; a31] st ep sa sc hm))) <$> seqZ 0 37).
    { apply list_fmap_ext. intros k j Hj. apply lookup_seqZ in Hj as [-> Hj]. apply Hg. lia. }
    rewrite Hg'. clear Hg Hg'. cbv -[get_pte]. congruence.
  - intros q j Hj Hq. apply get_writes_out; [done| |done|].
    + apply Forall_fmap. eapply Forall_impl; [exact Hok|]. by intros [].
    + unfold tf_writes. rewrite <- list_fmap_compose. intros ([i v] & E & _)%list_elem_of_fmap. cbn in E. congruence.
Qed.
Lemma Context_at_words m1 g c : Context_at m1 g c →
  c = mkContext (get_pte m1 (g 0).1 (g 0).2) (get_pte m1 (g 1).1 (g 1).2) ((λ i, get_pte m1 (g i).1 (g i).2) <$> seqZ 2 12).
Proof.
  destruct c as [r s l]. intros Hc. unfold Context_at in Hc. change (seqZ 0 14) with (0 :: 1 :: seqZ 2 12) in Hc.
  rewrite !fmap_cons in Hc. injection Hc as <- <- <-. done.
Qed.

Lemma alltraps_run h tf c :
  hart_wf h → c_satp h = PageTable_token upt → c_sscratch h = TRAPFRAME → h_mem h = m →
  TrapFrame_at m tfp tf → kernel_satp tf = PageTable_token kpt → trap_handler tf = cx → Context_at m f c →
  ∃ rs, run __alltraps h =
    Some (mkHart rs (c_sstatus h) (c_sepc h) (PageTable_token kpt) (get_reg r_sp h) (writes m (tf_writes (user_words h))), Jump (ra c)) ∧
    callee_of rs = c.
Proof.
  intros Hh Hs Hsc Hm Htf Hks Hth Hc. rewrite __alltraps_blocks.
  destruct (user_words_frame h tf Hh Hm Htf) as (Htf' & Hget).
  destruct (TrapFrame_at_words _ _ _ Htf') as [H34 H36]. cbn [trapped_frame kernel_satp trap_handler] in H34, H36. rewrite Hks in H34. rewrite Hth in H36.
  assert (Hag : agree D m (writes m (tf_writes (user_words h)))) by (apply agree_writes; [done|apply Forall_fmap, Forall_true; by left]).
  assert (Hc' : Context_at (writes m (tf_writes (user_words h))) f c).
  { unfold Context_at in *. rewrite <- Hc. apply list_fmap_ext. intros k i Hk. apply lookup_seqZ in Hk as [-> Hk]. 
    apply Hget; [apply (place_range _ _ _ _ _ kernel_ctx); lia|]. intros E. apply (tf_not_place (f (0 + Z.of_nat k)).2). rewrite <- E, <- surjective_pairing. apply place_in. lia. }
  clear Htf' Hget Hc. rewrite (Context_at_words _ _ _ Hc'). cbn [ra]. clear Hc' c.
  remember (writes m (tf_writes (user_words h))) as W eqn:HW.
  destruct h as [rs st ep sa sc hm]. destruct Hh as [Hl _]. cbn in Hl, Hs, Hsc, Hm.
  destruct (list_32 rs Hl) as (a0&a1&a2&a3&a4&a5&a6&a7&a8&a9&a10&a11&a12&a13&a14&a15&a16&a17&a18&a19&a20&a21&a22&a23&a24&a25&a26&a27&a28&a29&a30&a31&->).
  subst sa sc hm. eexists. split.
  - block; [small|]. block; [apply tf_store_run; side|].
    block; [small|]. block; [apply tf_store_run; tf_side|].
    block; [small|]. block; [apply tf_store_run; tf_side|].
    match goal with |- context [set_mem ?M _] =>
      assert (E : M = W) by (rewrite HW; cbv -[set_pte PageTable_token]; reflexivity); rewrite E; clear E HW end.
    block; [apply tf_load_run; side|].
    lazymatch goal with |- run (_ ++ ?c) ?h = _ => change (run (_ ++ c) h) with (run (Ld r_sp (35 * 8) r_sp :: ([Csrw Csatp r_t0; Sfence_vma] ++ c)) h) end.
    rewrite tf_load_step; [|side..]. block; [small|]. rewrite H34, H36.
    block; [apply (load_run _ _ _ _ _ kernel_ctx); side|]. small.
  - reflexivity.
Qed.
End call.

(** ** A run of the user program *)
(** The address spaces only depend on their tables. *)
Lemma call_env_local m m' kpt upt tfp cx f :
  call_env m kpt upt tfp cx f →
  (∀ q, q ∈ frames kpt ++ frames upt → get_bytes_array m' q = get_bytes_array m q) → call_env m' kpt upt tfp cx f.
Proof.
  intros env Hq. destruct env as [Hk Hu Hkr Hur Htf Hcx Hc Hnd Hap Hta].
  assert (Hk' : ∀ q, q ∈ frames kpt → get_bytes_array m' q = get_bytes_array m q) by (intros; apply Hq, elem_of_app; by left).
  assert (Hu' : ∀ q, q ∈ frames upt → get_bytes_array m' q = get_bytes_array m q) by (intros; apply Hq, elem_of_app; by right).
  split; [by eapply pt_wf_local|by eapply pt_wf_local|done|done| | |done..].
  - by rewrite (pt_lookup_local m).
  - eapply Forall_impl; [exact Hcx|]. intros i <-. destruct (token_satp kpt Hkr) as (_ & E & _). unfold sv39. rewrite E.
    by rewrite (pt_lookup_local m).
Qed.

(** From the return to user mode to the next trap, the user program changes its
    registers and pages its page table lets it write. *)
Definition user_ran (root : Z) (h h' : hart) : Prop :=
  hart_wf h' ∧ c_satp h' = c_satp h ∧ c_sscratch h' = c_sscratch h ∧
  ∀ p, get_bytes_array (h_mem h') p ≠ get_bytes_array (h_mem h) p → user_page (h_mem h) root p.

Lemma user_ran_page root h h' p :
  user_ran root h h' → ¬ user_page (h_mem h) root p → get_bytes_array (h_mem h') p = get_bytes_array (h_mem h) p.
Proof. intros (_ & _ & _ & H) Hp. destruct (decide (get_bytes_array (h_mem h') p = get_bytes_array (h_mem h) p)); naive_solver. Qed.

Lemma TrapFrame_at_page m m' p tf : get_bytes_array m' p = get_bytes_array m p → TrapFrame_at m p tf → TrapFrame_at m' p tf.
Proof. intros E [Hx H]. split; [done|]. rewrite <- H. apply list_fmap_ext. intros k i _. unfold get_pte. by rewrite E. Qed.
Lemma Context_at_page m m' f c :
  (∀ p, p ∈ (places f).*1 → get_bytes_array m' p = get_bytes_array m p) → Context_at m f c → Context_at m' f c.
Proof.
  intros E H. unfold Context_at in *. rewrite <- H. apply list_fmap_ext. intros k i Hk. unfold get_pte. rewrite E; [done|].
  apply list_elem_of_fmap. exists (f i). split; [done|]. apply list_elem_of_fmap. exists i. split; [done|]. by eapply list_elem_of_lookup_2.
Qed.
Lemma user_page_agree m m' upt p : pt_wf m upt → (∀ q, q ∈ frames upt → get_bytes_array m' q = get_bytes_array m q) →
  user_page m' (root_ppn upt) p → user_page m (root_ppn upt) p.
Proof. intros Hwf Hq (vpn & e & He & H). exists vpn, e. by rewrite (pt_lookup_local m m' upt vpn Hwf Hq) in He. Qed.
Lemma TrapFrame_at_usize m p tf : pmem_wf m → TrapFrame_at m p tf → Forall is_usize (TrapFrame_words tf).
Proof.
  intros Hm [_ <-]. apply Forall_fmap, Forall_forall. intros i Hi%elem_of_seqZ. apply get_pte_range; [done|lia].
Qed.
Lemma all_but_tp_usize l l' : length l = 32%nat → length l' = 32%nat → Forall is_usize l → Forall is_usize l' →
  length (all_but_tp l l') = 32%nat ∧ Forall is_usize (all_but_tp l l').
Proof.
  intros Hl Hl' Hu Hu'. unfold all_but_tp. rewrite !length_insert. split; [done|].
  assert (H : ∀ k, (k < 32)%nat → is_usize (l' !!! k)).
  { intros k Hk. destruct (lookup_lt_is_Some_2 l' k) as [v Hv]; [lia|]. rewrite (list_lookup_total_correct _ _ _ Hv).
    by apply (Forall_lookup_1 _ _ _ _ Hu' Hv). }
  by apply Forall_insert; [apply Forall_insert|]; [|apply H; lia..].
Qed.

(** C3. The trampoline runs a user program as a function call.  [__restore], called
    with a place for the caller's registers and the user's page table, starts the
    user program with the registers, status and program counter of its trap
    frame, in its address space; [tp] alone is not restored.  Whatever the program
    then does in user mode, at the trap that ends the run [__alltraps] returns
    behind the call, in the kernel's address space, with the registers a called
    function keeps as they were, and the trap frame holds the registers of the
    user program, [tp] excepted, its status and program counter.  No other memory
    changes on the way in but the caller's place, and none on the way out. *)
Theorem trampoline_round_trip kpt upt tfp cx f h tf :
  call_env (h_mem h) kpt upt tfp cx f → hart_wf h → c_satp h = PageTable_token kpt →
  get_reg r_a0 h = cx → get_reg r_a1 h = PageTable_token upt →
  TrapFrame_at (h_mem h) tfp tf → kernel_satp tf = PageTable_token kpt →
  (∀ p, user_page (h_mem h) (root_ppn upt) p → p ∉ (frames kpt ++ frames upt) ∧ p ∉ data_pages tfp f) →
  ∃ h1, run __restore h = Some (h1, Leave) ∧
    regs h1 = all_but_tp (x tf) (regs h) ∧ c_sstatus h1 = sstatus tf ∧ c_sepc h1 = sepc tf ∧ c_satp h1 = PageTable_token upt ∧ hart_wf h1 ∧
    (∀ q j, 0 ≤ j < 512 → q ≠ tfp → (q, j) ∉ places f → get_pte (h_mem h1) q j = get_pte (h_mem h) q j) ∧
    ∀ h2, user_ran (root_ppn upt) h1 h2 →
      ∃ h3, run __alltraps h2 = Some (h3, Jump (get_reg r_ra h)) ∧
        callee_of (regs h3) = callee_of (regs h) ∧ c_satp h3 = PageTable_token kpt ∧
        TrapFrame_at (h_mem h3) tfp (mkTrapFrame (all_but_tp (regs h2) (x tf)) (c_sstatus h2) (c_sepc h2)
                                       (kernel_satp tf) (kernel_sp tf) cx) ∧
        (∀ q j, 0 ≤ j < 512 → q ≠ tfp → get_pte (h_mem h3) q j = get_pte (h_mem h2) q j).
Proof.
  intros env Hh Hs Ha0 Ha1 Htf Hks Hup. eexists. split; [by apply (restore_run _ _ _ _ _ _ env)|].
  destruct (restored_facts _ _ _ _ _ _ env h tf Hh eq_refl Htf) as (Htf1 & Hc1 & Hag & Hw1 & Hel).
  assert (Hwf1 : hart_wf (mkHart (all_but_tp (x tf) (regs h)) (sstatus tf) (sepc tf) (PageTable_token upt) TRAPFRAME (restored_mem tfp cx f h))).
  { pose proof (TrapFrame_at_usize _ _ _ (proj2 (proj2 (proj2 (proj2 (proj2 (proj2 Hh)))))) Htf) as [Hxu Hu]%Forall_app.
    rewrite !Forall_cons in Hu. destruct (token_satp upt (env_uroot _ _ _ _ _ _ env)) as (_ & _ & Htok).
    destruct (all_but_tp_usize (x tf) (regs h)) as [Hl1 Hu1]; [apply Htf|apply Hh|done|apply Hh|]. by split_and!; try apply Hu. }
  cbn [regs c_sstatus c_sepc c_satp h_mem]. split; [done|]. split; [done|]. split; [done|]. split; [done|]. split; [done|]. split; [done|].
  clear Hel. revert Htf1 Hc1 Hag Hw1 Hwf1. generalize (restored_mem tfp cx f h) as m1. intros m1 Htf1 Hc1 Hag Hw1 Hwf1 h2 Hran. clear Hw1 Hwf1.
  assert (Htab : ∀ q, q ∈ frames kpt ++ frames upt → get_bytes_array m1 q = get_bytes_array (h_mem h) q).
  { intros q Hq. apply Hag, not_elem_of_cons, (env_tables _ _ _ _ _ _ env), Hq. }
  assert (Hkeep : ∀ q, q ∈ frames kpt ++ frames upt ∨ q ∈ data_pages tfp f → get_bytes_array (h_mem h2) q = get_bytes_array m1 q).
  { intros q Hq. apply (user_ran_page _ _ _ _ Hran). intros Hu%(user_page_agree (h_mem h)); [|apply env|].
    - destruct (Hup q Hu). tauto.
    - intros q' Hq'. apply Htab, elem_of_app. by right. }
  assert (env2 : call_env (h_mem h2) kpt upt tfp cx f).
  { apply (call_env_local (h_mem h)); [done|]. intros q Hq. rewrite Hkeep by (by left). by apply Htab. }
  assert (Htf2 : TrapFrame_at (h_mem h2) tfp (tf_set_handler cx tf)).
  { apply (TrapFrame_at_page m1); [apply Hkeep; right; by left|done]. }
  assert (Hc2 : Context_at (h_mem h2) f (callee_of (regs h))).
  { apply (Context_at_page m1); [|done]. intros p Hp. apply Hkeep. right. by right. }
  destruct Hran as (Hh2 & Hs2 & Hsc2 & _).
  destruct (alltraps_run _ _ _ _ _ _ env2 h2 _ _ Hh2 Hs2 Hsc2 eq_refl Htf2 Hks eq_refl Hc2) as (rs & Hrun & Hcal).
  destruct (user_words_frame _ tfp h2 _ Hh2 eq_refl Htf2) as [Htf3 Hel3].
  eexists. split; [exact Hrun|]. done.
Qed.

(** Two address spaces with one page each: the kernel's with a page at [0x5000],
    the user's with its trap frame. *)
Lemma pt_lookup_mod m root vpn : pt_lookup m root vpn = pt_lookup m root (vpn mod 2 ^ 27).
Proof.
  assert (E0 : vpn_i0 (vpn mod 2 ^ 27) = vpn_i0 vpn).
  { unfold vpn_i0. replace (vpn mod 2 ^ 27) with (vpn + (- (vpn / 2 ^ 27) * 512) * 2 ^ 18) by (rewrite (Z.mod_eq vpn (2 ^ 27)) by lia; ring). by rewrite Z.div_add, Z.mod_add. }
  assert (E1 : vpn_i1 (vpn mod 2 ^ 27) = vpn_i1 vpn).
  { unfold vpn_i1. replace (vpn mod 2 ^ 27) with (vpn + (- (vpn / 2 ^ 27) * 2 ^ 9 * 512) * 2 ^ 9) by (rewrite (Z.mod_eq vpn (2 ^ 27)) by lia; ring). by rewrite Z.div_add, Z.mod_add. }
  assert (E2 : vpn_i2 (vpn mod 2 ^ 27) = vpn_i2 vpn).
  { unfold vpn_i2. replace (vpn mod 2 ^ 27) with (vpn + (- (vpn / 2 ^ 27) * 2 ^ 18) * 512) by (rewrite (Z.mod_eq vpn (2 ^ 27)) by lia; ring). by rewrite Z.mod_add. }
  rewrite !pt_lookup_walk. unfold walk. by rewrite E0, E1, E2.
Qed.
Lemma witness_tables : ∃ m kpt upt,
  pmem_wf m ∧ pt_wf m kpt ∧ pt_wf m upt ∧ root_ppn kpt = 0x80500 ∧ root_ppn upt = 0x80501 ∧
  (∀ q, q ∈ frames kpt ++ frames upt → 0x80500 ≤ q) ∧
  pt_lookup m (root_ppn kpt) 5 = Some (PageTableEntry_new 0x70000 7) ∧
  (∀ vpn, is_vpn vpn → pt_lookup m (root_ppn upt) vpn = if decide (vpn = 2 ^ 27 - 2) then Some (PageTableEntry_new 0x70001 7) else None) ∧
  (∀ q, q < 0x80500 → get_bytes_array m q = zero_page).
Proof.
  destruct (witness_table 0x80500) as [Hwf Hnone]; [by left|].
  pose proof (map_spec 0x80500 0x88000 witness_mm _ (mkPT 0x80500 [0x80500]) 5 0x70000 6
    witness_mm_inv Hwf (witness_sub 0x80500 ltac:(by left))) as Hm.
  cbn [root_ppn] in Hm. rewrite Hnone in Hm. destruct Hm as (s1 & kpt & new1 & _ & Hn1 & G1); [done..|].
  pose proof (step_frames _ _ _ _ _ _ _ _ _ G1) as Hf1. cbn in Hf1.
  assert (Hz : get_bytes_array (ram s1) 0x80501 = zero_page).
  { rewrite (step_other _ _ _ _ _ _ _ _ _ G1); [done|]. rewrite Hf1. intros [?|Hin]%elem_of_cons; [done|].
    apply (step_fresh _ _ _ _ _ _ _ _ _ G1) in Hin. set_solver. }
  destruct (zero_table_wf (ram s1) 0x80501 Hz) as [Hwf2 Hnone2].
  pose proof (map_spec 0x80500 0x88000 s1 _ (mkPT 0x80501 [0x80501]) (2 ^ 27 - 2) 0x70001 6
    (step_inv _ _ _ _ _ _ _ _ _ G1) Hwf2) as Hm. cbn [root_ppn] in Hm. rewrite Hnone2 in Hm.
  destruct Hm as (s2 & upt & new2 & _ & _ & G2); [set_solver| |done..|].
  { rewrite (step_free _ _ _ _ _ _ _ _ _ G1). change (mm_free witness_mm) with (0x88000 - 0x80502). lia. }
  pose proof (step_frames _ _ _ _ _ _ _ _ _ G2) as Hf2. cbn in Hf2.
  destruct (step_inv _ _ _ _ _ _ _ _ _ G2) as [(_ & _ & _ & _ & _ & _ & Hlive) Hmwf].
  assert (Hin : ∀ q, q ∈ frames kpt ++ frames upt → q ∈ ({[0x80500; 0x80501]} ∪ list_to_set new1 ∪ list_to_set new2 : gset Z)).
  { intros q. rewrite Hf1, Hf2. set_solver. }
  assert (Hdis : ∀ q, q ∈ frames kpt → q ∉ frames upt).
  { intros q. rewrite Hf1, Hf2. intros Hq [->|Hq2]%elem_of_cons.
    - apply elem_of_cons in Hq as [?|Hq]; [done|]. apply (step_fresh _ _ _ _ _ _ _ _ _ G1) in Hq. set_solver.
    - apply (step_fresh _ _ _ _ _ _ _ _ _ G2) in Hq2. set_solver. }
  assert (Hsame : ∀ q, q ∈ frames kpt → get_bytes_array (ram s2) q = get_bytes_array (ram s1) q).
  { intros q Hq. apply (step_other _ _ _ _ _ _ _ _ _ G2). by apply Hdis. }
  assert (Hout : ∀ q, q < 0x80500 → q ∉ frames kpt ++ frames upt).
  { intros q Hq Hq'. apply Hin, Hlive in Hq'. lia. }
  pose proof (step_root _ _ _ _ _ _ _ _ _ G1) as Hr1. pose proof (step_root _ _ _ _ _ _ _ _ _ G2) as Hr2. cbn in Hr1, Hr2.
  exists (ram s2), kpt, upt. split_and!; [done|apply (pt_wf_local (ram s1)); [apply G1|done]|apply G2|done|done|..].
  - intros q Hq. destruct (Z.lt_ge_cases q 0x80500) as [Hlt|]; [by apply Hout in Hlt|done].
  - rewrite (pt_lookup_local (ram s1)); [|apply G1|done]. rewrite Hr1. by rewrite (step_lookup _ _ _ _ _ _ _ _ _ G1).
  - intros vpn Hv. rewrite Hr2. rewrite (step_lookup _ _ _ _ _ _ _ _ _ G2) by done. by rewrite Hnone2.
  - intros q Hq. specialize (Hout q Hq). rewrite elem_of_app in Hout.
    rewrite (step_other _ _ _ _ _ _ _ _ _ G2), (step_other _ _ _ _ _ _ _ _ _ G1) by tauto. cbn.
    rewrite !get_bytes_array_insert_ne by lia. done.
Qed.

Definition witness_regs (a1 : Z) : list Z :=
  [0; 0x1234; 0x6000; 3; 7; 5; 6; 7; 80; 81; 0x5000; a1; 12; 13; 14; 15; 16; 17; 82; 83; 84; 85; 86; 87; 88; 89; 90; 91; 28; 29; 30; 31].
Lemma witness_env : ∃ m kpt upt,
  call_env m kpt upt 0x70001 0x5000 (λ i, (0x70000, i)) ∧ pmem_wf m ∧
  TrapFrame_at m 0x70001 (mkTrapFrame (replicate 32 0) 0 0 (PageTable_token kpt) 0 0) ∧
  ∀ p, ¬ user_page m (root_ppn upt) p.
Proof.
  destruct witness_tables as (m & kpt & upt & Hw & Hk & Hu & Hrk & Hru & Hfr & Hlk & Hlu & Hz).
  destruct (token_satp kpt) as (Ek1 & Ek2 & Ek3); [rewrite Hrk; lia|].
  assert (Hag : ∀ q, q ∈ frames kpt ++ frames upt → get_bytes_array (set_pte m 0x70001 34 (PageTable_token kpt)) q = get_bytes_array m q).
  { intros q Hq%Hfr. apply get_bytes_array_set_pte_ne. lia. }
  assert (Hag' : ∀ q, q ∈ frames kpt ∨ q ∈ frames upt → get_bytes_array (set_pte m 0x70001 34 (PageTable_token kpt)) q = get_bytes_array m q).
  { intros q Hq. by apply Hag, elem_of_app. }
  exists (set_pte m 0x70001 34 (PageTable_token kpt)), kpt, upt. split_and!.
  - apply (call_env_local m); [|done]. split; [done|done|rewrite Hrk; lia|rewrite Hru; lia|..].
    + eexists. rewrite Hlu by done. rewrite decide_True by done. split; [done|]. by vm_compute.
    + apply Forall_forall. intros i Hi%elem_of_seqZ. unfold sv39. rewrite Ek1, Ek2. change PAGE_SIZE with 4096. rewrite uadd_small by lia.
      change 0x5000 with (5 * 4096). rewrite Z.div_add_l, (Z.div_small (i * 8)) by lia. change ((5 + 0) mod 2 ^ 27) with 5. rewrite Hlk.
      rewrite Z.add_comm, (Z.mod_add _ 5), (Z.mod_small (i * 8) 4096), Z.div_mul by lia.
      change (5 * 4096) with (2560 * 8). rewrite <- Z.mul_add_distr_r, Z.mod_mul, (proj2 (Z.leb_gt _ _)) by lia. by vm_compute.
    + by vm_compute.
    + apply (bool_decide_unpack _). by vm_compute.
    + apply (bool_decide_unpack _). by vm_compute.
    + intros q Hq%Hfr. split; [lia|]. intros Hin. assert (Hall : Forall (λ p, p = 0x70000) (places (λ i, (0x70000, i))).*1) by (apply (bool_decide_unpack _); by vm_compute).
      rewrite Forall_forall in Hall. apply Hall in Hin. lia.
  - by apply pmem_wf_set_pte.
  - split; [done|]. 
    assert (Hg : ∀ j, 0 ≤ j < 512 → get_pte (set_pte m 0x70001 34 (PageTable_token kpt)) 0x70001 j = if 34 =? j then PageTable_token kpt else 0).
    { intros j Hj. rewrite get_set_pte_if by done. rewrite get_pte_zero by (apply Hz; lia). done. }
    trans ((λ j, if 34 =? j then PageTable_token kpt else 0) <$> seqZ 0 37).
    + apply list_fmap_ext. intros k j Hj. apply lookup_seqZ in Hj as [-> Hj]. apply Hg. lia.
    + reflexivity.
  - intros p (vpn & e & He & _ & Hf). rewrite pt_lookup_mod, (pt_lookup_local m) in He; [|done|naive_solver].
    rewrite Hlu in He by (apply Z.mod_pos_bound; lia). case_decide; [|done]. injection He as <-. by vm_compute in Hf.
Qed.

Lemma trampoline_round_trip_witness : ∃ h h1 h3 rs,
  run __restore h = Some (h1, Leave) ∧ regs h1 = <[4%nat := 7]> (replicate 32 0) ∧
  run __alltraps (set_regs rs h1) = Some (h3, Jump 0x1234) ∧ rs = seqZ 0 32 ∧
  callee_of (regs h3) = mkContext 0x1234 0x6000 (seqZ 80 12) ∧ ∃ tf, TrapFrame_at (h_mem h3) 0x70001 tf ∧ x tf = <[4%nat := 0]> rs.
Proof.
  destruct witness_env as (m & kpt & upt & env & Hm & Htf & Hu).
  destruct (token_satp kpt (env_kroot _ _ _ _ _ _ env)) as (_ & _ & Htk).
  destruct (token_satp upt (env_uroot _ _ _ _ _ _ env)) as (_ & _ & Htu).
  set (h := mkHart (witness_regs (PageTable_token upt)) 0 0 (PageTable_token kpt) 0 m).
  assert (Hh : hart_wf h) by (split_and!; try done; repeat (apply Forall_cons_2; [done || by vm_compute|]); apply Forall_nil_2).
  destruct (trampoline_round_trip kpt upt 0x70001 0x5000 (λ i, (0x70000, i)) h
    (mkTrapFrame (replicate 32 0) 0 0 (PageTable_token kpt) 0 0) env Hh eq_refl eq_refl eq_refl Htf eq_refl
    (λ p Hp, match Hu p Hp with end)) as (h1 & Hrun & Hr1 & Hs1 & He1 & Ha1 & Hwf1 & _ & Hback).
  destruct (Hback (set_regs (seqZ 0 32) h1)) as (h3 & Hrun3 & Hc3 & _ & Htf3 & _).
  - destruct Hwf1 as (_ & _ & Hrest). split; [|done]. split; [done|]. split; [|exact Hrest]. apply (bool_decide_unpack _). by vm_compute.
  - exists h, h1, h3, (seqZ 0 32). split_and!; [exact Hrun|rewrite Hr1; reflexivity|exact Hrun3|reflexivity|rewrite Hc3; reflexivity|].
    eexists. split; [exact Htf3|]. reflexivity.
Defined.

(** ** The context switch *)
(** [__switch] saves the registers a called function keeps in one context, takes
    them from another and returns there; a switch back with the contexts
    exchanged returns behind this call with the registers it had. *)
Lemma switch_switches D m satp a b f g h c :
  ctx_env D m satp a f → ctx_env D m satp b g → (∀ l, l ∈ places f → l ∉ places g) →
  hart_wf h → h_mem h = m → c_satp h = satp → get_reg r_a0 h = a → get_reg r_a1 h = b → Context_at m g c →
  ∃ h', run __switch h = Some (h', Jump (ra c)) ∧ callee_of (regs h') = c ∧
    Context_at (h_mem h') f (callee_of (regs h)) ∧ Context_at (h_mem h') g c ∧
    (∀ q j, 0 ≤ j < 512 → (q, j) ∉ places f → get_pte (h_mem h') q j = get_pte m q j).
Proof.
  intros Hf Hg Hap Hh Hm Hs Ha0 Ha1 Hc. subst m. set (m1 := writes (h_mem h) (stored f h callee_words)).
  assert (Hel : ∀ q j, 0 ≤ j < 512 → (q, j) ∉ places f → get_pte m1 q j = get_pte (h_mem h) q j)
    by (intros; apply (saved_elsewhere _ _ _ _ _ Hf); [done|apply Hh|done..]).
  assert (Hc1 : Context_at m1 g c).
  { unfold Context_at in *. rewrite <- Hc. apply list_fmap_ext. intros k i Hk. apply lookup_seqZ in Hk as [-> Hk].
    apply Hel; [apply (place_range _ _ _ _ _ Hg); lia|]. rewrite <- surjective_pairing. intros Hin. apply (Hap _ Hin), place_in. lia. }
  assert (Hc0 : Context_at m1 f (callee_of (regs h))) by (apply (saved_context _ _ _ _ _ Hf); [done|apply Hh]).
  assert (Hag : agree D (h_mem h) m1) by apply (saved_agree _ _ _ _ _ Hf).
  assert (Hrun : run (stores r_a0 callee_words) h = Some (set_mem m1 h, Next)) by (by apply (save_run _ _ _ _ _ Hf)).
  clearbody m1. rewrite (Context_at_words _ _ _ Hc1). cbn [ra]. destruct h as [rs st ep sa sc hm]. destruct Hh as [Hl _].
  destruct (list_32 rs Hl) as (a0&a1&a2&a3&a4&a5&a6&a7&a8&a9&a10&a11&a12&a13&a14&a15&a16&a17&a18&a19&a20&a21&a22&a23&a24&a25&a26&a27&a28&a29&a30&a31&->).
  change (a11 = b) in Ha1. cbn in Hs. subst b satp. eexists. split_and!.
  - change __switch with (stores r_a0 callee_words ++ loads r_a1 callee_words ++ [Ret]).
    block; [exact Hrun|]. block; [apply (load_run _ _ _ _ _ Hg); side|]. small.
  - reflexivity.
  - exact Hc0.
  - rewrite <- (Context_at_words _ _ _ Hc1). exact Hc1.
  - exact Hel.
Qed.

(** ** The boot stacks *)
(** C35. The entry code gives hart [id] the [id]-th 64 KiB of the boot stack: its
    stack pointer starts at the end of them, and they lie inside the reserved
    memory exactly for the first four harts. *)
Theorem boot_stack_bounds boot_stack rust_main back h id :
  hart_wf h → get_reg r_a0 h = id → 0 ≤ id < 2 ^ 32 → 0 ≤ boot_stack < 2 ^ 56 →
  ∃ h', run (_start boot_stack rust_main back) h = Some (h', Jump rust_main) ∧
    get_reg r_sp h' = boot_stack + (id + 1) * 65536 ∧
    (get_reg r_sp h' ≤ boot_stack + boot_stack_size ↔ id < 4).
Proof.
  intros Hh Ha0 Hid Hbs. destruct h as [rs st ep sa sc hm]. destruct Hh as [Hl _]. cbn in Hl.
  destruct (list_32 rs Hl) as (a0&a1&a2&a3&a4&a5&a6&a7&a8&a9&a10&a11&a12&a13&a14&a15&a16&a17&a18&a19&a20&a21&a22&a23&a24&a25&a26&a27&a28&a29&a30&a31&->).
  change (a10 = id) in Ha0. subst a10. eexists. split; [reflexivity|].
  match goal with |- ?v = _ ∧ _ => assert (E : v = boot_stack + (id + 1) * 65536) end.
  { change (get_reg r_sp _) with (boot_stack +u wrap64 (Z.shiftl (id +u 1) 16)).
    rewrite Z.shiftl_mul_pow2, (uadd_small id) by lia. change (2 ^ 16) with 65536.
    rewrite (wrap64_small ((id + 1) * 65536)), uadd_small by (unfold is_usize; lia). done. }
  rewrite E. unfold boot_stack_size. split; [done|]. lia.
Qed.
Lemma boot_stack_bounds_witness : ∃ h',
  run (_start 0x80300000 0x80200010 0x80200008) (mkHart (replicate 32 3) 0 0 0 0 ∅) = Some (h', Jump 0x80200010) ∧
  get_reg r_sp h' = 0x80340000.
Proof.
  destruct (boot_stack_bounds 0x80300000 0x80200010 0x80200008 (mkHart (replicate 32 3) 0 0 0 0 ∅) 3) as (h' & Hrun & Hsp & _).
  - split; [done|]. split; [apply (bool_decide_unpack _); by vm_compute|]. split_and!; [by vm_compute..|apply pmem_wf_empty].
  - reflexivity.
  - lia.
  - lia.
  - exists h'. split; [exact Hrun|]. rewrite Hsp. reflexivity.
Defined.
