(* ===== verification/RiscvAddr.v ===== *)
(** * Addresses of the [riscv] crate ([riscv/src/addr])

    The crate's own address types for the paging schemes Sv32, Sv39 and Sv48
    and the guest-physical schemes of the hypervisor extension, on the bit
    fields of the crate [bit_field].  Addresses are the numbers in them; a
    constructor that panics on a number it does not accept has an [outcome]. *)

From S2P Require Import Prelude.

(** ** Bit fields ([vendor/bit_field]) *)
(** Unsigned numbers of [w] bits. *)
Section bit_field.
Context (w : Z).
Definition wrapw (x : Z) : Z := x mod 2 ^ w.
(** [bit_field/lib.rs:216-220] BitField::get_bit *)
Definition get_bit (x bit : Z) : outcome bool :=
  let! _ := assert_ (bit <? w) in
  Ok (negb (Z.land x (Z.shiftl 1 bit) =? 0)).
(** [bit_field/lib.rs:224-236] BitField::get_bits *)
Definition get_bits (x start end_ : Z) : outcome Z :=
  let! _ := assert_ (start <? w) in
  let! _ := assert_ (end_ <=? w) in
  let! _ := assert_ (start <? end_) in
  let bits := Z.shiftr (wrapw (Z.shiftl x (w - end_))) (w - end_) in
  Ok (Z.shiftr bits start).
(** [bit_field/lib.rs:240-250] BitField::set_bit *)
Definition set_bit (x bit : Z) (value : bool) : outcome Z :=
  let! _ := assert_ (bit <? w) in
  Ok (if value then Z.lor x (Z.shiftl 1 bit) else Z.ldiff x (Z.shiftl 1 bit)).
(** [bit_field/lib.rs:254-272] BitField::set_bits *)
Definition set_bits (x start end_ value : Z) : outcome Z :=
  let! _ := assert_ (start <? w) in
  let! _ := assert_ (end_ <=? w) in
  let! _ := assert_ (start <? end_) in
  let! _ := assert_ (Z.shiftr (wrapw (Z.shiftl value (w - (end_ - start)))) (w - (end_ - start)) =? value) in
  let ones := 2 ^ w - 1 in
  let bitmask := Z.ldiff ones (wrapw (Z.shiftl (Z.shiftr (Z.shiftr (wrapw (Z.shiftl ones (w - end_))) (w - end_)) start) start)) in
  Ok (Z.lor (Z.land x bitmask) (wrapw (Z.shiftl value start))).

(** A field of a number, and the number with the field replaced. *)
Definition field (x a b : Z) : Z := x / 2 ^ a mod 2 ^ (b - a).
Lemma field_range x a b : a ≤ b → 0 ≤ field x a b < 2 ^ (b - a).
Proof. intros Hab. apply Z.mod_pos_bound, Z.pow_pos_nonneg; lia. Qed.

Lemma shift_pair x n : 0 ≤ n ≤ w → Z.shiftr (wrapw (Z.shiftl x (w - n))) (w - n) = x mod 2 ^ n.
Proof.
  intros Hn. unfold wrapw. rewrite Z.shiftl_mul_pow2, Z.shiftr_div_pow2 by lia.
  replace (2 ^ w) with (2 ^ n * 2 ^ (w - n)) by (rewrite <- Z.pow_add_r by lia; f_equal; lia).
  pose proof (Z.pow_pos_nonneg 2 n). pose proof (Z.pow_pos_nonneg 2 (w - n)). rewrite Z.mul_mod_distr_r by lia. apply Z.div_mul. lia.
Qed.
Lemma mod_div_field x a b : 0 ≤ a ≤ b → x mod 2 ^ b / 2 ^ a = field x a b.
Proof.
  intros Hab. unfold field. pose proof (Z.pow_pos_nonneg 2 a). pose proof (Z.pow_pos_nonneg 2 (b - a)).
  replace (2 ^ b) with (2 ^ a * 2 ^ (b - a)) by (rewrite <- Z.pow_add_r by lia; f_equal; lia).
  rewrite Z.rem_mul_r by lia. rewrite (Z.add_comm (x mod 2 ^ a)), Z.mul_comm, Z.div_add_l by lia.
  rewrite (Z.div_small (x mod 2 ^ a)) by (apply Z.mod_pos_bound; lia). lia.
Qed.
Lemma get_bits_ok x a b : 0 ≤ a < b → b ≤ w → get_bits x a b = Ok (field x a b).
Proof.
  intros Hab Hb. unfold get_bits. rewrite !(proj2 (Z.ltb_lt _ _)), (proj2 (Z.leb_le _ _)) by lia. cbn [assert_ obind].
  f_equal. rewrite shift_pair, Z.shiftr_div_pow2 by lia. apply mod_div_field. lia.
Qed.
Lemma get_bit_ok x i : 0 ≤ i < w → get_bit x i = Ok (Z.testbit x i).
Proof.
  intros Hi. unfold get_bit. rewrite (proj2 (Z.ltb_lt _ _)) by lia. cbn. f_equal. rewrite Z.shiftl_1_l.
  destruct (Z.testbit x i) eqn:Hb; [apply negb_true_iff, Z.eqb_neq|apply negb_false_iff, Z.eqb_eq].
  - intros H0. assert (Hx : Z.testbit (Z.land x (2 ^ i)) i = true) by (rewrite Z.land_spec, Hb, Z.pow2_bits_true by lia; done).
    rewrite H0, Z.bits_0 in Hx. done.
  - apply Z.bits_inj'. intros j Hj. rewrite Z.land_spec, Z.bits_0. destruct (decide (j = i)) as [->|Hne]; [by rewrite Hb|].
    rewrite Z.pow2_bits_false by lia. apply andb_false_r.
Qed.
(** [set_bits] replaces the bits of the field. *)
Lemma set_bits_ok x a b v :
  0 ≤ x < 2 ^ w → 0 ≤ a < b → b ≤ w → 0 ≤ v < 2 ^ (b - a) →
  ∃ y, set_bits x a b v = Ok y ∧
    ∀ i, 0 ≤ i → Z.testbit y i = if (a <=? i) && (i <? b) then Z.testbit v (i - a) else Z.testbit x i.
Proof.
  intros Hx Hab Hb Hv. unfold set_bits. rewrite !(proj2 (Z.ltb_lt _ _)), (proj2 (Z.leb_le _ _)) by lia.
  rewrite shift_pair, Z.mod_small, Z.eqb_refl by lia. cbn [assert_ obind]. eexists. split; [done|]. intros i Hi.
  assert (Hsmall : ∀ y n, 0 ≤ n → 0 ≤ y < 2 ^ n → n ≤ i → Z.testbit y i = false).
  { intros y n Hn Hy Hni. rewrite <- (Z.mod_small y (2 ^ n)) by done. apply Z.mod_pow2_bits_high. lia. }
  assert (Hvs : wrapw (Z.shiftl v a) = Z.shiftl v a).
  { apply Z.mod_small. rewrite Z.shiftl_mul_pow2 by lia. split; [apply Z.mul_nonneg_nonneg; lia|].
    apply Z.lt_le_trans with (2 ^ (b - a) * 2 ^ a); [apply Z.mul_lt_mono_pos_r; lia|]. rewrite <- Z.pow_add_r by lia. apply Z.pow_le_mono_r; lia. }
  rewrite shift_pair, Hvs by lia. rewrite Z.lor_spec, Z.land_spec, Z.ldiff_spec.
  replace (2 ^ w - 1) with (Z.ones w) by (rewrite Z.ones_equiv; lia). rewrite Z.shiftl_spec by lia. unfold wrapw.
  replace (Z.ones w mod 2 ^ b) with (Z.ones b).
  2: { rewrite <- Z.land_ones by lia. apply Z.bits_inj'. intros j Hj. rewrite Z.land_spec, !Z.testbit_ones_nonneg by lia.
       destruct (Z.ltb_spec j b), (Z.ltb_spec j w); cbn; (done || lia). }
  destruct (decide (i < w)) as [Hiw|Hiw].
  - rewrite Z.testbit_ones_nonneg, (proj2 (Z.ltb_lt _ _)) by lia. rewrite Z.mod_pow2_bits_low, Z.shiftl_spec by lia.
    destruct (Z.leb_spec a i).
    + rewrite Z.shiftr_spec, Z.testbit_ones_nonneg by lia. replace (i - a + a) with i by lia.
      destruct (Z.ltb_spec i b); cbn; [by rewrite andb_false_r|]. rewrite andb_true_r.
      replace (Z.testbit v (i - a)) with false; [apply orb_false_r|]. symmetry. rewrite <- (Z.mod_small v (2 ^ (b - a))) by done. apply Z.mod_pow2_bits_high. lia.
    + rewrite (Z.testbit_neg_r _ (i - a)), (Z.testbit_neg_r v) by lia. cbn. by rewrite andb_true_r, orb_false_r.
  - rewrite (Hsmall x w) by lia. rewrite (proj2 (Z.ltb_ge i b)) by lia. rewrite andb_false_r. cbn.
    rewrite <- (Z.mod_small v (2 ^ (b - a))) by done. apply Z.mod_pow2_bits_high. lia.
Qed.
End bit_field.

(** ** The traits ([riscv/src/addr/mod.rs]) *)
(** [riscv/addr/mod.rs:1-7] Address *)
Class Address (T : Type) : Type := {
  addr_new : Z → outcome T;
  addr_page_number : T → outcome Z;
  addr_page_offset : T → outcome Z;
  addr_to_4k_aligned : T → T;
  addr_as_usize : T → outcome Z;
}.
(** [riscv/addr/mod.rs:13-16] AddressX32 *)
Class AddressX32 (T : Type) : Type := { new_u32 : Z → T; as_u32 : T → Z }.
(** [riscv/addr/mod.rs:17-20] AddressX64 *)
Class AddressX64 (T : Type) : Type := { new_u64 : Z → outcome T; as_u64 : T → Z }.
(** [riscv/addr/mod.rs:50-54] AddressL2 *)
Class AddressL2 (T : Type) : Type := {
  l2_p2_index : T → outcome Z;
  l2_p1_index : T → outcome Z;
  l2_from_page_table_indices : Z → Z → Z → outcome T;
}.
(** [riscv/addr/mod.rs:24-34] AddressL3 *)
Class AddressL3 (T : Type) : Type := {
  l3_p3_index : T → outcome Z;
  l3_p2_index : T → outcome Z;
  l3_p1_index : T → outcome Z;
  l3_from_page_table_indices : Z → Z → Z → Z → outcome T;
}.
(** [riscv/addr/mod.rs:36-48] AddressL4 *)
Class AddressL4 (T : Type) : Type := {
  l4_p4_index : T → outcome Z;
  l4_p3_index : T → outcome Z;
  l4_p2_index : T → outcome Z;
  l4_p1_index : T → outcome Z;
  l4_from_page_table_indices : Z → Z → Z → Z → Z → outcome T;
}.
(** [x.get_bits(n..) == 0], asserted. *)
Definition assert_below (x n : Z) : outcome unit := let! h := get_bits 64 x n 64 in assert_ (h =? 0).
(** [(x >> 12) << 12]. *)
Definition align_4k (x : Z) : Z := Z.shiftl (Z.shiftr x 12) 12.

(** ** Sv32 ([riscv/src/addr/sv32.rs]) *)
(** [riscv/addr/sv32.rs:5-5] VirtAddrSv32 *)
Record VirtAddrSv32 : Type := VA32 { va32 : Z }.
(** [riscv/addr/sv32.rs:6-22] Address for VirtAddrSv32 *)
#[export] Instance VirtAddrSv32_Address : Address VirtAddrSv32 := {|
  addr_new a := if a <? 2 ^ 32 then Ok (VA32 a) else Fault Unwrap;
  addr_as_usize a := Ok (va32 a);
  addr_page_number a := get_bits 32 (va32 a) 12 32;
  addr_page_offset a := get_bits 32 (va32 a) 0 12;
  addr_to_4k_aligned a := VA32 (align_4k (va32 a)) |}.
(** [riscv/addr/sv32.rs:29-43] AddressL2 for VirtAddrSv32 *)
#[export] Instance VirtAddrSv32_AddressL2 : AddressL2 VirtAddrSv32 := {|
  l2_p2_index a := get_bits 32 (va32 a) 22 32;
  l2_p1_index a := get_bits 32 (va32 a) 12 22;
  l2_from_page_table_indices p2_index p1_index offset :=
    let! _ := assert_below p2_index 10 in
    let! _ := assert_below p1_index 10 in
    let! _ := assert_below offset 12 in
    addr_new (Z.lor (Z.lor (wrap64 (Z.shiftl p2_index 22)) (wrap64 (Z.shiftl p1_index 12))) offset) |}.
(** [riscv/addr/sv32.rs:45-52] AddressX32 for VirtAddrSv32 *)
#[export] Instance VirtAddrSv32_AddressX32 : AddressX32 VirtAddrSv32 := {| new_u32 := VA32; as_u32 := va32 |}.
(** [riscv/addr/sv32.rs:55-55] PhysAddrSv32 *)
Record PhysAddrSv32 : Type := PA32 { pa32 : Z }.
(** [riscv/addr/sv32.rs:78-89] AddressX64 for PhysAddrSv32 *)
#[export] Instance PhysAddrSv32_AddressX64 : AddressX64 PhysAddrSv32 := {|
  new_u64 a := let! h := get_bits 64 a 34 64 in let! _ := assert_ (h =? 0) in Ok (PA32 a);
  as_u64 := pa32 |}.
(** [riscv/addr/sv32.rs:56-76] Address for PhysAddrSv32 *)
#[export] Instance PhysAddrSv32_Address : Address PhysAddrSv32 := {|
  addr_new := new_u64;
  addr_as_usize a := let! h := get_bits 64 (pa32 a) 32 34 in let! _ := assert_ (h =? 0) in Ok (pa32 a);
  addr_page_number a := get_bits 64 (pa32 a) 12 34;
  addr_page_offset a := get_bits 64 (pa32 a) 0 12;
  addr_to_4k_aligned a := PA32 (align_4k (pa32 a)) |}.

(** ** Sv39 ([riscv/src/addr/sv39.rs]) *)
(** [riscv/addr/sv39.rs:5-5] VirtAddrSv39 *)
Record VirtAddrSv39 : Type := VA39 { va39 : Z }.
(** [riscv/addr/sv39.rs:86-101] AddressX64 for VirtAddrSv39 *)
#[export] Instance VirtAddrSv39_AddressX64 : AddressX64 VirtAddrSv39 := {|
  new_u64 a :=
    let! s := get_bit 64 a 38 in
    let! h := get_bits 64 a 39 64 in
    let! _ := assert_ (h =? (if s then 2 ^ (64 - 39) - 1 else 0)) in
    Ok (VA39 a);
  as_u64 := va39 |}.
(** [riscv/addr/sv39.rs:12-28] Address for VirtAddrSv39 *)
#[export] Instance VirtAddrSv39_Address : Address VirtAddrSv39 := {|
  addr_new := new_u64;
  addr_as_usize a := Ok (va39 a);
  addr_page_number a := get_bits 64 (va39 a) 12 39;
  addr_page_offset a := get_bits 64 (va39 a) 0 12;
  addr_to_4k_aligned a := VA39 (align_4k (va39 a)) |}.
(** [riscv/addr/sv39.rs:30-64] AddressL3 for VirtAddrSv39 *)
#[export] Instance VirtAddrSv39_AddressL3 : AddressL3 VirtAddrSv39 := {|
  l3_p3_index a := get_bits 64 (va39 a) 30 39;
  l3_p2_index a := get_bits 64 (va39 a) 21 30;
  l3_p1_index a := get_bits 64 (va39 a) 12 21;
  l3_from_page_table_indices p3_index p2_index p1_index offset :=
    let! _ := assert_below p3_index 11 in
    let! _ := assert_below p2_index 9 in
    let! _ := assert_below p1_index 9 in
    let! _ := assert_below offset 12 in
    let addr := Z.lor (Z.lor (Z.lor (wrap64 (Z.shiftl p3_index 30)) (wrap64 (Z.shiftl p2_index 21)))
                  (wrap64 (Z.shiftl p1_index 12))) offset in
    let! s := get_bit 64 addr 38 in
    let! addr := set_bits 64 addr 39 64 (if s then 2 ^ (64 - 39) - 1 else 0) in
    new_u64 addr |}.
(** [riscv/addr/sv39.rs:67-67] PhysAddrSv39 *)
Record PhysAddrSv39 : Type := PA39 { pa39 : Z }.
(** [riscv/addr/sv39.rs:102-113] AddressX64 for PhysAddrSv39 *)
#[export] Instance PhysAddrSv39_AddressX64 : AddressX64 PhysAddrSv39 := {|
  new_u64 a := let! h := get_bits 64 a 56 64 in let! _ := assert_ (h =? 0) in Ok (PA39 a);
  as_u64 := pa39 |}.
(** [riscv/addr/sv39.rs:68-84] Address for PhysAddrSv39 *)
#[export] Instance PhysAddrSv39_Address : Address PhysAddrSv39 := {|
  addr_new := new_u64;
  addr_as_usize a := Ok (pa39 a);
  addr_page_number a := get_bits 64 (pa39 a) 12 56;
  addr_page_offset a := get_bits 64 (pa39 a) 0 12;
  addr_to_4k_aligned a := PA39 (align_4k (pa39 a)) |}.

(** ** Sv48 ([riscv/src/addr/sv48.rs]) *)
(** [riscv/addr/sv48.rs:5-5] VirtAddrSv48 *)
Record VirtAddrSv48 : Type := VA48 { va48 : Z }.
(** [riscv/addr/sv48.rs:96-111] AddressX64 for VirtAddrSv48 *)
#[export] Instance VirtAddrSv48_AddressX64 : AddressX64 VirtAddrSv48 := {|
  new_u64 a :=
    let! s := get_bit 64 a 47 in
    let! h := get_bits 64 a 48 64 in
    let! _ := assert_ (h =? (if s then 2 ^ (64 - 48) - 1 else 0)) in
    Ok (VA48 a);
  as_u64 := va48 |}.
(** [riscv/addr/sv48.rs:12-28] Address for VirtAddrSv48 *)
#[export] Instance VirtAddrSv48_Address : Address VirtAddrSv48 := {|
  addr_new := new_u64;
  addr_as_usize a := Ok (va48 a);
  addr_page_number a := get_bits 64 (va48 a) 12 48;
  addr_page_offset a := get_bits 64 (va48 a) 0 12;
  addr_to_4k_aligned a := VA48 (align_4k (va48 a)) |}.
(** [riscv/addr/sv48.rs:30-74] AddressL4 for VirtAddrSv48 *)
#[export] Instance VirtAddrSv48_AddressL4 : AddressL4 VirtAddrSv48 := {|
  l4_p4_index a := get_bits 64 (va48 a) 39 48;
  l4_p3_index a := get_bits 64 (va48 a) 30 39;
  l4_p2_index a := get_bits 64 (va48 a) 21 30;
  l4_p1_index a := get_bits 64 (va48 a) 12 21;
  l4_from_page_table_indices p4_index p3_index p2_index p1_index offset :=
    let! _ := assert_below p4_index 9 in
    let! _ := assert_below p3_index 9 in
    let! _ := assert_below p2_index 9 in
    let! _ := assert_below p1_index 9 in
    let! _ := assert_below offset 12 in
    let addr := Z.lor (Z.lor (Z.lor (Z.lor (wrap64 (Z.shiftl p4_index 39)) (wrap64 (Z.shiftl p3_index 30)))
                  (wrap64 (Z.shiftl p2_index 21))) (wrap64 (Z.shiftl p1_index 12))) offset in
    let! s := get_bit 64 addr 47 in
    let! addr := set_bits 64 addr 48 64 (if s then 2 ^ (64 - 48) - 1 else 0) in
    new_u64 addr |}.
(** [riscv/addr/sv48.rs:77-77] PhysAddrSv48 *)
Record PhysAddrSv48 : Type := PA48 { pa48 : Z }.
(** [riscv/addr/sv48.rs:112-123] AddressX64 for PhysAddrSv48 *)
#[export] Instance PhysAddrSv48_AddressX64 : AddressX64 PhysAddrSv48 := {|
  new_u64 a := let! h := get_bits 64 a 56 64 in let! _ := assert_ (h =? 0) in Ok (PA48 a);
  as_u64 := pa48 |}.
(** [riscv/addr/sv48.rs:78-94] Address for PhysAddrSv48 *)
#[export] Instance PhysAddrSv48_Address : Address PhysAddrSv48 := {|
  addr_new := new_u64;
  addr_as_usize a := Ok (pa48 a);
  addr_page_number a := get_bits 64 (pa48 a) 12 56;
  addr_page_offset a := get_bits 64 (pa48 a) 0 12;
  addr_to_4k_aligned a := PA48 (align_4k (pa48 a)) |}.

(** ** Guest-physical addresses ([riscv/src/addr/gpax4.rs]) *)
(** [riscv/addr/gpax4.rs:6-6] GPAddrSv32X4 *)
Record GPAddrSv32X4 : Type := GPA32 { gpa32 : Z }.
(** [riscv/addr/gpax4.rs:50-61] AddressX64 for GPAddrSv32X4 *)
#[export] Instance GPAddrSv32X4_AddressX64 : AddressX64 GPAddrSv32X4 := {|
  new_u64 a := let! h := get_bits 64 a 34 64 in let! _ := assert_ (h =? 0) in Ok (GPA32 a);
  as_u64 := gpa32 |}.
(** [riscv/addr/gpax4.rs:8-24] Address for GPAddrSv32X4 *)
#[export] Instance GPAddrSv32X4_Address : Address GPAddrSv32X4 := {|
  addr_new := new_u64;
  addr_as_usize a := Ok (gpa32 a);
  addr_page_number a := get_bits 64 (gpa32 a) 12 34;
  addr_page_offset a := get_bits 64 (gpa32 a) 0 12;
  addr_to_4k_aligned a := GPA32 (align_4k (gpa32 a)) |}.
(** [riscv/addr/gpax4.rs:32-48] AddressL2 for GPAddrSv32X4 *)
#[export] Instance GPAddrSv32X4_AddressL2 : AddressL2 GPAddrSv32X4 := {|
  l2_p2_index a := get_bits 64 (gpa32 a) 22 34;
  l2_p1_index a := get_bits 64 (gpa32 a) 12 22;
  l2_from_page_table_indices p2_index p1_index offset :=
    let! _ := assert_below p2_index 12 in
    let! _ := assert_below p1_index 10 in
    let! _ := assert_below offset 12 in
    new_u64 (Z.lor (Z.lor (wrap64 (Z.shiftl p2_index 22)) (wrap64 (Z.shiftl p1_index 12))) offset) |}.
(** [riscv/addr/gpax4.rs:64-64] GPAddrSv39X4 *)
Record GPAddrSv39X4 : Type := GPA39 { gpa39 : Z }.
(** [riscv/addr/gpax4.rs:120-131] AddressX64 for GPAddrSv39X4 *)
#[export] Instance GPAddrSv39X4_AddressX64 : AddressX64 GPAddrSv39X4 := {|
  new_u64 a := let! h := get_bits 64 a 41 64 in let! _ := assert_ (h =? 0) in Ok (GPA39 a);
  as_u64 := gpa39 |}.
(** [riscv/addr/gpax4.rs:66-82] Address for GPAddrSv39X4. [new] checks nothing. *)
#[export] Instance GPAddrSv39X4_Address : Address GPAddrSv39X4 := {|
  addr_new a := Ok (GPA39 a);
  addr_as_usize a := Ok (gpa39 a);
  addr_page_number a := get_bits 64 (gpa39 a) 12 41;
  addr_page_offset a := get_bits 64 (gpa39 a) 0 12;
  addr_to_4k_aligned a := GPA39 (align_4k (gpa39 a)) |}.
(** [riscv/addr/gpax4.rs:90-118] AddressL3 for GPAddrSv39X4 *)
#[export] Instance GPAddrSv39X4_AddressL3 : AddressL3 GPAddrSv39X4 := {|
  l3_p3_index a := get_bits 64 (gpa39 a) 30 41;
  l3_p2_index a := get_bits 64 (gpa39 a) 21 30;
  l3_p1_index a := get_bits 64 (gpa39 a) 12 21;
  l3_from_page_table_indices p3_index p2_index p1_index offset :=
    let! _ := assert_below p3_index 11 in
    let! _ := assert_below p2_index 9 in
    let! _ := assert_below p1_index 9 in
    let! _ := assert_below offset 12 in
    new_u64 (Z.lor (Z.lor (Z.lor (wrap64 (Z.shiftl p3_index 30)) (wrap64 (Z.shiftl p2_index 21)))
               (wrap64 (Z.shiftl p1_index 12))) offset) |}.
(** [riscv/addr/gpax4.rs:134-134] GPAddrSv48X4 *)
Record GPAddrSv48X4 : Type := GPA48 { gpa48 : Z }.
(** [riscv/addr/gpax4.rs:200-211] AddressX64 for GPAddrSv48X4 *)
#[export] Instance GPAddrSv48X4_AddressX64 : AddressX64 GPAddrSv48X4 := {|
  new_u64 a := let! h := get_bits 64 a 50 64 in let! _ := assert_ (h =? 0) in Ok (GPA48 a);
  as_u64 := gpa48 |}.
(** [riscv/addr/gpax4.rs:136-152] Address for GPAddrSv48X4. [new] checks nothing. *)
#[export] Instance GPAddrSv48X4_Address : Address GPAddrSv48X4 := {|
  addr_new a := Ok (GPA48 a);
  addr_as_usize a := Ok (gpa48 a);
  addr_page_number a := get_bits 64 (gpa48 a) 12 50;
  addr_page_offset a := get_bits 64 (gpa48 a) 0 12;
  addr_to_4k_aligned a := GPA48 (align_4k (gpa48 a)) |}.
(** [riscv/addr/gpax4.rs:160-198] AddressL4 for GPAddrSv48X4 *)
#[export] Instance GPAddrSv48X4_AddressL4 : AddressL4 GPAddrSv48X4 := {|
  l4_p4_index a := get_bits 64 (gpa48 a) 39 50;
  l4_p3_index a := get_bits 64 (gpa48 a) 30 39;
  l4_p2_index a := get_bits 64 (gpa48 a) 21 30;
  l4_p1_index a := get_bits 64 (gpa48 a) 12 21;
  l4_from_page_table_indices p4_index p3_index p2_index p1_index offset :=
    let! _ := assert_below p4_index 11 in
    let! _ := assert_below p3_index 9 in
    let! _ := assert_below p2_index 9 in
    let! _ := assert_below p1_index 9 in
    let! _ := assert_below offset 12 in
    new_u64 (Z.lor (Z.lor (Z.lor (Z.lor (wrap64 (Z.shiftl p4_index 39)) (wrap64 (Z.shiftl p3_index 30)))
               (wrap64 (Z.shiftl p2_index 21))) (wrap64 (Z.shiftl p1_index 12))) offset) |}.

(** ** Pages and frames ([riscv/src/addr/page.rs]) *)
(** [riscv/addr/page.rs:31-31] PageWith *)
Record PageWith (T : Type) : Type := Page { page_start : T }.
Arguments Page {T} page_start.
Arguments page_start {T} p.
(** [riscv/addr/page.rs:101-101] FrameWith *)
Record FrameWith (T : Type) : Type := Frame { frame_start : T }.
Arguments Frame {T} frame_start.
Arguments frame_start {T} f.
Section page.
Context {T : Type} `{Address T}.
(** [riscv/addr/page.rs:83-85] PageWith::of_addr *)
Definition PageWith_of_addr (a : T) : PageWith T := Page (addr_to_4k_aligned a).
(** [riscv/addr/page.rs:87-89] PageWith::of_vpn *)
Definition PageWith_of_vpn (vpn : Z) : outcome (PageWith T) := let! a := addr_new (wrap64 (Z.shiftl vpn 12)) in Ok (Page a).
(** [riscv/addr/page.rs:91-93] PageWith::start_address *)
Definition PageWith_start_address (p : PageWith T) : T := page_start p.
(** [riscv/addr/page.rs:95-97] PageWith::number *)
Definition PageWith_number (p : PageWith T) : outcome Z := addr_page_number (page_start p).
(** [riscv/addr/page.rs:154-156] FrameWith::of_addr *)
Definition FrameWith_of_addr (a : T) : FrameWith T := Frame (addr_to_4k_aligned a).
(** [riscv/addr/page.rs:163-165] FrameWith::start_address *)
Definition FrameWith_start_address (f : FrameWith T) : T := frame_start f.
(** [riscv/addr/page.rs:167-169] FrameWith::number *)
Definition FrameWith_number (f : FrameWith T) : outcome Z := addr_page_number (frame_start f).
Context `{AddressX64 T}.
(** [riscv/addr/page.rs:159-161] FrameWith::of_ppn *)
Definition FrameWith_of_ppn (ppn : Z) : outcome (FrameWith T) := let! a := new_u64 (wrap64 (Z.shiftl ppn 12)) in Ok (Frame a).
(** [riscv/addr/page.rs:171-173] FrameWith::as_kernel_mut. The address. *)
Definition FrameWith_as_kernel_mut (f : FrameWith T) (linear_offset : Z) : Z := as_u64 (frame_start f) +u linear_offset.
End page.
(** [riscv/addr/page.rs:71-81] PageWithL2 for PageWith *)
#[export] Instance PageWith_PageWithL2 {T} `{Address T, AddressL2 T} : AddressL2 (PageWith T) := {|
  l2_p2_index p := l2_p2_index (page_start p);
  l2_p1_index p := l2_p1_index (page_start p);
  l2_from_page_table_indices p2_index p1_index _ :=
    let! a := l2_from_page_table_indices p2_index p1_index 0 in Ok (PageWith_of_addr a) |}.
(** [riscv/addr/page.rs:57-70] PageWithL3 for PageWith *)
#[export] Instance PageWith_PageWithL3 {T} `{Address T, AddressL3 T} : AddressL3 (PageWith T) := {|
  l3_p3_index p := l3_p3_index (page_start p);
  l3_p2_index p := l3_p2_index (page_start p);
  l3_p1_index p := l3_p1_index (page_start p);
  l3_from_page_table_indices p3_index p2_index p1_index _ :=
    let! a := l3_from_page_table_indices p3_index p2_index p1_index 0 in Ok (PageWith_of_addr a) |}.
(** [riscv/addr/page.rs:33-56] PageWithL4 for PageWith *)
#[export] Instance PageWith_PageWithL4 {T} `{Address T, AddressL4 T} : AddressL4 (PageWith T) := {|
  l4_p4_index p := l4_p4_index (page_start p);
  l4_p3_index p := l4_p3_index (page_start p);
  l4_p2_index p := l4_p2_index (page_start p);
  l4_p1_index p := l4_p1_index (page_start p);
  l4_from_page_table_indices p4_index p3_index p2_index p1_index _ :=
    let! a := l4_from_page_table_indices p4_index p3_index p2_index p1_index 0 in Ok (PageWith_of_addr a) |}.

(** ** Fields of sums *)
Lemma field_low x v n a b : 0 ≤ a ≤ b → b ≤ n → field (v * 2 ^ n + x) a b = field x a b.
Proof.
  intros Hab Hbn. rewrite <- !mod_div_field by lia. f_equal.
  replace (2 ^ n) with (2 ^ (n - b) * 2 ^ b) by (rewrite <- Z.pow_add_r by lia; f_equal; lia).
  rewrite Z.mul_assoc, Z.add_comm. apply Z.mod_add. pose proof (Z.pow_pos_nonneg 2 b). lia.
Qed.
Lemma field_high p r a b : 0 ≤ a ≤ b → 0 ≤ r < 2 ^ a → field (p * 2 ^ a + r) a b = p mod 2 ^ (b - a).
Proof. intros Hab Hr. unfold field. rewrite Z.div_add_l by lia. by rewrite (Z.div_small r), Z.add_0_r by lia. Qed.
Lemma field_small x a b : 0 ≤ x < 2 ^ b → 0 ≤ a ≤ b → field x a b = x / 2 ^ a.
Proof. intros Hx Hab. rewrite <- mod_div_field by lia. by rewrite Z.mod_small by lia. Qed.
Lemma assert_below_ok x n : 0 ≤ n < 64 → 0 ≤ x < 2 ^ n → assert_below x n = Ok tt.
Proof.
  intros Hn Hx. unfold assert_below. rewrite get_bits_ok by lia. cbn. unfold field. rewrite Z.div_small by lia.
  rewrite Z.mod_0_l; [done|]. apply Z.pow_nonzero; lia.
Qed.
Lemma lor_add k b n : 0 ≤ n → 0 ≤ b < 2 ^ n → Z.lor (k * 2 ^ n) b = k * 2 ^ n + b.
Proof. apply lor_low_high. Qed.
(** The number with its high bits replaced. *)
Lemma set_bits_high x a v : 0 ≤ x < 2 ^ 64 → 0 ≤ a < 64 → 0 ≤ v < 2 ^ (64 - a) → set_bits 64 x a 64 v = Ok (v * 2 ^ a + x mod 2 ^ a).
Proof.
  intros Hx Ha Hv. destruct (set_bits_ok 64 x a 64 v) as (y & -> & Hy); [lia..|]. f_equal. apply Z.bits_inj'. intros i Hi.
  pose proof (Z.mod_pos_bound x (2 ^ a)). rewrite Hy by lia. rewrite <- lor_add by lia. rewrite Z.lor_spec.
  destruct (Z.leb_spec a i); cbn [andb].
  - rewrite Z.mul_pow2_bits by lia. rewrite (Z.mod_pow2_bits_high x a) by lia. rewrite orb_false_r.
    destruct (Z.ltb_spec i 64); [done|]. rewrite <- (Z.mod_small x (2 ^ 64)), Z.mod_pow2_bits_high by lia.
    rewrite <- (Z.mod_small v (2 ^ (64 - a))), Z.mod_pow2_bits_high by lia. done.
  - rewrite Z.mul_pow2_bits_low, Z.mod_pow2_bits_low by lia. done.
Qed.

(** ** From indices to addresses and back *)
Lemma shiftl_small x k n : 0 ≤ k → 0 ≤ x < 2 ^ n → 0 ≤ n → n + k ≤ 64 → wrap64 (Z.shiftl x k) = x * 2 ^ k.
Proof.
  intros Hk Hx Hn Hs. unfold wrap64. rewrite Z.shiftl_mul_pow2 by lia. apply Z.mod_small. pose proof (Z.pow_pos_nonneg 2 k).
  split; [apply Z.mul_nonneg_nonneg; lia|]. apply Z.lt_le_trans with (2 ^ n * 2 ^ k); [apply Z.mul_lt_mono_pos_r; lia|].
  rewrite <- Z.pow_add_r by lia. apply Z.pow_le_mono_r; lia.
Qed.
Lemma join2 k2 p2 p1 off : 0 ≤ k2 ≤ 12 → 0 ≤ p2 < 2 ^ k2 → 0 ≤ p1 < 2 ^ 10 → 0 ≤ off < 2 ^ 12 →
  Z.lor (Z.lor (wrap64 (Z.shiftl p2 22)) (wrap64 (Z.shiftl p1 12))) off = p2 * 2 ^ 22 + (p1 * 2 ^ 12 + off).
Proof.
  intros Hk H2 H1 Ho. rewrite (shiftl_small p2 22 k2), (shiftl_small p1 12 10) by lia. rewrite (lor_add p2) by lia.
  replace (p2 * 2 ^ 22 + p1 * 2 ^ 12) with ((p2 * 2 ^ 10 + p1) * 2 ^ 12) by lia. rewrite lor_add by lia. lia.
Qed.
Lemma join3 k3 p3 p2 p1 off : 0 ≤ k3 ≤ 11 → 0 ≤ p3 < 2 ^ k3 → 0 ≤ p2 < 2 ^ 9 → 0 ≤ p1 < 2 ^ 9 → 0 ≤ off < 2 ^ 12 →
  Z.lor (Z.lor (Z.lor (wrap64 (Z.shiftl p3 30)) (wrap64 (Z.shiftl p2 21))) (wrap64 (Z.shiftl p1 12))) off =
  p3 * 2 ^ 30 + (p2 * 2 ^ 21 + (p1 * 2 ^ 12 + off)).
Proof.
  intros Hk H3 H2 H1 Ho. rewrite (shiftl_small p3 30 k3), (shiftl_small p2 21 9), (shiftl_small p1 12 9) by lia. rewrite (lor_add p3) by lia.
  replace (p3 * 2 ^ 30 + p2 * 2 ^ 21) with ((p3 * 2 ^ 9 + p2) * 2 ^ 21) by lia. rewrite lor_add by lia.
  replace ((p3 * 2 ^ 9 + p2) * 2 ^ 21 + p1 * 2 ^ 12) with ((p3 * 2 ^ 18 + p2 * 2 ^ 9 + p1) * 2 ^ 12) by lia. rewrite lor_add by lia. lia.
Qed.
Lemma join4 k4 p4 p3 p2 p1 off : 0 ≤ k4 ≤ 11 → 0 ≤ p4 < 2 ^ k4 → 0 ≤ p3 < 2 ^ 9 → 0 ≤ p2 < 2 ^ 9 → 0 ≤ p1 < 2 ^ 9 → 0 ≤ off < 2 ^ 12 →
  Z.lor (Z.lor (Z.lor (Z.lor (wrap64 (Z.shiftl p4 39)) (wrap64 (Z.shiftl p3 30))) (wrap64 (Z.shiftl p2 21))) (wrap64 (Z.shiftl p1 12))) off =
  p4 * 2 ^ 39 + (p3 * 2 ^ 30 + (p2 * 2 ^ 21 + (p1 * 2 ^ 12 + off))).
Proof.
  intros Hk H4 H3 H2 H1 Ho. rewrite (shiftl_small p4 39 k4), (shiftl_small p3 30 9), (shiftl_small p2 21 9), (shiftl_small p1 12 9) by lia.
  rewrite (lor_add p4) by lia.
  replace (p4 * 2 ^ 39 + p3 * 2 ^ 30) with ((p4 * 2 ^ 9 + p3) * 2 ^ 30) by lia. rewrite lor_add by lia.
  replace ((p4 * 2 ^ 9 + p3) * 2 ^ 30 + p2 * 2 ^ 21) with ((p4 * 2 ^ 18 + p3 * 2 ^ 9 + p2) * 2 ^ 21) by lia. rewrite lor_add by lia.
  replace ((p4 * 2 ^ 18 + p3 * 2 ^ 9 + p2) * 2 ^ 21 + p1 * 2 ^ 12) with ((p4 * 2 ^ 27 + p3 * 2 ^ 18 + p2 * 2 ^ 9 + p1) * 2 ^ 12) by lia.
  rewrite lor_add by lia. lia.
Qed.
(** The sign extension of the low [n] bits. *)
Definition sext (n x : Z) : Z := (if Z.testbit x (n - 1) then 2 ^ (64 - n) - 1 else 0) * 2 ^ n + x mod 2 ^ n.
Lemma sext_ok n x : 0 < n < 64 → 0 ≤ x < 2 ^ 64 →
  set_bits 64 x n 64 (if Z.testbit x (n - 1) then 2 ^ (64 - n) - 1 else 0) = Ok (sext n x) ∧
  Z.testbit (sext n x) (n - 1) = Z.testbit x (n - 1) ∧
  field (sext n x) n 64 = (if Z.testbit x (n - 1) then 2 ^ (64 - n) - 1 else 0) ∧
  ∀ a b, 0 ≤ a ≤ b → b ≤ n → field (sext n x) a b = field x a b.
Proof.
  intros Hn Hx. pose proof (Z.pow_pos_nonneg 2 (64 - n)). pose proof (Z.mod_pos_bound x (2 ^ n)). unfold sext.
  set (e := if Z.testbit x (n - 1) then 2 ^ (64 - n) - 1 else 0). assert (He : 0 ≤ e < 2 ^ (64 - n)) by (unfold e; destruct (Z.testbit _ _); lia).
  split_and!.
  - apply set_bits_high; lia.
  - rewrite <- lor_add by lia. rewrite Z.lor_spec, Z.mul_pow2_bits_low, Z.mod_pow2_bits_low by lia. done.
  - rewrite field_high by lia. apply Z.mod_small. lia.
  - intros a b Hab Hb. rewrite field_low by lia. rewrite <- !mod_div_field by lia. f_equal.
    rewrite <- (Znumtheory.Zmod_div_mod (2 ^ b) (2 ^ n)); [done| | |]; try (apply Z.pow_pos_nonneg; lia).
    exists (2 ^ (n - b)). rewrite <- Z.pow_add_r by lia. f_equal. lia.
Qed.

(** Round trips with [n] bits for the top index. *)
Definition roundtrip2 (T : Type) `{Address T, AddressL2 T} (n : Z) : Prop := ∀ p2 p1 off,
  0 ≤ p2 < 2 ^ n → 0 ≤ p1 < 2 ^ 10 → 0 ≤ off < 2 ^ 12 →
  ∃ a : T, l2_from_page_table_indices p2 p1 off = Ok a ∧ l2_p2_index a = Ok p2 ∧ l2_p1_index a = Ok p1 ∧ addr_page_offset a = Ok off.
Definition roundtrip3 (T : Type) `{Address T, AddressL3 T} (n : Z) : Prop := ∀ p3 p2 p1 off,
  0 ≤ p3 < 2 ^ n → 0 ≤ p2 < 2 ^ 9 → 0 ≤ p1 < 2 ^ 9 → 0 ≤ off < 2 ^ 12 →
  ∃ a : T, l3_from_page_table_indices p3 p2 p1 off = Ok a ∧
    l3_p3_index a = Ok p3 ∧ l3_p2_index a = Ok p2 ∧ l3_p1_index a = Ok p1 ∧ addr_page_offset a = Ok off.
Definition roundtrip4 (T : Type) `{Address T, AddressL4 T} (n : Z) : Prop := ∀ p4 p3 p2 p1 off,
  0 ≤ p4 < 2 ^ n → 0 ≤ p3 < 2 ^ 9 → 0 ≤ p2 < 2 ^ 9 → 0 ≤ p1 < 2 ^ 9 → 0 ≤ off < 2 ^ 12 →
  ∃ a : T, l4_from_page_table_indices p4 p3 p2 p1 off = Ok a ∧
    l4_p4_index a = Ok p4 ∧ l4_p3_index a = Ok p3 ∧ l4_p2_index a = Ok p2 ∧ l4_p1_index a = Ok p1 ∧ addr_page_offset a = Ok off.

(** The fields of an address built from indices. *)
Lemma fields2 p2 p1 off n : 0 ≤ p2 → 0 ≤ n → 0 ≤ p1 < 2 ^ 10 → 0 ≤ off < 2 ^ 12 → let x := p2 * 2 ^ 22 + (p1 * 2 ^ 12 + off) in
  field x 22 (22 + n) = p2 mod 2 ^ n ∧ field x 12 22 = p1 ∧ field x 0 12 = off.
Proof.
  intros H2 Hn H1 Ho x. unfold x. split_and!.
  - rewrite field_high by lia. do 2 f_equal. lia.
  - rewrite field_low, field_high by lia. apply Z.mod_small. lia.
  - rewrite !field_low, field_small, Z.div_1_r by lia. done.
Qed.
Lemma fields3 p3 p2 p1 off n : 0 ≤ p3 → 0 ≤ n → 0 ≤ p2 < 2 ^ 9 → 0 ≤ p1 < 2 ^ 9 → 0 ≤ off < 2 ^ 12 →
  let x := p3 * 2 ^ 30 + (p2 * 2 ^ 21 + (p1 * 2 ^ 12 + off)) in
  field x 30 (30 + n) = p3 mod 2 ^ n ∧ field x 21 30 = p2 ∧ field x 12 21 = p1 ∧ field x 0 12 = off.
Proof.
  intros H3 Hn H2 H1 Ho x. unfold x. split_and!.
  - rewrite field_high by lia. do 2 f_equal. lia.
  - rewrite field_low, field_high by lia. apply Z.mod_small. lia.
  - rewrite !field_low, field_high by lia. apply Z.mod_small. lia.
  - rewrite !field_low, field_small, Z.div_1_r by lia. done.
Qed.
Lemma fields4 p4 p3 p2 p1 off n : 0 ≤ p4 → 0 ≤ n → 0 ≤ p3 < 2 ^ 9 → 0 ≤ p2 < 2 ^ 9 → 0 ≤ p1 < 2 ^ 9 → 0 ≤ off < 2 ^ 12 →
  let x := p4 * 2 ^ 39 + (p3 * 2 ^ 30 + (p2 * 2 ^ 21 + (p1 * 2 ^ 12 + off))) in
  field x 39 (39 + n) = p4 mod 2 ^ n ∧ field x 30 39 = p3 ∧ field x 21 30 = p2 ∧ field x 12 21 = p1 ∧ field x 0 12 = off.
Proof.
  intros H4 Hn H3 H2 H1 Ho x. unfold x.
  destruct (fields3 p3 p2 p1 off 9 ltac:(lia) ltac:(lia) H2 H1 Ho) as (F3 & F2 & F1 & F0). change (30 + 9) with 39 in F3. split_and!.
  - rewrite field_high by lia. do 2 f_equal. lia.
  - rewrite field_low by lia. rewrite F3. apply Z.mod_small. lia.
  - by rewrite field_low by lia.
  - by rewrite field_low by lia.
  - by rewrite field_low by lia.
Qed.

(** The constructors. *)
Lemma new_sext n x : 0 < n < 64 → 0 ≤ x < 2 ^ 64 → ∀ (T : Type) (mk : Z → T),
  (let! s := get_bit 64 (sext n x) (n - 1) in let! h := get_bits 64 (sext n x) n 64 in
   let! _ := assert_ (h =? (if s : bool then 2 ^ (64 - n) - 1 else 0)) in Ok (mk (sext n x))) = Ok (mk (sext n x)).
Proof.
  intros Hn Hx T mk. destruct (sext_ok n x Hn Hx) as (_ & Hs & Hf & _). rewrite get_bit_ok, get_bits_ok by lia. cbn [obind].
  rewrite Hs, Hf. by rewrite Z.eqb_refl.
Qed.
Lemma sv39_from k p3 p2 p1 off :
  0 ≤ k ≤ 11 → 0 ≤ p3 < 2 ^ k → 0 ≤ p2 < 2 ^ 9 → 0 ≤ p1 < 2 ^ 9 → 0 ≤ off < 2 ^ 12 →
  ∃ a : VirtAddrSv39, l3_from_page_table_indices p3 p2 p1 off = Ok a ∧ l3_p3_index a = Ok (p3 mod 2 ^ 9) ∧
    l3_p2_index a = Ok p2 ∧ l3_p1_index a = Ok p1 ∧ addr_page_offset a = Ok off.
Proof.
  intros Hk H3 H2 H1 Ho. pose proof (Z.pow_le_mono_r 2 k 11). set (x := p3 * 2 ^ 30 + (p2 * 2 ^ 21 + (p1 * 2 ^ 12 + off))).
  assert (Hx : 0 ≤ x < 2 ^ 64) by (unfold x; lia). destruct (sext_ok 39 x ltac:(lia) Hx) as (Hset & _ & _ & Hfld).
  destruct (fields3 p3 p2 p1 off 9 ltac:(lia) ltac:(lia) H2 H1 Ho) as (F3 & F2 & F1 & F0). fold x in F3, F2, F1, F0.
  exists (VA39 (sext 39 x)). cbn [l3_from_page_table_indices l3_p3_index l3_p2_index l3_p1_index addr_page_offset
    VirtAddrSv39_AddressL3 VirtAddrSv39_Address va39]. split_and!.
  - rewrite !assert_below_ok by lia. cbn [obind]. rewrite (join3 k) by lia. fold x. rewrite get_bit_ok by lia. cbn [obind].
    change 38 with (39 - 1). rewrite Hset. cbn [obind]. apply (new_sext 39 x ltac:(lia) Hx _ VA39).
  - rewrite get_bits_ok, Hfld by lia. by rewrite <- F3.
  - rewrite get_bits_ok, Hfld by lia. by rewrite F2.
  - rewrite get_bits_ok, Hfld by lia. by rewrite F1.
  - rewrite get_bits_ok, Hfld by lia. by rewrite F0.
Qed.
Lemma sv48_from : roundtrip4 VirtAddrSv48 9.
Proof.
  intros p4 p3 p2 p1 off H4 H3 H2 H1 Ho. set (x := p4 * 2 ^ 39 + (p3 * 2 ^ 30 + (p2 * 2 ^ 21 + (p1 * 2 ^ 12 + off)))).
  assert (Hx : 0 ≤ x < 2 ^ 64) by (unfold x; lia). destruct (sext_ok 48 x ltac:(lia) Hx) as (Hset & _ & _ & Hfld).
  destruct (fields4 p4 p3 p2 p1 off 9 ltac:(lia) ltac:(lia) H3 H2 H1 Ho) as (F4 & F3 & F2 & F1 & F0). fold x in F4, F3, F2, F1, F0.
  exists (VA48 (sext 48 x)). cbn [l4_from_page_table_indices l4_p4_index l4_p3_index l4_p2_index l4_p1_index addr_page_offset
    VirtAddrSv48_AddressL4 VirtAddrSv48_Address va48]. split_and!.
  - rewrite !assert_below_ok by lia. cbn [obind]. rewrite (join4 9) by lia. fold x. rewrite get_bit_ok by lia. cbn [obind].
    change 47 with (48 - 1). rewrite Hset. cbn [obind]. apply (new_sext 48 x ltac:(lia) Hx _ VA48).
  - rewrite get_bits_ok, Hfld by lia. change 48 with (39 + 9). rewrite F4. by rewrite Z.mod_small by lia.
  - rewrite get_bits_ok, Hfld by lia. by rewrite F3.
  - rewrite get_bits_ok, Hfld by lia. by rewrite F2.
  - rewrite get_bits_ok, Hfld by lia. by rewrite F1.
  - rewrite get_bits_ok, Hfld by lia. by rewrite F0.
Qed.
Lemma sv32_from : roundtrip2 VirtAddrSv32 10.
Proof.
  intros p2 p1 off H2 H1 Ho. destruct (fields2 p2 p1 off 10 ltac:(lia) ltac:(lia) H1 Ho) as (F2 & F1 & F0).
  eexists (VA32 (p2 * 2 ^ 22 + (p1 * 2 ^ 12 + off))). cbn [l2_from_page_table_indices l2_p2_index l2_p1_index addr_page_offset addr_new
    VirtAddrSv32_AddressL2 VirtAddrSv32_Address va32]. split_and!.
  - rewrite !assert_below_ok by lia. cbn [obind]. rewrite (join2 10), (proj2 (Z.ltb_lt _ _)) by lia. done.
  - rewrite get_bits_ok by lia. change 32 with (22 + 10). rewrite F2. by rewrite Z.mod_small by lia.
  - rewrite get_bits_ok by lia. by rewrite F1.
  - rewrite get_bits_ok by lia. by rewrite F0.
Qed.
(** [new_u64] of a guest-physical address of [n] bits. *)
Lemma new_below x n : 0 ≤ n < 64 → 0 ≤ x < 2 ^ n → ∀ (T : Type) (mk : Z → T),
  (let! h := get_bits 64 x n 64 in let! _ := assert_ (h =? 0) in Ok (mk x)) = Ok (mk x).
Proof.
  intros Hn Hx T mk. pose proof (assert_below_ok x n Hn Hx) as Ha. unfold assert_below in Ha. rewrite get_bits_ok in Ha |- * by lia.
  cbn [obind] in *. by rewrite Ha.
Qed.
Lemma gpa32_from : roundtrip2 GPAddrSv32X4 12.
Proof.
  intros p2 p1 off H2 H1 Ho. destruct (fields2 p2 p1 off 12 ltac:(lia) ltac:(lia) H1 Ho) as (F2 & F1 & F0).
  eexists (GPA32 (p2 * 2 ^ 22 + (p1 * 2 ^ 12 + off))). cbn [l2_from_page_table_indices l2_p2_index l2_p1_index addr_page_offset
    GPAddrSv32X4_AddressL2 GPAddrSv32X4_Address GPAddrSv32X4_AddressX64 new_u64 gpa32]. split_and!.
  - rewrite !assert_below_ok by lia. cbn [obind]. rewrite (join2 12) by lia. apply new_below with (n := 34) (mk := GPA32); lia.
  - rewrite get_bits_ok by lia. change 34 with (22 + 12). rewrite F2. by rewrite Z.mod_small by lia.
  - rewrite get_bits_ok by lia. by rewrite F1.
  - rewrite get_bits_ok by lia. by rewrite F0.
Qed.
Lemma gpa39_from : roundtrip3 GPAddrSv39X4 11.
Proof.
  intros p3 p2 p1 off H3 H2 H1 Ho. destruct (fields3 p3 p2 p1 off 11 ltac:(lia) ltac:(lia) H2 H1 Ho) as (F3 & F2 & F1 & F0).
  eexists (GPA39 (p3 * 2 ^ 30 + (p2 * 2 ^ 21 + (p1 * 2 ^ 12 + off)))). cbn [l3_from_page_table_indices l3_p3_index l3_p2_index l3_p1_index
    addr_page_offset GPAddrSv39X4_AddressL3 GPAddrSv39X4_Address GPAddrSv39X4_AddressX64 new_u64 gpa39]. split_and!.
  - rewrite !assert_below_ok by lia. cbn [obind]. rewrite (join3 11) by lia. apply new_below with (n := 41) (mk := GPA39); lia.
  - rewrite get_bits_ok by lia. change 41 with (30 + 11). rewrite F3. by rewrite Z.mod_small by lia.
  - rewrite get_bits_ok by lia. by rewrite F2.
  - rewrite get_bits_ok by lia. by rewrite F1.
  - rewrite get_bits_ok by lia. by rewrite F0.
Qed.
Lemma gpa48_from : roundtrip4 GPAddrSv48X4 11.
Proof.
  intros p4 p3 p2 p1 off H4 H3 H2 H1 Ho. destruct (fields4 p4 p3 p2 p1 off 11 ltac:(lia) ltac:(lia) H3 H2 H1 Ho) as (F4 & F3 & F2 & F1 & F0).
  eexists (GPA48 (p4 * 2 ^ 39 + (p3 * 2 ^ 30 + (p2 * 2 ^ 21 + (p1 * 2 ^ 12 + off))))). cbn [l4_from_page_table_indices l4_p4_index l4_p3_index
    l4_p2_index l4_p1_index addr_page_offset GPAddrSv48X4_AddressL4 GPAddrSv48X4_Address GPAddrSv48X4_AddressX64 new_u64 gpa48]. split_and!.
  - rewrite !assert_below_ok by lia. cbn [obind]. rewrite (join4 11) by lia. apply new_below with (n := 50) (mk := GPA48); lia.
  - rewrite get_bits_ok by lia. change 50 with (39 + 11). rewrite F4. by rewrite Z.mod_small by lia.
  - rewrite get_bits_ok by lia. by rewrite F3.
  - rewrite get_bits_ok by lia. by rewrite F2.
  - rewrite get_bits_ok by lia. by rewrite F1.
  - rewrite get_bits_ok by lia. by rewrite F0.
Qed.

(** C34. In every paging scheme of the crate the address made from table indices
    and an offset has exactly these indices and this offset, is canonical and is
    accepted by its own constructor, for all indices the scheme has.  The Sv39
    constructor moreover accepts a top index of up to eleven bits, although the
    scheme has nine: it silently drops the two high ones. *)
Theorem from_page_table_indices_roundtrip :
  roundtrip2 VirtAddrSv32 10 ∧ roundtrip3 VirtAddrSv39 9 ∧ roundtrip4 VirtAddrSv48 9 ∧
  roundtrip2 GPAddrSv32X4 12 ∧ roundtrip3 GPAddrSv39X4 11 ∧ roundtrip4 GPAddrSv48X4 11 ∧
  (∀ p3, 0 ≤ p3 < 2 ^ 11 → ∃ a : VirtAddrSv39, l3_from_page_table_indices p3 0 0 0 = Ok a ∧ l3_p3_index a = Ok (p3 mod 2 ^ 9)).
Proof.
  split_and!; [apply sv32_from| |apply sv48_from|apply gpa32_from|apply gpa39_from|apply gpa48_from|].
  - intros p3 p2 p1 off H3 H2 H1 Ho. destruct (sv39_from 9 p3 p2 p1 off) as (a & Ha & H & Hr); [lia..|].
    exists a. rewrite Z.mod_small in H by lia. done.
  - intros p3 H3. destruct (sv39_from 11 p3 0 0 0) as (a & Ha & H & _); [lia..|]. by exists a.
Qed.
