(* ===== verification/RiscvPaging.v ===== *)
(** * The page tables of the [riscv] crate ([riscv/src/paging])

    The crate has page tables of two, three and four levels behind the trait
    [Mapper].  A table is an array of entries at an address; the tables are
    reached through a linear mapping of physical memory.  The memory holds the
    entries by their address, the allocator is the caller's. *)

From S2P Require Import Prelude RiscvAddr.

(** ** Flags and errors *)
(** [riscv/paging/page_table.rs:236-250] PageTableFlags. The bits of the flags. *)
Definition PageTableFlags_bits : list Z := [0; 1; 2; 3; 4; 5; 6; 7; 8; 9].
Definition F_VALID : Z := 2 ^ 0.
Definition F_READABLE : Z := 2 ^ 1.
Definition F_WRITABLE : Z := 2 ^ 2.
Definition F_ACCESSED : Z := 2 ^ 6.
Definition F_DIRTY : Z := 2 ^ 7.
Definition F_all : Z := 2 ^ 10 - 1.
(** [riscv/paging/mapper.rs:98-107] MapToError *)
Inductive MapToError : Type := FrameAllocationFailed | ParentEntryHugePage | PageAlreadyMapped.
Module Unmap.
(** [riscv/paging/mapper.rs:111-119] UnmapError *)
Inductive UnmapError (P : Type) : Type := ParentEntryHugePage | PageNotMapped | InvalidFrameAddress (p : P).
End Unmap.
Arguments Unmap.PageNotMapped {P}.
(** [riscv/paging/mapper.rs:123-126] FlagUpdateError *)
Inductive FlagUpdateError : Type := PageNotMapped.

(** ** Entries ([riscv/src/paging/page_table.rs]) *)
(** [riscv/paging/page_table.rs:90-100] PTE. With the size of an entry and the
    number of entries of a table; [pte_unused] is what [set_unused] leaves. *)
Class PTE (E : Type) : Type := {
  pte_is_unused : E → bool;
  pte_unused : E;
  pte_flags : E → Z;
  pte_ppn : E → Z;
  pte_addr {T} `{AddressX64 T} : E → outcome T;
  pte_set {T} `{Address T} : FrameWith T → Z → outcome E;
  pte_size : Z;
  pte_count : Z;
}.
(** [riscv/paging/page_table.rs:125-127] PTE::frame *)
Definition pte_frame {E T} `{PTE E, Address T, AddressX64 T} (e : E) : outcome (FrameWith T) :=
  let! a := pte_addr e in Ok (FrameWith_of_addr a).
(** [riscv/paging/page_table.rs:104-104] PageTableEntryX32 *)
Record PageTableEntryX32 : Type := X32 { x32 : Z }.
(** [riscv/paging/page_table.rs:106-136] PTE for PageTableEntryX32 *)
#[export] Instance PTE_PageTableEntryX32 : PTE PageTableEntryX32 := {|
  pte_is_unused e := x32 e =? 0;
  pte_unused := X32 0;
  pte_flags e := Z.land (x32 e) F_all;
  pte_ppn e := Z.shiftr (x32 e) 10;
  pte_addr T _ e := new_u64 (wrap64 (Z.shiftl (Z.shiftr (x32 e) 10) 12));
  pte_set T _ frame flags :=
    let! n := FrameWith_number frame in
    Ok (X32 (wrap32 (Z.lor (wrap64 (Z.shiftl n 10)) (Z.lor flags (Z.lor F_ACCESSED F_DIRTY)))));
  pte_size := 4;
  pte_count := 2 ^ 10 |}.
(** [riscv/paging/page_table.rs:148-148] PageTableEntryX64 *)
Record PageTableEntryX64 : Type := X64 { x64 : Z }.
(** [riscv/paging/page_table.rs:150-180] PTE for PageTableEntryX64 *)
#[export] Instance PTE_PageTableEntryX64 : PTE PageTableEntryX64 := {|
  pte_is_unused e := x64 e =? 0;
  pte_unused := X64 0;
  pte_flags e := Z.land (x64 e) F_all;
  pte_ppn e := Z.shiftr (x64 e) 10;
  pte_addr T _ e := new_u64 (wrap64 (Z.shiftl (Z.shiftr (x64 e) 10) 12));
  pte_set T _ frame flags :=
    let! n := FrameWith_number frame in
    Ok (X64 (wrap64 (Z.lor (wrap64 (Z.shiftl n 10)) (Z.lor flags (Z.lor F_ACCESSED F_DIRTY)))));
  pte_size := 8;
  pte_count := 2 ^ 9 |}.

(** ** Memory and allocator *)
(** The entries by address, and the allocator. *)
Record pstate (E A : Type) : Type := mkP { ps_mem : gmap Z E; ps_alloc : A }.
Arguments mkP {E A} ps_mem ps_alloc.
Arguments ps_mem {E A} p.
Arguments ps_alloc {E A} p.
(** [riscv/paging/frame_alloc.rs:5-8] FrameAllocatorFor *)
Class FrameAllocatorFor (P A : Type) : Type := { frame_alloc : A → option (FrameWith P) * A }.

Section tables.
Context {E A : Type} `{PTE E}.
Abbreviation PM := (M (pstate E A)).
Definition entry (mem : gmap Z E) (a : Z) : E := default pte_unused (mem !! a).
(** [riscv/paging/page_table.rs:62-68] Index for PageTableWith. The address of
    the entry. *)
Definition PageTable_index (table i : Z) : outcome Z :=
  if i <? pte_count then Ok (table + pte_size * i) else Fault OutOfBounds.
Definition load_entry (a : Z) : PM E := λ s, Ok (entry (ps_mem s) a, s).
Definition store_entry (a : Z) (e : E) : PM unit := modify (λ s, mkP (<[a := e]> (ps_mem s)) (ps_alloc s)).
(** [riscv/paging/page_table.rs:55-59] PageTableWith::zero *)
Definition PageTable_zero (table : Z) : PM unit :=
  for_each (seqZ 0 pte_count) (λ i, store_entry (table + pte_size * i) pte_unused).

Context {P : Type} `{Address P, AddressX64 P, FrameAllocatorFor P A}.
(** One level of [create_p1_if_not_exist]: the table the entry refers to, made if
    there is none. *)
(** [riscv/paging/multi_level.rs:119-128] Rv39PageTableWith::create_p1_if_not_exist.
    The other levels and the other schemes have the same lines. *)
Definition next_table_create (linear_offset table i : Z) : PM (Result Z MapToError) :=
  let* at_ := lift (PageTable_index table i) in
  let* e := load_entry at_ in
  if pte_is_unused e then
    let* s := get in
    let '(f, a) := frame_alloc (ps_alloc s) in
    put (mkP (ps_mem s) a) ;;
    match f with
    | None => ret (err FrameAllocationFailed)
    | Some frame =>
        let* e := lift (pte_set frame F_VALID) in
        store_entry at_ e ;;
        let next := FrameWith_as_kernel_mut frame linear_offset in
        PageTable_zero next ;;
        ret (ok next)
    end
  else
    let* frame := lift (pte_frame (T := P) e) in
    ret (ok (FrameWith_as_kernel_mut frame linear_offset)).
(** [riscv/paging/multi_level.rs:170-174] Rv39PageTableWith::unmap. One level of
    [unmap] and [ref_entry]; [None] is [PageNotMapped]. *)
Definition next_table (linear_offset table i : Z) : PM (option Z) :=
  let* at_ := lift (PageTable_index table i) in
  let* e := load_entry at_ in
  if pte_is_unused e then ret None else
  let* frame := lift (pte_frame (T := P) e) in
  ret (Some (FrameWith_as_kernel_mut frame linear_offset)).
(** The end of [map_to]: the entry of the page in the table of the last level. *)
(** [riscv/paging/multi_level.rs:158-162] Rv39PageTableWith::map_to *)
Definition set_page (p1_table p1_index : Z) (frame : FrameWith P) (flags : Z) (flush : outcome Z) : PM (Result Z MapToError) :=
  let* at_ := lift (PageTable_index p1_table p1_index) in
  let* e := load_entry at_ in
  if negb (pte_is_unused e) then ret (err PageAlreadyMapped) else
  let* e := lift (pte_set frame flags) in
  store_entry at_ e ;;
  let* fl := lift flush in
  ret (ok fl).
(** [riscv/paging/multi_level.rs:181-187] Rv39PageTableWith::unmap. Its end. *)
Definition clear_page (p1_table p1_index : Z) (flush : outcome Z) : PM (Result (FrameWith P * Z) (Unmap.UnmapError P)) :=
  let* at_ := lift (PageTable_index p1_table p1_index) in
  let* e := load_entry at_ in
  if negb (Z.land (pte_flags e) F_VALID =? F_VALID) then ret (err Unmap.PageNotMapped) else
  let* frame := lift (pte_frame e) in
  store_entry at_ pte_unused ;;
  let* fl := lift flush in
  ret (ok (frame, fl)).
End tables.

(** [riscv/paging/mapper.rs:85-87] MapperFlush::new *)
Definition MapperFlush_new {V} `{Address V} (page : PageWith V) : outcome Z := addr_as_usize (PageWith_start_address page).
(** The operator [?] on results and on [PageNotMapped]. *)
Definition and_then_r {S A B Er} (c : M S (Result A Er)) (k : A → M S (Result B Er)) : M S (Result B Er) :=
  let* r := c in match r with err e => ret (err e) | ok a => k a end.
Definition or_err {S A B Er} (c : M S (option A)) (e : Er) (k : A → M S (Result B Er)) : M S (Result B Er) :=
  let* r := c in match r with None => ret (err e) | Some a => k a end.

(** [riscv/paging/mapper.rs:5-32] Mapper. The methods without a default; a
    reference to an entry is its address. *)
Class Mapper (T P V E A : Type) : Type := {
  map_to : T → PageWith V → FrameWith P → Z → M (pstate E A) (Result Z MapToError);
  unmap : T → PageWith V → M (pstate E A) (Result (FrameWith P * Z) (Unmap.UnmapError P));
  ref_entry : T → PageWith V → M (pstate E A) (Result Z FlagUpdateError);
}.

(** ** Two levels *)
(** [riscv/paging/multi_level.rs:8-12] Rv32PageTableWith *)
Record Rv32PageTableWith : Type := mkRv32 { rv32_root : Z; rv32_linear_offset : Z }.
Section rv32.
Context {V A : Type} `{Address V, AddressL2 V, FrameAllocatorFor PhysAddrSv32 A}.
Abbreviation PM32 := (M (pstate PageTableEntryX32 A)).
(** [riscv/paging/multi_level.rs:15-21] Rv32PageTableWith::new *)
Definition Rv32_new (table linear_offset : Z) : Rv32PageTableWith := mkRv32 table linear_offset.
(** [riscv/paging/multi_level.rs:23-39] Rv32PageTableWith::create_p1_if_not_exist *)
Definition Rv32_create_p1_if_not_exist (t : Rv32PageTableWith) (p2_index : Z) : PM32 (Result Z MapToError) :=
  next_table_create (P := PhysAddrSv32) (rv32_linear_offset t) (rv32_root t) p2_index.
(** [riscv/paging/multi_level.rs:49-62] Rv32PageTableWith::map_to *)
Definition Rv32_map_to (t : Rv32PageTableWith) (page : PageWith V) (frame : FrameWith PhysAddrSv32) (flags : Z) : PM32 (Result Z MapToError) :=
  let* p2 := lift (l2_p2_index page) in
  and_then_r (Rv32_create_p1_if_not_exist t p2) (λ p1_table,
  let* p1 := lift (l2_p1_index page) in
  set_page p1_table p1 frame flags (MapperFlush_new page)).
(** [riscv/paging/multi_level.rs:64-81] Rv32PageTableWith::unmap *)
Definition Rv32_unmap (t : Rv32PageTableWith) (page : PageWith V) :
    PM32 (Result (FrameWith PhysAddrSv32 * Z) (Unmap.UnmapError PhysAddrSv32)) :=
  let* p2 := lift (l2_p2_index page) in
  or_err (next_table (P := PhysAddrSv32) (rv32_linear_offset t) (rv32_root t) p2) Unmap.PageNotMapped (λ p1_table,
  let* p1 := lift (l2_p1_index page) in
  clear_page p1_table p1 (MapperFlush_new page)).
(** [riscv/paging/multi_level.rs:83-93] Rv32PageTableWith::ref_entry *)
Definition Rv32_ref_entry (t : Rv32PageTableWith) (page : PageWith V) : PM32 (Result Z FlagUpdateError) :=
  let* p2 := lift (l2_p2_index page) in
  or_err (next_table (P := PhysAddrSv32) (rv32_linear_offset t) (rv32_root t) p2) PageNotMapped (λ p1_table,
  let* p1 := lift (l2_p1_index page) in
  let* at_ := lift (PageTable_index (E := PageTableEntryX32) p1_table p1) in
  ret (ok at_)).
#[export] Instance Rv32_Mapper : Mapper Rv32PageTableWith PhysAddrSv32 V PageTableEntryX32 A :=
  {| map_to := Rv32_map_to; unmap := Rv32_unmap; ref_entry := Rv32_ref_entry |}.
End rv32.

(** ** Three levels *)
(** [riscv/paging/multi_level.rs:98-102] Rv39PageTableWith *)
Record Rv39PageTableWith : Type := mkRv39 { rv39_root : Z; rv39_linear_offset : Z }.
Section rv39.
Context {V A : Type} `{Address V, AddressL3 V, FrameAllocatorFor PhysAddrSv39 A}.
Abbreviation PM39 := (M (pstate PageTableEntryX64 A)).
(** [riscv/paging/multi_level.rs:105-111] Rv39PageTableWith::new *)
Definition Rv39_new (table linear_offset : Z) : Rv39PageTableWith := mkRv39 table linear_offset.
(** [riscv/paging/multi_level.rs:113-140] Rv39PageTableWith::create_p1_if_not_exist *)
Definition Rv39_create_p1_if_not_exist (t : Rv39PageTableWith) (p3_index p2_index : Z) : PM39 (Result Z MapToError) :=
  and_then_r (next_table_create (P := PhysAddrSv39) (rv39_linear_offset t) (rv39_root t) p3_index) (λ p2_table,
  next_table_create (P := PhysAddrSv39) (rv39_linear_offset t) p2_table p2_index).
(** [riscv/paging/multi_level.rs:150-163] Rv39PageTableWith::map_to *)
Definition Rv39_map_to (t : Rv39PageTableWith) (page : PageWith V) (frame : FrameWith PhysAddrSv39) (flags : Z) : PM39 (Result Z MapToError) :=
  let* p3 := lift (l3_p3_index page) in
  let* p2 := lift (l3_p2_index page) in
  and_then_r (Rv39_create_p1_if_not_exist t p3 p2) (λ p1_table,
  let* p1 := lift (l3_p1_index page) in
  set_page p1_table p1 frame flags (MapperFlush_new page)).
(** [riscv/paging/multi_level.rs:165-188] Rv39PageTableWith::unmap *)
Definition Rv39_unmap (t : Rv39PageTableWith) (page : PageWith V) :
    PM39 (Result (FrameWith PhysAddrSv39 * Z) (Unmap.UnmapError PhysAddrSv39)) :=
  let* p3 := lift (l3_p3_index page) in
  or_err (next_table (P := PhysAddrSv39) (rv39_linear_offset t) (rv39_root t) p3) Unmap.PageNotMapped (λ p2_table,
  let* p2 := lift (l3_p2_index page) in
  or_err (next_table (P := PhysAddrSv39) (rv39_linear_offset t) p2_table p2) Unmap.PageNotMapped (λ p1_table,
  let* p1 := lift (l3_p1_index page) in
  clear_page p1_table p1 (MapperFlush_new page))).
(** [riscv/paging/multi_level.rs:190-206] Rv39PageTableWith::ref_entry *)
Definition Rv39_ref_entry (t : Rv39PageTableWith) (page : PageWith V) : PM39 (Result Z FlagUpdateError) :=
  let* p3 := lift (l3_p3_index page) in
  or_err (next_table (P := PhysAddrSv39) (rv39_linear_offset t) (rv39_root t) p3) PageNotMapped (λ p2_table,
  let* p2 := lift (l3_p2_index page) in
  or_err (next_table (P := PhysAddrSv39) (rv39_linear_offset t) p2_table p2) PageNotMapped (λ p1_table,
  let* p1 := lift (l3_p1_index page) in
  let* at_ := lift (PageTable_index (E := PageTableEntryX64) p1_table p1) in
  ret (ok at_))).
#[export] Instance Rv39_Mapper : Mapper Rv39PageTableWith PhysAddrSv39 V PageTableEntryX64 A :=
  {| map_to := Rv39_map_to; unmap := Rv39_unmap; ref_entry := Rv39_ref_entry |}.
End rv39.

(** ** Four levels *)
(** [riscv/paging/multi_level.rs:211-215] Rv48PageTableWith *)
Record Rv48PageTableWith : Type := mkRv48 { rv48_root : Z; rv48_linear_offset : Z }.
Section rv48.
Context {V A : Type} `{Address V, AddressL4 V, FrameAllocatorFor PhysAddrSv48 A}.
Abbreviation PM48 := (M (pstate PageTableEntryX64 A)).
(** [riscv/paging/multi_level.rs:218-224] Rv48PageTableWith::new *)
Definition Rv48_new (table linear_offset : Z) : Rv48PageTableWith := mkRv48 table linear_offset.
(** [riscv/paging/multi_level.rs:226-266] Rv48PageTableWith::create_p1_if_not_exist *)
Definition Rv48_create_p1_if_not_exist (t : Rv48PageTableWith) (p4_index p3_index p2_index : Z) : PM48 (Result Z MapToError) :=
  and_then_r (next_table_create (P := PhysAddrSv48) (rv48_linear_offset t) (rv48_root t) p4_index) (λ p3_table,
  and_then_r (next_table_create (P := PhysAddrSv48) (rv48_linear_offset t) p3_table p3_index) (λ p2_table,
  next_table_create (P := PhysAddrSv48) (rv48_linear_offset t) p2_table p2_index)).
(** [riscv/paging/multi_level.rs:276-294] Rv48PageTableWith::map_to *)
Definition Rv48_map_to (t : Rv48PageTableWith) (page : PageWith V) (frame : FrameWith PhysAddrSv48) (flags : Z) : PM48 (Result Z MapToError) :=
  let* p4 := lift (l4_p4_index page) in
  let* p3 := lift (l4_p3_index page) in
  let* p2 := lift (l4_p2_index page) in
  and_then_r (Rv48_create_p1_if_not_exist t p4 p3 p2) (λ p1_table,
  let* p1 := lift (l4_p1_index page) in
  set_page p1_table p1 frame flags (MapperFlush_new page)).
(** [riscv/paging/multi_level.rs:296-325] Rv48PageTableWith::unmap *)
Definition Rv48_unmap (t : Rv48PageTableWith) (page : PageWith V) :
    PM48 (Result (FrameWith PhysAddrSv48 * Z) (Unmap.UnmapError PhysAddrSv48)) :=
  let* p4 := lift (l4_p4_index page) in
  or_err (next_table (P := PhysAddrSv48) (rv48_linear_offset t) (rv48_root t) p4) Unmap.PageNotMapped (λ p3_table,
  let* p3 := lift (l4_p3_index page) in
  or_err (next_table (P := PhysAddrSv48) (rv48_linear_offset t) p3_table p3) Unmap.PageNotMapped (λ p2_table,
  let* p2 := lift (l4_p2_index page) in
  or_err (next_table (P := PhysAddrSv48) (rv48_linear_offset t) p2_table p2) Unmap.PageNotMapped (λ p1_table,
  let* p1 := lift (l4_p1_index page) in
  clear_page p1_table p1 (MapperFlush_new page)))).
(** [riscv/paging/multi_level.rs:327-349] Rv48PageTableWith::ref_entry *)
Definition Rv48_ref_entry (t : Rv48PageTableWith) (page : PageWith V) : PM48 (Result Z FlagUpdateError) :=
  let* p4 := lift (l4_p4_index page) in
  or_err (next_table (P := PhysAddrSv48) (rv48_linear_offset t) (rv48_root t) p4) PageNotMapped (λ p3_table,
  let* p3 := lift (l4_p3_index page) in
  or_err (next_table (P := PhysAddrSv48) (rv48_linear_offset t) p3_table p3) PageNotMapped (λ p2_table,
  let* p2 := lift (l4_p2_index page) in
  or_err (next_table (P := PhysAddrSv48) (rv48_linear_offset t) p2_table p2) PageNotMapped (λ p1_table,
  let* p1 := lift (l4_p1_index page) in
  let* at_ := lift (PageTable_index (E := PageTableEntryX64) p1_table p1) in
  ret (ok at_)))).
#[export] Instance Rv48_Mapper : Mapper Rv48PageTableWith PhysAddrSv48 V PageTableEntryX64 A :=
  {| map_to := Rv48_map_to; unmap := Rv48_unmap; ref_entry := Rv48_ref_entry |}.
End rv48.

(** ** The default methods of [Mapper] *)
Section defaults.
Context {T P V E A : Type} `{PTE E, Address P, AddressX64 P, Address V, Mapper T P V E A}.
(** [riscv/paging/mapper.rs:35-44] Mapper::update_flags *)
Definition update_flags (t : T) (page : PageWith V) (flags : Z) : M (pstate E A) (Result Z FlagUpdateError) :=
  and_then_r (ref_entry t page) (λ at_,
  let* e := load_entry at_ in
  let* frame := lift (pte_frame (T := P) e) in
  let* e := lift (pte_set frame flags) in
  store_entry at_ e ;;
  let* fl := lift (MapperFlush_new page) in
  ret (ok fl)).
(** [riscv/paging/mapper.rs:47-58] Mapper::translate_page *)
Definition translate_page (t : T) (page : PageWith V) : M (pstate E A) (option (FrameWith P)) :=
  let* r := ref_entry t page in
  match r with
  | ok at_ =>
      let* e := load_entry at_ in
      if pte_is_unused e then ret None else
      let* frame := lift (pte_frame e) in
      ret (Some frame)
  | err _ => ret None
  end.
(** [riscv/paging/mapper.rs:61-69] Mapper::identity_map *)
Definition identity_map (t : T) (frame : FrameWith P) (flags : Z) : M (pstate E A) (Result Z MapToError) :=
  let* a := lift (addr_as_usize (FrameWith_start_address frame)) in
  let* v := lift (addr_new a) in
  map_to t (PageWith_of_addr v) frame flags.
End defaults.

(** ** What the entries promise *)
(** A frame a table can hold: [frame_ok]; an entry that is set gives it back. *)
Class PTELaws (E P : Type) `{PTE E, Address P, AddressX64 P} (frame_ok : FrameWith P → Prop) : Prop := {
  pl_unused e : pte_is_unused e = true ↔ e = pte_unused;
  pl_set f fl : frame_ok f → 0 ≤ fl ≤ F_all →
    ∃ e, pte_set f fl = Ok e ∧ pte_is_unused e = false ∧ pte_frame e = Ok f ∧ pte_flags e = Z.lor fl (Z.lor F_ACCESSED F_DIRTY);
  pl_unused_frame : ∃ f, pte_frame (E := E) pte_unused = Ok f ∧ frame_ok f;
  pl_unused_flags : pte_flags (E := E) pte_unused = 0;
  pl_table f g off : frame_ok f → frame_ok g → FrameWith_as_kernel_mut f off = FrameWith_as_kernel_mut g off → f = g;
  pl_size : 0 < pte_size (E := E) ∧ pte_size (E := E) * pte_count (E := E) = 4096;
}.
(** The frames an allocator may still hand out. *)
Class AllocLaws (P A : Type) {FA : FrameAllocatorFor P A} (frames : A → FrameWith P → Prop) : Prop := {
  al_alloc a : match frame_alloc a with
    | (Some f, a') => frames a f ∧ ∀ g, frames a' g → frames a g ∧ g ≠ f
    | (None, a') => ∀ g, frames a' g → frames a g
    end;
}.

(** The allocator has just returned nothing. *)
Definition exhausted {E P A} {FA : FrameAllocatorFor P A} (s : pstate E A) : Prop := ∃ a, frame_alloc a = (None : option (FrameWith P), ps_alloc s).

(** ** The tree of tables *)
Section tree.
Context {E P A : Type} `{PTE E, Address P, AddressX64 P, FA : FrameAllocatorFor P A}.
Context (frame_ok : FrameWith P → Prop) (frames : A → FrameWith P → Prop).
Context {HE : PTELaws E P frame_ok} {HA : AllocLaws P A frames}.
(** The linear offset, the number of levels above the last, and the table of a
    frame. *)
Context (off : Z) (L : nat).
#[local] Notation count := (pte_count (E := E)).
#[local] Notation size := (pte_size (E := E)).
Definition table_of (f : FrameWith P) : Z := FrameWith_as_kernel_mut f off.
Definition aligned (t : Z) : Prop := (t - off) mod 4096 = 0.
Definition in_range (i : Z) : Prop := 0 ≤ i < count.

(** [tr] gives the table of each path of indices. *)
Record tree_wf (root : Z) (tr : gmap (list Z) Z) (s : pstate E A) : Prop := {
  wf_root : tr !! [] = Some root;
  wf_len p t : tr !! p = Some t → (length p ≤ L)%nat;
  wf_entry p t i : tr !! p = Some t → (length p < L)%nat → in_range i →
    match tr !! (p ++ [i]) with
    | None => entry (ps_mem s) (t + size * i) = pte_unused
    | Some t' => ∃ f, entry (ps_mem s) (t + size * i) ≠ pte_unused ∧
        pte_frame (entry (ps_mem s) (t + size * i)) = Ok f ∧ table_of f = t'
    end;
  wf_inj p q t : tr !! p = Some t → tr !! q = Some t → p = q;
  wf_aligned p t : tr !! p = Some t → aligned t;
  wf_closed p i : is_Some (tr !! (p ++ [i])) → is_Some (tr !! p);
  wf_free f : frames (ps_alloc s) f → frame_ok f ∧ aligned (table_of f) ∧ ∀ p, tr !! p ≠ Some (table_of f);
}.
(** The entry of a page. *)
Definition leaf (tr : gmap (list Z) Z) (mem : gmap Z E) (p : list Z) (i : Z) : E :=
  match tr !! p with Some t => entry mem (t + size * i) | None => pte_unused end.

Lemma slot_inj t t' i j : aligned t → aligned t' → in_range i → in_range j → t + size * i = t' + size * j → t = t' ∧ i = j.
Proof.
  unfold aligned, in_range. intros Ht Ht' Hi Hj Heq. destruct (pl_size (E := E) (P := P)) as [Hs Hc].
  assert (Hb : ∀ k, 0 ≤ k < count → 0 ≤ size * k < 4096) by (intros k Hk; nia). pose proof (Hb i Hi). pose proof (Hb j Hj).
  assert (Hd : (t - t') mod 4096 = 0).
  { replace (t - t') with ((t - off) - (t' - off)) by ring. rewrite Zminus_mod, Ht, Ht'. done. }
  assert (size * j - size * i = t - t') by lia. assert (t = t').
  { pose proof (Z.div_mod (t - t') 4096). lia. }
  split; [done|]. subst. nia.
Qed.
Lemma entry_insert mem a e b : entry (<[a := e]> mem) b = if decide (a = b) then e else entry mem b.
Proof. unfold entry. destruct (decide (a = b)) as [->|Hne]; [by rewrite lookup_insert_eq|by rewrite lookup_insert_ne]. Qed.

(** Clearing a table. *)
Lemma zero_spec t (s : pstate E A) :
  ∃ mem', PageTable_zero t s = Ok (tt, mkP mem' (ps_alloc s)) ∧
    (∀ i, in_range i → entry mem' (t + size * i) = pte_unused) ∧
    (∀ a, (∀ i, in_range i → a ≠ t + size * i) → entry mem' a = entry (ps_mem s) a).
Proof.
  unfold PageTable_zero, in_range. assert (Hgen : ∀ l (s : pstate E A), ∃ mem', for_each l (λ i, store_entry (t + size * i) pte_unused) s = Ok (tt, mkP mem' (ps_alloc s)) ∧
    (∀ i, i ∈ l → entry mem' (t + size * i) = pte_unused) ∧
    (∀ a, (∀ i, i ∈ l → a ≠ t + size * i) → entry mem' a = entry (ps_mem s) a)).
  { clear s. induction l as [|i l IH]; intros [mem al]; [exists mem; split_and!; [done|set_solver|done]|].
    destruct (IH (mkP (<[t + size * i := pte_unused]> mem) al)) as (mem' & Hrun & Hin & Hout). cbn [ps_mem ps_alloc] in *.
    exists mem'. split_and!; [exact Hrun| |].
    - intros j Hj. destruct (decide (j ∈ l)) as [Hl|Hl]; [by apply Hin|]. assert (j = i) as -> by set_solver.
      rewrite Hout; [by rewrite entry_insert, decide_True|]. intros k Hk He. destruct (pl_size (E := E) (P := P)) as [Hs _].
      apply Hl. by replace i with k by nia.
    - intros a Ha. rewrite Hout by set_solver. rewrite entry_insert, decide_False; [done|]. intros <-. apply (Ha i); set_solver. }
  destruct (Hgen (seqZ 0 count) s) as (mem' & Hrun & Hin & Hout). exists mem'. split_and!; [done| |].
  - intros i Hi. apply Hin, elem_of_seqZ. lia.
  - intros a Ha. apply Hout. intros i Hi. apply Ha. apply elem_of_seqZ in Hi. lia.
Qed.

(** A new table at the end of the path [p ++ [i]]. *)
Lemma tree_insert root tr s p t i f e a' mem' :
  tree_wf root tr s → tr !! p = Some t → (length p < L)%nat → in_range i → tr !! (p ++ [i]) = None →
  frames (ps_alloc s) f → (∀ g, frames a' g → frames (ps_alloc s) g ∧ g ≠ f) →
  e ≠ pte_unused → pte_frame e = Ok f →
  (∀ j, in_range j → entry mem' (table_of f + size * j) = pte_unused) →
  (∀ a, (∀ j, in_range j → a ≠ table_of f + size * j) → entry mem' a = entry (<[t + size * i := e]> (ps_mem s)) a) →
  let tr' := <[p ++ [i] := table_of f]> tr in
  tree_wf root tr' (mkP mem' a') ∧ (∀ q j, length q = L → in_range j → leaf tr' mem' q j = leaf tr (ps_mem s) q j).
Proof.
  intros Hwf Hp Hlen Hi Hnone Hf Hfr He Hef Hz Hm tr'. destruct (wf_free _ _ _ Hwf f Hf) as (Hfo & Hal & Hnew).
  assert (Hold : ∀ q tq j, tr !! q = Some tq → in_range j →
    entry mem' (tq + size * j) = if decide (q = p ∧ j = i) then e else entry (ps_mem s) (tq + size * j)).
  { intros q tq j Hq Hj. rewrite Hm, entry_insert.
    - destruct (decide (q = p ∧ j = i)) as [[-> ->]|Hn]; [rewrite Hp in Hq; injection Hq as ->; by rewrite decide_True|].
      rewrite decide_False; [done|]. intros Hs. apply slot_inj in Hs as [<- <-]; try done; [|by eapply wf_aligned..].
      apply Hn. split; [|done]. by eapply (wf_inj _ _ _ Hwf).
    - intros k Hk Hs. apply slot_inj in Hs as [-> _]; [by apply (Hnew q)|by eapply wf_aligned|done..]. }
  assert (Hsome : ∀ q tq, tr' !! q = Some tq → (q = p ++ [i] ∧ tq = table_of f) ∨ (q ≠ p ++ [i] ∧ tr !! q = Some tq)).
  { intros q tq. unfold tr'. rewrite lookup_insert_Some. naive_solver. }
  split; [split; cbn [ps_mem ps_alloc]|].
  - unfold tr'. rewrite lookup_insert_ne; [apply Hwf|]. by destruct p.
  - intros q tq Hq. apply Hsome in Hq as [[-> ->]|[_ Hq]]; [rewrite length_app; cbn; lia|by eapply wf_len].
  - intros q tq j Hq Hql Hj. apply Hsome in Hq as [[-> ->]|[Hne Hq]].
    + unfold tr'. rewrite lookup_insert_ne; [|intros E'; apply (f_equal length) in E'; rewrite !length_app in E'; cbn in E'; lia].
      destruct (tr !! ((p ++ [i]) ++ [j])) eqn:Hc; [|by apply Hz].
      destruct (wf_closed _ _ _ Hwf (p ++ [i]) j) as [? Hx]; [eauto|congruence].
    + rewrite (Hold q tq j Hq Hj). pose proof (wf_entry _ _ _ Hwf q tq j Hq Hql Hj) as Hent.
      destruct (decide (q = p ∧ j = i)) as [[-> ->]|Hn]; [unfold tr'; rewrite lookup_insert_eq; by exists f|].
      unfold tr'. rewrite lookup_insert_ne; [exact Hent|]. intros E'. apply app_inj_tail in E' as [-> ->]. by apply Hn.
  - intros q q' tq Hq Hq'. apply Hsome in Hq as [[-> ->]|[_ Hq]], Hq' as [[-> ?]|[_ Hq']]; try done;
      [by apply Hnew in Hq'|subst; by apply Hnew in Hq|by eapply wf_inj].
  - intros q tq Hq. apply Hsome in Hq as [[-> ->]|[_ Hq]]; [done|by eapply wf_aligned].
  - intros q j [tq Hq]. apply Hsome in Hq as [[Hq _]|[_ Hq]].
    + apply app_inj_tail in Hq as [-> ->]. unfold tr'. apply lookup_insert_is_Some'. right. by eexists.
    + unfold tr'. apply lookup_insert_is_Some'. right. eapply wf_closed; eauto.
  - intros g Hg. destruct (Hfr g Hg) as [Hg' Hgf]. destruct (wf_free _ _ _ Hwf g Hg') as (Hgo & Hga & Hgn). split_and!; [done..|].
    intros q Hq. apply Hsome in Hq as [[_ Hq]|[_ Hq]]; [|by apply Hgn in Hq]. apply Hgf. by apply (pl_table (E := E) (P := P)) in Hq.
  - intros q j Hq Hj. unfold leaf. destruct (tr' !! q) as [tq|] eqn:Ht.
    + apply Hsome in Ht as [[-> ->]|[Hne Ht]]; [rewrite Hnone; by apply Hz|]. rewrite Ht, (Hold q tq j Ht Hj), decide_False; [done|].
      intros [-> _]. lia.
    + unfold tr' in Ht. apply lookup_insert_None in Ht as [-> _]. done.
Qed.

(** One level: the table of the entry exists afterwards, or the allocator is
    exhausted; no page's entry changes. *)
Lemma next_table_create_spec root tr s p t i :
  tree_wf root tr s → tr !! p = Some t → (length p < L)%nat → in_range i →
  ∃ r s' tr', next_table_create (P := P) off t i s = Ok (r, s') ∧ tree_wf root tr' s' ∧ tr ⊆ tr' ∧
    (∀ q j, length q = L → in_range j → leaf tr' (ps_mem s') q j = leaf tr (ps_mem s) q j) ∧
    match r with ok t' => tr' !! (p ++ [i]) = Some t' | err e => e = FrameAllocationFailed ∧ exhausted (P := P) s' end.
Proof.
  intros Hwf Hp Hlen Hi. pose proof (wf_entry _ _ _ Hwf p t i Hp Hlen Hi) as Hent. set (e := entry (ps_mem s) (t + size * i)) in *.
  unfold next_table_create, PageTable_index, load_entry. rewrite (proj2 (Z.ltb_lt _ _)) by apply Hi.
  unfold bind at 1, lift at 1. unfold bind at 1. fold e. destruct (pte_is_unused e) eqn:Hu.
  - apply (pl_unused (P := P)) in Hu. assert (Hnone : tr !! (p ++ [i]) = None) by (destruct (tr !! (p ++ [i])); [by destruct Hent as (? & ? & _)|done]).
    unfold bind at 1, get. pose proof (al_alloc (ps_alloc s)) as Hal. destruct (frame_alloc (ps_alloc s)) as [[f|] a'] eqn:Hfa.
    + destruct Hal as [Hf Hfr]. destruct (wf_free _ _ _ Hwf f Hf) as (Hfo & _ & _). destruct (pl_set f F_VALID Hfo) as (e' & Hset & Hu' & Hfe & _); [done|].
      destruct (zero_spec (table_of f) (mkP (<[t + size * i := e']> (ps_mem s)) a')) as (mem' & Hz & Hz1 & Hz2). cbn [ps_mem ps_alloc] in *.
      destruct (tree_insert root tr s p t i f e' a' mem') as [Hwf' Hleaf]; try done.
      { intros ->. by rewrite (proj2 (pl_unused (P := P) pte_unused) eq_refl) in Hu'. }
      exists (ok (table_of f)), (mkP mem' a'), (<[p ++ [i] := table_of f]> tr). split_and!; [|done|by apply insert_subseteq|done|apply lookup_insert_eq].
      unfold bind at 1, put. unfold bind at 1, lift. rewrite Hset. unfold bind at 1, store_entry, modify. cbn [ps_mem ps_alloc]. fold (table_of f).
      by rewrite (bind_run _ _ _ _ _ Hz).
    + exists (err FrameAllocationFailed), (mkP (ps_mem s) a'), tr. split_and!; try done; [|by exists (ps_alloc s)]. destruct Hwf. split; try done. cbn. intros f Hf. by apply wf_free0, Hal.
  - destruct (tr !! (p ++ [i])) as [t'|] eqn:Ht; [|rewrite Hent, (proj2 (pl_unused (P := P) pte_unused) eq_refl) in Hu; done].
    destruct Hent as (f & _ & Hf & Hft). exists (ok t'), s, tr. split_and!; try done.
    unfold bind, lift. rewrite Hf. unfold ret. by rewrite <- Hft.
Qed.

(** ** Paths *)
Fixpoint create_path (t : Z) (idxs : list Z) : M (pstate E A) (Result Z MapToError) :=
  match idxs with
  | [] => ret (ok t)
  | i :: idxs => and_then_r (next_table_create (P := P) off t i) (λ t', create_path t' idxs)
  end.
Fixpoint walk_path (t : Z) (idxs : list Z) : M (pstate E A) (option Z) :=
  match idxs with
  | [] => ret (Some t)
  | i :: idxs => let* r := next_table (P := P) off t i in match r with None => ret None | Some t' => walk_path t' idxs end
  end.

Lemma create_path_spec root idxs : ∀ tr s p t,
  tree_wf root tr s → tr !! p = Some t → (length (p ++ idxs) ≤ L)%nat → Forall in_range idxs →
  ∃ r s' tr', create_path t idxs s = Ok (r, s') ∧ tree_wf root tr' s' ∧ tr ⊆ tr' ∧
    (∀ q j, length q = L → in_range j → leaf tr' (ps_mem s') q j = leaf tr (ps_mem s) q j) ∧
    match r with ok t' => tr' !! (p ++ idxs) = Some t' | err e => e = FrameAllocationFailed ∧ exhausted (P := P) s' end.
Proof.
  induction idxs as [|i idxs IH]; intros tr s p t Hwf Hp Hlen Hr.
  { exists (ok t), s, tr. rewrite app_nil_r. split_and!; done. }
  apply Forall_cons in Hr as [Hi Hr]. rewrite length_app in Hlen. cbn [length] in Hlen.
  destruct (next_table_create_spec root tr s p t i) as (r1 & s1 & tr1 & Hrun & Hwf1 & Hsub & Hleaf & Hr1); [done|done|lia|done|].
  destruct r1 as [t1|e1].
  - destruct (IH tr1 s1 (p ++ [i]) t1 Hwf1 Hr1) as (r & s' & tr' & Hrun' & Hwf' & Hsub' & Hleaf' & Hr'); [rewrite !length_app; cbn; lia|done|].
    exists r, s', tr'. split_and!; [|done|by etrans| |].
    + cbn [create_path]. unfold and_then_r. by rewrite (bind_run _ _ _ _ _ Hrun).
    + intros q j Hq Hj. by rewrite Hleaf', Hleaf.
    + by rewrite <- app_assoc in Hr'.
  - exists (err e1), s1, tr1. split_and!; try apply Hr1; try done. cbn [create_path]. unfold and_then_r. by rewrite (bind_run _ _ _ _ _ Hrun).
Qed.
Lemma walk_path_spec root tr s idxs : ∀ p t,
  tree_wf root tr s → tr !! p = Some t → (length (p ++ idxs) ≤ L)%nat → Forall in_range idxs →
  walk_path t idxs s = Ok (tr !! (p ++ idxs), s).
Proof.
  induction idxs as [|i idxs IH]; intros p t Hwf Hp Hlen Hr; [by rewrite app_nil_r, Hp|].
  apply Forall_cons in Hr as [Hi Hr]. rewrite length_app in Hlen. cbn [length] in Hlen.
  pose proof (wf_entry _ _ _ Hwf p t i Hp ltac:(lia) Hi) as Hent. set (e := entry (ps_mem s) (t + size * i)) in *.
  assert (Hnext : next_table (P := P) off t i s = Ok (tr !! (p ++ [i]), s)).
  { unfold next_table, PageTable_index, load_entry. rewrite (proj2 (Z.ltb_lt _ _)) by apply Hi. unfold bind at 1, lift at 1. unfold bind at 1. fold e.
    destruct (tr !! (p ++ [i])) as [t'|] eqn:Ht.
    - destruct Hent as (f & Hne & Hf & <-). destruct (pte_is_unused e) eqn:Hu; [by apply (pl_unused (P := P)) in Hu|].
      unfold bind, lift. by rewrite Hf.
    - rewrite Hent. by rewrite (proj2 (pl_unused (P := P) pte_unused) eq_refl). }
  cbn [walk_path]. rewrite (bind_run _ _ _ _ _ Hnext). replace (p ++ i :: idxs) with ((p ++ [i]) ++ idxs) by (by rewrite <- app_assoc).
  destruct (tr !! (p ++ [i])) as [t'|] eqn:Ht.
  - apply IH; [done|done|rewrite !length_app; cbn; lia|done].
  - assert (Hnone : tr !! ((p ++ [i]) ++ idxs) = None); [|by rewrite Hnone].
    clear -Ht Hwf. induction idxs as [|j idxs IH] using rev_ind; [by rewrite app_nil_r|]. rewrite app_assoc.
    destruct (tr !! (((p ++ [i]) ++ idxs) ++ [j])) eqn:Hx; [|done]. destruct (wf_closed _ _ _ Hwf ((p ++ [i]) ++ idxs) j); [eauto|congruence].
Qed.

Lemma land_valid x : (Z.land x F_VALID =? F_VALID) = Z.testbit x 0.
Proof.
  change F_VALID with (2 ^ 1 - 1). rewrite land_mask by lia. change (2 ^ 1) with 2. rewrite Zmod_odd, Z.bit0_odd. by destruct (Z.odd x).
Qed.

(** ** The table as a map *)
(** The entry of each page, by the path of its last table and its index there;
    every entry in use has been set for a frame. *)
Definition set_entry (e : E) : Prop := ∃ f fl, frame_ok f ∧ 0 ≤ fl ≤ F_all ∧ pte_set f fl = Ok e.
Definition table_view (root : Z) (s : pstate E A) (v : list Z → Z → E) : Prop :=
  ∃ tr, tree_wf root tr s ∧
    (∀ p i, length p = L → in_range i → leaf tr (ps_mem s) p i = v p i) ∧ (∀ p i, v p i = pte_unused ∨ set_entry (v p i)).
Definition upd (v : list Z → Z → E) (p : list Z) (i : Z) (e : E) : list Z → Z → E :=
  λ q j, if decide (q = p ∧ j = i) then e else v q j.

Lemma view_store root tr s v p t i e :
  tree_wf root tr s → (∀ p i, length p = L → in_range i → leaf tr (ps_mem s) p i = v p i) → (∀ p i, v p i = pte_unused ∨ set_entry (v p i)) →
  tr !! p = Some t → length p = L → in_range i → e = pte_unused ∨ set_entry e →
  table_view root (mkP (<[t + size * i := e]> (ps_mem s)) (ps_alloc s)) (upd v p i e).
Proof.
  intros Hwf Hv Hset Hp Hlen Hi He. assert (Hent : ∀ q tq j, tr !! q = Some tq → in_range j →
    entry (<[t + size * i := e]> (ps_mem s)) (tq + size * j) = if decide (q = p ∧ j = i) then e else entry (ps_mem s) (tq + size * j)).
  { intros q tq j Hq Hj. rewrite entry_insert. destruct (decide (q = p ∧ j = i)) as [[-> ->]|Hn].
    - rewrite Hp in Hq. injection Hq as ->. by rewrite decide_True.
    - rewrite decide_False; [done|]. intros Hs. apply slot_inj in Hs as [<- <-]; try done; [|by eapply wf_aligned..].
      apply Hn. split; [|done]. by eapply (wf_inj _ _ _ Hwf). }
  exists tr. split_and!.
  - destruct Hwf as [W1 W2 W3 W4 W5 W6 W7]. split; cbn [ps_mem ps_alloc]; try done. intros q tq j Hq Hql Hj. rewrite (Hent q tq j Hq Hj).
    rewrite decide_False; [by apply W3|]. intros [-> _]. lia.
  - intros q j Hq Hj. cbn [ps_mem]. unfold leaf, upd. destruct (tr !! q) as [tq|] eqn:Ht.
    + rewrite (Hent q tq j Ht Hj). destruct (decide (q = p ∧ j = i)); [done|]. rewrite <- Hv by done. unfold leaf. by rewrite Ht.
    + rewrite decide_False; [|intros [-> _]; congruence]. rewrite <- Hv by done. unfold leaf. by rewrite Ht.
  - intros q j. unfold upd. destruct (decide (q = p ∧ j = i)); [done|apply Hset].
Qed.

(** The three operations, of a page with the path [p] and the index [i]. *)
Section ops.
Context (root : Z) (p : list Z) (i : Z) (Hlen : length p = L) (Hp : Forall in_range p) (Hi : in_range i).

Lemma map_path_spec s v frame flags fl :
  table_view root s v → frame_ok frame → 0 ≤ flags ≤ F_all →
  ∃ r s', and_then_r (create_path root p) (λ t, set_page (P := P) t i frame flags (Ok fl)) s = Ok (r, s') ∧
    match r with
    | ok x => x = fl ∧ v p i = pte_unused ∧ ∃ e, pte_set frame flags = Ok e ∧ table_view root s' (upd v p i e)
    | err PageAlreadyMapped => v p i ≠ pte_unused ∧ table_view root s' v
    | err FrameAllocationFailed => exhausted (P := P) s' ∧ table_view root s' v
    | err ParentEntryHugePage => False
    end.
Proof.
  intros (tr & Hwf & Hv & Hset) Hf Hfl.
  destruct (create_path_spec root p tr s [] root Hwf (wf_root _ _ _ Hwf)) as (r & s' & tr' & Hrun & Hwf' & _ & Hleaf & Hr); [by rewrite app_nil_l, Hlen|done|].
  assert (Hv' : ∀ q j, length q = L → in_range j → leaf tr' (ps_mem s') q j = v q j) by (intros q j Hq Hj; rewrite Hleaf by done; by apply Hv).
  destruct r as [t|e].
  - cbn [app] in Hr. assert (Hve : entry (ps_mem s') (t + size * i) = v p i) by (rewrite <- Hv' by done; unfold leaf; by rewrite Hr).
    assert (Hstep : and_then_r (create_path root p) (λ t, set_page (P := P) t i frame flags (Ok fl)) s = set_page (P := P) t i frame flags (Ok fl) s')
      by (unfold and_then_r; by rewrite (bind_run _ _ _ _ _ Hrun)).
    rewrite Hstep. unfold set_page, PageTable_index, load_entry. rewrite (proj2 (Z.ltb_lt _ _)) by apply Hi. unfold bind at 1, lift at 1. unfold bind at 1. rewrite Hve.
    destruct (pte_is_unused (v p i)) eqn:Hu; cbn [negb].
    + apply (pl_unused (P := P)) in Hu. destruct (pl_set frame flags Hf Hfl) as (e & Hse & _). unfold bind at 1, lift at 1. rewrite Hse.
      eexists (ok fl), _. split; [reflexivity|]. split_and!; [done|done|]. exists e. split; [done|]. eapply view_store; eauto. right. by exists frame, flags.
    + eexists (err PageAlreadyMapped), s'. split; [done|]. split; [|by exists tr'].
      intros Hx. by rewrite Hx, (proj2 (pl_unused (P := P) pte_unused) eq_refl) in Hu.
  - destruct Hr as [-> Hx]. exists (err FrameAllocationFailed), s'. split; [unfold and_then_r; by rewrite (bind_run _ _ _ _ _ Hrun)|]. split; [done|by exists tr'].
Qed.

Lemma ref_path_spec s v :
  table_view root s v →
  ∃ r, walk_path root p s = Ok (r, s) ∧
    match r with
    | Some t => entry (ps_mem s) (t + size * i) = v p i ∧
        ∀ e, e = pte_unused ∨ set_entry e → table_view root (mkP (<[t + size * i := e]> (ps_mem s)) (ps_alloc s)) (upd v p i e)
    | None => ∀ j, in_range j → v p j = pte_unused
    end.
Proof.
  intros (tr & Hwf & Hv & Hset). exists (tr !! p). split; [by apply (walk_path_spec root tr s p [] root Hwf (wf_root _ _ _ Hwf)); [rewrite app_nil_l, Hlen|]|].
  destruct (tr !! p) as [t|] eqn:Ht; [|intros j Hj; rewrite <- Hv by done; unfold leaf; by rewrite Ht].
  split; [rewrite <- Hv by done; unfold leaf; by rewrite Ht|]. intros e He. by eapply view_store.
Qed.

Lemma unmap_path_spec s v fl :
  table_view root s v →
  ∃ r s', (let* r := walk_path root p in match r with None => ret (err Unmap.PageNotMapped) | Some t => clear_page (P := P) t i (Ok fl) end) s = Ok (r, s') ∧
    match r with
    | ok (f, x) => x = fl ∧ pte_frame (v p i) = Ok f ∧ Z.testbit (pte_flags (v p i)) 0 = true ∧ table_view root s' (upd v p i pte_unused)
    | err Unmap.PageNotMapped => Z.testbit (pte_flags (v p i)) 0 = false ∧ s' = s
    | err _ => False
    end.
Proof.
  intros Hview. destruct (ref_path_spec s v Hview) as (r & Hw & Hr). rewrite (bind_run _ _ _ _ _ Hw). destruct r as [t|].
  - destruct Hr as [He Hst]. unfold clear_page, PageTable_index, load_entry. rewrite (proj2 (Z.ltb_lt _ _)) by apply Hi.
    unfold bind at 1, lift at 1. unfold bind at 1. rewrite He, land_valid. destruct (Z.testbit (pte_flags (v p i)) 0) eqn:Hb; cbn [negb].
    + destruct Hview as (tr & _ & _ & Hset). destruct (Hset p i) as [Hu|(f & fl0 & Hfo & Hfl0 & Hse)].
      { by rewrite Hu, (pl_unused_flags (P := P)) in Hb. }
      destruct (pl_set f fl0 Hfo Hfl0) as (e & Hse' & _ & Hfe & _). rewrite Hse in Hse'. injection Hse' as <-.
      unfold bind at 1, lift at 1. rewrite Hfe. eexists (ok (f, fl)), _. split; [reflexivity|]. split_and!; [done|done|done|]. apply Hst. by left.
    + by exists (err Unmap.PageNotMapped), s.
  - exists (err Unmap.PageNotMapped), s. split; [done|]. split; [|done]. by rewrite Hr, (pl_unused_flags (P := P)).
Qed.
End ops.
End tree.

(** ** The interface of the mappers *)
(** What a mapper promises: with [view t s v] the tables hold the entries [v];
    [at_ page p i] says where the page's entry is.  A page that is not mapped
    gets its entry, a mapped one is refused, an exhausted allocator changes no
    mapping; [unmap] clears a valid entry and returns its frame. *)
Class MapperLaws (T P V E A : Type) `{PTE E, Address P, AddressX64 P, Address V, FrameAllocatorFor P A, Mapper T P V E A} (frame_ok : FrameWith P → Prop)
    (view : T → pstate E A → (list Z → Z → E) → Prop) (at_ : PageWith V → list Z → Z → Prop) : Prop := {
  ml_flush page p i : at_ page p i → ∃ fl, MapperFlush_new page = Ok fl;
  ml_map t s v page p i frame flags :
    view t s v → at_ page p i → frame_ok frame → 0 ≤ flags ≤ F_all →
    ∃ r s', map_to t page frame flags s = Ok (r, s') ∧
      match r with
      | ok fl => MapperFlush_new page = Ok fl ∧ v p i = pte_unused ∧ ∃ e, pte_set frame flags = Ok e ∧ view t s' (upd v p i e)
      | err PageAlreadyMapped => v p i ≠ pte_unused ∧ view t s' v
      | err FrameAllocationFailed => exhausted (P := P) s' ∧ view t s' v
      | err ParentEntryHugePage => False
      end;
  ml_unmap t s v page p i :
    view t s v → at_ page p i →
    ∃ r s', unmap t page s = Ok (r, s') ∧
      match r with
      | ok (f, fl) => MapperFlush_new page = Ok fl ∧ pte_frame (v p i) = Ok f ∧ Z.testbit (pte_flags (v p i)) 0 = true ∧
          view t s' (upd v p i pte_unused)
      | err Unmap.PageNotMapped => Z.testbit (pte_flags (v p i)) 0 = false ∧ s' = s
      | err _ => False
      end;
  ml_ref t s v page p i :
    view t s v → at_ page p i →
    ∃ r, ref_entry t page s = Ok (r, s) ∧
      match r with
      | ok a => entry (ps_mem s) a = v p i ∧
          ∀ e, e = pte_unused ∨ set_entry frame_ok e → view t (mkP (<[a := e]> (ps_mem s)) (ps_alloc s)) (upd v p i e)
      | err _ => v p i = pte_unused ∧ ∀ j, in_range (E := E) j → v p j = pte_unused
      end;
  ml_entries t s v p i : view t s v → v p i = pte_unused ∨ set_entry frame_ok (v p i);
}.

(** The default methods, for every mapper. *)
Section clients.
Context {T P V E A : Type} `{PTE E, Address P, AddressX64 P, Address V, FrameAllocatorFor P A, Mapper T P V E A}.
Context {frame_ok : FrameWith P → Prop} {view : T → pstate E A → (list Z → Z → E) → Prop} {at_ : PageWith V → list Z → Z → Prop}.
Context {HE : PTELaws E P frame_ok} {HM : MapperLaws T P V E A frame_ok view at_}.

Lemma set_entry_frame (e : E) : e = pte_unused ∨ set_entry frame_ok e → ∃ f, pte_frame e = Ok f ∧ frame_ok f.
Proof.
  intros [->|(f & fl & Hf & Hfl & Hse)]; [apply (pl_unused_frame (E := E) (P := P))|]. destruct (pl_set f fl Hf Hfl) as (e' & Hse' & _ & Hfe & _).
  rewrite Hse in Hse'. injection Hse' as <-. by exists f.
Qed.
Lemma translate_page_spec t s v page p i :
  view t s v → at_ page p i →
  ∃ o, translate_page t page s = Ok (o, s) ∧
    match o with None => v p i = pte_unused | Some f => v p i ≠ pte_unused ∧ pte_frame (v p i) = Ok f end.
Proof.
  intros Hv Ha. destruct (ml_ref t s v page p i Hv Ha) as (r & Hr & Hm). unfold translate_page. rewrite (bind_run _ _ _ _ _ Hr).
  destruct r as [a|e]; [|exists None; by destruct Hm]. destruct Hm as [He _]. unfold bind at 1, load_entry. rewrite He.
  destruct (pte_is_unused (v p i)) eqn:Hu; [exists None; split; [done|by apply (pl_unused (P := P))]|].
  destruct (set_entry_frame (v p i) (ml_entries t s v p i Hv)) as (f & Hf & _). exists (Some f). unfold bind, lift. rewrite Hf. split; [done|]. split; [|done].
  intros Hx. by rewrite Hx, (proj2 (pl_unused (P := P) pte_unused) eq_refl) in Hu.
Qed.
(** The flags of the entry are replaced, whether it is in use or not. *)
Lemma update_flags_spec t s v page p i flags :
  view t s v → at_ page p i → 0 ≤ flags ≤ F_all →
  ∃ r s', update_flags t page flags s = Ok (r, s') ∧
    match r with
    | ok fl => MapperFlush_new page = Ok fl ∧ ∃ f e, pte_frame (v p i) = Ok f ∧ pte_set f flags = Ok e ∧ view t s' (upd v p i e)
    | err _ => v p i = pte_unused ∧ (∀ j, in_range (E := E) j → v p j = pte_unused) ∧ s' = s
    end.
Proof.
  intros Hv Ha Hfl. destruct (ml_ref t s v page p i Hv Ha) as (r & Hr & Hm). unfold update_flags, and_then_r. rewrite (bind_run _ _ _ _ _ Hr).
  destruct r as [a|e]; [|exists (err e), s; by destruct Hm]. destruct Hm as [He Hst]. destruct (set_entry_frame (v p i) (ml_entries t s v p i Hv)) as (f & Hf & Hfo).
  destruct (pl_set f flags Hfo Hfl) as (e & Hse & _). destruct (ml_flush page p i Ha) as (fl & Hflush).
  eexists (ok fl), _. split.
  { unfold bind at 1, load_entry. rewrite He. unfold bind at 1, lift at 1. rewrite Hf. unfold bind at 1, lift at 1. rewrite Hse.
    unfold bind at 1, store_entry, modify. unfold bind, lift. rewrite Hflush. reflexivity. }
  split; [done|]. exists f, e. split_and!; [done|done|]. apply Hst. right. by exists f, flags.
Qed.
End clients.

(** ** The entries *)
Lemma lor_AD fl : 0 ≤ fl ≤ F_all → 0 < Z.lor fl (Z.lor F_ACCESSED F_DIRTY) < 1024.
Proof.
  intros Hfl. change (Z.lor F_ACCESSED F_DIRTY) with 192. split.
  - assert (0 ≤ Z.lor fl 192) by (apply Z.lor_nonneg; lia). assert (Z.lor fl 192 ≠ 0); [|lia]. intros H0. by apply Z.lor_eq_0_iff in H0 as [_ ?].
  - destruct (decide (Z.lor fl 192 = 0)) as [->|]; [lia|]. apply Z.log2_lt_pow2 with (b := 10); [pose proof (Z.lor_nonneg fl 192); unfold F_all in *; lia|].
    rewrite Z.log2_lor by (unfold F_all in *; lia). apply Z.max_lub_lt; [|done].
    destruct (decide (fl = 0)) as [->|]; [done|]. apply Z.log2_lt_pow2; unfold F_all in *; lia.
Qed.
(** The number in an entry for the frame [n]. *)
Lemma entry_number n fl : 0 ≤ n < 2 ^ 44 → 0 ≤ fl ≤ F_all →
  let b := Z.lor fl (Z.lor F_ACCESSED F_DIRTY) in Z.lor (wrap64 (Z.shiftl n 10)) b = n * 2 ^ 10 + b.
Proof. intros Hn Hfl b. pose proof (lor_AD fl Hfl). rewrite (shiftl_small n 10 44) by lia. apply lor_low_high; unfold b; lia. Qed.
Lemma entry_parts n b : 0 ≤ n < 2 ^ 44 → 0 < b < 1024 →
  Z.shiftr (n * 2 ^ 10 + b) 10 = n ∧ Z.land (n * 2 ^ 10 + b) F_all = b ∧ wrap64 (Z.shiftl n 12) = n * 4096.
Proof.
  intros Hn Hb. split_and!.
  - rewrite Z.shiftr_div_pow2, Z.div_add_l, Z.div_small by lia. lia.
  - unfold F_all. rewrite land_mask, Z.add_comm, Z.mod_add, Z.mod_small by lia. done.
  - by rewrite (shiftl_small n 12 44) by lia.
Qed.
Lemma align_4k_id n : align_4k (n * 4096) = n * 4096.
Proof. unfold align_4k. rewrite Z.shiftr_div_pow2, Z.shiftl_mul_pow2 by lia. change (2 ^ 12) with 4096. by rewrite Z.div_mul by lia. Qed.
Lemma kernel_inj x y off : 0 ≤ x < 2 ^ 64 → 0 ≤ y < 2 ^ 64 → x +u off = y +u off → x = y.
Proof.
  unfold uadd, wrap64. intros Hx Hy He. rewrite <- (Z.mod_small x (2 ^ 64)), <- (Z.mod_small y (2 ^ 64)) by done.
  replace x with (x + off - off) by ring. replace y with (y + off - off) by ring. rewrite (Zminus_mod (x + off)), (Zminus_mod (y + off)), He. done.
Qed.

(** The frames of the three schemes. *)
Definition frame_ok32 (f : FrameWith PhysAddrSv32) : Prop := ∃ n, 0 ≤ n < 2 ^ 22 ∧ f = Frame (PA32 (n * 4096)).
Definition frame_ok39 (f : FrameWith PhysAddrSv39) : Prop := ∃ n, 0 ≤ n < 2 ^ 44 ∧ f = Frame (PA39 (n * 4096)).
Definition frame_ok48 (f : FrameWith PhysAddrSv48) : Prop := ∃ n, 0 ≤ n < 2 ^ 44 ∧ f = Frame (PA48 (n * 4096)).

Lemma frame_number n hi : 12 < hi ≤ 56 → 0 ≤ n < 2 ^ (hi - 12) → get_bits 64 (n * 4096) 12 hi = Ok n.
Proof.
  intros Hhi Hn. rewrite get_bits_ok by lia. f_equal. unfold field. change (2 ^ 12) with 4096. rewrite Z.div_mul by lia. apply Z.mod_small. lia.
Qed.
#[export] Instance PTELaws_39 : PTELaws PageTableEntryX64 PhysAddrSv39 frame_ok39.
Proof.
  split.
  - intros [x]. cbn. rewrite Z.eqb_eq. split; [by intros ->|by intros [= ->]].
  - intros f fl (n & Hn & ->) Hfl. pose proof (lor_AD fl Hfl) as Hb. set (b := Z.lor fl (Z.lor F_ACCESSED F_DIRTY)) in *.
    destruct (entry_parts n b ltac:(lia) Hb) as (P1 & P2 & P3). exists (X64 (n * 2 ^ 10 + b)). split_and!.
    + cbn [pte_set PTE_PageTableEntryX64]. change (FrameWith_number _) with (get_bits 64 (n * 4096) 12 56). rewrite frame_number by lia.
      cbn [obind]. rewrite entry_number by (done || lia). fold b. unfold wrap64. by rewrite Z.mod_small by lia.
    + cbn. apply Z.eqb_neq. lia.
    + unfold pte_frame. cbn [pte_addr PTE_PageTableEntryX64 x64 PhysAddrSv39_AddressX64 new_u64]. rewrite P1, P3.
      rewrite (new_below (n * 4096) 56 ltac:(lia) ltac:(lia) _ PA39). cbn [obind]. unfold FrameWith_of_addr. cbn [addr_to_4k_aligned PhysAddrSv39_Address pa39].
      by rewrite align_4k_id.
    + done.
  - exists (Frame (PA39 0)). split; [done|]. by exists 0.
  - done.
  - intros f g off (n & Hn & ->) (k & Hk & ->). unfold FrameWith_as_kernel_mut. cbn. intros He. apply kernel_inj in He; [|lia..]. by rewrite He.
  - done.
Qed.
#[export] Instance PTELaws_48 : PTELaws PageTableEntryX64 PhysAddrSv48 frame_ok48.
Proof.
  split.
  - intros [x]. cbn. rewrite Z.eqb_eq. split; [by intros ->|by intros [= ->]].
  - intros f fl (n & Hn & ->) Hfl. pose proof (lor_AD fl Hfl) as Hb. set (b := Z.lor fl (Z.lor F_ACCESSED F_DIRTY)) in *.
    destruct (entry_parts n b ltac:(lia) Hb) as (P1 & P2 & P3). exists (X64 (n * 2 ^ 10 + b)). split_and!.
    + cbn [pte_set PTE_PageTableEntryX64]. change (FrameWith_number _) with (get_bits 64 (n * 4096) 12 56). rewrite frame_number by lia.
      cbn [obind]. rewrite entry_number by (done || lia). fold b. unfold wrap64. by rewrite Z.mod_small by lia.
    + cbn. apply Z.eqb_neq. lia.
    + unfold pte_frame. cbn [pte_addr PTE_PageTableEntryX64 x64 PhysAddrSv48_AddressX64 new_u64]. rewrite P1, P3.
      rewrite (new_below (n * 4096) 56 ltac:(lia) ltac:(lia) _ PA48). cbn [obind]. unfold FrameWith_of_addr. cbn [addr_to_4k_aligned PhysAddrSv48_Address pa48].
      by rewrite align_4k_id.
    + done.
  - exists (Frame (PA48 0)). split; [done|]. by exists 0.
  - done.
  - intros f g off (n & Hn & ->) (k & Hk & ->). unfold FrameWith_as_kernel_mut. cbn. intros He. apply kernel_inj in He; [|lia..]. by rewrite He.
  - done.
Qed.
#[export] Instance PTELaws_32 : PTELaws PageTableEntryX32 PhysAddrSv32 frame_ok32.
Proof.
  split.
  - intros [x]. cbn. rewrite Z.eqb_eq. split; [by intros ->|by intros [= ->]].
  - intros f fl (n & Hn & ->) Hfl. pose proof (lor_AD fl Hfl) as Hb. set (b := Z.lor fl (Z.lor F_ACCESSED F_DIRTY)) in *.
    destruct (entry_parts n b ltac:(lia) Hb) as (P1 & P2 & P3). exists (X32 (n * 2 ^ 10 + b)). split_and!.
    + cbn [pte_set PTE_PageTableEntryX32]. change (FrameWith_number _) with (get_bits 64 (n * 4096) 12 34). rewrite frame_number by lia.
      cbn [obind]. rewrite entry_number by (done || lia). fold b. unfold wrap32. by rewrite Z.mod_small by lia.
    + cbn. apply Z.eqb_neq. lia.
    + unfold pte_frame. cbn [pte_addr PTE_PageTableEntryX32 x32 PhysAddrSv32_AddressX64 new_u64]. rewrite P1, P3.
      rewrite (new_below (n * 4096) 34 ltac:(lia) ltac:(lia) _ PA32). cbn [obind]. unfold FrameWith_of_addr. cbn [addr_to_4k_aligned PhysAddrSv32_Address pa32].
      by rewrite align_4k_id.
    + done.
  - exists (Frame (PA32 0)). split; [done|]. by exists 0.
  - done.
  - intros f g off (n & Hn & ->) (k & Hk & ->). unfold FrameWith_as_kernel_mut. cbn. intros He. apply kernel_inj in He; [|lia..]. by rewrite He.
  - done.
Qed.

(** ** The three page tables *)
(** A mapper whose operations walk the path of the page keeps the promise. *)
Section path_laws.
Context {T P V E A : Type} `{PTE E, Address P, AddressX64 P, Address V, FrameAllocatorFor P A, Mapper T P V E A}.
Context (frame_ok : FrameWith P → Prop) (frames : A → FrameWith P → Prop) (root off : T → Z) (L : nat).
Context {HE : PTELaws E P frame_ok} {HA : AllocLaws P A frames} (at_ : PageWith V → list Z → Z → Prop).
Context (Hat : ∀ page p i, at_ page p i →
  length p = L ∧ Forall (in_range (E := E)) p ∧ in_range (E := E) i ∧ ∃ fl, MapperFlush_new page = Ok fl).
Context (Hmap : ∀ t page p i frame flags s, at_ page p i →
  map_to t page frame flags s =
  and_then_r (create_path (P := P) (off t) (root t) p) (λ p1, set_page p1 i frame flags (MapperFlush_new page)) s).
Context (Hunmap : ∀ t page p i s, at_ page p i →
  unmap t page s =
  or_err (walk_path (P := P) (off t) (root t) p) Unmap.PageNotMapped (λ p1, clear_page p1 i (MapperFlush_new page)) s).
Context (Href : ∀ t page p i s, at_ page p i →
  ref_entry t page s =
  or_err (walk_path (P := P) (off t) (root t) p) PageNotMapped (λ p1, let* a := lift (PageTable_index (E := E) p1 i) in ret (ok a)) s).
Lemma path_laws : MapperLaws T P V E A frame_ok (λ t, table_view frame_ok frames (off t) L (root t)) at_.
Proof.
  split.
  - intros page p i Ha. by destruct (Hat page p i Ha) as (_ & _ & _ & ?).
  - intros t s v page p i frame flags Hv Ha Hf Hg. destruct (Hat page p i Ha) as (Hl & Hp & Hi & fl & Hfl). rewrite (Hmap t page p i frame flags s Ha), Hfl.
    destruct (map_path_spec frame_ok frames (off t) L (root t) p i Hl Hp Hi s v frame flags fl Hv Hf Hg) as (r & s' & Hrun & Hr).
    exists r, s'. split; [done|]. destruct r as [x|[]]; try done. by destruct Hr as (-> & ? & ?).
  - intros t s v page p i Hv Ha. destruct (Hat page p i Ha) as (Hl & Hp & Hi & fl & Hfl). rewrite (Hunmap t page p i s Ha), Hfl.
    destruct (unmap_path_spec frame_ok frames (off t) L (root t) p i Hl Hp Hi s v fl Hv) as (r & s' & Hrun & Hr).
    exists r, s'. split; [done|]. destruct r as [[f x]|e]; [|done]. by destruct Hr as (-> & ?).
  - intros t s v page p i Hv Ha. destruct (Hat page p i Ha) as (Hl & Hp & Hi & fl & Hfl). rewrite (Href t page p i s Ha).
    destruct (ref_path_spec frame_ok frames (off t) L (root t) p i Hl Hp Hi s v Hv) as (r & Hrun & Hr).
    unfold or_err. rewrite (bind_run _ _ _ _ _ Hrun). destruct r as [t1|]; [|exists (err PageNotMapped); auto].
    unfold PageTable_index. rewrite (proj2 (Z.ltb_lt _ _)) by apply Hi. by exists (ok (t1 + pte_size * i)).
  - intros t s v p i (tr & _ & _ & Hset). apply Hset.
Qed.
End path_laws.
(** The operations of a scheme and the walks of [path_laws], one level after the
    other. *)
Ltac same_walk :=
  unfold map_to, unmap, ref_entry, create_path, walk_path, and_then_r, or_err, bind, lift, ret; cbn beta iota;
  repeat match goal with
    | Hi : ?x = Ok _ |- context [?x] => rewrite !Hi; cbn beta iota
    | |- context [next_table_create ?o ?t ?i ?s] => destruct (next_table_create o t i s) as [[[?|?] ?]|?]; cbn beta iota
    | |- context [next_table ?o ?t ?i ?s] => destruct (next_table o t i s) as [[[?|] ?]|?]; cbn beta iota
    end; reflexivity.

Section rv32_laws.
Context {V A : Type} `{Address V, AddressL2 V, FA : FrameAllocatorFor PhysAddrSv32 A}.
Context (frames : A → FrameWith PhysAddrSv32 → Prop) {HA : AllocLaws PhysAddrSv32 A frames}.
Definition view32 (t : Rv32PageTableWith) : pstate PageTableEntryX32 A → (list Z → Z → PageTableEntryX32) → Prop :=
  table_view frame_ok32 frames (rv32_linear_offset t) 1 (rv32_root t).
Definition at32 (page : PageWith V) (p : list Z) (i : Z) : Prop :=
  ∃ p2, p = [p2] ∧ l2_p2_index page = Ok p2 ∧ l2_p1_index page = Ok i ∧
    Forall (in_range (E := PageTableEntryX32)) p ∧ in_range (E := PageTableEntryX32) i ∧ ∃ fl, MapperFlush_new page = Ok fl.
#[export] Instance Rv32_laws : MapperLaws Rv32PageTableWith PhysAddrSv32 V PageTableEntryX32 A frame_ok32 view32 at32.
Proof.
  apply (path_laws frame_ok32 frames rv32_root rv32_linear_offset _).
  - by intros page p i (p2 & -> & Hp2 & H1 & Hp & Hi & Hfl).
  - intros t page p i frame flags s (p2 & -> & Hp2 & H1 & Hp & Hi & Hfl). unfold Rv32_Mapper, Rv32_map_to, Rv32_create_p1_if_not_exist. same_walk.
  - intros t page p i s (p2 & -> & Hp2 & H1 & Hp & Hi & Hfl). unfold Rv32_Mapper, Rv32_unmap. same_walk.
  - intros t page p i s (p2 & -> & Hp2 & H1 & Hp & Hi & Hfl). unfold Rv32_Mapper, Rv32_ref_entry. same_walk.
Qed.
End rv32_laws.

Section rv39_laws.
Context {V A : Type} `{Address V, AddressL3 V, FA : FrameAllocatorFor PhysAddrSv39 A}.
Context (frames : A → FrameWith PhysAddrSv39 → Prop) {HA : AllocLaws PhysAddrSv39 A frames}.
Definition view39 (t : Rv39PageTableWith) : pstate PageTableEntryX64 A → (list Z → Z → PageTableEntryX64) → Prop :=
  table_view frame_ok39 frames (rv39_linear_offset t) 2 (rv39_root t).
Definition at39 (page : PageWith V) (p : list Z) (i : Z) : Prop :=
  ∃ p3 p2, p = [p3; p2] ∧ l3_p3_index page = Ok p3 ∧ l3_p2_index page = Ok p2 ∧ l3_p1_index page = Ok i ∧
    Forall (in_range (E := PageTableEntryX64)) p ∧ in_range (E := PageTableEntryX64) i ∧ ∃ fl, MapperFlush_new page = Ok fl.
#[export] Instance Rv39_laws : MapperLaws Rv39PageTableWith PhysAddrSv39 V PageTableEntryX64 A frame_ok39 view39 at39.
Proof.
  apply (path_laws frame_ok39 frames rv39_root rv39_linear_offset _).
  - by intros page p i (p3 & p2 & -> & Hp3 & Hp2 & H1 & Hp & Hi & Hfl).
  - intros t page p i frame flags s (p3 & p2 & -> & Hp3 & Hp2 & H1 & Hp & Hi & Hfl). unfold Rv39_Mapper, Rv39_map_to, Rv39_create_p1_if_not_exist. same_walk.
  - intros t page p i s (p3 & p2 & -> & Hp3 & Hp2 & H1 & Hp & Hi & Hfl). unfold Rv39_Mapper, Rv39_unmap. same_walk.
  - intros t page p i s (p3 & p2 & -> & Hp3 & Hp2 & H1 & Hp & Hi & Hfl). unfold Rv39_Mapper, Rv39_ref_entry. same_walk.
Qed.
End rv39_laws.

Section rv48_laws.
Context {V A : Type} `{Address V, AddressL4 V, FA : FrameAllocatorFor PhysAddrSv48 A}.
Context (frames : A → FrameWith PhysAddrSv48 → Prop) {HA : AllocLaws PhysAddrSv48 A frames}.
Definition view48 (t : Rv48PageTableWith) : pstate PageTableEntryX64 A → (list Z → Z → PageTableEntryX64) → Prop :=
  table_view frame_ok48 frames (rv48_linear_offset t) 3 (rv48_root t).
Definition at48 (page : PageWith V) (p : list Z) (i : Z) : Prop :=
  ∃ p4 p3 p2, p = [p4; p3; p2] ∧ l4_p4_index page = Ok p4 ∧ l4_p3_index page = Ok p3 ∧ l4_p2_index page = Ok p2 ∧ l4_p1_index page = Ok i ∧
    Forall (in_range (E := PageTableEntryX64)) p ∧ in_range (E := PageTableEntryX64) i ∧ ∃ fl, MapperFlush_new page = Ok fl.
#[export] Instance Rv48_laws : MapperLaws Rv48PageTableWith PhysAddrSv48 V PageTableEntryX64 A frame_ok48 view48 at48.
Proof.
  apply (path_laws frame_ok48 frames rv48_root rv48_linear_offset _).
  - by intros page p i (p4 & p3 & p2 & -> & Hp4 & Hp3 & Hp2 & H1 & Hp & Hi & Hfl).
  - intros t page p i frame flags s (p4 & p3 & p2 & -> & Hp4 & Hp3 & Hp2 & H1 & Hp & Hi & Hfl). unfold Rv48_Mapper, Rv48_map_to, Rv48_create_p1_if_not_exist. same_walk.
  - intros t page p i s (p4 & p3 & p2 & -> & Hp4 & Hp3 & Hp2 & H1 & Hp & Hi & Hfl). unfold Rv48_Mapper, Rv48_unmap. same_walk.
  - intros t page p i s (p4 & p3 & p2 & -> & Hp4 & Hp3 & Hp2 & H1 & Hp & Hi & Hfl). unfold Rv48_Mapper, Rv48_ref_entry. same_walk.
Qed.
End rv48_laws.

(** ** A page table is a finite map *)
(** The map of a table from page numbers to frames and flags.  [page] is the page
    of a number below [N], [path] and [idx] are the place of its entry. *)
Section refine.
Context {T P V E A : Type} `{PTE E, Address P, AddressX64 P, Address V, FrameAllocatorFor P A, Mapper T P V E A}.
Context (frame_ok : FrameWith P → Prop) (page : Z → PageWith V) (N : Z).
Definition entry_is (o : option (FrameWith P * Z)) (e : E) : Prop :=
  match o with None => e = pte_unused | Some (f, g) => e ≠ pte_unused ∧ pte_frame e = Ok f ∧ pte_flags e = g end.
Definition table_map (view : T → pstate E A → (list Z → Z → E) → Prop) (path : Z → list Z) (idx : Z → Z)
    (t : T) (s : pstate E A) (m : gmap Z (FrameWith P * Z)) : Prop :=
  ∃ v, view t s v ∧ ∀ n, 0 ≤ n < N → entry_is (m !! n) (v (path n) (idx n)).
(** The operations of [Mapper] on the map: the specification. *)
Definition mapper_refines (is_map : T → pstate E A → gmap Z (FrameWith P * Z) → Prop) : Prop :=
  ∀ t s m n, is_map t s m → 0 ≤ n < N →
  (∀ frame flags, frame_ok frame → 0 ≤ flags ≤ F_all → ∃ r s', map_to t (page n) frame flags s = Ok (r, s') ∧
    match r with
    | ok fl => MapperFlush_new (page n) = Ok fl ∧ m !! n = None ∧ is_map t s' (<[n := (frame, Z.lor flags (Z.lor F_ACCESSED F_DIRTY))]> m)
    | err PageAlreadyMapped => is_Some (m !! n) ∧ is_map t s' m
    | err FrameAllocationFailed => exhausted (P := P) s' ∧ is_map t s' m
    | err ParentEntryHugePage => False
    end) ∧
  (∃ r s', unmap t (page n) s = Ok (r, s') ∧
    match r with
    | ok (f, fl) => MapperFlush_new (page n) = Ok fl ∧ (∃ g, m !! n = Some (f, g) ∧ Z.testbit g 0 = true) ∧ is_map t s' (delete n m)
    | err Unmap.PageNotMapped => (∀ f g, m !! n = Some (f, g) → Z.testbit g 0 = false) ∧ s' = s
    | err _ => False
    end) ∧
  translate_page t (page n) s = Ok (fst <$> m !! n, s) ∧
  (∀ flags f g, 0 ≤ flags ≤ F_all → m !! n = Some (f, g) → ∃ fl s', update_flags t (page n) flags s = Ok (ok fl, s') ∧
    MapperFlush_new (page n) = Ok fl ∧ is_map t s' (<[n := (f, Z.lor flags (Z.lor F_ACCESSED F_DIRTY))]> m)).

Context {view : T → pstate E A → (list Z → Z → E) → Prop} {at_ : PageWith V → list Z → Z → Prop}.
Context {HE : PTELaws E P frame_ok} {HM : MapperLaws T P V E A frame_ok view at_} (path : Z → list Z) (idx : Z → Z).
Context (Hat : ∀ n, 0 ≤ n < N → at_ (page n) (path n) (idx n)).
Context (Hinj : ∀ n n', 0 ≤ n < N → 0 ≤ n' < N → path n = path n' → idx n = idx n' → n = n').
Lemma pte_set_is f fl (e : E) : frame_ok f → 0 ≤ fl ≤ F_all → pte_set f fl = Ok e →
  entry_is (Some (f, Z.lor fl (Z.lor F_ACCESSED F_DIRTY))) e.
Proof.
  intros Hf Hfl He. destruct (pl_set f fl Hf Hfl) as (e' & He' & Hu & Hfe & Hg). rewrite He in He'. injection He' as <-. split_and!; [|done..].
  intros ->. by rewrite (proj2 (pl_unused (P := P) pte_unused) eq_refl) in Hu.
Qed.
(** Writing the entry of a page writes the map. *)
Lemma table_map_upd t s v (m m' : gmap Z (FrameWith P * Z)) n e :
  view t s (upd v (path n) (idx n) e) → (∀ k, 0 ≤ k < N → entry_is (m !! k) (v (path k) (idx k))) → 0 ≤ n < N →
  entry_is (m' !! n) e → (∀ k, k ≠ n → m' !! k = m !! k) → table_map view path idx t s m'.
Proof.
  intros Hv Hm Hn He Hk. exists (upd v (path n) (idx n) e). split; [done|]. intros k Hkn. unfold upd. destruct (decide _) as [[Hp Hi]|Hne].
  - by rewrite (Hinj k n Hkn Hn Hp Hi).
  - rewrite Hk; [by apply Hm|]. intros ->. by apply Hne.
Qed.
Lemma mapper_is_map : mapper_refines (table_map view path idx).
Proof.
  intros t s m n (v & Hv & Hm) Hn. pose proof (Hm n Hn) as Hmn. pose proof (Hat n Hn) as Ha. split_and!.
  - intros frame flags Hf Hfl. destruct (ml_map t s v (page n) (path n) (idx n) frame flags Hv Ha Hf Hfl) as (r & s' & Hrun & Hr).
    exists r, s'. split; [done|]. destruct r as [fl|[]].
    + destruct Hr as (Hflush & Hu & e & He & Hv'). split_and!; [done| |].
      * destruct (m !! n) as [[f g]|] eqn:Hl; [|done]. by destruct Hmn.
      * apply (table_map_upd t s' v m _ n e Hv' Hm Hn); [rewrite lookup_insert_eq; by apply pte_set_is|]. intros k Hk. by rewrite lookup_insert_ne.
    + destruct Hr as [Hx Hv']. split; [done|]. by exists v.
    + done.
    + destruct Hr as [Hx Hv']. split; [|by exists v]. destruct (m !! n) as [[f g]|]; [by eexists|done].
  - destruct (ml_unmap t s v (page n) (path n) (idx n) Hv Ha) as (r & s' & Hrun & Hr). exists r, s'. split; [done|]. destruct r as [[f fl]|[| |]]; [|done| |done].
    + destruct Hr as (Hflush & Hf & Hb & Hv'). split_and!; [done| |].
      * destruct (m !! n) as [[f' g]|] eqn:Hl; [|rewrite Hmn, (pl_unused_flags (P := P)) in Hb; done].
        destruct Hmn as (_ & Hf' & <-). exists (pte_flags (v (path n) (idx n))). split; [|done]. by assert (f = f') as -> by congruence.
      * apply (table_map_upd t s' v m _ n pte_unused Hv' Hm Hn); [by rewrite lookup_delete_eq|]. intros k Hk. by rewrite lookup_delete_ne.
    + destruct Hr as [Hb ->]. split; [|done]. intros f g Hl. rewrite Hl in Hmn. by destruct Hmn as (_ & _ & <-).
  - destruct (translate_page_spec t s v (page n) (path n) (idx n) Hv Ha) as (o & Ho & Hr). rewrite Ho. f_equal. f_equal.
    destruct o as [f|], (m !! n) as [[f' g]|]; cbn in *; try done; [|by destruct Hr as [? _]|by destruct Hmn as [? _]].
    destruct Hr as [_ Hf], Hmn as (_ & Hf' & _). congruence.
  - intros flags f g Hfl Hl. rewrite Hl in Hmn. destruct Hmn as (Hne & Hf & _).
    destruct (update_flags_spec t s v (page n) (path n) (idx n) flags Hv Ha Hfl) as (r & s' & Hrun & Hr).
    destruct r as [fl|e]; [|by destruct Hr]. exists fl, s'. split; [done|]. destruct Hr as (Hflush & f1 & e & Hf1 & He & Hv'). split; [done|].
    destruct (set_entry_frame (v (path n) (idx n)) (ml_entries t s v _ _ Hv)) as (f0 & Hf0 & Hok).
    assert (f0 = f) as -> by congruence. assert (f1 = f) as -> by congruence.
    apply (table_map_upd t s' v m _ n e Hv' Hm Hn); [rewrite lookup_insert_eq; by apply pte_set_is|]. intros k Hk. by rewrite lookup_insert_ne.
Qed.

(** The flags of a page that is not mapped: if the table of its entry exists,
    and it does if a page with its entry in that table is mapped, the page is
    mapped to the frame of an unused entry, which is the frame at address zero,
    and success is reported. *)
Context (frame0 : FrameWith P) (Hframe0 : pte_frame (E := E) pte_unused = Ok frame0) (Hidx : ∀ n, in_range (E := E) (idx n)).
Lemma update_flags_unmapped t s m n flags :
  table_map view path idx t s m → 0 ≤ n < N → m !! n = None → 0 ≤ flags ≤ F_all →
  ∃ r s', update_flags t (page n) flags s = Ok (r, s') ∧
    match r with
    | ok fl => table_map view path idx t s' (<[n := (frame0, Z.lor flags (Z.lor F_ACCESSED F_DIRTY))]> m)
    | err PageNotMapped => s' = s ∧ ∀ k, 0 ≤ k < N → path k = path n → m !! k = None
    end.
Proof.
  intros (v & Hv & Hm) Hn Hl Hfl. pose proof (Hm n Hn) as Hu. rewrite Hl in Hu. cbn in Hu.
  destruct (update_flags_spec t s v (page n) (path n) (idx n) flags Hv (Hat n Hn) Hfl) as (r & s' & Hrun & Hr). exists r, s'. split; [done|].
  destruct r as [fl|[]].
  - destruct Hr as (_ & f & e & Hf & He & Hv'). rewrite Hu in Hf. assert (f = frame0) as -> by congruence.
    destruct (set_entry_frame (frame_ok := frame_ok) (E := E) pte_unused) as (f0 & Hf0 & Hok); [by left|]. assert (f0 = frame0) as -> by congruence.
    apply (table_map_upd t s' v m _ n e Hv' Hm Hn); [rewrite lookup_insert_eq; by apply pte_set_is|]. intros k Hk. by rewrite lookup_insert_ne.
  - destruct Hr as (_ & Hall & ->). split; [done|]. intros k Hk Hpk. specialize (Hm k Hk). rewrite Hpk, Hall in Hm by apply Hidx.
    destruct (m !! k) as [[f g]|]; [|done]. by destruct Hm.
Qed.
End refine.

(** A new table: the root is cleared, nothing is mapped. *)
Section new_table.
Context {E P A : Type} `{PTE E, Address P, AddressX64 P, FA : FrameAllocatorFor P A}.
Context (frame_ok : FrameWith P → Prop) (frames : A → FrameWith P → Prop) {HE : PTELaws E P frame_ok} {HA : AllocLaws P A frames} (off : Z) (L : nat).
(** The root is aligned as the tables are, and it is not a frame of the
    allocator. *)
Definition root_ok (root : Z) (a : A) : Prop :=
  aligned off root ∧ ∀ f, frames a f → frame_ok f ∧ aligned off (table_of off f) ∧ table_of off f ≠ root.
Lemma table_view_new root (s : pstate E A) : root_ok root (ps_alloc s) →
  ∃ s', PageTable_zero root s = Ok (tt, s') ∧ table_view frame_ok frames off L root s' (λ _ _, pte_unused).
Proof.
  intros [Hal Hfr]. destruct (zero_spec (P := P) frame_ok frames root s) as (mem' & Hz & Hin & _). eexists. split; [exact Hz|]. exists {[ [] := root ]}.
  assert (Hone : ∀ p t, ({[ [] := root ]} : gmap (list Z) Z) !! p = Some t → p = [] ∧ t = root) by (intros p t Hp; apply lookup_singleton_Some in Hp; naive_solver).
  split_and!; [split|..]; cbn [ps_mem ps_alloc].
  - apply lookup_singleton_eq.
  - intros p t Hp. apply Hone in Hp as [-> _]. cbn. lia.
  - intros p t i Hp _ Hi. apply Hone in Hp as [-> ->]. rewrite lookup_singleton_ne by done. by apply Hin.
  - intros p q t Hp Hq. apply Hone in Hp as [-> _], Hq as [-> _]. done.
  - intros p t Hp. by apply Hone in Hp as [_ ->].
  - intros p i [t Ht]. apply Hone in Ht as [Ht _]. by destruct p.
  - intros f Hf. destruct (Hfr f Hf) as (? & ? & Hne). split_and!; [done..|]. intros p Hp. by apply Hone in Hp as [_ <-].
  - intros p i _ Hi. unfold leaf. destruct (_ !! p) as [t|] eqn:Hp; [|done]. apply Hone in Hp as [_ ->]. by apply Hin.
  - by left.
Qed.
End new_table.

(** The pages by their numbers, and the places of their entries. *)
Definition page32 (n : Z) : PageWith VirtAddrSv32 := Page (VA32 (n * 4096)).
Definition path32 (n : Z) : list Z := [n / 2 ^ 10].
Definition page39 (n : Z) : PageWith VirtAddrSv39 := Page (VA39 (sext 39 (n * 4096))).
Definition path39 (n : Z) : list Z := [n / 2 ^ 18; n / 2 ^ 9 mod 2 ^ 9].
Definition page48 (n : Z) : PageWith VirtAddrSv48 := Page (VA48 (sext 48 (n * 4096))).
Definition path48 (n : Z) : list Z := [n / 2 ^ 27; n / 2 ^ 18 mod 2 ^ 9; n / 2 ^ 9 mod 2 ^ 9].
Lemma field_page n a b : 12 ≤ a → field (n * 4096) a b = n / 2 ^ (a - 12) mod 2 ^ (b - a).
Proof.
  intros Ha. unfold field. f_equal. replace (2 ^ a) with (4096 * 2 ^ (a - 12)).
  - rewrite <- Z.div_div by (pose proof (Z.pow_pos_nonneg 2 (a - 12)); lia). by rewrite Z.div_mul by lia.
  - change 4096 with (2 ^ 12). rewrite <- Z.pow_add_r by lia. f_equal. lia.
Qed.
Lemma index_bits n k a b : 0 ≤ n < 2 ^ (k - 12) → 12 ≤ a < b → b ≤ k < 64 →
  get_bits 64 (sext k (n * 4096)) a b = Ok (n / 2 ^ (a - 12) mod 2 ^ (b - a)).
Proof.
  intros Hn Ha Hb. rewrite get_bits_ok by lia. f_equal. unfold sext. rewrite field_low by lia. rewrite Z.mod_small; [apply field_page; lia|].
  replace (2 ^ k) with (2 ^ (k - 12) * 4096); [lia|]. change 4096 with (2 ^ 12). rewrite <- Z.pow_add_r by lia. f_equal. lia.
Qed.
Lemma div_range n a b : 0 ≤ a → 0 ≤ b → 0 ≤ n < 2 ^ (a + b) → 0 ≤ n / 2 ^ a < 2 ^ b.
Proof.
  intros Ha Hb Hn. pose proof (Z.pow_pos_nonneg 2 a). rewrite Z.pow_add_r in Hn by lia. split; [apply Z.div_pos; lia|apply Z.div_lt_upper_bound; lia].
Qed.
Lemma at_page32 n : 0 ≤ n < 2 ^ 20 → at32 (page32 n) (path32 n) (n mod 2 ^ 10).
Proof.
  intros Hn. pose proof (div_range n 10 10 ltac:(lia) ltac:(lia) Hn). exists (n / 2 ^ 10). split_and!; [done| | | | |by eexists].
  - transitivity (get_bits 32 (n * 4096) 22 32); [done|]. rewrite get_bits_ok, field_page by lia. f_equal. apply Z.mod_small. lia.
  - transitivity (get_bits 32 (n * 4096) 12 22); [done|]. rewrite get_bits_ok, field_page by lia. by rewrite Z.div_1_r.
  - by repeat apply Forall_cons_2.
  - by apply Z.mod_pos_bound.
Qed.
Lemma at_page39 n : 0 ≤ n < 2 ^ 27 → at39 (page39 n) (path39 n) (n mod 2 ^ 9).
Proof.
  intros Hn. pose proof (div_range n 18 9 ltac:(lia) ltac:(lia) Hn). exists (n / 2 ^ 18), (n / 2 ^ 9 mod 2 ^ 9). split_and!; [done| | | | | |by eexists].
  - transitivity (get_bits 64 (sext 39 (n * 4096)) 30 39); [done|]. rewrite index_bits by lia. f_equal. apply Z.mod_small. lia.
  - apply (index_bits n 39 21 30); lia.
  - transitivity (get_bits 64 (sext 39 (n * 4096)) 12 21); [done|]. rewrite index_bits by lia. by rewrite Z.div_1_r.
  - repeat apply Forall_cons_2; [done|by apply Z.mod_pos_bound|done].
  - by apply Z.mod_pos_bound.
Qed.
Lemma at_page48 n : 0 ≤ n < 2 ^ 36 → at48 (page48 n) (path48 n) (n mod 2 ^ 9).
Proof.
  intros Hn. pose proof (div_range n 27 9 ltac:(lia) ltac:(lia) Hn). exists (n / 2 ^ 27), (n / 2 ^ 18 mod 2 ^ 9), (n / 2 ^ 9 mod 2 ^ 9).
  split_and!; [done| | | | | | |by eexists].
  - transitivity (get_bits 64 (sext 48 (n * 4096)) 39 48); [done|]. rewrite index_bits by lia. f_equal. apply Z.mod_small. lia.
  - apply (index_bits n 48 30 39); lia.
  - apply (index_bits n 48 21 30); lia.
  - transitivity (get_bits 64 (sext 48 (n * 4096)) 12 21); [done|]. rewrite index_bits by lia. by rewrite Z.div_1_r.
  - repeat apply Forall_cons_2; [done|by apply Z.mod_pos_bound..|done].
  - by apply Z.mod_pos_bound.
Qed.
(** A number is the digits of its path. *)
Lemma digits n k : 0 ≤ k → n = n / 2 ^ k * 2 ^ k + n mod 2 ^ k.
Proof. intros Hk. pose proof (Z.pow_pos_nonneg 2 k). pose proof (Z.div_mod n (2 ^ k)). lia. Qed.
Lemma split_digit n k : 0 ≤ k → n / 2 ^ k = n / 2 ^ (k + 9) * 2 ^ 9 + n / 2 ^ k mod 2 ^ 9.
Proof.
  intros Hk. rewrite (digits (n / 2 ^ k) 9) at 1 by lia. f_equal. f_equal. rewrite Z.div_div, <- Z.pow_add_r by lia. done.
Qed.
Lemma path32_inj n n' : path32 n = path32 n' → n mod 2 ^ 10 = n' mod 2 ^ 10 → n = n'.
Proof. intros [= Hp] Hi. rewrite (digits n 10), (digits n' 10) by lia. congruence. Qed.
Lemma path39_inj n n' : path39 n = path39 n' → n mod 2 ^ 9 = n' mod 2 ^ 9 → n = n'.
Proof.
  intros [= Hp Hp'] Hi. rewrite (digits n 9), (digits n' 9), (split_digit n 9), (split_digit n' 9) by lia.
  change (9 + 9) with 18. congruence.
Qed.
Lemma path48_inj n n' : path48 n = path48 n' → n mod 2 ^ 9 = n' mod 2 ^ 9 → n = n'.
Proof.
  intros [= Hp Hp' Hp''] Hi. rewrite (digits n 9), (digits n' 9), (split_digit n 9), (split_digit n' 9) by lia.
  change (9 + 9) with 18. rewrite (split_digit n 18), (split_digit n' 18) by lia. change (18 + 9) with 27. congruence.
Qed.

(** The contract of a scheme: a cleared root is the table of the empty map, and
    the operations are those of the map. *)
Definition scheme_ok {T P V E A : Type} `{PTE E, Address P, AddressX64 P, Address V, FrameAllocatorFor P A, Mapper T P V E A}
    (frame_ok : FrameWith P → Prop) (frames : A → FrameWith P → Prop) (new : Z → Z → T) (page : Z → PageWith V) (N : Z)
    (is_map : T → pstate E A → gmap Z (FrameWith P * Z) → Prop) : Prop :=
  (∀ root off s, root_ok frame_ok frames off root (ps_alloc s) →
    ∃ s', PageTable_zero root s = Ok (tt, s') ∧ is_map (new root off) s' ∅) ∧
  mapper_refines frame_ok page N is_map.
(** C10. The page tables of the crate with two, three and four levels are finite
    maps from page numbers to frames with flags, whatever allocator hands out the
    frames of the tables.  From a cleared root, where nothing is mapped, [map_to]
    adds a page that is not mapped and refuses one that is, and fails only when
    the allocator does, without a mapping being lost; [unmap] removes a valid page
    and returns its frame; [translate_page] returns the frame of the map;
    [update_flags] of a mapped page replaces its flags.  Every other page keeps
    its mapping, and none of these operations panics. *)
Theorem riscv_page_tables_refine :
  (∀ A (FA : FrameAllocatorFor PhysAddrSv32 A) frames, AllocLaws PhysAddrSv32 A frames →
    scheme_ok frame_ok32 frames Rv32_new page32 (2 ^ 20) (table_map (2 ^ 20) (view32 frames) path32 (λ n, n mod 2 ^ 10))) ∧
  (∀ A (FA : FrameAllocatorFor PhysAddrSv39 A) frames, AllocLaws PhysAddrSv39 A frames →
    scheme_ok frame_ok39 frames Rv39_new page39 (2 ^ 27) (table_map (2 ^ 27) (view39 frames) path39 (λ n, n mod 2 ^ 9))) ∧
  (∀ A (FA : FrameAllocatorFor PhysAddrSv48 A) frames, AllocLaws PhysAddrSv48 A frames →
    scheme_ok frame_ok48 frames Rv48_new page48 (2 ^ 36) (table_map (2 ^ 36) (view48 frames) path48 (λ n, n mod 2 ^ 9))).
Proof.
  split_and!; intros A FA frames HA; split.
  1, 3, 5: intros root off s Hr.
  1: destruct (table_view_new frame_ok32 frames off 1 root s Hr) as (s' & Hz & Hv).
  2: destruct (table_view_new frame_ok39 frames off 2 root s Hr) as (s' & Hz & Hv).
  3: destruct (table_view_new frame_ok48 frames off 3 root s Hr) as (s' & Hz & Hv).
  1-3: exists s'; split; [exact Hz|]; eexists; split; [exact Hv|]; intros n Hn; by rewrite lookup_empty.
  - apply (mapper_is_map frame_ok32 page32 (2 ^ 20) (view := view32 frames) (at_ := at32)); [apply at_page32|intros; by apply path32_inj].
  - apply (mapper_is_map frame_ok39 page39 (2 ^ 27) (view := view39 frames) (at_ := at39)); [apply at_page39|intros; by apply path39_inj].
  - apply (mapper_is_map frame_ok48 page48 (2 ^ 36) (view := view48 frames) (at_ := at48)); [apply at_page48|intros; by apply path48_inj].
Qed.

(** *** Examples *)
(** An allocator that hands out the frames up to a limit in order. *)
Record bump : Type := mkBump { bump_next : Z; bump_end : Z }.
#[export] Instance bump_alloc39 : FrameAllocatorFor PhysAddrSv39 bump := {|
  frame_alloc a :=
    if bump_next a <? bump_end a then (Some (Frame (PA39 (bump_next a * 4096))), mkBump (bump_next a + 1) (bump_end a)) else (None, a) |}.
Definition bump_frames (a : bump) (f : FrameWith PhysAddrSv39) : Prop := ∃ n, bump_next a ≤ n < bump_end a ∧ f = Frame (PA39 (n * 4096)).
Lemma bump_laws : AllocLaws PhysAddrSv39 bump bump_frames.
Proof.
  split. intros [n e]. cbn. destruct (Z.ltb_spec n e); [|done]. split; [exists n; cbn; split; [lia|done]|].
  intros g (k & Hk & ->). cbn in Hk. split; [exists k; cbn; split; [lia|done]|]. intros [= Heq]. lia.
Qed.
Lemma bump_root : root_ok frame_ok39 bump_frames 0 4096 (mkBump 2 1024).
Proof.
  split; [done|]. intros f (n & Hn & ->). cbn in Hn.
  assert (Ht : table_of 0 (Frame (PA39 (n * 4096))) = n * 4096) by (transitivity (n * 4096 +u 0); [done|]; rewrite uadd_small; lia). rewrite Ht. split_and!.
  - exists n. split; [lia|done].
  - unfold aligned. rewrite Z.sub_0_r. apply Z.mod_mul. lia.
  - lia.
Qed.
(** On a new table with three levels no page is mapped, and a page can be mapped. *)
Lemma riscv_page_tables_refine_witness :
  ∃ s, PageTable_zero (E := PageTableEntryX64) 4096 (mkP ∅ (mkBump 2 1024)) = Ok (tt, s) ∧
    translate_page (Rv39_new 4096 0) (page39 5) s = Ok (None : option (FrameWith PhysAddrSv39), s) ∧
    ∃ r s', map_to (Rv39_new 4096 0) (page39 5) (Frame (PA39 (2000 * 4096))) 7 s = Ok (r, s').
Proof.
  destruct (proj1 (proj2 riscv_page_tables_refine) bump bump_alloc39 bump_frames bump_laws) as [Hnew Href].
  destruct (Hnew 4096 0 (mkP ∅ (mkBump 2 1024)) bump_root) as (s & Hz & Hm). exists s. split; [exact Hz|].
  destruct (Href (Rv39_new 4096 0) s ∅ 5 Hm ltac:(lia)) as (Hmap & _ & Htr & _). split; [exact Htr|].
  destruct (Hmap (Frame (PA39 (2000 * 4096))) 7) as (r & s' & Hrun & _); [exists 2000; split; [lia|done]|unfold F_all; lia|]. by exists r, s'.
Defined.

(** So with three levels [update_flags] of a page that is not mapped maps it to the
    frame at address zero if a page of the same last table is mapped. *)
Lemma Rv39_update_flags_unmapped A (FA : FrameAllocatorFor PhysAddrSv39 A) frames {HA : AllocLaws PhysAddrSv39 A frames} t s m n n' flags :
  let is_map := table_map (2 ^ 27) (view39 frames) path39 (λ n, n mod 2 ^ 9) in
  is_map t s m → 0 ≤ n < 2 ^ 27 → m !! n = None → 0 ≤ n' < 2 ^ 27 → path39 n' = path39 n → is_Some (m !! n') → 0 ≤ flags ≤ F_all →
  ∃ fl s', update_flags t (page39 n) flags s = Ok (ok fl, s') ∧
    is_map t s' (<[n := (Frame (PA39 0), Z.lor flags (Z.lor F_ACCESSED F_DIRTY))]> m).
Proof.
  intros is_map Hm Hn Hl Hn' Hp [x Hx] Hfl.
  destruct (update_flags_unmapped frame_ok39 page39 (2 ^ 27) (view := view39 frames) (at_ := at39) path39 (λ n, n mod 2 ^ 9)
    at_page39 ltac:(intros; by apply path39_inj) (Frame (PA39 0)) eq_refl ltac:(intros k; apply (Z.mod_pos_bound k (2 ^ 9)); lia) t s m n flags Hm Hn Hl Hfl)
    as (r & s' & Hrun & Hr). destruct r as [fl|[]]; [by exists fl, s'|]. destruct Hr as [_ Hnone]. by rewrite (Hnone n' Hn' Hp) in Hx.
Qed.

(** The tables for guest physical addresses of [multi_level_x4.rs] are the same
    types over the addresses [GPAddrSv32X4], [GPAddrSv39X4] and [GPAddrSv48X4], with
    eleven bits of top index (twelve in the first); the root has as many entries
    as the other tables, and a top index beyond them panics. *)
Lemma guest_top_index_panics : ∀ (root off p3 : Z) (s : pstate PageTableEntryX64 bump), 2 ^ 9 ≤ p3 < 2 ^ 11 →
  map_to (Rv39_new root off) (Page (GPA39 (p3 * 2 ^ 30))) (Frame (PA39 0)) 7 s = Fault OutOfBounds.
Proof.
  intros root off p3 s Hp. cbn -[get_bits Z.pow Z.mul]. unfold Rv39_map_to, bind at 1, lift at 1. cbn [l3_p3_index PageWith_PageWithL3 GPAddrSv39X4_AddressL3 page_start gpa39].
  rewrite get_bits_ok by lia. replace (field (p3 * 2 ^ 30) 30 41) with p3.
  - unfold bind at 1, lift at 1. cbn [l3_p2_index PageWith_PageWithL3 GPAddrSv39X4_AddressL3 page_start gpa39]. rewrite get_bits_ok by lia.
    unfold Rv39_create_p1_if_not_exist, next_table_create, and_then_r, bind, lift, PageTable_index. rewrite (proj2 (Z.ltb_ge _ _)); [done|]. cbn. lia.
  - unfold field. rewrite Z.div_mul by lia. symmetry. apply Z.mod_small. lia.
Qed.
