(* ===== verification/RiscvRegs.v ===== *)
(** * The registers of the [riscv] crate the kernel uses ([riscv/src/register])

    The control and status registers of supervisor mode as a store of words by
    register number, the accessors of [scause], [satp], [stvec] and [sstatus], and
    the functions of the kernel that write them.  A write is taken as it is: the
    fields the kernel uses are ones the hart implements. *)

From S2P Require Import Prelude Addr PhysMem FrameAlloc PageTable MemorySet Kernel Machine RiscvAddr.

(** ** Access ([riscv/src/register/macros.rs]) *)
Abbreviation csrs := (gmap Z Z).
Abbreviation C := (M csrs).
Definition csr_value (n : Z) (s : csrs) : Z := default 0 (s !! n).
(** [riscv/register/macros.rs:1-28] read_csr *)
Definition csr_read (n : Z) : C Z := λ s, Ok (csr_value n s, s).
(** [riscv/register/macros.rs:97-121] write_csr *)
Definition csr_write (n bits : Z) : C unit := modify (<[n := bits]>).
(** [riscv/register/macros.rs:173-197] set *)
Definition csr_set (n bits : Z) : C unit := modify (λ s, <[n := Z.lor (csr_value n s) bits]> s).
(** [riscv/register/macros.rs:199-223] clear *)
Definition csr_clear (n bits : Z) : C unit := modify (λ s, <[n := Z.ldiff (csr_value n s) bits]> s).
Definition SSTATUS : Z := 0x100.
Definition STVEC : Z := 0x105.
Definition SCAUSE : Z := 0x142.
Definition STVAL : Z := 0x143.
Definition SATP : Z := 0x180.

(** ** scause *)
Module Intr.
(** [riscv/register/scause.rs:21-32] Interrupt *)
Inductive Interrupt : Type :=
  | UserSoft | VirtualSupervisorSoft | SupervisorSoft | UserTimer | VirtualSupervisorTimer | SupervisorTimer
  | UserExternal | VirtualSupervisorExternal | SupervisorExternal | Unknown.
(** [riscv/register/scause.rs:57-70] Interrupt::from *)
Definition Interrupt_from (nr : Z) : Interrupt :=
  match nr with
  | 0 => UserSoft
  | 1 => SupervisorSoft
  | 2 => VirtualSupervisorSoft
  | 4 => UserTimer
  | 5 => SupervisorTimer
  | 6 => VirtualSupervisorTimer
  | 8 => UserExternal
  | 9 => SupervisorExternal
  | 10 => VirtualSupervisorExternal
  | _ => Unknown
  end.
End Intr.
Module Exc.
(** [riscv/register/scause.rs:36-54] Exception *)
Inductive Exception : Type :=
  | InstructionMisaligned | InstructionFault | IllegalInstruction | Breakpoint | LoadFault | StoreMisaligned
  | StoreFault | UserEnvCall | VirtualSupervisorEnvCall | InstructionPageFault | LoadPageFault | StorePageFault
  | InstructionGuestPageFault | LoadGuestPageFault | VirtualInstruction | StoreGuestPageFault | Unknown.
(** [riscv/register/scause.rs:74-94] Exception::from *)
Definition Exception_from (nr : Z) : Exception :=
  match nr with
  | 0 => InstructionMisaligned
  | 1 => InstructionFault
  | 2 => IllegalInstruction
  | 3 => Breakpoint
  | 5 => LoadFault
  | 6 => StoreMisaligned
  | 7 => StoreFault
  | 8 => UserEnvCall
  | 10 => VirtualSupervisorEnvCall
  | 12 => InstructionPageFault
  | 13 => LoadPageFault
  | 15 => StorePageFault
  | 20 => InstructionGuestPageFault
  | 21 => LoadGuestPageFault
  | 22 => VirtualInstruction
  | 23 => StoreGuestPageFault
  | _ => Unknown
  end.
End Exc.
(** [riscv/register/scause.rs:14-17] Trap *)
Inductive Trap : Type := TInterrupt (i : Intr.Interrupt) | TException (e : Exc.Exception).
(** [riscv/register/scause.rs:105-108] Scause::code *)
Definition Scause_code (bits : Z) : Z := Z.ldiff bits (Z.shiftl 1 63).
(** [riscv/register/scause.rs:122-124] Scause::is_interrupt *)
Definition Scause_is_interrupt (bits : Z) : outcome bool := get_bit 64 bits 63.
(** [riscv/register/scause.rs:112-118] Scause::cause *)
Definition Scause_cause (bits : Z) : outcome Trap :=
  let! i := Scause_is_interrupt bits in
  Ok (if i then TInterrupt (Intr.Interrupt_from (Scause_code bits)) else TException (Exc.Exception_from (Scause_code bits))).
(** The patterns [user_loop] matches the cause with. *)
Definition trap_cause_of (t : Trap) : trap_cause :=
  match t with
  | TException Exc.UserEnvCall => UserEnvCall
  | TException Exc.StoreFault => StoreFault
  | TException Exc.StorePageFault => StorePageFault
  | TException Exc.LoadFault => LoadFault
  | TException Exc.LoadPageFault => LoadPageFault
  | TException Exc.IllegalInstruction => IllegalInstruction
  | TInterrupt Intr.SupervisorTimer => SupervisorTimer
  | _ => OtherTrap
  end.
(** [trap/mod.rs:102-105] user_loop. What it reads of a trap. *)
Definition read_trap : C trap :=
  let* stval := csr_read STVAL in
  let* scause := csr_read SCAUSE in
  let* t := lift (Scause_cause scause) in
  ret (mkTrap (trap_cause_of t) stval).

(** ** satp *)
(** [riscv/register/satp.rs:90-96] Mode *)
Inductive SatpMode : Type := Bare | Sv39 | Sv48 | Sv57 | Sv64.
Definition mode_bits (m : SatpMode) : Z :=
  match m with Bare => 0 | Sv39 => 8 | Sv48 => 9 | Sv57 => 10 | Sv64 => 11 end.
(** [riscv/register/satp.rs:34-43] Satp::mode *)
Definition Satp_mode (bits : Z) : outcome SatpMode :=
  let! m := get_bits 64 bits 60 64 in
  match m with
  | 0 => Ok Bare
  | 8 => Ok Sv39
  | 9 => Ok Sv48
  | 10 => Ok Sv57
  | 11 => Ok Sv64
  | _ => Fault Explicit
  end.
(** [riscv/register/satp.rs:55-57] Satp::asid *)
Definition Satp_asid (bits : Z) : outcome Z := get_bits 64 bits 44 60.
(** [riscv/register/satp.rs:69-71] Satp::ppn *)
Definition Satp_ppn (bits : Z) : outcome Z := get_bits 64 bits 0 44.
(** [riscv/register/satp.rs:76-78] Satp::frame. [Frame] of a 64-bit target is that of
    the scheme with four levels. *)
Definition Satp_frame (bits : Z) : outcome (FrameWith PhysAddrSv48) := let! ppn := Satp_ppn bits in FrameWith_of_ppn ppn.
(** [riscv/register/satp.rs:113-119] set *)
Definition satp_set (mode : SatpMode) (asid ppn : Z) : C unit :=
  let* bits := lift (set_bits 64 0 60 64 (mode_bits mode)) in
  let* bits := lift (set_bits 64 bits 44 60 asid) in
  let* bits := lift (set_bits 64 bits 0 44 ppn) in
  csr_write SATP bits.

(** ** stvec *)
(** [riscv/register/mtvec.rs:11-14] TrapMode *)
Inductive TrapMode : Type := Direct | Vectored.
Definition trap_mode_bits (m : TrapMode) : Z := match m with Direct => 0 | Vectored => 1 end.
(** [riscv/register/stvec.rs:18-20] Stvec::address *)
Definition Stvec_address (bits : Z) : Z := bits -u Z.land bits 3.
(** [riscv/register/stvec.rs:23-30] Stvec::trap_mode *)
Definition Stvec_trap_mode (bits : Z) : option TrapMode :=
  match Z.land bits 3 with
  | 0 => Some Direct
  | 1 => Some Vectored
  | _ => None
  end.
(** [riscv/register/stvec.rs:38-40] write *)
Definition stvec_write (addr : Z) (mode : TrapMode) : C unit := csr_write STVEC (addr +u trap_mode_bits mode).

(** ** sstatus *)
(** [riscv/register/sstatus.rs:15-18] SPP *)
Inductive SPP : Type := SPP_Supervisor | SPP_User.
(** [riscv/register/mstatus.rs:31-36] FS *)
Inductive FS : Type := Off | Initial | Clean | Dirty.
Definition fs_bits (f : FS) : Z := match f with Off => 0 | Initial => 1 | Clean => 2 | Dirty => 3 end.
Definition fs_of (v : Z) : outcome FS :=
  match v with 0 => Ok Off | 1 => Ok Initial | 2 => Ok Clean | 3 => Ok Dirty | _ => Fault Explicit end.
(** [riscv/register/sstatus.rs:35-37] Sstatus::sie *)
Definition Sstatus_sie (bits : Z) : outcome bool := get_bit 64 bits 1.
(** [riscv/register/sstatus.rs:47-49] Sstatus::spie *)
Definition Sstatus_spie (bits : Z) : outcome bool := get_bit 64 bits 5.
(** [riscv/register/sstatus.rs:53-58] Sstatus::spp *)
Definition Sstatus_spp (bits : Z) : outcome SPP := let! b := get_bit 64 bits 8 in Ok (if b then SPP_Supervisor else SPP_User).
(** [riscv/register/sstatus.rs:62-70] Sstatus::fs *)
Definition Sstatus_fs (bits : Z) : outcome FS := let! v := get_bits 64 bits 13 15 in fs_of v.
(** [riscv/register/sstatus.rs:75-83] Sstatus::xs *)
Definition Sstatus_xs (bits : Z) : outcome FS := let! v := get_bits 64 bits 15 17 in fs_of v.
(** [riscv/register/sstatus.rs:115-117] Sstatus::set_spp *)
Definition Sstatus_set_spp (bits : Z) (val : SPP) : outcome Z :=
  set_bit 64 bits 8 (match val with SPP_Supervisor => true | SPP_User => false end).
(** [riscv/register/sstatus.rs:146-151] set_spp *)
Definition sstatus_set_spp (spp : SPP) : C unit :=
  match spp with
  | SPP_Supervisor => csr_set SSTATUS (Z.shiftl 1 8)
  | SPP_User => csr_clear SSTATUS (Z.shiftl 1 8)
  end.
(** [riscv/register/sstatus.rs:155-159] set_fs *)
Definition sstatus_set_fs (fs : FS) : C unit :=
  let* value := csr_read SSTATUS in
  let* value := lift (set_bits 64 value 13 15 (fs_bits fs)) in
  csr_write SSTATUS value.

(** ** The kernel *)
(** [main.rs:208-212] init_fp *)
Definition init_fp : C unit := sstatus_set_fs Clean.
(** [trap/mod.rs:27-31] init *)
Definition trap_init : C unit := stvec_write TRAMPOLINE Direct.
(** [trap/mod.rs:43-52] set_kernel_trap. The addresses of the two entries of the
    trampoline are the linker's; no file defines the first, and nothing calls the
    function. *)
Definition set_kernel_trap (kernel_trap_entry alltraps : Z) : C unit :=
  stvec_write (TRAMPOLINE +u kernel_trap_entry -u alltraps) Direct.
(** [trap/mod.rs:54-58] set_user_trap *)
Definition set_user_trap : C unit := stvec_write TRAMPOLINE Direct.
(** [mm/memory_set.rs:245-251] MemorySet::activate. [sfence.vma] makes the hart see
    the tables in memory, as the model always does. *)
Definition MemorySet_activate (self : MemorySet) : C unit := csr_write SATP (PageTable_token (page_table self)).

(** ** What the registers hold *)
Lemma csr_value_insert n v (s : csrs) : csr_value n (<[n := v]> s) = v.
Proof. unfold csr_value. by rewrite lookup_insert_eq. Qed.
Lemma csr_value_insert_ne n k v (s : csrs) : k ≠ n → csr_value n (<[k := v]> s) = csr_value n s.
Proof. intros Hne. unfold csr_value. by rewrite lookup_insert_ne. Qed.
(** The register [activate] writes names the table of the address space. *)
Lemma token_fields pt : 0 ≤ root_ppn pt < 2 ^ 44 →
  let v := PageTable_token pt in
  Satp_mode v = Ok Sv39 ∧ Satp_asid v = Ok 0 ∧ Satp_ppn v = Ok (root_ppn pt) ∧
  Satp_frame v = Ok (Frame (PA48 (root_ppn pt * 4096))) ∧ ∀ s, satp_set Sv39 0 (root_ppn pt) s = Ok (tt, <[SATP := v]> s).
Proof.
  intros Hr v. assert (Hv : v = 8 * 2 ^ 60 + root_ppn pt) by (unfold v, PageTable_token; apply (lor_low_high 8 (root_ppn pt) 60); lia).
  assert (Hppn : Satp_ppn v = Ok (root_ppn pt)).
  { unfold Satp_ppn. rewrite get_bits_ok, Hv, field_low by lia. rewrite field_small by lia. by rewrite Z.div_1_r. }
  split_and!; [| |done| |].
  - unfold Satp_mode. rewrite get_bits_ok, Hv, field_high by lia. done.
  - unfold Satp_asid. rewrite get_bits_ok, Hv, field_low, field_small, Z.div_small by lia. done.
  - unfold Satp_frame. rewrite Hppn. cbn [obind]. unfold FrameWith_of_ppn. cbn [new_u64 PhysAddrSv48_AddressX64].
    rewrite (shiftl_small _ 12 44) by lia. rewrite get_bits_ok by lia. cbn [obind]. unfold field. rewrite Z.div_small by lia. done.
  - intros s. assert (Hset : set_bits 64 (8 * 2 ^ 60) 0 44 (root_ppn pt) = Ok v).
    { destruct (set_bits_ok 64 (8 * 2 ^ 60) 0 44 (root_ppn pt)) as (y & -> & Hy); [lia..|]. f_equal. apply Z.bits_inj'. intros i Hi.
      rewrite Hy, Hv, <- lor_low_high, Z.lor_spec, Z.sub_0_r by lia. rewrite (proj2 (Z.leb_le 0 i)) by lia. cbn [andb]. destruct (Z.ltb_spec i 44).
      - rewrite (Z.mul_pow2_bits_low 8 60) by lia. done.
      - rewrite <- (Z.mod_small (root_ppn pt) (2 ^ 44)), Z.mod_pow2_bits_high, orb_false_r by lia. done. }
    transitivity ((let* bits := lift (set_bits 64 (8 * 2 ^ 60) 0 44 (root_ppn pt)) in csr_write SATP bits) s); [done|].
    unfold bind, lift. by rewrite Hset.
Qed.
Lemma testbit_small x n i : 0 ≤ n → 0 ≤ x < 2 ^ n → n ≤ i → Z.testbit x i = false.
Proof. intros Hn Hx Hi. rewrite <- (Z.mod_small x (2 ^ n)) by done. apply Z.mod_pow2_bits_high. lia. Qed.
(** Writing the state of the floating-point unit. *)
Lemma set_fs_run fs (s : csrs) : 0 ≤ csr_value SSTATUS s < 2 ^ 64 →
  ∃ y, sstatus_set_fs fs s = Ok (tt, <[SSTATUS := y]> s) ∧ 0 ≤ y < 2 ^ 64 ∧ Sstatus_fs y = Ok fs ∧
    ∀ i, 0 ≤ i → i ≠ 13 → i ≠ 14 → Z.testbit y i = Z.testbit (csr_value SSTATUS s) i.
Proof.
  intros Hs. destruct (set_bits_ok 64 (csr_value SSTATUS s) 13 15 (fs_bits fs)) as (y & Hy & Hb); [lia..|by destruct fs|].
  exists y. split_and!.
  1: unfold sstatus_set_fs, csr_read, bind, lift; by rewrite Hy.
  1, 2: replace y with (y mod 2 ^ 64); [apply Z.mod_pos_bound; lia|]; apply Z.bits_inj'; intros i Hi; destruct (Z.ltb_spec i 64);
    [by apply Z.mod_pow2_bits_low|]; rewrite Z.mod_pow2_bits_high, Hb, (proj2 (Z.ltb_ge i 15)), andb_false_r by lia; symmetry; apply (testbit_small _ 64); lia.
  - unfold Sstatus_fs. rewrite get_bits_ok by lia. cbn [obind]. replace (field y 13 15) with (fs_bits fs); [by destruct fs|].
    apply Z.bits_inj'. intros i Hi. unfold field. change (15 - 13) with 2. destruct (Z.ltb_spec i 2).
    + rewrite Z.mod_pow2_bits_low, Z.div_pow2_bits, Hb by lia. rewrite (proj2 (Z.leb_le _ _)), (proj2 (Z.ltb_lt _ _)) by lia. cbn. f_equal. lia.
    + rewrite Z.mod_pow2_bits_high by lia. apply (testbit_small _ 2); [lia|by destruct fs|lia].
  - intros i Hi H13 H14. rewrite Hb by done. destruct (Z.leb_spec 13 i), (Z.ltb_spec i 15); cbn; (done || lia).
Qed.
(** Clearing the previous mode, as the trap frame of a new program has it. *)
Lemma app_sstatus v entry sp ks ksp th : 0 ≤ v < 2 ^ 64 →
  let v' := sstatus (TrapFrame_app_init_context v entry sp ks ksp th) in
  Sstatus_set_spp v SPP_User = Ok v' ∧ Sstatus_spp v' = Ok SPP_User ∧
  Sstatus_sie v' = Sstatus_sie v ∧ Sstatus_spie v' = Sstatus_spie v ∧ Sstatus_fs v' = Sstatus_fs v.
Proof.
  intros Hv v'. assert (Hv' : v' = Z.ldiff v (Z.shiftl 1 8)) by done.
  assert (Hb : ∀ i, 0 ≤ i → Z.testbit v' i = Z.testbit v i && negb (i =? 8)).
  { intros i Hi. rewrite Hv', Z.ldiff_spec, Z.shiftl_1_l, Z.pow2_bits_eqb by lia. by rewrite Z.eqb_sym. }
  split_and!.
  - rewrite Hv'. unfold Sstatus_set_spp, set_bit. cbn [assert_ obind].
    done.
  - unfold Sstatus_spp. rewrite get_bit_ok, Hb, andb_false_r by lia. done.
  - unfold Sstatus_sie. by rewrite !get_bit_ok, Hb, andb_true_r by lia.
  - unfold Sstatus_spie. by rewrite !get_bit_ok, Hb, andb_true_r by lia.
  - unfold Sstatus_fs. rewrite !get_bits_ok by lia. do 2 f_equal. apply Z.bits_inj'. intros i Hi. unfold field. change (15 - 13) with 2. destruct (Z.ltb_spec i 2).
    + rewrite !Z.mod_pow2_bits_low, !Z.div_pow2_bits, Hb by lia. by rewrite (proj2 (Z.eqb_neq _ _)), andb_true_r by lia.
    + by rewrite !Z.mod_pow2_bits_high by lia.
Qed.
(** The causes by the values of [scause]. *)
Definition cause_value (c : trap_cause) (bits : Z) : Prop :=
  match c with
  | UserEnvCall => bits = 8
  | StoreFault => bits = 7
  | StorePageFault => bits = 15
  | LoadFault => bits = 5
  | LoadPageFault => bits = 13
  | IllegalInstruction => bits = 2
  | SupervisorTimer => bits = 2 ^ 63 + 5
  | OtherTrap => bits ∉ [8; 7; 15; 5; 13; 2; 2 ^ 63 + 5]
  end.
Lemma scause_parts bits : 0 ≤ bits < 2 ^ 64 →
  ∃ b c, Scause_is_interrupt bits = Ok b ∧ Scause_code bits = c ∧ 0 ≤ c < 2 ^ 63 ∧ bits = (if b : bool then 2 ^ 63 else 0) + c.
Proof.
  intros Hb. exists (Z.testbit bits 63), (bits mod 2 ^ 63). unfold Scause_is_interrupt. rewrite get_bit_ok by lia.
  pose proof (Z.mod_pos_bound bits (2 ^ 63)). split_and!; [done| |lia..|].
  - unfold Scause_code. apply Z.bits_inj'. intros i Hi. rewrite Z.ldiff_spec, Z.shiftl_1_l, Z.pow2_bits_eqb by lia. destruct (Z.ltb_spec i 63).
    + rewrite Z.mod_pow2_bits_low, (proj2 (Z.eqb_neq _ _)), andb_true_r by lia. done.
    + rewrite Z.mod_pow2_bits_high by lia. destruct (Z.eqb_spec 63 i); [apply andb_false_r|]. rewrite (testbit_small bits 64) by lia. done.
  - rewrite Z.testbit_eqb by lia. pose proof (Z_div_mod_eq_full bits (2 ^ 63)) as Hdm. assert (Hd : 0 ≤ bits / 2 ^ 63 < 2) by (split; [apply Z.div_pos; lia|apply Z.div_lt_upper_bound; lia]).
    destruct (decide (bits / 2 ^ 63 = 0)) as [Hz|Hz]; [rewrite Hz in *; change (0 mod 2 =? 1) with false; cbv iota; lia|].
    assert (Ho : bits / 2 ^ 63 = 1) by lia. rewrite Ho in *. change (1 mod 2 =? 1) with true. cbv iota. lia.
Qed.
Ltac by_code c :=
  destruct c as [|p|p]; [|do 5 try destruct p as [p|p|]|lia]; cbn -[Z.pow];
  first [done | rewrite !not_elem_of_cons; split_and!; [lia..|apply not_elem_of_nil]].
Lemma exception_cause c : 0 ≤ c < 2 ^ 63 → cause_value (trap_cause_of (TException (Exc.Exception_from c))) c.
Proof. intros Hc. by_code c. Qed.
Lemma interrupt_cause c : 0 ≤ c < 2 ^ 63 → cause_value (trap_cause_of (TInterrupt (Intr.Interrupt_from c))) (2 ^ 63 + c).
Proof. intros Hc. by_code c. Qed.

(** C18. At boot [init_fp], [mm::init], [trap::init] and [activate] leave the
    registers as the kernel needs them, whatever they held: [satp] selects Sv39
    with the root of the kernel's page table and no address space identifier,
    [stvec] is the trampoline in direct mode, the floating-point unit is on and
    clean, and no other bit of [sstatus] has changed; a trap frame made from it
    returns to user mode with the other fields kept.  Every value of [scause] is
    decoded to the cause [user_loop] handles. *)
Theorem boot_registers (ms : MemorySet) (s : csrs) (entry sp ks ksp th : Z) :
  0 ≤ root_ppn (page_table ms) < 2 ^ 44 → 0 ≤ csr_value SSTATUS s < 2 ^ 64 → 0 ≤ csr_value SCAUSE s < 2 ^ 64 →
  ∃ s', (init_fp ;; MemorySet_activate ms ;; trap_init ;; MemorySet_activate ms) s = Ok (tt, s') ∧
    let satp := csr_value SATP s' in
    let stvec := csr_value STVEC s' in
    let status := csr_value SSTATUS s' in
    (Satp_mode satp = Ok Sv39 ∧ Satp_asid satp = Ok 0 ∧ Satp_ppn satp = Ok (root_ppn (page_table ms)) ∧
     Satp_frame satp = Ok (Frame (PA48 (root_ppn (page_table ms) * 4096)))) ∧
    (Stvec_address stvec = TRAMPOLINE ∧ Stvec_trap_mode stvec = Some Direct) ∧
    (Sstatus_fs status = Ok Clean ∧ ∀ i, 0 ≤ i → i ≠ 13 → i ≠ 14 → Z.testbit status i = Z.testbit (csr_value SSTATUS s) i) ∧
    (let user := sstatus (TrapFrame_app_init_context status entry sp ks ksp th) in
     Sstatus_set_spp status SPP_User = Ok user ∧ Sstatus_spp user = Ok SPP_User ∧
     Sstatus_sie user = Sstatus_sie status ∧ Sstatus_spie user = Sstatus_spie status ∧ Sstatus_fs user = Ok Clean) ∧
    (∃ tr, read_trap s' = Ok (tr, s') ∧ stval tr = csr_value STVAL s ∧ cause_value (cause tr) (csr_value SCAUSE s)).
Proof.
  intros Hr Hs Hc. destruct (set_fs_run Clean s Hs) as (y & Hrun & Hy & Hfs & Hbits).
  set (v := PageTable_token (page_table ms)). exists (<[SATP := v]> (<[STVEC := TRAMPOLINE]> (<[SATP := v]> (<[SSTATUS := y]> s)))).
  split; [unfold init_fp; rewrite (bind_run _ _ _ _ _ Hrun); done|]. cbv zeta.
  assert (Hst : csr_value SSTATUS (<[SATP := v]> (<[STVEC := TRAMPOLINE]> (<[SATP := v]> (<[SSTATUS := y]> s)))) = y)
    by (rewrite !csr_value_insert_ne by done; apply csr_value_insert).
  assert (Htv : csr_value STVEC (<[SATP := v]> (<[STVEC := TRAMPOLINE]> (<[SATP := v]> (<[SSTATUS := y]> s)))) = TRAMPOLINE)
    by (rewrite csr_value_insert_ne by done; apply csr_value_insert).
  rewrite Hst, Htv, csr_value_insert. destruct (token_fields _ Hr) as (T1 & T2 & T3 & T4 & _).
  destruct (app_sstatus y entry sp ks ksp th Hy) as (A1 & A2 & A3 & A4 & A5). rewrite Hfs in A5. split_and!; try done.
  unfold read_trap, csr_read, bind, lift. rewrite !csr_value_insert_ne by done. destruct (scause_parts _ Hc) as (b & c & Hb & Hcode & Hc' & Heq).
  unfold Scause_cause. rewrite Hb, Hcode. cbn [obind]. eexists. split; [reflexivity|]. split; [done|]. cbn [cause]. rewrite Heq.
  destruct b; [by apply interrupt_cause|rewrite Z.add_0_l; by apply exception_cause].
Qed.
(** The registers of a hart that starts with zeroes, for a table at [0x80500]. *)
Lemma boot_registers_witness :
  ∃ s', (init_fp ;; MemorySet_activate (mkMS (mkPT 0x80500 []) []) ;; trap_init ;;
         MemorySet_activate (mkMS (mkPT 0x80500 []) [])) ∅ = Ok (tt, s') ∧ Satp_ppn (csr_value SATP s') = Ok 0x80500.
Proof.
  destruct (boot_registers (mkMS (mkPT 0x80500 []) []) ∅ 0 0 0 0 0) as (s' & Hrun & (_ & _ & Hp & _) & _);
    [cbn; lia|vm_compute; split; [discriminate|reflexivity]..|]. by exists s'.
Defined.
