(* ===== verification/ProcTree.v ===== *)
(** * The process tree and the scheduler

    The part of the kernel's state that processes and threads form: who is
    whose parent, which children are alive or zombies, which threads exist
    and which are queued.  An invariant of it holds after any number of steps
    of the machine, whatever user code does.  It implies that the [unwrap] in
    [turn_into_zombie] never fails and that no process is lost by the
    scheduler. *)

From S2P Require Import Prelude Addr PhysMem FrameAlloc PageTable UserMem MemorySet Inode Fd Kernel SysProc SysFs Syscall Machine Mount.

(** ** The view *)
Record tnode : Type := mkNode {
  tn_ppid : Z; tn_pid : Z; tn_state : ProcessState; tn_parent : option Z; tn_alive : gmap Z Z; tn_zombie : gmap Z Z;
}.
Definition node_of (pr : Process) : tnode :=
  mkNode (proc_pid pr) (pid (inner pr)) (state (inner pr)) (parent (inner pr))
    (alive (children (inner pr))) (zombie (children (inner pr))).
Record tview : Type := mkView {
  v_procs : gmap Z tnode; v_threads : gmap Z Thread; v_queue : list Z; v_pid_top : Z; v_next_key : Z;
}.
Definition tv (k : kernel) : tview :=
  mkView (node_of <$> procs k) (threads k) (queue k) (pid_top k) (next_key k).

(** ** Handlers that leave the view alone

    [keeps T m Q]: run where the view is [T], [m] leaves it so, and its result
    satisfies [Q]. *)
Definition keeps {A} (T : tview) (m : K A) (Q : A → Prop) : Prop :=
  ∀ k a k', tv k = T → m k = Ok (a, k') → tv k' = T ∧ Q a.
Definition any {A} : A → Prop := λ _, True.

Section rules.
Context (T : tview).

Lemma keeps_bind {A B} (m : K A) (f : A → K B) Q R :
  keeps T m Q → (∀ a, Q a → keeps T (f a) R) → keeps T (bind m f) R.
Proof.
  intros Hm Hf k b k' HT (a & k1 & H1 & H2)%bind_Ok. destruct (Hm _ _ _ HT H1) as [HT1 Ha]. by apply (Hf a Ha k1).
Qed.
Lemma keeps_weaken {A} (m : K A) (Q R : A → Prop) : (∀ a, Q a → R a) → keeps T m Q → keeps T m R.
Proof. intros HQ Hm k a k' HT Hr. destruct (Hm k a k' HT Hr). auto. Qed.
Lemma keeps_any {A} (m : K A) Q : keeps T m Q → keeps T m any.
Proof. by apply keeps_weaken. Qed.
Lemma keeps_ret {A} (a : A) (Q : A → Prop) : Q a → keeps T (ret a) Q.
Proof. intros Ha k b k' HT [= <- <-]. done. Qed.
Lemma keeps_ret_any {A} (a : A) : keeps T (ret a) any.
Proof. by apply keeps_ret. Qed.
Lemma keeps_throw {A} f Q : keeps T (throw f : K A) Q.
Proof. by intros k a k' HT. Qed.
Lemma keeps_lift {A} (o : outcome A) : keeps T (lift o) any.
Proof. intros k a k' HT [_ ->]%lift_Ok. done. Qed.
Lemma keeps_get : keeps T get (λ k, tv k = T).
Proof. intros k a k' HT [= <- <-]. done. Qed.
Lemma keeps_put k' : tv k' = T → keeps T (put k') any.
Proof. intros H k a k'' HT [= <- <-]. done. Qed.
Lemma keeps_modify f : (∀ k, tv k = T → tv (f k) = T) → keeps T (modify f) any.
Proof. intros H k a k' HT [= <- <-]. split; [by apply H|done]. Qed.
Lemma keeps_in_mm {A} (m : M mm A) : keeps T (in_mm m) any.
Proof.
  intros k a k' HT H. unfold in_mm, zoom in H. destruct (m _) as [[b s]|]; [|done]. by injection H as <- <-.
Qed.
Lemma keeps_in_fs {A} (m : FS A) : keeps T (in_fs m) any.
Proof.
  intros k a k' HT H. unfold in_fs, zoom in H. destruct (m _) as [[b s]|]; [|done]. by injection H as <- <-.
Qed.
Lemma keeps_with_ram {A} (f : pmem → outcome A) : keeps T (with_ram f) any.
Proof. eapply keeps_bind; [apply keeps_get|]. intros. apply keeps_lift. Qed.
Lemma keeps_modify_ram f : keeps T (modify_ram f) any.
Proof. apply keeps_in_mm. Qed.
Lemma keeps_time_read : keeps T time_read any.
Proof. eapply keeps_bind; [apply keeps_get|]. intros k HT. eapply keeps_bind; [by apply keeps_put|]. intros. apply keeps_ret_any. Qed.
Lemma keeps_fold_m {A B} (f : B → A → K B) l b : (∀ b x, keeps T (f b x) any) → keeps T (fold_m f l b) any.
Proof.
  intros Hf. revert b. induction l as [|x l IH]; intros b; [apply keeps_ret_any|]. simpl.
  eapply keeps_bind; [apply Hf|]. intros. apply IH.
Qed.
Lemma keeps_for_each {A} (f : A → K unit) l : (∀ x, keeps T (f x) any) → keeps T (for_each l f) any.
Proof.
  intros Hf. induction l as [|x l IH]; [apply keeps_ret_any|]. simpl. eapply keeps_bind; [apply Hf|]. intros. apply IH.
Qed.
End rules.

(** ** The thread and its PCB *)
Section self.
Context (T : tview) (self : Z).

Definition self_is (p : Z) : Prop := ∃ th, v_threads T !! self = Some th ∧ thread_proc th = p.
(** A PCB with the tree fields of process [p]. *)
Definition pcb_is (p : Z) (pcb : PCB) : Prop :=
  ∃ n, v_procs T !! p = Some n ∧ tn_pid n = pid pcb ∧ tn_state n = state pcb ∧ tn_parent n = parent pcb ∧
    tn_alive n = alive (children pcb) ∧ tn_zombie n = zombie (children pcb).
Definition my_pcb_is (pcb : PCB) : Prop := ∃ p, self_is p ∧ pcb_is p pcb.

Lemma keeps_thread_get : keeps T (thread_get self) (λ th, v_threads T !! self = Some th).
Proof.
  intros k a k' HT H. unfold thread_get, bind, get, lift, unwrap in H.
  destruct (threads k !! self) as [th|] eqn:E; [|done]. injection H as <- <-. split; [done|].
  by rewrite <- HT.
Qed.
Lemma keeps_self_proc : keeps T (self_proc self) self_is.
Proof.
  eapply keeps_bind; [apply keeps_thread_get|]. intros th Hth. apply keeps_ret. by exists th.
Qed.
Lemma keeps_proc_get p : keeps T (proc_get p) (λ pr, v_procs T !! p = Some (node_of pr)).
Proof.
  intros k a k' HT H. unfold proc_get, bind, get, lift, unwrap in H.
  destruct (procs k !! p) as [pr|] eqn:E; [|done]. injection H as <- <-. split; [done|].
  rewrite <- HT. cbn [v_procs tv]. by rewrite lookup_fmap, E.
Qed.
Lemma keeps_pcb_get p : keeps T (pcb_get p) (pcb_is p).
Proof.
  eapply keeps_bind; [apply keeps_proc_get|]. intros pr Hpr. apply keeps_ret. exists (node_of pr). done.
Qed.
Lemma keeps_my_pcb : keeps T (my_pcb self) my_pcb_is.
Proof.
  eapply keeps_bind; [apply keeps_self_proc|]. intros p Hp. eapply keeps_weaken; [|apply keeps_pcb_get].
  intros pcb Hpcb. by exists p.
Qed.
Lemma keeps_pcb_put p pcb : pcb_is p pcb → keeps T (pcb_put p pcb) any.
Proof.
  intros (n & Hn & H1 & H2 & H3 & H4 & H5). eapply keeps_bind; [apply keeps_proc_get|]. intros pr Hpr.
  apply keeps_modify. intros k HT. rewrite <- HT. unfold tv. cbn [procs k_set_procs threads queue pid_top next_key].
  f_equal. rewrite fmap_insert. apply insert_id. rewrite <- HT in Hpr, Hn. cbn [v_procs tv] in Hpr, Hn. rewrite Hpr in Hn.
  injection Hn as <-. rewrite Hpr. f_equal. unfold node_of in *. cbn in *. congruence.
Qed.
Lemma self_is_unique p q : self_is p → self_is q → p = q.
Proof. intros (th & H1 & <-) (th' & H2 & <-). congruence. Qed.
Lemma keeps_my_pcb_put pcb : my_pcb_is pcb → keeps T (my_pcb_put self pcb) any.
Proof.
  intros (p & Hp & Hpcb). eapply keeps_bind; [apply keeps_self_proc|]. intros q Hq.
  rewrite (self_is_unique _ _ Hq Hp). by apply keeps_pcb_put.
Qed.
End self.

(** ** The rules as a tactic: one step of a handler at a time *)
Ltac keep_leaf :=
  first [ apply keeps_ret_any | apply keeps_lift | apply keeps_in_mm | apply keeps_in_fs | apply keeps_with_ram
        | apply keeps_modify_ram | apply keeps_time_read | apply keeps_throw | apply keeps_get
        | apply keeps_my_pcb | apply keeps_self_proc | apply keeps_thread_get | apply keeps_proc_get | apply keeps_pcb_get
        | apply keeps_my_pcb_put; assumption ].
Create HintDb keeps.
Ltac keep :=
  match goal with
  | |- keeps _ (bind _ _) _ => eapply keeps_bind; [keep|intros; cbv beta; keep]
  | |- keeps _ (match ?x with _ => _ end) _ => destruct x; keep
  | |- keeps _ (let _ := _ in _) _ => cbv zeta; keep
  | |- keeps _ (for_each _ _) _ => apply keeps_for_each; intros; keep
  | |- keeps _ (fold_m _ _ _) _ => apply keeps_fold_m; intros; cbv beta; keep
  | |- _ => first [ keep_leaf | eapply keeps_any; keep_leaf | solve [eauto with keeps] | eapply keeps_any; solve [eauto with keeps] ]
  end.

Section handlers.
Context (T : tview) (self : Z).

Lemma keeps_translate ptr : keeps T (Thread_translate self ptr) any.
Proof. unfold Thread_translate, my_token. keep. Qed.
Lemma keeps_read_str f ptr : keeps T (read_str f self ptr) any.
Proof. unfold read_str, my_token. keep. Qed.
Lemma keeps_get_abs_path path : keeps T (Thread_get_abs_path self path) any.
Proof. unfold Thread_get_abs_path. keep. Qed.
#[local] Hint Resolve keeps_translate keeps_read_str keeps_get_abs_path : keeps.

Lemma keeps_slice_read_ram sl : keeps T (slice_read_ram sl) any.
Proof. unfold slice_read_ram. keep. Qed.
Lemma keeps_slice_write_ram sl bs : keeps T (slice_write_ram sl bs) any.
Proof. unfold slice_write_ram. keep. Qed.
#[local] Hint Resolve keeps_slice_read_ram keeps_slice_write_ram : keeps.
Lemma keeps_slice_set_ram sl i b : keeps T (slice_set_ram sl i b) any.
Proof. unfold slice_set_ram. keep. Qed.
Lemma keeps_my_fd fd : keeps T (my_fd self fd) any.
Proof. unfold my_fd. keep. Qed.
Lemma keeps_user_buffers buf ln : keeps T (user_buffers self buf ln) any.
Proof. unfold user_buffers, my_token. keep. Qed.
#[local] Hint Resolve keeps_slice_set_ram keeps_my_fd keeps_user_buffers : keeps.

Lemma keeps_getcwd buf size : keeps T (sys_getcwd self buf size) any.
Proof. unfold sys_getcwd. keep. Qed.
Lemma keeps_chdir f path : keeps T (sys_chdir f self path) any.
Proof. unfold sys_chdir. keep. Qed.
Lemma keeps_openat f dirfd path flags : keeps T (sys_openat f self dirfd path flags) any.
Proof. unfold sys_openat. keep. Qed.
Lemma keeps_close fd : keeps T (sys_close self fd) any.
Proof. unfold sys_close. keep. Qed.
Lemma keeps_dup fd : keeps T (sys_dup self fd) any.
Proof. unfold sys_dup. keep. Qed.
Lemma keeps_dup3 fd nfd fl : keeps T (sys_dup3 self fd nfd fl) any.
Proof. unfold sys_dup3. keep. Qed.
Lemma keeps_pipe2 pipe : keeps T (sys_pipe2 self pipe) any.
Proof. unfold sys_pipe2. keep. Qed.
Lemma keeps_write_buffers file bufs sum : keeps T (write_buffers file bufs sum) any.
Proof. revert sum. induction bufs; intros sum; cbn [write_buffers]; keep. Qed.
#[local] Hint Resolve keeps_write_buffers : keeps.
Lemma keeps_write fd buf ln : keeps T (sys_write self fd buf ln) any.
Proof. unfold sys_write. keep. Qed.
#[local] Hint Resolve keeps_write : keeps.
Lemma keeps_writev fd iov ln : keeps T (sys_writev self fd iov ln) any.
Proof. unfold sys_writev. keep. Qed.
Lemma keeps_read_buffers file bufs sum : keeps T (read_buffers file bufs sum) any.
Proof. revert sum. induction bufs; intros sum; cbn [read_buffers]; keep. Qed.
#[local] Hint Resolve keeps_read_buffers : keeps.
Lemma keeps_read_resume st : keeps T (sys_read_resume st) any.
Proof. unfold sys_read_resume. keep. Qed.
Lemma keeps_read fd buf ln : keeps T (sys_read self fd buf ln) any.
Proof. unfold sys_read. keep. Qed.
#[local] Hint Resolve keeps_read keeps_read_resume : keeps.
Lemma keeps_readv_loop n fd iov ln i sum : keeps T (readv_loop n self fd iov ln i sum) any.
Proof. revert i sum. induction n; intros i sum; cbn [readv_loop]; keep. Qed.
#[local] Hint Resolve keeps_readv_loop : keeps.
Lemma keeps_readv fd iov ln : keeps T (sys_readv self fd iov ln) any.
Proof. unfold sys_readv. keep. Qed.
Lemma keeps_readv_resume st : keeps T (sys_readv_resume self st) any.
Proof. unfold sys_readv_resume. keep. Qed.
Lemma keeps_sendfile ofd ifd off count : keeps T (sys_sendfile self ofd ifd off count) any.
Proof. unfold sys_sendfile. keep. Qed.
Lemma keeps_fstatat pad f dirfd path buf flags : keeps T (sys_fstatat pad f self dirfd path buf flags) any.
Proof. unfold sys_fstatat, my_token. keep. Qed.
Lemma keeps_fstat pad fd buf : keeps T (sys_fstat pad self fd buf) any.
Proof. unfold sys_fstat, my_token. keep. Qed.
Lemma keeps_mkdirat f fd path mode : keeps T (sys_mkdirat f self fd path mode) any.
Proof. unfold sys_mkdirat, mkdirat_step. keep. Qed.
Lemma keeps_set_close_on_exec file flag : keeps T (set_close_on_exec file flag) any.
Proof. unfold set_close_on_exec. keep. Qed.
#[local] Hint Resolve keeps_set_close_on_exec : keeps.
Lemma keeps_fcntl fd cmd arg : keeps T (sys_fcntl self fd cmd arg) any.
Proof. unfold sys_fcntl. keep. Qed.
Lemma keeps_lseek fd off whence : keeps T (sys_lseek self fd off whence) any.
Proof. unfold sys_lseek, locked_set_offset, locked_get. keep. Qed.
Lemma keeps_brk b : keeps T (sys_brk self b) any.
Proof. unfold sys_brk. keep. Qed.
Lemma keeps_mmap a b c d e f : keeps T (sys_mmap self a b c d e f) any.
Proof. unfold sys_mmap, locked_get. keep. Qed.
Lemma keeps_get_time_us : keeps T get_time_us any.
Proof. unfold get_time_us. keep. Qed.
Lemma keeps_get_time_ms : keeps T get_time_ms any.
Proof. unfold get_time_ms. keep. Qed.
#[local] Hint Resolve keeps_get_time_us keeps_get_time_ms : keeps.
Lemma keeps_gettimeofday ptr : keeps T (sys_gettimeofday self ptr) any.
Proof. unfold sys_gettimeofday. keep. Qed.
Lemma keeps_nanosleep_wait ed : keeps T (nanosleep_wait ed) any.
Proof. unfold nanosleep_wait. keep. Qed.
Lemma keeps_nanosleep req rem : keeps T (sys_nanosleep req rem) any.
Proof. unfold sys_nanosleep. keep. Qed.
Lemma keeps_times tms : keeps T (sys_times self tms) any.
Proof. unfold sys_times. keep. Qed.
Lemma keeps_getpid : keeps T (sys_getpid self) any.
Proof. unfold sys_getpid. keep. Qed.
Lemma keeps_getppid : keeps T (sys_getppid self) any.
Proof. unfold sys_getppid. keep. Qed.
Lemma keeps_exec_from_elf ld ss elf argvs : keeps T (exec_from_elf ld ss self elf argvs) any.
Proof. unfold exec_from_elf, trapframe_of, push_word, push_arg. keep. Qed.
Lemma keeps_exec_args af sf argv argc argvs : keeps T (exec_args af sf self argv argc argvs) any.
Proof. revert argc argvs. induction af; intros argc argvs; cbn [exec_args]; keep. Qed.
Lemma keeps_user_enter : keeps T (user_enter self) any.
Proof. unfold user_enter. keep. Qed.
Lemma keeps_user_leave : keeps T (user_leave self) any.
Proof. unfold user_leave. keep. Qed.
Lemma keeps_tf_load i : keeps T (tf_load self i) any.
Proof. unfold tf_load, tf_base. keep. Qed.
Lemma keeps_tf_store i v : keeps T (tf_store self i v) any.
Proof. unfold tf_store, tf_base. keep. Qed.
Lemma keeps_println s : keeps T (println s) any.
Proof. unfold println. keep. Qed.
Lemma keeps_uname name : keeps T (sys_uname name) any.
Proof. unfold sys_uname. keep. Qed.
Lemma keeps_insert_kernel_stack n : keeps T (insert_kernel_stack n) any.
Proof. unfold insert_kernel_stack. eapply keeps_bind; [keep|]. intros. eapply keeps_bind; [keep|]. intros. by apply keeps_modify. Qed.
Lemma keeps_PCB_new : keeps T PCB_new (λ pcb, pid pcb = 0 ∧ state pcb = READY ∧ parent pcb = None ∧ children pcb = Children_new).
Proof. unfold PCB_new. eapply keeps_bind; [keep|]. intros. eapply keeps_bind; [keep|]. intros. by apply keeps_ret. Qed.
Lemma keeps_trapframe_of ms : keeps T (trapframe_of ms) any.
Proof. unfold trapframe_of. keep. Qed.
End handlers.
#[export] Hint Resolve keeps_translate keeps_getcwd keeps_chdir keeps_openat keeps_close keeps_dup keeps_dup3 keeps_pipe2
  keeps_write keeps_writev keeps_read_resume keeps_read keeps_readv keeps_readv_resume keeps_sendfile keeps_fstatat
  keeps_fstat keeps_mkdirat keeps_fcntl keeps_lseek keeps_brk keeps_mmap keeps_gettimeofday keeps_nanosleep_wait
  keeps_nanosleep keeps_times keeps_getpid keeps_getppid keeps_exec_from_elf keeps_exec_args keeps_user_enter
  keeps_user_leave keeps_tf_load keeps_tf_store keeps_println keeps_uname keeps_insert_kernel_stack keeps_trapframe_of
  keeps_read_str keeps_get_abs_path : keeps.

(** ** The invariant *)
Record tree_inv (v : tview) : Prop := {
  (** keys and process ids *)
  ti_node p n : v_procs v !! p = Some n → p < v_next_key v ∧ tn_ppid n = tn_pid n ∧ 0 ≤ tn_pid n < v_pid_top v;
  ti_uniq p q n m : v_procs v !! p = Some n → v_procs v !! q = Some m → tn_pid n = tn_pid m → p = q;
  (** a process that has not exited is among the living children of its parent *)
  ti_parent p n q : v_procs v !! p = Some n → tn_parent n = Some q →
    q < p ∧ ∃ m, v_procs v !! q = Some m ∧ (tn_state n ≠ ZOMBIE → tn_alive m !! tn_pid n = Some p);
  ti_alive q m c p : v_procs v !! q = Some m → tn_alive m !! c = Some p →
    ∃ n, v_procs v !! p = Some n ∧ tn_pid n = c ∧ tn_parent n = Some q ∧ tn_state n ≠ ZOMBIE;
  ti_zombie q m c p : v_procs v !! q = Some m → tn_zombie m !! c = Some p →
    ∃ n, v_procs v !! p = Some n ∧ tn_pid n = c ∧ tn_parent n = Some q ∧ tn_state n = ZOMBIE;
  (** a process has one thread until it has exited *)
  ti_thread t th : v_threads v !! t = Some th →
    t < v_next_key v ∧ ∃ n, v_procs v !! thread_proc th = Some n ∧ (exit th = true ↔ tn_state n = ZOMBIE);
  ti_thread_uniq t1 t2 th1 th2 : v_threads v !! t1 = Some th1 → v_threads v !! t2 = Some th2 →
    thread_proc th1 = thread_proc th2 → t1 = t2;
  ti_live p n : v_procs v !! p = Some n → tn_state n ≠ ZOMBIE → ∃ t th, v_threads v !! t = Some th ∧ thread_proc th = p;
}.
(** The threads are the queued ones and the one that runs. *)
Record sched_inv (cur : option Z) (v : tview) : Prop := {
  sc_nodup : NoDup (option_list cur ++ v_queue v);
  sc_dom t : is_Some (v_threads v !! t) ↔ t ∈ option_list cur ++ v_queue v;
  sc_exit t th : v_threads v !! t = Some th → exit th = true → cur = Some t;
}.
(** With a bound on the process ids and the queue so far. *)
Record inv (B : Z) (q0 : list Z) (cur : option Z) (v : tview) : Prop := {
  inv_tree : tree_inv v;
  inv_sched : sched_inv cur v;
  inv_top : 0 ≤ v_pid_top v ≤ B;
  inv_queue : q0 `prefix_of` v_queue v;
}.

(** *** Exit *)
Definition node_exit (n : tnode) : tnode :=
  mkNode (tn_ppid n) (tn_pid n) ZOMBIE (tn_parent n) (tn_alive n) (tn_zombie n).
Definition node_bury (c p : Z) (m : tnode) : tnode :=
  mkNode (tn_ppid m) (tn_pid m) (tn_state m) (tn_parent m) (delete c (tn_alive m)) (<[c := p]> (tn_zombie m)).
Definition view_exit (v : tview) (t : Z) (th : Thread) (p : Z) (n : tnode) (q : Z) (m : tnode) : tview :=
  mkView (<[q := node_bury (tn_pid n) p m]> (<[p := node_exit n]> (v_procs v)))
    (<[t := mkThread (tid th) (thread_proc th) true]> (v_threads v)) (v_queue v) (v_pid_top v) (v_next_key v).

Section exit_inv.
Context (v : tview) (t : Z) (th : Thread) (p : Z) (n : tnode) (q : Z) (m : tnode).
Context (Hv : tree_inv v) (Ht : v_threads v !! t = Some th) (Hp : thread_proc th = p) (Hn : v_procs v !! p = Some n)
  (Hq : tn_parent n = Some q) (Hm : v_procs v !! q = Some m) (Hlive : tn_state n ≠ ZOMBIE).

Lemma exit_pq : q < p.
Proof. by apply (ti_parent _ Hv p n q). Qed.

(** Nodes before and after. *)
Definition exit_rel (r : Z) (n0 n1 : tnode) : Prop :=
  tn_ppid n1 = tn_ppid n0 ∧ tn_pid n1 = tn_pid n0 ∧ tn_parent n1 = tn_parent n0 ∧
  (r ≠ p → tn_state n1 = tn_state n0) ∧ (r = p → tn_state n1 = ZOMBIE) ∧
  (∀ c x, tn_alive n1 !! c = Some x ↔ tn_alive n0 !! c = Some x ∧ ¬ (r = q ∧ c = tn_pid n)) ∧
  (∀ c x, tn_zombie n1 !! c = Some x → tn_zombie n0 !! c = Some x ∨ (r = q ∧ c = tn_pid n ∧ x = p)).

Lemma exit_nodes r : option_Forall2 (exit_rel r) (v_procs v !! r) (v_procs (view_exit v t th p n q m) !! r).
Proof.
  pose proof exit_pq as Hpq. cbn [v_procs view_exit]. destruct (decide (r = q)) as [->|].
  - rewrite Hm, lookup_insert_eq. constructor. unfold exit_rel, node_bury. cbn. split_and!; try done; [lia| |].
    + intros c x. rewrite lookup_delete_Some. naive_solver.
    + intros c x. rewrite lookup_insert_Some. naive_solver.
  - rewrite lookup_insert_ne by done. destruct (decide (r = p)) as [->|].
    + rewrite Hn, lookup_insert_eq. constructor. unfold exit_rel, node_exit. cbn. naive_solver.
    + rewrite lookup_insert_ne by done. destruct (v_procs v !! r) as [nr|]; constructor. unfold exit_rel. naive_solver.
Qed.
Lemma exit_bwd r n1 : v_procs (view_exit v t th p n q m) !! r = Some n1 →
  ∃ n0, v_procs v !! r = Some n0 ∧ exit_rel r n0 n1.
Proof.
  intros H. pose proof (exit_nodes r) as Hr. rewrite H in Hr. inversion Hr; subst. eauto.
Qed.
Lemma exit_fwd r n0 : v_procs v !! r = Some n0 →
  ∃ n1, v_procs (view_exit v t th p n q m) !! r = Some n1 ∧ exit_rel r n0 n1.
Proof.
  intros H. pose proof (exit_nodes r) as Hr. rewrite H in Hr. inversion Hr; subst. eauto.
Qed.
Lemma exit_thread t' th' : v_threads (view_exit v t th p n q m) !! t' = Some th' →
  ∃ th0, v_threads v !! t' = Some th0 ∧ thread_proc th' = thread_proc th0 ∧
    exit th' = (if decide (t' = t) then true else exit th0).
Proof.
  cbn [v_threads view_exit]. intros [[<- <-]|[? ?]]%lookup_insert_Some.
  - exists th. by rewrite decide_True.
  - exists th'. by rewrite decide_False.
Qed.

Lemma exit_tree : tree_inv (view_exit v t th p n q m).
Proof.
  pose proof exit_pq as Hpq. split.
  - intros r nr (n0 & H0 & R)%exit_bwd. destruct (ti_node _ Hv r n0 H0) as (? & ? & ?).
    destruct R as (E1 & E2 & _). rewrite E1, E2. done.
  - intros r s nr ns (n0 & H0 & _ & E0 & _)%exit_bwd (n1 & H1 & _ & E1 & _)%exit_bwd E.
    apply (ti_uniq _ Hv r s n0 n1 H0 H1). congruence.
  - intros r nr s (n0 & H0 & R0)%exit_bwd Hs. destruct R0 as (_ & E2 & E3 & E4 & E5 & _).
    rewrite E3 in Hs. destruct (ti_parent _ Hv r n0 s H0 Hs) as (Hlt & m0 & Hm0 & Hal). split; [done|].
    destruct (exit_fwd s m0 Hm0) as (m1 & Hm1 & R1). exists m1. split; [done|]. intros Hnz.
    assert (r ≠ p) by naive_solver. rewrite E2. apply R1. split; [apply Hal; rewrite <- E4; done|].
    intros [-> Epid]. apply H. by apply (ti_uniq _ Hv r p n0 n).
  - intros s m1 c x (m0 & Hm0 & R)%exit_bwd Hx. apply R in Hx as [Hx Hno].
    destruct (ti_alive _ Hv s m0 c x Hm0 Hx) as (n0 & H0 & E1 & E2 & E3).
    destruct (exit_fwd x n0 H0) as (n1 & H1 & R1). exists n1. destruct R1 as (_ & F2 & F3 & F4 & _).
    assert (x ≠ p).
    { intros ->. apply Hno. rewrite Hn in H0. injection H0 as <-. split; congruence. }
    split_and!; [done|congruence|congruence|]. rewrite F4; done.
  - intros s m1 c x (m0 & Hm0 & R)%exit_bwd Hx. apply R in Hx as [Hx|(-> & -> & ->)].
    + destruct (ti_zombie _ Hv s m0 c x Hm0 Hx) as (n0 & H0 & E1 & E2 & E3).
      destruct (exit_fwd x n0 H0) as (n1 & H1 & R1). exists n1. destruct R1 as (_ & F2 & F3 & F4 & F5 & _).
      split_and!; [done|congruence|congruence|]. destruct (decide (x = p)); [by apply F5|rewrite F4; done].
    + destruct (exit_fwd p n Hn) as (n1 & H1 & R1). exists n1. destruct R1 as (_ & F2 & F3 & _ & F5 & _).
      split_and!; [done|done|congruence|by apply F5].
  - intros t' th' (th0 & Ht0 & Ep & Ee)%exit_thread. destruct (ti_thread _ Hv t' th0 Ht0) as (Hk & n0 & H0 & Hz).
    split; [done|]. rewrite Ep. destruct (exit_fwd _ n0 H0) as (n1 & H1 & R1). exists n1. split; [done|].
    destruct R1 as (_ & _ & _ & F4 & F5 & _). rewrite Ee. destruct (decide (t' = t)) as [->|Hne].
    + rewrite F5; [done|]. congruence.
    + rewrite F4; [done|]. intros E. apply Hne. apply (ti_thread_uniq _ Hv t' t th0 th); congruence.
  - intros t1 t2 th1 th2 (u1 & H1 & E1 & _)%exit_thread (u2 & H2 & E2 & _)%exit_thread E.
    apply (ti_thread_uniq _ Hv t1 t2 u1 u2 H1 H2). congruence.
  - intros r nr (n0 & H0 & R)%exit_bwd Hnz. destruct R as (_ & _ & _ & F4 & F5 & _).
    assert (r ≠ p) by naive_solver. destruct (ti_live _ Hv r n0 H0) as (u & uh & Hu & Eu); [rewrite <- F4; done|].
    exists u, uh. cbn [v_threads view_exit]. rewrite lookup_insert_ne; [done|]. congruence.
Qed.
End exit_inv.

(** *** Running the parts of a handler *)
Lemma thread_get_run k t th : threads k !! t = Some th → thread_get t k = Ok (th, k).
Proof. intros H. unfold thread_get, bind, get, lift, unwrap. by rewrite H. Qed.
Lemma self_proc_run k t th : threads k !! t = Some th → self_proc t k = Ok (thread_proc th, k).
Proof. intros H. unfold self_proc. by rewrite (bind_run _ _ _ _ _ (thread_get_run k t th H)). Qed.
Lemma proc_get_run k p pr : procs k !! p = Some pr → proc_get p k = Ok (pr, k).
Proof. intros H. unfold proc_get, bind, get, lift, unwrap. by rewrite H. Qed.
Lemma pcb_get_run k p pr : procs k !! p = Some pr → pcb_get p k = Ok (inner pr, k).
Proof. intros H. unfold pcb_get. by rewrite (bind_run _ _ _ _ _ (proc_get_run k p pr H)). Qed.
Lemma pcb_put_run k p pr pcb : procs k !! p = Some pr →
  pcb_put p pcb k = Ok (tt, k_set_procs k (<[p := mkProcess (proc_pid pr) pcb]> (procs k))).
Proof. intros H. unfold pcb_put. by rewrite (bind_run _ _ _ _ _ (proc_get_run k p pr H)). Qed.
Lemma thread_set_exit_run k t th : threads k !! t = Some th →
  thread_set_exit t k = Ok (tt, k_set_threads k (<[t := mkThread (tid th) (thread_proc th) true]> (threads k))).
Proof. intros H. unfold thread_set_exit. by rewrite (bind_run _ _ _ _ _ (thread_get_run k t th H)). Qed.

(** A node of the view is a process. *)
Lemma tv_proc k p n : v_procs (tv k) !! p = Some n → ∃ pr, procs k !! p = Some pr ∧ n = node_of pr.
Proof. cbn [v_procs tv]. rewrite lookup_fmap. destruct (procs k !! p); [|done]. intros [= <-]. eauto. Qed.
Lemma tv_proc_2 k p pr : procs k !! p = Some pr → v_procs (tv k) !! p = Some (node_of pr).
Proof. intros H. cbn [v_procs tv]. by rewrite lookup_fmap, H. Qed.

(** The exit of a thread whose process has a parent that knows it. *)
Lemma sys_exit_run k t code th pr q prq x :
  threads k !! t = Some th → procs k !! thread_proc th = Some pr → parent (inner pr) = Some q →
  procs k !! q = Some prq → q ≠ thread_proc th → alive (children (inner prq)) !! pid (inner pr) = Some x →
  x = thread_proc th →
  ∃ k', sys_exit t code k = Ok (0, k') ∧
    tv k' = view_exit (tv k) t th (thread_proc th) (node_of pr) q (node_of prq).
Proof.
  intros Ht Hp Hq Hpq Hne Ha ->. unfold sys_exit.
  rewrite (bind_run _ _ _ _ _ (self_proc_run k t th Ht)), (bind_run _ _ _ _ _ (pcb_get_run k _ pr Hp)).
  rewrite (bind_run _ _ _ _ _ (pcb_put_run k _ pr _ Hp)). set (k1 := k_set_procs k _).
  assert (H1 : procs k1 !! q = Some prq) by (cbn; by rewrite lookup_insert_ne).
  rewrite Hq. set (c := mkChildren (delete (pid (inner pr)) (alive (children (inner prq))))
    (<[pid (inner pr) := thread_proc th]> (zombie (children (inner prq))))).
  erewrite bind_run.
  2: { rewrite (bind_run _ _ _ _ _ (pcb_get_run k1 q prq H1)).
       rewrite (bind_run _ _ k1 c k1) by (unfold lift, Children_turn_into_zombie; by rewrite Ha).
       by rewrite (pcb_put_run k1 q prq). }
  erewrite bind_run by (by apply thread_set_exit_run).
  eexists. split; [done|]. unfold tv, view_exit. cbn. f_equal. by rewrite !fmap_insert.
Qed.

Lemma sys_exit_init k t code th pr :
  threads k !! t = Some th → procs k !! thread_proc th = Some pr → parent (inner pr) = None →
  sys_exit t code k = Fault Shutdown.
Proof.
  intros Ht Hp Hq. unfold sys_exit.
  rewrite (bind_run _ _ _ _ _ (self_proc_run k t th Ht)), (bind_run _ _ _ _ _ (pcb_get_run k _ pr Hp)).
  rewrite (bind_run _ _ _ _ _ (pcb_put_run k _ pr _ Hp)). rewrite Hq. done.
Qed.

(** With the invariant the exit succeeds, unless it is the first process. *)
Lemma sys_exit_spec B q0 t k code th :
  inv B q0 (Some t) (tv k) → threads k !! t = Some th → exit th = false →
  sys_exit t code k = Fault Shutdown ∨
  ∃ k' th', sys_exit t code k = Ok (0, k') ∧ inv B q0 (Some t) (tv k') ∧
    threads k' !! t = Some th' ∧ exit th' = true.
Proof.
  intros [Htree Hsched Htop Hqueue] Ht He.
  destruct (ti_thread _ Htree t th Ht) as (Hkey & n & Hn & Hz).
  destruct (tv_proc _ _ _ Hn) as (pr & Hpr & ->). destruct (parent (inner pr)) as [q|] eqn:Hq.
  2: { left. by eapply sys_exit_init. }
  assert (Hnz : state (inner pr) ≠ ZOMBIE) by (intros E; apply Hz in E; congruence).
  destruct (ti_parent _ Htree _ _ q Hn Hq) as (Hlt & m & Hm & Hal). destruct (tv_proc _ _ _ Hm) as (prq & Hprq & ->).
  destruct (sys_exit_run k t code th pr q prq (thread_proc th)) as (k' & Hrun & Hv); try done; [lia|by apply Hal|].
  right. exists k', (mkThread (tid th) (thread_proc th) true).
  assert (Hthr : v_threads (tv k') = <[t:=mkThread (tid th) (thread_proc th) true]> (threads k)) by (by rewrite Hv).
  split; [done|]. split; [|split; [|done]].
  2: { cbn [v_threads tv] in Hthr. rewrite Hthr. by apply lookup_insert_eq. }
  rewrite Hv. split; [by apply exit_tree| |done|done]. destruct Hsched as [S1 S2 S3].
  split; cbn [v_queue v_threads view_exit]; [done| |].
  - intros u. rewrite <- S2. cbn [v_threads tv]. destruct (decide (u = t)) as [->|].
    + rewrite lookup_insert_eq, Ht. split; eauto.
    + by rewrite lookup_insert_ne.
  - intros u uh [[<- _]|[_ Hu]]%lookup_insert_Some Hue; [done|by apply (S3 u uh)].
Qed.

(** *** Handlers that change the view *)
Definition runs {A} (v : tview) (m : K A) (Q : A → tview → Prop) : Prop :=
  ∀ k a k', tv k = v → m k = Ok (a, k') → Q a (tv k').

Lemma runs_bind {A C} v (m : K A) (f : A → K C) Q R :
  runs v m Q → (∀ a v', Q a v' → runs v' (f a) R) → runs v (bind m f) R.
Proof. intros Hm Hf k b k' Hv (a & k1 & H1 & H2)%bind_Ok. by apply (Hf a _ (Hm _ _ _ Hv H1) k1). Qed.
Lemma runs_keeps {A} v (m : K A) P (Q : A → tview → Prop) : keeps v m P → (∀ a, P a → Q a v) → runs v m Q.
Proof. intros Hm HQ k a k' Hv Hr. destruct (Hm k a k' Hv Hr) as [-> Ha]. by apply HQ. Qed.
Lemma runs_keeps_bind {A C} v (m : K A) P (f : A → K C) R :
  keeps v m P → (∀ a, P a → runs v (f a) R) → runs v (bind m f) R.
Proof.
  intros Hm Hf. eapply (runs_bind v m f (λ a v', v' = v ∧ P a)); [by eapply runs_keeps|].
  intros a v' [-> Ha]. by apply Hf.
Qed.
Lemma runs_weaken {A} v (m : K A) (Q R : A → tview → Prop) : (∀ a v', Q a v' → R a v') → runs v m Q → runs v m R.
Proof. intros HQ Hm k a k' Hv Hr. apply HQ. by eapply Hm. Qed.
Lemma runs_ret {A} v (a : A) (Q : A → tview → Prop) : Q a v → runs v (ret a) Q.
Proof. intros H k b k' <- [= <- <-]. done. Qed.

(** *** Clone *)
Definition node_adopt (c p : Z) (m : tnode) : tnode :=
  mkNode (tn_ppid m) (tn_pid m) (tn_state m) (tn_parent m) (<[c := p]> (tn_alive m)) (tn_zombie m).
Definition view_clone (v : tview) (p : Z) (m : tnode) : tview :=
  let np := v_next_key v in
  mkView (<[p := node_adopt (v_pid_top v) np m]>
           (<[np := mkNode (v_pid_top v) (v_pid_top v) READY (Some p) ∅ ∅]> (v_procs v)))
    (<[np + 1 := Thread_new np]> (v_threads v)) (v_queue v ++ [np + 1]) (v_pid_top v + 1) (np + 1 + 1).

Section clone_inv.
Context (v : tview) (p : Z) (m : tnode) (Hv : tree_inv v) (Hm : v_procs v !! p = Some m) (Htop : 0 ≤ v_pid_top v).
Abbreviation np := (v_next_key v).
Abbreviation v' := (view_clone v p m).

Definition clone_rel (r : Z) (n0 n1 : tnode) : Prop :=
  tn_ppid n1 = tn_ppid n0 ∧ tn_pid n1 = tn_pid n0 ∧ tn_parent n1 = tn_parent n0 ∧ tn_state n1 = tn_state n0 ∧
  (∀ c x, tn_alive n1 !! c = Some x → tn_alive n0 !! c = Some x ∨ (r = p ∧ c = v_pid_top v ∧ x = np)) ∧
  (∀ c x, c ≠ v_pid_top v → tn_alive n0 !! c = Some x → tn_alive n1 !! c = Some x) ∧
  tn_zombie n1 = tn_zombie n0.

Lemma clone_fresh : v_procs v !! np = None ∧ p ≠ np.
Proof.
  split; [destruct (v_procs v !! np) eqn:E; [|done]|intros E].
  - apply (ti_node _ Hv) in E. lia.
  - rewrite E in Hm. apply (ti_node _ Hv) in Hm. lia.
Qed.
Lemma clone_new : v_procs v' !! np = Some (mkNode (v_pid_top v) (v_pid_top v) READY (Some p) ∅ ∅).
Proof. destruct clone_fresh. cbn. rewrite lookup_insert_ne by done. by rewrite lookup_insert_eq. Qed.
Lemma clone_nodes r : r ≠ np → option_Forall2 (clone_rel r) (v_procs v !! r) (v_procs v' !! r).
Proof.
  intros Hr. cbn [v_procs view_clone]. destruct (decide (r = p)) as [->|].
  - rewrite Hm, lookup_insert_eq. constructor. unfold clone_rel, node_adopt. cbn. split_and!; try done.
    + intros c x. rewrite lookup_insert_Some. naive_solver.
    + intros c x Hc Hx. by rewrite lookup_insert_ne.
  - rewrite !lookup_insert_ne by done. destruct (v_procs v !! r); constructor. unfold clone_rel. naive_solver.
Qed.
Lemma clone_bwd r n1 : v_procs v' !! r = Some n1 →
  (r = np ∧ n1 = mkNode (v_pid_top v) (v_pid_top v) READY (Some p) ∅ ∅) ∨
  (r ≠ np ∧ ∃ n0, v_procs v !! r = Some n0 ∧ clone_rel r n0 n1).
Proof.
  intros H. destruct (decide (r = np)) as [->|Hne].
  - left. rewrite clone_new in H. naive_solver.
  - right. split; [done|]. pose proof (clone_nodes r Hne) as Hr. rewrite H in Hr. inversion Hr; subst. eauto.
Qed.
Lemma clone_fwd r n0 : v_procs v !! r = Some n0 → ∃ n1, v_procs v' !! r = Some n1 ∧ clone_rel r n0 n1.
Proof.
  intros H. assert (Hne : r ≠ np) by (apply (ti_node _ Hv) in H; lia).
  pose proof (clone_nodes r Hne) as Hr. rewrite H in Hr. inversion Hr; subst. eauto.
Qed.
Lemma clone_thread t th : v_threads v' !! t = Some th →
  (t = np + 1 ∧ th = Thread_new np) ∨ (t ≠ np + 1 ∧ v_threads v !! t = Some th).
Proof. cbn [v_threads view_clone]. rewrite lookup_insert_Some. naive_solver. Qed.

Lemma clone_tree : tree_inv v'.
Proof.
  destruct clone_fresh as [Hf Hpne]. split.
  - intros r nr [[-> ->]|[_ (n0 & H0 & E1 & E2 & _)]]%clone_bwd.
    + cbn. split_and!; lia.
    + destruct (ti_node _ Hv r n0 H0) as (? & ? & ?). cbn [v_next_key v_pid_top view_clone]. rewrite E1, E2. split_and!; lia.
  - intros r s nr ns [[-> ->]|[_ (n0 & H0 & _ & E0 & _)]]%clone_bwd [[-> ->]|[_ (n1 & H1 & _ & E1 & _)]]%clone_bwd E; [done| | |].
    + apply (ti_node _ Hv) in H1. cbn in E. lia.
    + apply (ti_node _ Hv) in H0. cbn in E. lia.
    + apply (ti_uniq _ Hv r s n0 n1 H0 H1). congruence.
  - intros r nr s [[-> ->]|[_ (n0 & H0 & R0)]]%clone_bwd Hs.
    + injection Hs as <-. split; [apply (ti_node _ Hv) in Hm; lia|]. exists (node_adopt (v_pid_top v) np m).
      split; [cbn; by rewrite lookup_insert_eq|]. intros _. cbn. by rewrite lookup_insert_eq.
    + destruct R0 as (_ & E2 & E3 & E4 & _). rewrite E3 in Hs.
      destruct (ti_parent _ Hv r n0 s H0 Hs) as (Hlt & m0 & Hm0 & Hal). split; [done|].
      destruct (clone_fwd s m0 Hm0) as (m1 & Hm1 & R1). exists m1. split; [done|]. intros Hnz.
      destruct R1 as (_ & _ & _ & _ & _ & F & _). rewrite E2. apply F; [|apply Hal; congruence].
      apply (ti_node _ Hv) in H0. lia.
  - intros s m1 c x [[-> ->]|[_ (m0 & Hm0 & R)]]%clone_bwd Hx; [cbn in Hx; by rewrite lookup_empty in Hx|].
    destruct R as (_ & _ & _ & _ & F & _). apply F in Hx as [Hx|(-> & -> & ->)].
    + destruct (ti_alive _ Hv s m0 c x Hm0 Hx) as (n0 & H0 & E1 & E2 & E3).
      destruct (clone_fwd x n0 H0) as (n1 & H1 & F1 & F2 & F3 & F4 & _). exists n1. split_and!; congruence.
    + eexists. split; [apply clone_new|]. done.
  - intros s m1 c x [[-> ->]|[_ (m0 & Hm0 & R)]]%clone_bwd Hx; [cbn in Hx; by rewrite lookup_empty in Hx|].
    destruct R as (_ & _ & _ & _ & _ & _ & F). rewrite F in Hx.
    destruct (ti_zombie _ Hv s m0 c x Hm0 Hx) as (n0 & H0 & E1 & E2 & E3).
    destruct (clone_fwd x n0 H0) as (n1 & H1 & F1 & F2 & F3 & F4 & _). exists n1. split_and!; congruence.
  - intros t th [[-> ->]|[_ Ht]]%clone_thread; cbn [v_next_key view_clone].
    + split; [lia|]. eexists. split; [apply clone_new|]. done.
    + destruct (ti_thread _ Hv t th Ht) as (? & n0 & H0 & Hz). split; [lia|].
      destruct (clone_fwd _ n0 H0) as (n1 & H1 & F1 & F2 & F3 & F4 & _). exists n1. split; [done|]. by rewrite F4.
  - intros t1 t2 th1 th2 [[-> ->]|[_ H1]]%clone_thread [[-> ->]|[_ H2]]%clone_thread E; [done| | |].
    + apply (ti_thread _ Hv) in H2 as (_ & n0 & H0 & _). cbn in E. rewrite <- E in H0. congruence.
    + apply (ti_thread _ Hv) in H1 as (_ & n0 & H0 & _). cbn in E. rewrite E in H0. congruence.
    + by apply (ti_thread_uniq _ Hv t1 t2 th1 th2).
  - intros r nr [[-> ->]|[_ (n0 & H0 & R)]]%clone_bwd Hnz.
    + exists (np + 1), (Thread_new np). cbn. by rewrite lookup_insert_eq.
    + destruct R as (_ & _ & _ & E4 & _). destruct (ti_live _ Hv r n0 H0) as (t & th & Ht & Et); [congruence|].
      exists t, th. split; [|done]. cbn. rewrite lookup_insert_ne; [done|]. apply (ti_thread _ Hv) in Ht. lia.
Qed.
End clone_inv.

Lemma clone_inv_step B q0 t v p m :
  inv B q0 (Some t) v → v_procs v !! p = Some m → inv (B + 1) q0 (Some t) (view_clone v p m).
Proof.
  intros [Htree [S1 S2 S3] Htop Hq] Hm. split.
  - apply clone_tree; [done|done|lia].
  - assert (Hfresh : v_threads v !! (v_next_key v + 1) = None).
    { destruct (v_threads v !! (v_next_key v + 1)) eqn:E; [|done]. apply (ti_thread _ Htree) in E. lia. }
    split; cbn [v_queue v_threads view_clone].
    + rewrite app_assoc. apply NoDup_app. split_and!; [done| |apply NoDup_singleton].
      intros u Hu ->%list_elem_of_singleton. apply S2 in Hu as [? ?]. congruence.
    + intros u. rewrite app_assoc, elem_of_app, list_elem_of_singleton, <- S2. destruct (decide (u = v_next_key v + 1)) as [->|].
      * rewrite lookup_insert_eq. split; eauto.
      * rewrite lookup_insert_ne by done. naive_solver.
    + intros u uh [[<- <-]|[_ Hu]]%lookup_insert_Some Hue; [done|by apply (S3 u uh)].
  - cbn. lia.
  - cbn. by apply prefix_app_r.
Qed.

Lemma runs_alloc_pid v :
  0 ≤ v_pid_top v < 2 ^ 64 - 1 →
  runs v PidAllocator_alloc_pid (λ a v', a = v_pid_top v ∧
    v' = mkView (v_procs v) (v_threads v) (v_queue v) (v_pid_top v + 1) (v_next_key v)).
Proof.
  intros Ht k a k' <- H. cbn [v_pid_top tv] in Ht. unfold PidAllocator_alloc_pid, bind, get, put, ret in H.
  rewrite uadd_small, usub_small in H by lia. injection H as <- <-. cbn. split; [lia|done].
Qed.
Lemma runs_proc_arc v pr :
  runs v (proc_arc pr) (λ a v', a = v_next_key v ∧
    v' = mkView (<[v_next_key v := node_of pr]> (v_procs v)) (v_threads v) (v_queue v) (v_pid_top v) (v_next_key v + 1)).
Proof. intros k a k' <- [= <- <-]. split; [done|]. unfold tv. cbn. by rewrite fmap_insert. Qed.
Definition node_pcb (pp : Z) (pcb : PCB) : tnode := node_of (mkProcess pp pcb).
Lemma runs_pcb_put v p pcb n :
  v_procs v !! p = Some n →
  runs v (pcb_put p pcb) (λ _ v', v' = mkView (<[p := node_pcb (tn_ppid n) pcb]> (v_procs v)) (v_threads v)
    (v_queue v) (v_pid_top v) (v_next_key v)).
Proof.
  intros Hn k a k' <- H. destruct (tv_proc _ _ _ Hn) as (pr & Hpr & ->). rewrite (pcb_put_run k p pr pcb Hpr) in H.
  injection H as <- <-. unfold tv. cbn. by rewrite fmap_insert.
Qed.
Lemma runs_spawn v th :
  runs v (spawn_user_loop th) (λ _ v', v' = mkView (v_procs v) (<[v_next_key v := th]> (v_threads v))
    (v_queue v ++ [v_next_key v]) (v_pid_top v) (v_next_key v + 1)).
Proof. intros k a k' <- [= <- <-]. done. Qed.

Lemma runs_clone ld ula v self flags stack ptid tls ctid :
  0 ≤ v_pid_top v < 2 ^ 64 - 1 →
  tree_inv v →
  runs v (sys_clone ld ula self flags stack ptid tls ctid) (λ a v', a = v_pid_top v ∧
    ∃ p m, self_is v self p ∧ v_procs v !! p = Some m ∧ v' = view_clone v p m).
Proof.
  intros Htop Hv. unfold sys_clone. eapply runs_keeps_bind; [apply keeps_self_proc|]. intros p Hp.
  eapply runs_keeps_bind; [apply keeps_pcb_get|]. intros pcb (m & Hm & _).
  eapply runs_bind; [by apply runs_alloc_pid|]. intros new_pid v1 [-> Hv1].
  eapply runs_keeps_bind; [keep|]. intros fl _.
  eapply runs_keeps_bind; [apply keeps_PCB_new|]. intros new (_ & _ & _ & Hch).
  do 2 (eapply runs_keeps_bind; [keep|]; intros ? _).
  eapply runs_keeps_bind; [apply keeps_trapframe_of|]; intros ? _.
  do 5 (eapply runs_keeps_bind; [keep|]; intros ? _).
  eapply runs_keeps_bind; [apply keeps_insert_kernel_stack|]; intros ? _.
  do 2 (eapply runs_keeps_bind; [keep|]; intros ? _).
  cbv zeta. eapply runs_bind; [apply runs_proc_arc|]. intros np v2 [-> Hv2].
  assert (Hne : p ≠ v_next_key v) by (apply (ti_node _ Hv) in Hm; lia).
  assert (Hm2 : v_procs v2 !! p = Some m) by (subst v2 v1; cbn; by rewrite lookup_insert_ne).
  eapply runs_keeps_bind; [apply keeps_pcb_get|]. intros pcb2 (m' & Hm' & E1 & E2 & E3 & E4 & E5).
  rewrite Hm2 in Hm'. injection Hm' as <-.
  eapply runs_bind; [by apply runs_pcb_put|]. intros ? v3 Hv3.
  eapply runs_bind; [apply runs_spawn|]. intros ? v4 Hv4. apply runs_ret. cbv beta in Hv3, Hv4. split; [done|]. exists p, m.
  split_and!; [done|done|]. subst v4 v3 v2 v1. unfold view_clone. cbn. f_equal.
  assert (En : node_pcb (tn_ppid m) (pcb_set_children pcb2 (mkChildren (<[v_pid_top v:=v_next_key v]> (alive (children pcb2)))
    (zombie (children pcb2)))) = node_adopt (v_pid_top v) (v_next_key v) m).
  { unfold node_pcb, node_of, node_adopt. cbn. congruence. }
  rewrite En. do 2 f_equal. unfold node_of. cbn. by rewrite Hch.
Qed.

(** *** Waiting *)
Definition node_reap (c : Z) (m : tnode) : tnode :=
  mkNode (tn_ppid m) (tn_pid m) (tn_state m) (tn_parent m) (tn_alive m) (delete c (tn_zombie m)).
Definition view_reap (v : tview) (p : Z) (m : tnode) (c : Z) : tview :=
  mkView (<[p := node_reap c m]> (v_procs v)) (v_threads v) (v_queue v) (v_pid_top v) (v_next_key v).

Lemma reap_tree v p m c : tree_inv v → v_procs v !! p = Some m → tree_inv (view_reap v p m c).
Proof.
  intros Hv Hm.
  assert (Hb : ∀ r n1, v_procs (view_reap v p m c) !! r = Some n1 → ∃ n0, v_procs v !! r = Some n0 ∧
    tn_ppid n1 = tn_ppid n0 ∧ tn_pid n1 = tn_pid n0 ∧ tn_parent n1 = tn_parent n0 ∧ tn_state n1 = tn_state n0 ∧
    tn_alive n1 = tn_alive n0 ∧ ∀ x y, tn_zombie n1 !! x = Some y → tn_zombie n0 !! x = Some y).
  { intros r n1. cbn. intros [[<- <-]|[_ H]]%lookup_insert_Some; [exists m|exists n1]; cbn; split_and!; try done.
    intros x y [_ ?]%lookup_delete_Some. done. }
  assert (Hf : ∀ r n0, v_procs v !! r = Some n0 → ∃ n1, v_procs (view_reap v p m c) !! r = Some n1 ∧
    tn_pid n1 = tn_pid n0 ∧ tn_parent n1 = tn_parent n0 ∧ tn_state n1 = tn_state n0 ∧ tn_alive n1 = tn_alive n0).
  { intros r n0 H. cbn. destruct (decide (r = p)) as [->|].
    - rewrite lookup_insert_eq. eexists. split; [done|]. rewrite Hm in H. injection H as <-. done.
    - rewrite lookup_insert_ne by done. by exists n0. }
  split.
  - intros r n1 (n0 & H0 & E1 & E2 & _)%Hb. rewrite E1, E2. by apply (ti_node _ Hv) in H0.
  - intros r s n1 n2 (n0 & H0 & _ & E1 & _)%Hb (n3 & H3 & _ & E2 & _)%Hb E. apply (ti_uniq _ Hv r s n0 n3); congruence.
  - intros r n1 s (n0 & H0 & _ & E2 & E3 & E4 & _)%Hb Hs. rewrite E3 in Hs.
    destruct (ti_parent _ Hv r n0 s H0 Hs) as (? & m0 & Hm0 & Hal). split; [done|].
    destruct (Hf s m0 Hm0) as (m1 & Hm1 & _ & _ & _ & F). exists m1. split; [done|]. rewrite F, E2, E4. done.
  - intros s m1 x y (m0 & Hm0 & _ & _ & _ & _ & E & _)%Hb Hy. rewrite E in Hy.
    destruct (ti_alive _ Hv s m0 x y Hm0 Hy) as (n0 & H0 & ? & ? & ?).
    destruct (Hf y n0 H0) as (n1 & Hn1 & F1 & F2 & F3 & _). exists n1. split_and!; congruence.
  - intros s m1 x y (m0 & Hm0 & _ & _ & _ & _ & _ & E)%Hb Hy%E.
    destruct (ti_zombie _ Hv s m0 x y Hm0 Hy) as (n0 & H0 & ? & ? & ?).
    destruct (Hf y n0 H0) as (n1 & Hn1 & F1 & F2 & F3 & _). exists n1. split_and!; congruence.
  - intros t th Ht. destruct (ti_thread _ Hv t th Ht) as (? & n0 & H0 & ?). split; [done|].
    destruct (Hf _ n0 H0) as (n1 & Hn1 & _ & _ & F & _). exists n1. by rewrite F.
  - apply (ti_thread_uniq _ Hv).
  - intros r n1 (n0 & H0 & _ & _ & _ & E & _)%Hb Hs. apply (ti_live _ Hv r n0 H0). congruence.
Qed.

(** *** Dropping a process nobody refers to *)
Definition unreferenced (v : tview) (p : Z) : Prop :=
  (∀ q m, v_procs v !! q = Some m → tn_parent m ≠ Some p ∧
    (∀ c, tn_alive m !! c ≠ Some p) ∧ (∀ c, tn_zombie m !! c ≠ Some p)) ∧
  (∀ t th, v_threads v !! t = Some th → thread_proc th ≠ p).
Definition view_drop (v : tview) (p : Z) : tview :=
  mkView (delete p (v_procs v)) (v_threads v) (v_queue v) (v_pid_top v) (v_next_key v).

Lemma drop_tree v p : tree_inv v → unreferenced v p → tree_inv (view_drop v p).
Proof.
  intros Hv [Hup Hut]. split; cbn [v_procs v_threads v_queue v_pid_top v_next_key view_drop].
  - intros r n [_ H]%lookup_delete_Some. by apply (ti_node _ Hv) in H.
  - intros r s n m [_ H]%lookup_delete_Some [_ H']%lookup_delete_Some. by apply (ti_uniq _ Hv).
  - intros r n q [_ H]%lookup_delete_Some Hq. destruct (ti_parent _ Hv r n q H Hq) as (? & m & Hm & ?).
    split; [done|]. exists m. split; [|done]. apply lookup_delete_Some. split; [|done]. intros ->. by apply (Hup r n H).
  - intros q m c r [_ H]%lookup_delete_Some Hc. destruct (ti_alive _ Hv q m c r H Hc) as (n & Hn & ?). exists n. split; [|done].
    apply lookup_delete_Some. split; [|done]. intros ->. by apply (Hup q m H) in Hc.
  - intros q m c r [_ H]%lookup_delete_Some Hc. destruct (ti_zombie _ Hv q m c r H Hc) as (n & Hn & ?). exists n. split; [|done].
    apply lookup_delete_Some. split; [|done]. intros ->. by apply (Hup q m H) in Hc.
  - intros t th Ht. destruct (ti_thread _ Hv t th Ht) as (? & n & Hn & ?). split; [done|]. exists n. split; [|done].
    apply lookup_delete_Some. split; [|done]. intros E. by apply (Hut t th Ht).
  - apply (ti_thread_uniq _ Hv).
  - intros r n [_ H]%lookup_delete_Some. by apply (ti_live _ Hv).
Qed.

Lemma sum_list_0 (l : list nat) x : sum_list l = O → x ∈ l → x = O.
Proof. induction l as [|y l IH]; simpl; intros H; [set_solver|]. intros [-> | ?]%elem_of_cons; [lia|]. apply IH; [lia|done]. Qed.
Lemma filter_length_0 {A} (P : A → Prop) `{∀ x, Decision (P x)} (l : list A) x :
  length (filter P l) = O → x ∈ l → ¬ P x.
Proof. intros Hl Hx HP. apply nil_length_inv in Hl. assert (Hin : x ∈ filter P l) by (by apply list_elem_of_filter). rewrite Hl in Hin. set_solver. Qed.
Lemma child_refs_0 m p c : child_refs m p = O → m !! c ≠ Some p.
Proof.
  unfold child_refs. intros Hl Hc. apply elem_of_map_to_list in Hc. by apply (filter_length_0 _ _ _ Hl Hc).
Qed.
Lemma strong_count_0 k p : strong_count k p = O → unreferenced (tv k) p.
Proof.
  unfold strong_count. intros H. apply Nat.eq_add_0 in H as [Hs Hl]. split.
  - intros q m Hm. destruct (tv_proc _ _ _ Hm) as (pr & Hpr & ->).
    assert (Hr : refs_from (inner pr) p = O).
    { apply (sum_list_0 _ _ Hs). apply list_elem_of_fmap. exists (q, pr). split; [done|]. by apply elem_of_map_to_list. }
    unfold refs_from in Hr. destruct (decide (parent (inner pr) = Some p)); [lia|]. cbn.
    split_and!; [done|intros c; apply child_refs_0; lia|intros c; apply child_refs_0; lia].
  - intros t th Ht Ep. apply elem_of_map_to_list in Ht. by apply (filter_length_0 _ _ _ Hl Ht).
Qed.

Lemma drop_inv B q0 cur v p : inv B q0 cur v → unreferenced v p → inv B q0 cur (view_drop v p).
Proof. intros [H1 [S1 S2 S3] H3 H4] Hu. split; [by apply drop_tree|done|done|done]. Qed.

Lemma runs_for_each {A} v (f : A → K unit) l (J : tview → Prop) :
  J v → (∀ x v', x ∈ l → J v' → runs v' (f x) (λ _, J)) → runs v (for_each l f) (λ _, J).
Proof.
  revert v. induction l as [|x l IH]; intros v HJ Hf; [by apply runs_ret|]. cbn [for_each].
  eapply runs_bind; [apply Hf; [set_solver|done]|]. intros ? v' HJ'. apply IH; [done|]. intros y v'' Hy. apply Hf. set_solver.
Qed.

(** Dropping a reference keeps what the removal of an unreferenced process
    keeps. *)
Section release.
Context (J : tview → Prop) (HJ : ∀ v p, J v → unreferenced v p → J (view_drop v p)).

Lemma runs_unlink v p (d : M mm unit) (l : list Z) f :
  J v → unreferenced v p → (∀ x v', J v' → runs v' (f x) (λ _, J)) →
  runs v (modify (λ k, k_set_procs k (delete p (procs k))) ;; in_mm d ;; for_each l f) (λ _, J).
Proof.
  intros Hv Hu Hf.
  assert (Hr : runs v (modify (λ k, k_set_procs k (delete p (procs k)))) (λ _ v', v' = view_drop v p)).
  { intros k1 b k1' <- [= <- <-]. unfold tv, view_drop. cbn. by rewrite fmap_delete. }
  eapply runs_bind; [exact Hr|]. intros _ v' ->.
  eapply runs_keeps_bind; [apply keeps_in_mm|]. intros _ _.
  apply runs_for_each; [by apply HJ|]. intros x v'' _. apply Hf.
Qed.
Lemma runs_release fuel : ∀ p v, J v → runs v (proc_release fuel p) (λ _, J).
Proof.
  induction fuel as [|fuel IH]; intros p v Hv; [by apply runs_ret|]. cbn [proc_release].
  intros k a k' Hk H. rewrite (bind_run _ _ k k k) in H by done.
  destruct (procs k !! p) as [pr|] eqn:Hp; [|by injection H as <- <-; rewrite Hk].
  destruct (decide (strong_count k p = O)) as [Hc|]; [|by injection H as <- <-; rewrite Hk].
  apply strong_count_0 in Hc. rewrite Hk in Hc.
  refine (runs_unlink v p _ _ _ Hv Hc _ k a k' Hk H). intros x v'' Hv''. by apply IH.
Qed.
Lemma runs_drop_proc_ref p v : J v → runs v (drop_proc_ref p) (λ _, J).
Proof. intros Hv. unfold drop_proc_ref. eapply runs_keeps_bind; [keep|]. intros k _. by apply runs_release. Qed.
End release.

(** What holds when a system call of thread [t] is over, or suspends: the
    invariant, and that a thread that goes on has not exited. *)
Definition call_post (B : Z) (q0 : list Z) (t : Z) (suspended : Prop) (v : tview) : Prop :=
  inv B q0 (Some t) v ∧ ∃ th, v_threads v !! t = Some th ∧ (suspended → exit th = false).

Section calls.
Context (B : Z) (q0 : list Z) (t : Z).
Abbreviation I := (inv B q0 (Some t)).

(** The thread that calls has not exited. *)
Definition calling (v : tview) : Prop := I v ∧ ∃ th, v_threads v !! t = Some th ∧ exit th = false.
Lemma calling_post s v : calling v → call_post B q0 t s v.
Proof. intros [H (th & ? & ?)]. split; [done|]. by exists th. Qed.

Definition exited (v : tview) : Prop := I v ∧ ∃ th, v_threads v !! t = Some th ∧ exit th = true.
Lemma exited_post v : exited v → call_post B q0 t False v.
Proof. intros [H (th & ? & ?)]. split; [done|]. by exists th. Qed.
Lemma runs_exit v code : calling v → runs v (sys_exit t code) (λ _, exited).
Proof.
  intros [Hv (th & Ht & He)] k a k' <- H.
  destruct (sys_exit_spec B q0 t k code th Hv Ht He) as [Hr|(k1 & th' & Hr & Hi & Ht' & ?)]; rewrite Hr in H; [done|].
  injection H as <- <-. split; [done|]. by exists th'.
Qed.

Lemma reap_calling v p m c : calling v → v_procs v !! p = Some m → calling (view_reap v p m c).
Proof. intros [[H1 [S1 S2 S3] H3 H4] Ht] Hm. split; [|done]. split; [by apply reap_tree|done|done|done]. Qed.
Lemma runs_drop_calling v p : calling v → runs v (drop_proc_ref p) (λ _, calling).
Proof.
  intros Hv. apply runs_drop_proc_ref; [|done]. clear. intros v p [Hv Ht] Hu. split; [by apply drop_inv|done].
Qed.

Lemma runs_my_pcb_put v p pcb n :
  self_is v t p → v_procs v !! p = Some n →
  runs v (my_pcb_put t pcb) (λ _ v', v' = mkView (<[p := node_pcb (tn_ppid n) pcb]> (v_procs v)) (v_threads v)
    (v_queue v) (v_pid_top v) (v_next_key v)).
Proof.
  intros Hp Hn. unfold my_pcb_put. eapply runs_keeps_bind; [apply keeps_self_proc|]. intros p' Hp'.
  rewrite (self_is_unique _ _ _ _ Hp' Hp). by apply runs_pcb_put.
Qed.
Lemma runs_reap v status zpid zproc : calling v → runs v (reap t status zpid zproc) (λ _, calling).
Proof.
  intros Hv. unfold reap. do 2 (eapply runs_keeps_bind; [keep|]; intros ? _).
  eapply runs_keeps_bind; [apply keeps_my_pcb|]. intros pcb (p & Hp & m & Hm & E1 & E2 & E3 & E4 & E5).
  eapply runs_bind; [by eapply runs_my_pcb_put|]. intros ? v' ->.
  apply runs_drop_calling. replace (node_pcb _ _) with (node_reap zpid m); [by apply reap_calling|].
  unfold node_pcb, node_of, node_reap. cbn. congruence.
Qed.
Lemma runs_waitpid_any v status options : calling v → runs v (waitpid_any t status options) (λ _, calling).
Proof.
  intros Hv. unfold waitpid_any. eapply runs_keeps_bind; [keep|]. intros pcb _.
  destruct (btree_first _) as [[zpid zproc]|].
  - eapply runs_bind; [by apply runs_reap|]. intros ? v' Hv'. by apply runs_ret.
  - by case_match; apply runs_ret.
Qed.
Lemma runs_waitpid v w status options : calling v → runs v (sys_waitpid t w status options) (λ _, calling).
Proof.
  intros Hv. unfold sys_waitpid. eapply runs_keeps_bind; [keep|]. intros pcb _.
  destruct (_ =? 0); [by apply runs_ret|]. destruct (_ =? -1); [by apply runs_waitpid_any|].
  destruct (_ !! _); [|by apply runs_ret]. eapply runs_bind; [by apply runs_reap|]. intros ? v' Hv'. by apply runs_ret.
Qed.

(** A program that cannot be loaded ends the process. *)
Lemma runs_exec ld ss en af sf v buf argv :
  calling v → runs v (sys_exec ld ss en af sf t buf argv) (λ _, call_post B q0 t False).
Proof.
  intros Hv. unfold sys_exec. eapply runs_keeps_bind; [keep|]. intros path _.
  eapply runs_keeps_bind; [keep|]. intros [dir n] _. eapply runs_keeps_bind; [keep|]. intros argvs _.
  destruct (if ends_with _ _ then _ else _) as [path' argvs']. eapply runs_keeps_bind; [keep|]. intros [i|] _.
  - eapply runs_keeps_bind; [keep|]. intros node _. destruct (en _).
    + eapply runs_keeps; [apply keeps_exec_from_elf|]. intros a _. by apply calling_post.
    + eapply runs_keeps_bind; [keep|]. intros ? _. eapply runs_bind; [by apply runs_exit|].
      intros ? v' Hv'. by apply runs_ret, exited_post.
  - eapply runs_keeps_bind; [keep|]. intros ? _. eapply runs_bind; [by apply runs_exit|].
      intros ? v' Hv'. by apply runs_ret, exited_post.
Qed.

(** The outcome of a call, which may have made one process. *)
Definition outcome_post (r : Z + pending) : tview → Prop := call_post (B + 1) q0 t (∃ p, r = inr p).

Lemma inv_up v : I v → inv (B + 1) q0 (Some t) v.
Proof. intros [? ? ? ?]. split; [done|done|lia|done]. Qed.
Lemma calling_outcome r v : calling v → outcome_post r v.
Proof. intros [H (th & ? & ?)]. split; [by apply inv_up|]. by exists th. Qed.
Lemma at_once_post v m : runs v m (λ _, call_post B q0 t False) → runs v (at_once m) outcome_post.
Proof.
  intros Hm. eapply runs_bind; [exact Hm|]. intros a v' [Hi (th & Ht & _)]. apply runs_ret. split; [by apply inv_up|].
  exists th. split; [done|]. by intros [? ?].
Qed.
Lemma at_once_keeps v m : calling v → keeps v m any → runs v (at_once m) outcome_post.
Proof. intros Hv Hm. eapply runs_keeps_bind; [exact Hm|]. intros a _. apply runs_ret. by apply calling_outcome. Qed.
Lemma ret_outcome v r : calling v → runs v (ret r) outcome_post.
Proof. intros Hv. apply runs_ret. by apply calling_outcome. Qed.
Lemma suspend_keeps {A} v (m : K A) f : calling v → keeps v m any → runs v (let* r := m in ret (f r)) outcome_post.
Proof. intros Hv Hm. eapply runs_keeps_bind; [exact Hm|]. intros a _. by apply ret_outcome. Qed.
Lemma at_once_exit v code : calling v → runs v (at_once (sys_exit t code)) outcome_post.
Proof. intros Hv. apply at_once_post. eapply runs_weaken; [|by apply runs_exit]. intros ?. apply exited_post. Qed.
Lemma at_once_clone v ld ula flags stack ptid tls ctid :
  B < 2 ^ 64 - 1 → calling v → runs v (at_once (sys_clone ld ula t flags stack ptid tls ctid)) outcome_post.
Proof.
  intros HB [Hv (th & Ht & He)]. eapply runs_bind.
  - apply runs_clone; [|by apply inv_tree in Hv]. apply inv_top in Hv. lia.
  - intros a v' (_ & p & m & _ & Hm & ->). apply runs_ret. split; [by apply clone_inv_step|]. exists th. split; [|done].
    cbn. rewrite lookup_insert_ne; [done|]. intros E. apply inv_tree in Hv. apply (ti_thread _ Hv) in Ht. lia.
Qed.
Lemma runs_resume v p : calling v → runs v (resume t p) outcome_post.
Proof.
  intros Hv. destruct p; cbn [resume].
  1, 2, 4: by apply suspend_keeps; eauto with keeps.
  - eapply runs_bind; [by apply runs_waitpid_any|]. intros r v' Hv'. by apply ret_outcome.
  - by apply ret_outcome.
Qed.

Ltac call_leaf :=
  first [ apply ret_outcome; assumption | apply at_once_exit; assumption | apply at_once_clone; assumption
        | apply at_once_post, runs_exec; assumption
        | apply at_once_keeps; [assumption|solve [eauto with keeps]]
        | apply at_once_keeps; [assumption|keep] ].

Lemma runs_syscall ld ula ss en af sf pad mnt v id args :
  B < 2 ^ 64 - 1 → calling v → runs v (syscall ld ula ss en af sf pad mnt t id args) outcome_post.
Proof.
  intros HB Hv. unfold syscall. cbv zeta. repeat case_match; try call_leaf.
  all: first
    [ by apply suspend_keeps; eauto with keeps
    | eapply runs_keeps_bind; [solve [eauto with keeps]|]; intros; cbv beta;
      first [ by apply suspend_keeps; eauto with keeps
            | do 2 (eapply runs_keeps_bind; [solve [eauto with keeps]|]; intros; cbv beta); by apply runs_resume ]
    | eapply runs_keeps_bind; [keep|]; intros; eapply runs_bind; [by apply runs_waitpid|]; intros; by apply ret_outcome ].
Qed.

(** *** One iteration of [user_loop] *)
Definition end_post (e : loop_end) : tview → Prop :=
  match e with
  | Again_ | Suspend _ => λ v, inv (B + 1) q0 (Some t) v ∧ ∃ th, v_threads v !! t = Some th ∧ exit th = false
  | Finish => λ v, inv (B + 1) q0 (Some t) v ∧ ∃ th, v_threads v !! t = Some th ∧ exit th = true
  end.
Lemma calling_again v : calling v → end_post Again_ v.
Proof. intros [H Ht]. split; [by apply inv_up|done]. Qed.

Lemma runs_after_syscall v r : outcome_post r v → runs v (after_syscall t r) end_post.
Proof.
  intros [Hi (th & Ht & Hs)]. destruct r as [r|p]; cbn [after_syscall].
  - unfold syscall_return. eapply runs_keeps_bind; [solve [eauto with keeps]|]. intros ? _.
    eapply runs_keeps_bind; [apply keeps_thread_get|]. intros th' Ht'. cbv beta in Ht'. rewrite Ht in Ht'.
    injection Ht' as <-. apply runs_ret. destruct (exit th) eqn:He; (split; [done|by exists th]).
  - apply runs_ret. split; [done|]. exists th. split; [done|]. apply Hs. by exists p.
Qed.

Lemma runs_handle_trap ld ula ss en af sf pad mnt v tr :
  B < 2 ^ 64 - 1 → calling v → runs v (handle_trap ld ula ss en af sf pad mnt t tr) end_post.
Proof.
  intros HB Hv.
  assert (Hkill : ∀ s pc, runs v
    (println s ;; println pc ;; println (fault_name (cause tr)) ;; sys_exit t 0 ;; ret Finish) end_post).
  { intros s pc. do 3 (eapply runs_keeps_bind; [solve [eauto with keeps]|]; intros ? _).
    eapply runs_bind; [by apply runs_exit|]. intros ? v' [Hi Ht]. apply runs_ret. split; [by apply inv_up|done]. }
  unfold handle_trap. destruct (cause tr).
  1: { do 9 (eapply runs_keeps_bind; [solve [eauto with keeps]|]; intros ? _).
       eapply runs_bind; [by apply runs_syscall|]. intros r v' Hr. by apply runs_after_syscall. }
  1, 2, 3, 4: eapply runs_keeps_bind; [apply keeps_my_pcb|]; intros ? _;
       eapply runs_keeps_bind; [solve [eauto with keeps]|]; intros ? _; apply Hkill.
  - eapply runs_keeps_bind; [solve [eauto with keeps]|]. intros ? _. by apply runs_ret, calling_again.
  - eapply runs_keeps_bind; [keep|]. intros ? _. by apply runs_ret, calling_again.
  - by intros k a k' _ H.
Qed.
Lemma runs_user_loop_iter ld ula ss en af sf pad mnt v user tr :
  B < 2 ^ 64 - 1 → calling v → runs v (user_loop_iter ld ula ss en af sf pad mnt t user tr) end_post.
Proof.
  intros HB Hv. unfold user_loop_iter. eapply runs_keeps_bind; [solve [eauto with keeps]|]. intros ? _.
  eapply runs_keeps_bind; [keep|]. intros ? _. eapply runs_keeps_bind; [solve [eauto with keeps]|]. intros ? _.
  by apply runs_handle_trap.
Qed.
End calls.

(** *** The end of a thread *)
Definition view_end (v : tview) (t : Z) : tview :=
  mkView (v_procs v) (delete t (v_threads v)) (v_queue v) (v_pid_top v) (v_next_key v).

Lemma end_tree v t th : tree_inv v → v_threads v !! t = Some th → exit th = true → tree_inv (view_end v t).
Proof.
  intros Hv Ht He. split; cbn [v_procs v_threads v_queue v_pid_top v_next_key view_end];
    [apply (ti_node _ Hv)|apply (ti_uniq _ Hv)|apply (ti_parent _ Hv)|apply (ti_alive _ Hv)|apply (ti_zombie _ Hv)| | |].
  - intros u uh [_ Hu]%lookup_delete_Some. by apply (ti_thread _ Hv).
  - intros u1 u2 uh1 uh2 [_ H1]%lookup_delete_Some [_ H2]%lookup_delete_Some. by apply (ti_thread_uniq _ Hv).
  - intros p n Hn Hz. destruct (ti_live _ Hv p n Hn Hz) as (u & uh & Hu & Ep). exists u, uh. split; [|done].
    apply lookup_delete_Some. split; [|done]. intros ->. destruct (ti_thread _ Hv u th Ht) as (_ & n' & Hn' & Hz').
    apply Hz. rewrite Ht in Hu. injection Hu as ->. rewrite Ep, Hn in Hn'. injection Hn' as ->. by apply Hz'.
Qed.
Lemma end_inv B q0 t v th :
  inv B q0 (Some t) v → v_threads v !! t = Some th → exit th = true → inv B q0 None (view_end v t).
Proof.
  intros [H1 [S1 S2 S3] H3 H4] Ht He. cbn in S1. apply NoDup_cons in S1 as [Hnot S1].
  split; [by eapply end_tree| |done|done]. split; cbn [option_list app v_queue v_threads view_end]; [done| |].
  - intros u. destruct (decide (u = t)) as [->|Hne].
    + rewrite lookup_delete_eq. split; [by intros [? ?]|by intros ?%Hnot].
    + rewrite lookup_delete_ne by done. rewrite S2. cbn. rewrite elem_of_cons. naive_solver.
  - intros u uh [Hne Hu]%lookup_delete_Some Hue. apply (S3 u uh) in Hue; congruence.
Qed.
Lemma runs_thread_drop B q0 t v th :
  inv B q0 (Some t) v → v_threads v !! t = Some th → exit th = true →
  runs v (thread_drop t) (λ _, inv B q0 None).
Proof.
  intros Hv Ht He. unfold thread_drop. eapply runs_keeps_bind; [apply keeps_thread_get|]. intros th' _.
  eapply (runs_bind _ _ _ (λ _, inv B q0 None)).
  - intros k a k' <- [= <- <-]. by eapply (end_inv B q0 t (tv k)).
  - intros ? v' Hv'. apply runs_drop_proc_ref; [|done]. intros. by apply drop_inv.
Qed.

(** *** Configurations *)
Definition config_ok (B : Z) (q0 : list Z) (c : config) : Prop :=
  inv B q0 (current c) (tv (kern c)) ∧ ∀ t th, threads (kern c) !! t = Some th → exit th = false.

Lemma inv_none_exit B q0 v t th : inv B q0 None v → v_threads v !! t = Some th → exit th = false.
Proof. intros [_ [_ _ S3] _ _] Ht. destruct (exit th) eqn:E; [|done]. by apply (S3 t th) in E. Qed.
Lemma suspend_inv B q0 t v th :
  inv B q0 (Some t) v → v_threads v !! t = Some th → exit th = false →
  inv B q0 None (mkView (v_procs v) (v_threads v) (v_queue v ++ [t]) (v_pid_top v) (v_next_key v)).
Proof.
  intros [[] [S1 S2 S3] H3 H4] Ht He. change (NoDup (t :: v_queue v)) in S1. split; [by split| |done|by apply prefix_app_r].
  split; cbn [option_list app v_queue v_threads].
  - change (NoDup (v_queue v ++ [t])). apply NoDup_cons in S1 as [Hnot Hnd]. apply NoDup_app. split; [exact Hnd|]. split; [|apply NoDup_singleton].
    intros u Hu [->|[]%not_elem_of_nil]%elem_of_cons. done.
  - intros u. rewrite S2. cbn. set_solver.
  - intros u uh Hu Hue. pose proof (S3 u uh Hu Hue) as [= ->]. cbn in *. congruence.
Qed.

Lemma after_poll_ok B q0 ts t e k c k' :
  end_post B q0 t e (tv k) → after_poll ts t e k = Ok (c, k') → config_ok (B + 1) q0 c.
Proof.
  destruct e as [|p|]; cbn [end_post after_poll].
  - intros [Hi (th & Ht & He)] [= <- _]. split; [done|]. intros u uh Hu. destruct (exit uh) eqn:E; [|done].
    destruct Hi as [_ [_ _ S3] _ _]. pose proof (S3 u uh Hu E) as [= ->]. cbn in Ht, Hu. congruence.
  - intros [Hi (th & Ht & He)] [= <- _]. assert (Hs := suspend_inv _ _ _ _ _ Hi Ht He). split; [exact Hs|].
    intros u uh Hu. by apply (inv_none_exit _ _ _ u uh Hs).
  - intros [Hi (th & Ht & He)] ([] & k1 & H1 & [= <- _])%bind_Ok.
    assert (Hs : inv (B + 1) q0 None (tv k1)) by (by eapply (runs_thread_drop _ _ _ _ _ Hi Ht He)).
    split; [exact Hs|]. intros u uh Hu. by apply (inv_none_exit _ _ _ u uh Hs).
Qed.
Lemma run_after_ok B q0 ts t m k c :
  runs (tv k) m (end_post B q0 t) → run_after ts t m k = Ok c → config_ok (B + 1) q0 c.
Proof.
  intros Hm. unfold run_after. destruct (bind m _ k) as [[c' k']|] eqn:E; [|done]. intros [= <-].
  apply bind_Ok in E as (e & k1 & H1 & H2). eapply after_poll_ok; [|exact H2]. by apply (Hm k e k1).
Qed.

(** The next task is the head of the queue. *)
Lemma fetch_ok B q0 c c' :
  config_ok B q0 c → current c = None → fetch_step c = Ok c' → config_ok B (tail q0) c'.
Proof.
  intros [[H1 [S1 S2 S3] H3 H4] He] Hc. rewrite Hc in *. unfold fetch_step, TaskQueue_fetch, bind, get.
  destruct (queue (kern c)) as [|t q] eqn:Hq; intros [= <-].
  - split; [|done]. cbn [current kern]. split; [done|done|done|]. cbn [v_queue tv] in H4. rewrite Hq in H4.
    apply prefix_nil_inv in H4 as ->. apply prefix_nil.
  - split; [|done]. cbn [current kern option_list app v_queue tv v_threads] in *. rewrite Hq in *.
    split; cbn; [by destruct H1| |done|].
    + split; [done|done|]. intros u uh Hu Hue. by apply (S3 u uh) in Hue.
    + destruct q0 as [|t0 q0]; [apply prefix_nil|]. by apply prefix_cons_inv_2 in H4.
Qed.

Lemma config_calling B q0 c t :
  config_ok B q0 c → current c = Some t → calling B q0 t (tv (kern c)).
Proof.
  intros [Hi He] Hc. rewrite Hc in Hi. split; [done|]. destruct Hi as [_ [_ S2 _] _ _].
  destruct (proj2 (S2 t)) as [th Ht]; [cbn; set_solver|]. exists th. split; [done|]. by apply (He t th).
Qed.
Lemma config_ok_weaken B q0 c : config_ok B q0 c → config_ok (B + 1) [] c.
Proof. intros [[H1 H2 H3 H4] He]. split; [|done]. split; [done|done|lia|apply prefix_nil]. Qed.

Section machine.
Context (ld : linker_symbols) (user_loop_addr sstatus0 : Z) (elf_new : list Z → option ElfFile).
Context (arg_fuel str_fuel : nat) (pad : list Z) (mnt : disk_env).
Abbreviation step_ := (step ld user_loop_addr sstatus0 elf_new arg_fuel str_fuel pad mnt).
Abbreviation reachable_ := (reachable ld user_loop_addr sstatus0 elf_new arg_fuel str_fuel pad mnt).

Lemma poll_ok B q0 c c' t :
  B < 2 ^ 64 - 1 → config_ok B q0 c → current c = Some t → step_ c (Ok c') → config_ok (B + 1) q0 c'.
Proof.
  intros HB Hok Hc Hs. assert (Hcall := config_calling _ _ _ _ Hok Hc). inversion Hs; simplify_eq; try congruence.
  - eapply run_after_ok; [|done]. by apply runs_user_loop_iter.
  - eapply run_after_ok; [|done].
    eapply runs_bind; [by apply runs_resume|]. intros r v' Hr. by apply runs_after_syscall.
Qed.
Lemma step_ok B c c' : B < 2 ^ 64 - 1 → config_ok B [] c → step_ c (Ok c') → config_ok (B + 1) [] c'.
Proof.
  intros HB Hok Hs. destruct (current c) as [t|] eqn:Hc; [by eapply poll_ok|].
  inversion Hs; simplify_eq; try congruence. apply config_ok_weaken with (q0 := []). by apply (fetch_ok B [] c).
Qed.
Lemma reachable_ok B c0 n c :
  config_ok B [] c0 → reachable_ c0 n c → B + Z.of_nat n < 2 ^ 64 → config_ok (B + Z.of_nat n) [] c.
Proof.
  intros H0 Hr. induction Hr as [|n c c' Hr IH Hs]; intros Hn; [by rewrite Z.add_0_r|].
  rewrite Nat2Z.inj_succ in *. replace (B + Z.succ (Z.of_nat n)) with (B + Z.of_nat n + 1) by lia.
  eapply step_ok; [lia|apply IH; lia|done].
Qed.
End machine.
