(* ===== verification/Sched.v ===== *)
(** * The running system

    What holds of every configuration the booted kernel reaches: the process
    tree is well formed and the scheduler loses no thread; an exit never
    panics; a queued thread is polled after those before it. *)

From S2P Require Import Prelude Addr PhysMem FrameAlloc PageTable MemorySet Fork ElfLoad VirtioBlock Inode Fd Kernel SysProc SysFs Syscall Machine ProcTree Mount.

(** ** The booted system *)
Definition empty_view (nk : Z) : tview := mkView ∅ ∅ [] 0 nk.
(** The first process has no parent and one queued thread. *)
Definition boot_view (nk : Z) : tview :=
  mkView {[nk := mkNode 0 0 READY None ∅ ∅]} {[nk + 1 := mkThread 0 nk false]} [nk + 1] 1 (nk + 2).

Lemma boot_inv nk : inv 1 [] None (boot_view nk).
Proof.
  split; [split| |cbn; lia|apply prefix_nil]; unfold boot_view; cbn.
  - intros p n [<- <-]%lookup_singleton_Some. cbn. lia.
  - intros p q n m [<- <-]%lookup_singleton_Some [<- <-]%lookup_singleton_Some. done.
  - by intros p n q [<- <-]%lookup_singleton_Some.
  - by intros q m c p [<- <-]%lookup_singleton_Some.
  - by intros q m c p [<- <-]%lookup_singleton_Some.
  - intros t th [<- <-]%lookup_singleton_Some. cbn. split; [lia|]. eexists. rewrite lookup_singleton_eq. done.
  - by intros t1 t2 th1 th2 [<- <-]%lookup_singleton_Some [<- <-]%lookup_singleton_Some.
  - intros p n [<- <-]%lookup_singleton_Some _. exists (nk + 1). eexists. by rewrite lookup_singleton_eq.
  - split; cbn.
    + apply NoDup_singleton.
    + intros t. rewrite list_elem_of_singleton. split; [intros [th [<- _]%lookup_singleton_Some]; done|intros ->].
      rewrite lookup_singleton_eq. by eexists.
    + by intros t th [<- <-]%lookup_singleton_Some.
Qed.

Section boot.
Context (ld : linker_symbols) (sstatus0 : Z) (elf_new : list Z → option ElfFile).

Lemma keeps_insert_file T path name content : keeps T (insert_file path name content) any.
Proof. unfold insert_file. keep. Qed.

Lemma runs_crate_task nk bin :
  runs (empty_view nk) (crate_task_from_elf ld sstatus0 elf_new bin) (λ _ v', v' = boot_view nk).
Proof.
  unfold crate_task_from_elf. eapply runs_keeps_bind; [keep|]. intros elf _.
  eapply runs_bind; [by apply runs_alloc_pid|]. intros pid' v1 [-> ->].
  eapply runs_keeps_bind; [apply keeps_PCB_new|]. intros pcb (Hp & Hs & Hpar & Hch).
  eapply runs_keeps_bind; [keep|]. intros [[[pt hp] us] en] _.
  do 3 (eapply runs_keeps_bind; [solve [eauto with keeps]|]; intros ? _).
  do 4 (eapply runs_keeps_bind; [keep|]; intros ? _).
  cbv zeta. eapply runs_bind; [apply runs_proc_arc|]. intros np v2 [-> Hv2].
  eapply runs_weaken; [|apply runs_spawn]. intros ? v3 ->. rewrite Hv2. unfold boot_view, empty_view. cbn.
  f_equal; [|lia]. unfold node_of. cbn. by rewrite Hp, Hs, Hpar, Hch.
Qed.
Lemma runs_load_core_program nk shell init :
  runs (empty_view nk) (load_core_program ld sstatus0 elf_new shell init) (λ _ v', v' = boot_view nk).
Proof.
  unfold load_core_program. eapply runs_keeps_bind; [apply keeps_insert_file|]. intros ? _.
  eapply runs_bind; [apply runs_crate_task|]. intros ? v' ->. eapply runs_keeps; [apply keeps_insert_file|]. done.
Qed.

(** The kernel enters its main loop with the first process loaded into empty
    tables. *)
Definition boots (shell init : list Z) (k0 : kernel) (c : config) : Prop :=
  (procs k0 = ∅ ∧ threads k0 = ∅ ∧ queue k0 = [] ∧ pid_top k0 = 0) ∧
  ∃ k, load_core_program ld sstatus0 elf_new shell init k0 = Ok (tt, k) ∧ c = mkConfig k ∅ None.

Lemma boots_ok shell init k0 c : boots shell init k0 c → config_ok 1 [] c.
Proof.
  intros [(Hp & Ht & Hq & Htop) (k & Hrun & ->)].
  assert (Hv : tv k0 = empty_view (next_key k0)) by (unfold tv, empty_view; by rewrite Hp, Ht, Hq, Htop, fmap_empty).
  apply runs_load_core_program with (nk := next_key k0) in Hrun; [|done].
  assert (Hi := boot_inv (next_key k0)). rewrite <- Hrun in Hi. split; [exact Hi|].
  intros t th Hth. by apply (inv_none_exit _ _ _ t th Hi).
Qed.
End boot.

(** ** Running *)
Section running.
Context (ld : linker_symbols) (user_loop_addr sstatus0 : Z) (elf_new : list Z → option ElfFile).
Context (arg_fuel str_fuel : nat) (pad : list Z) (mnt : disk_env).
Abbreviation step_ := (step ld user_loop_addr sstatus0 elf_new arg_fuel str_fuel pad mnt).
Abbreviation reachable_ := (reachable ld user_loop_addr sstatus0 elf_new arg_fuel str_fuel pad mnt).

(** The tree is well formed; each thread is the one that runs or is queued
    once; no thread that has exited is left. *)
Definition system_ok (c : config) : Prop :=
  tree_inv (tv (kern c)) ∧ sched_inv (current c) (tv (kern c)) ∧
  ∀ t th, threads (kern c) !! t = Some th → exit th = false.

Lemma config_system_ok B q0 c : config_ok B q0 c → system_ok c.
Proof. intros [[H1 H2 _ _] He]. done. Qed.

Lemma config_steps B q0 c : config_ok B q0 c → ∃ r, step_ c r.
Proof.
  intros Hok. destruct (current c) as [t|] eqn:Hc; [|by eexists; apply step_fetch].
  destruct (config_calling _ _ _ _ Hok Hc) as [Hi (th & Ht & _)].
  destruct (ti_thread _ (inv_tree _ _ _ _ Hi) t th Ht) as (_ & n & Hn & _). destruct (tv_proc _ _ _ Hn) as (pr & Hpr & _).
  destruct (task_of c t) as [|p] eqn:Htask.
  - eexists. eapply (step_user _ _ _ _ _ _ _ _ c t th pr id (mkTrap OtherTrap 0)); [done..|]. by intros ppn [].
  - eexists. by eapply step_resume.
Qed.

(** Runs that count the polls: [polls c0 n j c] if [n] steps lead from [c0] to
    [c], and [j] of them took a task from the queue. *)
Inductive polls (c0 : config) : nat → nat → config → Prop :=
  | polls_refl : polls c0 O O c0
  | polls_fetch n j c c' : polls c0 n j c → current c = None → step_ c (Ok c') → polls c0 (S n) (S j) c'
  | polls_poll n j c c' t : polls c0 n j c → current c = Some t → step_ c (Ok c') → polls c0 (S n) j c'.

Lemma tail_drop {A} j (l : list A) : tail (drop j l) = drop (S j) l.
Proof. revert l. induction j as [|j IH]; intros [|x l]; try done. apply IH. Qed.
Lemma polls_queue B q c0 n j c :
  config_ok B q c0 → polls c0 n j c → B + Z.of_nat n < 2 ^ 64 → config_ok (B + Z.of_nat n) (drop j q) c.
Proof.
  intros H0 Hr. induction Hr as [|n j c c' Hr IH Hc Hs|n j c c' t Hr IH Hc Hs]; intros Hn;
    [by rewrite Z.add_0_r, drop_0| |];
    rewrite Nat2Z.inj_succ in *; replace (B + Z.succ (Z.of_nat n)) with (B + Z.of_nat n + 1) by lia.
  - inversion Hs; simplify_eq; try congruence. specialize (IH ltac:(lia)).
    assert (Hok : config_ok (B + Z.of_nat n) (tail (drop j q)) c') by (by apply (fetch_ok _ _ c)).
    rewrite <- tail_drop.
    destruct Hok as [[I1 I2 I3 I4] He]. split; [|done]. split; [done|done|lia|done].
  - eapply poll_ok; [lia|apply IH; lia|done|done].
Qed.

(** What an exit does. *)
Lemma exit_result B q0 t k code th :
  inv B q0 (Some t) (tv k) → threads k !! t = Some th → exit th = false →
  ∃ th pr, threads k !! t = Some th ∧ procs k !! thread_proc th = Some pr ∧
  match parent (inner pr) with
  | None => sys_exit t code k = Fault Shutdown
  | Some q => ∃ k' prq pr', sys_exit t code k = Ok (0, k') ∧
      tree_inv (tv k') ∧ sched_inv (Some t) (tv k') ∧
      procs k' !! thread_proc th = Some pr' ∧ state (inner pr') = ZOMBIE ∧
      procs k' !! q = Some prq ∧ alive (children (inner prq)) !! pid (inner pr) = None ∧
      zombie (children (inner prq)) !! pid (inner pr) = Some (thread_proc th)
  end.
Proof.
  intros Hi Ht He. assert (Htree := inv_tree _ _ _ _ Hi).
  destruct (ti_thread _ Htree t th Ht) as (Hkey & n & Hn & Hz). destruct (tv_proc _ _ _ Hn) as (pr & Hpr & ->).
  exists th, pr. split_and!; [done|done|]. destruct (parent (inner pr)) as [q|] eqn:Hq; [|by eapply sys_exit_init].
  destruct (ti_parent _ Htree _ _ q Hn Hq) as (Hlt & m & Hm & Hal). destruct (tv_proc _ _ _ Hm) as (prq & Hprq & ->).
  assert (Hnz : state (inner pr) ≠ ZOMBIE) by (intros E; apply Hz in E; congruence).
  destruct (sys_exit_run k t code th pr q prq (thread_proc th)) as (k' & Hrun & Hv); try done; [lia|by apply Hal|].
  destruct (sys_exit_spec B q0 t k code th Hi Ht He) as [?|(k1 & th' & Hr' & [T1 S1 _ _] & _)]; [congruence|].
  assert (k1 = k') as -> by congruence.
  destruct (tv_proc k' (thread_proc th) (node_exit (node_of pr))) as (pr' & Hpr' & E1).
  { rewrite Hv. cbn. rewrite lookup_insert_ne by lia. apply lookup_insert_eq. }
  destruct (tv_proc k' q (node_bury (pid (inner pr)) (thread_proc th) (node_of prq))) as (prq' & Hprq' & E2).
  { rewrite Hv. cbn. apply lookup_insert_eq. }
  injection E1 as _ _ E1 _ _ _. injection E2 as _ _ _ _ E3 E4.
  exists k', prq', pr'. rewrite <- E1, <- E3, <- E4, lookup_delete_eq, lookup_insert_eq. done.
Qed.

(** C1. Whatever the programs do, each configuration the booted kernel reaches
    is well formed, as long as no more than [2^64 - 3] steps were made (process
    ids do not wrap before): process ids are unique, each child knows its parent
    and the parent lists it, alive or as a zombie, as its state says; each
    process that has not exited has one thread; each thread is queued once or
    runs; no thread that has exited stays.  And it can make another step. *)
Theorem system_invariant shell init k0 c0 n c :
  boots ld sstatus0 elf_new shell init k0 c0 → reachable_ c0 n c → Z.of_nat n < 2 ^ 64 - 2 →
  system_ok c ∧ ∃ r, step_ c r.
Proof.
  intros Hb Hr Hn. apply boots_ok in Hb.
  assert (Hok : config_ok (1 + Z.of_nat n) [] c) by (eapply reachable_ok; [done|done|lia]).
  split; [by eapply config_system_ok|by eapply config_steps].
Qed.

(** C17. The exit of a running thread never panics: it shuts the machine down
    if the process has no parent, and else the process becomes a zombie that its
    parent lists no longer as alive; the system stays well formed. *)
Theorem sys_exit_never_panics shell init k0 c0 n c t code :
  boots ld sstatus0 elf_new shell init k0 c0 → reachable_ c0 n c → Z.of_nat n < 2 ^ 64 - 2 → current c = Some t →
  ∃ th pr, threads (kern c) !! t = Some th ∧ procs (kern c) !! thread_proc th = Some pr ∧
  match parent (inner pr) with
  | None => sys_exit t code (kern c) = Fault Shutdown
  | Some q => ∃ k' prq pr', sys_exit t code (kern c) = Ok (0, k') ∧
      tree_inv (tv k') ∧ sched_inv (Some t) (tv k') ∧
      procs k' !! thread_proc th = Some pr' ∧ state (inner pr') = ZOMBIE ∧
      procs k' !! q = Some prq ∧ alive (children (inner prq)) !! pid (inner pr) = None ∧
      zombie (children (inner prq)) !! pid (inner pr) = Some (thread_proc th)
  end.
Proof.
  intros Hb Hr Hn Hc. apply boots_ok in Hb.
  assert (Hok : config_ok (1 + Z.of_nat n) [] c) by (eapply reachable_ok; [done|done|lia]).
  destruct (config_calling _ _ _ _ Hok Hc) as [Hi (th & Ht & He)].
  by eapply exit_result.
Qed.

(** C16. Round robin: a thread with [length pre] threads before it in the queue
    is the next one to run once as many tasks were taken from the queue and the
    last one suspended or ended, whatever was queued meanwhile. *)
Theorem round_robin shell init k0 c0 n c pre t post m c1 :
  boots ld sstatus0 elf_new shell init k0 c0 → reachable_ c0 n c →
  queue (kern c) = pre ++ t :: post →
  polls c m (length pre) c1 → current c1 = None → Z.of_nat n + Z.of_nat m < 2 ^ 64 - 2 →
  ∃ c2, step_ c1 (Ok c2) ∧ current c2 = Some t ∧ ∀ r, step_ c1 r → r = Ok c2.
Proof.
  intros Hb Hr Hq Hp Hc1 Hn. apply boots_ok in Hb.
  assert (Hok : config_ok (1 + Z.of_nat n) [] c) by (eapply reachable_ok; [done|done|lia]).
  assert (Hok' : config_ok (1 + Z.of_nat n) (pre ++ t :: post) c).
  { destruct Hok as [[H1 H2 H3 _] He]. split; [|done]. split; [done..|]. cbn. by rewrite Hq. }
  apply (polls_queue _ _ _ _ _ _ Hok') in Hp; [|lia]. rewrite drop_app_length in Hp.
  destruct Hp as [[_ _ _ [q Hpre]] _]. cbn in Hpre.
  exists (mkConfig (k_set_queue (kern c1) (post ++ q)) (tasks c1) (Some t)).
  assert (Hf : fetch_step c1 = Ok (mkConfig (k_set_queue (kern c1) (post ++ q)) (tasks c1) (Some t))).
  { unfold fetch_step, TaskQueue_fetch, bind, get. by rewrite Hpre. }
  split_and!; [rewrite <- Hf; by apply step_fetch|done|]. intros r Hs. inversion Hs; simplify_eq; congruence.
Qed.
End running.

(** ** A boot *)
Definition witness_k0 : kernel :=
  let '(ms, s) := match MemorySet_new_bare witness_s0 with Ok r => r | Fault _ => (mkMS (mkPT 0 []) [], witness_s0) end in
  mkKernel s (mkFs ∅ ∅ ∅ (mkConsole [] []) 0) ms ∅ ∅ [] 0 0 (λ _, 0) O.
Definition witness_elf_new (bin : list Z) : option ElfFile := Some witness_elf.
Definition boot_config (ld : linker_symbols) (elf_new : list Z → option ElfFile) (k0 : kernel) : config :=
  mkConfig (match load_core_program ld 0 elf_new [] [] k0 with Ok (_, k) => k | Fault _ => k0 end) ∅ None.
Lemma boots_intro ld en k0 :
  procs k0 = ∅ ∧ threads k0 = ∅ ∧ queue k0 = [] ∧ pid_top k0 = 0 →
  match load_core_program ld 0 en [] [] k0 with Ok _ => True | Fault _ => False end →
  boots ld 0 en [] [] k0 (boot_config ld en k0).
Proof.
  intros H0 H. split; [exact H0|]. unfold boot_config.
  destruct (load_core_program ld 0 en [] [] k0) as [[[] k]|]; [by exists k|destruct H].
Qed.
Lemma boot_config_view ld en k0 :
  boots ld 0 en [] [] k0 (boot_config ld en k0) → tv (kern (boot_config ld en k0)) = boot_view (next_key k0).
Proof.
  intros [(Hp & Ht & Hq & Htop) (k & Hrun & ->)]. cbn [kern].
  apply runs_load_core_program with (nk := next_key k0) in Hrun; [done|].
  unfold tv, empty_view. by rewrite Hp, Ht, Hq, Htop, fmap_empty.
Qed.

Lemma witness_boots : boots witness_ld 0 witness_elf_new [] [] witness_k0 (boot_config witness_ld witness_elf_new witness_k0).
Proof.
  apply boots_intro; [|vm_compute; exact Logic.I]. split_and!; vm_compute; reflexivity.
Qed.

Definition no_disk : disk_env := mkDisk (list (list Z)) _ [] 0 0.
Abbreviation wstep := (step witness_ld 0 0 witness_elf_new 0 0 [] no_disk).
Abbreviation wc0 := (boot_config witness_ld witness_elf_new witness_k0).
(** The first thread, polled. *)
Definition first_poll (c : config) : config := mkConfig (k_set_queue (kern c) []) ∅ (Some 1).
Lemma fetch_first ld en k0 :
  boots ld 0 en [] [] k0 (boot_config ld en k0) → next_key k0 = 0 →
  fetch_step (boot_config ld en k0) = Ok (first_poll (boot_config ld en k0)).
Proof.
  intros Hb Hn. assert (Hq : queue (kern (boot_config ld en k0)) = [1]).
  { change (queue (kern (boot_config ld en k0))) with (v_queue (tv (kern (boot_config ld en k0)))).
    rewrite boot_config_view by done. by rewrite Hn. }
  unfold fetch_step, TaskQueue_fetch, bind, get. by rewrite Hq.
Qed.
Lemma witness_step : wstep wc0 (Ok (first_poll wc0)).
Proof. rewrite <- (fetch_first _ _ _ witness_boots); [by apply step_fetch|vm_compute; reflexivity]. Qed.

Lemma system_invariant_witness : system_ok (first_poll wc0) ∧ ∃ r, wstep (first_poll wc0) r.
Proof.
  apply (system_invariant witness_ld 0 0 witness_elf_new 0 0 [] no_disk [] [] witness_k0 wc0 1).
  - exact witness_boots.
  - eapply reach_step; [apply reach_refl|exact witness_step].
  - lia.
Defined.
Lemma sys_exit_never_panics_witness :
  ∃ th pr, threads (kern (first_poll wc0)) !! 1 = Some th ∧ procs (kern (first_poll wc0)) !! thread_proc th = Some pr.
Proof.
  destruct (sys_exit_never_panics witness_ld 0 0 witness_elf_new 0 0 [] no_disk [] [] witness_k0 wc0 1 (first_poll wc0) 1 0)
    as (th & pr & Ht & Hp & _).
  - exact witness_boots.
  - eapply reach_step; [apply reach_refl|exact witness_step].
  - lia.
  - reflexivity.
  - exists th, pr. exact (conj Ht Hp).
Defined.
Lemma round_robin_witness : ∃ c2, wstep wc0 (Ok c2) ∧ current c2 = Some 1.
Proof.
  assert (Hq : queue (kern wc0) = [] ++ 1 :: []).
  { change (queue (kern wc0)) with (v_queue (tv (kern wc0))). rewrite (boot_config_view _ _ _ witness_boots).
    vm_compute. reflexivity. }
  destruct (round_robin witness_ld 0 0 witness_elf_new 0 0 [] no_disk [] [] witness_k0 wc0 0 wc0 [] 1 [] 0 wc0)
    as (c2 & Hs & Hc & _).
  - exact witness_boots.
  - apply reach_refl.
  - exact Hq.
  - apply polls_refl.
  - reflexivity.
  - lia.
  - exists c2. exact (conj Hs Hc).
Defined.
