(* ===== verification/FsTyped.v ===== *)
(** * The file store is well typed

    Processes refer to open files, open files and the dentry cache to inodes.
    In the code these references are [Arc]s; in the model they are keys of the
    store, and this file shows that they always lead to an object: no system
    call, whatever its arguments, leaves a dangling descriptor or directory
    entry, and every process keeps its descriptors 0, 1 and 2. *)

From S2P Require Import Prelude Addr PhysMem FrameAlloc PageTable UserMem MemorySet Fork ElfLoad Inode FatItem Fat FatDir FatFile Fd VirtioBlock Mount Kernel SysProc SysFs Syscall Machine Sched.

(** ** Typing *)
Definition valid_inode (s : fstore) (i : Z) : Prop := is_Some (inodes s !! i).
Definition valid_file (s : fstore) (a : Z) : Prop := is_Some (open_files s !! a).
Record valid_fds (s : fstore) (f : FdManager) : Prop := {
  vf_files : Forall (valid_file s) (fd_array f);
  vf_std : (3 ≤ length (fd_array f))%nat;
}.
Record store_ok (s : fstore) : Prop := {
  so_files a c : open_files s !! a = Some c → valid_inode s (of_inode (cell_file c));
  so_dentries p i : dentries s !! p = Some i → valid_inode s i;
}.
Record kernel_typed (k : kernel) : Prop := {
  kt_store : store_ok (k_fs k);
  kt_procs p pr : procs k !! p = Some pr → valid_fds (k_fs k) (fd_manager (inner pr));
}.

(** The store only grows. *)
Record store_le (s s' : fstore) : Prop := {
  le_inodes i : valid_inode s i → valid_inode s' i;
  le_files a : valid_file s a → valid_file s' a;
}.
#[export] Instance store_le_preorder : PreOrder store_le.
Proof. split; [by split|]. intros s1 s2 s3 [A1 A2] [B1 B2]. split; auto. Qed.
Lemma valid_fds_le s s' f : store_le s s' → valid_fds s f → valid_fds s' f.
Proof. intros [_ H] [Hf H3]. split; [|done]. eapply Forall_impl; [exact Hf|]. intros a. apply H. Qed.

(** ** Triples

    Code on a state with a store [st s] and the typing [OK]: run where the
    store is at least [w], it keeps the typing, the store grows, and the
    result satisfies [Q] with the new store. *)
Section triple.
Context {S : Type} (st : S → fstore) (OK : S → Prop).

Definition typed {A} (w : fstore) (m : M S A) (Q : fstore → A → Prop) : Prop :=
  ∀ s a s', store_le w (st s) → OK s → m s = Ok (a, s') → OK s' ∧ store_le (st s) (st s') ∧ Q (st s') a.
Definition top {A} : fstore → A → Prop := λ _ _, True.

Lemma typed_bind {A B} w (m : M S A) (f : A → M S B) Q R :
  typed w m Q → (∀ w' a, store_le w w' → Q w' a → typed w' (f a) R) → typed w (bind m f) R.
Proof.
  intros Hm Hf s b s' Hw Hok (a & s1 & H1 & H2)%bind_Ok. destruct (Hm s a s1 Hw Hok H1) as (Hok1 & Hle & HQ).
  assert (Hw1 : store_le w (st s1)) by (by transitivity (st s)).
  destruct (Hf (st s1) a Hw1 HQ s1 b s') as (? & ? & ?); try done. split_and!; try done. by transitivity (st s1).
Qed.
Lemma typed_weaken {A} w (m : M S A) (Q R : fstore → A → Prop) : (∀ w' a, Q w' a → R w' a) → typed w m Q → typed w m R.
Proof. intros HQ Hm s a s' Hw Hok Hr. destruct (Hm s a s' Hw Hok Hr) as (? & ? & ?). auto. Qed.
Lemma typed_top {A} w (m : M S A) Q : typed w m Q → typed w m top.
Proof. by apply typed_weaken. Qed.
Lemma typed_ret {A} w (a : A) (Q : fstore → A → Prop) : (∀ w', store_le w w' → Q w' a) → typed w (ret a) Q.
Proof. intros HQ s b s' Hw Hok [= <- <-]. split_and!; [done|done|]. by apply HQ. Qed.
Lemma typed_ret_top {A} w (a : A) : typed w (ret a) top.
Proof. by apply typed_ret. Qed.
Lemma typed_throw {A} w f (Q : fstore → A → Prop) : typed w (throw f) Q.
Proof. by intros s a s' _ _. Qed.
Lemma typed_lift {A} w (o : outcome A) (Q : fstore → A → Prop) :
  (∀ a w', o = Ok a → store_le w w' → Q w' a) → typed w (lift o) Q.
Proof. intros HQ s a s' Hw Hok [Ho ->]%lift_Ok. split_and!; [done|done|]. by apply HQ. Qed.
Lemma typed_lift_top {A} w (o : outcome A) : typed w (lift o) top.
Proof. by apply typed_lift. Qed.
Lemma typed_le {A} w w' (m : M S A) Q : store_le w w' → typed w m Q → typed w' m Q.
Proof. intros Hle Hm s a s' Hw. apply Hm. by transitivity w'. Qed.
Lemma typed_for_each {A} (f : A → M S unit) l : ∀ w, (∀ w' x, store_le w w' → typed w' (f x) top) → typed w (for_each l f) top.
Proof.
  induction l as [|x l IH]; intros w Hf; [apply typed_ret_top|]. cbn [for_each]. eapply typed_bind; [by apply Hf|].
  intros w' [] Hle _. apply IH. intros w'' y Hle'. apply Hf. by transitivity w'.
Qed.
Lemma typed_fold_m {A B} (f : B → A → M S B) (P : fstore → B → Prop) l :
  (∀ w w' b, store_le w w' → P w b → P w' b) → ∀ w b, P w b →
  (∀ w' b x, store_le w w' → P w' b → typed w' (f b x) P) → typed w (fold_m f l b) P.
Proof.
  intros HP. induction l as [|x l IH]; intros w b Hb Hf; [apply typed_ret; intros; by eapply HP|]. cbn [fold_m].
  eapply typed_bind; [by apply Hf|]. intros w' b' Hle Hb'. apply IH; [done|]. intros w'' b'' y Hle'. apply Hf. by transitivity w'.
Qed.
Lemma typed_fold_m_top {A B} (f : B → A → M S B) l w b :
  (∀ w' b x, store_le w w' → typed w' (f b x) top) → typed w (fold_m f l b) top.
Proof. intros Hf. apply (typed_fold_m f top); [done|done|]. intros w' b' x Hle _. by apply Hf. Qed.
Lemma typed_get w : typed w get top.
Proof. intros s a s' Hw Hok [= <- <-]. done. Qed.
End triple.

(** ** The store *)
Abbreviation fs_typed := (typed (@id fstore) store_ok).

Lemma zoom_typed {S A} (st : S → fstore) (OK : S → Prop) (l : lens S fstore) w (m : FS A) Q :
  (∀ s, OK s → store_ok (view l s)) → (∀ s, st s = view l s) →
  (∀ s x, OK s → store_ok x → store_le (view l s) x → OK (update l x s) ∧ st (update l x s) = x) →
  fs_typed w m Q → typed st OK w (zoom l m) Q.
Proof.
  intros H1 H2 H3 Hm s a s' Hw Hok H. unfold zoom in H. destruct (m (view l s)) as [[b x]|] eqn:E; [|done].
  injection H as <- <-. rewrite H2 in Hw. destruct (Hm (view l s) b x Hw (H1 s Hok) E) as (Hx & Hle & HQ).
  destruct (H3 s x Hok Hx Hle) as [HOK Hst]. split; [done|]. by rewrite Hst, H2.
Qed.

Lemma fs_inode_new w i : fs_typed w (inode_new i) valid_inode.
Proof.
  intros s a s' Hw [H1 H2] H. unfold inode_new, bind, get, put, ret in H. injection H as <- <-. unfold id in *.
  assert (Hm : ∀ j, valid_inode s j → is_Some (<[next_arc s:=i]> (inodes s) !! j)).
  { intros j Hj. destruct (decide (j = next_arc s)) as [->|]; [rewrite lookup_insert_eq|rewrite lookup_insert_ne by done]; eauto. }
  split_and!.
  - split; cbn; unfold valid_inode; cbn; eauto.
  - split; unfold valid_inode, valid_file; cbn; eauto.
  - unfold valid_inode. cbn. rewrite lookup_insert_eq. eauto.
Qed.
Lemma fs_inode_get w i : fs_typed w (inode_get i) top.
Proof. unfold inode_get. eapply typed_bind; [apply typed_get|]. intros. apply typed_lift_top. Qed.
Lemma fs_with_inode {A} w i (m : iom inode A) : fs_typed w (with_inode i m) top.
Proof.
  intros s a s' Hw [H1 H2] H. unfold with_inode in H. destruct (inodes s !! i) as [n|] eqn:Ei; [|done].
  destruct (m (n, console s)) as [[b [i' c']]|]; [|done]. injection H as <- <-. unfold id in *.
  assert (Hm : ∀ j, valid_inode s j → is_Some (<[i:=i']> (inodes s) !! j)).
  { intros j Hj. destruct (decide (j = i)) as [->|]; [rewrite lookup_insert_eq|rewrite lookup_insert_ne by done]; eauto. }
  split_and!; [split; cbn; unfold valid_inode; cbn; eauto|split; unfold valid_inode, valid_file; cbn; eauto|done].
Qed.
Lemma fs_open_file_arc w o : valid_inode w (of_inode o) → fs_typed w (open_file_arc o) valid_file.
Proof.
  intros Ho s a s' Hw [H1 H2] H. unfold open_file_arc, bind, get, put, ret in H. injection H as <- <-. unfold id in *.
  split_and!.
  - split; cbn; [|exact H2]. intros a c [[<- <-]|[_ Hc]]%lookup_insert_Some; [by apply Hw|by apply (H1 a)].
  - split; unfold valid_inode, valid_file; cbn; [done|]. intros a Ha.
    destruct (decide (a = next_arc s)) as [->|]; [rewrite lookup_insert_eq; eauto|by rewrite lookup_insert_ne].
  - unfold valid_file. cbn. rewrite lookup_insert_eq. eauto.
Qed.
(** Changing a cell that is there. *)
Lemma cell_update s a c c' :
  store_ok s → open_files s !! a = Some c → valid_inode s (of_inode (cell_file c')) →
  store_ok (fs_set_open_files s (<[a := c']> (open_files s))) ∧ store_le s (fs_set_open_files s (<[a := c']> (open_files s))).
Proof.
  intros [H1 H2] Hc Hi. split.
  - split; cbn; [|exact H2]. intros b x [[<- <-]|[_ Hx]]%lookup_insert_Some; [done|by apply (H1 b)].
  - split; unfold valid_inode, valid_file; cbn; [done|]. intros b Hb.
    destruct (decide (b = a)) as [->|]; [rewrite lookup_insert_eq; eauto|by rewrite lookup_insert_ne].
Qed.
Lemma fs_of_set_locked w a b : fs_typed w (of_set_locked a b) top.
Proof.
  intros s r s' Hw Hok H. unfold of_set_locked, bind, get, lift, unwrap, put in H. destruct (open_files s !! a) as [c|] eqn:E; [|done].
  injection H as <- <-. destruct (cell_update s a c (mkCell (cell_file c) b) Hok E); [exact (so_files _ Hok a c E)|]. done.
Qed.
Lemma fs_of_get w a : fs_typed w (of_get a) (λ w' o, valid_inode w' (of_inode o)).
Proof.
  intros s r s' Hw Hok H. unfold of_get, bind, get, lift, unwrap, ret in H. destruct (open_files s !! a) as [c|] eqn:E; [|done].
  injection H as <- <-. split_and!; [done|done|]. by apply (so_files _ Hok a).
Qed.
Lemma fs_of_put w a o : valid_inode w (of_inode o) → fs_typed w (of_put a o) top.
Proof.
  intros Ho s r s' Hw Hok H. unfold of_put, bind, get, lift, unwrap, put in H. destruct (open_files s !! a) as [c|] eqn:E; [|done].
  injection H as <- <-. destruct (cell_update s a c (mkCell o (cell_locked c)) Hok E); [by apply Hw|]. done.
Qed.
Lemma fs_dentry_get w p :
  fs_typed w (GlobalDentryCache_get p) (λ w' r, match r with Some i => valid_inode w' i | None => True end).
Proof.
  intros s r s' Hw Hok [= <- <-]. split_and!; [done|done|]. unfold id. destruct (dentries s !! p) eqn:E; [|done].
  by apply (so_dentries _ Hok p).
Qed.
Lemma fs_dentry_insert w p i : valid_inode w i → fs_typed w (GlobalDentryCache_insert p i) top.
Proof.
  intros Hi s r s' Hw [H1 H2] H. unfold GlobalDentryCache_insert, bind, get, put, lift in H.
  destruct (unwrap _) as [x|] in H; [|done]. injection H as <- <-. split_and!; [|by split|done].
  split; cbn; [exact H1|]. intros q j [[<- <-]|[_ Hj]]%lookup_insert_Some; [by apply Hw|by apply (H2 q)].
Qed.
Lemma fs_console_typed {A} w (m : M Console A) : fs_typed w (zoom fs_console m) top.
Proof.
  intros s a s' Hw [H1 H2] H. unfold zoom in H. destruct (m _) as [[b c]|]; [|done]. injection H as <- <-. done.
Qed.

(** ** Automation

    [ty] goes through the code: each call by a lemma of the database, the facts
    about references carried along as the store grows. *)
Create HintDb typed.
Ltac advance Hle :=
  repeat match type of Hle with
  | store_le ?w ?w' =>
      match goal with
      | H : valid_inode w _ |- _ => apply (le_inodes _ _ Hle) in H
      | H : valid_file w _ |- _ => apply (le_files _ _ Hle) in H
      | H : valid_fds w _ |- _ => apply (valid_fds_le _ _ _ Hle) in H
      end
  end.
Ltac ty_side := intros; repeat match goal with H : store_le _ _ |- _ => progress (advance H) end; cbn; eauto with typed.
Ltac ty_next := let Hle := fresh "Hle" in let HQ := fresh "HQ" in intros ? ? Hle HQ; advance Hle; clear Hle; cbv beta in *.
Ltac ty_leaf := first [ apply typed_lift_top | apply typed_get | solve [eauto 4 with typed] ].
Ltac ty :=
  match goal with
  | |- typed _ _ _ (bind _ _) _ => first [ eapply typed_bind; [ty_leaf|ty_next; ty] | eapply (typed_bind _ _ _ _ _ top); [ty|ty_next; ty] ]
  | |- typed _ _ _ (ret _) ?Q => first [apply typed_ret_top|apply typed_ret; ty_side]
  | |- typed _ _ _ (throw _) _ => apply typed_throw
  | |- typed _ _ _ (match ?x with _ => _ end) _ => destruct x; ty
  | |- typed _ _ _ (let _ := _ in _) _ => cbv zeta; ty
  | |- typed _ _ _ (for_each _ _) top => apply typed_for_each; intros; cbv beta; ty
  | |- typed _ _ _ (fold_m _ _ _) top => apply typed_fold_m_top; intros; cbv beta; ty
  | |- _ => first [ ty_leaf | eapply typed_top; ty_leaf ]
  end.
#[export] Hint Resolve fs_inode_new fs_inode_get fs_with_inode fs_open_file_arc fs_of_set_locked fs_of_get fs_of_put
  fs_dentry_get fs_dentry_insert fs_console_typed : typed.

(** ** Open files and descriptors *)
Lemma fs_of_lock w a : fs_typed w (of_lock a) top.
Proof. unfold of_lock. ty. Qed.
Lemma fs_of_unlock w a : fs_typed w (of_unlock a) top.
Proof. apply fs_of_set_locked. Qed.
Lemma fs_of_set_offset w a off : fs_typed w (of_set_offset a off) top.
Proof. unfold of_set_offset. ty. Qed.
Lemma fs_new_null_file w : fs_typed w new_null_file valid_file.
Proof. unfold new_null_file, OpenFile_new. eapply (typed_bind _ _ _ _ _ (λ w o, valid_inode w (of_inode o))); [ty|ty_next; ty]. Qed.
#[export] Hint Resolve fs_of_lock fs_of_unlock fs_of_set_offset fs_new_null_file : typed.

Lemma fs_FdManager_new w : fs_typed w FdManager_new valid_fds.
Proof.
  unfold FdManager_new, OpenFile_new_stdin, OpenFile_new_stdout, OpenFile_new_stderr.
  do 3 (eapply (typed_bind _ _ _ _ _ (λ w o, valid_inode w (of_inode o))); [ty|ty_next];
        eapply typed_bind; [ty_leaf|ty_next]).
  apply typed_ret. intros w1 Hle. advance Hle. split; cbn; [|lia]. by repeat constructor.
Qed.
Lemma valid_fds_set w v fd a v' :
  valid_fds w (mkFdManager v) → valid_file w a → set_idx v fd a = Ok v' → valid_fds w (mkFdManager v').
Proof.
  intros [Hv H3] Ha H. unfold set_idx in H. case_match; [|done]. injection H as <-. cbn in *.
  split; cbn; [by apply Forall_insert|]. by rewrite length_insert.
Qed.
Lemma valid_fds_push w f a : valid_fds w f → valid_file w a → valid_fds w (FdManager_push f a).1.
Proof. intros [Hv H3] Ha. split; cbn; [|rewrite length_app; lia]. apply Forall_app. by repeat constructor. Qed.
Lemma valid_fds_dup w f fd f' n : valid_fds w f → FdManager_dup f fd = Ok (f', n) → valid_fds w f'.
Proof.
  intros Hf H. unfold FdManager_dup, unwrap in H. destruct (FdManager_get f fd) as [a|] eqn:E; [|done].
  injection H as <- <-. apply (valid_fds_push w f a Hf). eapply Forall_lookup_1; [apply Hf|exact E].
Qed.
Lemma fs_FdManager_close w f fd : valid_fds w f → fs_typed w (FdManager_close f fd) valid_fds.
Proof.
  intros Hf. unfold FdManager_close. eapply typed_bind; [ty_leaf|ty_next].
  eapply (typed_bind _ _ _ _ _ (λ w v, valid_fds w (mkFdManager v))); [|ty_next; ty].
  apply typed_lift. intros v w1 Hs Hle. advance Hle. destruct f. by eapply valid_fds_set.
Qed.
Lemma fs_dup3_fill n new_fd : ∀ w v,
  valid_fds w (mkFdManager v) → fs_typed w (dup3_fill n v new_fd) (λ w v, valid_fds w (mkFdManager v)).
Proof.
  induction n as [|n IH]; intros w v Hv; cbn [dup3_fill]; case_match; [apply typed_throw|ty| |ty].
  eapply typed_bind; [ty_leaf|ty_next]. apply IH. by apply (valid_fds_push _ (mkFdManager v)).
Qed.
Lemma fs_FdManager_dup3 w f fd new_fd : valid_fds w f → fs_typed w (FdManager_dup3 f fd new_fd) (λ w r, valid_fds w r.1).
Proof.
  intros Hf. unfold FdManager_dup3. eapply (typed_bind _ _ _ _ _ valid_file); [|ty_next].
  { apply typed_lift. intros a w' H Hle. advance Hle. unfold unwrap in H. destruct (FdManager_get f fd) eqn:E; [|done].
    injection H as <-. eapply Forall_lookup_1; [apply Hf|exact E]. }
  eapply typed_bind; [apply fs_dup3_fill; by destruct f|ty_next].
  eapply (typed_bind _ _ _ _ _ (λ w v, valid_fds w (mkFdManager v))); [|ty_next; ty].
  apply typed_lift. intros v w1 Hs Hle. advance Hle. by eapply valid_fds_set.
Qed.
Lemma fs_FdManager_close_on_exec w f : valid_fds w f → fs_typed w (FdManager_close_on_exec f) valid_fds.
Proof.
  intros Hf. unfold FdManager_close_on_exec. eapply (typed_bind _ _ _ _ _ (λ w v, valid_fds w (mkFdManager v))); [|ty_next; ty].
  apply typed_fold_m; [|by destruct f|].
  { intros w1 w2 v Hle. by apply valid_fds_le. }
  intros w1 v i Hle Hv. unfold close_on_exec_at. do 4 (eapply typed_bind; [ty_leaf|ty_next]). case_match; [|ty].
  eapply typed_bind; [ty_leaf|ty_next]. apply typed_lift. intros v' w2 Hs Hle'. advance Hle'. by eapply valid_fds_set.
Qed.
#[export] Hint Resolve fs_FdManager_new fs_FdManager_close fs_FdManager_dup3 fs_FdManager_close_on_exec : typed.

(** ** Mounting *)
Section mount.
Context {D : Type} `{BlkDriver D} (fuel : nat).
Abbreviation m_typed := (typed (@snd D fstore) (λ s, store_ok s.2)).

Lemma mount_store {A} w (m : FS A) Q : fs_typed w m Q → m_typed w (zoom store_ m) Q.
Proof. apply zoom_typed; try done. Qed.
Lemma mount_disk {A} w (m : M D A) : m_typed w (zoom disk_ m) top.
Proof.
  intros [d s] a s' Hw Hok H'. unfold zoom in H'. destruct (m _) as [[b x]|]; [|done]. injection H' as <- <-. done.
Qed.
#[local] Hint Resolve mount_store mount_disk : typed.
Lemma mount_println_typed w s : m_typed w (mount_println s) top.
Proof. apply mount_store. ty. Qed.
#[local] Hint Resolve mount_println_typed : typed.
Lemma mount_file_typed w path name fp f : m_typed w (mount_file fuel path name fp f) top.
Proof. unfold mount_file. ty. Qed.
#[local] Hint Resolve mount_file_typed : typed.
Lemma mount_loop_typed sub n dir path : (∀ w d p, m_typed w (sub d p) top) →
  ∀ w iter lfn, m_typed w (mount_loop fuel n sub dir path iter lfn) top.
Proof.
  intros Hsub. induction n as [|n IH]; intros w iter lfn; cbn [mount_loop]; [apply typed_throw|].
  eapply typed_bind; [ty_leaf|ty_next]. destruct a as [[item|] it]; [|ty].
  eapply (typed_bind _ _ _ _ _ top); [|ty_next; by apply IH]. unfold mount_lfn. ty.
Qed.
Lemma full_search_mount_typed depth : ∀ w dir path, m_typed w (full_search_mount fuel depth dir path) top.
Proof.
  induction depth as [|depth IH]; intros w dir path; cbn [full_search_mount]; [apply typed_throw|].
  eapply typed_bind; [ty_leaf|ty_next]. by apply mount_loop_typed.
Qed.
Lemma mount_volume_typed w depth : m_typed w (mount_volume fuel depth) top.
Proof. unfold mount_volume. pose proof full_search_mount_typed. ty. Qed.
End mount.
Lemma fs_sys_mount w e : fs_typed w (sys_mount e) top.
Proof.
  assert (Hm := mount_volume_typed (H := disk_io e) (mount_fuel e) w (mount_depth e)). unfold sys_mount. revert Hm.
  generalize (mount_volume (H := disk_io e) (mount_fuel e) (mount_depth e)). intros m Hm s a s' Hw Hok H.
  destruct (m (the_disk e, s)) as [[b [d x]]|] eqn:E; [|done]. injection H as <- <-.
  exact (Hm (the_disk e, s) b (d, x) Hw Hok E).
Qed.

(** ** The kernel *)
Abbreviation k_typed := (typed k_fs kernel_typed).

Lemma typed_in_fs {A} w (m : FS A) Q : fs_typed w m Q → k_typed w (in_fs m) Q.
Proof.
  apply zoom_typed; [by intros s [? ?]|done|]. intros k x [Hs Hp] Hx Hle. split; [|done]. split; [done|].
  intros p pr Hpr. cbn in *. eapply valid_fds_le; [exact Hle|by eapply Hp].
Qed.
(** Code that leaves the store as it is, and the descriptors of each process
    that stays. *)
Lemma typed_frame {A} w (m : K A) :
  (∀ k a k', m k = Ok (a, k') → k_fs k' = k_fs k ∧ procs k' ⊆ procs k) → k_typed w m top.
Proof.
  intros Hm k a k' Hw [Hs Hp] H. destruct (Hm _ _ _ H) as [Ef Ep]. rewrite Ef. split_and!; [|done|done].
  split; rewrite Ef; [done|]. intros p pr Hpr. apply (Hp p). by eapply lookup_weaken.
Qed.
Lemma typed_in_mm {A} w (m : M mm A) : k_typed w (in_mm m) top.
Proof. apply typed_frame. intros k a k' H. unfold in_mm, zoom in H. destruct (m _) as [[b x]|]; [|done]. by injection H as <- <-. Qed.
Lemma typed_with_ram {A} w (f : pmem → outcome A) : k_typed w (with_ram f) top.
Proof. unfold with_ram. eapply typed_bind; [apply typed_get|ty_next; ty]. Qed.
Lemma typed_modify_ram w f : k_typed w (modify_ram f) top.
Proof. apply typed_in_mm. Qed.
Lemma typed_time_read w : k_typed w time_read top.
Proof. apply typed_frame. by intros k a k' [= <- <-]. Qed.
Lemma typed_alloc_pid w : k_typed w PidAllocator_alloc_pid top.
Proof. apply typed_frame. by intros k a k' [= <- <-]. Qed.
Lemma typed_TaskQueue_push w t : k_typed w (TaskQueue_push t) top.
Proof. apply typed_frame. by intros k a k' [= <- <-]. Qed.
Lemma typed_TaskQueue_fetch w : k_typed w TaskQueue_fetch top.
Proof. apply typed_frame. intros k a k' H. unfold TaskQueue_fetch, bind, get in H. case_match; by injection H as <- <-. Qed.
Lemma typed_thread_arc w t : k_typed w (thread_arc t) top.
Proof. apply typed_frame. by intros k a k' [= <- <-]. Qed.
Lemma typed_set_kernel_space w ks : k_typed w (modify (λ k, k_set_kernel_space k ks)) top.
Proof. apply typed_frame. by intros k a k' [= <- <-]. Qed.
Lemma typed_set_threads w f : k_typed w (modify (λ k, k_set_threads k (f k))) top.
Proof. apply typed_frame. by intros k a k' [= <- <-]. Qed.
Lemma typed_del_proc w p : k_typed w (modify (λ k, k_set_procs k (delete p (procs k)))) top.
Proof. apply typed_frame. intros k a k' [= <- <-]. split; [done|]. apply delete_subseteq. Qed.
Lemma typed_proc_get w p : k_typed w (proc_get p) (λ w' pr, valid_fds w' (fd_manager (inner pr))).
Proof.
  intros k a k' Hw Hk H. unfold proc_get, bind, get, lift, unwrap in H. destruct (procs k !! p) eqn:E; [|done].
  injection H as <- <-. split_and!; [done|done|]. by eapply (kt_procs _ Hk).
Qed.
Lemma typed_ins_proc w p pr : valid_fds w (fd_manager (inner pr)) → k_typed w (modify (λ k, k_set_procs k (<[p := pr]> (procs k)))) top.
Proof.
  intros Hv k a k' Hw [Hs Hp] [= <- <-]. split_and!; [|done|done]. split; [done|]. cbn.
  intros q x [[<- <-]|[_ Hx]]%lookup_insert_Some; [by eapply valid_fds_le|by eapply Hp].
Qed.
Lemma typed_pcb_put w p pcb : valid_fds w (fd_manager pcb) → k_typed w (pcb_put p pcb) top.
Proof. intros Hv. unfold pcb_put. eapply typed_bind; [apply typed_proc_get|ty_next]. by apply typed_ins_proc. Qed.
Lemma typed_proc_arc w pr : valid_fds w (fd_manager (inner pr)) → k_typed w (proc_arc pr) top.
Proof.
  intros Hv. unfold proc_arc, fresh_key. eapply (typed_bind _ _ _ _ _ top); [|ty_next].
  - apply typed_frame. by intros k a k' [= <- <-].
  - eapply typed_bind; [by apply typed_ins_proc|ty_next; ty].
Qed.
#[export] Hint Resolve fs_sys_mount typed_in_fs typed_in_mm typed_with_ram typed_modify_ram typed_time_read typed_alloc_pid
  typed_TaskQueue_push typed_TaskQueue_fetch typed_thread_arc typed_set_kernel_space typed_set_threads typed_del_proc
  typed_proc_get typed_pcb_put typed_proc_arc : typed.

(** ** Process calls *)
Section handlers.
Context (self : Z).

Lemma typed_thread_get w t : k_typed w (thread_get t) top.
Proof. unfold thread_get. ty. Qed.
#[local] Hint Resolve typed_thread_get : typed.
Lemma typed_self_proc w : k_typed w (self_proc self) top.
Proof. unfold self_proc. ty. Qed.
#[local] Hint Resolve typed_self_proc : typed.
Lemma typed_pcb_get w p : k_typed w (pcb_get p) (λ w' pcb, valid_fds w' (fd_manager pcb)).
Proof. unfold pcb_get. ty. Qed.
#[local] Hint Resolve typed_pcb_get : typed.
Lemma typed_my_pcb w : k_typed w (my_pcb self) (λ w' pcb, valid_fds w' (fd_manager pcb)).
Proof. unfold my_pcb. eapply typed_bind; [ty_leaf|ty_next; ty]. Qed.
Lemma typed_my_pcb_put w pcb : valid_fds w (fd_manager pcb) → k_typed w (my_pcb_put self pcb) top.
Proof. intros Hv. unfold my_pcb_put. ty. Qed.
#[local] Hint Resolve typed_my_pcb typed_my_pcb_put : typed.
Lemma typed_my_token w : k_typed w (my_token self) top.
Proof. unfold my_token. ty. Qed.
#[local] Hint Resolve typed_my_token : typed.
Lemma typed_translate w ptr : k_typed w (Thread_translate self ptr) top.
Proof. unfold Thread_translate. ty. Qed.
Lemma typed_read_str w f ptr : k_typed w (read_str f self ptr) top.
Proof. unfold read_str. ty. Qed.
Lemma typed_get_abs_path w path : k_typed w (Thread_get_abs_path self path) top.
Proof. unfold Thread_get_abs_path. ty. Qed.
#[local] Hint Resolve typed_translate typed_read_str typed_get_abs_path : typed.
Lemma typed_trapframe_of w ms : k_typed w (trapframe_of ms) top.
Proof. unfold trapframe_of. ty. Qed.
Lemma typed_insert_kernel_stack w p : k_typed w (insert_kernel_stack p) top.
Proof. unfold insert_kernel_stack. ty. Qed.
Lemma typed_spawn w t : k_typed w (spawn_user_loop t) top.
Proof. unfold spawn_user_loop. ty. Qed.
Lemma typed_PCB_new w : k_typed w PCB_new (λ w' pcb, valid_fds w' (fd_manager pcb)).
Proof. unfold PCB_new. ty. Qed.
#[local] Hint Resolve typed_trapframe_of typed_insert_kernel_stack typed_spawn typed_PCB_new : typed.

Lemma typed_clone w ld addr flags stack ptid tls ctid : k_typed w (sys_clone ld addr self flags stack ptid tls ctid) top.
Proof. unfold sys_clone. ty. Qed.
Lemma typed_thread_set_exit w : k_typed w (thread_set_exit self) top.
Proof. unfold thread_set_exit. ty. Qed.
#[local] Hint Resolve typed_thread_set_exit : typed.
Lemma typed_exit w code : k_typed w (sys_exit self code) top.
Proof. unfold sys_exit, shutdown. ty. Qed.
Lemma typed_proc_release fuel : ∀ w p, k_typed w (proc_release fuel p) top.
Proof. induction fuel as [|fuel IH]; intros w p; cbn [proc_release]; ty. Qed.
#[local] Hint Resolve typed_proc_release : typed.
Lemma typed_drop_proc_ref w p : k_typed w (drop_proc_ref p) top.
Proof. unfold drop_proc_ref. ty. Qed.
#[local] Hint Resolve typed_exit typed_drop_proc_ref : typed.
Lemma typed_reap w status zpid zproc : k_typed w (reap self status zpid zproc) top.
Proof. unfold reap. ty. Qed.
#[local] Hint Resolve typed_reap : typed.
Lemma typed_waitpid_any w status options : k_typed w (waitpid_any self status options) top.
Proof. unfold waitpid_any. ty. Qed.
#[local] Hint Resolve typed_waitpid_any : typed.
Lemma typed_waitpid w p status options : k_typed w (sys_waitpid self p status options) top.
Proof. unfold sys_waitpid. ty. Qed.
Lemma typed_exec_args af sf argv : ∀ w argc argvs, k_typed w (exec_args af sf self argv argc argvs) top.
Proof. induction af as [|af IH]; intros w argc argvs; cbn [exec_args]; ty. Qed.
#[local] Hint Resolve typed_exec_args : typed.
Lemma typed_push_word w st v : k_typed w (push_word st v) top.
Proof. unfold push_word. ty. Qed.
#[local] Hint Resolve typed_push_word : typed.
Lemma typed_push_arg w acc s : k_typed w (push_arg acc s) top.
Proof. unfold push_arg. ty. Qed.
#[local] Hint Resolve typed_push_arg : typed.
Lemma typed_exec_from_elf w ld ss elf argvs : k_typed w (exec_from_elf ld ss self elf argvs) top.
Proof. unfold exec_from_elf. ty. Qed.
#[local] Hint Resolve typed_exec_from_elf : typed.
Lemma typed_exec w ld ss en af sf buf argv : k_typed w (sys_exec ld ss en af sf self buf argv) top.
Proof. unfold sys_exec. ty. Qed.

(** ** File calls *)
Lemma typed_slice_read_ram w sl : k_typed w (slice_read_ram sl) top.
Proof. unfold slice_read_ram. ty. Qed.
Lemma typed_slice_write_ram w sl bs : k_typed w (slice_write_ram sl bs) top.
Proof. unfold slice_write_ram. ty. Qed.
#[local] Hint Resolve typed_slice_read_ram typed_slice_write_ram : typed.
Lemma typed_slice_set_ram w sl i b : k_typed w (slice_set_ram sl i b) top.
Proof. unfold slice_set_ram. ty. Qed.
Lemma typed_my_fd w fd : k_typed w (my_fd self fd) top.
Proof. unfold my_fd. ty. Qed.
Lemma typed_user_buffers w buf ln : k_typed w (user_buffers self buf ln) top.
Proof. unfold user_buffers. ty. Qed.
#[local] Hint Resolve typed_slice_set_ram typed_my_fd typed_user_buffers : typed.

Lemma typed_getcwd w buf size : k_typed w (sys_getcwd self buf size) top.
Proof. unfold sys_getcwd. ty. Qed.
Lemma typed_chdir w f path : k_typed w (sys_chdir f self path) top.
Proof. unfold sys_chdir. ty. Qed.
Lemma typed_openat w f dirfd path flags : k_typed w (sys_openat f self dirfd path flags) top.
Proof.
  unfold sys_openat. do 2 (eapply typed_bind; [ty_leaf|ty_next]). destruct a0 as [dir rel]. cbv zeta.
  eapply typed_bind; [ty_leaf|ty_next]. eapply (typed_bind _ _ _ _ _ valid_inode); [|ty_next].
  - destruct a0 as [i|]; [ty|]. do 3 (eapply typed_bind; [ty_leaf|ty_next]). ty.
  - destruct (openat_access _) as [r wr]. do 2 (eapply typed_bind; [ty_leaf|ty_next]).
    pose proof (valid_fds_push _ _ _ HQ4 HQ3). ty.
Qed.
Lemma typed_close w fd : k_typed w (sys_close self fd) top.
Proof. unfold sys_close. ty. Qed.
Lemma typed_dup_put w pcb fd : valid_fds w (fd_manager pcb) →
  k_typed w (let* '(fds, n) := lift (FdManager_dup (fd_manager pcb) fd) in
             my_pcb_put self (pcb_set_fds pcb fds) ;; ret (as_isize n)) top.
Proof.
  intros Hv. eapply (typed_bind _ _ _ _ _ (λ w r, valid_fds w r.1)); [|ty_next; ty].
  apply typed_lift. intros [f n] w' Hd Hle. advance Hle. by eapply valid_fds_dup.
Qed.
#[local] Hint Resolve typed_dup_put : typed.
Lemma typed_dup w fd : k_typed w (sys_dup self fd) top.
Proof. unfold sys_dup. eapply typed_bind; [ty_leaf|ty_next]. ty_leaf. Qed.
Lemma typed_dup3 w fd new_fd flags : k_typed w (sys_dup3 self fd new_fd flags) top.
Proof. unfold sys_dup3. do 2 (eapply typed_bind; [ty_leaf|ty_next]). ty. Qed.
Lemma typed_pipe2 w pipe : k_typed w (sys_pipe2 self pipe) top.
Proof.
  unfold sys_pipe2. do 3 (eapply typed_bind; [ty_leaf|ty_next]). cbn [FdManager_push]. cbv zeta.
  eapply typed_bind; [ty_leaf|ty_next].
  pose proof (valid_fds_push _ _ _ (valid_fds_push _ _ _ HQ HQ1) HQ2). cbn in *. ty.
Qed.
Lemma typed_write_buffers file bufs : ∀ w sum, k_typed w (write_buffers file bufs sum) top.
Proof. induction bufs as [|b bufs IH]; intros w sum; cbn [write_buffers]; ty. Qed.
#[local] Hint Resolve typed_write_buffers : typed.
Lemma typed_write w fd buf ln : k_typed w (sys_write self fd buf ln) top.
Proof. unfold sys_write. ty. Qed.
#[local] Hint Resolve typed_write : typed.
Lemma typed_writev w fd iov ln : k_typed w (sys_writev self fd iov ln) top.
Proof. unfold sys_writev. ty. Qed.
Lemma typed_read_buffers file bufs : ∀ w sum, k_typed w (read_buffers file bufs sum) top.
Proof. induction bufs as [|b bufs IH]; intros w sum; cbn [read_buffers]; ty. Qed.
#[local] Hint Resolve typed_read_buffers : typed.
Lemma typed_read w fd buf ln : k_typed w (sys_read self fd buf ln) top.
Proof. unfold sys_read. ty. Qed.
#[local] Hint Resolve typed_read : typed.
Lemma typed_readv_loop fd iov ln n : ∀ w i sum, k_typed w (readv_loop n self fd iov ln i sum) top.
Proof. induction n as [|n IH]; intros w i sum; cbn [readv_loop]; ty. Qed.
#[local] Hint Resolve typed_readv_loop : typed.
Lemma typed_readv_resume w st : k_typed w (sys_readv_resume self st) top.
Proof. unfold sys_readv_resume, sys_read_resume. ty. Qed.
Lemma typed_sendfile w o i p n : k_typed w (sys_sendfile self o i p n) top.
Proof. unfold sys_sendfile. ty. Qed.
Lemma typed_fstatat w pad f d p b fl : k_typed w (sys_fstatat pad f self d p b fl) top.
Proof. unfold sys_fstatat. ty. Qed.
Lemma typed_fstat w pad fd b : k_typed w (sys_fstat pad self fd b) top.
Proof. unfold sys_fstat. ty. Qed.
Lemma typed_mkdirat w f fd p mode : k_typed w (sys_mkdirat f self fd p mode) top.
Proof. unfold sys_mkdirat, mkdirat_step. ty. Qed.
Lemma typed_set_close_on_exec w file flag : k_typed w (set_close_on_exec file flag) top.
Proof. unfold set_close_on_exec, OpenFile_set_close_on_exec. ty. Qed.
#[local] Hint Resolve typed_set_close_on_exec : typed.
Lemma typed_fcntl w fd cmd arg : k_typed w (sys_fcntl self fd cmd arg) top.
Proof.
  unfold sys_fcntl. case_match; [ty|]. case_match; [|ty]. do 3 (eapply typed_bind; [ty_leaf|ty_next]). ty_leaf.
Qed.
Lemma typed_locked_get w file : k_typed w (locked_get file) top.
Proof. unfold locked_get. ty. Qed.
Lemma typed_locked_set_offset w file off : k_typed w (locked_set_offset file off) top.
Proof. unfold locked_set_offset. ty. Qed.
#[local] Hint Resolve typed_locked_get typed_locked_set_offset : typed.
Lemma typed_lseek w fd off wh : k_typed w (sys_lseek self fd off wh) top.
Proof. unfold sys_lseek. ty. Qed.
End handlers.
#[export] Hint Resolve typed_thread_get typed_pcb_get typed_my_pcb typed_my_pcb_put typed_translate typed_clone typed_exit
  typed_drop_proc_ref typed_waitpid_any typed_waitpid typed_exec typed_getcwd typed_chdir typed_openat typed_close typed_dup
  typed_dup3 typed_pipe2 typed_write typed_writev typed_read_buffers typed_read typed_readv_loop typed_readv_resume
  typed_sendfile typed_fstatat typed_fstat typed_mkdirat typed_fcntl typed_locked_get typed_my_fd typed_lseek
  typed_insert_kernel_stack typed_trapframe_of typed_spawn typed_PCB_new : typed.

(** ** The system *)
Section running.
Context (ld : linker_symbols) (user_loop_addr sstatus0 : Z) (elf_new : list Z → option ElfFile).
Context (arg_fuel str_fuel : nat) (pad : list Z) (mnt : disk_env).
Abbreviation syscall_ := (syscall ld user_loop_addr sstatus0 elf_new arg_fuel str_fuel pad mnt).
Abbreviation step_ := (step ld user_loop_addr sstatus0 elf_new arg_fuel str_fuel pad mnt).
Abbreviation reachable_ := (reachable ld user_loop_addr sstatus0 elf_new arg_fuel str_fuel pad mnt).

Lemma typed_brk w self b : k_typed w (sys_brk self b) top.
Proof. unfold sys_brk. ty. Qed.
Lemma typed_mmap w self a b c d e f : k_typed w (sys_mmap self a b c d e f) top.
Proof. unfold sys_mmap. ty. Qed.
Lemma typed_gettimeofday w self p : k_typed w (sys_gettimeofday self p) top.
Proof. unfold sys_gettimeofday, get_time_us. ty. Qed.
Lemma typed_times w self p : k_typed w (sys_times self p) top.
Proof. unfold sys_times. ty. Qed.
Lemma typed_getpid w self : k_typed w (sys_getpid self) top.
Proof. unfold sys_getpid, self_proc. ty. Qed.
Lemma typed_getppid w self : k_typed w (sys_getppid self) top.
Proof. unfold sys_getppid. ty. Qed.
#[local] Hint Resolve typed_brk typed_mmap typed_gettimeofday typed_times typed_getpid typed_getppid : typed.

Lemma typed_resume w self p : k_typed w (resume self p) top.
Proof. destruct p; unfold resume, sys_read_resume, nanosleep_wait, get_time_us; ty. Qed.
#[local] Hint Resolve typed_resume : typed.
Lemma typed_at_once {A} w (m : K Z) : k_typed w m top → k_typed w (at_once (A := A) m) top.
Proof. intros Hm. unfold at_once. ty. Qed.
Lemma typed_syscall w self id args : k_typed w (syscall_ self id args) top.
Proof.
  unfold syscall. cbv zeta. repeat case_match; try apply typed_ret_top; try (apply typed_at_once; ty_leaf).
  all: unfold sys_umount, sys_getdents64, sys_unlinkat, sys_munmap, sys_uname, sys_sigaction, sys_readv, sys_nanosleep, get_time_us.
  all: try (apply typed_at_once); ty.
Qed.
#[local] Hint Resolve typed_syscall : typed.

Lemma typed_tf_load w self i : k_typed w (tf_load self i) top.
Proof. unfold tf_load, tf_base. ty. Qed.
Lemma typed_tf_store w self i v : k_typed w (tf_store self i v) top.
Proof. unfold tf_store, tf_base. ty. Qed.
Lemma typed_println w s : k_typed w (println s) top.
Proof. unfold println. ty. Qed.
#[local] Hint Resolve typed_tf_load typed_tf_store typed_println : typed.
Lemma typed_after_syscall w self r : k_typed w (after_syscall self r) top.
Proof. unfold after_syscall, syscall_return. ty. Qed.
#[local] Hint Resolve typed_after_syscall : typed.
Lemma typed_handle_trap w self tr :
  k_typed w (handle_trap ld user_loop_addr sstatus0 elf_new arg_fuel str_fuel pad mnt self tr) top.
Proof. unfold handle_trap, get_time. ty. Qed.
#[local] Hint Resolve typed_handle_trap : typed.
Lemma typed_user_loop_iter w self user tr :
  k_typed w (user_loop_iter ld user_loop_addr sstatus0 elf_new arg_fuel str_fuel pad mnt self user tr) top.
Proof. unfold user_loop_iter, user_enter, user_leave, get_time_ms. ty. Qed.
Lemma typed_thread_drop w t : k_typed w (thread_drop t) top.
Proof. unfold thread_drop. ty. Qed.
#[local] Hint Resolve typed_thread_drop : typed.

(** The kernel of the configuration after a poll. *)
Lemma run_after_typed tasks' t m k c :
  (∀ w, k_typed w m top) → kernel_typed k → run_after tasks' t m k = Ok c → kernel_typed (kern c).
Proof.
  intros Hm Hk H. unfold run_after in H. destruct ((let* e := m in after_poll tasks' t e) k) as [[c' k']|] eqn:E; [|done].
  injection H as ->. apply bind_Ok in E as (e & k1 & H1 & H2).
  destruct (Hm (k_fs k) k e k1) as (Hk1 & _); [done..|]. assert (kern c = k') as ->; [|].
  { destruct e; cbn in H2; [by injection H2 as <- <-|by injection H2 as <- <-|].
    apply bind_Ok in H2 as ([] & k2 & _ & H2). by injection H2 as <- <-. }
  assert (Hp : k_typed (k_fs k1) (after_poll tasks' t e) top) by (unfold after_poll; ty).
  by destruct (Hp k1 c k') as (? & _).
Qed.
Lemma step_typed c c' : kernel_typed (kern c) → step_ c (Ok c') → kernel_typed (kern c').
Proof.
  intros Hk Hs. remember (Ok c') as r eqn:Hr. destruct Hs as [c _|c t th pr user tr _ _ _ _ _|c t p _ _].
  - unfold fetch_step in Hr. destruct (TaskQueue_fetch (kern c)) as [[o k]|] eqn:E; [|done].
    destruct (typed_TaskQueue_fetch (k_fs (kern c)) (kern c) o k) as (Hk' & _); [done..|]. destruct o; by injection Hr as <-.
  - eapply run_after_typed; [|exact Hk|exact Hr]. intros. apply typed_user_loop_iter.
  - eapply run_after_typed; [|exact Hk|exact Hr]. intros. ty.
Qed.
Lemma reachable_typed c0 n c : kernel_typed (kern c0) → reachable_ c0 n c → kernel_typed (kern c).
Proof. intros H0 Hr. induction Hr; [done|]. by eapply step_typed. Qed.

Lemma typed_insert_file w path name content : k_typed w (insert_file path name content) top.
Proof. unfold insert_file. ty. Qed.
Lemma typed_crate_task w bin : k_typed w (crate_task_from_elf ld sstatus0 elf_new bin) top.
Proof. unfold crate_task_from_elf. ty. Qed.
#[local] Hint Resolve typed_insert_file typed_crate_task : typed.
Lemma boots_typed shell init k0 c : boots ld sstatus0 elf_new shell init k0 c → store_ok (k_fs k0) → kernel_typed (kern c).
Proof.
  intros [(Hp & _) (k & Hrun & ->)] Hs.
  assert (Hk0 : kernel_typed k0) by (split; [done|]; intros p pr; by rewrite Hp).
  assert (H : k_typed (k_fs k0) (load_core_program ld sstatus0 elf_new shell init) top) by (unfold load_core_program; ty).
  by destruct (H k0 tt k) as (? & _).
Qed.

Lemma typed_descriptor k p pr fd :
  kernel_typed k → procs k !! p = Some pr → 0 ≤ fd < FdManager_len (fd_manager (inner pr)) →
  ∃ a o node, idx (fd_array (fd_manager (inner pr))) fd = Ok a ∧ of_get a (k_fs k) = Ok (o, k_fs k) ∧
    inode_get (of_inode o) (k_fs k) = Ok (node, k_fs k).
Proof.
  intros [[Hf _] Hp] Hpr Hfd. destruct (Hp p pr Hpr) as [Hv _]. unfold FdManager_len, len in Hfd.
  destruct (lookup_lt_is_Some_2 (fd_array (fd_manager (inner pr))) (Z.to_nat fd)) as [a Ha]; [lia|].
  destruct (Forall_lookup_1 _ _ _ _ Hv Ha) as [c Hc]. destruct (Hf a c Hc) as [node Hnode].
  exists a, (cell_file c), node. unfold idx, of_get, inode_get, bind, get, lift, unwrap, ret.
  rewrite Ha, Hc, Hnode. split_and!; [|done|done]. destruct (0 <=? fd) eqn:?; [done|lia].
Qed.

(** C7. The references of the file layer never dangle: in each configuration
    the booted kernel reaches, whatever the programs do, each open file and each
    directory entry has its inode, each process has descriptors 0, 1 and 2, and
    each of its descriptors leads to an open file and on to an inode. *)
Theorem files_typed shell init k0 c0 n c :
  boots ld sstatus0 elf_new shell init k0 c0 → store_ok (k_fs k0) → reachable_ c0 n c →
  kernel_typed (kern c) ∧
  ∀ p pr fd, procs (kern c) !! p = Some pr → 0 ≤ fd < FdManager_len (fd_manager (inner pr)) →
  ∃ a o node, idx (fd_array (fd_manager (inner pr))) fd = Ok a ∧ of_get a (k_fs (kern c)) = Ok (o, k_fs (kern c)) ∧
    inode_get (of_inode o) (k_fs (kern c)) = Ok (node, k_fs (kern c)).
Proof.
  intros Hb Hs Hr. assert (Hk : kernel_typed (kern c)) by (eapply reachable_typed; [by eapply boots_typed|done]).
  split; [done|]. intros p pr fd. by apply typed_descriptor.
Qed.
End running.

Lemma empty_store_ok c : store_ok (mkFs ∅ ∅ ∅ c 0).
Proof. by split. Qed.
Lemma files_typed_witness : kernel_typed (kern (first_poll wc0)).
Proof.
  refine (proj1 (files_typed witness_ld 0 0 witness_elf_new 0 0 [] no_disk [] [] witness_k0 wc0 1 _ _ _ _)).
  - exact witness_boots.
  - assert (E : k_fs witness_k0 = mkFs ∅ ∅ ∅ (mkConsole [] []) 0) by (vm_compute; reflexivity). rewrite E. apply empty_store_ok.
  - eapply reach_step; [apply reach_refl|exact witness_step].
Defined.
