(* ===== verification/FileCalls.v ===== *)
(** * Reading and writing files through system calls

    What [sys_write] and [sys_read] do to a regular file and to user memory:
    the page slices of the user's buffer, the calls of the inode, the offset
    and the lock of the open file put together; and what [sys_openat] does. *)

From S2P Require Import Prelude Addr PhysMem FrameAlloc PageTable UserMem MemorySet Fork ElfLoad Inode Fd VirtioBlock Kernel SysProc SysFs Syscall Machine Mount Sched.

(** ** The store *)
Definition with_offset (o : OpenFile) (off : Z) : OpenFile :=
  mkOpenFile off (status_flags o) (readable o) (writable o) (of_inode o).
(** The store with open file [a] at offset [off], locked or not, and the
    inode's file [f]. *)
Definition file_at (s : fstore) (a : Z) (o : OpenFile) (f : RegFileINode) (off : Z) (locked : bool) : fstore :=
  mkFs (<[of_inode o := IReg f]> (inodes s)) (<[a := mkCell (with_offset o off) locked]> (open_files s))
    (dentries s) (console s) (next_arc s).

Lemma with_offset_same o : with_offset o (offset o) = o.
Proof. by destruct o. Qed.
Lemma file_at_id s a o f b :
  open_files s !! a = Some (mkCell o b) → inodes s !! of_inode o = Some (IReg f) → file_at s a o f (offset o) b = s.
Proof. intros Ha Hi. unfold file_at. rewrite with_offset_same, !insert_id by done. by destruct s. Qed.
Lemma file_at_file s a o f off b : open_files (file_at s a o f off b) !! a = Some (mkCell (with_offset o off) b).
Proof. apply lookup_insert_eq. Qed.
Lemma file_at_inode s a o f off b : inodes (file_at s a o f off b) !! of_inode o = Some (IReg f).
Proof. apply lookup_insert_eq. Qed.

Lemma file_at_lock s a o f off : of_lock a (file_at s a o f off false) = Ok (tt, file_at s a o f off true).
Proof.
  unfold of_lock, of_set_locked, bind, get, lift, unwrap. rewrite !file_at_file. cbn [cell_locked]. cbv beta iota.
  rewrite file_at_file. cbn. unfold put, fs_set_open_files, file_at. cbn. by rewrite insert_insert_eq.
Qed.
Lemma file_at_unlock s a o f off b : of_unlock a (file_at s a o f off b) = Ok (tt, file_at s a o f off false).
Proof.
  unfold of_unlock, of_set_locked, bind, get, lift, unwrap. rewrite file_at_file. cbn.
  unfold put, fs_set_open_files, file_at. cbn. by rewrite insert_insert_eq.
Qed.
Lemma file_at_get s a o f off b :
  of_get a (file_at s a o f off b) = Ok (with_offset o off, file_at s a o f off b).
Proof. unfold of_get, bind, get, lift, unwrap, ret. by rewrite file_at_file. Qed.
Lemma file_at_set_offset s a o f off b off' :
  of_set_offset a off' (file_at s a o f off b) = Ok (tt, file_at s a o f off' b).
Proof.
  unfold of_set_offset. rewrite (bind_run _ _ _ _ _ (file_at_get _ _ _ _ _ _)).
  unfold of_put, bind, get, lift, unwrap. rewrite file_at_file. cbn.
  unfold put, fs_set_open_files, file_at. cbn. by rewrite insert_insert_eq.
Qed.
Lemma file_at_with_inode {A} s a o f off b (m : iom inode A) r f' :
  m (IReg f, console s) = Ok (r, (IReg f', console s)) →
  with_inode (of_inode o) m (file_at s a o f off b) = Ok (r, file_at s a o f' off b).
Proof.
  intros Hm. unfold with_inode. rewrite file_at_inode. cbn [console file_at]. rewrite Hm.
  unfold fs_set_console, fs_set_inodes, file_at. cbn. by rewrite insert_insert_eq.
Qed.
Lemma in_fs_run {A} (m : FS A) k s a s' : m s = Ok (a, s') → in_fs m (k_set_fs k s) = Ok (a, k_set_fs k s').
Proof. intros Hm. unfold in_fs, zoom. cbn. by rewrite Hm. Qed.
Lemma slice_read_run sl k : slice_read_ram sl k = Ok (slice_bytes (ram (k_mm k)) sl, k).
Proof. done. Qed.
Lemma inode_write_reg f c off bs :
  rf_writable f = true → 0 ≤ off → off + len bs < 2 ^ 63 → len (rf_file f) < 2 ^ 63 →
  write_at off bs (IReg f, c) = Ok (ok (len bs), (IReg (rf_with_file f (written (rf_file f) off bs)), c)).
Proof.
  intros. change (write_at off bs (IReg f, c)) with (run_on IReg f (RegFileINode_write_at off bs) (IReg f, c)).
  unfold run_on. cbn [snd]. by rewrite reg_write_spec.
Qed.
Lemma inode_read_reg f c off bs :
  rf_readable f = true → 0 ≤ off → off + len bs ≤ len (rf_file f) →
  read_at off bs (IReg f, c) = Ok ((ok (len bs), subl (rf_file f) off (off + len bs)), (IReg f, c)).
Proof.
  intros. change (read_at off bs (IReg f, c)) with (run_on IReg f (RegFileINode_read_at off bs) (IReg f, c)).
  pose proof (len_nonneg bs). unfold run_on. cbn [snd]. rewrite reg_read_spec by (done || lia). rewrite Z.min_l by lia.
  unfold read_from. rewrite Z.min_l by lia. rewrite splice_whole; [done|].
  pose proof (len_subl (rf_file f) off (off + len bs)). unfold len in *. lia.
Qed.

(** ** Writing *)
Lemma written_nil file off : 0 ≤ off → written file off [] = file.
Proof. intros. unfold written. cbn. by rewrite Nat.add_0_r, take_drop. Qed.
Lemma written_app file off b1 b2 :
  0 ≤ off → written (written file off b1) (off + len b1) b2 = written file off (b1 ++ b2).
Proof.
  intros Ho. pose proof (len_nonneg b1). pose proof (len_nonneg file). unfold written at 1. rewrite len_written by lia. unfold written.
  set (n := Z.to_nat (Z.min off (len file))).
  assert (Hn : length (take n file) = n) by (rewrite length_take; unfold n, len in *; lia).
  replace (Z.to_nat (Z.min (off + len b1) (Z.max (len file) (Z.min off (len file) + len b1)))) with (n + length b1)%nat by (unfold n, len in *; lia).
  rewrite (app_assoc (take n file) b1), take_app_length' by (rewrite length_app, Hn; done).
  rewrite drop_app_ge by (rewrite length_app, Hn; lia). rewrite drop_drop, length_app, Hn, <- !app_assoc.
  rewrite length_app. do 4 f_equal. lia.
Qed.

Section calls.
Context (k0 : kernel) (a : Z) (o : OpenFile).
Abbreviation at_ f off b := (file_at (k_fs k0) a o f off b).

Lemma write_buffers_spec : ∀ sls m f off sum,
  let bs := sls ≫= slice_bytes (ram m) in
  rf_writable f = true → 0 ≤ off → 0 ≤ sum → sum + len bs < 2 ^ 63 →
  off + len bs < 2 ^ 62 → len (rf_file f) + len bs < 2 ^ 62 →
  write_buffers a sls sum (k_set_fs (k_set_mm k0 m) (at_ f off true)) =
    Ok (sum + len bs, k_set_fs (k_set_mm k0 m)
      (at_ (rf_with_file f (written (rf_file f) off bs)) (off + len bs) true)).
Proof.
  induction sls as [|sl sls IH]; intros m f off sum bs Hw Ho Hs Hsb Hob Hf.
  { cbn. rewrite written_nil by lia. rewrite !Z.add_0_r. by destruct f. }
  set (b1 := slice_bytes (ram m) sl). assert (Hbs : bs = b1 ++ (sls ≫= slice_bytes (ram m))) by done.
  assert (Hl : len bs = len b1 + len (sls ≫= slice_bytes (ram m))) by (rewrite Hbs; unfold len; rewrite length_app; lia).
  pose proof (len_nonneg b1). pose proof (len_nonneg (sls ≫= slice_bytes (ram m))).
  cbn [write_buffers]. rewrite (bind_run _ _ _ _ _ (in_fs_run _ _ _ _ _ (file_at_get _ _ _ _ _ _))).
  rewrite (bind_run _ _ _ _ _ (slice_read_run _ _)). cbn [k_mm k_set_fs k_set_mm]. fold b1.
  assert (Hr : write_at (offset (with_offset o off)) b1 (IReg f, console (k_fs k0)) =
    Ok (ok (len b1), (IReg (rf_with_file f (written (rf_file f) off b1)), console (k_fs k0)))).
  { by apply inode_write_reg; (done || lia). }
  rewrite (bind_run _ _ _ _ _ (in_fs_run _ _ _ _ _ (file_at_with_inode _ a o f off true _ _ _ Hr))).
  cbn [unwrap_r]. rewrite bind_lift_Ok.
  rewrite (bind_run _ _ _ _ _ (in_fs_run _ _ _ _ _ (file_at_set_offset _ _ _ _ _ _ _))).
  cbn [offset with_offset]. rewrite !uadd_small by lia.
  rewrite IH; cbn [rf_writable rf_file rf_with_file]; rewrite ?len_written by lia; try lia; try done.
  rewrite written_app by lia. rewrite <- Hbs, Hl, !Z.add_assoc. done.
Qed.

(** ** Reading *)
(** Writing a slice of a user range. *)
Lemma slice_write_user m pt start end_ e bs s :
  pmem_wf (ram m) → pt_wf (ram m) pt → pt_separate (ram m) pt → pt_inj (ram m) (root_ppn pt) →
  0 ≤ start < end_ → end_ ≤ 2 ^ 39 → pt_lookup (ram m) (root_ppn pt) (start / PAGE_SIZE) = Some e →
  len bs = chunk_end start end_ - start → Forall is_byte bs →
  ∃ m', slice_write_ram (mkSlice (PageTableEntry_ppn e) (start mod PAGE_SIZE)
          (start mod PAGE_SIZE + (chunk_end start end_ - start))) bs (k_set_fs (k_set_mm k0 m) s) =
        Ok (tt, k_set_fs (k_set_mm k0 m') s) ∧
    frame_allocator m' = frame_allocator m ∧ user_written (ram m) pt start bs (ram m').
Proof.
  intros Hm Hwf Hsep Hinj Hs He E Hl Hb.
  destruct (write_chunk_spec (ram m) pt start end_ e bs) as (m1 & Hc & W); try done; [lia|].
  pose proof (chunk_end_bounds start end_ Hs) as [Hce _].
  assert (Ht : take (Z.to_nat (chunk_end start end_ - start)) bs = bs) by (apply take_ge; unfold len in Hl; lia).
  rewrite Ht in W. unfold copy_slice in Hc. cbn [slice_ppn slice_lo slice_hi] in Hc.
  destruct (Z.ltb_spec (len bs) (start mod PAGE_SIZE + (chunk_end start end_ - start) - start mod PAGE_SIZE)); [lia|].
  replace (start mod PAGE_SIZE + (chunk_end start end_ - start) - start mod PAGE_SIZE) with (chunk_end start end_ - start) in Hc by lia.
  rewrite Ht in Hc. injection Hc as Hc. exists (mkMM (frame_allocator m) m1). split_and!; [|done|done].
  unfold slice_write_ram, modify_ram, in_mm, zoom, modify. cbn. by rewrite <- Hc.
Qed.

Lemma len_slice_bytes m sl : pmem_wf m → slice_ok sl → len (slice_bytes m sl) = slice_hi sl - slice_lo sl.
Proof.
  intros Hm Hsl. rewrite slice_bytes_addrs by done. destruct Hsl as (_ & _ & ? & _). unfold len, slice_addrs.
  rewrite !length_fmap, length_seqZ. lia.
Qed.
Lemma as_isize_small v : v < 2 ^ 63 → as_isize v = v.
Proof. intros. unfold as_isize. by rewrite (proj2 (Z.ltb_lt _ _)). Qed.

Lemma read_buffers_spec pt end_ f m0 : end_ < 2 ^ 38 → rf_readable f = true → Forall is_byte (rf_file f) → len (rf_file f) < 2 ^ 62 →
  ∀ sls start m off sum, chunked m0 (root_ppn pt) end_ start sls →
  (∀ v, pt_lookup (ram m) (root_ppn pt) v = pt_lookup m0 (root_ppn pt) v) →
  pmem_wf (ram m) → pt_wf (ram m) pt → pt_separate (ram m) pt → pt_inj (ram m) (root_ppn pt) →
  0 ≤ off → off + (end_ - start) ≤ len (rf_file f) → 0 ≤ sum → sum + (end_ - start) < 2 ^ 62 →
  ∃ m', read_buffers a sls sum (k_set_fs (k_set_mm k0 m) (at_ f off true)) =
      Ok (inl (sum + (end_ - start)), k_set_fs (k_set_mm k0 m') (at_ f (off + (end_ - start)) false)) ∧
    frame_allocator m' = frame_allocator m ∧
    user_written (ram m) pt start (subl (rf_file f) off (off + (end_ - start))) (ram m').
Proof.
  intros He Hr Hb Hf. induction sls as [|sl sls IH]; intros start m off sum Hc HL Hm Hwf Hsep Hinj Ho Hoe Hs Hse.
  { inversion Hc; subst. exists m. rewrite Z.sub_diag, !Z.add_0_r in *. cbn [read_buffers].
    rewrite (bind_run _ _ _ _ _ (in_fs_run _ _ _ _ _ (file_at_unlock _ _ _ _ _ _))).
    rewrite as_isize_small by lia. split_and!; [done|done|]. rewrite subl_nil by lia. by apply user_written_nil. }
  inversion Hc as [|? e ? Hst E Hc']; subst.
  pose proof (chunk_end_bounds start end_ Hst) as [Hce _]. set (n := chunk_end start end_ - start) in *.
  rewrite <- HL in E. pose proof (chunk_slice_ok e start end_ Hst) as Hsl. fold n in Hsl.
  pose proof (len_slice_bytes (ram m) _ Hm Hsl) as Hln. cbn [slice_lo slice_hi] in Hln.
  set (sl := mkSlice _ _ _) in *. replace (start mod PAGE_SIZE + n - start mod PAGE_SIZE) with n in Hln by lia.
  destruct (slice_write_user m pt start end_ e (subl (rf_file f) off (off + n)) (at_ f off true)) as (m1 & Hw & Hfa & W);
    [done..|lia|done| | |].
  { rewrite len_subl by lia. unfold n. lia. }
  { unfold subl. by apply Forall_take, Forall_drop. }
  fold n in Hw. fold sl in Hw.
  destruct (user_written_stable _ _ _ _ _ Hwf W) as (Hwf1 & Hsep1 & Hinj1); [done..|].
  destruct (IH (chunk_end start end_) m1 (off + n) (sum + n)) as (m2 & Hrun & Hfa2 & W2); try done; try (unfold n; lia).
  { intros v. rewrite (user_written_lookup _ _ _ _ _ _ Hwf W). apply HL. }
  { apply W. }
  exists m2. split_and!; [|congruence|].
  - cbn [read_buffers]. rewrite (bind_run _ _ _ _ _ (in_fs_run _ _ _ _ _ (file_at_get _ _ _ _ _ _))).
    rewrite (bind_run _ _ _ _ _ (slice_read_run _ _)). cbn [k_mm k_set_fs k_set_mm].
    assert (Hrd : read_at (offset (with_offset o off)) (slice_bytes (ram m) sl) (IReg f, console (k_fs k0)) =
      Ok ((ok n, subl (rf_file f) off (off + n)), (IReg f, console (k_fs k0)))).
    { rewrite <- Hln. apply inode_read_reg; [done|done|]. rewrite Hln. cbn. lia. }
    rewrite (bind_run _ _ _ _ _ (in_fs_run _ _ _ _ _ (file_at_with_inode _ a o f off true _ _ _ Hrd))).
    rewrite (bind_run _ _ _ _ _ Hw). cbn [unwrap_r]. rewrite bind_lift_Ok.
    rewrite (bind_run _ _ _ _ _ (in_fs_run _ _ _ _ _ (file_at_set_offset _ _ _ _ _ _ _))).
    cbn [offset with_offset]. rewrite !uadd_small by lia. rewrite (proj2 (Z.gtb_lt n 0)) by (unfold n; lia).
    rewrite Hrun. replace (sum + n + (end_ - chunk_end start end_)) with (sum + (end_ - start)) by (unfold n; lia).
    by replace (off + n + (end_ - chunk_end start end_)) with (off + (end_ - start)) by (unfold n; lia).
  - rewrite <- (subl_app _ off (off + n)) by lia. eapply user_written_trans; [done|exact W|].
    rewrite len_subl by lia. replace (start + (off + n - off)) with (chunk_end start end_) by (unfold n; lia).
    replace (off + (end_ - start)) with (off + n + (end_ - chunk_end start end_)) by (unfold n; lia). done.
Qed.
End calls.

(** ** The calls *)
(** Descriptor [fd] of the calling process [pr] names open file [a], which is
    not locked, of the regular file [f]. *)
Record file_of (k : kernel) (self fd : Z) (pr : Process) (a : Z) (o : OpenFile) (f : RegFileINode) : Prop := {
  fo_thread : ∃ th, threads k !! self = Some th ∧ procs k !! thread_proc th = Some pr;
  fo_fd : 0 ≤ fd ∧ fd_array (fd_manager (inner pr)) !! Z.to_nat fd = Some a;
  fo_file : open_files (k_fs k) !! a = Some (mkCell o false);
  fo_inode : inodes (k_fs k) !! of_inode o = Some (IReg f);
}.
(** A mapped range of a process's memory. *)
Record user_range (m : pmem) (pr : Process) (ptr n : Z) : Prop := {
  ur_wf : pmem_wf m;
  ur_root : 0 ≤ root_ppn (page_table (memory_set (inner pr))) < 2 ^ 44;
  ur_bounds : 0 ≤ ptr ∧ 0 ≤ n ∧ ptr + n < 2 ^ 38;
  ur_mapped : user_mapped m (root_ppn (page_table (memory_set (inner pr)))) ptr n;
}.

Section call.
Context (k : kernel) (self fd : Z) (pr : Process) (a : Z) (o : OpenFile) (f : RegFileINode).
Context (Hfile : file_of k self fd pr a o f).
Abbreviation pt := (page_table (memory_set (inner pr))).

Lemma my_pcb_run s : my_pcb self (k_set_fs k s) = Ok (inner pr, k_set_fs k s).
Proof.
  destruct (fo_thread _ _ _ _ _ _ _ Hfile) as (th & Ht & Hp).
  unfold my_pcb, self_proc, thread_get, pcb_get, proc_get, bind, get, lift, unwrap, ret. cbn. by rewrite Ht; cbn; rewrite Hp.
Qed.
Lemma my_fd_run s : my_fd self fd (k_set_fs k s) = Ok (a, k_set_fs k s).
Proof.
  destruct (fo_fd _ _ _ _ _ _ _ Hfile) as [H0 H1]. unfold my_fd. rewrite (bind_run _ _ _ _ _ (my_pcb_run s)).
  unfold lift, idx. rewrite H1. destruct (0 <=? fd) eqn:?; [done|lia].
Qed.
Lemma user_buffers_run s ptr n :
  user_range (ram (k_mm k)) pr ptr n → ∃ sls, user_buffers self ptr n (k_set_fs k s) = Ok (sls, k_set_fs k s) ∧
    chunked (ram (k_mm k)) (root_ppn pt) (ptr + n) ptr sls.
Proof.
  intros [Hm Hr (Hp & Hn & He) Hmap].
  destruct (translated_byte_buffer_chunked (ram (k_mm k)) pt ptr n) as (sls & Hrun & Hc); try done.
  exists sls. split; [|done]. unfold user_buffers, my_token, with_ram.
  rewrite (bind_run _ _ _ (PageTable_token pt) (k_set_fs k s)) by (by rewrite (bind_run _ _ _ _ _ (my_pcb_run s))).
  unfold bind, get, lift. cbn [k_mm k_set_fs]. by rewrite Hrun.
Qed.
Lemma fs_start : k = k_set_fs k (file_at (k_fs k) a o f (offset o) false).
Proof. rewrite file_at_id; [by destruct k|apply Hfile|apply Hfile]. Qed.
End call.

(** C14. [sys_write] to a regular file, for a buffer in mapped user memory and
    any offset and file length below 2^61: it returns the number of bytes; the file holds the bytes of the
    user's memory at the offset - at its end, if the offset is behind that -
    longer if they reach beyond its end, and as before elsewhere; the offset
    moves on by as much and the open file is unlocked; memory and all else stay
    as they were. *)
Theorem sys_write_file k self fd pr a o f ptr n :
  file_of k self fd pr a o f → writable o = true → rf_writable f = true →
  user_range (ram (k_mm k)) pr ptr n →
  0 ≤ offset o < 2 ^ 61 → len (rf_file f) < 2 ^ 61 →
  sys_write self fd ptr n k =
    Ok (n, k_set_fs k (file_at (k_fs k) a o
      (rf_with_file f (written (rf_file f) (offset o)
         (user_bytes (ram (k_mm k)) (root_ppn (page_table (memory_set (inner pr)))) ptr n)))
      (offset o + n) false)).
Proof.
  intros Hfile Hw Hfw Hu Ho Hlen. rewrite (fs_start k self fd pr a o f Hfile) at 1. unfold sys_write.
  rewrite (bind_run _ _ _ _ _ (my_fd_run k self fd pr a o f Hfile _)).
  rewrite (bind_run _ _ _ _ _ (in_fs_run _ _ _ _ _ (file_at_lock _ _ _ _ _))).
  rewrite (bind_run _ _ _ _ _ (in_fs_run _ _ _ _ _ (file_at_get _ _ _ _ _ _))). cbn [writable with_offset]. rewrite Hw. cbn [negb].
  destruct (user_buffers_run k self fd pr a o f Hfile (file_at (k_fs k) a o f (offset o) true) ptr n Hu) as (sls & Hrun & Hc).
  rewrite (bind_run _ _ _ _ _ Hrun). pose proof (chunked_bytes _ _ _ _ _ (ur_wf _ _ _ _ Hu) Hc) as Hbs.
  destruct (ur_bounds _ _ _ _ Hu) as (Hp & Hn & He).
  assert (Hl : len (sls ≫= slice_bytes (ram (k_mm k))) = n).
  { rewrite Hbs. unfold len, user_bytes. rewrite length_fmap, length_seqZ. lia. }
  pose proof (write_buffers_spec k a o sls (k_mm k) f (offset o) 0) as Hwr. cbv zeta in Hwr. rewrite Hl, Hbs in Hwr.
  replace (k_set_mm k (k_mm k)) with k in Hwr by (by destruct k). rewrite (bind_run _ _ _ _ _ (Hwr ltac:(done) ltac:(lia) ltac:(lia) ltac:(lia) ltac:(lia) ltac:(lia))).
  rewrite (bind_run _ _ _ _ _ (in_fs_run _ _ _ _ _ (file_at_unlock _ _ _ _ _ _))).
  unfold ret. by rewrite Z.add_0_l, as_isize_small by lia.
Qed.

(** C15. [sys_read] from a regular file that has [n] bytes left behind the
    offset, into mapped user memory: it does not suspend and returns [n]; the
    program then reads the file's bytes in its buffer and its other bytes as
    before, no frame outside the address space changes; the offset moves on by
    [n] and the open file is unlocked. *)
Theorem sys_read_file k self fd pr a o f ptr n :
  let pt := page_table (memory_set (inner pr)) in
  file_of k self fd pr a o f → readable o = true → rf_readable f = true →
  user_range (ram (k_mm k)) pr ptr n →
  pt_wf (ram (k_mm k)) pt → pt_separate (ram (k_mm k)) pt → pt_inj (ram (k_mm k)) (root_ppn pt) →
  Forall is_byte (rf_file f) → 0 ≤ offset o → offset o + n ≤ len (rf_file f) → len (rf_file f) < 2 ^ 62 →
  ∃ m', sys_read self fd ptr n k =
      Ok (inl n, k_set_fs (k_set_mm k m') (file_at (k_fs k) a o f (offset o + n) false)) ∧
    frame_allocator m' = frame_allocator (k_mm k) ∧
    user_written (ram (k_mm k)) pt ptr (subl (rf_file f) (offset o) (offset o + n)) (ram m').
Proof.
  intros pt Hfile Hr Hfr Hu Hwf Hsep Hinj Hb Ho Hon Hlen.
  destruct (user_buffers_run k self fd pr a o f Hfile (file_at (k_fs k) a o f (offset o) true) ptr n Hu) as (sls & Hrun & Hc).
  destruct (ur_bounds _ _ _ _ Hu) as (Hp & Hn & He).
  destruct (read_buffers_spec k a o pt (ptr + n) f (ram (k_mm k)) He Hfr Hb Hlen sls ptr (k_mm k) (offset o) 0) as (m' & Hrd & Hfa & W);
    try done; try lia; [apply Hu|].
  replace (ptr + n - ptr) with n in * by lia. exists m'. split; [|done].
  rewrite (fs_start k self fd pr a o f Hfile) at 1. unfold sys_read.
  rewrite (bind_run _ _ _ _ _ (my_fd_run k self fd pr a o f Hfile _)).
  rewrite (bind_run _ _ _ _ _ (in_fs_run _ _ _ _ _ (file_at_lock _ _ _ _ _))).
  rewrite (bind_run _ _ _ _ _ (in_fs_run _ _ _ _ _ (file_at_get _ _ _ _ _ _))). cbn [readable with_offset]. rewrite Hr. cbn [negb].
  rewrite (bind_run _ _ _ _ _ Hrun). replace (k_set_mm k (k_mm k)) with k in Hrd by (by destruct k).
  by rewrite Hrd, Z.add_0_l.
Qed.

(** ** Opening *)
Lemma openat_access_all flags : openat_access flags = (true, true).
Proof.
  unfold openat_access.
  assert (H : ∀ x y, x ≠ y → negb (Z.lor (Z.lxor flags x) (Z.lxor flags y) =? 0) = true).
  { intros x y Hxy. apply Bool.negb_true_iff, Z.eqb_neq. intros [H1%Z.lxor_eq H2%Z.lxor_eq]%Z.lor_eq_0_iff. congruence. }
  by rewrite !H.
Qed.

(** The end of the call: a new open file of inode [i] and a descriptor. *)
Definition openat_end (self flags i : Z) : K Z :=
  let '(r, w) := openat_access flags in
  let* open_file := in_fs (open_file_arc (OpenFile_new_from_inode r w i)) in
  let* pcb := my_pcb self in
  let '(fds, fd) := FdManager_push (fd_manager pcb) open_file in
  my_pcb_put self (pcb_set_fds pcb fds) ;;
  ret (as_isize fd).
Lemma openat_end_run k self flags i th pr :
  threads k !! self = Some th → procs k !! thread_proc th = Some pr →
  len (fd_array (fd_manager (inner pr))) < 2 ^ 62 →
  openat_end self flags i k =
    let a := next_arc (k_fs k) in
    Ok (len (fd_array (fd_manager (inner pr))),
      k_set_procs (k_set_fs k (mkFs (inodes (k_fs k)) (<[a := mkCell (mkOpenFile 0 0 true true i) false]> (open_files (k_fs k)))
          (dentries (k_fs k)) (console (k_fs k)) (a + 1)))
        (<[thread_proc th := mkProcess (proc_pid pr)
           (pcb_set_fds (inner pr) (mkFdManager (fd_array (fd_manager (inner pr)) ++ [a])))]> (procs k))).
Proof.
  intros Ht Hp Hl. unfold openat_end. rewrite openat_access_all.
  unfold in_fs, zoom, open_file_arc, OpenFile_new_from_inode, my_pcb, my_pcb_put, self_proc, thread_get, pcb_get, pcb_put, proc_get,
    FdManager_push, bind, get, put, lift, unwrap, ret, modify. cbn -[as_isize len usub insert].
  rewrite Ht; cbn -[as_isize len usub insert]. rewrite Hp; cbn -[as_isize len usub insert].
  rewrite Ht; cbn -[as_isize len usub insert]. rewrite Hp; cbn -[as_isize len usub insert].
  pose proof (len_nonneg (fd_array (fd_manager (inner pr)))).
  assert (E : len (fd_array (fd_manager (inner pr)) ++ [next_arc (k_fs k)]) = len (fd_array (fd_manager (inner pr))) + 1)
    by (unfold len; rewrite length_app; cbn; lia).
  rewrite E, usub_small, as_isize_small by lia. do 2 f_equal. lia.
Qed.

Definition new_file (dir rel : String) (flags : Z) : RegFileINode :=
  mkRegFile true true dir rel Timespec_default Timespec_default Timespec_default (OpenFlags_new flags) [].
(** The store with a new file entered for a path. *)
Definition with_new_file (s : fstore) (dir rel : String) (flags : Z) : fstore :=
  mkFs (<[next_arc s := IReg (new_file dir rel flags)]> (inodes s)) (open_files s) (<[dir ++ rel := next_arc s]> (dentries s))
    (mkConsole (con_in (console s)) (con_out (console s) ++ (str "CREATING new file." ++ [10]))) (next_arc s + 1).
Lemma openat_start k sf self dirfd path flags p dir rel :
  read_str sf self path k = Ok (p, k) → Thread_get_abs_path self p k = Ok ((dir, rel), k) →
  sys_openat sf self dirfd path flags k =
    match dentries (k_fs k) !! (dir ++ rel) with
    | Some i => openat_end self (flags mod 2 ^ 32) i k
    | None => openat_end self (flags mod 2 ^ 32) (next_arc (k_fs k)) (k_set_fs k (with_new_file (k_fs k) dir rel (flags mod 2 ^ 32)))
    end.
Proof.
  intros Hs Ha. unfold sys_openat. rewrite (bind_run _ _ _ _ _ Hs), (bind_run _ _ _ _ _ Ha). cbv zeta.
  rewrite (bind_run _ _ _ (dentries (k_fs k) !! (dir ++ rel)) k) by (by destruct k).
  destruct (dentries (k_fs k) !! (dir ++ rel)) as [i|]; [done|].
  apply bind_run. unfold in_fs, zoom, bind. cbn -[insert str]. rewrite print_spec. cbn -[insert str].
  rewrite lookup_insert_eq. done.
Qed.

(** C28. [sys_openat] always succeeds once its path was read, whatever the
    flags: it returns the next descriptor, which names a new open file at offset
    0 that may be read and written, of the inode the dentry cache has for the
    path; if it has none, of a new empty regular file, which is entered for the
    path.  The other descriptors stay. *)
Theorem sys_openat_opens k sf self dirfd path flags p dir rel th pr :
  read_str sf self path k = Ok (p, k) → Thread_get_abs_path self p k = Ok ((dir, rel), k) →
  threads k !! self = Some th → procs k !! thread_proc th = Some pr →
  len (fd_array (fd_manager (inner pr))) < 2 ^ 62 →
  ∃ k' a i pr', sys_openat sf self dirfd path flags k = Ok (len (fd_array (fd_manager (inner pr))), k') ∧
    procs k' = <[thread_proc th := pr']> (procs k) ∧
    fd_array (fd_manager (inner pr')) = fd_array (fd_manager (inner pr)) ++ [a] ∧
    open_files (k_fs k') = <[a := mkCell (mkOpenFile 0 0 true true i) false]> (open_files (k_fs k)) ∧
    dentries (k_fs k') !! (dir ++ rel) = Some i ∧
    match dentries (k_fs k) !! (dir ++ rel) with
    | Some i' => i = i' ∧ inodes (k_fs k') = inodes (k_fs k) ∧ dentries (k_fs k') = dentries (k_fs k)
    | None => inodes (k_fs k') = <[i := IReg (new_file dir rel (flags mod 2 ^ 32))]> (inodes (k_fs k)) ∧
        dentries (k_fs k') = <[dir ++ rel := i]> (dentries (k_fs k))
    end.
Proof.
  intros Hs Ha Ht Hp Hl. rewrite (openat_start k sf self dirfd path flags p dir rel Hs Ha).
  destruct (dentries (k_fs k) !! (dir ++ rel)) as [i|] eqn:E.
  - rewrite (openat_end_run k self _ i th pr Ht Hp Hl). do 4 eexists. split; [done|]. cbn. done.
  - rewrite (openat_end_run (k_set_fs k (with_new_file (k_fs k) dir rel (flags mod 2 ^ 32))) self _ _ th pr Ht Hp Hl). do 4 eexists. split; [done|]. cbn -[insert].
    split_and!; first [done|apply lookup_insert_eq].
Qed.

(** ** A process with one user page and an open file *)
Definition wit_file : RegFileINode := RegFileINode_new_from_existed (str "/") (str "f") CREATE true true [1; 2; 3].
Definition wit_open : OpenFile := mkOpenFile 1 0 true true 7.
Definition wit_proc (pt : PageTable) : Process :=
  mkProcess 0 (mkPCB 0 READY ProcessContext_new 0 (mkMS pt []) 0 0 None Children_new 0 0 0 0 (str "/") (mkFdManager [8])).
Definition wit_kernel (s : mm) (pt : PageTable) : kernel :=
  mkKernel s (mkFs {[7 := IReg wit_file]} {[8 := mkCell wit_open false]} ∅ (mkConsole [] []) 9) (mkMS pt [])
    {[0 := wit_proc pt]} {[1 := Thread_new 0]} [] 1 2 (λ _, 0) O.
Lemma wit_file_of s pt : file_of (wit_kernel s pt) 1 0 (wit_proc pt) 8 wit_open wit_file.
Proof. split; [by exists (Thread_new 0)|done|done|done]. Qed.
Lemma wit_range s pt new :
  pt_step 0x80500 0x88000 witness_mm {[0x80500; 0x80501]} (mkPT 0x80500 [0x80500]) s pt new
    (λ vpn, if decide (vpn = 5) then Some 0x20140407 else None) →
  user_range (ram s) (wit_proc pt) 0x5010 2.
Proof.
  intros G. destruct (witness_user _ _ _ G) as (Hr & Hm & _ & _ & _ & Hpa & _).
  split; cbn [inner wit_proc memory_set page_table]; [done|rewrite Hr; lia|lia|].
  intros va Hva. rewrite Hpa by lia. eauto.
Qed.
Lemma wit_read_str s pt new :
  pt_step 0x80500 0x88000 witness_mm {[0x80500; 0x80501]} (mkPT 0x80500 [0x80500]) s pt new
    (λ vpn, if decide (vpn = 5) then Some 0x20140407 else None) →
  read_str 1 1 0x5000 (wit_kernel s pt) = Ok ([], wit_kernel s pt).
Proof.
  intros G. destruct (witness_user _ _ _ G) as (Hr & Hm & _ & _ & _ & Hpa & Hz).
  unfold read_str, my_token, with_ram.
  rewrite (bind_run _ _ _ (PageTable_token pt) (wit_kernel s pt)) by done. unfold bind, get, lift. cbn [k_mm wit_kernel].
  unfold translate_str. assert (Hroot : root_ppn (PageTable_from_token (PageTable_token pt)) = 0x80500)
    by (rewrite token_root; [done|rewrite Hr; lia]).
  rewrite (translate_str_loop_spec (ram s) (PageTable_from_token (PageTable_token pt)) [] 1 0x5000 []); try done; [unfold len; cbn; lia|..].
  - intros va Hva. exists (0x80501000 + (va - 0x5000)). rewrite Hroot, <- Hr, Hpa by (unfold len in Hva; cbn in Hva; lia).
    split; [done|unfold len in Hva; cbn in Hva; lia].
  - rewrite Hroot, <- Hr. change (user_byte (ram s) (root_ppn pt) <$> [0x5000] = [0]). rewrite fmap_cons.
    unfold user_byte at 1. rewrite Hpa by lia.
    change (default 0 _) with (get_bytes_array (ram s) 0x80501 !!! 0%nat). by rewrite Hz.
Qed.

Lemma sys_write_file_witness :
  ∃ pt s, PageTable_map (mkPT 0x80500 [0x80500]) 5 0x80501 6 witness_mm = Ok (pt, s) ∧
    sys_write 1 0 0x5010 2 (wit_kernel s pt) = Ok (2, k_set_fs (wit_kernel s pt)
      (file_at (k_fs (wit_kernel s pt)) 8 wit_open (rf_with_file wit_file (written [1; 2; 3] 1
        (user_bytes (ram s) (root_ppn pt) 0x5010 2))) 3 false)).
Proof.
  destruct witness_map as (s & pt & new & Hrun & G). exists pt, s. split; [exact Hrun|].
  apply (sys_write_file (wit_kernel s pt) 1 0 (wit_proc pt) 8 wit_open wit_file 0x5010 2).
  - apply wit_file_of.
  - reflexivity.
  - reflexivity.
  - exact (wit_range s pt new G).
  - unfold len. simpl. lia.
  - unfold len. simpl. lia.
Defined.
Lemma sys_read_file_witness :
  ∃ pt s m', PageTable_map (mkPT 0x80500 [0x80500]) 5 0x80501 6 witness_mm = Ok (pt, s) ∧
    sys_read 1 0 0x5010 2 (wit_kernel s pt) = Ok (inl 2, k_set_fs (k_set_mm (wit_kernel s pt) m')
      (file_at (k_fs (wit_kernel s pt)) 8 wit_open wit_file 3 false)) ∧
    frame_allocator m' = frame_allocator s ∧ user_written (ram s) pt 0x5010 [2; 3] (ram m').
Proof.
  destruct witness_map as (s & pt & new & Hrun & G). exists pt, s.
  destruct (witness_user _ _ _ G) as (Hr & Hm & Hwf & Hsep & Hinj & _ & _).
  destruct (sys_read_file (wit_kernel s pt) 1 0 (wit_proc pt) 8 wit_open wit_file 0x5010 2) as (m' & H);
    [apply wit_file_of|reflexivity|reflexivity|exact (wit_range s pt new G)|exact Hwf|exact Hsep|exact Hinj| | | | |].
  - repeat constructor; lia.
  - simpl. lia.
  - unfold len. simpl. lia.
  - unfold len. simpl. lia.
  - exists m'. split; [exact Hrun|exact H].
Defined.
Lemma sys_openat_opens_witness :
  ∃ pt s, PageTable_map (mkPT 0x80500 [0x80500]) 5 0x80501 6 witness_mm = Ok (pt, s) ∧
    ∃ k', sys_openat 1 1 0 0x5000 0 (wit_kernel s pt) = Ok (1, k') ∧
      open_files (k_fs k') !! 10 = Some (mkCell (mkOpenFile 0 0 true true 9) false).
Proof.
  destruct witness_map as (s & pt & new & Hrun & G). exists pt, s. split; [exact Hrun|].
  destruct (sys_openat_opens (wit_kernel s pt) 1 1 0 0x5000 0 [] (str "/") [] (Thread_new 0) (wit_proc pt))
    as (k' & a & i & pr' & Hk & _ & Hfd & Hof & _ & Hi).
  - exact (wit_read_str s pt new G).
  - reflexivity.
  - reflexivity.
  - reflexivity.
  - unfold len. simpl. lia.
  - exists k'. split; [exact Hk|].
    pose proof (openat_start (wit_kernel s pt) 1 1 0 0x5000 0 [] (str "/") [] (wit_read_str s pt new G) eq_refl) as E.
    rewrite Hk in E. injection E as E. rewrite E. reflexivity.
Defined.
