(* ===== verification/Conc.v ===== *)
(** * Threads that share atomic variables

    The crates [spin] and [async-task] are built from atomic operations on
    shared words.  A thread is a program whose steps are such operations; a
    pool of threads runs by interleaving steps in any order.  [triple] is a
    program logic for one thread of a pool: an invariant relates the shared
    state and a piece of ghost state per thread, and a step of a thread may
    change only its own piece.  [pool_safe] turns triples for all threads into
    a statement about every interleaving.

    Atomic operations are executed one after the other: the memory orderings
    the crates pass to them are not modelled. *)

From S2P Require Import Prelude.

(** ** Programs *)
(** [Step f] executes the atomic operation [f], which may have more than one
    outcome; [Loop body b] is a loop with loop variables [b], whose body returns
    [inl] to go round again; [Panic] ends the thread. *)
Inductive prog (St A : Type) : Type :=
| Ret (a : A)
| Step (f : St → list (A * St))
| Panic
| Bind {B : Type} (p : prog St B) (k : B → prog St A)
| Loop {B : Type} (body : B → prog St (B + A)) (b : B).
Arguments Ret {St A} a.
Arguments Step {St A} f.
Arguments Panic {St A}.
Arguments Bind {St A B} p k.
Arguments Loop {St A B} body b.

Declare Scope conc_scope.
Delimit Scope conc_scope with conc.
Notation "'let%' x := e 'in' k" := (Bind e (λ x, k))
  (at level 10, x name, e at level 100, k at level 200) : conc_scope.
Notation "'let%' ' p := e 'in' k" := (Bind e (λ x, match x with p => k end))
  (at level 10, p strict pattern, e at level 100, k at level 200) : conc_scope.
Notation "e ;% k" := (Bind e (λ _, k))
  (at level 100, k at level 200, right associativity) : conc_scope.
#[global] Open Scope conc_scope.

(** [while c { body }] with loop variables [b]. *)
Definition while_ {St B} (c : B → prog St bool) (body : B → prog St B) (b : B) : prog St B :=
  Loop (λ b, let% go := c b in if go : bool then let% b := body b in Ret (inl b) else Ret (inr b)) b.

(** One atomic operation with one outcome. *)
Definition atom {St R} (f : St → R * St) : prog St R := Step (λ s, [f s]).

(** ** Atomic variables *)
Section atomics.
Context {St V : Type} (x : lens St V).
Definition a_load : prog St V := atom (λ s, (view x s, s)).
Definition a_store (v : V) : prog St unit := atom (λ s, (tt, update x v s)).
Definition a_swap (v : V) : prog St V := atom (λ s, (view x s, update x v s)).
(** [fetch_add] and the like: the old value. *)
Definition a_rmw (f : V → V) : prog St V := atom (λ s, (view x s, update x (f (view x s)) s)).
Context `{!EqDecision V}.
Definition a_cas (old new : V) : prog St (Result V V) :=
  atom (λ s, if decide (view x s = old) then (ok old, update x new s) else (err (view x s), s)).
(** [compare_exchange_weak] may also fail although the value is the expected
    one. *)
Definition a_cas_weak (old new : V) : prog St (Result V V) :=
  Step (λ s, if decide (view x s = old) then [(ok old, update x new s); (err old, s)]
             else [(err (view x s), s)]).

(** [fetch_update]: [f] computes the new value, or gives up. *)
Definition a_fetch_update (f : V → prog St (option V)) : prog St (Result V V) :=
  let% prev := a_load in
  Loop (λ prev,
    let% next := f prev in
    match next with
    | None => Ret (inr (err prev))
    | Some v =>
        let% r := a_cas_weak prev v in
        Ret (match r with ok p => inr (ok p) | err p => inl p end)
    end) prev.
End atomics.
(** A field of a variable. *)
Definition lens_comp {St T V} (x : lens St T) (y : lens T V) : lens St V :=
  Lens (λ s, view y (view x s)) (λ v s, update x (update y v (view x s)) s).

(** ** Execution *)
(** The steps a thread can take. *)
Fixpoint next {St A} (p : prog St A) (s : St) : list (prog St A * St) :=
  match p with
  | Ret _ | Panic => []
  | Step f => (λ rs, (Ret rs.1, rs.2)) <$> f s
  | Bind p k =>
      match p with
      | Ret a => [(k a, s)]
      | Panic => [(Panic, s)]
      | _ => (λ ps, (Bind ps.1 k, ps.2)) <$> next p s
      end
  | Loop body b => [(Bind (body b) (λ x, match x with inl b' => Loop body b' | inr r => Ret r end), s)]
  end.

(** A step of a pool is a step of one of its threads. *)
Inductive pool_step {St A} : list (prog St A) * St → list (prog St A) * St → Prop :=
| pool_step_at i p p' ts s s' :
    ts !! i = Some p → (p', s') ∈ next p s → pool_step (ts, s) (<[i := p']> ts, s').
Definition reaches {St A} : relation (list (prog St A) * St) := rtc pool_step.

(** Runs a thread alone, always taking the first outcome. *)
Fixpoint run_alone {St A} (fuel : nat) (p : prog St A) (s : St) : option (A * St) :=
  match fuel with
  | O => None
  | S fuel =>
      match p with
      | Ret a => Some (a, s)
      | _ => '(p, s) ← head (next p s); run_alone fuel p s
      end
  end.
(** Runs a pool by a schedule: at each point the thread and the outcome. *)
Fixpoint run_pool {St A} (sched : list (nat * nat)) (c : list (prog St A) * St) : option (list (prog St A) * St) :=
  match sched with
  | [] => Some c
  | (i, o) :: sched =>
      p ← c.1 !! i;
      '(p', s') ← next p c.2 !! o;
      run_pool sched (<[i := p']> c.1, s')
  end.
Lemma run_pool_reaches {St A} sched : ∀ c c' : list (prog St A) * St, run_pool sched c = Some c' → reaches c c'.
Proof.
  induction sched as [|[i o] sched IH]; intros [ts s] c' Hr; cbn in Hr; [injection Hr as <-; constructor|].
  destruct (ts !! i) as [p|] eqn:Hp; [|done]. cbn in Hr.
  destruct (next p s !! o) as [[p' s']|] eqn:Ho; [|done]. cbn in Hr.
  eapply rtc_l; [|by apply IH]. econstructor; [done|]. by eapply list_elem_of_lookup_2.
Qed.

(** Runs one thread of a pool until it ends, or makes a choice that is not in the
    list: a step with one outcome is taken, and the list says which outcome of the
    others. *)
Fixpoint run_thread {St A} (fuel i : nat) (choices : list nat) (c : list (prog St A) * St) : list (prog St A) * St :=
  match fuel with
  | O => c
  | S fuel =>
      match c.1 !! i with
      | None => c
      | Some p =>
          match next p c.2 with
          | [] => c
          | [(p', s')] => run_thread fuel i choices (<[i := p']> c.1, s')
          | nexts =>
              match choices with
              | [] => c
              | o :: choices =>
                  match nexts !! o with
                  | None => c
                  | Some (p', s') => run_thread fuel i choices (<[i := p']> c.1, s')
                  end
              end
          end
      end
  end.
Lemma run_thread_reaches {St A} fuel i : ∀ choices (c : list (prog St A) * St), reaches c (run_thread fuel i choices c).
Proof.
  induction fuel as [|fuel IH]; intros choices [ts s]; [constructor|]. cbn.
  destruct (ts !! i) as [p|] eqn:Hp; [|constructor]. cbn.
  assert (Hstep : ∀ choices p' s', (p', s') ∈ next p s → reaches (ts, s) (run_thread fuel i choices (<[i := p']> ts, s')))
    by (intros ch p' s' Hin; eapply rtc_l; [by econstructor|apply IH]).
  destruct (next p s) as [|[p1 s1] [|ps1 nexts]] eqn:Hn; [constructor|apply Hstep; by left|].
  destruct choices as [|o choices]; [constructor|]. destruct ((_ :: _ :: _) !! o) as [[p' s']|] eqn:Ho; [|constructor].
  apply Hstep. by eapply list_elem_of_lookup_2.
Qed.
Lemma reaches_length {St A} (ts ts' : list (prog St A)) s s' : reaches (ts, s) (ts', s') → length ts' = length ts.
Proof.
  intros Hr. remember (ts, s) as c eqn:Hc. remember (ts', s') as c' eqn:Hc'.
  assert (Hl : length c'.1 = length c.1); [|by subst].
  clear Hc Hc'. induction Hr as [|c1 c2 c3 Hs _ IH]; [done|]. rewrite IH. destruct Hs. cbn. by rewrite length_insert.
Qed.

(** ** One thread while the others wait *)
Inductive thread_step {St A} : prog St A * St → prog St A * St → Prop :=
| thread_step_next p s p' s' : (p', s') ∈ next p s → thread_step (p, s) (p', s').
Definition alone {St A} : relation (prog St A * St) := rtc thread_step.
Section alone.
Context {St : Type}.
Lemma alone_next {A} (p p' : prog St A) s s' : (p', s') ∈ next p s → alone (p, s) (p', s').
Proof. intros Hn. by apply rtc_once, thread_step_next. Qed.
Lemma alone_bind {A B} (p p' : prog St A) s s' (k : A → prog St B) :
  alone (p, s) (p', s') → alone (Bind p k, s) (Bind p' k, s').
Proof.
  intros Hr. remember (p, s) as c eqn:Hc. remember (p', s') as c' eqn:Hc'. revert p s Hc.
  induction Hr as [c|c c1 c2 Hst Hr IH]; intros p s ->; [simplify_eq; constructor|].
  remember (p, s) as d eqn:Hd. destruct Hst as [q t q' t' Hn]. injection Hd as -> ->.
  eapply rtc_l; [|by apply IH]. apply thread_step_next.
  destruct p; try (by apply elem_of_nil in Hn); apply list_elem_of_fmap; by exists (q', t').
Qed.
Lemma alone_ret {A B} (a : A) s (k : A → prog St B) : alone (Bind (Ret a) k, s) (k a, s).
Proof. apply alone_next. by apply list_elem_of_singleton. Qed.
Lemma alone_panic {A B} s (k : A → prog St B) : alone (Bind Panic k, s) (Panic, s).
Proof. apply alone_next. by apply list_elem_of_singleton. Qed.
Lemma alone_then {A B} (p : prog St A) a s s' (k : A → prog St B) c :
  alone (p, s) (Ret a, s') → alone (k a, s') c → alone (Bind p k, s) c.
Proof. intros Hp Hk. etrans; [by apply alone_bind|]. etrans; [apply alone_ret|done]. Qed.
Lemma alone_fails {A B} (p : prog St A) s s' (k : A → prog St B) :
  alone (p, s) (Panic, s') → alone (Bind p k, s) (Panic, s').
Proof. intros Hp. etrans; [by apply alone_bind|apply alone_panic]. Qed.
Lemma alone_loop {A B} (body : B → prog St (B + A)) b x s s' c :
  alone (body b, s) (Ret x, s') → alone (match x with inl b' => Loop body b' | inr r => Ret r end, s') c →
  alone (Loop body b, s) c.
Proof.
  intros Hb Hk. etrans; [apply alone_next, list_elem_of_singleton; reflexivity|]. by eapply alone_then.
Qed.
Lemma alone_loop_fails {A B} (body : B → prog St (B + A)) b s s' :
  alone (body b, s) (Panic, s') → alone (Loop body b, s) (Panic, s').
Proof. intros Hb. etrans; [apply alone_next, list_elem_of_singleton; reflexivity|]. by apply alone_fails. Qed.
Lemma alone_atom {R} (f : St → R * St) s : alone (atom f, s) (Ret (f s).1, (f s).2).
Proof. apply alone_next. by apply list_elem_of_singleton. Qed.
(** A thread of a pool. *)
Lemma alone_reaches {A} (ts : list (prog St A)) i p s p' s' :
  ts !! i = Some p → alone (p, s) (p', s') → reaches (ts, s) (<[i := p']> ts, s').
Proof.
  intros Hp Hr. remember (p, s) as c eqn:Hc. remember (p', s') as c' eqn:Hc'. revert ts p s Hp Hc.
  induction Hr as [c|c c1 c2 Hst Hr IH]; intros ts p s Hp ->.
  { simplify_eq. rewrite list_insert_id by done. constructor. }
  remember (p, s) as d eqn:Hd. destruct Hst as [q t q' t' Hn]. injection Hd as -> ->.
  eapply rtc_l; [by econstructor|]. replace (<[i := p']> ts) with (<[i := p']> (<[i := q']> ts)) by apply list_insert_insert_eq.
  eapply IH; [done| |done]. apply list_lookup_insert_eq. by eapply lookup_lt_Some.
Qed.
End alone.

(** ** A logic for one thread *)
Section logic.
Context {St L : Type} (I : St → list L → Prop).

(** For [n] steps: every step of the thread, whatever the others do in between,
    keeps the invariant and changes only the ghost state of the thread. *)
Fixpoint safe {A} (n : nat) (i : nat) (l : L) (p : prog St A) (Q : A → L → Prop) : Prop :=
  match n with
  | O => True
  | S n =>
      (∀ a, p = Ret a → Q a l) ∧
      ∀ s ls p' s', I s ls → ls !! i = Some l → (p', s') ∈ next p s →
        ∃ l', I s' (<[i := l']> ls) ∧ safe n i l' p' Q
  end.
Definition triple {A} (i : nat) (l : L) (p : prog St A) (Q : A → L → Prop) : Prop := ∀ n, safe n i l p Q.

Lemma safe_mono {A} n m i l (p : prog St A) Q : safe n i l p Q → (m ≤ n)%nat → safe m i l p Q.
Proof.
  revert n l p. induction m as [|m IH]; intros n l p Hs Hm; [done|]. destruct n as [|n]; [lia|]. destruct Hs as [Hr Hs]. split; [done|].
  intros s ls p' s' HI Hl Hn. destruct (Hs s ls p' s' HI Hl Hn) as (l' & HI' & Hs'). exists l'. split; [done|]. apply (IH n); [done|lia].
Qed.
Lemma triple_ret {A} i l (a : A) (Q : A → L → Prop) : Q a l → triple i l (Ret a) Q.
Proof. intros HQ [|n]; [done|]. split; [by intros ? [= <-]|]. intros s ls p' s' _ _ []%elem_of_nil. Qed.
Lemma triple_panic {A} i l (Q : A → L → Prop) : triple i l Panic Q.
Proof. intros [|n]; [done|]. split; [done|]. intros s ls p' s' _ _ []%elem_of_nil. Qed.
Lemma triple_step {R} i l (f : St → list (R * St)) (Q : R → L → Prop) :
  (∀ s ls r s', I s ls → ls !! i = Some l → (r, s') ∈ f s → ∃ l', I s' (<[i := l']> ls) ∧ Q r l') →
  triple i l (Step f) Q.
Proof.
  intros Hf [|n]; [done|]. split; [done|]. intros s ls p' s' HI Hl Hr. apply list_elem_of_fmap in Hr as ([r s1] & [= -> ->] & Hr).
  destruct (Hf s ls r s1 HI Hl Hr) as (l' & HI' & HQ). exists l'. split; [done|]. by apply triple_ret.
Qed.
Lemma triple_atom {R} i l (f : St → R * St) (Q : R → L → Prop) :
  (∀ s ls, I s ls → ls !! i = Some l → ∃ l', I (f s).2 (<[i := l']> ls) ∧ Q (f s).1 l') →
  triple i l (atom f) Q.
Proof.
  intros Hf. apply triple_step. intros s ls r s' HI Hl Hr%list_elem_of_singleton. destruct (Hf s ls HI Hl) as (l' & HI' & HQ).
  rewrite <- Hr in *. by exists l'.
Qed.
Lemma triple_conseq {A} i l (p : prog St A) (Q Q' : A → L → Prop) :
  triple i l p Q → (∀ a l', Q a l' → Q' a l') → triple i l p Q'.
Proof.
  intros Ht HQ n. specialize (Ht n). revert l p Ht. induction n as [|n IH]; intros l p Hs; [done|]. destruct Hs as [Hr Hs].
  split; [by intros a ->; apply HQ, Hr|]. intros s ls p' s' HI Hl Hn. destruct (Hs s ls p' s' HI Hl Hn) as (l' & HI' & Hs'). eauto.
Qed.

(** A step that leaves the state alone. *)
Lemma safe_silent {A} n i l (p q : prog St A) Q :
  (∀ a, p ≠ Ret a) → (∀ s, next p s = [(q, s)]) → safe n i l q Q → safe (S n) i l p Q.
Proof.
  intros Hp Hn Hq. split; [intros a ->; by destruct (Hp a)|]. intros s ls p' s' HI Hl Hin. rewrite Hn in Hin.
  apply list_elem_of_singleton in Hin as [= -> ->]. exists l. rewrite list_insert_id by done. done.
Qed.
Lemma safe_bind {A B} n i (k : A → prog St B) Q1 Q : ∀ l (p : prog St A),
  safe n i l p Q1 → (∀ a l', Q1 a l' → safe n i l' (k a) Q) → safe n i l (Bind p k) Q.
Proof.
  induction n as [|n IH]; intros l p Hs Hk; [done|].
  assert (Hk' : ∀ a l', Q1 a l' → safe n i l' (k a) Q) by (intros a l' Ha; eapply safe_mono; [by apply Hk|lia]).
  assert (Hlift : (∀ s, next (Bind p k) s = (λ ps, (Bind ps.1 k, ps.2)) <$> next p s) → safe (S n) i l (Bind p k) Q).
  { intros Hn. split; [done|]. intros s ls q s' HI Hl Hin. rewrite Hn in Hin.
    apply list_elem_of_fmap in Hin as ([p' s1] & [= -> ->] & Hin). destruct Hs as [_ Hs].
    destruct (Hs s ls p' s1 HI Hl Hin) as (l' & HI' & Hs'). exists l'. split; [done|]. by apply IH. }
  destruct p as [a|f| |B' p k'|B' body b]; try by apply Hlift.
  - eapply safe_silent; [done|done|]. apply Hk'. by apply Hs.
  - eapply safe_silent; [done|done|]. apply triple_panic.
Qed.
Lemma triple_bind {A B} i l (p : prog St A) (k : A → prog St B) Q1 Q :
  triple i l p Q1 → (∀ a l', Q1 a l' → triple i l' (k a) Q) → triple i l (Bind p k) Q.
Proof. intros Hp Hk n. eapply safe_bind; [apply Hp|]. intros a l' Ha. by apply Hk. Qed.
(** The rule for loops, with the loop invariant [P]. *)
Lemma triple_loop {A B} i (body : B → prog St (B + A)) (P : B → L → Prop) Q :
  (∀ b l, P b l → triple i l (body b) (λ x l', match x with inl b' => P b' l' | inr r => Q r l' end)) →
  ∀ b l, P b l → triple i l (Loop body b) Q.
Proof.
  intros Hb b l HP n. revert b l HP. induction n as [|n IH]; intros b l HP; [done|].
  eapply safe_silent; [done|done|]. eapply safe_bind; [by apply Hb|]. intros [b'|r] l' HQ; [by apply IH|]. by apply triple_ret.
Qed.
Lemma triple_while {B} i (c : B → prog St bool) (body : B → prog St B) (P : B → L → Prop) (P' Q : B → L → Prop) :
  (∀ b l, P b l → triple i l (c b) (λ go l', if go then P' b l' else Q b l')) →
  (∀ b l, P' b l → triple i l (body b) P) →
  ∀ b l, P b l → triple i l (while_ c body b) Q.
Proof.
  intros Hc Hb b l HP. unfold while_. apply triple_loop with P; [|done]. clear b l HP. intros b l HP.
  eapply triple_bind; [by apply Hc|]. intros [|] l' HP'; [|by apply triple_ret].
  eapply triple_bind; [by apply Hb|]. intros b' l'' HP''. by apply triple_ret.
Qed.

(** ** Pools *)
(** Every interleaving of threads that satisfy their triples keeps the
    invariant, and a thread that has returned satisfies its postcondition. *)
Definition pool_ok {A} n (Q : nat → A → L → Prop) (ts : list (prog St A)) (ls : list L) : Prop :=
  length ts = length ls ∧ ∀ i p l, ts !! i = Some p → ls !! i = Some l → safe n i l p (Q i).
Lemma pool_step_ok {A} n Q (ts ts' : list (prog St A)) s s' ls :
  pool_step (ts, s) (ts', s') → I s ls → pool_ok (S n) Q ts ls → ∃ ls', I s' ls' ∧ pool_ok n Q ts' ls'.
Proof.
  intros Hstep HI [Hlen Hs]. remember (ts, s) as c eqn:Hc. remember (ts', s') as c' eqn:Hc'.
  destruct Hstep as [i p p' ts0 s0 s0' Hp Hn]. simplify_eq.
  destruct (lookup_lt_is_Some_2 ls i) as [l Hl]; [rewrite <- Hlen; by eapply lookup_lt_Some|].
  destruct (Hs i p l Hp Hl) as [_ Hst]. destruct (Hst s ls p' s' HI Hl Hn) as (l' & HI' & Hs').
  exists (<[i := l']> ls). split; [done|]. split; [by rewrite !length_insert|]. intros j q lj Hq Hlj.
  destruct (decide (i = j)) as [<-|Hne].
  - rewrite list_lookup_insert_eq in Hq by (by eapply lookup_lt_Some). rewrite list_lookup_insert_eq in Hlj by (by eapply lookup_lt_Some).
    by simplify_eq.
  - rewrite list_lookup_insert_ne in Hq by done. rewrite list_lookup_insert_ne in Hlj by done. eapply safe_mono; [by eapply Hs|lia].
Qed.
Lemma pool_safe {A} Q (ts ts' : list (prog St A)) s s' ls :
  reaches (ts, s) (ts', s') → I s ls → length ts = length ls →
  (∀ i p l, ts !! i = Some p → ls !! i = Some l → triple i l p (Q i)) →
  ∃ ls', I s' ls' ∧ length ts' = length ls' ∧
    ∀ i a l, ts' !! i = Some (Ret a) → ls' !! i = Some l → Q i a l.
Proof.
  intros Hr HI Hlen Ht. apply rtc_nsteps_1 in Hr as [n Hr].
  assert (Hok : pool_ok (S n) Q ts ls) by (split; [done|]; intros i p l Hp Hl; by apply Ht). clear Hlen Ht.
  remember (ts, s) as c eqn:Hc. remember (ts', s') as c' eqn:Hc'. revert ts s ls Hc HI Hok.
  induction Hr as [c|n c [ts1 s1] c'' Hst Hr IH]; intros ts s ls -> HI Hok.
  - injection Hc' as <- <-. exists ls. destruct Hok as [Hlen Hs]. split_and!; [done|done|].
    intros i a l Ha Hl. by eapply (Hs i (Ret a) l).
  - destruct (pool_step_ok _ _ _ _ _ _ _ Hst HI Hok) as (ls1 & HI1 & Hok1). by eapply IH.
Qed.
End logic.

(** ** Sums over the ghost states of the threads *)
Definition zsum {L} (f : L → Z) (ls : list L) : Z := foldr (λ l a, f l + a) 0 ls.
Lemma zsum_insert {L} (f : L → Z) ls i l l' : ls !! i = Some l → zsum f (<[i := l']> ls) = zsum f ls - f l + f l'.
Proof.
  revert i. induction ls as [|l0 ls IH]; intros [|i] Hi; try done; cbn in *.
  - injection Hi as ->. lia.
  - change (f l0 + zsum f (<[i:=l']> ls) = f l0 + zsum f ls - f l + f l'). rewrite (IH i Hi). lia.
Qed.
Lemma zsum_replicate {L} (f : L → Z) n l : zsum f (replicate n l) = Z.of_nat n * f l.
Proof. induction n as [|n IH]; [done|]. cbn [replicate]. change (zsum f (l :: replicate n l)) with (f l + zsum f (replicate n l)). lia. Qed.
Lemma zsum_bound {L} (f : L → Z) ls b : (∀ l, 0 ≤ f l ≤ b) → 0 ≤ zsum f ls ≤ b * len ls.
Proof.
  intros Hf. induction ls as [|l ls IH]; [unfold len; cbn; lia|]. change (zsum f (l :: ls)) with (f l + zsum f ls).
  unfold len in *. cbn [length]. specialize (Hf l). lia.
Qed.
Lemma zsum_ge {L} (f : L → Z) ls i l : (∀ l, 0 ≤ f l) → ls !! i = Some l → f l ≤ zsum f ls.
Proof.
  intros Hf. revert i. induction ls as [|l0 ls IH]; intros [|i] Hi; try done; change (zsum f (l0 :: ls)) with (f l0 + zsum f ls); cbn in Hi.
  - injection Hi as ->. assert (0 ≤ zsum f ls); [|lia]. clear -Hf. induction ls as [|l ls IH]; [done|].
    change (zsum f (l :: ls)) with (f l + zsum f ls). specialize (Hf l). lia.
  - specialize (IH i Hi). specialize (Hf l0). lia.
Qed.
Lemma zsum_le {L} (f g : L → Z) ls : (∀ l, f l ≤ g l) → zsum f ls ≤ zsum g ls.
Proof.
  intros Hfg. induction ls as [|l ls IH]; [done|]. specialize (Hfg l).
  change (f l + zsum f ls ≤ g l + zsum g ls). lia.
Qed.
Lemma zsum_zero {L} (f : L → Z) ls : Forall (λ l, f l = 0) ls → zsum f ls = 0.
Proof. induction 1 as [|l ls Hl _ IH]; [done|]. change (f l + zsum f ls = 0). lia. Qed.
Lemma zsum_two {L} (f : L → Z) ls i j l l' :
  (∀ l, 0 ≤ f l) → ls !! i = Some l → ls !! j = Some l' → i ≠ j → f l + f l' ≤ zsum f ls.
Proof.
  intros Hf. revert i j. induction ls as [|l0 ls IH]; intros [|i] [|j] Hi Hj Hne; try done;
    change (zsum f (l0 :: ls)) with (f l0 + zsum f ls); cbn in Hi, Hj; simplify_eq.
  - pose proof (zsum_ge f ls j l' Hf Hj). lia.
  - pose proof (zsum_ge f ls i l Hf Hi). lia.
  - specialize (IH i j Hi Hj ltac:(congruence)). specialize (Hf l0). lia.
Qed.

(** ** Parts of a larger state and a larger ghost state *)
(** A lens is a variable: what is written is read, and the last write wins. *)
Class LensOk {St V : Type} (x : lens St V) : Prop := {
  lens_get v s : view x (update x v s) = v;
  lens_put v v' s : update x v' (update x v s) = update x v' s;
  lens_same s : update x (view x s) s = s;
}.
Section framed.
Context {St V L C : Type} (x : lens St V) `{!LensOk x} (I : V → list L → Prop) (J : St → list (L * C) → Prop) (may : C → L → Prop).
(** The invariant [I] of the variable [x], beside an invariant [J] of the rest
    that does not depend on [x], nor on the part of a thread in [I] as long as
    it changes to one that [may] allows. *)
Definition framed : Prop :=
  (∀ s v lcs, J s lcs → J (update x v s) lcs) ∧
  (∀ s lcs i l l' c, J s lcs → lcs !! i = Some (l, c) → may c l' → J s (<[i := (l', c)]> lcs)).
Definition framed_inv (s : St) (lcs : list (L * C)) : Prop := I (view x s) lcs.*1 ∧ J s lcs.
Lemma framed_step s lcs i l c v' l' :
  framed → framed_inv s lcs → lcs !! i = Some (l, c) → may c l' → I v' (<[i := l']> lcs.*1) →
  framed_inv (update x v' s) (<[i := (l', c)]> lcs).
Proof.
  intros [Hv Hq] [HI HJ] Hl Hc HI'. split.
  - rewrite lens_get. by rewrite list_fmap_insert.
  - apply Hv. by eapply Hq.
Qed.
Lemma framed_ghost (lcs : list (L * C)) i l c : lcs !! i = Some (l, c) → lcs.*1 !! i = Some l.
Proof. intros Hl. rewrite list_lookup_fmap, Hl. done. Qed.

Context (Hfr : framed) (i : nat) (l : L) (c : C).
(** Atomic operations on the variable, for a thread whose changes [may]
    restricts. *)
Lemma framed_rmw_may f Q :
  (∀ v ls, I v ls → ls !! i = Some l → ∃ l', may c l' ∧ I (f v) (<[i := l']> ls) ∧ Q v (l', c)) →
  triple framed_inv i (l, c) (a_rmw x f) Q.
Proof.
  intros Hf. apply triple_atom. intros s lcs HI Hl. cbn.
  destruct (Hf (view x s) lcs.*1) as (l' & Hm & HI' & HQ); [apply HI|by eapply framed_ghost|].
  exists (l', c). split; [|done]. by eapply framed_step.
Qed.
Lemma framed_same s lcs : framed_inv s lcs → lcs !! i = Some (l, c) → framed_inv s (<[i := (l, c)]> lcs).
Proof. intros HI Hl. by rewrite list_insert_id. Qed.
Lemma framed_cas_may `{!EqDecision V} old new Q :
  (∀ ls, I old ls → ls !! i = Some l → ∃ l', may c l' ∧ I new (<[i := l']> ls) ∧ Q (ok old) (l', c)) →
  (∀ v, v ≠ old → Q (err v) (l, c)) →
  triple framed_inv i (l, c) (a_cas x old new) Q.
Proof.
  intros Hs Hf. apply triple_atom. intros s lcs HI Hl. case_decide as Hv; cbn.
  - destruct (Hs lcs.*1) as (l' & Hm & HI' & HQ); [rewrite <- Hv; apply HI|by eapply framed_ghost|].
    exists (l', c). split; [|done]. by eapply framed_step.
  - exists (l, c). split; [by apply framed_same|by apply Hf].
Qed.
Lemma framed_cas_weak_may `{!EqDecision V} old new Q :
  (∀ ls, I old ls → ls !! i = Some l → ∃ l', may c l' ∧ I new (<[i := l']> ls) ∧ Q (ok old) (l', c)) →
  (∀ v, Q (err v) (l, c)) →
  triple framed_inv i (l, c) (a_cas_weak x old new) Q.
Proof.
  intros Hs Hf. apply triple_step. intros s lcs r s' HI Hl Hr. case_decide as Hv.
  - apply elem_of_cons in Hr as [[= -> ->]|[= -> ->]%list_elem_of_singleton].
    + destruct (Hs lcs.*1) as (l' & Hm & HI' & HQ); [rewrite <- Hv; apply HI|by eapply framed_ghost|].
      exists (l', c). split; [|done]. by eapply framed_step.
    + exists (l, c). split; [by apply framed_same|by apply Hf].
  - apply list_elem_of_singleton in Hr as [= -> ->]. exists (l, c). split; [by apply framed_same|by apply Hf].
Qed.

(** The same for a thread that may change to anything. *)
Context (Hc : ∀ l', may c l').
Lemma framed_rmw f Q :
  (∀ v ls, I v ls → ls !! i = Some l → ∃ l', I (f v) (<[i := l']> ls) ∧ Q v (l', c)) →
  triple framed_inv i (l, c) (a_rmw x f) Q.
Proof. intros Hf. apply framed_rmw_may. intros v ls HI Hl. destruct (Hf v ls HI Hl) as (l' & ? & ?). by exists l'. Qed.
Lemma framed_load Q :
  (∀ v ls, I v ls → ls !! i = Some l → ∃ l', I v (<[i := l']> ls) ∧ Q v (l', c)) →
  triple framed_inv i (l, c) (a_load x) Q.
Proof.
  intros Hf. apply triple_atom. intros s lcs HI Hl. cbn.
  destruct (Hf (view x s) lcs.*1) as (l' & HI' & HQ); [apply HI|by eapply framed_ghost|].
  exists (l', c). split; [|done]. rewrite <- (lens_same (x := x) s). by eapply framed_step.
Qed.
Lemma framed_store v Q :
  (∀ v0 ls, I v0 ls → ls !! i = Some l → ∃ l', I v (<[i := l']> ls) ∧ Q tt (l', c)) →
  triple framed_inv i (l, c) (a_store x v) Q.
Proof.
  intros Hf. apply triple_atom. intros s lcs HI Hl. cbn.
  destruct (Hf (view x s) lcs.*1) as (l' & HI' & HQ); [apply HI|by eapply framed_ghost|].
  exists (l', c). split; [|done]. by eapply framed_step.
Qed.
Lemma framed_cas `{!EqDecision V} old new Q :
  (∀ ls, I old ls → ls !! i = Some l → ∃ l', I new (<[i := l']> ls) ∧ Q (ok old) (l', c)) →
  (∀ v, v ≠ old → Q (err v) (l, c)) →
  triple framed_inv i (l, c) (a_cas x old new) Q.
Proof. intros Hs. apply framed_cas_may. intros ls HI Hl. destruct (Hs ls HI Hl) as (l' & ? & ?). by exists l'. Qed.
Lemma framed_cas_weak `{!EqDecision V} old new Q :
  (∀ ls, I old ls → ls !! i = Some l → ∃ l', I new (<[i := l']> ls) ∧ Q (ok old) (l', c)) →
  (∀ v, Q (err v) (l, c)) →
  triple framed_inv i (l, c) (a_cas_weak x old new) Q.
Proof. intros Hs. apply framed_cas_weak_may. intros ls HI Hl. destruct (Hs ls HI Hl) as (l' & ? & ?). by exists l'. Qed.
(** Fields of the variable. *)
Lemma framed_field_rmw {W} (y : lens V W) f Q :
  (∀ v ls, I v ls → ls !! i = Some l → ∃ l', I (update y (f (view y v)) v) (<[i := l']> ls) ∧ Q (view y v) (l', c)) →
  triple framed_inv i (l, c) (a_rmw (lens_comp x y) f) Q.
Proof.
  intros Hf. apply triple_atom. intros s lcs HI Hl. cbn.
  destruct (Hf (view x s) lcs.*1) as (l' & HI' & HQ); [apply HI|by eapply framed_ghost|].
  exists (l', c). split; [|done]. by eapply framed_step.
Qed.
Lemma framed_field_store {W} (y : lens V W) w Q :
  (∀ v ls, I v ls → ls !! i = Some l → ∃ l', I (update y w v) (<[i := l']> ls) ∧ Q tt (l', c)) →
  triple framed_inv i (l, c) (a_store (lens_comp x y) w) Q.
Proof.
  intros Hf. apply triple_atom. intros s lcs HI Hl. cbn.
  destruct (Hf (view x s) lcs.*1) as (l' & HI' & HQ); [apply HI|by eapply framed_ghost|].
  exists (l', c). split; [|done]. by eapply framed_step.
Qed.
Lemma framed_field_load {W} (y : lens V W) Q :
  (∀ v ls, I v ls → ls !! i = Some l → ∃ l', I v (<[i := l']> ls) ∧ Q (view y v) (l', c)) →
  triple framed_inv i (l, c) (a_load (lens_comp x y)) Q.
Proof.
  intros Hf. apply triple_atom. intros s lcs HI Hl. cbn.
  destruct (Hf (view x s) lcs.*1) as (l' & HI' & HQ); [apply HI|by eapply framed_ghost|].
  exists (l', c). split; [|done]. rewrite <- (lens_same (x := x) s). by eapply framed_step.
Qed.
End framed.
