(* ===== verification/Mutex.v ===== *)
(** * Mutexes ([spin/src/mutex.rs], [mutex/spin.rs])

    [MutexImpl] is what a mutex offers and [MutexLaws] what it promises: at
    most one thread holds a guard.  [mutex_serializes] is the client's theorem,
    proved from the interface alone: threads that change the data under the lock
    behave as if their critical sections ran one after the other.
    [SpinMutex], the mutex the kernel uses, implements the interface; the
    other two mutexes of the crate are in [FairLocks.v]. *)

From S2P Require Import Prelude Conc.

(** ** The interface *)
(** The lock words of a mutex and the guard; a mutex is used through a
    reference to its lock words. *)
Class MutexImpl (LS G : Type) : Type := {
  mx_new : LS;
  mx_lock : ∀ {St}, lens St LS → prog St G;
  mx_unlock : ∀ {St}, lens St LS → G → prog St unit;
}.
(** [minv] relates the lock words to what the threads hold. *)
Class MutexLaws (LS G L : Type) `{MutexImpl LS G} (minv : LS → list L → Prop) (idle : L) (held : G → L → Prop) : Prop := {
  law_new n : Z.of_nat n < 2 ^ 62 → minv mx_new (replicate n idle);
  law_excl v ls i j g g' l l' : minv v ls → ls !! i = Some l → ls !! j = Some l' → held g l → held g' l' → i = j;
  law_lock {St C} (x : lens St LS) (J : St → list (L * C) → Prop) (may : C → L → Prop) i c :
    LensOk x → framed x J may → (∀ l, may c l) →
    triple (framed_inv x minv J) i (idle, c) (mx_lock x) (λ g lc, ∃ l, held g l ∧ lc = (l, c));
  law_unlock {St C} (x : lens St LS) (J : St → list (L * C) → Prop) (may : C → L → Prop) i g l c :
    LensOk x → framed x J may → (∀ l, may c l) → held g l →
    triple (framed_inv x minv J) i (l, c) (mx_unlock x g) (λ _ lc, lc = (idle, c));
}.

(** A mutex with its data. *)
Record mutex (LS T : Type) : Type := mkMutex { lock_word : LS; data : T }.
Arguments mkMutex {LS T} lock_word data.
Arguments lock_word {LS T} m.
Arguments data {LS T} m.
Definition lock_ {LS T} : lens (mutex LS T) LS := Lens lock_word (λ w m, mkMutex w (data m)).
Definition data_ {LS T} : lens (mutex LS T) T := Lens data (λ d m, mkMutex (lock_word m) d).
#[export] Instance lock_ok {LS T} : LensOk (@lock_ LS T).
Proof. split; [done|done|by intros []]. Qed.
#[export] Instance data_ok {LS T} : LensOk (@data_ LS T).
Proof. split; [done|done|by intros []]. Qed.

(** ** Histories *)
(** The ghost state of a thread: the changes it has made to the data, and what
    it has read of it under the lock it holds. *)
Record cghost (T : Type) : Type := mkC { c_done : list (T → T); c_read : option T }.
Arguments mkC {T} c_done c_read.
Arguments c_done {T} c.
Arguments c_read {T} c.
Definition quiet {T} (c : cghost T) : Prop := c_read c = None.
Definition apply_all {T} (h : list (nat * (T → T))) (d : T) : T := foldl (λ d p, p.2 d) d h.
Definition ops_of {T} (i : nat) (h : list (nat * (T → T))) : list (T → T) := (filter (λ p, p.1 = i) h).*2.
Lemma ops_of_snoc {T} i j (f : T → T) h : ops_of i (h ++ [(j, f)]) = if decide (i = j) then ops_of i h ++ [f] else ops_of i h.
Proof.
  unfold ops_of. rewrite filter_app, fmap_app, filter_cons. cbn. destruct (decide (j = i)) as [->|Hne].
  - by rewrite decide_True.
  - rewrite decide_False by done. apply app_nil_r.
Qed.
Lemma fmap_insert_fst {L C} (lcs : list (L * C)) i l c c' :
  lcs !! i = Some (l, c) → (<[i := (l, c')]> lcs).*1 = lcs.*1.
Proof. intros Hl. rewrite list_fmap_insert. apply list_insert_id. rewrite list_lookup_fmap, Hl. done. Qed.

Section serial.
Context {LS L T : Type} (acc : L → Prop) (d0 : T).
(** The data is the result of a history in which every thread has the changes
    it has made, in order; a thread that has read the data has access to it and
    has read the current data. *)
Definition serial (m : mutex LS T) (lcs : list (L * cghost T)) : Prop :=
  (∃ h, data m = apply_all h d0 ∧ ∀ i l c, lcs !! i = Some (l, c) → ops_of i h = c_done c) ∧
  (∀ i l c v, lcs !! i = Some (l, c) → c_read c = Some v → v = data m ∧ acc l).
(** What a thread may change to without touching the data. *)
Definition keeps (c : cghost T) (l : L) : Prop := quiet c ∨ acc l.

(** A step that leaves the data as it is. *)
Lemma serial_same m lcs i l c l' c' :
  serial m lcs → lcs !! i = Some (l, c) → c_done c' = c_done c →
  (∀ v, c_read c' = Some v → v = data m ∧ acc l') → serial m (<[i := (l', c')]> lcs).
Proof.
  intros [(h & Hd & Hh) Hr] Hl Hdone Hread. split.
  - exists h. split; [done|]. intros j lj cj Hj. destruct (decide (i = j)) as [<-|Hne].
    + rewrite list_lookup_insert_eq in Hj by (by eapply lookup_lt_Some). injection Hj as <- <-. rewrite Hdone. by eapply Hh.
    + rewrite list_lookup_insert_ne in Hj by done. by eapply Hh.
  - intros j lj cj v Hj Hv. destruct (decide (i = j)) as [<-|Hne].
    + rewrite list_lookup_insert_eq in Hj by (by eapply lookup_lt_Some). injection Hj as <- <-. by apply Hread.
    + rewrite list_lookup_insert_ne in Hj by done. by eapply Hr.
Qed.
Lemma serial_framed : framed lock_ serial keeps.
Proof.
  split; [done|]. intros m lcs i l l' c HJ Hl Hq. eapply serial_same; [done..|]. intros v Hv.
  destruct HJ as [_ Hr]. destruct (Hr i l c v Hl Hv) as [-> _]. destruct Hq as [Hq|Hq]; [|done]. unfold quiet in Hq. congruence.
Qed.
(** A thread that has read the data, and that no other thread has access beside,
    writes it. *)
Lemma serial_write m lcs i l c f v r w :
  serial m lcs → lcs !! i = Some (l, c) → c_read c = Some v →
  (∀ j lj cj, lcs !! j = Some (lj, cj) → acc lj → j = i) →
  (r = None ∨ r = Some (f v)) →
  serial (mkMutex w (f v)) (<[i := (l, mkC (c_done c ++ [f]) r)]> lcs).
Proof.
  intros [(h & Hd & Hh) Hr] Hl Hc Hx Hrr. destruct (Hr i _ _ v Hl Hc) as [Hv Ha]. split.
  - exists (h ++ [(i, f)]). cbn. split; [unfold apply_all; rewrite foldl_app; cbn; rewrite Hv, Hd; done|].
    intros j lj cj Hj. rewrite ops_of_snoc. destruct (decide (j = i)) as [->|Hne].
    + rewrite list_lookup_insert_eq in Hj by (by eapply lookup_lt_Some). injection Hj as <- <-. cbn. f_equal. by eapply Hh.
    + rewrite list_lookup_insert_ne in Hj by done. by eapply Hh.
  - intros j lj cj u Hj Hu. destruct (decide (i = j)) as [<-|Hne].
    + rewrite list_lookup_insert_eq in Hj by (by eapply lookup_lt_Some). injection Hj as <- <-. cbn in Hu.
      destruct Hrr as [-> | ->]; [done|]. injection Hu as <-. done.
    + rewrite list_lookup_insert_ne in Hj by done. destruct (Hr j _ _ u Hj Hu) as [_ Hb]. by destruct Hne; symmetry; eapply Hx.
Qed.

Context (I : LS → list L → Prop).
#[local] Notation Inv := (framed_inv lock_ I serial).
(** Reading the data under the lock. *)
Lemma read_spec i l c : quiet c → acc l →
  triple Inv i (l, c) (a_load data_) (λ v lc, lc = (l, mkC (c_done c) (Some v))).
Proof.
  intros Hq Ha. apply triple_atom. intros m lcs [HI HJ] Hl. cbn. eexists. split; [|done].
  split; [by rewrite (fmap_insert_fst _ _ _ c)|]. eapply serial_same; [done..|]. by intros ? [= <-].
Qed.
(** Reading it again gives the same. *)
Lemma reread_spec i l c v : c_read c = Some v →
  triple Inv i (l, c) (a_load data_) (λ w lc, w = v ∧ lc = (l, mkC (c_done c) None)).
Proof.
  intros Hc. apply triple_atom. intros m lcs [HI HJ] Hl. cbn. eexists. split; [|split; [|done]].
  - split; [by rewrite (fmap_insert_fst _ _ _ c)|]. by eapply serial_same.
  - destruct HJ as [_ Hr]. destruct (Hr _ _ _ v Hl Hc) as [-> _]. done.
Qed.
Lemma write_spec i l c f v r : c_read c = Some v →
  (∀ w ls j lj, I w ls → ls !! i = Some l → ls !! j = Some lj → acc lj → j = i) →
  (r = None ∨ r = Some (f v)) →
  triple Inv i (l, c) (a_store data_ (f v)) (λ _ lc, lc = (l, mkC (c_done c ++ [f]) r)).
Proof.
  intros Hc Hx Hr. apply triple_atom. intros m lcs [HI HJ] Hl. cbn. eexists. split; [|done].
  split; [by rewrite (fmap_insert_fst _ _ _ c)|]. eapply serial_write; [done..| |done].
  intros j lj cj Hj Ha. eapply Hx; [exact HI|by eapply framed_ghost|by eapply framed_ghost|done].
Qed.
Lemma serial_start m n l : data m = d0 → serial m (replicate n (l, mkC [] None)).
Proof.
  intros Hd. split.
  - exists []. split; [done|]. intros i l' c Hl. apply lookup_replicate in Hl as [Hl _]. injection Hl as -> ->. done.
  - intros i l' c v Hl Hv. apply lookup_replicate in Hl as [Hl _]. injection Hl as -> ->. done.
Qed.
End serial.

(** ** Clients *)
Section client.
Context {LS G L T : Type} `{HM : MutexLaws LS G L}.

(** A critical section: the data is read through the guard, and written later;
    nothing but the lock keeps other threads out between the two. *)
Definition critical (f : T → T) : prog (mutex LS T) unit :=
  let% g := mx_lock lock_ in
  let% v := a_load data_ in
  a_store data_ (f v) ;%
  mx_unlock lock_ g.
Fixpoint criticals (fs : list (T → T)) : prog (mutex LS T) unit :=
  match fs with
  | [] => Ret tt
  | f :: fs => critical f ;% criticals fs
  end.

Definition holds (l : L) : Prop := ∃ g, held g l.
Context (d0 : T).
#[local] Notation Inv := (framed_inv lock_ minv (serial holds d0)).

Lemma critical_spec i f c : quiet c →
  triple Inv i (idle, c) (critical f) (λ _ lc, lc = (idle, mkC (c_done c ++ [f]) None)).
Proof.
  intros Hq. eapply triple_bind; [apply (law_lock lock_ _ _ i c _ (serial_framed holds d0)); by left|].
  intros g lc (l & Hg & ->). eapply triple_bind; [apply read_spec; [done|by exists g]|]. intros v lc ->.
  eapply triple_bind; [apply write_spec with (r := None); [done| |by left]|].
  - intros w ls j lj HI Hi Hj [g' Hg']. by eapply (law_excl w ls j i).
  - intros _ lc ->. apply (law_unlock lock_ _ _ i g l _ _ (serial_framed holds d0)); [by left|done].
Qed.
Lemma criticals_spec i fs : ∀ c, quiet c →
  triple Inv i (idle, c) (criticals fs) (λ _ lc, lc = (idle, mkC (c_done c ++ fs) None)).
Proof.
  induction fs as [|f fs IH]; intros c Hq.
  - apply triple_ret. rewrite app_nil_r. destruct c; cbn in *. by rewrite Hq.
  - eapply triple_bind; [by apply critical_spec|]. intros _ lc ->. eapply triple_conseq; [by apply IH|].
    intros _ lc ->. cbn. by rewrite <- app_assoc.
Qed.
End client.

(** C13. A mutex serialises its critical sections.  Any number of threads run any
    critical sections on the data of any mutex that keeps the interface, in any
    interleaving of their atomic steps: when all have returned, the data is what
    the sections give when run one after the other, in some order that keeps the
    order of each thread.  No update is lost. *)
Theorem mutex_serializes {LS G L T} `{HM : MutexLaws LS G L} (fss : list (list (T → T))) (d0 : T) ts' m' :
  len fss < 2 ^ 62 →
  reaches (criticals <$> fss, mkMutex mx_new d0) (ts', m') → Forall (λ p, p = Ret tt) ts' →
  ∃ h, data m' = apply_all h d0 ∧ ∀ i fs, fss !! i = Some fs → ops_of i h = fs.
Proof.
  intros Hn Hr Hdone. set (n := length fss). set (c0 := mkC (T := T) [] None).
  destruct (pool_safe (framed_inv lock_ minv (serial (holds (held := held)) d0)) (λ i _ lc, ∃ fs, fss !! i = Some fs ∧ lc = (idle, mkC fs None))
    _ _ _ _ (replicate n (idle, c0)) Hr) as (lcs & [_ [(h & Hd & Hh) _]] & Hlen & HQ).
  - split; [rewrite fmap_replicate; by apply law_new|by apply serial_start].
  - by rewrite length_fmap, length_replicate.
  - intros i p l Hp [-> _]%lookup_replicate. rewrite list_lookup_fmap in Hp. destruct (fss !! i) as [fs|] eqn:Hfs; [|done].
    injection Hp as <-. eapply triple_conseq; [by apply criticals_spec|]. intros _ lc ->. by exists fs.
  - exists h. split; [done|]. intros i fs Hfs.
    assert (Hlt : length ts' = n) by (apply reaches_length in Hr; by rewrite length_fmap in Hr).
    assert (Hi : (i < n)%nat) by (by eapply lookup_lt_Some).
    destruct (lookup_lt_is_Some_2 ts' i) as [p Hp]; [lia|]. destruct (lookup_lt_is_Some_2 lcs i) as [lc Hlc]; [lia|].
    rewrite Forall_forall in Hdone. assert (p = Ret tt) as -> by (eapply Hdone, list_elem_of_lookup_2; done).
    destruct (HQ i tt lc Hp Hlc) as (fs' & Hfs' & ->). rewrite Hfs in Hfs'. injection Hfs' as <-. by apply (Hh i _ _ Hlc).
Qed.

(** ** [SpinMutex] *)
(** [spin/relax.rs:23-31] RelaxStrategy for Spin. A hint to the processor. *)
Definition relax {St} : prog St unit := Ret tt.

Section spin.
Context {St : Type} (lock : lens St bool).

(** [spin/mutex/spin.rs:211-213] SpinMutex::is_locked *)
Definition SpinMutex_is_locked : prog St bool := a_load lock.
(** [spin/mutex/spin.rs:187-193] SpinMutex::lock. The inner loop: [count] is the
    number of polls so far. *)
Definition SpinMutex_spin (count : Z) : prog St Z :=
  while_ (λ _, SpinMutex_is_locked)
    (λ count, let count := count +u 1 in relax ;% if count =? 100000000 then Panic else Ret count) count.
(** [spin/mutex/spin.rs:177-200] SpinMutex::lock *)
Definition SpinMutex_lock : prog St unit :=
  while_ (λ _, let% r := a_cas_weak lock false true in Ret (negb (is_ok r))) SpinMutex_spin 0 ;%
  Ret tt.
(** [spin/mutex/spin.rs:223-225] SpinMutex::force_unlock *)
Definition SpinMutex_force_unlock : prog St unit := a_store lock false.
(** [spin/mutex/spin.rs:242-257] SpinMutex::try_lock *)
Definition SpinMutex_try_lock : prog St (option unit) :=
  let% r := a_cas lock false true in
  Ret (if is_ok r then Some tt else None).
(** [spin/mutex/spin.rs:352-357] Drop for SpinMutexGuard *)
Definition SpinMutexGuard_drop (_ : unit) : prog St unit := a_store lock false.
End spin.
(** [spin/mutex/spin.rs:72-76] SpinMutex *)
Definition SpinMutex (T : Type) : Type := mutex bool T.
(** [spin/mutex/spin.rs:110-116] SpinMutex::new *)
Definition SpinMutex_new {T} (d : T) : SpinMutex T := mkMutex false d.
(** [spin/mutex/spin.rs:127-132] SpinMutex::into_inner *)
Definition SpinMutex_into_inner {T} (m : SpinMutex T) : T := data m.
(** [spin/mutex/spin.rs:337-343] Deref for SpinMutexGuard *)
Definition SpinMutexGuard_deref {T} : prog (SpinMutex T) T := a_load data_.
(** [spin/mutex/spin.rs:345-350] DerefMut for SpinMutexGuard *)
Definition SpinMutexGuard_deref_mut {T} (d : T) : prog (SpinMutex T) unit := a_store data_ d.

#[export] Instance SpinMutex_impl : MutexImpl bool unit := {|
  mx_new := false; mx_lock _ := SpinMutex_lock; mx_unlock _ := SpinMutexGuard_drop |}.
(** The lock word says whether some thread holds the lock; at most one does. *)
Definition b2z (b : bool) : Z := if b then 1 else 0.
Lemma b2z_range b : 0 ≤ b2z b ≤ 1.
Proof. destruct b; cbn; lia. Qed.
Lemma b2z_nonneg b : 0 ≤ b2z b.
Proof. destruct b; cbn; lia. Qed.
Definition spin_inv (b : bool) (ls : list bool) : Prop := zsum b2z ls = b2z b.

Section spin_spec.
Context {St C : Type} (x : lens St bool) `{!LensOk x} (J : St → list (bool * C) → Prop) (may : C → bool → Prop).
Context (Hfr : framed x J may) (i : nat) (c : C) (Hc : ∀ l, may c l).
#[local] Notation Inv := (framed_inv x spin_inv J).

Lemma spin_take ls : spin_inv false ls → ls !! i = Some false → spin_inv true (<[i := true]> ls).
Proof. unfold spin_inv. intros HI Hl. rewrite (zsum_insert _ _ _ _ _ Hl), HI. done. Qed.
Lemma spin_release b ls : spin_inv b ls → ls !! i = Some true → spin_inv false (<[i := false]> ls).
Proof.
  unfold spin_inv. intros HI Hl. rewrite (zsum_insert _ _ _ _ _ Hl).
  pose proof (zsum_ge b2z ls i true b2z_nonneg Hl) as Hge. cbn in *. destruct b; cbn in *; lia.
Qed.
Lemma is_locked_spec l Q : (∀ b, Q b (l, c)) → triple Inv i (l, c) (SpinMutex_is_locked x) Q.
Proof. intros HQ. apply (framed_load x spin_inv J may Hfr i l c Hc). intros v ls HI Hl. exists l. by rewrite list_insert_id. Qed.
Lemma SpinMutex_lock_spec : triple Inv i (false, c) (SpinMutex_lock x) (λ _ lc, lc = (true, c)).
Proof.
  eapply triple_bind with (Q1 := λ _ lc, lc = (true, c)); [|intros ? lc ->; by apply triple_ret].
  apply triple_while with (P := λ _ lc, lc = (false, c)) (P' := λ _ lc, lc = (false, c)); [| |done].
  - intros _ lc ->. eapply triple_bind with (Q1 := λ r lc, lc = (is_ok r, c)).
    + apply (framed_cas_weak x spin_inv J may Hfr i false c Hc); [|done]. intros ls HI Hl. exists true. split; [by apply spin_take|done].
    + intros r lc ->. apply triple_ret. by destruct r.
  - intros count lc ->. unfold SpinMutex_spin.
    apply triple_while with (P := λ _ lc, lc = (false, c)) (P' := λ _ lc, lc = (false, c)); [| |done].
    + intros _ lc ->. apply is_locked_spec. by intros [].
    + intros n lc ->. eapply triple_bind; [apply triple_ret with (Q := λ _ lc, lc = (false, c)); done|].
      intros _ lc ->. case_match; [apply triple_panic|by apply triple_ret].
Qed.
Lemma SpinMutex_try_lock_spec :
  triple Inv i (false, c) (SpinMutex_try_lock x) (λ o lc, lc = (bool_decide (o = Some tt), c)).
Proof.
  eapply triple_bind with (Q1 := λ r lc, lc = (is_ok r, c)).
  - apply (framed_cas x spin_inv J may Hfr i false c Hc); [|done]. intros ls HI Hl. exists true. split; [by apply spin_take|done].
  - intros r lc ->. apply triple_ret. by destruct r.
Qed.
Lemma SpinMutexGuard_drop_spec : triple Inv i (true, c) (SpinMutexGuard_drop x tt) (λ _ lc, lc = (false, c)).
Proof. apply (framed_store x spin_inv J may Hfr i true c Hc). intros b ls HI Hl. exists false. split; [by eapply spin_release|done]. Qed.
End spin_spec.

#[export] Instance SpinMutex_laws : MutexLaws bool unit bool spin_inv false (λ _ l, l = true).
Proof.
  split.
  - intros n _. unfold spin_inv. rewrite zsum_replicate. cbn. lia.
  - intros b ls i j _ _ l l' HI Hi Hj -> ->. destruct (decide (i = j)) as [|Hne]; [done|].
    pose proof (zsum_two b2z ls i j true true b2z_nonneg Hi Hj Hne) as H2.
    unfold spin_inv in HI. rewrite HI in H2. destruct b; cbn in H2; lia.
  - intros St C x J may i c Hx Hfr Hc. eapply triple_conseq; [by eapply SpinMutex_lock_spec|]. intros _ lc ->. by exists true.
  - intros St C x J may i [] l c Hx Hfr Hc ->. by eapply SpinMutexGuard_drop_spec.
Qed.

(** ** Giving up *)
Lemma spin_polls {St} (x : lens St bool) s n : view x s = true →
  ∀ count, 0 ≤ count < 100000000 → Z.to_nat (100000000 - count) = n →
  alone (SpinMutex_spin x count, s) (Panic, s).
Proof.
  intros Hl. induction n as [|n IH]; intros count Hc Hn; [lia|].
  unfold SpinMutex_spin, while_.
  assert (Hp : alone (SpinMutex_is_locked x, s) (Ret true, s)).
  { unfold SpinMutex_is_locked, a_load. pose proof (alone_atom (λ s, (view x s, s)) s) as Ha. cbn in Ha. by rewrite Hl in Ha. }
  destruct (decide (count +u 1 = 100000000)) as [He|Hne].
  - apply alone_loop_fails. eapply alone_then; [exact Hp|]. apply alone_fails. cbv zeta.
    eapply alone_then; [constructor|]. rewrite He. constructor.
  - eapply alone_loop with (x := inl (count +u 1)).
    + eapply alone_then; [exact Hp|]. cbv zeta. eapply alone_then; [|constructor].
      eapply alone_then; [constructor|]. rewrite (proj2 (Z.eqb_neq _ _)) by done. constructor.
    + apply IH; rewrite uadd_small in * by lia; lia.
Qed.
(** [SpinMutex::lock] does not wait for ever: a thread that has polled a held
    lock a hundred million times panics with [dead lock], whatever the reason the
    lock is still held. *)
Theorem SpinMutex_lock_gives_up {T} (ts : list (prog (SpinMutex T) unit)) i (d : T) :
  ts !! i = Some (SpinMutex_lock lock_) →
  reaches (ts, mkMutex true d) (<[i := Panic]> ts, mkMutex true d).
Proof.
  intros Hi. eapply alone_reaches; [done|]. apply alone_fails, alone_loop_fails.
  eapply alone_then.
  - eapply alone_then; [|constructor]. apply alone_next. by apply list_elem_of_singleton.
  - cbn [is_ok negb]. apply alone_fails. by eapply spin_polls.
Qed.
Lemma SpinMutex_lock_gives_up_witness :
  reaches ([SpinMutex_lock lock_; Ret tt], mkMutex true 7) ([Panic; Ret tt], mkMutex true 7).
Proof. apply (SpinMutex_lock_gives_up [SpinMutex_lock lock_; Ret tt] 0 7). reflexivity. Defined.

(** ** [Mutex] *)
(** The mutex the kernel is built with: a [SpinMutex] under another name. *)
(** [spin/mutex.rs:113-115] Mutex *)
Definition Mutex (T : Type) : Type := SpinMutex T.
(** [spin/mutex.rs:148-152] Mutex::new *)
Definition Mutex_new {T} (value : T) : Mutex T := SpinMutex_new value.
(** [spin/mutex.rs:163-165] Mutex::into_inner *)
Definition Mutex_into_inner {T} (m : Mutex T) : T := SpinMutex_into_inner m.
Section wrapper.
Context {St : Type} (lock : lens St bool).
(** [spin/mutex.rs:184-188] Mutex::lock *)
Definition Mutex_lock : prog St unit := SpinMutex_lock lock.
(** [spin/mutex.rs:199-201] Mutex::is_locked *)
Definition Mutex_is_locked : prog St bool := SpinMutex_is_locked lock.
(** [spin/mutex.rs:211-213] Mutex::force_unlock *)
Definition Mutex_force_unlock : prog St unit := SpinMutex_force_unlock lock.
(** [spin/mutex.rs:230-234] Mutex::try_lock *)
Definition Mutex_try_lock : prog St (option unit) := SpinMutex_try_lock lock.
(** [spin/mutex.rs:323-326] RawMutex::lock *)
Definition RawMutex_lock : prog St unit := Mutex_lock ;% Ret tt.
(** [spin/mutex.rs:328-331] RawMutex::try_lock *)
Definition RawMutex_try_lock : prog St bool := let% g := Mutex_try_lock in Ret (bool_decide (is_Some g)).
(** [spin/mutex.rs:333-335] RawMutex::unlock *)
Definition RawMutex_unlock : prog St unit := Mutex_force_unlock.
(** [spin/mutex.rs:337-339] RawMutex::is_locked *)
Definition RawMutex_is_locked : prog St bool := SpinMutex_is_locked lock.
End wrapper.

(** Two threads, one of which runs two critical sections: the first runs alone,
    then the second. *)
Definition two_threads : list (list (Z → Z)) := [[λ n, n + 1; λ n, n * 2]; [λ n, n + 10]].
Lemma mutex_serializes_witness :
  ∃ h, 22 = apply_all h 5 ∧ ops_of 0 h = [λ n, n + 1; λ n, n * 2] ∧ ops_of 1 h = [λ n, n + 10].
Proof.
  destruct (mutex_serializes (LS := bool) two_threads 5 [Ret tt; Ret tt] (mkMutex false 22)) as (h & Hd & Hh).
  - unfold len. cbn. lia.
  - apply (run_pool_reaches (replicate 26 (0, 0) ++ replicate 13 (1, 0))%nat). vm_compute. reflexivity.
  - repeat constructor.
  - exists h. split; [exact Hd|]. split; apply Hh; reflexivity.
Defined.
