(* ===== verification/FairLocks.v ===== *)
(** * The fair mutexes ([spin/src/mutex/ticket.rs], [mutex/fair.rs])

    [TicketMutex] serves its threads in the order in which they took a ticket;
    [FairMutex] lets a thread that has waited for long announce that it starves,
    which keeps newcomers from taking the lock first.  Both keep the interface
    of [Mutex.v], for any number of threads below [2 ^ 62]. *)

From S2P Require Import Prelude Conc Mutex.

(** ** [TicketMutex] *)
(** [spin/mutex/ticket.rs:73-78] TicketMutex. The lock words. *)
Record tickets : Type := mkTickets { next_ticket : Z; next_serving : Z }.
Definition TicketMutex (T : Type) : Type := mutex tickets T.
Definition next_ticket_ : lens tickets Z := Lens next_ticket (λ n t, mkTickets n (next_serving t)).
Definition next_serving_ : lens tickets Z := Lens next_serving (λ n t, mkTickets (next_ticket t) n).
(** [spin/mutex/ticket.rs:109-116] TicketMutex::new *)
Definition TicketMutex_new {T} (d : T) : TicketMutex T := mkMutex (mkTickets 0 0) d.
(** [spin/mutex/ticket.rs:127-129] TicketMutex::into_inner *)
Definition TicketMutex_into_inner {T} (m : TicketMutex T) : T := data m.

Section ticket.
Context {St : Type} (x : lens St tickets).
#[local] Notation ticket_ := (lens_comp x next_ticket_).
#[local] Notation serving_ := (lens_comp x next_serving_).

(** [spin/mutex/ticket.rs:184-202] TicketMutex::lock. The guard is the ticket. *)
Definition TicketMutex_lock : prog St Z :=
  let% ticket := a_rmw ticket_ (λ t, t +u 1) in
  while_ (λ _, let% s := a_load serving_ in Ret (negb (s =? ticket))) (λ _, relax) tt ;%
  Ret ticket.
(** [spin/mutex/ticket.rs:213-216] TicketMutex::is_locked *)
Definition TicketMutex_is_locked : prog St bool :=
  let% ticket := a_load ticket_ in
  let% s := a_load serving_ in
  Ret (negb (s =? ticket)).
(** [spin/mutex/ticket.rs:226-228] TicketMutex::force_unlock *)
Definition TicketMutex_force_unlock : prog St unit := a_rmw serving_ (λ t, t +u 1) ;% Ret tt.
(** [spin/mutex/ticket.rs:245-265] TicketMutex::try_lock *)
Definition TicketMutex_try_lock : prog St (option Z) :=
  let% ticket := a_fetch_update ticket_ (λ ticket,
    let% s := a_load serving_ in
    Ret (if s =? ticket then Some (ticket +u 1) else None)) in
  Ret (match ticket with ok t => Some t | err _ => None end).
(** [spin/mutex/ticket.rs:347-352] Drop for TicketMutexGuard *)
Definition TicketMutexGuard_drop (ticket : Z) : prog St unit := a_store serving_ (ticket +u 1).
End ticket.

#[export] Instance TicketMutex_impl : MutexImpl tickets Z := {|
  mx_new := mkTickets 0 0; mx_lock _ := TicketMutex_lock; mx_unlock _ := TicketMutexGuard_drop |}.

(** The ticket of a thread, not wrapped. *)
Inductive tghost : Type := TIdle | TWait (k : Z) | THeld (k : Z).
Definition tnum (l : tghost) : list Z := match l with TIdle => [] | TWait k | THeld k => [k] end.
Definition tnums (ls : list tghost) : list Z := concat (tnum <$> ls).
(** The tickets that are out are those from the one being served, [a], to the
    next to be taken; the holder's is [a]. *)
Definition ticket_inv (t : tickets) (ls : list tghost) : Prop :=
  ∃ a n, 0 ≤ n ∧ next_serving t = wrap64 a ∧ next_ticket t = wrap64 (a + n) ∧
    tnums ls ≡ₚ seqZ a n ∧ (∀ i k, ls !! i = Some (THeld k) → k = a) ∧ len ls < 2 ^ 62.

Lemma tnums_insert ls i l l' : ls !! i = Some l → tnum l ++ tnums (<[i := l']> ls) ≡ₚ tnum l' ++ tnums ls.
Proof.
  unfold tnums. revert i. induction ls as [|l0 ls IH]; intros [|i] Hi; try done; cbn in Hi |- *.
  - injection Hi as ->. solve_Permutation.
  - specialize (IH i Hi). rewrite Permutation_app_swap_app, IH. solve_Permutation.
Qed.
Lemma tnums_length ls : (length (tnums ls) ≤ length ls)%nat.
Proof. unfold tnums. induction ls as [|[] ls IH]; cbn; rewrite ?length_app; cbn; lia. Qed.
Lemma tnums_elem ls i l k : ls !! i = Some l → k ∈ tnum l → k ∈ tnums ls.
Proof.
  intros Hl Hk. unfold tnums. apply list_elem_of_In, in_concat. exists (tnum l). rewrite <- !list_elem_of_In. split; [|done].
  apply list_elem_of_fmap. exists l. split; [done|]. by eapply list_elem_of_lookup_2.
Qed.
Lemma tnums_unique ls i j l l' k :
  NoDup (tnums ls) → ls !! i = Some l → ls !! j = Some l' → k ∈ tnum l → k ∈ tnum l' → i = j.
Proof.
  intros Hnd Hi Hj Hk Hk'. destruct (decide (i = j)) as [|Hne]; [done|exfalso].
  pose proof (tnums_insert ls i l TIdle Hi) as Hp. cbn in Hp. rewrite <- Hp in Hnd. apply NoDup_app in Hnd as (_ & Hd & _).
  apply (Hd k Hk). apply (tnums_elem _ j l'); [|done]. by rewrite list_lookup_insert_ne.
Qed.
Lemma ticket_inv_count t ls a n : tnums ls ≡ₚ seqZ a n → len ls < 2 ^ 62 → 0 ≤ n → ticket_inv t ls → n < 2 ^ 62.
Proof. intros Hp Hl Hn _. apply Permutation_length in Hp. pose proof (tnums_length ls). rewrite length_seqZ in Hp. unfold len in *. lia. Qed.
Lemma wrap64_near a k n : a ≤ k < a + n → n < 2 ^ 62 → wrap64 a = wrap64 k → a = k.
Proof.
  unfold wrap64. intros Hk Hn He. pose proof (Z.div_mod a (2 ^ 64) ltac:(lia)). pose proof (Z.div_mod k (2 ^ 64) ltac:(lia)).
  rewrite He in *. assert (k - a = 2 ^ 64 * (k / 2 ^ 64 - a / 2 ^ 64)) by lia.
  destruct (decide (k / 2 ^ 64 - a / 2 ^ 64 ≤ 0)); lia.
Qed.
Lemma wrap64_add a b : wrap64 (wrap64 a + b) = wrap64 (a + b).
Proof. unfold wrap64. by rewrite Z.add_mod_idemp_l. Qed.

(** Taking a ticket, being served, and leaving. *)
Lemma ticket_take t ls i : ticket_inv t ls → ls !! i = Some TIdle →
  ∃ k, next_ticket t = wrap64 k ∧ ticket_inv (mkTickets (next_ticket t +u 1) (next_serving t)) (<[i := TWait k]> ls).
Proof.
  intros (a & n & Hn & Hs & Ht & Hp & Hh & Hl) Hi. exists (a + n). split; [done|]. exists a, (n + 1). split_and!.
  - lia.
  - done.
  - cbn. rewrite Ht. unfold uadd. rewrite wrap64_add. f_equal. lia.
  - pose proof (tnums_insert ls i TIdle (TWait (a + n)) Hi) as Hq. cbn in Hq. rewrite Hq, Hp.
    rewrite (seqZ_app a n 1) by lia. change (seqZ (a + n) 1) with [a + n]. solve_Permutation.
  - intros j k Hj. destruct (decide (i = j)) as [<-|Hne].
    + rewrite list_lookup_insert_eq in Hj by (by eapply lookup_lt_Some). done.
    + rewrite list_lookup_insert_ne in Hj by done. by eapply Hh.
  - unfold len in *. by rewrite length_insert.
Qed.
Lemma ticket_serve t ls i k : ticket_inv t ls → ls !! i = Some (TWait k) → next_serving t = wrap64 k →
  ticket_inv t (<[i := THeld k]> ls).
Proof.
  intros Hinv Hi Hk. destruct Hinv as (a & n & Hn & Hs & Ht & Hp & Hh & Hl) eqn:E.
  assert (Hcnt : n < 2 ^ 62) by (by eapply ticket_inv_count). clear E Hinv.
  assert (Hak : a = k).
  { apply (wrap64_near a k n); [|done|congruence]. apply elem_of_seqZ. rewrite <- Hp. eapply tnums_elem; [done|]. by apply list_elem_of_singleton. }
  exists a, n. split_and!; try done.
  - pose proof (tnums_insert ls i (TWait k) (THeld k) Hi) as Hq. cbn in Hq. apply Permutation_cons_inv in Hq. by rewrite Hq.
  - intros j k' Hj. destruct (decide (i = j)) as [<-|Hne].
    + rewrite list_lookup_insert_eq in Hj by (by eapply lookup_lt_Some). by injection Hj as <-.
    + rewrite list_lookup_insert_ne in Hj by done. by eapply Hh.
  - unfold len in *. by rewrite length_insert.
Qed.
Lemma ticket_leave t ls i k : ticket_inv t ls → ls !! i = Some (THeld k) →
  ticket_inv (mkTickets (next_ticket t) (wrap64 k +u 1)) (<[i := TIdle]> ls).
Proof.
  intros (a & n & Hn & Hs & Ht & Hp & Hh & Hl) Hi. assert (k = a) as -> by (by eapply Hh).
  assert (Hin : a ∈ tnums ls) by (eapply tnums_elem; [done|]; by apply list_elem_of_singleton).
  assert (Hn0 : 0 < n) by (rewrite Hp, elem_of_seqZ in Hin; lia).
  exists (a + 1), (n - 1). split_and!.
  - lia.
  - cbn. unfold uadd. by rewrite wrap64_add.
  - cbn. rewrite Ht. f_equal. lia.
  - pose proof (tnums_insert ls i (THeld a) TIdle Hi) as Hq. cbn in Hq. rewrite Hp, seqZ_cons in Hq by lia.
    apply Permutation_cons_inv in Hq. rewrite Hq. replace (Z.succ a) with (a + 1) by lia. by replace (Z.pred n) with (n - 1) by lia.
  - intros j k' Hj. destruct (decide (i = j)) as [<-|Hne].
    + rewrite list_lookup_insert_eq in Hj by (by eapply lookup_lt_Some). done.
    + rewrite list_lookup_insert_ne in Hj by done. destruct Hne. assert (k' = a) as -> by (by eapply Hh).
      eapply (tnums_unique ls); [|exact Hi|exact Hj|by apply list_elem_of_singleton|by apply list_elem_of_singleton].
      rewrite Hp. apply NoDup_seqZ.
  - unfold len in *. by rewrite length_insert.
Qed.
(** The threads are served in the order of their tickets: while a thread has the
    lock, every ticket that is out is at least its own. *)
Lemma ticket_order t ls i j k k' : ticket_inv t ls → ls !! i = Some (THeld k) → ls !! j = Some (TWait k') → k < k'.
Proof.
  intros (a & n & Hn & Hs & Ht & Hp & Hh & Hl) Hi Hj. assert (k = a) as -> by (by eapply Hh).
  assert (Hin : k' ∈ seqZ a n) by (rewrite <- Hp; eapply tnums_elem; [done|]; by apply list_elem_of_singleton).
  apply elem_of_seqZ in Hin. destruct (decide (k' = a)) as [->|]; [|lia]. exfalso.
  assert (i = j) as ->; [|by simplify_eq]. eapply (tnums_unique ls); [|exact Hi|exact Hj|by apply list_elem_of_singleton|by apply list_elem_of_singleton].
  rewrite Hp. apply NoDup_seqZ.
Qed.

Definition ticket_held (g : Z) (l : tghost) : Prop := ∃ k, l = THeld k ∧ g = wrap64 k.
Section ticket_spec.
Context {St C : Type} (x : lens St tickets) `{!LensOk x} (J : St → list (tghost * C) → Prop) (may : C → tghost → Prop).
Context (Hfr : framed x J may) (i : nat) (c : C) (Hc : ∀ l, may c l).
#[local] Notation Inv := (framed_inv x ticket_inv J).

Lemma TicketMutex_lock_spec : triple Inv i (TIdle, c) (TicketMutex_lock x) (λ g lc, ∃ l, ticket_held g l ∧ lc = (l, c)).
Proof.
  eapply triple_bind with (Q1 := λ t lc, ∃ k, t = wrap64 k ∧ lc = (TWait k, c)).
  { apply (framed_field_rmw x ticket_inv J may Hfr i TIdle c Hc). intros t ls HI Hl.
    destruct (ticket_take t ls i HI Hl) as (k & Hk & HI'). exists (TWait k). split; [done|]. by exists k. }
  intros t lc (k & -> & ->). eapply triple_bind with (Q1 := λ _ lc, lc = (THeld k, c)).
  - apply triple_while with (P := λ _ lc, lc = (TWait k, c)) (P' := λ _ lc, lc = (TWait k, c)); [| |done].
    + intros _ lc ->. eapply triple_bind with (Q1 := λ s lc, lc = (if decide (s = wrap64 k) then THeld k else TWait k, c)).
      * apply (framed_field_load x ticket_inv J may Hfr i (TWait k) c Hc). intros t ls HI Hl. cbn.
        destruct (decide (next_serving t = wrap64 k)).
        -- exists (THeld k). split; [by apply ticket_serve|done].
        -- exists (TWait k). split; [by rewrite list_insert_id|done].
      * intros s lc ->. apply triple_ret. case_decide as Hs; [by rewrite Hs, Z.eqb_refl|]. by rewrite (proj2 (Z.eqb_neq _ _)).
    + intros _ lc ->. by apply triple_ret.
  - intros _ lc ->. apply triple_ret. exists (THeld k). split; [by exists k|done].
Qed.
Lemma TicketMutexGuard_drop_spec g l : ticket_held g l →
  triple Inv i (l, c) (TicketMutexGuard_drop x g) (λ _ lc, lc = (TIdle, c)).
Proof.
  intros (k & -> & ->). apply (framed_field_store x ticket_inv J may Hfr i (THeld k) c Hc). intros t ls HI Hl.
  exists TIdle. split; [by eapply ticket_leave|done].
Qed.
End ticket_spec.

#[export] Instance TicketMutex_laws : MutexLaws tickets Z tghost ticket_inv TIdle ticket_held.
Proof.
  split.
  - intros n Hn. exists 0, 0. split_and!; try done.
    + unfold tnums. rewrite fmap_replicate. induction n as [|n IH]; [done|]. apply IH. lia.
    + intros i k [? _]%lookup_replicate. done.
    + unfold len. by rewrite length_replicate.
  - intros t ls i j g g' l l' (a & n & _ & _ & _ & Hp & Hh & _) Hi Hj (k & -> & _) (k' & -> & _).
    assert (k = a) as -> by (by eapply Hh). assert (k' = a) as -> by (by eapply Hh).
    eapply (tnums_unique ls); [|exact Hi|exact Hj|by apply list_elem_of_singleton|by apply list_elem_of_singleton].
    rewrite Hp. apply NoDup_seqZ.
  - intros St C x J may i c Hx Hfr Hc. by eapply TicketMutex_lock_spec.
  - intros St C x J may i g l c Hx Hfr Hc Hg. by eapply TicketMutexGuard_drop_spec.
Qed.

(** ** [FairMutex] *)
(** [spin/mutex/fair.rs:21-21] LOCKED *)
Definition LOCKED : Z := 1.
(** [spin/mutex/fair.rs:22-22] STARVED *)
Definition STARVED : Z := 2.
(** [spin/mutex/fair.rs:25-25] STARVATION_SPINS *)
Definition STARVATION_SPINS : Z := 1024.
(** [spin/mutex/fair.rs:98-104] LockRejectReason *)
Inductive LockRejectReason : Type := Locked | Starved.
(** [spin/mutex/fair.rs:75-79] FairMutex. The lock word is a [usize]. *)
Definition FairMutex (T : Type) : Type := mutex Z T.
(** [spin/mutex/fair.rs:130-136] FairMutex::new *)
Definition FairMutex_new {T} (d : T) : FairMutex T := mkMutex 0 d.
(** [spin/mutex/fair.rs:147-152] FairMutex::into_inner *)
Definition FairMutex_into_inner {T} (m : FairMutex T) : T := data m.

Section fair.
Context {St : Type} (lock : lens St Z).

(** [spin/mutex/fair.rs:234-236] FairMutex::is_locked *)
Definition FairMutex_is_locked : prog St bool :=
  let% w := a_load lock in Ret (negb (Z.land w LOCKED =? 0)).
(** [spin/mutex/fair.rs:246-248] FairMutex::force_unlock *)
Definition FairMutex_force_unlock : prog St unit := a_rmw lock (λ w, Z.ldiff w LOCKED) ;% Ret tt.
(** [spin/mutex/fair.rs:272-285] FairMutex::try_lock_starver *)
Definition FairMutex_try_lock_starver : prog St (Result unit LockRejectReason) :=
  let% r := a_cas lock 0 LOCKED in
  let w := match r with ok w | err w => w end in
  Ret (if w =? 0 then ok tt else if w =? LOCKED then err Locked else err Starved).
(** [spin/mutex/fair.rs:265-267] FairMutex::try_lock *)
Definition FairMutex_try_lock : prog St (option unit) :=
  let% r := FairMutex_try_lock_starver in Ret (match r with ok g => Some g | err _ => None end).
(** [spin/mutex/fair.rs:320-328] FairMutex::starve *)
Definition FairMutex_starve : prog St unit :=
  let% w := a_rmw lock (λ w, w +u STARVED) in
  if 2 ^ 63 - 1 - 1 <? w then Panic else Ret tt.
(** [spin/mutex/fair.rs:533-538] Drop for Starvation *)
Definition Starvation_drop : prog St unit := a_rmw lock (λ w, w -u STARVED) ;% Ret tt.
(** [spin/mutex/fair.rs:442-464] Starvation::try_lock_fair. The starvation ends
    when the lock is taken. *)
Definition Starvation_try_lock_fair : prog St (Result unit unit) :=
  let% r := a_cas lock STARVED (Z.lor STARVED LOCKED) in
  if is_ok r then Starvation_drop ;% Ret (ok tt) else Ret (err tt).
(** [spin/mutex/fair.rs:500-512] Starvation::try_lock *)
Definition Starvation_try_lock : prog St (Result unit unit) :=
  let% w := a_rmw lock (λ w, Z.lor w LOCKED) in
  if Z.land w LOCKED =? 0 then Starvation_drop ;% Ret (ok tt) else Ret (err tt).
(** [spin/mutex/fair.rs:517-530] Starvation::lock *)
Definition Starvation_lock : prog St unit :=
  Loop (λ _ : unit,
    let% r := Starvation_try_lock in
    match r with
    | ok g => Ret (inr g)
    | err _ => while_ (λ _, FairMutex_is_locked) (λ _, relax) tt ;% Ret (inl tt)
    end) tt.
(** [spin/mutex/fair.rs:207-216] FairMutex::lock. The inner loop: the spins so
    far, or the lock. *)
Definition FairMutex_spin (spins : Z) : prog St (Z + unit) :=
  Loop (λ spins,
    let% l := FairMutex_is_locked in
    if l : bool then
      relax ;%
      if STARVATION_SPINS <? spins then
        FairMutex_starve ;%
        let% g := Starvation_lock in Ret (inr (inr g))
      else Ret (inl (spins +u 1))
    else Ret (inr (inl spins))) spins.
(** [spin/mutex/fair.rs:197-223] FairMutex::lock *)
Definition FairMutex_lock : prog St unit :=
  Loop (λ spins,
    let% r := a_cas_weak lock 0 1 in
    if is_ok r then Ret (inr tt) else FairMutex_spin spins) 0.
(** [spin/mutex/fair.rs:431-436] Drop for FairMutexGuard *)
Definition FairMutexGuard_drop (_ : unit) : prog St unit := a_rmw lock (λ w, Z.ldiff w LOCKED) ;% Ret tt.
End fair.

#[export] Instance FairMutex_impl : MutexImpl Z unit := {|
  mx_new := 0; mx_lock _ := FairMutex_lock; mx_unlock _ := FairMutexGuard_drop |}.

(** A thread holds the lock, starves, or both between the two steps of
    [Starvation::try_lock]. *)
Record fghost : Type := mkF { f_locked : bool; f_starves : bool }.
(** The lowest bit says whether the lock is held, the other bits how many
    threads starve. *)
Definition fair_inv (w : Z) (ls : list fghost) : Prop :=
  ∃ b, w = 2 * zsum (λ l, b2z (f_starves l)) ls + b2z b ∧ zsum (λ l, b2z (f_locked l)) ls = b2z b ∧ len ls < 2 ^ 62.

Lemma low_bit n b : Z.land (2 * n + b2z b) LOCKED = b2z b.
Proof.
  unfold LOCKED. change 1 with (Z.ones 1) at 1. rewrite Z.land_ones by lia. change (2 ^ 1) with 2.
  rewrite Z.add_comm, Z.mul_comm, Z.mod_add by lia. by destruct b.
Qed.
Lemma set_low_bit n b : Z.lor (2 * n + b2z b) LOCKED = 2 * n + 1.
Proof.
  assert (He : ∀ b, Z.lor (n * 2 ^ 1) (b2z b) = n * 2 ^ 1 + b2z b) by (intros b'; apply lor_low_high; [lia|destruct b'; cbn; lia]).
  replace (2 * n + b2z b) with (Z.lor (n * 2 ^ 1) (b2z b)) by (rewrite He; lia). rewrite <- Z.lor_assoc.
  replace (Z.lor (b2z b) LOCKED) with (b2z true) by (by destruct b). rewrite He. cbn. lia.
Qed.
Lemma clear_low_bit n b : Z.ldiff (2 * n + b2z b) LOCKED = 2 * n.
Proof.
  unfold LOCKED. change 1 with (Z.ones 1) at 1. rewrite Z.ldiff_ones_r by lia. rewrite Z.shiftr_div_pow2, Z.shiftl_mul_pow2 by lia.
  change (2 ^ 1) with 2. rewrite Z.add_comm, (Z.mul_comm 2 n), Z.div_add by lia. replace (b2z b / 2) with 0 by (by destruct b). lia.
Qed.

#[local] Notation starvers := (zsum (λ l, b2z (f_starves l))).
#[local] Notation holders := (zsum (λ l, b2z (f_locked l))).
Lemma starvers_bound ls : 0 ≤ starvers ls ≤ len ls.
Proof. pose proof (zsum_bound (λ l, b2z (f_starves l)) ls 1 (λ l, b2z_range (f_starves l))). lia. Qed.
Lemma fair_change w w' ls i l l' b b' :
  w = 2 * starvers ls + b2z b → holders ls = b2z b → len ls < 2 ^ 62 → ls !! i = Some l →
  w' = 2 * (starvers ls - b2z (f_starves l) + b2z (f_starves l')) + b2z b' →
  b2z b - b2z (f_locked l) + b2z (f_locked l') = b2z b' → fair_inv w' (<[i := l']> ls).
Proof.
  intros Hw Hk Hl Hi Hw' Hb. exists b'. rewrite !(zsum_insert _ _ _ _ _ Hi). split_and!; [done|lia|].
  unfold len in *. by rewrite length_insert.
Qed.
(** The transitions of the lock word. *)
Lemma fair_take ls i : fair_inv 0 ls → ls !! i = Some (mkF false false) → fair_inv 1 (<[i := mkF true false]> ls).
Proof.
  intros (b & Hw & Hk & Hl) Hi. pose proof (starvers_bound ls). destruct b; cbn in Hw; [lia|].
  eapply (fair_change _ _ ls i _ _ false true); try done; cbn; lia.
Qed.
Lemma fair_starve w ls i : fair_inv w ls → ls !! i = Some (mkF false false) → fair_inv (w +u STARVED) (<[i := mkF false true]> ls).
Proof.
  intros (b & Hw & Hk & Hl) Hi. pose proof (starvers_bound ls). unfold STARVED. rewrite uadd_small by (destruct b; cbn in *; lia).
  eapply (fair_change w _ ls i _ _ b b); try done; cbn; lia.
Qed.
Lemma fair_or w ls i : fair_inv w ls → ls !! i = Some (mkF false true) →
  fair_inv (Z.lor w LOCKED) (<[i := mkF (Z.land w LOCKED =? 0) true]> ls).
Proof.
  intros (b & Hw & Hk & Hl) Hi. pose proof (starvers_bound ls).
  assert (Hlow : Z.land w LOCKED = b2z b) by (rewrite Hw; apply low_bit).
  assert (Hset : Z.lor w LOCKED = 2 * starvers ls + 1) by (rewrite Hw; apply set_low_bit). rewrite Hlow, Hset.
  eapply (fair_change w _ ls i _ _ b true); try done; destruct b; cbn; lia.
Qed.
Lemma fair_unstarve w ls i : fair_inv w ls → ls !! i = Some (mkF true true) → fair_inv (w -u STARVED) (<[i := mkF true false]> ls).
Proof.
  intros (b & Hw & Hk & Hl) Hi. pose proof (starvers_bound ls).
  pose proof (zsum_ge (λ l, b2z (f_starves l)) ls i _ (λ l, b2z_nonneg (f_starves l)) Hi) as H1. cbn in H1.
  unfold STARVED. rewrite usub_small by (destruct b; cbn in *; lia). eapply (fair_change w _ ls i _ _ b b); try done; cbn; lia.
Qed.
Lemma fair_unlock w ls i : fair_inv w ls → ls !! i = Some (mkF true false) → fair_inv (Z.ldiff w LOCKED) (<[i := mkF false false]> ls).
Proof.
  intros (b & Hw & Hk & Hl) Hi.
  pose proof (zsum_ge (λ l, b2z (f_locked l)) ls i _ (λ l, b2z_nonneg (f_locked l)) Hi) as H1. cbn in H1.
  assert (Hc : Z.ldiff w LOCKED = 2 * starvers ls) by (rewrite Hw; apply clear_low_bit). rewrite Hc.
  destruct b; cbn in *; [|lia]. eapply (fair_change w _ ls i _ _ true false); try done; cbn; lia.
Qed.

Definition f_idle : fghost := mkF false false.
Definition f_held (_ : unit) (l : fghost) : Prop := l = mkF true false.
Section fair_spec.
Context {St C : Type} (x : lens St Z) `{!LensOk x} (J : St → list (fghost * C) → Prop) (may : C → fghost → Prop).
Context (Hfr : framed x J may) (i : nat) (c : C) (Hc : ∀ l, may c l).
#[local] Notation Inv := (framed_inv x fair_inv J).
#[local] Notation rmw := (framed_rmw x fair_inv J may Hfr i).

Lemma fair_is_locked_spec l : triple Inv i (l, c) (FairMutex_is_locked x) (λ _ lc, lc = (l, c)).
Proof.
  eapply triple_bind; [apply (framed_load x fair_inv J may Hfr i l c Hc) with (Q := λ _ lc, lc = (l, c))|].
  - intros v ls HI Hl. exists l. by rewrite list_insert_id.
  - intros v lc ->. by apply triple_ret.
Qed.
Lemma Starvation_drop_spec : triple Inv i (mkF true true, c) (Starvation_drop x) (λ _ lc, lc = (mkF true false, c)).
Proof.
  eapply triple_bind; [apply (rmw (mkF true true) c Hc) with (Q := λ _ lc, lc = (mkF true false, c))|].
  - intros w ls HI Hl. eexists. split; [by apply fair_unstarve|done].
  - intros w lc ->. by apply triple_ret.
Qed.
Lemma Starvation_try_lock_spec :
  triple Inv i (mkF false true, c) (Starvation_try_lock x) (λ r lc, lc = (if is_ok r then mkF true false else mkF false true, c)).
Proof.
  eapply triple_bind; [apply (rmw (mkF false true) c Hc) with (Q := λ w lc, lc = (mkF (Z.land w LOCKED =? 0) true, c))|].
  - intros w ls HI Hl. eexists. split; [by apply fair_or|done].
  - intros w lc ->. destruct (Z.land w LOCKED =? 0); [|by apply triple_ret].
    eapply triple_bind; [apply Starvation_drop_spec|]. intros _ lc ->. by apply triple_ret.
Qed.
Lemma Starvation_lock_spec : triple Inv i (mkF false true, c) (Starvation_lock x) (λ _ lc, lc = (mkF true false, c)).
Proof.
  apply triple_loop with (P := λ _ lc, lc = (mkF false true, c)); [|done]. intros _ lc ->.
  eapply triple_bind; [apply Starvation_try_lock_spec|]. intros [[]|[]] lc ->; [by apply triple_ret|].
  eapply triple_bind with (Q1 := λ _ lc, lc = (mkF false true, c)); [|intros _ lc ->; by apply triple_ret].
  apply triple_while with (P := λ _ lc, lc = (mkF false true, c)) (P' := λ _ lc, lc = (mkF false true, c)); [| |done].
  - intros _ lc ->. eapply triple_conseq; [apply fair_is_locked_spec|]. by intros [].
  - intros _ lc ->. by apply triple_ret.
Qed.
Lemma FairMutex_starve_spec : triple Inv i (f_idle, c) (FairMutex_starve x) (λ _ lc, lc = (mkF false true, c)).
Proof.
  eapply triple_bind; [apply (rmw f_idle c Hc) with (Q := λ _ lc, lc = (mkF false true, c))|].
  - intros w ls HI Hl. eexists. split; [by apply fair_starve|done].
  - intros w lc ->. case_match; [apply triple_panic|by apply triple_ret].
Qed.
Lemma FairMutex_lock_spec : triple Inv i (f_idle, c) (FairMutex_lock x) (λ _ lc, lc = (mkF true false, c)).
Proof.
  apply triple_loop with (P := λ _ lc, lc = (f_idle, c)); [|done]. intros spins lc ->.
  eapply triple_bind with (Q1 := λ r lc, lc = (if is_ok r then mkF true false else f_idle, c)).
  { apply (framed_cas_weak x fair_inv J may Hfr i f_idle c Hc); [|done]. intros ls HI Hl.
    eexists. split; [by apply fair_take|done]. }
  intros [w|w] lc ->; [by apply triple_ret|]. unfold FairMutex_spin. cbn [is_ok].
  apply triple_loop with (P := λ _ lc, lc = (f_idle, c)); [|done]. clear spins. intros spins lc ->.
  eapply triple_bind; [apply fair_is_locked_spec|]. intros [|] lc ->; [|by apply triple_ret].
  eapply triple_bind; [apply triple_ret with (Q := λ _ lc, lc = (f_idle, c)); done|]. intros _ lc ->.
  case_match; [|by apply triple_ret]. eapply triple_bind; [apply FairMutex_starve_spec|]. intros _ lc ->.
  eapply triple_bind; [apply Starvation_lock_spec|]. intros [] lc ->. by apply triple_ret.
Qed.
Lemma FairMutex_try_lock_spec :
  triple Inv i (f_idle, c) (FairMutex_try_lock x) (λ o lc, lc = (mkF (bool_decide (o = Some tt)) false, c)).
Proof.
  eapply triple_bind with (Q1 := λ r lc, lc = (mkF (is_ok r) false, c)); [|intros [[]|?] lc ->; by apply triple_ret].
  eapply triple_bind with (Q1 := λ r lc, match r with ok w => w = 0 ∧ lc = (mkF true false, c) | err w => w ≠ 0 ∧ lc = (f_idle, c) end).
  - apply (framed_cas x fair_inv J may Hfr i f_idle c Hc); [|done]. intros ls HI Hl. eexists. split; [by apply fair_take|done].
  - intros [w|w] lc [Hw ->]; apply triple_ret; [by rewrite Hw|]. rewrite (proj2 (Z.eqb_neq _ _)) by done. by case_match.
Qed.
Lemma FairMutexGuard_drop_spec : triple Inv i (mkF true false, c) (FairMutexGuard_drop x tt) (λ _ lc, lc = (f_idle, c)).
Proof.
  eapply triple_bind; [apply (rmw (mkF true false) c Hc) with (Q := λ _ lc, lc = (f_idle, c))|].
  - intros w ls HI Hl. eexists. split; [by apply fair_unlock|done].
  - intros w lc ->. by apply triple_ret.
Qed.
End fair_spec.

#[export] Instance FairMutex_laws : MutexLaws Z unit fghost fair_inv f_idle f_held.
Proof.
  split.
  - intros n Hn. exists false. rewrite !zsum_replicate. unfold len. rewrite length_replicate. cbn. lia.
  - intros w ls i j _ _ l l' (b & _ & Hk & _) Hi Hj -> ->. destruct (decide (i = j)) as [|Hne]; [done|].
    pose proof (zsum_two (λ l, b2z (f_locked l)) ls i j _ _ (λ l, b2z_nonneg (f_locked l)) Hi Hj Hne) as H2.
    rewrite Hk in H2. destruct b; cbn in H2; lia.
  - intros St C x J may i c Hx Hfr Hc. eapply triple_conseq; [by eapply FairMutex_lock_spec|]. intros g lc ->. eexists. split; [reflexivity|done].
  - intros St C x J may i [] l c Hx Hfr Hc ->. by eapply FairMutexGuard_drop_spec.
Qed.
