(* ===== verification/RwLock.v ===== *)
(** * Reader-writer locks ([spin/src/rwlock.rs])

    The lock word counts the readers in steps of [READER] and has a bit for an
    upgradable guard and one for a writer.  [rwinv] relates the word to the
    guards the threads hold; every operation but one keeps it, in every
    interleaving, and [RwLock_serializes] is what a client gets from that.
    The exception, [RwLockWriteGuard_downgrade_to_upgradeable], is shown to
    corrupt the word. *)

From S2P Require Import Prelude Conc Mutex.

(** [spin/rwlock.rs:75-75] READER *)
Definition READER : Z := Z.shiftl 1 2.
(** [spin/rwlock.rs:76-76] UPGRADED *)
Definition UPGRADED : Z := Z.shiftl 1 1.
(** [spin/rwlock.rs:77-77] WRITER *)
Definition WRITER : Z := 1.
(** [spin/rwlock.rs:263-263] MAX_READERS *)
Definition MAX_READERS : Z := usize_MAX / READER / 2.

(** The guards only say what their holder may do: they point to the lock. *)
(** [spin/rwlock.rs:83-86] RwLockReadGuard *)
Inductive RwLockReadGuard : Type := ReadGuard.
(** [spin/rwlock.rs:91-95] RwLockWriteGuard *)
Inductive RwLockWriteGuard : Type := WriteGuard.
(** [spin/rwlock.rs:104-108] RwLockUpgradableGuard *)
Inductive RwLockUpgradableGuard : Type := UpgradableGuard.

(** ** The operations *)
Section ops.
Context {St : Type} (lock : lens St Z).

(** [spin/rwlock.rs:787-800] compare_exchange *)
Definition compare_exchange (current new : Z) (strong : bool) : prog St (Result Z Z) :=
  if strong then a_cas lock current new else a_cas_weak lock current new.

(** [spin/rwlock.rs:261-273] RwLock::acquire_reader *)
Definition RwLock_acquire_reader : prog St Z :=
  let% value := a_rmw lock (λ w, w +u READER) in
  if MAX_READERS *u READER <? value then
    a_rmw lock (λ w, w -u READER) ;% Panic
  else Ret value.
(** [spin/rwlock.rs:298-313] RwLock::try_read *)
Definition RwLock_try_read : prog St (option RwLockReadGuard) :=
  let% value := RwLock_acquire_reader in
  if negb (Z.land value (Z.lor WRITER UPGRADED) =? 0) then
    a_rmw lock (λ w, w -u READER) ;% Ret None
  else Ret (Some ReadGuard).
(** [spin/rwlock.rs:209-216] RwLock::read *)
Definition RwLock_read : prog St RwLockReadGuard :=
  Loop (λ _, let% g := RwLock_try_read in
             match g with
             | Some guard => Ret (inr guard)
             | None => relax ;% Ret (inl tt)
             end) tt.
(** [spin/rwlock.rs:367-386] RwLock::try_write_internal *)
Definition RwLock_try_write_internal (strong : bool) : prog St (option RwLockWriteGuard) :=
  let% r := compare_exchange 0 WRITER strong in
  if is_ok r then Ret (Some WriteGuard) else Ret None.
(** [spin/rwlock.rs:408-410] RwLock::try_write *)
Definition RwLock_try_write : prog St (option RwLockWriteGuard) := RwLock_try_write_internal true.
(** [spin/rwlock.rs:237-244] RwLock::write *)
Definition RwLock_write : prog St RwLockWriteGuard :=
  Loop (λ _, let% g := RwLock_try_write_internal false in
             match g with
             | Some guard => Ret (inr guard)
             | None => relax ;% Ret (inl tt)
             end) tt.
(** [spin/rwlock.rs:414-426] RwLock::try_upgradeable_read *)
Definition RwLock_try_upgradeable_read : prog St (option RwLockUpgradableGuard) :=
  let% old := a_rmw lock (λ w, Z.lor w UPGRADED) in
  if Z.land old (Z.lor WRITER UPGRADED) =? 0 then Ret (Some UpgradableGuard) else Ret None.
(** [spin/rwlock.rs:249-256] RwLock::upgradeable_read *)
Definition RwLock_upgradeable_read : prog St RwLockUpgradableGuard :=
  Loop (λ _, let% g := RwLock_try_upgradeable_read in
             match g with
             | Some guard => Ret (inr guard)
             | None => relax ;% Ret (inl tt)
             end) tt.
(** [spin/rwlock.rs:321-324] RwLock::reader_count *)
Definition RwLock_reader_count : prog St Z :=
  let% state := a_load lock in
  Ret (state / READER +u Z.land state UPGRADED / UPGRADED).
(** [spin/rwlock.rs:334-336] RwLock::writer_count *)
Definition RwLock_writer_count : prog St Z :=
  let% state := a_load lock in
  Ret (Z.land state WRITER / WRITER).
(** [spin/rwlock.rs:347-350] RwLock::force_read_decrement *)
Definition RwLock_force_read_decrement : prog St unit := a_rmw lock (λ w, w -u READER) ;% Ret tt.
(** [spin/rwlock.rs:361-364] RwLock::force_write_unlock *)
Definition RwLock_force_write_unlock : prog St unit :=
  a_rmw lock (λ w, Z.land w (Z.lnot (Z.lor WRITER UPGRADED))) ;% Ret tt.

(** [spin/rwlock.rs:757-762] Drop for RwLockReadGuard *)
Definition RwLockReadGuard_drop (_ : RwLockReadGuard) : prog St unit :=
  a_rmw lock (λ w, w -u READER) ;% Ret tt.
(** [spin/rwlock.rs:764-772] Drop for RwLockUpgradableGuard *)
Definition RwLockUpgradableGuard_drop (_ : RwLockUpgradableGuard) : prog St unit :=
  a_rmw lock (λ w, w -u UPGRADED) ;% Ret tt.
(** [spin/rwlock.rs:774-784] Drop for RwLockWriteGuard *)
Definition RwLockWriteGuard_drop (_ : RwLockWriteGuard) : prog St unit :=
  a_rmw lock (λ w, Z.land w (Z.lnot (Z.lor WRITER UPGRADED))) ;% Ret tt.

(** [spin/rwlock.rs:526-551] RwLockUpgradableGuard::try_upgrade_internal *)
Definition RwLockUpgradableGuard_try_upgrade_internal (self : RwLockUpgradableGuard) (strong : bool) :
    prog St (Result RwLockWriteGuard RwLockUpgradableGuard) :=
  let% r := compare_exchange UPGRADED WRITER strong in
  if is_ok r then Ret (ok WriteGuard) else Ret (err self).
(** [spin/rwlock.rs:565-567] RwLockUpgradableGuard::try_upgrade *)
Definition RwLockUpgradableGuard_try_upgrade (self : RwLockUpgradableGuard) :
    prog St (Result RwLockWriteGuard RwLockUpgradableGuard) :=
  RwLockUpgradableGuard_try_upgrade_internal self true.
(** [spin/rwlock.rs:512-521] RwLockUpgradableGuard::upgrade *)
Definition RwLockUpgradableGuard_upgrade (self : RwLockUpgradableGuard) : prog St RwLockWriteGuard :=
  Loop (λ self, let% r := RwLockUpgradableGuard_try_upgrade_internal self false in
                match r with
                | ok guard => Ret (inr guard)
                | err e => relax ;% Ret (inl e)
                end) self.
(** [spin/rwlock.rs:583-596] RwLockUpgradableGuard::downgrade *)
Definition RwLockUpgradableGuard_downgrade (self : RwLockUpgradableGuard) : prog St RwLockReadGuard :=
  RwLock_acquire_reader ;%
  RwLockUpgradableGuard_drop self ;%
  Ret ReadGuard.
(** [spin/rwlock.rs:643-656] RwLockWriteGuard::downgrade *)
Definition RwLockWriteGuard_downgrade (self : RwLockWriteGuard) : prog St RwLockReadGuard :=
  RwLock_acquire_reader ;%
  RwLockWriteGuard_drop self ;%
  Ret ReadGuard.
(** [spin/rwlock.rs:670-689] RwLockWriteGuard::downgrade_to_upgradeable *)
Definition RwLockWriteGuard_downgrade_to_upgradeable (self : RwLockWriteGuard) : prog St RwLockUpgradableGuard :=
  a_store lock UPGRADED ;%
  Ret UpgradableGuard.

(** The interface of [lock_api]: locks without guards. *)
(** [spin/rwlock.rs:809-812] RawRwLock::lock_exclusive *)
Definition RawRwLock_lock_exclusive : prog St unit := RwLock_write ;% Ret tt.
(** [spin/rwlock.rs:815-818] RawRwLock::try_lock_exclusive *)
Definition RawRwLock_try_lock_exclusive : prog St bool :=
  let% g := RwLock_try_write in Ret (bool_decide (is_Some g)).
(** [spin/rwlock.rs:821-827] RawRwLock::unlock_exclusive *)
Definition RawRwLock_unlock_exclusive : prog St unit := RwLockWriteGuard_drop WriteGuard.
(** [spin/rwlock.rs:830-833] RawRwLock::lock_shared *)
Definition RawRwLock_lock_shared : prog St unit := RwLock_read ;% Ret tt.
(** [spin/rwlock.rs:836-839] RawRwLock::try_lock_shared *)
Definition RawRwLock_try_lock_shared : prog St bool :=
  let% g := RwLock_try_read in Ret (bool_decide (is_Some g)).
(** [spin/rwlock.rs:842-847] RawRwLock::unlock_shared *)
Definition RawRwLock_unlock_shared : prog St unit := RwLockReadGuard_drop ReadGuard.
(** [spin/rwlock.rs:850-852] RawRwLock::is_locked *)
Definition RawRwLock_is_locked : prog St bool :=
  let% w := a_load lock in Ret (negb (w =? 0)).
(** [spin/rwlock.rs:858-861] RawRwLockUpgrade::lock_upgradable *)
Definition RawRwLock_lock_upgradable : prog St unit := RwLock_upgradeable_read ;% Ret tt.
(** [spin/rwlock.rs:864-869] RawRwLockUpgrade::try_lock_upgradable *)
Definition RawRwLock_try_lock_upgradable : prog St bool :=
  let% g := RwLock_try_upgradeable_read in Ret (bool_decide (is_Some g)).
(** [spin/rwlock.rs:872-878] RawRwLockUpgrade::unlock_upgradable *)
Definition RawRwLock_unlock_upgradable : prog St unit := RwLockUpgradableGuard_drop UpgradableGuard.
(** [spin/rwlock.rs:881-888] RawRwLockUpgrade::upgrade *)
Definition RawRwLock_upgrade : prog St unit := RwLockUpgradableGuard_upgrade UpgradableGuard ;% Ret tt.
(** [spin/rwlock.rs:891-901] RawRwLockUpgrade::try_upgrade. The guard is
    forgotten when the upgrade succeeds, and dropped when it does not. *)
Definition RawRwLock_try_upgrade : prog St bool :=
  let% r := RwLockUpgradableGuard_try_upgrade UpgradableGuard in
  match r with
  | ok _ => Ret true
  | err g => RwLockUpgradableGuard_drop g ;% Ret false
  end.
(** [spin/rwlock.rs:906-913] RawRwLockDowngrade::downgrade *)
Definition RawRwLock_downgrade : prog St unit := RwLockWriteGuard_downgrade WriteGuard ;% Ret tt.
End ops.

(** [spin/rwlock.rs:69-73] RwLock *)
Definition RwLock (T : Type) : Type := mutex Z T.
(** [spin/rwlock.rs:140-146] RwLock::new *)
Definition RwLock_new {T} (d : T) : RwLock T := mkMutex 0 d.
(** [spin/rwlock.rs:150-155] RwLock::into_inner *)
Definition RwLock_into_inner {T} (m : RwLock T) : T := data m.
(** [spin/rwlock.rs:723-730] Deref for RwLockReadGuard *)
Definition RwLockReadGuard_deref {T} : prog (RwLock T) T := a_load data_.
(** [spin/rwlock.rs:732-739] Deref for RwLockUpgradableGuard *)
Definition RwLockUpgradableGuard_deref {T} : prog (RwLock T) T := a_load data_.
(** [spin/rwlock.rs:741-748] Deref for RwLockWriteGuard *)
Definition RwLockWriteGuard_deref {T} : prog (RwLock T) T := a_load data_.
(** [spin/rwlock.rs:750-755] DerefMut for RwLockWriteGuard *)
Definition RwLockWriteGuard_deref_mut {T} (d : T) : prog (RwLock T) unit := a_store data_ d.

(** ** The lock word *)
Lemma word_lor R c : 0 ≤ c < 4 → 4 * R + c = Z.lor (R * 2 ^ 2) c.
Proof. intros Hc. rewrite lor_low_high by lia. lia. Qed.
Lemma word_bits R c : 0 ≤ c < 4 → Z.land (4 * R + c) (Z.lor WRITER UPGRADED) = c.
Proof. intros Hc. change (Z.lor WRITER UPGRADED) with (Z.ones 2). rewrite Z.land_ones by lia. change (2 ^ 2) with 4. rewrite Z.mul_comm, Z.add_comm, Z.mod_add by lia. apply Z.mod_small. lia. Qed.
Lemma word_upgrade R c : 0 ≤ c < 4 → Z.lor (4 * R + c) UPGRADED = 4 * R + Z.lor c 2.
Proof.
  intros Hc. rewrite (word_lor R c Hc), <- Z.lor_assoc. change UPGRADED with 2.
  assert (c = 0 ∨ c = 1 ∨ c = 2 ∨ c = 3) as [->|[->|[->| ->]]] by lia; symmetry; apply word_lor; vm_compute; split; congruence.
Qed.
Lemma word_clear R c : 0 ≤ c < 4 → Z.land (4 * R + c) (Z.lnot (Z.lor WRITER UPGRADED)) = 4 * R.
Proof.
  intros Hc. change (Z.lor WRITER UPGRADED) with (Z.ones 2). rewrite <- Z.ldiff_land, Z.ldiff_ones_r by lia.
  rewrite Z.shiftl_mul_pow2, Z.shiftr_div_pow2 by lia. change (2 ^ 2) with 4.
  rewrite Z.mul_comm, (Z.mul_comm 4 R), Z.div_add_l, (Z.div_small c) by lia. lia.
Qed.

(** What a thread holds: nothing; a count it is about to give back; a guard; or
    an upgradable or write guard with the count for the read guard it is being
    turned into. *)
Inductive rwghost : Type := RwIdle | RwPending | RwRead | RwUpg | RwWrite | RwDownU | RwDownW.
Definition n_count (l : rwghost) : Z := match l with RwPending | RwRead | RwDownU | RwDownW => 1 | _ => 0 end.
Definition n_read (l : rwghost) : Z := match l with RwRead => 1 | _ => 0 end.
Definition n_upg (l : rwghost) : Z := match l with RwUpg | RwDownU => 1 | _ => 0 end.
Definition n_write (l : rwghost) : Z := match l with RwWrite | RwDownW => 1 | _ => 0 end.
(** The guards that give access to the data. *)
Definition rw_access (l : rwghost) : Prop := l ≠ RwIdle ∧ l ≠ RwPending.

(** The word counts the readers; there is one writer or at most one upgradable
    guard; the writer's bit says whether there is a writer, and then there is no
    read guard; the upgrade bit is set when there is an upgradable guard, and
    may be left set by a failed attempt as long as there is a writer. *)
Definition rwinv (w : Z) (ls : list rwghost) : Prop :=
  len ls < 2 ^ 60 ∧ ∃ u b : bool,
    w = 4 * zsum n_count ls + (2 * b2z u + b2z b) ∧ zsum n_write ls = b2z b ∧
    zsum n_upg ls + zsum n_write ls ≤ 1 ∧ b2z u ≤ zsum n_upg ls + zsum n_write ls ∧ zsum n_upg ls ≤ b2z u ∧
    (b = true → zsum n_read ls = 0).

Lemma n_bounds l : 0 ≤ n_count l ≤ 1 ∧ 0 ≤ n_read l ≤ n_count l ∧ 0 ≤ n_upg l ≤ 1 ∧ 0 ≤ n_write l ≤ 1.
Proof. destruct l; cbn; lia. Qed.
Lemma rw_sums ls : 0 ≤ zsum n_count ls ≤ len ls ∧ 0 ≤ zsum n_read ls ≤ zsum n_count ls ∧ 0 ≤ zsum n_upg ls ∧ 0 ≤ zsum n_write ls.
Proof.
  pose proof (zsum_bound n_count ls 1 (λ l, proj1 (n_bounds l))).
  pose proof (zsum_bound n_read ls 1 ltac:(intros []; cbn; lia)).
  pose proof (zsum_bound n_upg ls 1 ltac:(intros []; cbn; lia)).
  pose proof (zsum_bound n_write ls 1 ltac:(intros []; cbn; lia)).
  pose proof (zsum_le n_read n_count ls ltac:(intros []; cbn; lia)). lia.
Qed.
Lemma rwinv_range w ls : rwinv w ls → 0 ≤ w < 2 ^ 62 + 4.
Proof. intros (Hn & u & b & -> & _). pose proof (rw_sums ls). pose proof (b2z_range u). pose proof (b2z_range b). lia. Qed.

(** A writer keeps every other thread from the data. *)
Lemma rwinv_excl w ls i j li lj :
  rwinv w ls → ls !! i = Some li → ls !! j = Some lj → n_write li = 1 → rw_access lj → j = i.
Proof.
  intros (_ & u & b & _ & Hw & Huw & _ & _ & Hr) Hi Hj Hli Hlj. destruct (decide (j = i)) as [|Hne]; [done|].
  pose proof (zsum_two n_write ls j i lj li ltac:(intros []; cbn; lia) Hj Hi Hne) as H2.
  pose proof (zsum_ge n_upg ls j lj ltac:(intros []; cbn; lia) Hj) as HU.
  pose proof (zsum_ge n_read ls j lj ltac:(intros []; cbn; lia) Hj) as HR.
  pose proof (rw_sums ls). pose proof (b2z_range b). assert (b = true) by (destruct b; [done|cbn in *; pose proof (n_bounds lj); lia]).
  specialize (Hr H1). destruct Hlj. destruct lj; cbn in *; try done; lia.
Qed.

(** Each atomic operation of the lock, as a change of the word and of what the
    thread holds. *)
Ltac rw_step Hl :=
  unfold rwinv; rewrite !(zsum_insert _ _ _ _ _ Hl); unfold len in *; rewrite length_insert.
Ltac rw_done :=
  cbn in *; change WRITER with 1 in *; change (2 * 0 + 0) with 0 in *; change (2 * 0 + 1) with 1 in *; change (2 * 1 + 0) with 2 in *; change (2 * 1 + 1) with 3 in *;
  change (Z.lor 0 2) with 2; change (Z.lor 1 2) with 3; change (Z.lor 2 2) with 2; change (Z.lor 3 2) with 3;
  cbn in *; destruct_and?;
  repeat match goal with H : true = true → _ |- _ => specialize (H eq_refl) end;
  split_and!; try done; try lia; intros; lia.
Section word.
Context (w : Z) (ls : list rwghost) (i : nat).
Lemma rw_inc l : rwinv w ls → ls !! i = Some l → l = RwIdle ∨ l = RwUpg ∨ l = RwWrite →
  rwinv (w +u READER) (<[i := match l with
    | RwIdle => if Z.land w (Z.lor WRITER UPGRADED) =? 0 then RwRead else RwPending
    | RwUpg => RwDownU | _ => RwDownW end]> ls).
Proof.
  intros HI Hl Hcase. pose proof (rwinv_range w ls HI) as Hrange. change READER with 4. rewrite uadd_small by lia.
  destruct HI as (Hn & u & b & Hw & Hwr & HI). subst w. rewrite word_bits by (destruct u, b; cbn; lia).
  pose proof (rw_sums ls). rw_step Hl. split; [done|]. exists u, b.
  destruct Hcase as [->|[->| ->]]; destruct u, b; rw_done.
Qed.
Lemma rw_dec l : rwinv w ls → ls !! i = Some l → l = RwPending ∨ l = RwRead ∨ l = RwDownU ∨ l = RwDownW →
  rwinv (w -u READER) (<[i := match l with RwDownU => RwUpg | RwDownW => RwWrite | _ => RwIdle end]> ls).
Proof.
  intros HI Hl Hcase. pose proof (rwinv_range w ls HI) as Hrange. change READER with 4.
  destruct HI as (Hn & u & b & Hw & Hwr & HI).
  pose proof (zsum_ge n_count ls i l ltac:(intros []; cbn; lia) Hl). pose proof (rw_sums ls).
  pose proof (zsum_ge n_read ls i l ltac:(intros []; cbn; lia) Hl).
  assert (n_count l = 1) by (destruct Hcase as [->|[->|[->| ->]]]; done).
  rewrite usub_small by (destruct u, b; cbn in *; lia). subst w. rw_step Hl. split; [done|]. exists u, b.
  destruct Hcase as [->|[->|[->| ->]]]; destruct u, b; rw_done.
Qed.
Lemma rw_take : rwinv 0 ls → ls !! i = Some RwIdle → rwinv WRITER (<[i := RwWrite]> ls).
Proof.
  intros (Hn & u & b & Hw & Hwr & HI) Hl. pose proof (rw_sums ls). rw_step Hl. split; [done|].
  exists false, true. destruct u, b; rw_done.
Qed.
Lemma rw_upgrade : rwinv UPGRADED ls → ls !! i = Some RwUpg → rwinv WRITER (<[i := RwWrite]> ls).
Proof.
  intros (Hn & u & b & Hw & Hwr & HI) Hl. pose proof (rw_sums ls). change UPGRADED with 2 in Hw.
  pose proof (zsum_ge n_upg ls i _ ltac:(intros []; cbn; lia) Hl). rw_step Hl. split; [done|].
  exists false, true. destruct u, b; rw_done.
Qed.
Lemma rw_mark : rwinv w ls → ls !! i = Some RwIdle →
  rwinv (Z.lor w UPGRADED) (<[i := if Z.land w (Z.lor WRITER UPGRADED) =? 0 then RwUpg else RwIdle]> ls).
Proof.
  intros (Hn & u & b & Hw & Hwr & HI) Hl. pose proof (rw_sums ls). subst w.
  rewrite word_bits, word_upgrade by (destruct u, b; cbn; lia). rw_step Hl. split; [done|].
  exists true, b. destruct u, b; rw_done.
Qed.
Lemma rw_unmark l : rwinv w ls → ls !! i = Some l → l = RwUpg ∨ l = RwDownU →
  rwinv (w -u UPGRADED) (<[i := match l with RwUpg => RwIdle | _ => RwRead end]> ls).
Proof.
  intros HI Hl Hcase. pose proof (rwinv_range w ls HI) as Hrange. destruct HI as (Hn & u & b & Hw & Hwr & HI). pose proof (rw_sums ls).
  pose proof (zsum_ge n_upg ls i _ ltac:(intros []; cbn; lia) Hl). change UPGRADED with 2.
  assert (n_upg l = 1) by (destruct Hcase as [->| ->]; done).
  rewrite usub_small by (destruct u, b; cbn in *; lia). subst w. rw_step Hl. split; [done|]. exists false, b.
  destruct Hcase as [->| ->]; destruct u, b; rw_done.
Qed.
Lemma rw_release l : rwinv w ls → ls !! i = Some l → l = RwWrite ∨ l = RwDownW →
  rwinv (Z.land w (Z.lnot (Z.lor WRITER UPGRADED))) (<[i := match l with RwWrite => RwIdle | _ => RwRead end]> ls).
Proof.
  intros (Hn & u & b & Hw & Hwr & HI) Hl Hcase. pose proof (rw_sums ls). subst w.
  rewrite word_clear by (destruct u, b; cbn; lia).
  pose proof (zsum_ge n_write ls i _ ltac:(intros []; cbn; lia) Hl). rw_step Hl. split; [done|]. exists false, false.
  destruct Hcase as [->| ->]; destruct u, b; rw_done.
Qed.
End word.

(** ** What the operations do, among other threads *)
Section spec.
Context {St C : Type} (x : lens St Z) `{!LensOk x} (J : St → list (rwghost * C) → Prop) (may : C → rwghost → Prop).
Context (Hfr : framed x J may) (i : nat) (c : C).
#[local] Notation Inv := (framed_inv x rwinv J).
#[local] Notation rmw := (framed_rmw_may x rwinv J may Hfr i).

(** A reader's count, taken for a new guard or on top of the one that is held. *)
Lemma acquire_reader_spec l (g : Z → rwghost) :
  (∀ v ls, rwinv v ls → ls !! i = Some l → may c (g v) ∧ rwinv (v +u READER) (<[i := g v]> ls)) →
  (∀ v0 v ls, rwinv v ls → ls !! i = Some (g v0) → ∃ l', may c l' ∧ rwinv (v -u READER) (<[i := l']> ls)) →
  triple Inv i (l, c) (RwLock_acquire_reader x) (λ v lc, lc = (g v, c)).
Proof.
  intros Hinc Hdec. eapply triple_bind with (Q1 := λ v lc, lc = (g v, c)).
  - apply (rmw l). intros v ls HI Hl. exists (g v). destruct (Hinc v ls HI Hl). done.
  - intros v lc ->. case_match; [|by apply triple_ret].
    eapply triple_bind with (Q1 := λ _ _, True); [|intros; apply triple_panic].
    apply (rmw (g v)). intros w ls HI Hl. destruct (Hdec v w ls HI Hl) as (l' & ? & ?). by exists l'.
Qed.
Lemma try_read_spec : (∀ l, may c l) →
  triple Inv i (RwIdle, c) (RwLock_try_read x) (λ g lc, lc = (if g then RwRead else RwIdle, c)).
Proof.
  intros Hc. eapply triple_bind.
  - apply acquire_reader_spec with (g := λ v, if Z.land v (Z.lor WRITER UPGRADED) =? 0 then RwRead else RwPending).
    + intros v ls HI Hl. split; [done|]. apply (rw_inc v ls i RwIdle); auto.
    + intros v0 v ls HI Hl. exists RwIdle. split; [done|]. case_match; eapply (rw_dec v ls i _ HI Hl); auto.
  - intros v lc ->. destruct (Z.land v _ =? 0); cbn [negb]; [by apply triple_ret|].
    eapply triple_bind with (Q1 := λ _ lc, lc = (RwIdle, c)); [|intros _ lc ->; by apply triple_ret].
    apply (rmw RwPending). intros w ls HI Hl. exists RwIdle. split_and!; [done|apply (rw_dec w ls i RwPending); auto|done].
Qed.
Lemma retry_spec {G} (p : prog St (option G)) l l' :
  triple Inv i (l, c) p (λ g lc, lc = (if g then l' else l, c)) →
  triple Inv i (l, c) (Loop (λ _, let% g := p in
    match g with Some guard => Ret (inr guard) | None => relax ;% Ret (inl tt) end) tt) (λ _ lc, lc = (l', c)).
Proof.
  intros Hp. apply triple_loop with (P := λ _ lc, lc = (l, c)); [|done]. intros _ lc ->.
  eapply triple_bind; [exact Hp|]. intros [g|] lc ->; [by apply triple_ret|].
  eapply triple_bind with (Q1 := λ _ lc, lc = (l, c)); [by apply triple_ret|]. intros _ lc ->. by apply triple_ret.
Qed.
Lemma read_lock_spec : (∀ l, may c l) → triple Inv i (RwIdle, c) (RwLock_read x) (λ _ lc, lc = (RwRead, c)).
Proof. intros Hc. by apply retry_spec, try_read_spec. Qed.

Lemma compare_exchange_spec l l' old new strong : may c l' →
  (∀ ls, rwinv old ls → ls !! i = Some l → rwinv new (<[i := l']> ls)) →
  triple Inv i (l, c) (compare_exchange x old new strong) (λ r lc, lc = (if is_ok r then l' else l, c)).
Proof.
  intros Hm Hs. destruct strong; [apply (framed_cas_may x rwinv J may Hfr i l c)|apply (framed_cas_weak_may x rwinv J may Hfr i l c)];
    try done; intros ls HI Hl; exists l'; split_and!; auto.
Qed.
Lemma try_write_spec strong : may c RwWrite →
  triple Inv i (RwIdle, c) (RwLock_try_write_internal x strong) (λ g lc, lc = (if g then RwWrite else RwIdle, c)).
Proof.
  intros Hc. eapply triple_bind; [apply compare_exchange_spec with (l' := RwWrite); [done|intros ls; apply rw_take]|].
  intros r lc ->. destruct r; by apply triple_ret.
Qed.
Lemma write_lock_spec : may c RwWrite → triple Inv i (RwIdle, c) (RwLock_write x) (λ _ lc, lc = (RwWrite, c)).
Proof. intros Hc. by apply retry_spec, try_write_spec. Qed.
Lemma try_upgradeable_read_spec : (∀ l, may c l) →
  triple Inv i (RwIdle, c) (RwLock_try_upgradeable_read x) (λ g lc, lc = (if g then RwUpg else RwIdle, c)).
Proof.
  intros Hc. eapply triple_bind with (Q1 := λ v lc, lc = (if Z.land v (Z.lor WRITER UPGRADED) =? 0 then RwUpg else RwIdle, c)).
  - apply (rmw RwIdle). intros w ls HI Hl. eexists. split_and!; [done|by apply rw_mark|done].
  - intros v lc ->. case_match; by apply triple_ret.
Qed.
Lemma upgradeable_lock_spec : (∀ l, may c l) → triple Inv i (RwIdle, c) (RwLock_upgradeable_read x) (λ _ lc, lc = (RwUpg, c)).
Proof. intros Hc. by apply retry_spec, try_upgradeable_read_spec. Qed.

Lemma read_drop_spec g : may c RwIdle → triple Inv i (RwRead, c) (RwLockReadGuard_drop x g) (λ _ lc, lc = (RwIdle, c)).
Proof.
  intros Hc. eapply triple_bind with (Q1 := λ _ lc, lc = (RwIdle, c)); [|intros _ lc ->; by apply triple_ret].
  apply (rmw RwRead). intros w ls HI Hl. exists RwIdle. split_and!; [done|apply (rw_dec w ls i RwRead); auto|done].
Qed.
Lemma upgradable_drop_spec g l l' : (l, l') = (RwUpg, RwIdle) ∨ (l, l') = (RwDownU, RwRead) → may c l' →
  triple Inv i (l, c) (RwLockUpgradableGuard_drop x g) (λ _ lc, lc = (l', c)).
Proof.
  intros Hcase Hc. eapply triple_bind with (Q1 := λ _ lc, lc = (l', c)); [|intros _ lc ->; by apply triple_ret].
  apply (rmw l). intros w ls HI Hl. exists l'. split_and!; [done| |done].
  destruct Hcase as [[= -> ->]|[= -> ->]]; [apply (rw_unmark w ls i RwUpg)|apply (rw_unmark w ls i RwDownU)]; auto.
Qed.
Lemma write_drop_spec g l l' : (l, l') = (RwWrite, RwIdle) ∨ (l, l') = (RwDownW, RwRead) → may c l' →
  triple Inv i (l, c) (RwLockWriteGuard_drop x g) (λ _ lc, lc = (l', c)).
Proof.
  intros Hcase Hc. eapply triple_bind with (Q1 := λ _ lc, lc = (l', c)); [|intros _ lc ->; by apply triple_ret].
  apply (rmw l). intros w ls HI Hl. exists l'. split_and!; [done| |done].
  destruct Hcase as [[= -> ->]|[= -> ->]]; [apply (rw_release w ls i RwWrite)|apply (rw_release w ls i RwDownW)]; auto.
Qed.

Lemma try_upgrade_spec g strong : may c RwWrite →
  triple Inv i (RwUpg, c) (RwLockUpgradableGuard_try_upgrade_internal x g strong)
    (λ r lc, lc = (if is_ok r then RwWrite else RwUpg, c)).
Proof.
  intros Hc. eapply triple_bind; [apply compare_exchange_spec with (l' := RwWrite); [done|intros ls; apply rw_upgrade]|].
  intros r lc ->. destruct r; by apply triple_ret.
Qed.
Lemma upgrade_spec g : may c RwWrite → triple Inv i (RwUpg, c) (RwLockUpgradableGuard_upgrade x g) (λ _ lc, lc = (RwWrite, c)).
Proof.
  intros Hc. apply triple_loop with (P := λ _ lc, lc = (RwUpg, c)); [|done]. intros g' lc ->.
  eapply triple_bind; [by apply try_upgrade_spec|]. intros [w|e] lc ->; cbn [is_ok]; [by apply triple_ret|].
  eapply triple_bind with (Q1 := λ _ lc, lc = (RwUpg, c)); [by apply triple_ret|]. intros _ lc ->. by apply triple_ret.
Qed.
Lemma write_downgrade_spec g : may c RwDownW → may c RwRead → may c RwWrite →
  triple Inv i (RwWrite, c) (RwLockWriteGuard_downgrade x g) (λ _ lc, lc = (RwRead, c)).
Proof.
  intros H1 H2 H3. eapply triple_bind.
  - apply acquire_reader_spec with (g := λ _, RwDownW).
    + intros v ls HI Hl. split; [done|]. apply (rw_inc v ls i RwWrite); auto.
    + intros _ v ls HI Hl. exists RwWrite. split; [done|]. apply (rw_dec v ls i RwDownW); auto.
  - intros _ lc ->. eapply triple_bind; [by apply write_drop_spec with (l' := RwRead); [right|]|]. intros _ lc ->. by apply triple_ret.
Qed.
Lemma upgradable_downgrade_spec g : may c RwDownU → may c RwRead → may c RwUpg →
  triple Inv i (RwUpg, c) (RwLockUpgradableGuard_downgrade x g) (λ _ lc, lc = (RwRead, c)).
Proof.
  intros H1 H2 H3. eapply triple_bind.
  - apply acquire_reader_spec with (g := λ _, RwDownU).
    + intros v ls HI Hl. split; [done|]. apply (rw_inc v ls i RwUpg); auto.
    + intros _ v ls HI Hl. exists RwUpg. split; [done|]. apply (rw_dec v ls i RwDownU); auto.
  - intros _ lc ->. eapply triple_bind; [by apply upgradable_drop_spec with (l' := RwRead); [right|]|]. intros _ lc ->. by apply triple_ret.
Qed.
End spec.

(** ** Clients *)
Section client.
Context {T : Type} `{!EqDecision T}.
(** What a thread does with the lock: read twice under a read guard; change the
    data under a write guard; read under an upgradable guard and change the data
    after upgrading it; change the data, downgrade the guard and read; read under
    an upgradable guard, downgrade it and read. *)
Inductive rw_op : Type :=
| OpRead | OpWrite (f : T → T) | OpUpgrade (f : T → T) | OpDowngrade (f : T → T) | OpUpgradableRead.
(** Returns whether the data was the same at both reads, where there are two. *)
Definition rw_section (op : rw_op) : prog (RwLock T) bool :=
  match op with
  | OpRead =>
      let% g := RwLock_read lock_ in
      let% v := RwLockReadGuard_deref in
      let% v' := RwLockReadGuard_deref in
      RwLockReadGuard_drop lock_ g ;% Ret (bool_decide (v' = v))
  | OpWrite f =>
      let% g := RwLock_write lock_ in
      let% v := RwLockWriteGuard_deref in
      RwLockWriteGuard_deref_mut (f v) ;%
      RwLockWriteGuard_drop lock_ g ;% Ret true
  | OpUpgrade f =>
      let% g := RwLock_upgradeable_read lock_ in
      let% v := RwLockUpgradableGuard_deref in
      let% g := RwLockUpgradableGuard_upgrade lock_ g in
      RwLockWriteGuard_deref_mut (f v) ;%
      RwLockWriteGuard_drop lock_ g ;% Ret true
  | OpDowngrade f =>
      let% g := RwLock_write lock_ in
      let% v := RwLockWriteGuard_deref in
      RwLockWriteGuard_deref_mut (f v) ;%
      let% g := RwLockWriteGuard_downgrade lock_ g in
      let% v' := RwLockReadGuard_deref in
      RwLockReadGuard_drop lock_ g ;% Ret (bool_decide (v' = f v))
  | OpUpgradableRead =>
      let% g := RwLock_upgradeable_read lock_ in
      let% v := RwLockUpgradableGuard_deref in
      let% g := RwLockUpgradableGuard_downgrade lock_ g in
      let% v' := RwLockReadGuard_deref in
      RwLockReadGuard_drop lock_ g ;% Ret (bool_decide (v' = v))
  end.
Fixpoint rw_sections (ops : list rw_op) : prog (RwLock T) bool :=
  match ops with
  | [] => Ret true
  | op :: ops => let% b := rw_section op in let% b' := rw_sections ops in Ret (b && b')
  end.
Definition rw_changes (op : rw_op) : list (T → T) :=
  match op with OpWrite f | OpUpgrade f | OpDowngrade f => [f] | _ => [] end.

Context (d0 : T).
#[local] Notation Inv := (framed_inv lock_ rwinv (serial rw_access d0)).
#[local] Notation Hfr := (serial_framed rw_access d0).
#[local] Ltac rw_may := intros; first [by left | by right].

Lemma rw_write_spec i c f v r : c_read c = Some v → (r = None ∨ r = Some (f v)) →
  triple Inv i (RwWrite, c) (RwLockWriteGuard_deref_mut (f v)) (λ _ lc, lc = (RwWrite, mkC (c_done c ++ [f]) r)).
Proof. intros Hc Hr. apply write_spec; [done| |done]. intros w ls j lj HI Hi Hj Ha. by eapply rwinv_excl. Qed.
Lemma rw_finish_read i c g v (b : T → bool) : c_read c = Some v →
  triple Inv i (RwRead, c) (let% v' := RwLockReadGuard_deref in RwLockReadGuard_drop lock_ g ;% Ret (b v'))
    (λ r lc, r = b v ∧ lc = (RwIdle, mkC (c_done c) None)).
Proof.
  intros Hc. eapply triple_bind; [by apply reread_spec|]. intros w lc [-> ->].
  eapply triple_bind; [apply (read_drop_spec lock_ _ _ Hfr); rw_may|]. intros _ lc ->. by apply triple_ret.
Qed.
Lemma rw_finish_write i c g : quiet c →
  triple Inv i (RwWrite, c) (RwLockWriteGuard_drop lock_ g ;% Ret true) (λ r lc, r = true ∧ lc = (RwIdle, c)).
Proof.
  intros Hc. eapply triple_bind; [by apply (write_drop_spec lock_ _ _ Hfr _ _ _ _ RwIdle); [left|left]|].
  intros _ lc ->. by apply triple_ret.
Qed.
Lemma rw_section_spec i op c : quiet c →
  triple Inv i (RwIdle, c) (rw_section op) (λ b lc, b = true ∧ lc = (RwIdle, mkC (c_done c ++ rw_changes op) None)).
Proof.
  intros Hq. destruct op as [|f|f|f|]; cbn [rw_section rw_changes].
  - eapply triple_bind; [apply (read_lock_spec lock_ _ _ Hfr); rw_may|]. intros g lc ->.
    eapply triple_bind; [by apply read_spec|]. intros v lc ->. eapply triple_conseq; [by eapply rw_finish_read|].
    intros b lc [-> ->]. rewrite app_nil_r. by rewrite bool_decide_true.
  - eapply triple_bind; [apply (write_lock_spec lock_ _ _ Hfr); rw_may|]. intros g lc ->.
    eapply triple_bind; [by apply read_spec|]. intros v lc ->.
    eapply triple_bind; [by apply rw_write_spec with (r := None); [|left]|]. intros _ lc ->. by apply rw_finish_write.
  - eapply triple_bind; [apply (upgradeable_lock_spec lock_ _ _ Hfr); rw_may|]. intros g lc ->.
    eapply triple_bind; [by apply read_spec|]. intros v lc ->.
    eapply triple_bind; [apply (upgrade_spec lock_ _ _ Hfr); rw_may|]. intros g' lc ->.
    eapply triple_bind; [by apply rw_write_spec with (r := None); [|left]|]. intros _ lc ->. by apply rw_finish_write.
  - eapply triple_bind; [apply (write_lock_spec lock_ _ _ Hfr); rw_may|]. intros g lc ->.
    eapply triple_bind; [by apply read_spec|]. intros v lc ->.
    eapply triple_bind; [by apply rw_write_spec with (r := Some (f v)); [|right]|]. intros _ lc ->.
    eapply triple_bind; [apply (write_downgrade_spec lock_ _ _ Hfr); rw_may|]. intros g' lc ->.
    eapply triple_conseq; [by eapply rw_finish_read|]. intros b lc [-> ->]. by rewrite bool_decide_true.
  - eapply triple_bind; [apply (upgradeable_lock_spec lock_ _ _ Hfr); rw_may|]. intros g lc ->.
    eapply triple_bind; [by apply read_spec|]. intros v lc ->.
    eapply triple_bind; [apply (upgradable_downgrade_spec lock_ _ _ Hfr); rw_may|]. intros g' lc ->.
    eapply triple_conseq; [by eapply rw_finish_read|]. intros b lc [-> ->]. rewrite app_nil_r. by rewrite bool_decide_true.
Qed.
Lemma rw_sections_spec i ops : ∀ c, quiet c →
  triple Inv i (RwIdle, c) (rw_sections ops) (λ b lc, b = true ∧ lc = (RwIdle, mkC (c_done c ++ (ops ≫= rw_changes)) None)).
Proof.
  induction ops as [|op ops IH]; intros c Hq.
  - apply triple_ret. split; [done|]. cbn. rewrite app_nil_r. destruct c; cbn in *. by rewrite Hq.
  - eapply triple_bind; [by apply rw_section_spec|]. intros b lc [-> ->].
    eapply triple_bind; [by apply IH|]. intros b lc [-> ->]. apply triple_ret. split; [done|].
    cbn. by rewrite <- app_assoc.
Qed.
End client.
Arguments rw_op T : clear implicits.

(** C11. A reader-writer lock keeps readers and writers apart.  Any number of
    threads use the lock through read, write and upgradable guards, upgrading
    and downgrading them, in any interleaving of their atomic steps.  Data read
    twice under one guard, or before and after a guard is upgraded or downgraded,
    is the same both times; and when all threads have returned, the data is what
    the changes give when made one after the other, in some order that keeps the
    order of each thread. *)
Theorem RwLock_serializes {T} `{!EqDecision T} (opss : list (list (rw_op T))) (d0 : T) ts' m' :
  len opss < 2 ^ 60 →
  reaches (rw_sections <$> opss, RwLock_new d0) (ts', m') →
  (∀ i b, ts' !! i = Some (Ret b) → b = true) ∧
  (Forall (λ p, ∃ b, p = Ret b) ts' →
   ∃ h, data m' = apply_all h d0 ∧ ∀ i ops, opss !! i = Some ops → ops_of i h = ops ≫= rw_changes).
Proof.
  intros Hn Hr. set (n := length opss).
  destruct (pool_safe (framed_inv lock_ rwinv (serial rw_access d0))
    (λ i b lc, b = true ∧ ∃ ops, opss !! i = Some ops ∧ lc = (RwIdle, mkC (ops ≫= rw_changes) None))
    _ _ _ _ (replicate n (RwIdle, mkC [] None)) Hr) as (lcs & [_ [(h & Hd & Hh) _]] & Hlen & HQ).
  - split; [|by apply serial_start]. rewrite fmap_replicate. split; [unfold len in *; by rewrite length_replicate|].
    exists false, false. rewrite !zsum_replicate. cbn. lia.
  - by rewrite length_fmap, length_replicate.
  - intros i p l Hp [-> _]%lookup_replicate. rewrite list_lookup_fmap in Hp. destruct (opss !! i) as [ops|] eqn:Ho; [|done].
    injection Hp as <-. eapply triple_conseq; [by apply rw_sections_spec|]. intros b lc [-> ->]. split; [done|]. by exists ops.
  - assert (Hlt : length ts' = n) by (apply reaches_length in Hr; by rewrite length_fmap in Hr). split.
    + intros i b Hb. destruct (lookup_lt_is_Some_2 lcs i) as [lc Hlc]; [rewrite <- Hlen; exact (lookup_lt_Some _ _ _ Hb)|]. by destruct (HQ i b lc Hb Hlc).
    + intros Hdone. exists h. split; [done|]. intros i ops Hops. assert (Hi : (i < n)%nat) by (by eapply lookup_lt_Some).
      destruct (lookup_lt_is_Some_2 ts' i) as [p Hp]; [lia|]. destruct (lookup_lt_is_Some_2 lcs i) as [lc Hlc]; [rewrite <- Hlen; exact (lookup_lt_Some _ _ _ Hp)|].
      rewrite Forall_forall in Hdone. destruct (Hdone p) as [b ->]; [by eapply list_elem_of_lookup_2|].
      destruct (HQ i b lc Hp Hlc) as [_ (ops' & Hops' & ->)]. rewrite Hops in Hops'. injection Hops' as <-. by apply (Hh i _ _ Hlc).
Qed.

(** Two threads: one upgrades a guard and then reads, the other changes the data
    and downgrades its guard; the second runs while the first is between its
    sections. *)
Definition rw_threads : list (list (rw_op Z)) := [[OpUpgrade (λ n, n + 1); OpRead]; [OpDowngrade (λ n, n * 2)]].
Lemma RwLock_serializes_witness :
  (∀ i b, [Ret (St := RwLock Z) true; Ret true] !! i = Some (Ret b) → b = true) ∧
  ∃ h, 12 = apply_all h 5 ∧ ops_of 0 h = [λ n, n + 1] ∧ ops_of 1 h = [λ n, n * 2].
Proof.
  destruct (RwLock_serializes rw_threads 5 [Ret true; Ret true] (mkMutex 0 12)) as [Hb Hd].
  - unfold len. cbn. lia.
  - apply (run_pool_reaches (replicate 20 (0, 0) ++ replicate 24 (1, 0) ++ replicate 17 (0, 0))%nat). vm_compute. reflexivity.
  - split; [exact Hb|]. destruct Hd as (h & Hh & Ho); [repeat constructor; by eexists|].
    exists h. split; [exact Hh|]. split; [exact (Ho 0%nat _ eq_refl)|exact (Ho 1%nat _ eq_refl)].
Defined.

(** ** A guard that corrupts the lock *)
Definition downgrader {T} : prog (RwLock T) bool :=
  let% g := RwLock_write lock_ in
  let% g := RwLockWriteGuard_downgrade_to_upgradeable lock_ g in
  RwLockUpgradableGuard_drop lock_ g ;% Ret true.
(** The downgrader once it has the lock, and once it has downgraded. *)
Definition downgrading {T} : prog (RwLock T) bool :=
  let% g := RwLockWriteGuard_downgrade_to_upgradeable lock_ WriteGuard in
  RwLockUpgradableGuard_drop lock_ g ;% Ret true.
Definition downgraded {T} : prog (RwLock T) bool := RwLockUpgradableGuard_drop lock_ UpgradableGuard ;% Ret true.
(** A reader that has raised the count and has seen a writer. *)
Definition giving_up {T} : prog (RwLock T) bool :=
  let% g := a_rmw lock_ (λ w, w -u READER) ;% Ret None in Ret (bool_decide (is_Some (g : option RwLockReadGuard))).

Section corrupt.
Context {T : Type} (d : T).
Abbreviation st w := (mkMutex w d : RwLock T).
Lemma rmw_alone (f : Z → Z) w : alone (a_rmw lock_ f, st w) (Ret w, st (f w)).
Proof. apply (alone_atom (λ m : RwLock T, (view lock_ m, update lock_ (f (view lock_ m)) m))). Qed.
Lemma downgrader_locks : alone (downgrader, st 0) (downgrading, st WRITER).
Proof.
  eapply alone_then with (a := WriteGuard) (s' := st WRITER); [|constructor].
  eapply alone_loop with (x := inr WriteGuard) (s' := st WRITER); [|constructor].
  eapply alone_then with (a := Some WriteGuard) (s' := st WRITER); [|constructor].
  eapply alone_then with (a := ok 0) (s' := st WRITER); [|constructor].
  apply (alone_next (a_cas_weak lock_ 0 WRITER)). left.
Qed.
Lemma downgrading_stores w : alone (downgrading, st w) (downgraded, st UPGRADED).
Proof.
  eapply alone_then; [|constructor]. eapply alone_then; [|constructor]. apply (alone_atom (λ m : RwLock T, (tt, update lock_ UPGRADED m))).
Qed.
Lemma downgraded_drops w : alone (downgraded, st w) (Ret true, st (w -u UPGRADED)).
Proof. eapply alone_then; [|constructor]. eapply alone_then; [apply rmw_alone|constructor]. Qed.
(** A reader beside a writer raises the count and finds the writer. *)
Lemma reader_raises R : 0 ≤ R < 2 ^ 60 →
  alone (RawRwLock_try_lock_shared lock_, st (4 * R + WRITER)) (giving_up, st (4 * (R + 1) + WRITER)).
Proof.
  intros HR. unfold RawRwLock_try_lock_shared, giving_up. apply alone_bind. eapply alone_then.
  - eapply alone_then; [apply rmw_alone|]. rewrite (proj2 (Z.ltb_ge _ _)) by (change (MAX_READERS *u READER) with (2 ^ 63 - 4); unfold WRITER; lia). constructor.
  - rewrite word_bits by (unfold WRITER; lia). cbn [negb Z.eqb WRITER].
    replace (4 * (R + 1) + WRITER) with (4 * R + WRITER +u READER); [constructor|]. unfold WRITER. rewrite uadd_small; change READER with 4; lia.
Qed.
Lemma reader_gives_up w : alone (giving_up, st w) (Ret false, st (w -u READER)).
Proof. eapply alone_then; [eapply alone_then; [apply rmw_alone|constructor]|constructor]. Qed.
(** The readers one after the other. *)
Lemma readers_phase (h p p' : prog (RwLock T) bool) (w : nat → Z) n :
  (∀ k, (k < n)%nat → alone (p, st (w k)) (p', st (w (S k)))) →
  reaches (h :: replicate n p, st (w 0%nat)) (h :: replicate n p', st (w n)).
Proof.
  intros Hp. assert (Hm : ∀ m, (m ≤ n)%nat →
    reaches (h :: replicate n p, st (w 0%nat)) (h :: replicate m p' ++ replicate (n - m) p, st (w m))).
  { induction m as [|m IH]; intros Hm; [rewrite Nat.sub_0_r; constructor|]. etrans; [apply IH; lia|].
    replace (n - m)%nat with (S (n - S m)) by lia. set (r := replicate (n - S m) p).
    replace (h :: replicate (S m) p' ++ r) with (<[S m := p']> (h :: replicate m p' ++ p :: r)).
    - eapply alone_reaches; [|by apply Hp; lia]. cbn. apply list_lookup_middle. by rewrite length_replicate.
    - rewrite replicate_S_end. change (<[S m := p']> (h :: ?x)) with (h :: <[m := p']> x). rewrite insert_app_r_alt by (by rewrite length_replicate).
      by rewrite length_replicate, Nat.sub_diag, <- app_assoc. }
  specialize (Hm n ltac:(lia)). by rewrite Nat.sub_diag, app_nil_r in Hm.
Qed.
(** The thread in front. *)
Lemma first_phase (p p' : prog (RwLock T) bool) w w' ts : alone (p, st w) (p', st w') → reaches (p :: ts, st w) (p' :: ts, st w').
Proof. by apply (alone_reaches (p :: ts) 0). Qed.
Lemma shared_refused w : 2 ^ 63 ≤ w < 2 ^ 64 → alone (RawRwLock_lock_shared lock_, st w) (Panic, st w).
Proof.
  intros Hw. apply alone_fails, alone_loop_fails, alone_fails, alone_fails. eapply alone_then; [apply rmw_alone|].
  rewrite (proj2 (Z.ltb_lt _ _)) by (change (MAX_READERS *u READER) with (2 ^ 63 - 4); lia).
  eapply alone_then; [apply rmw_alone|]. cbn beta.
  replace (w +u READER -u READER) with w; [constructor|]. change READER with 4. unfold uadd, usub, wrap64. rewrite Zminus_mod_idemp_l.
  rewrite Z.mod_small; lia.
Qed.
Lemma exclusive_refused w : w ≠ 0 → alone (RawRwLock_try_lock_exclusive lock_, st w) (Ret false, st w).
Proof.
  intros Hw. eapply alone_then; [eapply alone_then; [eapply alone_next|]|].
  - cbn. rewrite decide_False by done. left.
  - constructor.
  - constructor.
Qed.
End corrupt.

(** C39. [downgrade_to_upgradeable] stores its new lock word instead of changing
    the bits it means to change, so the attempts to read that are under way at
    that moment lose their counts, and take them from the word again when they
    give up.  A thread takes a new lock for writing, downgrades its guard and
    drops it, and any positive number of threads try to read and fail: in some
    interleaving all of them end, no guard is left, and the lock is useless.  To
    lock it shared panics, because the word says that there are too many readers,
    and it cannot be locked exclusively. *)
Theorem downgrade_to_upgradeable_corrupts {T} (d : T) n : (0 < n)%nat → Z.of_nat n < 2 ^ 60 →
  let m : RwLock T := mkMutex (2 ^ 64 - 4 * Z.of_nat n) d in
  reaches (downgrader :: replicate n (RawRwLock_try_lock_shared lock_), RwLock_new d) (Ret true :: replicate n (Ret false), m) ∧
  alone (RawRwLock_lock_shared lock_, m) (Panic, m) ∧
  alone (RawRwLock_try_lock_exclusive lock_, m) (Ret false, m).
Proof.
  intros Hn Hlt m. split_and!; [|apply shared_refused; lia|apply exclusive_refused; lia].
  etrans; [apply first_phase, downgrader_locks|].
  etrans; [apply (readers_phase d _ _ giving_up (λ k, 4 * Z.of_nat k + WRITER))|].
  { intros k Hk. replace (Z.of_nat (S k)) with (Z.of_nat k + 1) by lia. apply reader_raises. lia. }
  etrans; [apply first_phase, downgrading_stores|].
  etrans; [apply (readers_phase d _ _ (Ret false) (λ k, wrap64 (UPGRADED - READER * Z.of_nat k)))|].
  { intros k Hk. replace (wrap64 (UPGRADED - READER * Z.of_nat (S k))) with (wrap64 (UPGRADED - READER * Z.of_nat k) -u READER).
    - apply reader_gives_up.
    - unfold usub, wrap64. rewrite Zminus_mod_idemp_l. f_equal. lia. }
  replace m with (mkMutex (wrap64 (UPGRADED - READER * Z.of_nat n) -u UPGRADED) d); [apply first_phase, downgraded_drops|].
  unfold m, usub, wrap64. f_equal. rewrite Zminus_mod_idemp_l. change READER with 4. symmetry. apply (Z.mod_unique _ _ (-1)); lia.
Qed.
Lemma downgrade_to_upgradeable_corrupts_witness :
  let m : RwLock bool := mkMutex (2 ^ 64 - 12) true in
  reaches (downgrader :: replicate 3 (RawRwLock_try_lock_shared lock_), RwLock_new true) (Ret true :: replicate 3 (Ret false), m) ∧
  alone (RawRwLock_lock_shared lock_, m) (Panic, m) ∧
  alone (RawRwLock_try_lock_exclusive lock_, m) (Ret false, m).
Proof. apply (downgrade_to_upgradeable_corrupts true 3); lia. Defined.

(** A failed [try_upgrade] of the guardless interface gives up the upgradable
    lock, although its caller still counts on holding it. *)
Lemma RawRwLock_try_upgrade_drops {T} w (d : T) : w ≠ UPGRADED →
  alone (RawRwLock_try_upgrade lock_, mkMutex w d) (Ret false, mkMutex (w -u UPGRADED) d).
Proof.
  intros Hw. eapply alone_then.
  - eapply alone_then; [apply (alone_atom (λ m, if decide (view lock_ m = UPGRADED) then (ok UPGRADED, update lock_ WRITER m) else (err (view lock_ m), m)))|].
    cbn [view lock_ lock_word]. rewrite decide_False by done. constructor.
  - eapply alone_then; [|constructor]. eapply alone_then; [apply (alone_atom (λ m, (view lock_ m, update lock_ (view lock_ m -u UPGRADED) m)))|]. constructor.
Qed.
