(* ===== verification/Once.v ===== *)
(** * One-time initialisation ([spin/src/once.rs], [lazy.rs])

    A [Once] runs an initialiser and hands its value to everyone who asks.
    [Once_initialises_once] says what it promises to any number of threads, in
    every interleaving, with initialisers that may fail.  Memory that may be
    uninitialised is an [option], so a reference to the data that is handed out
    carries the proof obligation that it is there. *)

From S2P Require Import Prelude Conc Mutex.

(** [spin/once.rs:69-74] Status *)
Inductive Status : Type := Incomplete | Running | Complete | Panicked.
#[export] Instance Status_eq_dec : EqDecision Status.
Proof. solve_decision. Defined.

(** [spin/once.rs:28-32] Once *)
Record Once (T : Type) : Type := mkOnce { status : Status; cell : option T }.
Arguments mkOnce {T} status cell.
Arguments status {T} o.
Arguments cell {T} o.
Definition status_ {T} : lens (Once T) Status := Lens status (λ s o, mkOnce s (cell o)).
Definition cell_ {T} : lens (Once T) (option T) := Lens cell (λ d o, mkOnce (status o) d).

(** [spin/once.rs:343-347] Once::INIT *)
Definition Once_INIT {T} : Once T := mkOnce Incomplete None.
(** [spin/once.rs:350-352] Once::new *)
Definition Once_new {T} : Once T := Once_INIT.
(** [spin/once.rs:355-361] Once::initialized *)
Definition Once_initialized {T} (d : T) : Once T := mkOnce Complete (Some d).

Section once.
Context {St T : Type} (x : lens St (Once T)).
#[local] Notation st := (lens_comp x status_).

(** [spin/once.rs:93-97] AtomicStatus::load *)
Definition AtomicStatus_load : prog St Status := a_load st.
(** [spin/once.rs:99-103] AtomicStatus::store *)
Definition AtomicStatus_store (s : Status) : prog St unit := a_store st s.
(** [spin/once.rs:105-122] AtomicStatus::compare_exchange *)
Definition AtomicStatus_compare_exchange (old new : Status) : prog St (Result Status Status) := a_cas st old new.
(** [spin/once.rs:513-523] Drop for Finish. Only the unwinding of a panic gets
    there, and a panic of the kernel shuts it down instead: no operation below
    runs it. *)
Definition Finish_drop : prog St unit := AtomicStatus_store Panicked.

(** [spin/once.rs:375-380] Once::force_get. The contents of the memory, which
    may be uninitialised. *)
Definition Once_force_get : prog St (option T) := a_load (lens_comp x cell_).
(** [spin/once.rs:399-406] Once::get *)
Definition Once_get : prog St (option (option T)) :=
  let% s := AtomicStatus_load in
  match s with
  | Complete => let% v := Once_force_get in Ret (Some v)
  | _ => Ret None
  end.
(** [spin/once.rs:325-337] Once::poll *)
Definition Once_poll : prog St (option (option T)) :=
  Loop (λ _,
    let% s := AtomicStatus_load in
    match s with
    | Incomplete => Ret (inr None)
    | Running => relax ;% Ret (inl tt)
    | Complete => let% v := Once_force_get in Ret (inr (Some v))
    | Panicked => Panic
    end) tt.
(** [spin/once.rs:306-313] Once::wait *)
Definition Once_wait : prog St (option T) :=
  Loop (λ _,
    let% o := Once_poll in
    match o with
    | Some v => Ret (inr v)
    | None => relax ;% Ret (inl tt)
    end) tt.
(** [spin/once.rs:485-488] Once::is_completed *)
Definition Once_is_completed : prog St bool :=
  let% s := AtomicStatus_load in Ret (bool_decide (s = Complete)).

(** [spin/once.rs:249-293] Once::try_call_once_slow. What the thread that has
    set the status to [Running] does. *)
Definition Once_initialise {E} (f : prog St (Result T E)) : prog St (Result (option T) E) :=
  let% r := f in
  match r with
  | err e => AtomicStatus_store Incomplete ;% Ret (err e)
  | ok val =>
      a_store (lens_comp x cell_) (Some val) ;%
      AtomicStatus_store Complete ;%
      let% v := Once_force_get in Ret (ok v)
  end.
(** [spin/once.rs:217-295] Once::try_call_once_slow *)
Definition Once_try_call_once_slow {E} (f : prog St (Result T E)) : prog St (Result (option T) E) :=
  Loop (λ _,
    let% xchg := AtomicStatus_compare_exchange Incomplete Running in
    match xchg with
    | ok _ => let% r := Once_initialise f in Ret (inr r)
    | err Panicked => Panic
    | err Running =>
        let% o := Once_poll in
        match o with
        | Some v => Ret (inr (ok v))
        | None => Ret (inl tt)
        end
    | err Complete => let% v := Once_force_get in Ret (inr (ok v))
    | err Incomplete => Ret (inl tt)
    end) tt.
(** [spin/once.rs:208-214] Once::try_call_once *)
Definition Once_try_call_once {E} (f : prog St (Result T E)) : prog St (Result (option T) E) :=
  let% o := Once_get in
  match o with
  | Some value => Ret (ok value)
  | None => Once_try_call_once_slow f
  end.
(** [spin/once.rs:168-173] Once::call_once *)
Definition Once_call_once (f : prog St T) : prog St (option T) :=
  let% r := Once_try_call_once (let% v := f in Ret (ok (E := Empty_set) v)) in
  match r with
  | ok x => Ret x
  | err void => match void with end
  end.
End once.

(** The operations of an owner. *)
(** [spin/once.rs:429-434] Once::get_mut *)
Definition Once_get_mut {T} (o : Once T) : option (option T) :=
  match status o with Complete => Some (cell o) | _ => None end.
(** [spin/once.rs:497-507] Drop for Once. The memory whose value is dropped. *)
Definition Once_drop {T} (o : Once T) : option (option T) :=
  match status o with Complete => Some (cell o) | _ => None end.
(** [spin/once.rs:391-396] Once::force_into_inner. The value that is read out of
    the memory, and what is dropped when [self] goes out of scope. *)
Definition Once_force_into_inner {T} (o : Once T) : option T * option (option T) := (cell o, Once_drop o).
(** [spin/once.rs:457-462] Once::try_into_inner *)
Definition Once_try_into_inner {T} (o : Once T) : option (option T) * option (option T) :=
  match status o with
  | Complete => let '(v, dropped) := Once_force_into_inner o in (Some v, dropped)
  | _ => (None, Once_drop o)
  end.
(** The value that [try_into_inner] returns is dropped as well. *)
Lemma Once_try_into_inner_drops {T} (d : T) :
  Once_try_into_inner (Once_initialized d) = (Some (Some d), Some (Some d)).
Proof. done. Qed.

(** ** [Lazy] *)
(** [spin/lazy.rs:41-44] Lazy *)
Record Lazy (T F : Type) : Type := mkLazy { lazy_cell : Once T; init : option F }.
Arguments mkLazy {T F} lazy_cell init.
Arguments lazy_cell {T F} l.
Arguments init {T F} l.
Definition lazy_cell_ {T F} : lens (Lazy T F) (Once T) := Lens lazy_cell (λ o l, mkLazy o (init l)).
Definition init_ {T F} : lens (Lazy T F) (option F) := Lens init (λ f l, mkLazy (lazy_cell l) f).
(** [spin/lazy.rs:66-71] Lazy::new *)
Definition Lazy_new {T F} (f : F) : Lazy T F := mkLazy Once_new (Some f).
(** [spin/lazy.rs:97-102] Lazy::force. [call] runs the initialiser. *)
Definition Lazy_force {St T F} (x : lens St (Lazy T F)) (call : F → prog St T) : prog St (option T) :=
  Once_call_once (lens_comp x lazy_cell_)
    (let% o := a_swap (lens_comp x init_) None in
     match o with
     | Some f => call f
     | None => Panic
     end).
(** [spin/lazy.rs:108-110] Deref for Lazy *)
Definition Lazy_deref {St T F} (x : lens St (Lazy T F)) (call : F → prog St T) : prog St (option T) := Lazy_force x call.

(** ** Any number of callers *)
Section callers.
Context {T E : Type} (res : nat → Result T E).
(** The shared state: the [Once], how many initialisers are running, and the
    threads whose initialiser has succeeded. *)
Record ostate : Type := mkO { o_once : Once T; o_inside : Z; o_log : list nat }.
Definition once_ : lens ostate (Once T) := Lens o_once (λ o s, mkO o (o_inside s) (o_log s)).
(** The initialiser of thread [i] runs for a while and gives [res i]. *)
Definition initialiser (i : nat) : prog ostate (Result T E) :=
  atom (λ s, (tt, mkO (o_once s) (o_inside s + 1) (o_log s))) ;%
  atom (λ s, (tt, mkO (o_once s) (o_inside s - 1) (if is_ok (res i) then o_log s ++ [i] else o_log s))) ;%
  Ret (res i).
Definition once_caller (i : nat) : prog ostate (Result (option T) E) := Once_try_call_once once_ (initialiser i).

(** What a thread is doing: nothing; initialising, with the initialiser not yet
    started, running, finished, or its value written; or it has seen that the
    value of thread [j] is there. *)
Inductive oghost : Type := OIdle | OInit | OInside | OLeft | OWrote | OSaw (j : nat) (v : T).
Definition n_owner (l : oghost) : Z := match l with OInit | OInside | OLeft | OWrote => 1 | _ => 0 end.
Definition n_inside (l : oghost) : Z := match l with OInside => 1 | _ => 0 end.
Definition phase_ok (s : ostate) (i : nat) (l : oghost) : Prop :=
  match l with
  | OInit | OInside => o_log s = []
  | OLeft => o_log s = if is_ok (res i) then [i] else []
  | OWrote => o_log s = [i] ∧ ∃ v, res i = ok v ∧ cell (o_once s) = Some v
  | _ => True
  end.
Definition is_set (s : ostate) (j : nat) (v : T) : Prop :=
  status (o_once s) = Complete ∧ cell (o_once s) = Some v ∧ o_log s = [j] ∧ res j = ok v.
Definition once_inv (s : ostate) (ls : list oghost) : Prop :=
  zsum n_owner ls = b2z (bool_decide (status (o_once s) = Running)) ∧ o_inside s = zsum n_inside ls ∧
  match status (o_once s) with
  | Incomplete => o_log s = []
  | Running => ∀ i l, ls !! i = Some l → phase_ok s i l
  | Complete => ∃ j v, is_set s j v
  | Panicked => False
  end ∧
  (∀ i j v, ls !! i = Some (OSaw j v) → is_set s j v).
#[local] Notation triple := (triple once_inv).

Lemma n_owner_nonneg l : 0 ≤ n_owner l.
Proof. destruct l; cbn; lia. Qed.
(** The thread that initialises is the only one. *)
Lemma owner_running s ls i l : once_inv s ls → ls !! i = Some l → n_owner l = 1 →
  status (o_once s) = Running ∧ phase_ok s i l ∧ (∀ j lj, ls !! j = Some lj → j ≠ i → n_owner lj = 0) ∧
  (∀ j k v, ls !! j ≠ Some (OSaw k v)).
Proof.
  intros (Ho & _ & Hs & Hsaw) Hl Hn. pose proof (zsum_ge n_owner ls i l n_owner_nonneg Hl) as Hge.
  assert (Hr : status (o_once s) = Running) by (destruct (decide (status (o_once s) = Running)); [done|rewrite bool_decide_false in Ho by done; cbn in Ho; lia]).
  rewrite Hr in Hs. split_and!; [done|by apply Hs| |].
  - intros j lj Hj Hne. pose proof (zsum_two n_owner ls j i lj l n_owner_nonneg Hj Hl Hne). rewrite Ho, bool_decide_true in H by done. cbn in H.
    pose proof (n_owner_nonneg lj). lia.
  - intros j k v Hj. destruct (Hsaw j k v Hj) as [Hc _]. congruence.
Qed.
(** A step of the thread that initialises. *)
Lemma owner_step s s' ls i l l' : once_inv s ls → ls !! i = Some l → n_owner l = 1 →
  o_inside s' = o_inside s - n_inside l + n_inside l' →
  match status (o_once s') with
  | Incomplete => n_owner l' = 0 ∧ o_log s' = []
  | Running => n_owner l' = 1 ∧ phase_ok s' i l'
  | Complete => n_owner l' = 0 ∧ ∃ j v, is_set s' j v
  | Panicked => False
  end →
  (∀ j v, l' = OSaw j v → is_set s' j v) → once_inv s' (<[i := l']> ls).
Proof.
  intros HI Hl Hn Hin Hst Hsaw. destruct (owner_running _ _ _ _ HI Hl Hn) as (Hr & Hp & Hoth & Hns).
  destruct HI as (Ho & Hi & _ & _). rewrite bool_decide_true in Ho by done. cbn in Ho. split_and!.
  - rewrite (zsum_insert _ _ _ _ _ Hl), Ho, Hn. destruct (status (o_once s')); [..|done]; destruct Hst as [-> _]; done.
  - rewrite (zsum_insert _ _ _ _ _ Hl), Hin, Hi. done.
  - destruct (status (o_once s')); [by destruct Hst| |by destruct Hst|done]. intros j lj Hj. destruct (decide (i = j)) as [<-|Hne].
    + rewrite list_lookup_insert_eq in Hj by (by eapply lookup_lt_Some). injection Hj as <-. by destruct Hst.
    + rewrite list_lookup_insert_ne in Hj by done. specialize (Hoth j lj Hj (not_eq_sym Hne)). by destruct lj.
  - intros j k v Hj. destruct (decide (i = j)) as [<-|Hne].
    + rewrite list_lookup_insert_eq in Hj by (by eapply lookup_lt_Some). injection Hj as ->. by apply Hsaw.
    + rewrite list_lookup_insert_ne in Hj by done. by destruct (Hns j k v).
Qed.
(** A step of a thread that learns something. *)
Lemma learn_step s ls i l : once_inv s ls → ls !! i = Some OIdle → (∀ j v, l = OSaw j v → is_set s j v) → n_owner l = 0 →
  n_inside l = 0 → once_inv s (<[i := l]> ls).
Proof.
  intros (Ho & Hi & Hs & Hsaw) Hl Hl' Hn Hin. split_and!.
  - rewrite (zsum_insert _ _ _ _ _ Hl), Ho, Hn. cbn. lia.
  - rewrite (zsum_insert _ _ _ _ _ Hl), Hi, Hin. cbn. lia.
  - destruct (status (o_once s)); try done. intros j lj Hj. destruct (decide (i = j)) as [<-|Hne].
    + rewrite list_lookup_insert_eq in Hj by (by eapply lookup_lt_Some). injection Hj as <-. by destruct l.
    + rewrite list_lookup_insert_ne in Hj by done. by apply Hs.
  - intros j k v Hj. destruct (decide (i = j)) as [<-|Hne].
    + rewrite list_lookup_insert_eq in Hj by (by eapply lookup_lt_Some). injection Hj as ->. by apply Hl'.
    + rewrite list_lookup_insert_ne in Hj by done. by eapply Hsaw.
Qed.

(** The result of a call: everyone gets the value of the thread whose
    initialiser has succeeded, or the error of their own. *)
Definition got (d : option T) (l : oghost) : Prop := ∃ j v, d = Some v ∧ l = OSaw j v.
Definition called (i : nat) (r : Result (option T) E) (l : oghost) : Prop :=
  match r with ok d => got d l | err e => res i = err e ∧ l = OIdle end.
Lemma once_seen s ls : once_inv s ls → status (o_once s) = Complete → ∃ j v, is_set s j v.
Proof. intros (_ & _ & Hs & _) Hc. by rewrite Hc in Hs. Qed.
Lemma status_load_spec i : triple i OIdle (AtomicStatus_load once_) (λ s l, if decide (s = Complete) then ∃ j v, l = OSaw j v else l = OIdle).
Proof.
  apply triple_atom. intros s ls HI Hl. cbn. destruct (decide (status (o_once s) = Complete)) as [Hc|Hc].
  - destruct (once_seen s ls HI Hc) as (j & v & Hv). exists (OSaw j v). split; [|by eauto].
    apply learn_step; try done. by intros ? ? [= <- <-].
  - exists OIdle. split; [|done]. by rewrite list_insert_id.
Qed.
Lemma force_get_spec i j v : triple i (OSaw j v) (Once_force_get once_) got.
Proof.
  apply triple_atom. intros s ls HI Hl. exists (OSaw j v). split; [by rewrite list_insert_id|].
  destruct HI as (_ & _ & _ & Hsaw). destruct (Hsaw i j v Hl) as (_ & Hc & _). exists j, v. done.
Qed.
Lemma get_spec i : triple i OIdle (Once_get once_) (λ o l, match o with Some d => got d l | None => l = OIdle end).
Proof.
  eapply triple_bind; [apply status_load_spec|]. intros s l Hs; cbv beta in Hs. case_decide as Hc.
  - destruct Hs as (j & v & ->). subst s. eapply triple_bind; [apply force_get_spec|]. intros d l Hd. by apply triple_ret.
  - subst l. destruct s; try done; by apply triple_ret.
Qed.
Lemma poll_spec i : triple i OIdle (Once_poll once_) (λ o l, match o with Some d => got d l | None => l = OIdle end).
Proof.
  apply triple_loop with (P := λ _ l, l = OIdle); [|done]. intros _ l ->. eapply triple_bind; [apply status_load_spec|]. intros s l Hs; cbv beta in Hs. case_decide as Hc.
  - destruct Hs as (j & v & ->). subst s. eapply triple_bind; [apply force_get_spec|]. intros d l Hd. by apply triple_ret.
  - subst l. destruct s; try done; [by apply triple_ret| |by apply triple_panic].
    eapply triple_bind; [by apply triple_ret with (Q := λ _ l, l = OIdle)|]. intros _ l ->. by apply triple_ret.
Qed.
Lemma once_take_spec i : triple i OIdle (AtomicStatus_compare_exchange once_ Incomplete Running)
  (λ r l, match r with ok _ => l = OInit | err s => if decide (s = Complete) then ∃ j v, l = OSaw j v else l = OIdle end).
Proof.
  apply triple_atom. intros s ls HI Hl. case_decide as Hv; cbn in *.
  - exists OInit. split; [|done]. destruct HI as (Ho & Hi & Hs & Hsaw). rewrite Hv in Hs. rewrite bool_decide_false in Ho by (by rewrite Hv).
    split_and!; cbn.
    + rewrite (zsum_insert _ _ _ _ _ Hl), Ho. done.
    + rewrite (zsum_insert _ _ _ _ _ Hl), Hi. cbn. lia.
    + intros j lj Hj. destruct (decide (i = j)) as [<-|Hne].
      * rewrite list_lookup_insert_eq in Hj by (by eapply lookup_lt_Some). injection Hj as <-. done.
      * rewrite list_lookup_insert_ne in Hj by done. pose proof (zsum_ge n_owner ls j lj n_owner_nonneg Hj) as Hge. rewrite Ho in Hge.
        destruct lj; cbn in Hge; try done; lia.
    + intros j k v Hj. destruct (decide (i = j)) as [<-|Hne].
      * by rewrite list_lookup_insert_eq in Hj by (by eapply lookup_lt_Some).
      * rewrite list_lookup_insert_ne in Hj by done. destruct (Hsaw j k v Hj) as [Hc _]. congruence.
  - destruct (decide (status (o_once s) = Complete)) as [Hc|Hc].
    + destruct (once_seen s ls HI Hc) as (j & v & Hset). exists (OSaw j v). split; [|by eauto].
      apply learn_step; try done. by intros ? ? [= <- <-].
    + exists OIdle. split; [|done]. by rewrite list_insert_id.
Qed.
Lemma initialiser_spec i : triple i OInit (initialiser i) (λ r l, r = res i ∧ l = OLeft).
Proof.
  eapply triple_bind with (Q1 := λ _ l, l = OInside).
  - apply triple_atom. intros s ls HI Hl. exists OInside. split; [|done].
    destruct (owner_running _ _ _ _ HI Hl eq_refl) as (Hr & Hp & _). eapply owner_step; try done; cbn; [lia|]. by rewrite Hr.
  - intros _ l ->. eapply triple_bind with (Q1 := λ _ l, l = OLeft); [|intros _ l ->; by apply triple_ret].
    apply triple_atom. intros s ls HI Hl. exists OLeft. split; [|done].
    destruct (owner_running _ _ _ _ HI Hl eq_refl) as (Hr & Hp & _). eapply owner_step; try done; cbn; [lia|]. rewrite Hr. split; [done|].
    cbn in Hp. by rewrite Hp.
Qed.
Lemma initialise_spec i : triple i OInit (Once_initialise once_ (initialiser i)) (called i).
Proof.
  eapply triple_bind; [apply initialiser_spec|]. intros r l [-> ->]. destruct (res i) as [val|e] eqn:Hres.
  - eapply triple_bind with (Q1 := λ _ l, l = OWrote).
    { apply triple_atom. intros s ls HI Hl. exists OWrote. split; [|done].
      destruct (owner_running _ _ _ _ HI Hl eq_refl) as (Hr & Hp & _). eapply owner_step; try done; cbn; [lia|]. rewrite Hr. split; [done|].
      cbn in Hp. rewrite Hres in Hp. split; [done|]. by exists val. }
    intros _ l ->. eapply triple_bind with (Q1 := λ _ l, l = OSaw i val).
    { apply triple_atom. intros s ls HI Hl. exists (OSaw i val). split; [|done].
      destruct (owner_running _ _ _ _ HI Hl eq_refl) as (Hr & [Hlog (v & Hv & Hc)] & _).
      assert (Hset : is_set (mkO (mkOnce Complete (cell (o_once s))) (o_inside s) (o_log s)) i val)
        by (rewrite Hres in Hv; injection Hv as <-; done).
      eapply owner_step; try done; cbn; [lia| |]; [split; [done|]; by exists i, val|by intros ? ? [= <- <-]]. }
    intros _ l ->. eapply triple_bind; [apply force_get_spec|]. intros d l Hd. by apply triple_ret.
  - eapply triple_bind with (Q1 := λ _ l, l = OIdle); [|intros _ l ->; by apply triple_ret].
    apply triple_atom. intros s ls HI Hl. exists OIdle. split; [|done].
    destruct (owner_running _ _ _ _ HI Hl eq_refl) as (Hr & Hp & _). eapply owner_step; try done; cbn; [lia|].
    cbn in Hp. by rewrite Hres in Hp.
Qed.
Lemma try_call_once_spec i : triple i OIdle (once_caller i) (called i).
Proof.
  eapply triple_bind; [apply get_spec|]. intros [d|] l Hl; [by apply triple_ret|]. subst l.
  apply triple_loop with (P := λ _ l, l = OIdle); [|done]. intros _ l ->.
  eapply triple_bind; [apply once_take_spec|]. intros [s|s] l Hl; cbv beta iota in Hl.
  - subst l. eapply triple_bind; [apply initialise_spec|]. intros r l Hr. by apply triple_ret.
  - case_decide as Hc.
    + destruct Hl as (j & v & ->). subst s. eapply triple_bind; [apply force_get_spec|]. intros d l Hd. by apply triple_ret.
    + subst l. destruct s; try done; [by apply triple_ret| |by apply triple_panic].
      eapply triple_bind; [apply poll_spec|]. intros [d|] l Hl; [by apply triple_ret|]. subst l. by apply triple_ret.
Qed.
End callers.
Arguments mkO {T} o_once o_inside o_log.
Arguments o_once {T} o.
Arguments o_inside {T} o.
Arguments o_log {T} o.

(** C22. A [Once] is initialised once.  Any number of threads call it with
    initialisers of their own, some of which may fail, in any interleaving.  At
    most one initialiser runs at a time, and at most one ever succeeds; every
    call that returns a reference returns one to initialised memory, with the
    value of the initialiser that succeeded; and a call fails only with the error
    of its own initialiser. *)
Theorem Once_initialises_once {T E} (res : nat → Result T E) n ts' s' :
  reaches (once_caller res <$> seq 0 n, mkO Once_new 0 []) (ts', s') →
  o_inside s' ≤ 1 ∧ (length (o_log s') ≤ 1)%nat ∧
  ∀ i r, ts' !! i = Some (Ret r) →
    match r with
    | ok d => ∃ j v, o_log s' = [j] ∧ res j = ok v ∧ d = Some v
    | err e => res i = err e
    end.
Proof.
  intros Hr. destruct (pool_safe (once_inv res) (called res) _ _ _ _ (replicate n OIdle) Hr) as (ls & HI & Hlen & HQ).
  - split_and!; cbn; [rewrite zsum_replicate, bool_decide_false by done; cbn; lia|rewrite zsum_replicate; cbn; lia|done|].
    intros i j v Hl. apply lookup_replicate in Hl as [Hl _]. done.
  - by rewrite length_fmap, length_seq, length_replicate.
  - intros i p l Hp [-> _]%lookup_replicate. rewrite list_lookup_fmap in Hp.
    destruct (seq 0 n !! i) as [k|] eqn:Hk; [|done]. apply lookup_seq in Hk as [-> _]. injection Hp as <-. apply try_call_once_spec.
  - destruct HI as (Ho & Hi & Hs & Hsaw). split_and!.
    + rewrite Hi. apply Z.le_trans with (zsum n_owner ls); [apply zsum_le; intros []; cbn; lia|]. rewrite Ho. apply b2z_range.
    + destruct (status (o_once s')) eqn:Hst; [rewrite Hs; cbn; lia| | |done].
      * destruct (decide (Forall (λ l, n_owner l = 0) ls)) as [Hall|Hex].
        -- rewrite bool_decide_true in Ho by done. rewrite (zsum_zero _ _ Hall) in Ho. done.
        -- apply not_Forall_Exists in Hex; [|intros l; apply _]. apply Exists_exists in Hex as (l & [i Hl]%list_elem_of_lookup & Hn).
           specialize (Hs i l Hl). destruct l; cbn in Hn, Hs; try done; [rewrite Hs; cbn; lia..| |destruct Hs as [-> _]; cbn; lia].
           rewrite Hs. case_match; cbn; lia.
      * destruct Hs as (j & v & _ & _ & -> & _). cbn. lia.
    + intros i r Hi'. destruct (lookup_lt_is_Some_2 ls i) as [l Hl]; [rewrite <- Hlen; by eapply lookup_lt_Some|].
      specialize (HQ i r l Hi' Hl). destruct r as [d|e]; cbn in HQ; [|by destruct HQ].
      destruct HQ as (j & v & -> & ->). destruct (Hsaw i j v Hl) as (_ & _ & Hlog & Hres). by exists j, v.
Qed.

(** The first caller's initialiser fails; the second looks, and finds nothing;
    the third initialises; the second tries, and gets the value of the third. *)
Definition three_results (i : nat) : Result Z Z := match i with 0%nat => err 7 | 1%nat => ok 10 | _ => ok 20 end.
Lemma Once_initialises_once_witness :
  (∃ j v, [2%nat] = [j] ∧ three_results j = ok v ∧ Some 20 = Some v) ∧ three_results 0 = err 7.
Proof.
  destruct (Once_initialises_once three_results 3 [Ret (err 7); Ret (ok (Some 20)); Ret (ok (Some 20))]
    (mkO (mkOnce Complete (Some 20)) 0 [2%nat])) as (_ & _ & Hr).
  - apply (run_pool_reaches (replicate 15 (0, 0) ++ replicate 3 (1, 0) ++ replicate 19 (2, 0) ++ replicate 6 (1, 0))%nat). vm_compute. reflexivity.
  - split; [exact (Hr 1%nat (ok (Some 20)) eq_refl)|exact (Hr 0%nat (err 7) eq_refl)].
Defined.

(** A [Lazy] runs its initialiser when it is forced first, and not again. *)
Lemma Lazy_forced {T} (v : T) :
  let x : lens (Lazy T T) (Lazy T T) := Lens (λ l, l) (λ l _, l) in
  reaches ([Lazy_force x Ret ;% Lazy_deref x (λ _, Panic)], Lazy_new v) ([Ret (Some v)], mkLazy (mkOnce Complete (Some v)) None).
Proof. cbv zeta. apply (run_pool_reaches (replicate 26 (0, 0))%nat). vm_compute. reflexivity. Qed.
