(* ===== verification/Barrier.v ===== *)
(** * Barriers ([spin/src/barrier.rs])

    A barrier for [n] threads: nobody leaves before all have arrived, and one of
    them is told that it is the leader.  The barrier keeps its counters under a
    mutex, through the interface of [Mutex.v], so what is shown here holds over
    each of the crate's mutexes. *)

From S2P Require Import Prelude Conc Mutex FairLocks.

(** [spin/barrier.rs:51-54] BarrierState *)
Record BarrierState : Type := mkBarrierState { count : Z; generation_id : Z }.
Definition count_ : lens BarrierState Z := Lens count (λ c b, mkBarrierState c (generation_id b)).
Definition generation_ : lens BarrierState Z := Lens generation_id (λ g b, mkBarrierState (count b) g).
(** [spin/barrier.rs:45-48] Barrier *)
Record Barrier (LS : Type) : Type := mkBarrier { barrier_lock : mutex LS BarrierState; num_threads : Z }.
Arguments mkBarrier {LS} barrier_lock num_threads.
Arguments barrier_lock {LS} b.
Arguments num_threads {LS} b.
(** [spin/barrier.rs:150-158] Barrier::new *)
Definition Barrier_new {LS G} `{MutexImpl LS G} (n : Z) : Barrier LS := mkBarrier (mkMutex mx_new (mkBarrierState 0 0)) n.

(** The number of threads never changes; the mutex is shared. *)
Section wait.
Context {LS G St : Type} `{MutexImpl LS G} (lk : lens St LS) (st : lens St BarrierState) (num_threads : Z).
#[local] Notation count := (lens_comp st count_).
#[local] Notation generation_id := (lens_comp st generation_).
(** [spin/barrier.rs:118-118] Barrier::wait. The condition of the loop. *)
Definition Barrier_waiting (local_gen : Z) : prog St bool :=
  let% gen := a_load generation_id in
  if local_gen =? gen then let% c := a_load count in Ret (c <? num_threads) else Ret false.
(** [spin/barrier.rs:110-131] Barrier::wait *)
Definition Barrier_wait : prog St bool :=
  let% lock := mx_lock lk in
  let% c := a_load count in
  a_store count (c +u 1) ;%
  let% c := a_load count in
  if c <? num_threads then
    let% local_gen := a_load generation_id in
    let% lock := while_ (λ _, Barrier_waiting local_gen)
                   (λ lock, mx_unlock lk lock ;% relax ;% mx_lock lk) lock in
    mx_unlock lk lock ;% Ret false
  else
    a_store count 0 ;%
    let% gen := a_load generation_id in
    a_store generation_id (gen +u 1) ;%
    mx_unlock lk lock ;% Ret true.
End wait.

(** ** Threads that meet *)
Record bstate (LS : Type) : Type := mkB { b_arrived : Z; b_lock : mutex LS BarrierState }.
Arguments mkB {LS} b_arrived b_lock.
Arguments b_arrived {LS} b.
Arguments b_lock {LS} b.
Definition arrived_ {LS} : lens (bstate LS) Z := Lens b_arrived (λ a s, mkB a (b_lock s)).
Definition blk_ {LS} : lens (bstate LS) LS := Lens (λ s, lock_word (b_lock s)) (λ w s, mkB (b_arrived s) (mkMutex w (data (b_lock s)))).
Definition bst_ {LS} : lens (bstate LS) BarrierState := Lens (λ s, data (b_lock s)) (λ d s, mkB (b_arrived s) (mkMutex (lock_word (b_lock s)) d)).
#[export] Instance blk_ok {LS} : LensOk (@blk_ LS).
Proof. split; [done|done|by intros [? []]]. Qed.
(** Each thread does its work, here counted in [b_arrived], waits, and looks at
    the work of the others. *)
Definition barrier_thread {LS G} `{MutexImpl LS G} (n : Z) : prog (bstate LS) (bool * Z) :=
  a_rmw arrived_ (λ a, a + 1) ;%
  let% leader := Barrier_wait blk_ bst_ n in
  let% v := a_load arrived_ in
  Ret (leader, v).

Section meet.
Context {LS G L : Type} `{HM : MutexLaws LS G L} (n : Z) (Hn : 1 ≤ n < 2 ^ 62).
(** Where a thread is: working; waiting to enter; in; in as the last one, before
    and after it has reset the counter; or through, as the leader or not. *)
Inductive bphase : Type := BWork | BStart | BIn | BLead | BReset | BDone (leader : bool).
(** With what it knows of the counters, as it holds the lock. *)
Record bghost : Type := mkG { b_phase : bphase; b_know : option BarrierState }.
Definition n_work (p : bphase) : Z := match p with BWork => 0 | _ => 1 end.
Definition n_in (p : bphase) : Z := match p with BWork | BStart => 0 | _ => 1 end.
Definition n_lead (p : bphase) : Z := match p with BLead => 1 | _ => 0 end.
Definition n_reset (p : bphase) : Z := match p with BReset => 1 | _ => 0 end.
Definition n_done (b : bool) (p : bphase) : Z := match p with BDone b' => b2z (eqb b b') | _ => 0 end.
(** The counters and the numbers of threads in each place: those that are in;
    those in the middle of a change; and those that are through. *)
Definition tally (d : BarrierState) (A LD RS DT DF : Z) : Prop :=
  generation_id d = DT ∧
  (RS + DT = 0 ∧ count d = A ∨ RS + DT = 1 ∧ count d = 0) ∧
  (A < n ∧ LD + RS + DT = 0 ∨ A = n ∧ LD + RS + DT = 1) ∧
  (1 ≤ DF → DT = 1) ∧ 0 ≤ DT.
Definition psum (f : bphase → Z) (lcs : list (L * bghost)) : Z := zsum (λ lc, f (b_phase lc.2)) lcs.
Definition locked (l : L) : Prop := ∃ g, held g l.
Definition meet (s : bstate LS) (lcs : list (L * bghost)) : Prop :=
  len lcs = n ∧ b_arrived s = psum n_work lcs ∧
  tally (data (b_lock s)) (psum n_in lcs) (psum n_lead lcs) (psum n_reset lcs)
    (psum (n_done true) lcs) (psum (n_done false) lcs) ∧
  (∀ i l c, lcs !! i = Some (l, c) →
    match b_know c with
    | Some d => d = data (b_lock s) ∧ locked l
    | None => b_phase c ≠ BLead ∧ b_phase c ≠ BReset
    end).
Definition bmay (c : bghost) (l : L) : Prop := b_know c = None ∨ locked l.
#[local] Notation Inv := (framed_inv blk_ minv meet).

Lemma psum_insert f lcs i l c l' c' : lcs !! i = Some (l, c) →
  psum f (<[i := (l', c')]> lcs) = psum f lcs - f (b_phase c) + f (b_phase c').
Proof. intros Hl. unfold psum. by rewrite (zsum_insert _ _ _ _ _ Hl). Qed.
(** The only thread that can be in the middle of a change is the one that holds
    the lock. *)
Lemma psum_only f lcs i l c : (∀ p, f p = 0 ∨ p = BLead ∨ p = BReset) →
  lcs !! i = Some (l, c) → (∀ j lj cj, lcs !! j = Some (lj, cj) → locked lj → j = i) →
  (∀ j lj cj, lcs !! j = Some (lj, cj) → match b_know cj with Some _ => locked lj | None => b_phase cj ≠ BLead ∧ b_phase cj ≠ BReset end) →
  psum f lcs = f (b_phase c).
Proof.
  intros Hf Hl Hx Hk. assert (Hz : psum f (<[i := (l, mkG BWork None)]> lcs) = 0).
  { assert (Hall : Forall (λ lc, f (b_phase lc.2) = 0) (<[i := (l, mkG BWork None)]> lcs)).
    { apply Forall_lookup. intros j [lj cj] Hj. destruct (decide (i = j)) as [<-|Hne].
      - rewrite list_lookup_insert_eq in Hj by (by eapply lookup_lt_Some). injection Hj as <- <-. cbn. destruct (Hf BWork) as [|[]]; done.
      - rewrite list_lookup_insert_ne in Hj by done. specialize (Hk j lj cj Hj). cbn. destruct (b_know cj); [by destruct Hne; symmetry; eapply Hx|].
        destruct (Hf (b_phase cj)) as [|[]]; naive_solver. }
    by apply zsum_zero. }
  rewrite (psum_insert f lcs i l c _ _ Hl) in Hz. cbn in Hz. destruct (Hf BWork) as [HW|[]]; [|done..]. lia.
Qed.
Lemma meet_framed : framed blk_ meet bmay.
Proof.
  split; [done|]. intros s lcs i l l' c (Hlen & Ha & HT & Hk) Hl Hm. unfold meet, len in *.
  rewrite length_insert, !(psum_insert _ _ _ _ _ _ _ Hl), !Z.sub_add. split_and!; try done.
  - intros j lj cj Hj. destruct (decide (i = j)) as [<-|Hne].
    + rewrite list_lookup_insert_eq in Hj by (by eapply lookup_lt_Some). injection Hj as <- <-. specialize (Hk i l c Hl).
      destruct Hm as [Hm|Hm]; [by rewrite Hm in *|]. destruct (b_know c); [|done]. naive_solver.
    + rewrite list_lookup_insert_ne in Hj by done. by eapply Hk.
Qed.
(** What the thread that holds the lock sees. *)
Lemma meet_sees s lcs i l c : Inv s lcs → lcs !! i = Some (l, c) → locked l →
  psum n_lead lcs = n_lead (b_phase c) ∧ psum n_reset lcs = n_reset (b_phase c) ∧
  n_in (b_phase c) ≤ psum n_in lcs ≤ n + n_in (b_phase c) - 1 ∧ n_done true (b_phase c) ≤ psum (n_done true) lcs ∧
  (∀ j lj cj, lcs !! j = Some (lj, cj) → j ≠ i → b_know cj = None).
Proof.
  intros [HI (Hlen & Ha & HT & Hk)] Hl Hlk.
  assert (Hx : ∀ j lj cj, lcs !! j = Some (lj, cj) → locked lj → j = i).
  { intros j lj cj Hj [g' Hg']. destruct Hlk as [g Hg]. eapply law_excl; [exact HI|by eapply framed_ghost|by eapply framed_ghost|done|done]. }
  assert (Hk' : ∀ j lj cj, lcs !! j = Some (lj, cj) → match b_know cj with Some _ => locked lj | None => b_phase cj ≠ BLead ∧ b_phase cj ≠ BReset end).
  { intros j lj cj Hj. specialize (Hk j lj cj Hj). destruct (b_know cj); naive_solver. }
  assert (HB : n_in (b_phase c) ≤ psum n_in lcs ≤ n + n_in (b_phase c) - 1).
  { pose proof (zsum_ge (λ lc : L * bghost, n_in (b_phase lc.2)) lcs i (l, c) ltac:(intros [? [[] ?]]; cbn; lia) Hl) as Hge.
    pose proof (zsum_bound (λ lc : L * bghost, n_in (b_phase lc.2)) (<[i := (l, mkG BIn None)]> lcs) 1 ltac:(intros [? [[] ?]]; cbn; lia)) as Hb.
    unfold len in *. rewrite length_insert, (zsum_insert _ _ _ _ _ Hl) in Hb. cbn in Hb, Hge. unfold psum. lia. }
  split_and!; [eapply psum_only; [intros []; cbn; auto|done..]|eapply psum_only; [intros []; cbn; auto|done..]|apply HB|apply HB| |].
  - apply (zsum_ge (λ lc : L * bghost, n_done true (b_phase lc.2)) lcs i (l, c)); [|done]. intros [? [[| | | | |[]] ?]]; cbn; lia.
  - intros j lj cj Hj Hne. specialize (Hk' j lj cj Hj). destruct (b_know cj); [|done]. by destruct Hne; eapply Hx.
Qed.
Lemma meet_knows s lcs i l c d : Inv s lcs → lcs !! i = Some (l, c) → b_know c = Some d → d = data (b_lock s).
Proof. intros [_ (_ & _ & _ & Hk)] Hl Hd. specialize (Hk i l c Hl). rewrite Hd in Hk. by destruct Hk. Qed.
(** A step on the counters by that thread: [c'] is where it is then, and [d'] the
    new counters. *)
Lemma meet_step s d' lcs i l c c' : Inv s lcs → lcs !! i = Some (l, c) → locked l →
  n_work (b_phase c) = n_work (b_phase c') →
  (∀ A DT DF, tally (data (b_lock s)) A (n_lead (b_phase c)) (n_reset (b_phase c)) DT DF →
     n_in (b_phase c) ≤ A ≤ n + n_in (b_phase c) - 1 → n_done true (b_phase c) ≤ DT →
     tally d' (A - n_in (b_phase c) + n_in (b_phase c')) (n_lead (b_phase c')) (n_reset (b_phase c'))
       (DT - n_done true (b_phase c) + n_done true (b_phase c')) (DF - n_done false (b_phase c) + n_done false (b_phase c'))) →
  match b_know c' with Some d => d = d' | None => b_phase c' ≠ BLead ∧ b_phase c' ≠ BReset end →
  Inv (update bst_ d' s) (<[i := (l, c')]> lcs).
Proof.
  intros HI Hl Hlk Hw Hstep Hknow. destruct (meet_sees _ _ _ _ _ HI Hl Hlk) as (HLD & HRS & HA & HD & Hoth).
  destruct HI as [HI (Hlen & Ha & HT & Hk)].
  split; [by rewrite (fmap_insert_fst _ _ _ c)|]. unfold meet. cbn [update bst_ b_arrived b_lock data].
  rewrite !(psum_insert _ _ _ _ _ _ _ Hl), HLD, HRS, !Z.sub_diag, !Z.add_0_l. unfold len in *. rewrite length_insert.
  rewrite HLD, HRS in HT. split_and!; [done|lia|by apply Hstep|].
  intros j lj cj Hj. destruct (decide (i = j)) as [<-|Hne].
  - rewrite list_lookup_insert_eq in Hj by (by eapply lookup_lt_Some). injection Hj as <- <-. destruct (b_know c'); [by subst|done].
  - rewrite list_lookup_insert_ne in Hj by done. rewrite (Hoth j lj cj Hj (not_eq_sym Hne)). specialize (Hk j lj cj Hj).
    by rewrite (Hoth j lj cj Hj (not_eq_sym Hne)) in Hk.
Qed.
Lemma bst_same (s : bstate LS) : update bst_ (data (b_lock s)) s = s.
Proof. by destruct s as [? []]. Qed.
#[local] Ltac meet_lia := unfold tally in *; cbn in *; lia.

Lemma meet_open s lcs i l c : Inv s lcs → lcs !! i = Some (l, c) → locked l →
  ∃ A DT DF, tally (data (b_lock s)) A (n_lead (b_phase c)) (n_reset (b_phase c)) DT DF ∧
    n_in (b_phase c) ≤ A ≤ n + n_in (b_phase c) - 1 ∧ n_done true (b_phase c) ≤ DT.
Proof.
  intros HI Hl Hlk. destruct (meet_sees _ _ _ _ _ HI Hl Hlk) as (HLD & HRS & HA & HD & _).
  destruct HI as [_ (_ & _ & HT & _)]. rewrite HLD, HRS in HT. by eexists _, _, _.
Qed.
(** A step that only looks. *)
Lemma meet_look s lcs i l c c' : Inv s lcs → lcs !! i = Some (l, c) → locked l → b_phase c' = b_phase c →
  match b_know c' with Some d => d = data (b_lock s) | None => b_phase c' ≠ BLead ∧ b_phase c' ≠ BReset end →
  Inv s (<[i := (l, c')]> lcs).
Proof.
  intros HI Hl Hlk Hp Hk. rewrite <- (bst_same s) at 1. eapply meet_step; [done..|by rewrite Hp| |done].
  intros A DT DF HT _ _. by rewrite Hp, !Z.sub_add.
Qed.

(** ** The steps of [wait] *)
Section steps.
Context (i : nat) (l : L) (Hlk : locked l).
Lemma enter_load_spec : triple Inv i (l, mkG BStart None) (a_load (lens_comp bst_ count_))
  (λ v lc, ∃ d, v = count d ∧ lc = (l, mkG BStart (Some d))).
Proof.
  apply triple_atom. intros s lcs HI Hl. cbn. eexists. split; [|by eexists].
  eapply meet_look; [exact HI|exact Hl|done|done|done].
Qed.
Lemma known_load_spec {V} (f : lens BarrierState V) p d : triple Inv i (l, mkG p (Some d)) (a_load (lens_comp bst_ f))
  (λ v lc, v = view f d ∧ lc = (l, mkG p (Some d))).
Proof.
  apply triple_atom. intros s lcs HI Hl. exists (l, mkG p (Some d)). split; [by rewrite list_insert_id|].
  by rewrite (meet_knows _ _ _ _ _ _ HI Hl eq_refl).
Qed.
Lemma enter_store_spec d : triple Inv i (l, mkG BStart (Some d)) (a_store (lens_comp bst_ count_) (count d +u 1))
  (λ _ lc, 0 ≤ count d ∧ count d + 1 ≤ n ∧ generation_id d = 0 ∧
    lc = (l, mkG (if count d + 1 =? n then BLead else BIn) (Some (mkBarrierState (count d + 1) 0)))).
Proof.
  apply triple_atom. intros s lcs HI Hl. pose proof (meet_knows _ _ _ _ _ _ HI Hl eq_refl) as Hd.
  destruct (meet_open _ _ _ _ _ HI Hl Hlk) as (A & DT & DF & HT & HA & HD). rewrite <- Hd in HT.
  cbn [b_phase n_lead n_reset n_in n_done] in *. unfold tally in HT.
  assert (Hf : 0 ≤ count d ∧ count d + 1 ≤ n ∧ generation_id d = 0) by lia.
  eexists. split; [|split_and!; try apply Hf; done].
  change (Inv (update bst_ (mkBarrierState (count d +u 1) (generation_id (data (b_lock s)))) s)
    (<[i := (l, mkG (if count d + 1 =? n then BLead else BIn) (Some (mkBarrierState (count d + 1) 0)))]> lcs)).
  rewrite uadd_small by lia. rewrite <- Hd. destruct Hf as (Hf1 & Hf2 & ->). eapply meet_step; [done..| | |done].
  - cbn. by case_match.
  - rewrite <- Hd. clear -Hf1 Hf2 Hn. intros A DT DF HT HA HD. unfold tally in *. cbn [b_phase n_lead n_reset n_in n_done count generation_id] in *.
    destruct (count d + 1 =? n) eqn:He; cbn; lia.
Qed.
(** A thread that is in leaves when the generation has changed... *)
Lemma wait_generation_spec k : triple Inv i (l, mkG BIn k) (a_load (lens_comp bst_ generation_))
  (λ v lc, v = 0 ∧ (∃ d, generation_id d = 0 ∧ lc = (l, mkG BIn (Some d))) ∨ v ≠ 0 ∧ lc = (l, mkG (BDone false) None)).
Proof.
  apply triple_atom. intros s lcs HI Hl. cbn. destruct (decide (generation_id (data (b_lock s)) = 0)) as [Hg|Hg].
  - eexists. split; [|left; split; [done|]; by exists (data (b_lock s))]. eapply meet_look; [exact HI|exact Hl|done|done|done].
  - eexists. split; [|right; by split]. rewrite <- (bst_same s) at 1. eapply meet_step; [exact HI|exact Hl|done|done| |done].
    clear -Hg. intros A DT DF HT HA HD. unfold tally in *. cbn in *. lia.
Qed.
(** ... and only then: the counter has not reached its end. *)
Lemma wait_count_spec d : generation_id d = 0 →
  triple Inv i (l, mkG BIn (Some d)) (a_load (lens_comp bst_ count_)) (λ v lc, v < n ∧ lc = (l, mkG BIn None)).
Proof.
  intros Hg. apply triple_atom. intros s lcs HI Hl. exists (l, mkG BIn None). split.
  - eapply meet_look; [exact HI|exact Hl|done|done|done].
  - split; [|done]. pose proof (meet_knows _ _ _ _ _ _ HI Hl eq_refl) as Hd. cbn. rewrite <- Hd.
    destruct (meet_open _ _ _ _ _ HI Hl Hlk) as (A & DT & DF & HT & HA & HD). rewrite <- Hd in HT.
    unfold tally in HT. cbn in *. lia.
Qed.
Lemma Barrier_waiting_spec k : triple Inv i (l, mkG BIn k) (Barrier_waiting bst_ n 0)
  (λ go lc, lc = (l, if go then mkG BIn None else mkG (BDone false) None)).
Proof.
  eapply triple_bind; [apply wait_generation_spec|]. intros v lc [[-> (d & Hd & ->)]|[Hv ->]].
  - cbn. eapply triple_bind; [by apply wait_count_spec|]. intros c lc [Hc ->]. apply triple_ret. by rewrite (proj2 (Z.ltb_lt c n)).
  - rewrite (proj2 (Z.eqb_neq 0 v)) by done. by apply triple_ret.
Qed.
Lemma reset_count_spec d : triple Inv i (l, mkG BLead (Some d)) (a_store (lens_comp bst_ count_) 0)
  (λ _ lc, lc = (l, mkG BReset (Some (mkBarrierState 0 (generation_id d))))).
Proof.
  apply triple_atom. intros s lcs HI Hl. pose proof (meet_knows _ _ _ _ _ _ HI Hl eq_refl) as Hd. eexists. split; [|done].
  change (Inv (update bst_ (mkBarrierState 0 (generation_id (data (b_lock s)))) s)
    (<[i := (l, mkG BReset (Some (mkBarrierState 0 (generation_id d))))]> lcs)). rewrite <- Hd.
  eapply meet_step; [exact HI|exact Hl|done|done| |done]. rewrite <- Hd. clear.
  intros A DT DF HT HA HD. unfold tally in *. cbn in *. lia.
Qed.
Lemma next_generation_spec d : generation_id d = 0 →
  triple Inv i (l, mkG BReset (Some d)) (a_store (lens_comp bst_ generation_) 1) (λ _ lc, lc = (l, mkG (BDone true) None)).
Proof.
  intros Hg. apply triple_atom. intros s lcs HI Hl. pose proof (meet_knows _ _ _ _ _ _ HI Hl eq_refl) as Hd. eexists. split; [|done].
  change (Inv (update bst_ (mkBarrierState (count (data (b_lock s))) 1) s) (<[i := (l, mkG (BDone true) None)]> lcs)). rewrite <- Hd.
  eapply meet_step; [exact HI|exact Hl|done|done| |done]. rewrite <- Hd. clear -Hg.
  intros A DT DF HT HA HD. unfold tally in *. cbn in *. lia.
Qed.
End steps.

Lemma block_spec i p : triple Inv i (idle, mkG p None) (mx_lock blk_) (λ g lc, ∃ l, held g l ∧ lc = (l, mkG p None)).
Proof. apply (law_lock blk_ meet bmay); [apply _|apply meet_framed|by left]. Qed.
Lemma bunlock_spec i g l p : held g l → triple Inv i (l, mkG p None) (mx_unlock blk_ g) (λ _ lc, lc = (idle, mkG p None)).
Proof. intros Hg. by apply (law_unlock blk_ meet bmay); [apply _|apply meet_framed|left|]. Qed.
Lemma Barrier_wait_spec i : triple Inv i (idle, mkG BStart None) (Barrier_wait blk_ bst_ n) (λ b lc, lc = (idle, mkG (BDone b) None)).
Proof.
  eapply triple_bind; [apply block_spec|]. intros g lc (l & Hg & ->). assert (Hlk : locked l) by (by exists g).
  eapply triple_bind; [by apply enter_load_spec|]. intros c lc (d & -> & ->).
  eapply triple_bind; [by apply enter_store_spec|]. intros _ lc (H0 & H1 & Hgen & ->).
  eapply triple_bind; [by apply known_load_spec|]. intros c lc [-> ->]. cbn [view count_ count].
  destruct (count d + 1 =? n) eqn:He.
  - rewrite (proj2 (Z.ltb_ge _ _)) by lia.
    eapply triple_bind; [by apply reset_count_spec|]. intros _ lc ->.
    eapply triple_bind; [by apply known_load_spec|]. intros gen lc [-> ->]. change (view generation_ _) with 0. change (0 +u 1) with 1.
    eapply triple_bind; [by apply next_generation_spec|]. intros _ lc ->.
    eapply triple_bind; [by apply bunlock_spec|]. intros _ lc ->. by apply triple_ret.
  - rewrite (proj2 (Z.ltb_lt _ _)) by lia.
    eapply triple_bind; [by apply known_load_spec|]. intros gen lc [-> ->]. change (view generation_ _) with 0.
    eapply triple_bind with (Q1 := λ g lc, ∃ l, held g l ∧ lc = (l, mkG (BDone false) None)).
    + apply triple_while with (P := λ g lc, ∃ l k, held g l ∧ lc = (l, mkG BIn k)) (P' := λ g lc, ∃ l, held g l ∧ lc = (l, mkG BIn None)); [| |by eexists _, _].
      * intros g' lc (l' & k & Hg' & ->). eapply triple_conseq; [apply Barrier_waiting_spec; by exists g'|].
        intros [] lc ->; by exists l'.
      * intros g' lc (l' & Hg' & ->). eapply triple_bind; [by apply bunlock_spec|]. intros _ lc ->.
        eapply triple_bind; [by apply triple_ret with (Q := λ _ lc, lc = (idle, mkG BIn None))|]. intros _ lc ->.
        eapply triple_conseq; [apply block_spec|]. intros g'' lc (l'' & Hg'' & ->). by eexists _, _.
    + intros g' lc (l' & Hg' & ->). eapply triple_bind; [by apply bunlock_spec|]. intros _ lc ->. by apply triple_ret.
Qed.
(** The work before the barrier, and the look at the work of the others after it. *)
Lemma work_spec i l : triple Inv i (l, mkG BWork None) (a_rmw arrived_ (λ a, a + 1)) (λ _ lc, lc = (l, mkG BStart None)).
Proof.
  apply triple_atom. intros s lcs [HI (Hlen & Ha & HT & Hk)] Hl. exists (l, mkG BStart None). split; [|done].
  split; [by rewrite (fmap_insert_fst _ _ _ (mkG BWork None))|]. unfold meet. cbn [snd update view arrived_ b_arrived b_lock].
  rewrite !(psum_insert _ _ _ _ _ _ _ Hl). cbn [b_phase n_work n_in n_lead n_reset n_done]. rewrite !Z.sub_0_r, !Z.add_0_r.
  unfold len in *. rewrite length_insert. split_and!; [done|lia|done|].
  intros j lj cj Hj. destruct (decide (i = j)) as [<-|Hne].
  - rewrite list_lookup_insert_eq in Hj by (by eapply lookup_lt_Some). injection Hj as <- <-. done.
  - rewrite list_lookup_insert_ne in Hj by done. by eapply Hk.
Qed.
Lemma look_spec i l b : triple Inv i (l, mkG (BDone b) None) (a_load arrived_) (λ v lc, v = n ∧ lc = (l, mkG (BDone b) None)).
Proof.
  apply triple_atom. intros s lcs HI Hl. eexists. split; [by rewrite list_insert_id|]. split; [|done]. cbn.
  destruct HI as [HI (Hlen & -> & HT & Hk)].
  pose proof (zsum_ge (λ lc : L * bghost, n_done b (b_phase lc.2)) lcs i _ ltac:(intros [? [[| | | | |[]] ?]]; destruct b; cbn; lia) Hl) as Hge.
  pose proof (zsum_bound (λ lc : L * bghost, n_work (b_phase lc.2)) lcs 1 ltac:(intros [? [[] ?]]; cbn; lia)) as Hb.
  pose proof (zsum_le (λ lc : L * bghost, n_in (b_phase lc.2)) (λ lc : L * bghost, n_work (b_phase lc.2)) lcs ltac:(intros [? [[] ?]]; cbn; lia)) as Hle.
  pose proof (zsum_bound (λ lc : L * bghost, n_lead (b_phase lc.2)) lcs 1 ltac:(intros [? [[] ?]]; cbn; lia)) as HL.
  pose proof (zsum_bound (λ lc : L * bghost, n_reset (b_phase lc.2)) lcs 1 ltac:(intros [? [[] ?]]; cbn; lia)) as HR.
  unfold tally, psum in *. destruct b; cbn in *; lia.
Qed.
End meet.

(** C27. A barrier holds its threads until all have arrived.  [n] threads meet at a
    barrier over any mutex that keeps its interface, in any interleaving of their
    atomic steps: whoever gets through finds that all [n] have arrived; at most
    one is told that it is the leader, and exactly one when all are through. *)
Theorem Barrier_meets {LS G L} `{HM : MutexLaws LS G L} (n : nat) ts' s' :
  1 ≤ Z.of_nat n < 2 ^ 62 →
  reaches (replicate n (barrier_thread (Z.of_nat n)), mkB 0 (barrier_lock (Barrier_new (Z.of_nat n)))) (ts', s') →
  (∀ i b v, ts' !! i = Some (Ret (b, v)) → v = Z.of_nat n) ∧
  (∀ i j v w, ts' !! i = Some (Ret (true, v)) → ts' !! j = Some (Ret (true, w)) → i = j) ∧
  (Forall (λ p, ∃ r, p = Ret r) ts' → ∃ i, ts' !! i = Some (Ret (true, Z.of_nat n))).
Proof.
  intros Hn Hr. set (c0 := mkG BWork None).
  destruct (pool_safe (framed_inv blk_ minv (meet (held := held) (Z.of_nat n))) (λ _ r lc, r.2 = Z.of_nat n ∧ lc = (idle, mkG (BDone r.1) None))
    _ _ _ _ (replicate n (idle, c0)) Hr) as (lcs & [_ (Hlen & _ & HT & _)] & Hlt & HQ).
  - split; [cbn; rewrite fmap_replicate; apply law_new; lia|]. unfold meet, psum. unfold len. rewrite length_replicate, !zsum_replicate.
    cbn [snd b_phase c0 n_work n_in n_lead n_reset n_done]. rewrite !Z.mul_0_r. split_and!; [done|done|unfold tally; cbn; lia|].
    intros i l c [[= -> ->] _]%lookup_replicate. done.
  - by rewrite !length_replicate.
  - intros i p l [-> _]%lookup_replicate [-> _]%lookup_replicate.
    eapply triple_bind; [by apply work_spec|]. intros _ lc ->. eapply triple_bind; [by apply Barrier_wait_spec|]. intros b lc ->.
    eapply triple_bind; [by apply look_spec|]. intros v lc [-> ->]. by apply triple_ret.
  - assert (Hget : ∀ i r, ts' !! i = Some (Ret r) → r.2 = Z.of_nat n ∧ lcs !! i = Some (idle, mkG (BDone r.1) None)).
    { intros i r Hi. destruct (lookup_lt_is_Some_2 lcs i) as [lc Hlc]; [rewrite <- Hlt; by eapply lookup_lt_Some|].
      destruct (HQ i r lc Hi Hlc) as [? ->]. done. }
    assert (Hnn : ∀ lc : L * bghost, 0 ≤ n_done true (b_phase lc.2)) by (intros [? [[| | | | |[]] ?]]; cbn; lia).
    split_and!.
    + intros i b v Hi. by destruct (Hget i _ Hi).
    + intros i j v w Hi Hj. destruct (decide (i = j)) as [|Hne]; [done|]. destruct (Hget i _ Hi) as [_ Hi']. destruct (Hget j _ Hj) as [_ Hj'].
      pose proof (zsum_two (λ lc, n_done true (b_phase lc.2)) lcs i j _ _ Hnn Hi' Hj' Hne) as H2. cbn in H2.
      pose proof (zsum_bound (λ lc : L * bghost, n_lead (b_phase lc.2)) lcs 1 ltac:(intros [? [[] ?]]; cbn; lia)).
      pose proof (zsum_bound (λ lc : L * bghost, n_reset (b_phase lc.2)) lcs 1 ltac:(intros [? [[] ?]]; cbn; lia)).
      unfold tally, psum in HT. lia.
    + intros Hall. rewrite Forall_lookup in Hall.
      assert (Hdone : ∀ i lc, lcs !! i = Some lc → ∃ r, ts' !! i = Some (Ret r) ∧ r.2 = Z.of_nat n ∧ lc = (idle, mkG (BDone r.1) None)).
      { intros i lc Hlc. destruct (lookup_lt_is_Some_2 ts' i) as [p Hp]; [rewrite Hlt; by eapply lookup_lt_Some|].
        destruct (Hall i p Hp) as [r ->]. destruct (HQ i r lc Hp Hlc). by exists r. }
      assert (Hz : ∀ f, (∀ b, f (BDone b) = 0) → psum f lcs = 0).
      { intros f Hf. apply zsum_zero, Forall_lookup. intros i lc Hlc. destruct (Hdone i lc Hlc) as (r & _ & _ & ->). apply Hf. }
      destruct (decide (Forall (λ lc : L * bghost, n_done true (b_phase lc.2) = 0) lcs)) as [Hno|Hex].
      * exfalso. assert (HA : psum n_in lcs = Z.of_nat n); [|pose proof (zsum_zero _ _ Hno); unfold tally in HT; rewrite (Hz n_lead), (Hz n_reset) in HT by done; unfold psum in *; lia].
        rewrite <- Hlen. enough (psum (λ p, 1 - n_in p) lcs = len lcs - psum n_in lcs) as Hs; [rewrite Hz in Hs by done; lia|].
        clear. unfold psum, len. induction lcs as [|lc lcs IH]; [done|]. cbn [length zsum foldr]. unfold zsum in *. lia.
      * apply not_Forall_Exists in Hex; [|intros lc; apply _]. apply Exists_exists in Hex as (lc & [i Hlc]%list_elem_of_lookup & Hne).
        destruct (Hdone i lc Hlc) as ([b v] & Hi & Hv & ->). cbn in *. exists i. destruct b; [by subst v|done].
Qed.
(** The first of two threads waits, the second comes and leads, and the first
    gets through. *)
Lemma Barrier_meets_witness :
  2 = Z.of_nat 2 ∧ ∃ i, [Ret (St := bstate bool) (false, 2); Ret (true, 2)] !! i = Some (Ret (true, 2)).
Proof.
  destruct (Barrier_meets (LS := bool) 2 [Ret (false, 2); Ret (true, 2)]
    (mkB 2 (mkMutex false (mkBarrierState 0 1)))) as (Hv & _ & Hl).
  - lia.
  - apply (run_pool_reaches (replicate 24 (0, 0) ++ replicate 26 (1, 0) ++ replicate 21 (0, 0))%nat). vm_compute. reflexivity.
  - split; [exact (Hv 0%nat false 2 eq_refl)|]. apply Hl. repeat constructor; by eexists.
Defined.
