(* ===== verification/AsyncTask.v ===== *)
(** * Tasks ([async-task/src/header.rs], [raw.rs], [task.rs], [runnable.rs])

    The kernel runs every user thread as a task of [async-task].  A task is a
    block of memory with a state word, the waker of whoever awaits the task, and
    the future or its output; it is shared by a [Runnable], a [Task] and any
    number of wakers.  The operations on these handles are programs of [Conc.v]
    over the memory of one task.

    A mistake in using the memory does not stop a program: it is recorded in
    [t_bad].  Mistakes are: touching the memory after it is freed; polling or
    dropping a future that is not there or that is being polled; reading an
    output that is not there; two accesses to the awaiter at the same time.
    [AsyncTaskSafe.v] shows that there are none. *)

From S2P Require Import Prelude Conc.

(** ** The state word *)
(** [async-task/state.rs:7-7] SCHEDULED *)
Definition SCHEDULED : Z := Z.shiftl 1 0.
(** [async-task/state.rs:15-15] RUNNING *)
Definition RUNNING : Z := Z.shiftl 1 1.
(** [async-task/state.rs:24-24] COMPLETED *)
Definition COMPLETED : Z := Z.shiftl 1 2.
(** [async-task/state.rs:35-35] CLOSED *)
Definition CLOSED : Z := Z.shiftl 1 3.
(** [async-task/state.rs:41-41] TASK *)
Definition TASK : Z := Z.shiftl 1 4.
(** [async-task/state.rs:48-48] AWAITER *)
Definition AWAITER : Z := Z.shiftl 1 5.
(** [async-task/state.rs:53-53] REGISTERING *)
Definition REGISTERING : Z := Z.shiftl 1 6.
(** [async-task/state.rs:59-59] NOTIFYING *)
Definition NOTIFYING : Z := Z.shiftl 1 7.
(** [async-task/state.rs:69-69] REFERENCE *)
Definition REFERENCE : Z := Z.shiftl 1 8.
Definition isize_MAX : Z := 2 ^ 63 - 1.

(** ** Layout *)
(** A size and an alignment, which is a power of two. *)
Record Layout : Type := mkLayout { l_size : Z; l_align : Z }.
(** [async-task/utils.rs:60-64] padding_needed_for *)
Definition padding_needed_for (layout : Layout) (align : Z) : Z :=
  let len := l_size layout in
  let len_rounded_up := Z.land (len +u align -u 1) (Z.lnot (align -u 1)) in
  len_rounded_up -u len.
(** [async-task/utils.rs:44-53] extend *)
Definition extend (a b : Layout) : outcome (Layout * Z) :=
  let new_align := Z.max (l_align a) (l_align b) in
  let pad := padding_needed_for a (l_align b) in
  if usize_MAX <? l_size a + pad then Fault Unwrap
  else
    let offset := l_size a + pad in
    if usize_MAX <? offset + l_size b then Fault Unwrap
    else
      let new_size := offset + l_size b in
      (* [Layout::from_size_align] *)
      if isize_MAX - (new_align - 1) <? new_size then Fault Unwrap
      else Ok (mkLayout new_size new_align, offset).
(** [async-task/raw.rs:46-58] TaskLayout *)
Record TaskLayout : Type := mkTaskLayout { layout : Layout; offset_s : Z; offset_f : Z; offset_r : Z }.
(** [async-task/raw.rs:154-179] RawTask::task_layout *)
Definition task_layout (layout_header layout_s layout_f layout_r : Layout) : outcome TaskLayout :=
  let size_union := Z.max (l_size layout_f) (l_size layout_r) in
  let align_union := Z.max (l_align layout_f) (l_align layout_r) in
  let layout_union := mkLayout size_union align_union in
  let layout := layout_header in
  let! '(layout, offset_s) := extend layout layout_s in
  let! '(layout, offset_union) := extend layout layout_union in
  let offset_f := offset_union in
  let offset_r := offset_union in
  Ok (mkTaskLayout layout offset_s offset_f offset_r).

(** ** The memory of a task *)
(** The future and the output share their place.  [SPolling] is a future that is
    being polled. *)
Inductive slot (T : Type) : Type := SFuture | SPolling | SOutput (out : T) | SEmpty.
Arguments SFuture {T}.
Arguments SPolling {T}.
Arguments SOutput {T} out.
Arguments SEmpty {T}.
(** [async-task/raw.rs:61-73] RawTask. With the header of [header.rs]: the state
    word and the awaiter, and how many threads are accessing the awaiter.  The
    handles that are not in the hands of a thread: the runnables in the queue of
    the executor, wakers, and the [Task]; and the awaiters that were woken. *)
Record task (T : Type) : Type := mkTask {
  t_state : Z;
  t_awaiter : option nat;
  t_busy : Z;
  t_slot : slot T;
  t_freed : bool;
  t_bad : bool;
  b_run : Z;
  b_wak : Z;
  b_task : bool;
  t_woken : list nat;
}.
Arguments mkTask {T}.
Arguments t_state {T} t.
Arguments t_awaiter {T} t.
Arguments t_busy {T} t.
Arguments t_slot {T} t.
Arguments t_freed {T} t.
Arguments t_bad {T} t.
Arguments b_run {T} t.
Arguments b_wak {T} t.
Arguments b_task {T} t.
Arguments t_woken {T} t.

(** What polling the future gives; a panic is caught by the guard of [run]. *)
Inductive Poll (A : Type) : Type := Ready (a : A) | Pending.
Arguments Ready {A} a.
Arguments Pending {A}.

Section memory.
Context {T : Type}.
#[local] Notation P := (prog (task T)).
Definition set_state (w : Z) (t : task T) : task T :=
  mkTask w (t_awaiter t) (t_busy t) (t_slot t) (t_freed t) (t_bad t) (b_run t) (b_wak t) (b_task t) (t_woken t).
Definition set_slot (x : slot T) (t : task T) : task T :=
  mkTask (t_state t) (t_awaiter t) (t_busy t) x (t_freed t) (t_bad t) (b_run t) (b_wak t) (b_task t) (t_woken t).
Definition set_awaiter (o : option nat) (n : Z) (t : task T) : task T :=
  mkTask (t_state t) o n (t_slot t) (t_freed t) (t_bad t) (b_run t) (b_wak t) (b_task t) (t_woken t).
Definition set_freed (t : task T) : task T :=
  mkTask (t_state t) (t_awaiter t) (t_busy t) (t_slot t) true (t_bad t) (b_run t) (b_wak t) (b_task t) (t_woken t).
Definition set_bag (r w : Z) (h : bool) (t : task T) : task T :=
  mkTask (t_state t) (t_awaiter t) (t_busy t) (t_slot t) (t_freed t) (t_bad t) r w h (t_woken t).
(** A mistake, unless [ok]. *)
Definition expect (ok : bool) (t : task T) : task T :=
  mkTask (t_state t) (t_awaiter t) (t_busy t) (t_slot t) (t_freed t) (t_bad t || negb ok) (b_run t) (b_wak t) (b_task t) (t_woken t).

(** Atomic operations on the state word. *)
Definition word {R} (f : Z → list (R * Z)) : P R :=
  Step (λ t, (λ rw, (rw.1, expect (negb (t_freed t)) (set_state rw.2 t))) <$> f (t_state t)).
Definition w_load : P Z := word (λ w, [(w, w)]).
Definition w_store (v : Z) : P unit := word (λ _, [(tt, v)]).
Definition w_fetch (f : Z → Z) : P Z := word (λ w, [(w, f w)]).
Definition w_cas (old new : Z) : P (Result Z Z) :=
  word (λ w, if decide (w = old) then [(ok old, new)] else [(err w, w)]).
Definition w_cas_weak (old new : Z) : P (Result Z Z) :=
  word (λ w, if decide (w = old) then [(ok old, new); (err old, old)] else [(err w, w)]).

(** An access to the awaiter takes two steps: it begins, and takes effect. *)
Definition awaiter_replace (new : option nat → option nat) : P (option nat) :=
  atom (λ t, (tt, expect (negb (t_freed t) && (t_busy t =? 0)) (set_awaiter (t_awaiter t) (t_busy t + 1) t))) ;%
  atom (λ t, (t_awaiter t, expect (negb (t_freed t)) (set_awaiter (new (t_awaiter t)) (t_busy t - 1) t))).
Definition awaiter_take : P (option nat) := awaiter_replace (λ _, None).
(** The awaiter belongs to another task, or to no task: waking it does not touch
    this one. *)
Definition awaiter_wake (w : nat) : P unit :=
  atom (λ t, (tt, mkTask (t_state t) (t_awaiter t) (t_busy t) (t_slot t) (t_freed t) (t_bad t) (b_run t) (b_wak t) (b_task t) (t_woken t ++ [w]))).
Definition wake_opt (o : option nat) : P unit := match o with Some w => awaiter_wake w | None => Ret tt end.

(** The place of the future and the output. *)
Definition in_place {R} (f : slot T → option (R * slot T)) (default : R) : P R :=
  atom (λ t, match f (t_slot t) with
             | Some (r, x) => (r, expect (negb (t_freed t)) (set_slot x t))
             | None => (default, expect false t)
             end).
Definition poll_begin : P unit := in_place (λ x, match x with SFuture => Some (tt, SPolling) | _ => None end) tt.
Definition poll_end : P unit := in_place (λ x, match x with SPolling => Some (tt, SFuture) | _ => None end) tt.
Definition output_write (out : T) : P unit := in_place (λ x, match x with SEmpty => Some (tt, SOutput out) | _ => None end) tt.
Definition output_read : P (option T) := in_place (λ x, match x with SOutput v => Some (Some v, SEmpty) | _ => None end) None.
Definition touch : P unit := atom (λ t, (tt, expect (negb (t_freed t)) t)).

(** ** The header *)
(** [async-task/header.rs:46-70] Header::take *)
Definition Header_take (current : option nat) : P (option nat) :=
  let% state := w_fetch (λ w, Z.lor w NOTIFYING) in
  if Z.land state (Z.lor NOTIFYING REGISTERING) =? 0 then
    let% waker := awaiter_take in
    w_fetch (λ w, Z.land w (Z.land (Z.lnot NOTIFYING) (Z.lnot AWAITER))) ;%
    match waker with
    | Some w =>
        match current with
        | None => Ret (Some w)
        | Some c => if negb (w =? c)%nat then Ret (Some w) else Ret None
        end
    | None => Ret None
    end
  else Ret None.
(** [async-task/header.rs:36-40] Header::notify *)
Definition Header_notify (current : option nat) : P unit :=
  let% w := Header_take current in
  wake_opt w.
(** [async-task/header.rs:80-107] Header::register. Marks the state; gives up
    when a notification is under way. *)
Definition Header_register_mark (waker : nat) : P (option Z) :=
  let% state := w_fetch (λ w, Z.lor w 0) in
  Loop (λ state,
    if negb (Z.land state NOTIFYING =? 0) then
      awaiter_wake waker ;% Ret (inr None)
    else
      let% r := w_cas_weak state (Z.lor state REGISTERING) in
      match r with
      | ok _ => Ret (inr (Some (Z.lor state REGISTERING)))
      | err s => Ret (inl s)
      end) state.
(** [async-task/header.rs:118-140] Header::register. The loop that ends the
    registration. *)
Definition Header_register_done (state : Z) : P (option nat) :=
  Loop (λ '(state, waker),
    let% waker := (if negb (Z.land state NOTIFYING =? 0) then
                     let% o := awaiter_take in
                     Ret (match o with Some w => Some w | None => waker end)
                   else Ret waker) in
    let new :=
      match waker with
      | None => Z.lor (Z.land (Z.land state (Z.lnot NOTIFYING)) (Z.lnot REGISTERING)) AWAITER
      | Some _ => Z.land (Z.land (Z.land state (Z.lnot NOTIFYING)) (Z.lnot REGISTERING)) (Z.lnot AWAITER)
      end in
    let% r := w_cas_weak state new in
    match r with
    | ok _ => Ret (inr waker)
    | err s => Ret (inl (s, waker))
    end) (state, None).
(** [async-task/header.rs:76-145] Header::register *)
Definition Header_register (waker : nat) : P unit :=
  let% marked := Header_register_mark waker in
  match marked with
  | None => Ret tt
  | Some state =>
      awaiter_replace (λ _, Some waker) ;%
      let% waker := Header_register_done state in
      wake_opt waker
  end.
End memory.

(** ** The raw task *)
Section raw.
(** [size_S] is the size of the schedule function: when it is not zero, the
    function has captured variables, which are part of the task's memory. *)
Context {T : Type} (size_S : Z).
#[local] Notation P := (prog (task T)).

(** [async-task/raw.rs:98-134] RawTask::allocate. The new [Runnable] and [Task]
    are not in anyone's hands yet. *)
Definition RawTask_allocate : task T :=
  mkTask (Z.lor (Z.lor SCHEDULED TASK) REFERENCE) None 0 SFuture false false 1 0 true [].

(** The schedule function, which puts the runnable into the executor's queue; its
    captured variables are used until it returns. *)
Definition call_schedule : P unit :=
  (if 0 <? size_S then touch else Ret tt) ;%
  atom (λ t, (tt, set_bag (b_run t + 1) (b_wak t) (b_task t) t)) ;%
  (if 0 <? size_S then touch else Ret tt).

(** [async-task/raw.rs:313-326] RawTask::clone_waker *)
Definition RawTask_clone_waker : P unit :=
  let% state := w_fetch (λ w, w +u REFERENCE) in
  if isize_MAX <? state then Panic else Ret tt.
(** [async-task/raw.rs:397-404] RawTask::drop_future *)
Definition RawTask_drop_future : P unit :=
  in_place (λ x, match x with SFuture => Some (tt, SEmpty) | _ => None end) tt.
(** [async-task/raw.rs:407-410] RawTask::get_output. The output is read through
    the pointer at once, everywhere. *)
Definition RawTask_get_output : P (option T) := output_read.
(** [async-task/raw.rs:417-429] RawTask::destroy. Freeing the memory twice is a
    mistake, and so is freeing it with an output in it or while the future is
    being polled. *)
Definition RawTask_destroy : P unit :=
  (if 0 <? size_S then touch else Ret tt) ;%
  atom (λ t, (tt, expect (negb (t_freed t) && match t_slot t with SFuture | SEmpty => true | _ => false end) (set_freed t))).
(** [async-task/raw.rs:334-355] RawTask::drop_waker. [schedule] ends with another
    [drop_waker] when the schedule function has captured variables: that call is
    the next round of the loop. *)
Definition RawTask_drop_waker : P unit :=
  Loop (λ _,
    let% old := w_fetch (λ w, w -u REFERENCE) in
    let new := old -u REFERENCE in
    if (Z.land new (Z.lnot (REFERENCE - 1)) =? 0) && (Z.land new TASK =? 0) then
      if Z.land new (Z.lor COMPLETED CLOSED) =? 0 then
        w_store (Z.lor (Z.lor SCHEDULED CLOSED) REFERENCE) ;%
        if 0 <? size_S then RawTask_clone_waker ;% call_schedule ;% Ret (inl tt)
        else call_schedule ;% Ret (inr tt)
      else RawTask_destroy ;% Ret (inr tt)
    else Ret (inr tt)) tt.
(** [async-task/raw.rs:379-393] RawTask::schedule *)
Definition RawTask_schedule : P unit :=
  if 0 <? size_S then RawTask_clone_waker ;% call_schedule ;% RawTask_drop_waker
  else call_schedule.
(** [async-task/raw.rs:362-373] RawTask::drop_ref *)
Definition RawTask_drop_ref : P unit :=
  let% old := w_fetch (λ w, w -u REFERENCE) in
  let new := old -u REFERENCE in
  if (Z.land new (Z.lnot (REFERENCE - 1)) =? 0) && (Z.land new TASK =? 0) then RawTask_destroy else Ret tt.
(** [async-task/raw.rs:248-310] RawTask::wake_by_ref *)
Definition RawTask_wake_by_ref : P unit :=
  let% state := w_load in
  Loop (λ state,
    if negb (Z.land state (Z.lor COMPLETED CLOSED) =? 0) then Ret (inr tt)
    else if negb (Z.land state SCHEDULED =? 0) then
      let% r := w_cas_weak state state in
      Ret (match r with ok _ => inr tt | err s => inl s end)
    else
      let new := if Z.land state RUNNING =? 0 then Z.lor state SCHEDULED +u REFERENCE else Z.lor state SCHEDULED in
      let% r := w_cas_weak state new in
      match r with
      | ok _ =>
          if Z.land state RUNNING =? 0 then
            if isize_MAX <? state then Panic else call_schedule ;% Ret (inr tt)
          else Ret (inr tt)
      | err s => Ret (inl s)
      end) state.
(** [async-task/raw.rs:182-245] RawTask::wake *)
Definition RawTask_wake : P unit :=
  if 0 <? size_S then RawTask_wake_by_ref ;% RawTask_drop_waker
  else
    let% state := w_load in
    Loop (λ state,
      if negb (Z.land state (Z.lor COMPLETED CLOSED) =? 0) then
        RawTask_drop_waker ;% Ret (inr tt)
      else if negb (Z.land state SCHEDULED =? 0) then
        let% r := w_cas_weak state state in
        match r with
        | ok _ => RawTask_drop_waker ;% Ret (inr tt)
        | err s => Ret (inl s)
        end
      else
        let% r := w_cas_weak state (Z.lor state SCHEDULED) in
        match r with
        | ok _ =>
            if Z.land state RUNNING =? 0 then RawTask_schedule ;% Ret (inr tt)
            else RawTask_drop_waker ;% Ret (inr tt)
        | err s => Ret (inl s)
        end) state.

(** [async-task/raw.rs:454-466] RawTask::run. The end of a task that is closed or
    completed: the awaiter is taken out, the reference dropped, the awaiter
    woken. *)
Definition RawTask_finish (state : Z) : P unit :=
  let% awaiter := (if negb (Z.land state AWAITER =? 0) then Header_take None else Ret None) in
  RawTask_drop_ref ;%
  wake_opt awaiter.
(** [async-task/raw.rs:444-484] RawTask::run. Before the future is polled: the
    new state, or nothing when the task was closed. *)
Definition RawTask_run_start : P (option Z) :=
  let% state := w_load in
  Loop (λ state,
    if negb (Z.land state CLOSED =? 0) then
      RawTask_drop_future ;%
      let% state := w_fetch (λ w, Z.land w (Z.lnot SCHEDULED)) in
      RawTask_finish state ;%
      Ret (inr None)
    else
      let% r := w_cas_weak state (Z.lor (Z.land state (Z.lnot SCHEDULED)) RUNNING) in
      match r with
      | ok _ => Ret (inr (Some (Z.lor (Z.land state (Z.lnot SCHEDULED)) RUNNING)))
      | err s => Ret (inl s)
      end) state.
(** [async-task/raw.rs:493-540] RawTask::run. The future is ready. *)
Definition RawTask_run_ready (out : T) (state : Z) : P unit :=
  RawTask_drop_future ;%
  output_write out ;%
  Loop (λ state,
    let new :=
      if Z.land state TASK =? 0 then Z.lor (Z.lor (Z.land (Z.land state (Z.lnot RUNNING)) (Z.lnot SCHEDULED)) COMPLETED) CLOSED
      else Z.lor (Z.land (Z.land state (Z.lnot RUNNING)) (Z.lnot SCHEDULED)) COMPLETED in
    let% r := w_cas_weak state new in
    match r with
    | ok _ =>
        (if (Z.land state TASK =? 0) || negb (Z.land state CLOSED =? 0) then output_read ;% Ret tt else Ret tt) ;%
        RawTask_finish state ;%
        Ret (inr tt)
    | err s => Ret (inl s)
    end) state.
(** [async-task/raw.rs:541-600] RawTask::run. The future is pending; says whether
    the task was scheduled again. *)
Definition RawTask_run_pending (state : Z) : P bool :=
  Loop (λ '(state, future_dropped),
    let new :=
      if negb (Z.land state CLOSED =? 0) then Z.land (Z.land state (Z.lnot RUNNING)) (Z.lnot SCHEDULED)
      else Z.land state (Z.lnot RUNNING) in
    let% future_dropped :=
      (if negb (Z.land state CLOSED =? 0) && negb future_dropped then RawTask_drop_future ;% Ret true else Ret future_dropped) in
    let% r := w_cas_weak state new in
    match r with
    | ok state =>
        if negb (Z.land state CLOSED =? 0) then RawTask_finish state ;% Ret (inr false)
        else if negb (Z.land state SCHEDULED =? 0) then RawTask_schedule ;% Ret (inr true)
        else RawTask_drop_ref ;% Ret (inr false)
    | err s => Ret (inl (s, future_dropped))
    end) (state, false).
(** [async-task/raw.rs:616-682] Drop for Guard *)
Definition Guard_drop : P unit :=
  let% state := w_load in
  Loop (λ state,
    if negb (Z.land state CLOSED =? 0) then
      RawTask_drop_future ;%
      w_fetch (λ w, Z.land w (Z.land (Z.lnot RUNNING) (Z.lnot SCHEDULED))) ;%
      RawTask_finish state ;%
      Ret (inr tt)
    else
      let% r := w_cas_weak state (Z.lor (Z.land (Z.land state (Z.lnot RUNNING)) (Z.lnot SCHEDULED)) CLOSED) in
      match r with
      | ok state => RawTask_drop_future ;% RawTask_finish state ;% Ret (inr tt)
      | err s => Ret (inl s)
      end) state.
(** [async-task/raw.rs:435-603] RawTask::run. [poll] is the future; it gives
    nothing when it panics. *)
Definition RawTask_run (poll : P (option (Poll T))) : P bool :=
  let% started := RawTask_run_start in
  match started with
  | None => Ret false
  | Some state =>
      poll_begin ;%
      let% r := poll in
      poll_end ;%
      match r with
      | None => Guard_drop ;% Panic
      | Some (Ready out) => RawTask_run_ready out state ;% Ret false
      | Some Pending => RawTask_run_pending state
      end
  end.

(** ** [Runnable] *)
(** [async-task/runnable.rs:174-193] spawn_unchecked. A large future is put into a
    box first, which is a future as well. *)
Definition spawn_unchecked : task T := RawTask_allocate.
(** [async-task/runnable.rs:45-52] spawn *)
Definition spawn : task T := spawn_unchecked.
(** [async-task/runnable.rs:266-274] Runnable::schedule *)
Definition Runnable_schedule : P unit := RawTask_schedule.
(** [async-task/runnable.rs:304-310] Runnable::run *)
Definition Runnable_run (poll : P (option (Poll T))) : P bool := RawTask_run poll.
(** [async-task/runnable.rs:335-343] Runnable::waker *)
Definition Runnable_waker : P unit := RawTask_clone_waker.
(** [async-task/runnable.rs:346-387] Drop for Runnable *)
Definition Runnable_drop : P unit :=
  let% state := w_load in
  Loop (λ state,
    if negb (Z.land state (Z.lor COMPLETED CLOSED) =? 0) then Ret (inr tt)
    else
      let% r := w_cas_weak state (Z.lor state CLOSED) in
      match r with
      | ok _ => Ret (inr tt)
      | err s => Ret (inl s)
      end) state ;%
  RawTask_drop_future ;%
  let% state := w_fetch (λ w, Z.land w (Z.lnot SCHEDULED)) in
  (if negb (Z.land state AWAITER =? 0) then Header_notify None else Ret tt) ;%
  RawTask_drop_ref.

(** ** [Task] *)
(** [async-task/task.rs:180-225] Task::set_canceled *)
Definition Task_set_canceled : P unit :=
  let% state := w_load in
  Loop (λ state,
    if negb (Z.land state (Z.lor COMPLETED CLOSED) =? 0) then Ret (inr tt)
    else
      let new :=
        if Z.land state (Z.lor SCHEDULED RUNNING) =? 0 then Z.lor (Z.lor state SCHEDULED) CLOSED +u REFERENCE
        else Z.lor state CLOSED in
      let% r := w_cas_weak state new in
      match r with
      | ok _ =>
          (if Z.land state (Z.lor SCHEDULED RUNNING) =? 0 then RawTask_schedule else Ret tt) ;%
          (if negb (Z.land state AWAITER =? 0) then Header_notify None else Ret tt) ;%
          Ret (inr tt)
      | err s => Ret (inl s)
      end) state.
(** [async-task/task.rs:245-299] Task::set_detached. The loop. *)
Definition Task_set_detached_slow (state : Z) : P (option (option T)) :=
  Loop (λ '(state, output),
    if negb (Z.land state COMPLETED =? 0) && (Z.land state CLOSED =? 0) then
      let% r := w_cas_weak state (Z.lor state CLOSED) in
      match r with
      | ok _ => let% v := RawTask_get_output in Ret (inl (Z.lor state CLOSED, Some v))
      | err s => Ret (inl (s, output))
      end
    else
      let new :=
        if Z.land state (Z.lor (Z.lnot (REFERENCE - 1)) CLOSED) =? 0 then Z.lor (Z.lor SCHEDULED CLOSED) REFERENCE
        else Z.land state (Z.lnot TASK) in
      let% r := w_cas_weak state new in
      match r with
      | ok _ =>
          (if Z.land state (Z.lnot (REFERENCE - 1)) =? 0 then
             if Z.land state CLOSED =? 0 then RawTask_schedule else RawTask_destroy
           else Ret tt) ;%
          Ret (inr output)
      | err s => Ret (inl (s, output))
      end) (state, None).
(** [async-task/task.rs:228-304] Task::set_detached *)
Definition Task_set_detached : P (option (option T)) :=
  let% r := w_cas_weak (Z.lor (Z.lor SCHEDULED TASK) REFERENCE) (Z.lor SCHEDULED REFERENCE) in
  match r with
  | err state => Task_set_detached_slow state
  | ok _ => Ret None
  end.
(** [async-task/task.rs:316-391] Task::poll_task. [waker] is the waker of [cx]. *)
Definition Task_poll_task (waker : nat) : P (Poll (option (option T))) :=
  let% state := w_load in
  Loop (λ state,
    if negb (Z.land state CLOSED =? 0) then
      let% blocked :=
        (if negb (Z.land state (Z.lor SCHEDULED RUNNING) =? 0) then
           Header_register waker ;%
           let% state := w_load in
           Ret (negb (Z.land state (Z.lor SCHEDULED RUNNING) =? 0))
         else Ret false) in
      if blocked : bool then Ret (inr Pending)
      else Header_notify (Some waker) ;% Ret (inr (Ready None))
    else
      (* [inl (inl _)] restarts the loop, [inl (inr _)] returns. *)
      let% go :=
        (if Z.land state COMPLETED =? 0 then
           Header_register waker ;%
           let% state := w_load in
           Ret (if negb (Z.land state CLOSED =? 0) then inl (inl state)
                else if Z.land state COMPLETED =? 0 then inl (inr tt)
                else inr state)
         else Ret (inr state)) in
      match go with
      | inl (inl state) => Ret (inl state)
      | inl (inr _) => Ret (inr Pending)
      | inr state =>
          let% r := w_cas state (Z.lor state CLOSED) in
          match r with
          | ok _ =>
              (if negb (Z.land state AWAITER =? 0) then Header_notify (Some waker) else Ret tt) ;%
              let% v := RawTask_get_output in
              Ret (inr (Ready (Some v)))
          | err s => Ret (inl s)
          end
      end) state.
(** [async-task/task.rs:402-410] Task::is_finished *)
Definition Task_is_finished : P bool :=
  let% state := w_load in
  Ret (negb (Z.land state (Z.lor CLOSED COMPLETED) =? 0)).
(** [async-task/task.rs:85-89] Task::detach *)
Definition Task_detach : P unit := Task_set_detached ;% Ret tt.
(** [async-task/task.rs:413-418] Drop for Task *)
Definition Task_drop : P unit := Task_set_canceled ;% Task_set_detached ;% Ret tt.
(** [async-task/task.rs:420-429] Future for Task. Panics when the task has
    failed. *)
Definition Task_poll (waker : nat) : P (Poll (option T)) :=
  let% r := Task_poll_task waker in
  match r with
  | Ready (Some v) => Ret (Ready v)
  | Ready None => Panic
  | Pending => Ret Pending
  end.
End raw.

(** ** Users of a task *)
(** Handles that are not in the hands of a thread are in a bag: the queue of the
    executor for the runnable, and whatever keeps the wakers and the [Task]. *)
Section users.
Context {T : Type} (size_S : Z).
#[local] Notation P := (prog (task T)).
Definition pop_runnable : P bool :=
  atom (λ t, if 0 <? b_run t then (true, set_bag (b_run t - 1) (b_wak t) (b_task t) t) else (false, t)).
Definition put_runnable : P unit := atom (λ t, (tt, set_bag (b_run t + 1) (b_wak t) (b_task t) t)).
Definition pop_waker : P bool :=
  atom (λ t, if 0 <? b_wak t then (true, set_bag (b_run t) (b_wak t - 1) (b_task t) t) else (false, t)).
Definition put_waker : P unit := atom (λ t, (tt, set_bag (b_run t) (b_wak t + 1) (b_task t) t)).
Definition take_task : P bool :=
  atom (λ t, if b_task t then (true, set_bag (b_run t) (b_wak t) false t) else (false, t)).
Definition put_task : P unit := atom (λ t, (tt, set_bag (b_run t) (b_wak t) true t)).
Definition with_handle (take : P bool) (p : P unit) : P unit := let% got := take in if got : bool then p else Ret tt.

(** A choice that nothing is known about. *)
Definition any {A} (choices : list A) : P A := Step (λ t, (λ a, (a, t)) <$> choices).
(** A future that may do anything with its waker when it is polled, any number of
    times, and then is ready with one of [outs], pending, or panics. *)
Inductive poll_action : Type := PClone | PWake | PReturn (r : option (Poll T)).
Definition any_poll (outs : list T) : P (option (Poll T)) :=
  Loop (λ _,
    let% a := any (PClone :: PWake :: PReturn None :: PReturn (Some Pending) :: ((λ v, PReturn (Some (Ready v))) <$> outs)) in
    match a with
    | PClone => RawTask_clone_waker ;% put_waker ;% Ret (inl tt)
    | PWake => RawTask_wake_by_ref size_S ;% Ret (inl tt)
    | PReturn r => Ret (inr r)
    end) tt.
(** What can be done with the handles. *)
Inductive action : Type :=
| ARun | ADropRunnable | ASchedule | AWaker
| AWake | AWakeByRef | AClone | ADropWaker
| APoll (w : nat) | ACancel | AIsFinished | ADetach | ADropTask.
Definition act (outs : list T) (a : action) : P unit :=
  match a with
  | ARun => with_handle pop_runnable (Runnable_run size_S (any_poll outs) ;% Ret tt)
  | ADropRunnable => with_handle pop_runnable (Runnable_drop size_S)
  | ASchedule => with_handle pop_runnable (Runnable_schedule size_S)
  | AWaker => with_handle pop_runnable (Runnable_waker ;% put_waker ;% put_runnable)
  | AWake => with_handle pop_waker (RawTask_wake size_S)
  | AWakeByRef => with_handle pop_waker (RawTask_wake_by_ref size_S ;% put_waker)
  | AClone => with_handle pop_waker (RawTask_clone_waker ;% put_waker ;% put_waker)
  | ADropWaker => with_handle pop_waker (RawTask_drop_waker size_S)
  | APoll w => with_handle take_task (Task_poll_task w ;% put_task)
  | ACancel => with_handle take_task (Task_set_canceled size_S ;% put_task)
  | AIsFinished => with_handle take_task (Task_is_finished ;% put_task)
  | ADetach => with_handle take_task (Task_detach size_S)
  | ADropTask => with_handle take_task (Task_drop size_S)
  end.
(** A thread that does what it likes, as often as it likes. *)
Definition user (outs : list T) (actions : list action) : P unit :=
  Loop (λ _, let% a := any (None :: (Some <$> actions)) in
             match a with
             | None => Ret (inr tt)
             | Some a => act outs a ;% Ret (inl tt)
             end) tt.
End users.
