(* ===== verification/TaskWord.v ===== *)
(** * The layout and the state word of a task

    The parts of a task do not overlap ([task_layout_fits]).  The state word of
    [async-task/src/state.rs] as eight flags and a reference count: what the tests
    and changes of the word mean.  The rewriting rules are collected in the
    database [task]. *)

From S2P Require Import Prelude Conc Mutex AsyncTask.

Definition low (S R Cp Cl Tk A Rg N : bool) : Z :=
  b2z S + 2 * b2z R + 4 * b2z Cp + 8 * b2z Cl + 16 * b2z Tk + 32 * b2z A + 64 * b2z Rg + 128 * b2z N.
Definition enc (S R Cp Cl Tk A Rg N : bool) (r : Z) : Z := 256 * r + low S R Cp Cl Tk A Rg N.

Lemma low_range S R Cp Cl Tk A Rg N : 0 ≤ low S R Cp Cl Tk A Rg N < 256.
Proof. unfold low. pose proof (b2z_range S). pose proof (b2z_range R). pose proof (b2z_range Cp). pose proof (b2z_range Cl).
  pose proof (b2z_range Tk). pose proof (b2z_range A). pose proof (b2z_range Rg). pose proof (b2z_range N). lia. Qed.
Lemma enc_disjoint r b : 0 ≤ b < 256 → 256 * r + b = Z.lor (r * 2 ^ 8) b.
Proof. intros Hb. rewrite lor_low_high by lia. lia. Qed.
Lemma bits_high c n i : 0 ≤ n → 0 ≤ c < 2 ^ n → n ≤ i → Z.testbit c i = false.
Proof.
  intros Hn Hc Hi. apply Z.testbit_false; [lia|]. rewrite Z.div_small; [done|]. split; [lia|].
  apply Z.lt_le_trans with (2 ^ n); [lia|]. apply Z.pow_le_mono_r; lia.
Qed.
Lemma enc_lor r b c : 0 ≤ b < 256 → 0 ≤ Z.lor b c < 256 → Z.lor (256 * r + b) c = 256 * r + Z.lor b c.
Proof. intros Hb Hc. rewrite (enc_disjoint r b Hb), <- Z.lor_assoc, <- enc_disjoint by done. done. Qed.
Lemma enc_land r b c : 0 ≤ b < 256 → 0 ≤ c < 256 → Z.land (256 * r + b) c = Z.land b c.
Proof.
  intros Hb Hc. rewrite (enc_disjoint r b Hb), Z.land_lor_distr_l. replace (Z.land (r * 2 ^ 8) c) with 0; [apply Z.lor_0_l|].
  symmetry. apply Z.bits_inj'. intros n Hn. rewrite Z.land_spec, Z.bits_0. destruct (decide (n < 8)) as [Hlt|Hge].
  - by rewrite Z.mul_pow2_bits_low.
  - rewrite (bits_high c 8) by lia. apply andb_false_r.
Qed.
Lemma enc_clear r b c : 0 ≤ b < 256 → 0 ≤ c < 256 → 0 ≤ Z.land b (Z.lnot c) < 256 →
  Z.land (256 * r + b) (Z.lnot c) = 256 * r + Z.land b (Z.lnot c).
Proof.
  intros Hb Hc Hr. rewrite (enc_disjoint r b Hb), Z.land_lor_distr_l, (enc_disjoint r (Z.land b _) Hr). f_equal.
  rewrite <- Z.ldiff_land. apply Z.bits_inj'. intros n Hn. rewrite Z.ldiff_spec. destruct (decide (n < 8)) as [Hlt|Hge].
  - by rewrite Z.mul_pow2_bits_low.
  - rewrite (bits_high c 8) by lia. apply andb_true_r.
Qed.

Section word.
Context (S R Cp Cl Tk A Rg N : bool) (r : Z).
#[local] Notation w := (enc S R Cp Cl Tk A Rg N r).
#[local] Ltac by_flags := destruct S, R, Cp, Cl, Tk, A, Rg, N; reflexivity.
#[local] Ltac test := unfold enc; rewrite enc_land by (apply low_range || (split; reflexivity || discriminate)); by_flags.
Lemma has_S : (Z.land w SCHEDULED =? 0) = negb S.
Proof. test. Qed.
Lemma has_R : (Z.land w RUNNING =? 0) = negb R.
Proof. test. Qed.
Lemma has_Cp : (Z.land w COMPLETED =? 0) = negb Cp.
Proof. test. Qed.
Lemma has_Cl : (Z.land w CLOSED =? 0) = negb Cl.
Proof. test. Qed.
Lemma has_T : (Z.land w TASK =? 0) = negb Tk.
Proof. test. Qed.
Lemma has_A : (Z.land w AWAITER =? 0) = negb A.
Proof. test. Qed.
Lemma has_N : (Z.land w NOTIFYING =? 0) = negb N.
Proof. test. Qed.
Lemma has_CpCl : (Z.land w (Z.lor COMPLETED CLOSED) =? 0) = negb (Cp || Cl).
Proof. test. Qed.
Lemma has_SR : (Z.land w (Z.lor SCHEDULED RUNNING) =? 0) = negb (S || R).
Proof. test. Qed.
Lemma has_NRg : (Z.land w (Z.lor NOTIFYING REGISTERING) =? 0) = negb (N || Rg).
Proof. test. Qed.
#[local] Ltac set_bit := unfold enc; rewrite enc_lor; [f_equal; by_flags|apply low_range|destruct S, R, Cp, Cl, Tk, A, Rg, N; split; reflexivity || discriminate].
Lemma set_S : Z.lor w SCHEDULED = enc true R Cp Cl Tk A Rg N r.
Proof. set_bit. Qed.
Lemma set_R : Z.lor w RUNNING = enc S true Cp Cl Tk A Rg N r.
Proof. set_bit. Qed.
Lemma set_Cp : Z.lor w COMPLETED = enc S R true Cl Tk A Rg N r.
Proof. set_bit. Qed.
Lemma set_Cl : Z.lor w CLOSED = enc S R Cp true Tk A Rg N r.
Proof. set_bit. Qed.
Lemma set_A : Z.lor w AWAITER = enc S R Cp Cl Tk true Rg N r.
Proof. set_bit. Qed.
Lemma set_Rg : Z.lor w REGISTERING = enc S R Cp Cl Tk A true N r.
Proof. set_bit. Qed.
Lemma set_N : Z.lor w NOTIFYING = enc S R Cp Cl Tk A Rg true r.
Proof. set_bit. Qed.
#[local] Ltac clear_bit := unfold enc; rewrite enc_clear; [f_equal; by_flags|apply low_range|split; reflexivity || discriminate|destruct S, R, Cp, Cl, Tk, A, Rg, N; split; reflexivity || discriminate].
Lemma clear_S : Z.land w (Z.lnot SCHEDULED) = enc false R Cp Cl Tk A Rg N r.
Proof. clear_bit. Qed.
Lemma clear_R : Z.land w (Z.lnot RUNNING) = enc S false Cp Cl Tk A Rg N r.
Proof. clear_bit. Qed.
Lemma clear_T : Z.land w (Z.lnot TASK) = enc S R Cp Cl false A Rg N r.
Proof. clear_bit. Qed.
Lemma clear_A : Z.land w (Z.lnot AWAITER) = enc S R Cp Cl Tk false Rg N r.
Proof. clear_bit. Qed.
Lemma clear_Rg : Z.land w (Z.lnot REGISTERING) = enc S R Cp Cl Tk A false N r.
Proof. clear_bit. Qed.
Lemma clear_N : Z.land w (Z.lnot NOTIFYING) = enc S R Cp Cl Tk A Rg false r.
Proof. clear_bit. Qed.
Lemma refs_only : Z.land w (Z.lnot (REFERENCE - 1)) = 256 * r.
Proof.
  unfold enc. rewrite enc_clear; [|apply low_range|split; reflexivity || discriminate|destruct S, R, Cp, Cl, Tk, A, Rg, N; split; reflexivity || discriminate].
  replace (Z.land (low S R Cp Cl Tk A Rg N) (Z.lnot (REFERENCE - 1))) with 0 by by_flags. lia.
Qed.
Lemma has_refs : (Z.land w (Z.lnot (REFERENCE - 1)) =? 0) = (r =? 0).
Proof. rewrite refs_only. destruct (Z.eqb_spec (256 * r) 0), (Z.eqb_spec r 0); done || lia. Qed.
Lemma has_refs_Cl : 0 ≤ r → (Z.land w (Z.lor (Z.lnot (REFERENCE - 1)) CLOSED) =? 0) = (r =? 0) && negb Cl.
Proof.
  intros Hr. rewrite Z.land_lor_distr_r, refs_only, <- has_Cl. destruct (Z.eqb_spec r 0) as [->|Hne]; cbn [andb].
  - by rewrite Z.mul_0_r, Z.lor_0_l.
  - apply Z.eqb_neq. intros [H0 _]%Z.lor_eq_0_iff. lia.
Qed.
Lemma add_ref : 0 ≤ r < 2 ^ 55 + 2 ^ 54 → w +u REFERENCE = enc S R Cp Cl Tk A Rg N (r + 1).
Proof.
  intros Hr. unfold enc. pose proof (low_range S R Cp Cl Tk A Rg N). change REFERENCE with 256. rewrite uadd_small by lia. lia.
Qed.
Lemma sub_ref : 1 ≤ r < 2 ^ 55 + 2 ^ 54 → w -u REFERENCE = enc S R Cp Cl Tk A Rg N (r - 1).
Proof.
  intros Hr. unfold enc. pose proof (low_range S R Cp Cl Tk A Rg N). change REFERENCE with 256. rewrite usub_small by lia. lia.
Qed.
Lemma many_refs : (isize_MAX <? w) = (2 ^ 55 <=? r).
Proof.
  unfold enc, isize_MAX. pose proof (low_range S R Cp Cl Tk A Rg N).
  destruct (Z.ltb_spec (2 ^ 63 - 1) (256 * r + low S R Cp Cl Tk A Rg N)), (Z.leb_spec (2 ^ 55) r); done || lia.
Qed.
End word.
Lemma enc_inj S R Cp Cl Tk A Rg N r S' R' Cp' Cl' Tk' A' Rg' N' r' :
  enc S R Cp Cl Tk A Rg N r = enc S' R' Cp' Cl' Tk' A' Rg' N' r' →
  S = S' ∧ R = R' ∧ Cp = Cp' ∧ Cl = Cl' ∧ Tk = Tk' ∧ N = N' ∧ (N || Rg) = (N' || Rg') ∧ r = r'.
Proof.
  intros He. pose proof (has_S S R Cp Cl Tk A Rg N r) as H1. pose proof (has_R S R Cp Cl Tk A Rg N r) as H2.
  pose proof (has_Cp S R Cp Cl Tk A Rg N r) as H3. pose proof (has_Cl S R Cp Cl Tk A Rg N r) as H4. pose proof (has_T S R Cp Cl Tk A Rg N r) as H5.
  pose proof (has_N S R Cp Cl Tk A Rg N r) as H6. pose proof (has_NRg S R Cp Cl Tk A Rg N r) as H7.
  rewrite He in H1, H2, H3, H4, H5, H6, H7. rewrite has_N in H6. rewrite has_NRg in H7. rewrite has_S in H1. rewrite has_R in H2. rewrite has_Cp in H3. rewrite has_Cl in H4. rewrite has_T in H5.
  split_and!; [by destruct S, S'|by destruct R, R'|by destruct Cp, Cp'|by destruct Cl, Cl'|by destruct Tk, Tk'|by destruct N, N'|by destruct N, Rg, N', Rg'|].
  unfold enc in He. pose proof (low_range S R Cp Cl Tk A Rg N). pose proof (low_range S' R' Cp' Cl' Tk' A' Rg' N'). lia.
Qed.
#[export] Hint Rewrite has_S has_R has_Cp has_Cl has_T has_A has_N has_CpCl has_SR has_NRg has_refs set_S set_R set_Cp set_Cl set_A set_Rg set_N
  clear_S clear_R clear_T clear_A clear_Rg clear_N many_refs : task.

(** ** Layout *)
Definition layout_ok (l : Layout) : Prop := ∃ k, 0 ≤ k < 63 ∧ l_align l = 2 ^ k ∧ 0 ≤ l_size l ≤ isize_MAX - (l_align l - 1).
Lemma lnot_mask x k : 0 ≤ k → Z.land x (Z.lnot (2 ^ k - 1)) = x - x mod 2 ^ k.
Proof.
  intros Hk. rewrite Z.sub_1_r, <- Z.ones_equiv, <- Z.ldiff_land, Z.ldiff_ones_r by done.
  rewrite Z.shiftl_mul_pow2, Z.shiftr_div_pow2 by done. pose proof (Z.div_mod x (2 ^ k) ltac:(lia)). lia.
Qed.
(** The padding brings the size to the next multiple of the alignment. *)
Lemma padding_spec l k : 0 ≤ k < 63 → 0 ≤ l_size l ≤ isize_MAX →
  let p := padding_needed_for l (2 ^ k) in 0 ≤ p < 2 ^ k ∧ (l_size l + p) mod 2 ^ k = 0.
Proof.
  intros Hk Hl. assert (Hp : 1 ≤ 2 ^ k ≤ 2 ^ 62) by (split; [|apply Z.pow_le_mono_r; lia]; change 1 with (2 ^ 0); apply Z.pow_le_mono_r; lia).
  unfold isize_MAX in Hl. unfold padding_needed_for. rewrite (uadd_small (l_size l)), (usub_small _ 1), (usub_small (2 ^ k) 1) by lia. rewrite lnot_mask by lia.
  set (n := l_size l + 2 ^ k - 1). pose proof (Z.mod_pos_bound n (2 ^ k) ltac:(lia)). rewrite usub_small by lia.
  split; [lia|]. replace (l_size l + (n - n mod 2 ^ k - l_size l)) with (n - n mod 2 ^ k) by lia.
  rewrite Zminus_mod, Z.mod_mod, Z.sub_diag by lia. apply Z.mod_0_l. lia.
Qed.
Lemma extend_spec a b l offset : layout_ok a → layout_ok b → extend a b = Ok (l, offset) →
  layout_ok l ∧ l_size a ≤ offset ∧ offset mod l_align b = 0 ∧ offset + l_size b = l_size l ∧
  l_align a ≤ l_align l ∧ l_align b ≤ l_align l.
Proof.
  intros (ka & Hka & Haa & Hsa) (kb & Hkb & Hab & Hsb) He. unfold extend in He. rewrite Hab in He.
  assert (Hpos : 1 ≤ 2 ^ ka ∧ 1 ≤ 2 ^ kb) by (split; change 1 with (2 ^ 0); apply Z.pow_le_mono_r; lia).
  destruct (padding_spec a kb Hkb ltac:(rewrite Haa in Hsa; lia)) as [Hp Hm].
  destruct (_ <? _); [done|]. destruct (_ <? _); [done|]. destruct (Z.ltb_spec (isize_MAX - (Z.max (l_align a) (2 ^ kb) - 1)) (l_size a + padding_needed_for a (2 ^ kb) + l_size b)) as [|Hfit]; [done|].
  injection He as <- <-. unfold layout_ok. cbn [l_size l_align]. rewrite Hab. split_and!; [|lia|done|lia|lia|lia].
  exists (Z.max ka kb). split; [lia|]. rewrite Haa in *. split; [|lia].
  destruct (Z.max_spec ka kb) as [[? ->]|[? ->]]; [rewrite Z.max_r|rewrite Z.max_l]; try done; apply Z.pow_le_mono_r; lia.
Qed.
(** The header, the schedule function, and the future or its output lie one after
    the other in the memory of a task, each at a place that fits its alignment. *)
Lemma task_layout_fits lh ls lf lr tl : layout_ok lh → layout_ok ls → layout_ok lf → layout_ok lr →
  l_size lf ≤ isize_MAX - (Z.max (l_align lf) (l_align lr) - 1) → l_size lr ≤ isize_MAX - (Z.max (l_align lf) (l_align lr) - 1) →
  task_layout lh ls lf lr = Ok tl →
  l_size lh ≤ offset_s tl ∧ offset_s tl + l_size ls ≤ offset_f tl ∧ offset_r tl = offset_f tl ∧
  offset_f tl + l_size lf ≤ l_size (layout tl) ∧ offset_r tl + l_size lr ≤ l_size (layout tl) ∧
  offset_s tl mod l_align ls = 0 ∧ offset_f tl mod l_align lf = 0 ∧ offset_r tl mod l_align lr = 0.
Proof.
  intros Hh Hs Hf Hr Hsf Hsr Ht. unfold task_layout in Ht. destruct (extend lh ls) as [[l1 o1]|] eqn:H1; [|done]. cbn in Ht.
  destruct (extend l1 _) as [[l2 o2]|] eqn:H2; [|done]. injection Ht as <-. cbn.
  destruct (extend_spec lh ls l1 o1 Hh Hs H1) as (Hl1 & Ho1 & Hm1 & Hz1 & _).
  destruct Hf as (kf & Hkf & Haf & Hf). destruct Hr as (kr & Hkr & Har & Hr).
  assert (Hu : layout_ok (mkLayout (Z.max (l_size lf) (l_size lr)) (Z.max (l_align lf) (l_align lr)))).
  { exists (Z.max kf kr). cbn. split; [lia|]. split; [|lia]. rewrite Haf, Har.
    destruct (Z.max_spec kf kr) as [[? ->]|[? ->]]; [rewrite Z.max_r|rewrite Z.max_l]; try done; apply Z.pow_le_mono_r; lia. }
  destruct (extend_spec l1 _ l2 o2 Hl1 Hu H2) as (_ & Ho2 & Hm2 & Hz2 & _). cbn in *.
  assert (Hdiv : ∀ k, 0 ≤ k ≤ Z.max kf kr → o2 mod 2 ^ k = 0).
  { intros k Hk. rewrite Haf, Har in Hm2. assert (Z.max (2 ^ kf) (2 ^ kr) = 2 ^ Z.max kf kr) as Hmx.
    { destruct (Z.max_spec kf kr) as [[? ->]|[? ->]]; [rewrite Z.max_r|rewrite Z.max_l]; try done; apply Z.pow_le_mono_r; lia. }
    rewrite Hmx in Hm2. apply Z.mod_divide in Hm2; [|lia]. apply Z.mod_divide; [lia|]. eapply Z.divide_trans; [|exact Hm2].
    exists (2 ^ (Z.max kf kr - k)). rewrite <- Z.pow_add_r by lia. f_equal. lia. }
  split_and!; [lia|lia|done|lia|lia|done|rewrite Haf; apply Hdiv; lia|rewrite Har; apply Hdiv; lia].
Qed.
