(* ===== verification/AsyncTaskSafe.v ===== *)
(** * No task is misused ([async-task/src])

    Any number of threads use the handles of a task in any way their interface
    allows: they run, drop or reschedule the [Runnable], wake, clone and drop
    wakers, poll, cancel, detach and drop the [Task], and the future does what
    it likes when it is polled.  In no interleaving is the memory of the task
    misused.

    The proof gives each thread a record of what it holds: references, the right
    to run the task, the [Task], the right to the place of the future, the right
    to the awaiter, or the right to free the memory.  [books] relates the totals
    to the state word. *)

From S2P Require Import Prelude Conc Mutex AsyncTask TaskWord.

(** ** What a thread holds *)
Inductive own : Type := ONone | OSched | ORun.
Inductive aw : Type := ANone | AReg | ANot.
Section safe.
Context {T : Type}.
(** References; the right to run the task, which is scheduled or running; the
    right to the place of the future, with what is in it; the [Task]; the
    registration or the notification of an awaiter, and whether it is accessing
    the awaiter; whether it has seen that the task is closed; the right to free
    the memory, with the state word; and whether it has aborted. *)
Record ghost : Type := mkG {
  g_ref : Z; g_own : own; g_slot : option (slot T); g_task : bool;
  g_aw : aw; g_acc : bool; g_cl : bool; g_kill : option Z; g_abort : bool }.
(** A thread has the right to touch the memory. *)
Definition rights (g : ghost) : Prop := 1 ≤ g_ref g ∨ g_task g = true ∨ is_Some (g_kill g).
Definition some {A} (o : option A) : bool := match o with Some _ => true | None => false end.
(** Totals. *)
Record tot : Type := mkTot { RF : Z; SC : Z; RN : Z; TK : Z; RG : Z; NT : Z; AC : Z; KL : Z; HD : Z; AB : Z }.
Definition tot_of (g : ghost) : tot :=
  mkTot (g_ref g) (match g_own g with OSched => 1 | _ => 0 end) (match g_own g with ORun => 1 | _ => 0 end)
    (b2z (g_task g)) (match g_aw g with AReg => 1 | _ => 0 end) (match g_aw g with ANot => 1 | _ => 0 end)
    (b2z (g_acc g)) (b2z (some (g_kill g))) (b2z (some (g_slot g))) (b2z (g_abort g)).
Definition plus (x y : tot) : tot :=
  mkTot (RF x + RF y) (SC x + SC y) (RN x + RN y) (TK x + TK y) (RG x + RG y) (NT x + NT y) (AC x + AC y)
    (KL x + KL y) (HD x + HD y) (AB x + AB y).
Definition minus (x y : tot) : tot :=
  mkTot (RF x - RF y) (SC x - SC y) (RN x - RN y) (TK x - TK y) (RG x - RG y) (NT x - NT y) (AC x - AC y)
    (KL x - KL y) (HD x - HD y) (AB x - AB y).
Definition total (ls : list ghost) : tot := foldr (λ g x, plus (tot_of g) x) (mkTot 0 0 0 0 0 0 0 0 0 0) ls.
(** What holds of the totals of any threads. *)
Definition sound (x : tot) : Prop :=
  0 ≤ RF x ∧ 0 ≤ SC x ∧ 0 ≤ RN x ∧ 0 ≤ TK x ∧ 0 ≤ RG x ∧ 0 ≤ NT x ∧ 0 ≤ AC x ∧ 0 ≤ KL x ∧ 0 ≤ HD x ∧ 0 ≤ AB x ∧
  SC x + RN x ≤ HD x ∧ SC x + RN x ≤ RF x ∧ HD x ≤ RF x + TK x ∧ RG x ≤ TK x ∧ NT x ≤ RF x + TK x ∧ AC x ≤ RG x + NT x.

(** What holds of one: the right to run the task goes with a reference and with
    the place of the future; who holds that place otherwise has seen that the
    task is closed; who frees the memory holds nothing else. *)
Definition lwf (g : ghost) : Prop :=
  sound (tot_of g) ∧
  (some (g_slot g) = true → g_own g = ONone → g_cl g = true) ∧
  (some (g_kill g) = true → g_ref g = 0 ∧ g_task g = false).

(** ** The books *)
(** The references are counted; there is one runnable, in the queue or in
    someone's hands, exactly when the task is scheduled or running; the [Task] is
    there when its flag says so; whoever registers or notifies an awaiter has
    marked the word; the memory can be freed by one thread when nobody holds
    anything; a completed task is not scheduled; its output is there for the
    [Task] until the task is closed. *)
Definition books (S R Cp Cl Tk Rg N : bool) (r br bw : Z) (bt freed : bool) (busy : Z) (x : tot) : Prop :=
  0 ≤ br ∧ 0 ≤ bw ∧ RF x + br + bw = r ∧
  b2z S ≤ SC x + br + RN x ∧ SC x + br + RN x ≤ b2z S + b2z R ∧ SC x + br + RN x ≤ 1 ∧ RN x = b2z R ∧
  TK x + b2z bt = b2z Tk ∧
  RG x = b2z Rg ∧ b2z N - b2z Rg ≤ NT x ∧ NT x ≤ b2z N ∧ NT x ≤ 1 - b2z Rg ∧ busy = AC x ∧
  KL x + b2z freed ≤ 1 - b2z Tk ∧ (1 ≤ r → KL x + b2z freed = 0) ∧ (r = 0 → 1 - b2z Tk ≤ KL x + b2z freed) ∧
  b2z Cp + SC x + br + RN x ≤ 1 ∧ b2z Cp ≤ b2z Cl + b2z Tk ∧
  HD x + br ≤ 1 ∧ HD x ≤ SC x + RN x + b2z Cl ∧ r ≤ 2 ^ 55 + AB x + b2z Cl.
(** What is in the place of the future when nobody holds it. *)
Definition at_rest (Cp Cl : bool) (x : slot T) : Prop :=
  match Cp, Cl with
  | false, false => x = SFuture
  | true, false => ∃ v, x = SOutput v
  | _, true => x = SEmpty
  end.
Definition place (Cp Cl : bool) (br : Z) (x : tot) (y : slot T) : Prop :=
  (HD x + br = 0 → at_rest Cp Cl y) ∧ (1 ≤ br → y = SFuture).
(** What a thread knows. *)
Definition knows (g : ghost) (Cl : bool) (t : task T) : Prop :=
  (∀ y, g_slot g = Some y → t_slot t = y) ∧ (g_cl g = true → Cl = true) ∧ (∀ w, g_kill g = Some w → t_state t = w).
Definition inv (t : task T) (ls : list ghost) : Prop :=
  t_bad t = false ∧ len ls < 2 ^ 50 ∧
  ∃ S R Cp Cl Tk A Rg N r,
    t_state t = enc S R Cp Cl Tk A Rg N r ∧
    books S R Cp Cl Tk Rg N r (b_run t) (b_wak t) (b_task t) (t_freed t) (t_busy t) (total ls) ∧
    place Cp Cl (b_run t) (total ls) (t_slot t) ∧
    ∀ i g, ls !! i = Some g → lwf g ∧ knows g Cl t.

#[local] Ltac tots := unfold sound, plus, minus in *; cbn [RF SC RN TK RG NT AC KL HD AB] in *.
Lemma sound_plus x y : sound x → sound y → sound (plus x y).
Proof. tots. lia. Qed.
Lemma total_sound ls : (∀ i g, ls !! i = Some g → lwf g) → sound (total ls).
Proof.
  induction ls as [|g ls IH]; intros Hwf; [unfold sound; cbn; lia|]. apply sound_plus.
  - apply (Hwf 0%nat). done.
  - apply IH. intros i. apply (Hwf (Datatypes.S i)).
Qed.
Lemma total_insert ls i g g' : ls !! i = Some g → total (<[i := g']> ls) = plus (minus (total ls) (tot_of g)) (tot_of g').
Proof.
  revert i. induction ls as [|g0 ls IH]; intros [|i] Hl; try done; cbn in Hl.
  - injection Hl as ->. change (plus (tot_of g') (total ls) = plus (minus (plus (tot_of g) (total ls)) (tot_of g)) (tot_of g')).
    unfold plus, minus. cbn [RF SC RN TK RG NT AC KL HD AB]. f_equal; lia.
  - change (plus (tot_of g0) (total (<[i := g']> ls)) = plus (minus (plus (tot_of g0) (total ls)) (tot_of g)) (tot_of g')).
    rewrite (IH i Hl). unfold plus, minus. cbn [RF SC RN TK RG NT AC KL HD AB]. f_equal; lia.
Qed.
Lemma total_rest ls i g : ls !! i = Some g → (∀ i g, ls !! i = Some g → lwf g) → sound (minus (total ls) (tot_of g)).
Proof.
  revert i. induction ls as [|g0 ls IH]; intros [|i] Hl Hwf; try done; cbn in Hl.
  - injection Hl as ->. pose proof (total_sound ls (λ i, Hwf (Datatypes.S i))) as Hs.
    change (sound (minus (plus (tot_of g) (total ls)) (tot_of g))). tots. lia.
  - pose proof (IH i Hl (λ i, Hwf (Datatypes.S i))) as Hs. destruct (Hwf 0%nat g0 eq_refl) as [H0 _].
    change (sound (minus (plus (tot_of g0) (total ls)) (tot_of g))). tots. lia.
Qed.
(** The rest of the threads beside two. *)
Lemma total_rest2 ls i j g g' : ls !! i = Some g → ls !! j = Some g' → i ≠ j → (∀ i g, ls !! i = Some g → lwf g) →
  sound (minus (minus (total ls) (tot_of g)) (tot_of g')).
Proof.
  revert i j. induction ls as [|g0 ls IH]; intros [|i] [|j] Hl Hj Hne Hwf; try done; cbn in Hl, Hj.
  - injection Hl as ->. pose proof (total_rest ls j g' Hj (λ i, Hwf (Datatypes.S i))) as Hs.
    change (sound (minus (minus (plus (tot_of g) (total ls)) (tot_of g)) (tot_of g'))). tots. lia.
  - injection Hj as ->. pose proof (total_rest ls i g Hl (λ i, Hwf (Datatypes.S i))) as Hs.
    change (sound (minus (minus (plus (tot_of g') (total ls)) (tot_of g)) (tot_of g'))). tots. lia.
  - pose proof (IH i j Hl Hj ltac:(congruence) (λ i, Hwf (Datatypes.S i))) as Hs. destruct (Hwf 0%nat g0 eq_refl) as [H0 _].
    change (sound (minus (minus (plus (tot_of g0) (total ls)) (tot_of g)) (tot_of g'))). tots. lia.
Qed.
(** A thread that can free the memory is alone. *)
Lemma kill_alone S R Cp Cl Tk Rg N r br bw bt freed busy x g g' :
  books S R Cp Cl Tk Rg N r br bw bt freed busy x → sound (minus (minus x (tot_of g)) (tot_of g')) → lwf g → lwf g' →
  rights g → some (g_kill g') = true → False.
Proof.
  intros HB Hs Hg Hg' Hr Hk. destruct Hg as (Hg & _ & Hgk). destruct Hg' as (Hg' & _ & Hgk'). destruct (Hgk' Hk) as [Hr' Ht'].
  unfold books in HB. tots. cbn [tot_of RF SC RN TK RG NT AC KL HD AB] in *. rewrite Hk, Hr', Ht' in *. cbn [b2z] in *.
  pose proof (b2z_range freed). pose proof (b2z_range Tk). pose proof (b2z_range bt).
  assert (Hb : 1 ≤ KL x ∧ (1 ≤ r → False) ∧ b2z Tk = 0) by lia. destruct Hb as (Hb1 & Hb2 & Hb3).
  destruct Hr as [Hr|[Hr|[w Hr]]].
  - apply Hb2. lia.
  - rewrite Hr in *. cbn [b2z] in *. lia.
  - rewrite Hr in *. cbn [some b2z] in *. lia.
Qed.
Lemma plus_minus x y : plus (minus x y) y = x.
Proof. destruct x. unfold plus, minus. cbn [RF SC RN TK RG NT AC KL HD AB]. f_equal; lia. Qed.
Lemma total_AB ls i g : ls !! i = Some g → AB (minus (total ls) (tot_of g)) < len ls.
Proof.
  assert (Hb : ∀ ls, AB (total ls) ≤ len ls).
  { induction ls0 as [|g0 ls0 IH]; [done|]. change (AB (plus (tot_of g0) (total ls0)) ≤ len (g0 :: ls0)). unfold plus. cbn [AB tot_of].
    pose proof (b2z_range (g_abort g0)). unfold len in *. cbn [length]. lia. }
  intros Hl. pose proof (Hb (<[i := mkG 0 ONone None false ANone false false None true]> ls)) as H1. rewrite (total_insert ls i g _ Hl) in H1.
  unfold len in *. rewrite length_insert in H1. unfold plus, minus in *. cbn [AB tot_of g_abort b2z] in *. lia.
Qed.
(** Steps of thread [i], which holds [g]: what is known of the state, and what
    has to be shown of the next one. *)
Lemma inv_step t ls i g : inv t ls → ls !! i = Some g → lwf g ∧ t_bad t = false ∧
  ∃ S R Cp Cl Tk A Rg N r rest,
    t_state t = enc S R Cp Cl Tk A Rg N r ∧ (sound rest ∧ AB rest < 2 ^ 50) ∧
    books S R Cp Cl Tk Rg N r (b_run t) (b_wak t) (b_task t) (t_freed t) (t_busy t) (plus rest (tot_of g)) ∧
    place Cp Cl (b_run t) (plus rest (tot_of g)) (t_slot t) ∧ knows g Cl t ∧
    ∀ t' g' S' R' Cp' Cl' Tk' A' Rg' N' r',
      t_bad t' = false → t_state t' = enc S' R' Cp' Cl' Tk' A' Rg' N' r' → lwf g' →
      books S' R' Cp' Cl' Tk' Rg' N' r' (b_run t') (b_wak t') (b_task t') (t_freed t') (t_busy t') (plus rest (tot_of g')) →
      place Cp' Cl' (b_run t') (plus rest (tot_of g')) (t_slot t') → knows g' Cl' t' →
      (Cl = true → Cl' = true) → (t_state t' = t_state t ∨ rights g) → (t_slot t' = t_slot t ∨ some (g_slot g) = true) →
      inv t' (<[i := g']> ls).
Proof.
  intros (Hbad & Hlen & S & R & Cp & Cl & Tk & A & Rg & N & r & Hw & HB & HP & Hk) Hl.
  assert (Hwf : ∀ i g, ls !! i = Some g → lwf g) by (intros j gj Hj; apply (Hk j gj Hj)).
  destruct (Hk i g Hl) as [Hg Hkg]. split_and!; [done|done|].
  exists S, R, Cp, Cl, Tk, A, Rg, N, r, (minus (total ls) (tot_of g)). rewrite plus_minus.
  split; [done|]. split; [split; [by eapply total_rest|]; pose proof (total_AB ls i g Hl); lia|]. do 3 (split; [done|]).
  intros t' g' S' R' Cp' Cl' Tk' A' Rg' N' r' Hbad' Hw' Hg' HB' HP' Hkg' Hcl Hst Hsl.
  split_and!; [done|unfold len in *; by rewrite length_insert|].
  exists S', R', Cp', Cl', Tk', A', Rg', N', r'. rewrite (total_insert ls i g g' Hl). split_and!; [done..|].
  intros j gj Hj. destruct (decide (i = j)) as [<-|Hne].
  { rewrite list_lookup_insert_eq in Hj by (by eapply lookup_lt_Some). injection Hj as <-. done. }
  rewrite list_lookup_insert_ne in Hj by done. destruct (Hk j gj Hj) as [Hgj (Hk1 & Hk2 & Hk3)]. split; [done|].
  pose proof (total_rest2 ls i j g gj Hl Hj Hne Hwf) as Hs. split_and!.
  - intros y Hy. destruct Hsl as [->|Hsl]; [by apply Hk1|]. exfalso. clear HB' HP' Hkg' HP Hk Hwf Hst. unfold books in HB. tots. cbn [tot_of HD] in Hs. rewrite Hsl, Hy in Hs.
    cbn [some b2z] in Hs. lia.
  - intros Hc. by apply Hcl, Hk2.
  - intros w Hkw. destruct Hst as [->|Hr]; [by apply Hk3|]. exfalso. eapply kill_alone; [exact HB|exact Hs|done|done|done|by rewrite Hkw].
Qed.

(** ** Rules for the operations on the memory *)
#[local] Notation triple := (triple inv).
Lemma expect_true (t : task T) : expect true t = t.
Proof. destruct t. unfold expect. cbn. by rewrite orb_false_r. Qed.
(** Memory is not freed as long as someone has a right to it. *)
Lemma alive t ls i g : inv t ls → ls !! i = Some g → rights g → t_freed t = false.
Proof.
  intros HI Hl Hr. destruct (inv_step t ls i g HI Hl) as ((Hg & _ & Hgk) & _ & S & R & Cp & Cl & Tk & A & Rg & N & r & rest & _ & [Hs _] & HB & _).
  clear HI Hl. unfold books in HB. tots. cbn [tot_of RF SC RN TK RG NT AC KL HD AB] in *. pose proof (b2z_range Tk). pose proof (b2z_range (b_task t)).
  destruct (t_freed t); [exfalso|done]. cbn [b2z] in *. destruct Hr as [Hr|[Hr|[w Hr]]]; [lia|rewrite Hr in *; cbn [b2z] in *; lia|].
  rewrite Hr in *. cbn [some b2z] in *. lia.
Qed.
Lemma word_spec {X} i g (f : Z → list (X * Z)) Q : rights g →
  (∀ t ls v w, inv t ls → ls !! i = Some g → (v, w) ∈ f (t_state t) → ∃ g', inv (set_state w t) (<[i := g']> ls) ∧ Q v g') →
  triple i g (word f) Q.
Proof.
  intros Hr Hf. apply triple_step. intros t ls v t' HI Hl Hin. apply list_elem_of_fmap in Hin as ([v' w] & [= -> ->] & Hin). cbn in *.
  rewrite (alive t ls i g HI Hl Hr). cbn [negb]. rewrite expect_true. by eapply Hf.
Qed.
Lemma load_spec i g (Q : Z → ghost → Prop) : rights g → (∀ v, Q v g) → triple i g w_load Q.
Proof.
  intros Hr HQ. apply word_spec; [done|]. intros t ls v w HI Hl [= -> ->]%list_elem_of_singleton. exists g. split; [|done].
  rewrite list_insert_id by done. by destruct t.
Qed.
Lemma fetch_spec i g (f : Z → Z) Q : rights g →
  (∀ t ls, inv t ls → ls !! i = Some g → ∃ g', inv (set_state (f (t_state t)) t) (<[i := g']> ls) ∧ Q (t_state t) g') →
  triple i g (w_fetch f) Q.
Proof. intros Hr Hf. apply word_spec; [done|]. intros t ls v w HI Hl [= -> ->]%list_elem_of_singleton. by apply Hf. Qed.
(** A compare-exchange that fails leaves everything as it is. *)
Lemma cas_weak_spec i g old new Q : rights g →
  (∀ t ls, inv t ls → ls !! i = Some g → t_state t = old → ∃ g', inv (set_state new t) (<[i := g']> ls) ∧ Q (ok old) g') →
  (∀ t ls, inv t ls → ls !! i = Some g → ∃ g', inv t (<[i := g']> ls) ∧ Q (err (t_state t)) g') →
  triple i g (w_cas_weak old new) Q.
Proof.
  intros Hr Hs Hf. assert (Hfail : ∀ t ls, inv t ls → ls !! i = Some g → ∃ g', inv (set_state (t_state t) t) (<[i := g']> ls) ∧ Q (err (t_state t)) g')
    by (intros t ls HI Hl; destruct (Hf t ls HI Hl) as (g' & ? & ?); exists g'; by destruct t).
  apply word_spec; [done|]. intros t ls v w HI Hl Hin. case_decide as Hw.
  - apply elem_of_cons in Hin as [[= -> ->]|[= -> ->]%list_elem_of_singleton]; [by apply Hs|]. rewrite <- Hw. by apply Hfail.
  - apply list_elem_of_singleton in Hin as [= -> ->]. by apply Hfail.
Qed.
Lemma cas_spec i g old new Q : rights g →
  (∀ t ls, inv t ls → ls !! i = Some g → t_state t = old → ∃ g', inv (set_state new t) (<[i := g']> ls) ∧ Q (ok old) g') →
  (∀ v, Q (err v) g) →
  triple i g (w_cas old new) Q.
Proof.
  intros Hr Hs Hf. apply word_spec; [done|]. intros t ls v w HI Hl Hin. case_decide as Hw; apply list_elem_of_singleton in Hin as [= -> ->]; [by apply Hs|].
  exists g. split; [|done]. rewrite list_insert_id by done. by destruct t.
Qed.
(** Changing the word. *)
Lemma word_move t ls i g : inv t ls → ls !! i = Some g → rights g → lwf g ∧
  ∃ S R Cp Cl Tk A Rg N r rest,
    t_state t = enc S R Cp Cl Tk A Rg N r ∧ (sound rest ∧ AB rest < 2 ^ 50) ∧
    books S R Cp Cl Tk Rg N r (b_run t) (b_wak t) (b_task t) (t_freed t) (t_busy t) (plus rest (tot_of g)) ∧
    place Cp Cl (b_run t) (plus rest (tot_of g)) (t_slot t) ∧ knows g Cl t ∧
    ∀ g' S' R' Cp' Cl' Tk' A' Rg' N' r',
      lwf g' →
      books S' R' Cp' Cl' Tk' Rg' N' r' (b_run t) (b_wak t) (b_task t) (t_freed t) (t_busy t) (plus rest (tot_of g')) →
      place Cp' Cl' (b_run t) (plus rest (tot_of g')) (t_slot t) → knows g' Cl' (set_state (enc S' R' Cp' Cl' Tk' A' Rg' N' r') t) →
      (Cl = true → Cl' = true) → inv (set_state (enc S' R' Cp' Cl' Tk' A' Rg' N' r') t) (<[i := g']> ls).
Proof.
  intros HI Hl Hr. destruct (inv_step t ls i g HI Hl) as (Hg & Hbad & S & R & Cp & Cl & Tk & A & Rg & N & r & rest & Hw & Hs & HB & HP & Hk & Hnext).
  split; [done|]. exists S, R, Cp, Cl, Tk, A, Rg, N, r, rest. do 5 (split; [done|]).
  intros g' S' R' Cp' Cl' Tk' A' Rg' N' r' Hg' HB' HP' Hk' Hcl. by eapply Hnext; [..|right|left].
Qed.
(** A thread that neither frees the memory nor has aborted. *)
#[local] Notation G k o s b a x c := (mkG k o s b a x c None false).
Lemma G_rights k o s b a x c : 1 ≤ k + b2z b → rights (G k o s b a x c).
Proof. intros Hk. destruct b; [right; by left|left; cbn in *; lia]. Qed.
#[local] Ltac acct := try match goal with H : ∀ _ : task T, _ |- _ => clear H | H : ∀ _ : ghost, _ |- _ => clear H end; unfold books, place, lwf, knows, sound, plus, minus in *;
  cbn [tot_of RF SC RN TK RG NT AC KL HD AB g_ref g_own g_slot g_task g_aw g_acc g_cl g_kill g_abort some b2z is_ok] in *.
(** Opens the invariant at a step of thread [i]: the flags, the other threads and
    the books. *)
#[local] Ltac open_word HI Hl Hr :=
  let Hg := fresh "Hg" in let Hab := fresh "Hab" in
  destruct (word_move _ _ _ _ HI Hl Hr) as (Hg & S & R & Cp & Cl & Tk & A & Rg & N & r & rest & Hw & [Hs Hab] & HB & HP & Hk & Hnext);
  pose proof (b2z_range S); pose proof (b2z_range R); pose proof (b2z_range Cp); pose proof (b2z_range Cl);
  pose proof (b2z_range Tk); pose proof (b2z_range Rg); pose proof (b2z_range N);
  clear HI Hl Hr.

Lemma clone_waker_spec i k o s b a x c : 1 ≤ k + b2z b →
  triple i (G k o s b a x c) RawTask_clone_waker (λ _ g', g' = G (k + 1) o s b a x c).
Proof.
  intros Hkb. pose proof (G_rights k o s b a x c Hkb) as Hr.
  eapply triple_bind with (Q1 := λ v g', (isize_MAX <? v) = false → g' = G (k + 1) o s b a x c).
  - apply fetch_spec; [done|]. intros t ls HI Hl. open_word HI Hl Hr.
    pose proof (b2z_range (b_task t)). pose proof (b2z_range (t_freed t)). rewrite Hw, many_refs.
    assert (Hrr : 0 ≤ r < 2 ^ 55 + 2 ^ 54) by (acct; lia). rewrite add_ref by done.
    exists (mkG (k + 1) o s b a x c None (2 ^ 55 <=? r)). split; [|by intros ->]. apply Hnext; acct.
    + split; [pose proof (b2z_range (2 ^ 55 <=? r)); lia|]. split; [apply Hg|done].
    + destruct (Z.leb_spec (2 ^ 55) r); cbn [b2z]; lia.
    + exact HP.
    + split; [apply Hk|]. split; [apply Hk|done].
    + done.
  - intros v g' HQ. case_match; [apply triple_panic|]. apply triple_ret. by apply HQ.
Qed.
Lemma touch_spec i g (Q : unit → ghost → Prop) : rights g → Q tt g → triple i g touch Q.
Proof.
  intros Hr HQ. apply triple_atom. intros t ls HI Hl. exists g. split; [|done]. cbn [snd].
  rewrite (alive t ls i g HI Hl Hr). cbn [negb]. rewrite expect_true. by rewrite list_insert_id.
Qed.
(** The same for steps that do not change the word. *)
#[local] Ltac open_inv HI Hl :=
  let Hg := fresh "Hg" in let Hab := fresh "Hab" in
  destruct (inv_step _ _ _ _ HI Hl) as (Hg & Hbad & S & R & Cp & Cl & Tk & A & Rg & N & r & rest & Hw & [Hs Hab] & HB & HP & Hk & Hnext);
  pose proof (b2z_range S); pose proof (b2z_range R); pose proof (b2z_range Cp); pose proof (b2z_range Cl);
  pose proof (b2z_range Tk); pose proof (b2z_range Rg); pose proof (b2z_range N).
#[local] Ltac close_inv Hnext Hbad Hw :=
  eapply Hnext; [exact Hbad|exact Hw| | | | |done|by left|(by left) || (by right)];
  cbn [set_bag set_slot set_awaiter b_run b_wak b_task t_freed t_busy t_slot]; acct.
(** Handles that are given away and taken. *)
Lemma push_run_spec i k b x c :
  triple i (G k OSched (Some SFuture) b ANone x c) put_runnable
    (λ _ g', g' = G (k - 1) ONone None b ANone x c).
Proof.
  apply triple_atom. intros t ls HI Hl. eexists. split; [|done]. cbn [snd]. open_inv HI Hl. clear HI Hl.
  pose proof (b2z_range (b_task t)). pose proof (b2z_range (t_freed t)). pose proof (b2z_range b). pose proof (b2z_range x).
  close_inv Hnext Hbad Hw.
  - split; [lia|done].
  - lia.
  - split; [lia|]. intros _. by apply (proj1 Hk).
  - split; [done|]. split; [apply Hk|done].
Qed.
Lemma pop_run_spec i c :
  triple i (G 0 ONone None false ANone false c)
    pop_runnable
    (λ h g', g' = if h then G 1 OSched (Some SFuture) false ANone false c else G 0 ONone None false ANone false c).
Proof.
  apply triple_atom. intros t ls HI Hl. destruct (Z.ltb_spec 0 (b_run t)) as [Hlt|Hge].
  - exists (G 1 OSched (Some SFuture) false ANone false c). split; [|done]. cbn [snd]. open_inv HI Hl. clear HI Hl.
    pose proof (b2z_range (b_task t)). pose proof (b2z_range (t_freed t)).
    close_inv Hnext Hbad Hw.
    + split; [lia|done].
    + lia.
    + split; lia.
    + split; [|split; [apply Hk|done]]. intros y [= <-]. apply (proj2 HP). lia.
  - eexists. split; [|done]. cbn [snd]. by rewrite list_insert_id.
Qed.
Lemma push_wak_spec i k o s b x c : 1 ≤ k →
  match o with ONone => 0 | _ => 1 end ≤ k - 1 → b2z (some s) ≤ k - 1 + b2z b →
  triple i (G k o s b ANone x c) put_waker (λ _ g', g' = G (k - 1) o s b ANone x c).
Proof.
  intros Hk1 Ho Hsl. apply triple_atom. intros t ls HI Hl. eexists. split; [|done]. cbn [snd]. open_inv HI Hl. clear HI Hl.
  pose proof (b2z_range (b_task t)). pose proof (b2z_range (t_freed t)). pose proof (b2z_range b). pose proof (b2z_range x).
  close_inv Hnext Hbad Hw.
  - split; [destruct o; lia|]. split; [apply Hg|done].
  - lia.
  - exact HP.
  - exact Hk.
Qed.
Lemma pop_wak_spec i c :
  triple i (G 0 ONone None false ANone false c)
    pop_waker
    (λ h g', g' = G (if h then 1 else 0) ONone None false ANone false c).
Proof.
  apply triple_atom. intros t ls HI Hl. destruct (Z.ltb_spec 0 (b_wak t)) as [Hlt|Hge].
  - exists (G 1 ONone None false ANone false c). split; [|done]. cbn [snd]. open_inv HI Hl. clear HI Hl.
    pose proof (b2z_range (b_task t)). pose proof (b2z_range (t_freed t)).
    close_inv Hnext Hbad Hw.
    + split; [lia|done].
    + lia.
    + exact HP.
    + exact Hk.
  - exists (G 0 ONone None false ANone false c). split; [|done]. cbn [snd]. by rewrite list_insert_id.
Qed.
Lemma put_task_spec i c :
  triple i (G 0 ONone None true ANone false c) put_task
    (λ _ g', g' = G 0 ONone None false ANone false c).
Proof.
  apply triple_atom. intros t ls HI Hl. eexists. split; [|done]. cbn [snd]. open_inv HI Hl. clear HI Hl.
  pose proof (b2z_range (b_task t)). pose proof (b2z_range (t_freed t)).
  close_inv Hnext Hbad Hw.
  - split; [lia|done].
  - lia.
  - exact HP.
  - exact Hk.
Qed.
Lemma take_task_spec i c :
  triple i (G 0 ONone None false ANone false c)
    take_task
    (λ h g', g' = G 0 ONone None h ANone false c).
Proof.
  apply triple_atom. intros t ls HI Hl. destruct (b_task t) eqn:Hb.
  - exists (G 0 ONone None true ANone false c). split; [|done]. cbn [snd]. open_inv HI Hl. clear HI Hl.
    pose proof (b2z_range (t_freed t)). rewrite Hb in HB.
    close_inv Hnext Hbad Hw.
    + split; [lia|done].
    + lia.
    + exact HP.
    + exact Hk.
  - exists (G 0 ONone None false ANone false c). split; [|done]. cbn [snd]. by rewrite list_insert_id.
Qed.

(** The place of the future, in the hands of its holder. *)
Lemma in_place_spec {X} i k o y b a x c (f : slot T → option (X * slot T)) d v y' :
  f y = Some (v, y') → 1 ≤ k + b2z b →
  triple i (G k o (Some y) b a x c) (in_place f d) (λ u g', u = v ∧ g' = G k o (Some y') b a x c).
Proof.
  intros Hf Hkb. apply triple_atom. intros t ls HI Hl. exists (G k o (Some y') b a x c).
  pose proof (alive t ls i _ HI Hl (G_rights k o (Some y) b a x c Hkb)) as Hal. open_inv HI Hl. clear HI Hl.
  rewrite (proj1 Hk y eq_refl), Hf, Hal. cbn [fst snd negb]. rewrite expect_true. split; [|done].
  close_inv Hnext Hbad Hw.
  - exact Hg.
  - exact HB.
  - split; lia.
  - split; [by intros ? [= <-]|apply Hk].
Qed.
(** When it is empty and the task closed, it need not be held any longer. *)
Lemma in_place_release_spec {X} i k y b a x (f : slot T → option (X * slot T)) d v :
  f y = Some (v, SEmpty) → 1 ≤ k + b2z b →
  triple i (G k ONone (Some y) b a x true) (in_place f d) (λ u g', u = v ∧ g' = G k ONone None b a x true).
Proof.
  intros Hf Hkb. apply triple_atom. intros t ls HI Hl. exists (G k ONone None b a x true).
  pose proof (alive t ls i _ HI Hl (G_rights k ONone (Some y) b a x true Hkb)) as Hal. open_inv HI Hl. clear HI Hl.
  rewrite (proj1 Hk y eq_refl), Hf, Hal. cbn [fst snd negb]. rewrite expect_true. split; [|done].
  close_inv Hnext Hbad Hw.
  - split; [lia|done].
  - lia.
  - split; [|lia]. intros _. destruct Hk as (_ & Hcl & _). rewrite Hcl by done. by destruct Cp.
  - split; [done|apply Hk].
Qed.

(** ** References *)
Context (size_S : Z).
Lemma call_schedule_spec i k b c : 1 ≤ k → ((0 <? size_S) = true → 2 ≤ k + b2z b) →
  triple i (G k OSched (Some SFuture) b ANone false c) (call_schedule size_S) (λ _ g', g' = G (k - 1) ONone None b ANone false c).
Proof.
  intros Hk1 Hsz. pose proof (b2z_range b). eapply triple_bind with (Q1 := λ _ g', g' = G k OSched (Some SFuture) b ANone false c).
  - case_match; [apply touch_spec; [apply G_rights; lia|done]|by apply triple_ret].
  - intros _ g ->. eapply triple_bind; [apply push_run_spec|]. intros _ g ->.
    case_match; [|by apply triple_ret]. apply touch_spec; [apply G_rights; specialize (Hsz eq_refl); lia|done].
Qed.
(** The thread that drops the last reference can free the memory. *)
Definition last_ref (new : Z) : bool := (Z.land new (Z.lnot (REFERENCE - 1)) =? 0) && (Z.land new TASK =? 0).
Lemma release_spec i k b c : 1 ≤ k →
  triple i (G k ONone None b ANone false c) (w_fetch (λ w, w -u REFERENCE))
    (λ old g', if last_ref (old -u REFERENCE) then k = 1 ∧ b = false ∧ g' = mkG 0 ONone None false ANone false c (Some (old -u REFERENCE)) false
               else g' = G (k - 1) ONone None b ANone false c).
Proof.
  intros Hk1. pose proof (b2z_range b). assert (Hr : rights (G k ONone None b ANone false c)) by (apply G_rights; lia).
  apply fetch_spec; [done|]. intros t ls HI Hl. open_word HI Hl Hr. pose proof (b2z_range (b_task t)). pose proof (b2z_range (t_freed t)).
  rewrite Hw, sub_ref by (acct; lia). unfold last_ref. rewrite has_refs, has_T. destruct (Z.eqb_spec (r - 1) 0) as [He|He], Tk; cbn [negb andb].
  2: { exists (mkG 0 ONone None false ANone false c (Some (enc S R Cp Cl false A Rg N (r - 1))) false).
    assert (k = 1 ∧ b = false) as [-> ->] by (acct; split; [lia|]; destruct b; [cbn [b2z] in *; lia|done]). split; [|done].
    apply Hnext; acct; [split; [lia|done]|lia|exact HP|split; [done|]; split; [apply Hk|by intros ? [= <-]]|done]. }
  all: exists (G (k - 1) ONone None b ANone false c); split; [|done].
  all: apply Hnext; acct; [split; [lia|]; split; [apply Hg|done]|lia|exact HP|split; [apply Hk|]; split; [apply Hk|done]|done].
Qed.
Lemma destroy_spec i w c :
  triple i (mkG 0 ONone None false ANone false c (Some w) false) (RawTask_destroy size_S) (λ _ g', g' = G 0 ONone None false ANone false c).
Proof.
  assert (Hr : rights (mkG 0 ONone None false ANone false c (Some w) false)) by (right; right; by exists w).
  eapply triple_bind with (Q1 := λ _ g', g' = mkG 0 ONone None false ANone false c (Some w) false).
  - case_match; [by apply touch_spec|by apply triple_ret].
  - intros _ g ->. apply triple_atom. intros t ls HI Hl. exists (G 0 ONone None false ANone false c). split; [|done].
    pose proof (alive t ls i _ HI Hl Hr) as Hal. open_inv HI Hl. clear HI Hl. pose proof (b2z_range (b_task t)). cbn [snd]. rewrite Hal in *.
    assert (Hsl : t_slot t = SFuture ∨ t_slot t = SEmpty).
    { destruct HP as [HP _]. acct. assert (Ht : Tk = false ∧ HD rest + 0 + b_run t = 0) by (destruct Tk; cbn [b2z] in *; [lia|split; [done|lia]]).
      destruct Ht as [-> Ht]. specialize (HP Ht). destruct Cp, Cl; cbn [at_rest b2z] in *; auto. lia. }
    replace (match t_slot t with SFuture | SEmpty => true | _ => false end) with true by (by destruct Hsl as [-> | ->]). cbn [negb andb]. rewrite expect_true.
    eapply Hnext; [exact Hbad|exact Hw| | | | |done|by left|by left]; cbn [set_freed b_run b_wak b_task t_freed t_busy t_slot]; acct.
    + split; [lia|done].
    + lia.
    + exact HP.
    + split; [done|]. split; [apply Hk|done].
Qed.
Lemma drop_ref_spec i k b c : 1 ≤ k →
  triple i (G k ONone None b ANone false c) (RawTask_drop_ref size_S) (λ _ g', g' = G (k - 1) ONone None b ANone false c).
Proof.
  intros Hk. eapply triple_bind; [by apply release_spec|]. intros old g Hg; cbv beta in Hg; cbv zeta. fold (last_ref (old -u REFERENCE)). destruct (last_ref (old -u REFERENCE)).
  - destruct Hg as (-> & -> & ->). change (1 - 1) with 0. apply destroy_spec.
  - subst g. by apply triple_ret.
Qed.
(** A task that nobody can wake again is scheduled once more, to be dropped. *)
Lemma reopen_spec i w c : (Z.land w (Z.lor COMPLETED CLOSED) =? 0) = true →
  triple i (mkG 0 ONone None false ANone false c (Some w) false) (w_store (Z.lor (Z.lor SCHEDULED CLOSED) REFERENCE))
    (λ _ g', g' = G 1 OSched (Some SFuture) false ANone false c).
Proof.
  intros Hopen. assert (Hr : rights (mkG 0 ONone None false ANone false c (Some w) false)) by (right; right; by exists w).
  apply word_spec; [done|]. intros t ls v w' HI Hl [= -> ->]%list_elem_of_singleton. open_word HI Hl Hr.
  exists (G 1 OSched (Some SFuture) false ANone false c). split; [|done]. pose proof (b2z_range (b_task t)). pose proof (b2z_range (t_freed t)).
  rewrite <- (proj2 (proj2 Hk) w eq_refl), Hw, has_CpCl in Hopen. apply negb_true_iff, orb_false_iff in Hopen as [-> ->].
  change (Z.lor (Z.lor SCHEDULED CLOSED) REFERENCE) with (enc true false false true false false false false 1).
  apply Hnext; acct.
  - split; [lia|done].
  - lia.
  - split; lia.
  - split; [|split; [done|done]]. intros y [= <-]. apply (proj1 HP). lia.
  - done.
Qed.
Lemma drop_waker_spec i k b c : 1 ≤ k →
  triple i (G k ONone None b ANone false c) (RawTask_drop_waker size_S) (λ _ g', g' = G (k - 1) ONone None b ANone false c).
Proof.
  intros Hk. apply triple_loop with (P := λ _ g, g = G k ONone None b ANone false c); [|done]. intros _ g ->.
  eapply triple_bind; [by apply release_spec|]. intros old g Hg; cbv beta in Hg; cbv zeta. fold (last_ref (old -u REFERENCE)).
  destruct (last_ref (old -u REFERENCE)); [|subst g; by apply triple_ret]. destruct Hg as (-> & -> & ->).
  destruct (Z.land (old -u REFERENCE) (Z.lor COMPLETED CLOSED) =? 0) eqn:Hopen.
  - eapply triple_bind; [by apply reopen_spec|]. intros _ g ->. destruct (0 <? size_S) eqn:Hsz.
    + eapply triple_bind; [by apply clone_waker_spec|]. intros _ g ->. eapply triple_bind; [by apply call_schedule_spec|].
      intros _ g ->. by apply triple_ret.
    + eapply triple_bind; [by apply call_schedule_spec; [|rewrite Hsz]|]. intros _ g ->. by apply triple_ret.
  - eapply triple_bind; [apply destroy_spec|]. intros _ g ->. by apply triple_ret.
Qed.
Lemma schedule_spec i k b c : 1 ≤ k →
  triple i (G k OSched (Some SFuture) b ANone false c) (RawTask_schedule size_S) (λ _ g', g' = G (k - 1) ONone None b ANone false c).
Proof.
  intros Hk. pose proof (b2z_range b). unfold RawTask_schedule. destruct (0 <? size_S) eqn:Hsz; [|apply call_schedule_spec; [done|by rewrite Hsz]].
  eapply triple_bind; [apply clone_waker_spec; lia|]. intros _ g ->.
  eapply triple_bind; [apply call_schedule_spec; lia|]. intros _ g ->. replace (k + 1 - 1) with k by lia. by apply drop_waker_spec.
Qed.
(** A wake-up that finds the task idle makes its thread the one that schedules
    it. *)
Lemma same_word i g state (Q : Result Z Z → ghost → Prop) : rights g → (∀ r, Q r g) → triple i g (w_cas_weak state state) Q.
Proof.
  intros Hr HQ. apply cas_weak_spec; [done| |].
  - intros t ls HI Hl Hst. exists g. split; [|done]. rewrite list_insert_id by done. rewrite <- Hst. by destruct t.
  - intros t ls HI Hl. exists g. by rewrite list_insert_id.
Qed.
Lemma cas_keep_spec i g old new (Q : Result Z Z → ghost → Prop) : rights g →
  (∀ t ls, inv t ls → ls !! i = Some g → t_state t = old → ∃ g', inv (set_state new t) (<[i := g']> ls) ∧ Q (ok old) g') →
  (∀ v, Q (err v) g) → triple i g (w_cas_weak old new) Q.
Proof. intros Hr Hs Hf. apply cas_weak_spec; [done|done|]. intros t ls HI Hl. exists g. by rewrite list_insert_id. Qed.
Lemma wake_by_ref_spec i k o s b c : 1 ≤ k + b2z b → 0 ≤ k →
  triple i (G k o s b ANone false c) (RawTask_wake_by_ref size_S) (λ _ g', g' = G k o s b ANone false c).
Proof.
  intros Hkb Hk0. pose proof (b2z_range b). set (g := G k o s b ANone false c). assert (Hr : rights g) by (by apply G_rights).
  eapply triple_bind with (Q1 := λ _ g', g' = g); [by apply load_spec|]. intros st ? ->.
  apply triple_loop with (P := λ _ g', g' = g); [|done]. clear st. intros st ? ->.
  destruct (Z.land st (Z.lor COMPLETED CLOSED) =? 0) eqn:Hopen; cbn [negb]; [|by apply triple_ret].
  destruct (Z.land st SCHEDULED =? 0) eqn:HS; cbn [negb].
  2: { eapply triple_bind with (Q1 := λ _ g', g' = g); [by apply same_word|]. intros [v|v] ? ->; by apply triple_ret. }
  cbv zeta. destruct (Z.land st RUNNING =? 0) eqn:HR.
  - eapply triple_bind with (Q1 := λ r g', match r with
      | ok _ => o = ONone ∧ s = None ∧ ((isize_MAX <? st) = false → g' = G (k + 1) OSched (Some SFuture) b ANone false c)
      | err _ => g' = g end).
    + apply cas_keep_spec; [done| |done]. intros t ls HI Hl Hst. open_word HI Hl Hr.
      pose proof (b2z_range (b_task t)). pose proof (b2z_range (t_freed t)). rewrite Hw in Hst. subst st.
      rewrite has_CpCl in Hopen. rewrite has_S in HS. rewrite has_R in HR. apply negb_true_iff in HS as ->, HR as ->.
      apply negb_true_iff, orb_false_iff in Hopen as [-> ->]. rewrite many_refs, set_S.
      assert (o = ONone ∧ s = None) as [-> ->].
      { subst g. acct. assert (o = ONone) as -> by (destruct o; [done|lia..]). split; [done|]. destruct s; [|done].
        destruct Hg as (_ & Hg & _). destruct Hk as (_ & Hk & _). by specialize (Hk (Hg eq_refl eq_refl)). }
      exists (mkG (k + 1) OSched (Some SFuture) b ANone false c None (2 ^ 55 <=? r)). split; [|split_and!; [done|done|by intros ->]].
      subst g. rewrite add_ref by (acct; lia). apply Hnext; acct.
      * split; [pose proof (b2z_range (2 ^ 55 <=? r)); lia|]. done.
      * destruct (Z.leb_spec (2 ^ 55) r); cbn [b2z]; lia.
      * split; lia.
      * split; [|split; [apply Hk|done]]. intros y [= <-]. apply (proj1 HP). lia.
      * done.
    + intros [v|v] g' Hg'; [|subst g'; by apply triple_ret]. destruct Hg' as (-> & -> & Hg').
      case_match; [apply triple_panic|]. rewrite (Hg' eq_refl). eapply triple_bind; [apply call_schedule_spec; lia|].
      intros _ ? ->. apply triple_ret. unfold g. by replace (k + 1 - 1) with k by lia.
  - eapply triple_bind with (Q1 := λ _ g', g' = g); [|intros [v|v] ? ->; by apply triple_ret].
    apply cas_keep_spec; [done| |done]. intros t ls HI Hl Hst. open_word HI Hl Hr. exists g. split; [|done].
    pose proof (b2z_range (b_task t)). pose proof (b2z_range (t_freed t)). rewrite Hw in Hst. subst st.
    rewrite has_R in HR. apply negb_false_iff in HR as ->. rewrite set_S. subst g. apply Hnext; acct; [exact Hg|lia|exact HP| |done].
    split; [apply Hk|split; [apply Hk|done]].
Qed.
#[local] Ltac keep Hk := split; [apply Hk|]; split; [apply Hk|done].
#[local] Ltac open_cas Hr st :=
  let HI := fresh "HI" in let Hl := fresh "Hl" in let Hst := fresh "Hst" in
  intros t ls HI Hl Hst; open_word HI Hl Hr; pose proof (b2z_range (b_task t)); pose proof (b2z_range (t_freed t));
  match goal with Hw : t_state t = enc _ _ _ _ _ _ _ _ _ |- _ => rewrite Hw in Hst end; subst st.
#[local] Ltac open_fetch Hr :=
  let HI := fresh "HI" in let Hl := fresh "Hl" in
  intros t ls HI Hl; open_word HI Hl Hr; pose proof (b2z_range (b_task t)); pose proof (b2z_range (t_freed t));
  match goal with Hw : t_state t = enc _ _ _ _ _ _ _ _ _ |- _ => rewrite Hw end.
(** Turns tests of the state word into facts about the flags. *)
#[local] Ltac flags :=
  repeat match goal with
  | H : (Z.land (enc _ _ _ _ _ _ _ _ _) _ =? 0) = _ |- _ => autorewrite with task in H
  | H : negb _ = true |- _ => apply negb_true_iff in H
  | H : negb _ = false |- _ => apply negb_false_iff in H
  | H : _ || _ = false |- _ => apply orb_false_iff in H as [? ?]
  | H : ?b = true |- _ => is_var b; subst b
  | H : ?b = false |- _ => is_var b; subst b
  | H : true = ?b |- _ => is_var b; subst b
  | H : false = ?b |- _ => is_var b; subst b
  end.
Lemma wake_spec i c : triple i (G 1 ONone None false ANone false c) (RawTask_wake size_S) (λ _ g', g' = G 0 ONone None false ANone false c).
Proof.
  unfold RawTask_wake. set (g := G 1 ONone None false ANone false c). assert (Hr : rights g) by (by apply G_rights).
  destruct (0 <? size_S) eqn:Hsz.
  { eapply triple_bind; [by apply wake_by_ref_spec|]. intros _ ? ->. by apply drop_waker_spec. }
  eapply triple_bind with (Q1 := λ _ g', g' = g); [by apply load_spec|]. intros st ? ->.
  apply triple_loop with (P := λ _ g', g' = g); [|done]. clear st. intros st ? ->.
  assert (Hdrop : triple i g (RawTask_drop_waker size_S ;% Ret (inr tt : Z + unit))
    (λ x g', match x with inl _ => g' = g | inr _ => g' = G 0 ONone None false ANone false c end)).
  { eapply triple_bind; [by apply drop_waker_spec|]. intros _ ? ->. by apply triple_ret. }
  destruct (Z.land st (Z.lor COMPLETED CLOSED) =? 0) eqn:Hopen; cbn [negb]; [|exact Hdrop].
  destruct (Z.land st SCHEDULED =? 0) eqn:HS; cbn [negb].
  2: { eapply triple_bind with (Q1 := λ _ g', g' = g); [by apply same_word|]. intros [v|v] ? ->; [exact Hdrop|by apply triple_ret]. }
  destruct (Z.land st RUNNING =? 0) eqn:HR.
  - eapply triple_bind with (Q1 := λ r g', match r with ok _ => g' = G 1 OSched (Some SFuture) false ANone false c | err _ => g' = g end).
    + apply cas_keep_spec; [done| |done]. open_cas Hr st. flags. rewrite set_S. subst g.
      eexists. split; [|done]. apply Hnext; acct; [split; [lia|done]|lia|split; lia| |done].
      split; [|split; [apply Hk|done]]. intros y [= <-]. apply (proj1 HP). lia.
    + intros [v|v] ? ->; [|by apply triple_ret]. eapply triple_bind; [by apply schedule_spec|]. intros _ ? ->. by apply triple_ret.
  - eapply triple_bind with (Q1 := λ _ g', g' = g); [|intros [v|v] ? ->; [exact Hdrop|by apply triple_ret]].
    apply cas_keep_spec; [done| |done]. open_cas Hr st. flags. rewrite set_S. subst g.
    eexists. split; [|done]. apply Hnext; acct; [split; [lia|done]|lia|exact HP|keep Hk|done].
Qed.

(** ** The awaiter *)
Lemma wake_opt_spec i g w : triple i g (wake_opt w) (λ _ g', g' = g).
Proof.
  destruct w as [w|]; [|by apply triple_ret]. apply triple_atom. intros t ls HI Hl. exists g. split; [|done]. cbn [snd].
  rewrite list_insert_id by done. destruct HI as (Hbad & Hlen & S & R & Cp & Cl & Tk & A & Rg & N & r & HI).
  split; [done|]. split; [done|]. by exists S, R, Cp, Cl, Tk, A, Rg, N, r.
Qed.
Lemma awaiter_replace_spec i k o s b a c new : 1 ≤ k + b2z b → a ≠ ANone →
  triple i (G k o s b a false c) (awaiter_replace new) (λ _ g', g' = G k o s b a false c).
Proof.
  intros Hkb Ha. assert (Hr : ∀ x, rights (G k o s b a x c)) by (intros x; by apply G_rights).
  assert (Hone : (match a with AReg => 1 | _ => 0 end) + (match a with ANot => 1 | _ => 0 end) = 1) by (by destruct a).
  eapply triple_bind with (Q1 := λ _ g', g' = G k o s b a true c).
  - apply triple_atom. intros t ls HI Hl. exists (G k o s b a true c). split; [|done]. pose proof (alive t ls i _ HI Hl (Hr false)) as Hal.
    open_inv HI Hl. clear HI Hl Hr. cbn [snd]. rewrite Hal.
    assert (Hb : t_busy t = 0) by (acct; lia). rewrite Hb. cbn [negb andb Z.eqb]. rewrite expect_true. rewrite Hb in HB. rewrite Hal in *.
    close_inv Hnext Hbad Hw; cbn [set_awaiter b_run b_wak b_task t_freed t_busy t_slot] in *.
    + split; [lia|apply Hg].
    + rewrite Hal. cbn [b2z]. lia.
    + exact HP.
    + exact Hk.
  - intros _ ? ->. apply triple_atom. intros t ls HI Hl. exists (G k o s b a false c). split; [|done].
    pose proof (alive t ls i _ HI Hl (Hr true)) as Hal. open_inv HI Hl. clear HI Hl Hr. cbn [snd]. rewrite Hal. cbn [negb]. rewrite expect_true.
    close_inv Hnext Hbad Hw.
    + split; [lia|apply Hg].
    + lia.
    + exact HP.
    + exact Hk.
Qed.
Lemma take_spec i k o s b c current : 1 ≤ k + b2z b →
  triple i (G k o s b ANone false c) (Header_take current) (λ _ g', g' = G k o s b ANone false c).
Proof.
  intros Hkb. assert (Hr : ∀ a, rights (G k o s b a false c)) by (intros a; by apply G_rights).
  eapply triple_bind with (Q1 := λ v g', g' = G k o s b (if Z.land v (Z.lor NOTIFYING REGISTERING) =? 0 then ANot else ANone) false c).
  - pose proof (Hr ANone) as Hr0. apply fetch_spec; [done|]. open_fetch Hr0. rewrite has_NRg, set_N. eexists. split; [|done]. clear Hr.
    apply Hnext; acct.
    + destruct N, Rg; cbn [orb negb]; (split; [lia|apply Hg]).
    + destruct N, Rg; cbn [orb negb b2z] in *; lia.
    + exact HP.
    + keep Hk.
    + done.
  - intros v ? ->. case_match; [|by apply triple_ret]. eapply triple_bind; [by apply awaiter_replace_spec|]. intros w ? ->.
    eapply triple_bind with (Q1 := λ _ g', g' = G k o s b ANone false c); [|intros _ ? ->; repeat case_match; by apply triple_ret].
    pose proof (Hr ANot) as Hr0. apply fetch_spec; [done|]. open_fetch Hr0. rewrite Z.land_assoc, clear_N, clear_A. eexists. split; [|done]. clear Hr.
    apply Hnext; acct.
    + split; [lia|apply Hg].
    + lia.
    + exact HP.
    + keep Hk.
    + done.
Qed.
Lemma notify_spec i k o s b c current : 1 ≤ k + b2z b →
  triple i (G k o s b ANone false c) (Header_notify current) (λ _ g', g' = G k o s b ANone false c).
Proof. intros Hkb. eapply triple_bind; [by apply take_spec|]. intros w ? ->. apply wake_opt_spec. Qed.
Lemma register_spec i k o s c waker : 0 ≤ k →
  triple i (G k o s true ANone false c) (Header_register waker) (λ _ g', g' = G k o s true ANone false c).
Proof.
  intros Hk0. assert (Hr : ∀ a, rights (G k o s true a false c)) by (intros a; apply G_rights; cbn; lia).
  eapply triple_bind with (Q1 := λ m g', g' = G k o s true (match m with Some _ => AReg | None => ANone end) false c).
  - eapply triple_bind with (Q1 := λ _ g', g' = G k o s true ANone false c).
    { apply fetch_spec; [done|]. intros t ls HI Hl. eexists. split; [|done]. rewrite list_insert_id, Z.lor_0_r by done. by destruct t. }
    intros st ? ->. apply triple_loop with (P := λ _ g', g' = G k o s true ANone false c); [|done]. clear st. intros st ? ->.
    destruct (Z.land st NOTIFYING =? 0) eqn:HN; cbn [negb].
    + eapply triple_bind with (Q1 := λ r g', g' = G k o s true (if is_ok r then AReg else ANone) false c); [|intros [v|v] ? ->; by apply triple_ret].
      pose proof (Hr ANone) as Hr0. apply cas_keep_spec; [done| |done]. open_cas Hr0 st. flags. rewrite set_Rg. eexists. split; [|done]. clear Hr.
      apply Hnext; acct; [split; [lia|apply Hg]|lia|exact HP|keep Hk|done].
    + eapply triple_bind; [apply (wake_opt_spec i _ (Some waker))|]. intros _ ? ->. by apply triple_ret.
  - intros [st|] ? ->; [|by apply triple_ret].
    eapply triple_bind; [apply awaiter_replace_spec; [cbn; lia|done]|]. intros _ ? ->.
    eapply triple_bind with (Q1 := λ _ g', g' = G k o s true ANone false c); [|intros w ? ->; apply wake_opt_spec].
    apply triple_loop with (P := λ _ g', g' = G k o s true AReg false c); [|done]. clear st. intros [st w] ? ->.
    eapply triple_bind with (Q1 := λ _ g', g' = G k o s true AReg false c).
    { destruct (Z.land st NOTIFYING =? 0) eqn:HN; cbn [negb]; [by apply triple_ret|].
      eapply triple_bind; [apply awaiter_replace_spec; [cbn; lia|done]|]. intros w' ? ->. by apply triple_ret. }
    clear w. intros w ? ->. cbv zeta.
    eapply triple_bind with (Q1 := λ r g', g' = G k o s true (if is_ok r then ANone else AReg) false c); [|intros [v|v] ? ->; by apply triple_ret].
    pose proof (Hr AReg) as Hr0. apply cas_keep_spec; [done| |done]. open_cas Hr0 st. eexists. split; [|done]. clear Hr.
    destruct w; rewrite clear_N, clear_Rg, ?clear_A, ?set_A; (apply Hnext; acct; [split; [lia|apply Hg]|lia|exact HP|keep Hk|done]).
Qed.

(** ** Running a task *)
(** Reading the word: whoever sees that the task is closed knows it from then on;
    and whoever may run the task knows that it is not completed. *)
Definition learned k o s b a x c (st : Z) (g' : ghost) : Prop :=
  ∃ c', g' = G k o s b a x c' ∧ (c = true → c' = true) ∧ ((Z.land st CLOSED =? 0) = false → c' = true) ∧
    (o ≠ ONone → (Z.land st (Z.lor COMPLETED CLOSED) =? 0) = false → c' = true).
Lemma learn t ls i k o s b a x c : inv t ls → ls !! i = Some (G k o s b a x c) →
  ∃ g', inv t (<[i := g']> ls) ∧ learned k o s b a x c (t_state t) g'.
Proof.
  intros HI Hl. open_inv HI Hl. clear HI Hl. exists (G k o s b a x (c || Cl)). split.
  - eapply Hnext; [exact Hbad|exact Hw| | | | |done|by left|by left]; acct.
    + split; [apply Hg|]. split; [|done]. intros Hs1 Ho. destruct Hg as (_ & Hg & _). by rewrite Hg.
    + exact HB.
    + exact HP.
    + split; [apply Hk|]. split; [|done]. intros [Hc|Hc]%orb_true_iff; [by apply Hk|done].
  - eexists. split; [done|]. rewrite Hw, has_Cl, has_CpCl. split; [by intros ->|]. split.
    + intros ->%negb_false_iff. apply orb_true_r.
    + intros Ho Hc%negb_false_iff. assert (Cp = false) as -> by (destruct Cp; [acct; destruct o; [done|lia..]|done]).
      cbn in Hc. subst Cl. apply orb_true_r.
Qed.
Lemma load_learn_spec i k o s b a x c : 1 ≤ k + b2z b → triple i (G k o s b a x c) w_load (learned k o s b a x c).
Proof.
  intros Hkb. apply word_spec; [by apply G_rights|]. intros t ls v w HI Hl [= -> ->]%list_elem_of_singleton.
  destruct (learn t ls i k o s b a x c HI Hl) as (g' & HI' & Hg'). exists g'. by destruct t.
Qed.
Lemma cas_learn_spec i k o s b a x c old new (Q : Result Z Z → ghost → Prop) : 1 ≤ k + b2z b →
  (∀ t ls, inv t ls → ls !! i = Some (G k o s b a x c) → t_state t = old → ∃ g', inv (set_state new t) (<[i := g']> ls) ∧ Q (ok old) g') →
  (∀ v g', learned k o s b a x c v g' → Q (err v) g') → triple i (G k o s b a x c) (w_cas_weak old new) Q.
Proof.
  intros Hkb Hs Hf. apply cas_weak_spec; [by apply G_rights|done|]. intros t ls HI Hl.
  destruct (learn t ls i k o s b a x c HI Hl) as (g' & HI' & Hg'). exists g'. auto.
Qed.
Lemma finish_spec i k b c st : 1 ≤ k →
  triple i (G k ONone None b ANone false c) (RawTask_finish size_S st) (λ _ g', g' = G (k - 1) ONone None b ANone false c).
Proof.
  intros Hk. pose proof (b2z_range b). eapply triple_bind with (Q1 := λ _ g', g' = G k ONone None b ANone false c).
  - case_match; [apply take_spec; lia|by apply triple_ret].
  - intros w ? ->. eapply triple_bind; [by apply drop_ref_spec|]. intros _ ? ->. apply wake_opt_spec.
Qed.
(** Who may run a closed task has dropped its future, and gives up the right to
    run it. *)
Lemma stop_spec i o f : (o = OSched ∧ f = (λ w, Z.land w (Z.lnot SCHEDULED)) ∨ o = ORun ∧ f = (λ w, Z.land w (Z.land (Z.lnot RUNNING) (Z.lnot SCHEDULED)))) →
  triple i (G 1 o (Some SEmpty) false ANone false true) (w_fetch f) (λ _ g', g' = G 1 ONone None false ANone false true).
Proof.
  intros Ho. assert (Hr : rights (G 1 o (Some SEmpty) false ANone false true)) by (by apply G_rights).
  apply fetch_spec; [done|]. open_fetch Hr. eexists. split; [|done].
  assert (Hcl : Cl = true) by (by apply Hk). subst Cl. assert (Hsl : t_slot t = SEmpty) by (by apply Hk).
  destruct Ho as [[-> ->]|[-> ->]]; [rewrite clear_S|rewrite Z.land_assoc, clear_R, clear_S];
    (apply Hnext; acct; [split; [lia|done]|lia|split; [intros _; rewrite Hsl; by destruct Cp|lia]|done|done]).
Qed.
Lemma run_start_spec i c : triple i (G 1 OSched (Some SFuture) false ANone false c) (RawTask_run_start size_S)
  (λ r g', match r with
           | Some st => (Z.land st CLOSED =? 0) = true ∧ ∃ c', g' = G 1 ORun (Some SFuture) false ANone false c'
           | None => ∃ c', g' = G 0 ONone None false ANone false c'
           end).
Proof.
  eapply triple_bind; [by apply load_learn_spec|]. intros st g Hg.
  apply triple_loop with (P := learned 1 OSched (Some SFuture) false ANone false false).
  2: { destruct Hg as (c' & -> & _ & Hcl). by exists c'. }
  clear st g Hg. intros st g (c' & -> & _ & Hcl & _). destruct (Z.land st CLOSED =? 0) eqn:HCl; cbn [negb].
  - eapply triple_bind with (Q1 := λ r g', match r with
      | ok _ => (Z.land (Z.lor (Z.land st (Z.lnot SCHEDULED)) RUNNING) CLOSED =? 0) = true ∧ g' = G 1 ORun (Some SFuture) false ANone false c'
      | err v => learned 1 OSched (Some SFuture) false ANone false false v g' end).
    + assert (Hr : rights (G 1 OSched (Some SFuture) false ANone false c')) by (by apply G_rights).
      apply cas_learn_spec; [done| |intros v g' (c'' & -> & _ & Hl'); by exists c'']. open_cas Hr st. flags. rewrite clear_S, set_R, has_Cl. eexists. split; [|done].
      apply Hnext; acct; [split; [lia|done]|lia|split; lia|keep Hk|done].
    + intros [v|v] g Hg; [|by apply triple_ret]. destruct Hg as [Hg ->]. apply triple_ret. eauto.
  - rewrite Hcl by done. eapply triple_bind; [by apply in_place_spec|]. intros _ ? [_ ->].
    eapply triple_bind; [apply stop_spec; by left|]. intros st' ? ->.
    eapply triple_bind; [by apply finish_spec|]. intros _ ? ->. apply triple_ret. by exists true.
Qed.
Lemma run_ready_spec i c out st : triple i (G 1 ORun (Some SFuture) false ANone false c) (RawTask_run_ready size_S out st)
  (λ _ g', ∃ c', g' = G 0 ONone None false ANone false c').
Proof.
  eapply triple_bind; [by apply in_place_spec|]. intros _ ? [_ ->]. eapply triple_bind; [by apply in_place_spec|]. intros _ ? [_ ->].
  set (g := G 1 ORun (Some (SOutput out)) false ANone false c). assert (Hr : rights g) by (by apply G_rights).
  apply triple_loop with (P := λ _ g', g' = g); [|done]. clear st. intros st ? ->. cbv zeta.
  eapply triple_bind with (Q1 := λ r g', match r with
    | ok _ => if (Z.land st TASK =? 0) || negb (Z.land st CLOSED =? 0) then g' = G 1 ONone (Some (SOutput out)) false ANone false true
              else g' = G 1 ONone None false ANone false c
    | err _ => g' = g end).
  - apply cas_keep_spec; [done| |done]. open_cas Hr st. subst g. rewrite has_T, has_Cl. rewrite !clear_R, !clear_S, !set_Cp, !set_Cl.
    assert (Hsl : t_slot t = SOutput out) by (by apply Hk). rewrite negb_involutive.
    destruct Tk, Cl; cbn [negb orb]; (eexists; split; [|done]; apply Hnext; acct;
      [split; [lia|done]|lia|split; [|lia]|split; [|split; [done || apply Hk|done]]|done]); try done; try lia.
    + by intros ? [= <-].
    + intros _. by exists out.
    + by intros ? [= <-].
    + by intros ? [= <-].
  - intros [v|v] g' Hg'; [|subst g'; by apply triple_ret].
    eapply triple_bind with (Q1 := λ _ g', ∃ c', g' = G 1 ONone None false ANone false c').
    + case_match; subst g'; [|apply triple_ret; eauto]. eapply triple_bind; [by apply in_place_release_spec|]. intros w ? [_ ->]. apply triple_ret. eauto.
    + intros _ ? (c' & ->). eapply triple_bind; [by apply finish_spec|]. intros _ ? ->. apply triple_ret. by exists c'.
Qed.
Lemma run_pending_spec i c st : (Z.land st CLOSED =? 0) = true →
  triple i (G 1 ORun (Some SFuture) false ANone false c) (RawTask_run_pending size_S st) (λ _ g', ∃ c', g' = G 0 ONone None false ANone false c').
Proof.
  intros Hst0. apply triple_loop with (P := λ '(st, fd) g, ∃ c', g = G 1 ORun (Some (if fd : bool then SEmpty else SFuture)) false ANone false c' ∧
    ((Z.land st CLOSED =? 0) = false → c' = true) ∧ (fd = true → c' = true)).
  2: { exists c. split_and!; [done|by rewrite Hst0|done]. }
  clear st Hst0 c. intros [st fd] g (c & -> & Hcl & Hfd). cbv zeta.
  eapply triple_bind with (Q1 := λ fd' g, fd' = negb (Z.land st CLOSED =? 0) || fd ∧ g = G 1 ORun (Some (if fd' : bool then SEmpty else SFuture)) false ANone false c).
  { destruct (Z.land st CLOSED =? 0), fd; cbn [negb andb orb]; try (by apply triple_ret).
    eapply triple_bind; [by apply in_place_spec|]. intros _ ? [_ ->]. by apply triple_ret. }
  intros fd' g [Hfd0 ->]. assert (Hfd' : fd' = true → c = true).
  { rewrite Hfd0. destruct (Z.land st CLOSED =? 0), fd; cbn; auto. }
  assert (Hr : rights (G 1 ORun (Some (if fd' then SEmpty else SFuture)) false ANone false c)) by (by apply G_rights).
  eapply triple_bind with (Q1 := λ r g', match r with
    | ok v => v = st ∧ g' = if negb (Z.land st CLOSED =? 0) then G 1 ONone None false ANone false c
              else if negb (Z.land st SCHEDULED =? 0) then G 1 OSched (Some SFuture) false ANone false c else G 1 ONone None false ANone false c
    | err v => learned 1 ORun (Some (if fd' then SEmpty else SFuture)) false ANone false c v g' end).
  - apply cas_learn_spec; [done| |done]. open_cas Hr st. clear Hcl Hfd. rewrite has_Cl, negb_involutive in Hfd0. rewrite has_Cl, has_S, !negb_involutive, !clear_R, !clear_S.
    assert (Hfl : fd' = Cl) by (destruct Cl; [by rewrite Hfd0|]; destruct fd'; [|done]; symmetry; apply Hk; by apply Hfd').
    clear Hfd' Hfd0. subst fd'.
    assert (Hsl : t_slot t = if Cl then SEmpty else SFuture) by (by apply Hk).
    destruct Cl, S; (eexists; split; [|split; [done|done]]; apply Hnext; acct; [split; [lia|done]|lia|split; [|lia]|split; [|split; [done || apply Hk|done]]|done]); try done; try lia.
    + intros _. rewrite Hsl. by destruct Cp.
    + intros _. rewrite Hsl. by destruct Cp.
    + by intros ? [= <-].
    + intros _. rewrite Hsl. destruct Cp; [cbn [b2z] in *; lia|done].
  - intros [v|v] g Hg.
    + destruct Hg as [-> ->]. destruct (negb (Z.land st CLOSED =? 0)).
      { eapply triple_bind; [by apply finish_spec|]. intros _ ? ->. apply triple_ret. by exists c. }
      destruct (negb (Z.land st SCHEDULED =? 0)).
      { eapply triple_bind; [by apply schedule_spec|]. intros _ ? ->. apply triple_ret. by exists c. }
      eapply triple_bind; [by apply drop_ref_spec|]. intros _ ? ->. apply triple_ret. by exists c.
    + destruct Hg as (c' & -> & Hcc & Hc' & _). apply triple_ret. exists c'. split_and!; [done|done|]. intros Hf. by apply Hcc, Hfd'.
Qed.
Lemma guard_spec i c : triple i (G 1 ORun (Some SFuture) false ANone false c) (Guard_drop size_S) (λ _ g', ∃ c', g' = G 0 ONone None false ANone false c').
Proof.
  eapply triple_bind; [by apply load_learn_spec|]. intros st g Hg.
  apply triple_loop with (P := learned 1 ORun (Some SFuture) false ANone false false).
  2: { destruct Hg as (c' & -> & _ & Hcl). by exists c'. }
  clear st g Hg. intros st g (c' & -> & _ & Hcl & _). destruct (Z.land st CLOSED =? 0) eqn:HCl; cbn [negb].
  - eapply triple_bind with (Q1 := λ r g', match r with
      | ok _ => g' = G 1 ONone (Some SFuture) false ANone false true
      | err v => learned 1 ORun (Some SFuture) false ANone false false v g' end).
    + assert (Hr : rights (G 1 ORun (Some SFuture) false ANone false c')) by (by apply G_rights).
      apply cas_learn_spec; [done| |intros v g' (c'' & -> & _ & Hl'); by exists c'']. open_cas Hr st. flags. rewrite clear_R, clear_S, set_Cl.
      eexists. split; [|done]. apply Hnext; acct; [split; [lia|done]|lia|split; lia|split; [apply Hk|done]|done].
    + intros [v|v] g Hg; [|by apply triple_ret]. subst g. eapply triple_bind; [by apply in_place_release_spec|]. intros _ ? [_ ->].
      eapply triple_bind; [by apply finish_spec|]. intros _ ? ->. apply triple_ret. by exists true.
  - rewrite Hcl by done. eapply triple_bind; [by apply in_place_spec|]. intros _ ? [_ ->].
    eapply triple_bind; [apply stop_spec; by right|]. intros st' ? ->.
    eapply triple_bind; [by apply finish_spec|]. intros _ ? ->. apply triple_ret. by exists true.
Qed.
(** [run], for a future that gives back what it was given. *)
Lemma run_spec i c poll :
  (∀ c, triple i (G 1 ORun (Some SPolling) false ANone false c) poll (λ _ g', g' = G 1 ORun (Some SPolling) false ANone false c)) →
  triple i (G 1 OSched (Some SFuture) false ANone false c) (RawTask_run size_S poll) (λ _ g', ∃ c', g' = G 0 ONone None false ANone false c').
Proof.
  intros Hpoll. eapply triple_bind; [apply run_start_spec|]. intros [st|] g Hg; [|by apply triple_ret]. destruct Hg as [Hst (c' & ->)].
  eapply triple_bind; [by apply in_place_spec|]. intros _ ? [_ ->]. eapply triple_bind; [apply Hpoll|]. intros r ? ->.
  eapply triple_bind; [by apply in_place_spec|]. intros _ ? [_ ->]. destruct r as [[out|]|].
  - eapply triple_bind; [apply run_ready_spec|]. intros ? g Hg. by apply triple_ret.
  - by apply run_pending_spec.
  - eapply triple_bind; [apply guard_spec|]. intros ? g Hg. apply triple_panic.
Qed.
Lemma runnable_drop_spec i c : triple i (G 1 OSched (Some SFuture) false ANone false c) (Runnable_drop size_S)
  (λ _ g', ∃ c', g' = G 0 ONone None false ANone false c').
Proof.
  eapply triple_bind; [by apply load_learn_spec|]. intros st g Hg.
  eapply triple_bind with (Q1 := λ _ g', g' = G 1 OSched (Some SFuture) false ANone false true).
  - apply triple_loop with (P := learned 1 OSched (Some SFuture) false ANone false false).
    2: { destruct Hg as (c' & -> & _ & Hcl). by exists c'. }
    clear st g Hg. intros st g (c' & -> & _ & _ & Hcl). destruct (Z.land st (Z.lor COMPLETED CLOSED) =? 0) eqn:Hopen; cbn [negb].
    + eapply triple_bind with (Q1 := λ r g', match r with
        | ok _ => g' = G 1 OSched (Some SFuture) false ANone false true
        | err v => learned 1 OSched (Some SFuture) false ANone false false v g' end); [|intros [v|v] g Hg; by apply triple_ret].
      assert (Hr : rights (G 1 OSched (Some SFuture) false ANone false c')) by (by apply G_rights).
      apply cas_learn_spec; [done| |intros v g' (c'' & -> & _ & Hl'); by exists c'']. open_cas Hr st. flags. rewrite set_Cl.
      eexists. split; [|done]. apply Hnext; acct; [split; [lia|done]|lia|split; lia|split; [apply Hk|done]|done].
    + apply triple_ret. by rewrite Hcl.
  - intros _ ? ->. eapply triple_bind; [by apply in_place_spec|]. intros _ ? [_ ->].
    eapply triple_bind; [apply stop_spec; by left|]. intros st' ? ->.
    eapply triple_bind with (Q1 := λ _ g', g' = G 1 ONone None false ANone false true).
    { case_match; [by apply notify_spec|by apply triple_ret]. }
    intros _ ? ->. eapply triple_conseq; [by apply drop_ref_spec|]. intros _ ? ->. by exists true.
Qed.

(** ** The [Task] *)
Lemma set_canceled_spec i c : triple i (G 0 ONone None true ANone false c) (Task_set_canceled size_S) (λ _ g', g' = G 0 ONone None true ANone false c).
Proof.
  set (g := G 0 ONone None true ANone false c). assert (Hr : rights g) by (by apply G_rights).
  eapply triple_bind with (Q1 := λ _ g', g' = g); [by apply load_spec|]. intros st ? ->.
  apply triple_loop with (P := λ _ g', g' = g); [|done]. clear st. intros st ? ->. cbv zeta.
  destruct (Z.land st (Z.lor COMPLETED CLOSED) =? 0) eqn:Hopen; cbn [negb]; [|by apply triple_ret].
  eapply triple_bind with (Q1 := λ r g', match r with
    | ok _ => g' = if Z.land st (Z.lor SCHEDULED RUNNING) =? 0 then G 1 OSched (Some SFuture) true ANone false c else g
    | err _ => g' = g end).
  - apply cas_keep_spec; [done| |done]. open_cas Hr st. flags. subst g. rewrite has_SR. destruct (S || R) eqn:HSR; cbn [negb].
    + rewrite set_Cl. eexists. split; [|done]. apply Hnext; acct; [split; [lia|done]| |split; [|apply HP]|split; [done|split; done]|done].
      * lia.
      * intros Hz. destruct S, R; cbn [b2z] in *; try done; lia.
    + apply orb_false_iff in HSR as [-> ->]. rewrite set_S, set_Cl, add_ref by (acct; lia). eexists. split; [|done].
      apply Hnext; acct; [split; [lia|done]|lia|split; lia|split; [|split; done]|done]. intros y [= <-]. apply (proj1 HP). lia.
  - intros [v|v] ? ->; [|by apply triple_ret]. eapply triple_bind with (Q1 := λ _ g', g' = g).
    + case_match; [|by apply triple_ret]. by apply schedule_spec.
    + intros _ ? ->. eapply triple_bind with (Q1 := λ _ g', g' = g); [case_match; [by apply notify_spec|by apply triple_ret]|].
      intros _ ? ->. by apply triple_ret.
Qed.
(** Closing a completed task takes its output out. *)
Lemma close_completed st i c : (Z.land st COMPLETED =? 0) = false → (Z.land st CLOSED =? 0) = true →
  ∀ t ls, inv t ls → ls !! i = Some (G 0 ONone None true ANone false c) → t_state t = st →
  ∃ v, inv (set_state (Z.lor st CLOSED) t) (<[i := G 0 ONone (Some (SOutput v)) true ANone false true]> ls).
Proof.
  intros HCp HCl. assert (Hr : rights (G 0 ONone None true ANone false c)) by (by apply G_rights). open_cas Hr st. flags. rewrite set_Cl.
  destruct (proj1 HP) as [v Hv]; [acct; lia|]. exists v. apply Hnext; acct; [split; [lia|done]|lia|split; lia|split; [by intros ? [= <-]|done]|done].
Qed.
Lemma take_output_spec i v : triple i (G 0 ONone (Some (SOutput v)) true ANone false true) RawTask_get_output
  (λ _ g', g' = G 0 ONone None true ANone false true).
Proof. eapply triple_conseq; [by apply in_place_release_spec|]. by intros ? ? [_ ->]. Qed.
(** Letting go of the [Task]: the last one to hold anything schedules the task once
    more, to be dropped, or frees the memory. *)
Definition detached (st : Z) c (g' : ghost) : Prop :=
  if Z.land st (Z.lnot (REFERENCE - 1)) =? 0 then
    if Z.land st CLOSED =? 0 then g' = G 1 OSched (Some SFuture) false ANone false c
    else ∃ w, g' = mkG 0 ONone None false ANone false c (Some w) false
  else g' = G 0 ONone None false ANone false c.
Lemma detach_cas_spec i c st : negb (Z.land st COMPLETED =? 0) && (Z.land st CLOSED =? 0) = false →
  triple i (G 0 ONone None true ANone false c)
    (w_cas_weak st (if Z.land st (Z.lor (Z.lnot (REFERENCE - 1)) CLOSED) =? 0 then Z.lor (Z.lor SCHEDULED CLOSED) REFERENCE else Z.land st (Z.lnot TASK)))
    (λ r g', match r with ok _ => detached st c g' | err _ => g' = G 0 ONone None true ANone false c end).
Proof.
  intros Hnot. assert (Hr : rights (G 0 ONone None true ANone false c)) by (by apply G_rights).
  apply cas_keep_spec; [done| |done]. open_cas Hr st. unfold detached. rewrite has_Cp, has_Cl, negb_involutive in Hnot.
  rewrite has_refs_Cl by (acct; lia). rewrite has_refs, has_Cl, clear_T. destruct (Z.eqb_spec r 0) as [Hr0|Hr0], Cl; cbn [negb andb] in *.
  - eexists. split; [|by eexists]. apply Hnext; acct; [split; [lia|done]|lia|exact HP|split; [done|split; [done|by intros ? [= <-]]]|done].
  - eexists. split; [|done]. assert (Cp = false) as -> by (by destruct Cp).
    change (Z.lor (Z.lor SCHEDULED CLOSED) REFERENCE) with (enc true false false true false false false false 1).
    apply Hnext; acct; [split; [lia|done]|lia|split; lia|split; [|split; done]|done]. intros y [= <-]. apply (proj1 HP). lia.
  - eexists. split; [|done]. apply Hnext; acct; [split; [lia|done]|lia|exact HP|keep Hk|done].
  - eexists. split; [|done]. assert (Cp = false) as -> by (by destruct Cp).
    apply Hnext; acct; [split; [lia|done]|lia|exact HP|keep Hk|done].
Qed.
Lemma set_detached_slow_spec i c st : triple i (G 0 ONone None true ANone false c) (Task_set_detached_slow size_S st)
  (λ _ g', ∃ c', g' = G 0 ONone None false ANone false c').
Proof.
  apply triple_loop with (P := λ _ g, ∃ c', g = G 0 ONone None true ANone false c'); [|by exists c]. clear st c. intros [st out] g (c & ->). cbv zeta.
  destruct (negb (Z.land st COMPLETED =? 0) && (Z.land st CLOSED =? 0)) eqn:Hdone.
  - apply andb_true_iff in Hdone as [HCp%negb_true_iff HCl]. eapply triple_bind with (Q1 := λ r g', match r with
      | ok _ => ∃ v, g' = G 0 ONone (Some (SOutput v)) true ANone false true | err _ => g' = G 0 ONone None true ANone false c end).
    + apply cas_keep_spec; [by apply G_rights| |done]. intros t ls HI Hl Hst. destruct (close_completed st i c HCp HCl t ls HI Hl Hst) as (v & HI'). eauto.
    + intros [w|w] g Hg; [|subst g; apply triple_ret; by exists c]. destruct Hg as (v & ->).
      eapply triple_bind; [apply take_output_spec|]. intros o ? ->. apply triple_ret. by exists true.
  - eapply triple_bind; [by apply detach_cas_spec|]. intros [w|w] g Hg; [|rewrite Hg; apply triple_ret; by exists c].
    eapply triple_bind with (Q1 := λ _ g', g' = G 0 ONone None false ANone false c); [|intros _ ? ->; apply triple_ret; by exists c].
    unfold detached in Hg. destruct (Z.land st (Z.lnot (REFERENCE - 1)) =? 0); [|subst g; by apply triple_ret].
    destruct (Z.land st CLOSED =? 0); [subst g; by apply schedule_spec|]. destruct Hg as (w' & ->). apply destroy_spec.
Qed.
Lemma set_detached_spec i c : triple i (G 0 ONone None true ANone false c) (Task_set_detached size_S) (λ _ g', ∃ c', g' = G 0 ONone None false ANone false c').
Proof.
  eapply triple_bind with (Q1 := λ r g', g' = G 0 ONone None (negb (is_ok r)) ANone false c).
  - assert (Hr : rights (G 0 ONone None true ANone false c)) by (by apply G_rights).
    apply cas_keep_spec; [done| |done]. intros t ls HI Hl Hst. open_word HI Hl Hr. pose proof (b2z_range (b_task t)). pose proof (b2z_range (t_freed t)).
    rewrite Hw in Hst. change (Z.lor (Z.lor SCHEDULED TASK) REFERENCE) with (enc true false false false true false false false 1) in Hst.
    apply enc_inj in Hst as (-> & -> & -> & -> & -> & -> & HRg & ->). cbn [orb] in HRg. subst Rg.
    change (Z.lor SCHEDULED REFERENCE) with (enc true false false false false false false false 1).
    exists (G 0 ONone None false ANone false c). split; [|done].
    apply Hnext; acct; [split; [lia|done]|lia|exact HP|keep Hk|done].
  - intros [v|v] ? ->; [apply triple_ret; by exists c|apply set_detached_slow_spec].
Qed.
Lemma poll_task_spec i c w : triple i (G 0 ONone None true ANone false c) (Task_poll_task w) (λ _ g', ∃ c', g' = G 0 ONone None true ANone false c').
Proof.
  set (g := G 0 ONone None true ANone false c). assert (Hr : rights g) by (by apply G_rights).
  eapply triple_bind with (Q1 := λ _ g', g' = g); [by apply load_spec|]. intros st ? ->.
  apply triple_loop with (P := λ _ g', g' = g); [|done]. clear st. intros st ? ->.
  destruct (Z.land st CLOSED =? 0) eqn:HCl; cbn [negb].
  - eapply triple_bind with (Q1 := λ go g', g' = g ∧ match go with inr st => (Z.land st COMPLETED =? 0) = false ∧ (Z.land st CLOSED =? 0) = true | _ => True end).
    + destruct (Z.land st COMPLETED =? 0) eqn:HCp; [|by apply triple_ret]. eapply triple_bind; [by apply register_spec|]. intros _ ? ->.
      eapply triple_bind with (Q1 := λ _ g', g' = g); [by apply load_spec|]. intros st' ? ->. apply triple_ret.
      split; [done|]. destruct (Z.land st' CLOSED =? 0) eqn:HCl'; cbn [negb]; [|done]. by destruct (Z.land st' COMPLETED =? 0) eqn:HCp'.
    + intros [[st'|[]]|st'] ? [-> Hgo]; [by apply triple_ret|apply triple_ret; by exists c|]. destruct Hgo as [HCp HCl'].
      eapply triple_bind with (Q1 := λ r g', match r with ok _ => ∃ v, g' = G 0 ONone (Some (SOutput v)) true ANone false true | err _ => g' = g end).
      * apply cas_spec; [done| |done]. intros t ls HI Hl Hst. destruct (close_completed st' i c HCp HCl' t ls HI Hl Hst) as (v & HI'). eauto.
      * intros [u|u] g' Hg'; [|subst g'; by apply triple_ret]. destruct Hg' as (v & ->).
        eapply triple_bind with (Q1 := λ _ g', g' = G 0 ONone (Some (SOutput v)) true ANone false true).
        { case_match; [by apply notify_spec|by apply triple_ret]. }
        intros _ ? ->. eapply triple_bind; [apply take_output_spec|]. intros o ? ->. apply triple_ret. by exists true.
  - eapply triple_bind with (Q1 := λ _ g', g' = g).
    + case_match; [|by apply triple_ret]. eapply triple_bind; [by apply register_spec|]. intros _ ? ->.
      eapply triple_bind with (Q1 := λ _ g', g' = g); [by apply load_spec|]. intros st' ? ->. by apply triple_ret.
    + intros blocked ? ->. case_match; [apply triple_ret; by exists c|]. eapply triple_bind; [by apply notify_spec|]. intros _ ? ->.
      apply triple_ret. by exists c.
Qed.

(** ** Everything a user can do *)
Lemma any_spec {X} i g (choices : list X) (Q : X → ghost → Prop) : (∀ x, Q x g) → triple i g (any choices) Q.
Proof.
  intros HQ. apply triple_step. intros t ls x t' HI Hl Hin. apply list_elem_of_fmap in Hin as (x' & [= -> ->] & _).
  exists g. split; [|done]. by rewrite list_insert_id.
Qed.
Lemma any_poll_spec i c outs : triple i (G 1 ORun (Some SPolling) false ANone false c) (any_poll size_S outs)
  (λ _ g', g' = G 1 ORun (Some SPolling) false ANone false c).
Proof.
  set (g := G 1 ORun (Some SPolling) false ANone false c).
  apply triple_loop with (P := λ _ g', g' = g); [|done]. intros _ ? ->.
  eapply triple_bind with (Q1 := λ _ g', g' = g); [by apply any_spec|]. intros [| |r] ? ->; [| |by apply triple_ret].
  - eapply triple_bind; [by apply clone_waker_spec|]. intros _ ? ->. eapply triple_bind; [by apply push_wak_spec|]. intros _ ? ->. by apply triple_ret.
  - eapply triple_bind; [by apply wake_by_ref_spec|]. intros _ ? ->. by apply triple_ret.
Qed.
Definition idle (g : ghost) : Prop := ∃ c, g = G 0 ONone None false ANone false c.
Lemma with_runnable_spec i c (p : prog (task T) unit) :
  (∀ c, triple i (G 1 OSched (Some SFuture) false ANone false c) p (λ _, idle)) →
  triple i (G 0 ONone None false ANone false c) (with_handle pop_runnable p) (λ _, idle).
Proof. intros Hp. eapply triple_bind; [apply pop_run_spec|]. intros [] ? ->; [apply Hp|apply triple_ret; by exists c]. Qed.
Lemma with_waker_spec i c (p : prog (task T) unit) :
  (∀ c, triple i (G 1 ONone None false ANone false c) p (λ _, idle)) →
  triple i (G 0 ONone None false ANone false c) (with_handle pop_waker p) (λ _, idle).
Proof. intros Hp. eapply triple_bind; [apply pop_wak_spec|]. intros [] ? ->; [apply Hp|apply triple_ret; by exists c]. Qed.
Lemma with_task_spec i c (p : prog (task T) unit) :
  (∀ c, triple i (G 0 ONone None true ANone false c) p (λ _, idle)) →
  triple i (G 0 ONone None false ANone false c) (with_handle take_task p) (λ _, idle).
Proof. intros Hp. eapply triple_bind; [apply take_task_spec|]. intros [] ? ->; [apply Hp|apply triple_ret; by exists c]. Qed.
Lemma act_spec i c outs a : triple i (G 0 ONone None false ANone false c) (act size_S outs a) (λ _, idle).
Proof.
  destruct a as [| | | | | | | |w| | | |]; cbn [act].
  - apply with_runnable_spec. intros c'. eapply triple_bind; [apply run_spec; intros; apply any_poll_spec|]. intros ? g Hg. by apply triple_ret.
  - apply with_runnable_spec. intros c'. apply runnable_drop_spec.
  - apply with_runnable_spec. intros c'. eapply triple_conseq; [by apply schedule_spec|]. intros _ ? ->. by exists c'.
  - apply with_runnable_spec. intros c'. eapply triple_bind; [by apply clone_waker_spec|]. intros _ ? ->.
    eapply triple_bind; [by apply push_wak_spec|]. intros _ ? ->. eapply triple_conseq; [apply push_run_spec|]. intros _ ? ->. by exists c'.
  - apply with_waker_spec. intros c'. eapply triple_conseq; [apply wake_spec|]. intros _ ? ->. by exists c'.
  - apply with_waker_spec. intros c'. eapply triple_bind; [by apply wake_by_ref_spec|]. intros _ ? ->.
    eapply triple_conseq; [by apply push_wak_spec|]. intros _ ? ->. by exists c'.
  - apply with_waker_spec. intros c'. eapply triple_bind; [by apply clone_waker_spec|]. intros _ ? ->.
    eapply triple_bind; [by apply push_wak_spec|]. intros _ ? ->. eapply triple_conseq; [by apply push_wak_spec|]. intros _ ? ->. by exists c'.
  - apply with_waker_spec. intros c'. eapply triple_conseq; [by apply drop_waker_spec|]. intros _ ? ->. by exists c'.
  - apply with_task_spec. intros c'. eapply triple_bind; [apply poll_task_spec|]. intros ? ? (c1 & ->).
    eapply triple_conseq; [apply put_task_spec|]. intros _ ? ->. by exists c1.
  - apply with_task_spec. intros c'. eapply triple_bind; [apply set_canceled_spec|]. intros ? ? ->.
    eapply triple_conseq; [apply put_task_spec|]. intros _ ? ->. by exists c'.
  - apply with_task_spec. intros c'. eapply triple_bind with (Q1 := λ _ g', g' = G 0 ONone None true ANone false c').
    { eapply triple_bind with (Q1 := λ _ g', g' = G 0 ONone None true ANone false c'); [apply load_spec; [by apply G_rights|done]|].
      intros st ? ->. by apply triple_ret. }
    intros ? ? ->. eapply triple_conseq; [apply put_task_spec|]. intros _ ? ->. by exists c'.
  - apply with_task_spec. intros c'. eapply triple_bind; [apply set_detached_spec|]. intros ? g Hg. by apply triple_ret.
  - apply with_task_spec. intros c'. eapply triple_bind; [apply set_canceled_spec|]. intros ? ? ->.
    eapply triple_bind; [apply set_detached_spec|]. intros ? g Hg. by apply triple_ret.
Qed.
Lemma user_spec i c outs actions : triple i (G 0 ONone None false ANone false c) (user size_S outs actions) (λ _, idle).
Proof.
  apply triple_loop with (P := λ _, idle); [|by exists c]. clear c. intros _ g (c & ->).
  eapply triple_bind with (Q1 := λ _ g', g' = G 0 ONone None false ANone false c); [by apply any_spec|].
  intros [a|] ? ->; [|apply triple_ret; by exists c]. eapply triple_bind; [apply act_spec|]. intros ? g Hg. by apply triple_ret.
Qed.
Lemma spawned n : Z.of_nat n < 2 ^ 50 → inv spawn (replicate n (G 0 ONone None false ANone false false)).
Proof.
  intros Hn. split; [done|]. split; [unfold len; by rewrite length_replicate|].
  exists true, false, false, false, true, false, false, false, 1. split; [done|].
  assert (Ht : total (replicate n (G 0 ONone None false ANone false false)) = mkTot 0 0 0 0 0 0 0 0 0 0).
  { clear Hn. induction n as [|n IH]; [done|]. cbn [replicate]. change (plus (tot_of (G 0 ONone None false ANone false false)) (total (replicate n (G 0 ONone None false ANone false false))) = mkTot 0 0 0 0 0 0 0 0 0 0).
    by rewrite IH. }
  rewrite Ht. split; [unfold books; cbn; lia|]. split; [split; [cbn; lia|done]|].
  intros i g [-> _]%lookup_replicate. split; [|done]. acct. split; [lia|done].
Qed.
End safe.

(** C4. A task is never misused.  Any number of threads share a spawned task; each
    does anything its handles allow, as often as it likes, in any interleaving of
    their atomic steps, and the future may clone and wake its waker, panic, and
    be ready whenever it likes.  Then: no memory of the task is touched after it
    is freed, nor freed twice; the future is never polled by two threads, nor
    polled or dropped after it is gone; the output is read or dropped at most
    once, and only after it was written; and no two threads are at the awaiter.
    When the memory is freed, no handle is left, and the place that the future and
    the output share holds no output; it may still hold the future, and nothing is
    said about the waker of an awaiter, which may be left as well. *)
Theorem task_never_misused {T} (size_S : Z) (outs : list T) (actionss : list (list action)) ts' t' :
  len actionss < 2 ^ 50 →
  reaches (user size_S outs <$> actionss, spawn) (ts', t') →
  t_bad t' = false ∧
  (t_freed t' = true → b_run t' = 0 ∧ b_wak t' = 0 ∧ b_task t' = false ∧ (t_slot t' = SEmpty ∨ t_slot t' = SFuture)).
Proof.
  intros Hn Hr. destruct (pool_safe inv (λ _ _, idle) _ _ _ _ (replicate (length actionss) (mkG 0 ONone None false ANone false false None false)) Hr)
    as (ls & HI & _).
  - by apply spawned.
  - by rewrite length_fmap, length_replicate.
  - intros i p g Hp [-> _]%lookup_replicate. rewrite list_lookup_fmap in Hp. destruct (actionss !! i); [|done]. injection Hp as <-. apply user_spec.
  - destruct HI as (Hbad & _ & S & R & Cp & Cl & Tk & A & Rg & N & r & _ & HB & HP & Hk). split; [done|]. intros Hfr.
    assert (Hs : sound (total ls)) by (apply total_sound; intros i g Hg; apply (Hk i g Hg)).
    unfold books, sound in *. rewrite Hfr in HB. pose proof (b2z_range Tk). pose proof (b2z_range (b_task t')). cbn [b2z] in HB.
    assert (Hz : Tk = false ∧ b_run t' = 0 ∧ b_wak t' = 0 ∧ b_task t' = false ∧ HD (total ls) + b_run t' = 0)
      by (destruct Tk, (b_task t'); cbn [b2z] in *; split_and!; try done; lia).
    destruct Hz as (-> & ? & ? & ? & Hz). split_and!; [done..|]. destruct HP as [HP _]. specialize (HP Hz). destruct Cp, Cl; cbn in *; auto. lia.
Qed.

(** The future is run and is ready, the [Task] is polled and then dropped: the
    memory is freed. *)
Definition run_poll_drop : list (prog (task Z) unit) * task Z :=
  run_thread 100 0 [1; 0; 4; 0; 2; 3; 0; 0; 0; 0]%nat (user 0 [7] <$> [[ARun; APoll 5; ADropTask]], spawn).
Lemma task_never_misused_witness :
  t_bad run_poll_drop.2 = false ∧ t_freed run_poll_drop.2 = true ∧ b_run run_poll_drop.2 = 0 ∧ t_slot run_poll_drop.2 = SEmpty.
Proof.
  destruct (task_never_misused 0 [7] [[ARun; APoll 5; ADropTask]] run_poll_drop.1 run_poll_drop.2) as [Hbad Hfreed].
  - unfold len. cbn. lia.
  - rewrite <- surjective_pairing. unfold run_poll_drop. apply run_thread_reaches.
  - assert (Hf : t_freed run_poll_drop.2 = true) by (vm_compute; reflexivity).
    split; [exact Hbad|]. split; [exact Hf|]. split; [apply (Hfreed Hf)|]. vm_compute. reflexivity.
Defined.

(** ** What is left behind *)
(** [destroy] says that the task must be closed before it is called, but [run]
    calls it, through [drop_ref], when a detached future is pending and has kept
    no waker.  The task is then neither closed nor completed: its memory is freed
    with the future in it, and the future is never dropped. *)
Lemma run_leaks_future {T} : ∃ ts' (t' : task T),
  reaches ([user 0 [] [ADetach; ARun]], spawn) (ts', t') ∧
  t_freed t' = true ∧ t_slot t' = SFuture ∧ Z.land (t_state t') (Z.lor COMPLETED CLOSED) = 0.
Proof.
  destruct (run_thread 60 0 [1; 0; 2; 0; 3; 0; 0]%nat ([user 0 [] [ADetach; ARun]], spawn (T := T))) as [ts' t'] eqn:Hrun.
  exists ts', t'. split; [rewrite <- Hrun; apply run_thread_reaches|].
  assert (Hfacts : t_freed (ts', t').2 = true ∧ t_slot (ts', t').2 = SFuture ∧ Z.land (t_state (ts', t').2) (Z.lor COMPLETED CLOSED) = 0); [|exact Hfacts].
  rewrite <- Hrun. clear Hrun. vm_compute. split_and!; reflexivity.
Qed.
(** A [Task] that is polled, and so has an awaiter, and is then detached, may
    never wake it or let go of it: when the last waker of the task is dropped, or
    the [Task] itself is the last handle, the state word is overwritten without
    the flag that says that there is an awaiter.  The memory is freed with the
    awaiter's waker in it. *)
Lemma awaiter_left_behind {T} : ∃ ts' (t' : task T),
  reaches ([user 0 [] [APoll 5; ADetach; ARun; ADropWaker]], spawn) (ts', t') ∧
  t_freed t' = true ∧ t_awaiter t' = Some 5%nat ∧ t_woken t' = [].
Proof.
  destruct (run_thread 200 0 [1; 0; 0; 2; 1; 0; 3; 0; 0; 3; 0; 4; 3; 0; 0; 0]%nat ([user 0 [] [APoll 5; ADetach; ARun; ADropWaker]], spawn (T := T))) as [ts' t'] eqn:Hrun.
  exists ts', t'. split; [rewrite <- Hrun; apply run_thread_reaches|].
  assert (Hfacts : t_freed (ts', t').2 = true ∧ t_awaiter (ts', t').2 = Some 5%nat ∧ t_woken (ts', t').2 = []); [|exact Hfacts].
  rewrite <- Hrun. clear Hrun. vm_compute. split_and!; reflexivity.
Qed.
(** What a task may leave behind.  A detached task whose future is pending and
    has kept no waker is freed with the future in it, although [destroy] says that
    the task must be closed before it is called; and a task that was polled and
    then detached is freed with the waker of its awaiter in it, never woken. *)
Theorem task_leaves_behind {T} :
  (∃ ts' (t' : task T), reaches ([user 0 [] [ADetach; ARun]], spawn) (ts', t') ∧
     t_freed t' = true ∧ t_slot t' = SFuture ∧ Z.land (t_state t') (Z.lor COMPLETED CLOSED) = 0) ∧
  (∃ ts' (t' : task T), reaches ([user 0 [] [APoll 5; ADetach; ARun; ADropWaker]], spawn) (ts', t') ∧
     t_freed t' = true ∧ t_awaiter t' = Some 5%nat ∧ t_woken t' = []).
Proof. split; [apply run_leaks_future|apply awaiter_left_behind]. Qed.
